(* ===== verification/_CoqProject ===== *)
-Q . S2P
Prelude.v
PyStr.v
Domain.v
Models.v
World.v
JobEvents.v
BillingEvents.v
JobTransitions.v
TransitionSpec.v
Samples.v
TransitionProps.v
CircuitBreaker.v
FleetsBreakers.v
Blocked.v
Schedule.v
ScheduleProps.v
FreeFleets.v
FreeFleetsProps.v
OutboxDrain.v
OutboxProps.v
UpdateFleets.v
UpdateFleetsProps.v
ScheduleFleets.v
ScheduleFleetsProps.v
StopBlocked.v
Filler.v
SchedulerMain.v
BackgroundExecutor.v
BackgroundExecutorInv.v
BackgroundExecutorProps.v
Json.v
ArgumentsSchema.v
ArgumentsSchemaProps.v
ValidateArguments.v
ValidateArgumentsProps.v
Access.v
Listings.v
AccessProps.v
FunctionSizes.v
RunFunction.v
RunFunctionProps.v
UploadFunction.v
UploadFunctionProps.v
Paths.v
Stores.v
FileStorage.v
FileStorageProps.v
FilesUseCases.v
FilesProps.v
JobEnvironment.v
RayLogs.v
KafkaConsumer.v
KafkaConsumerProps.v
KafkaSender.v
KafkaSenderProps.v
TextFiles.v
FleetPaths.v
JobStorages.v
FleetHandler.v
FleetsRunner.v
FleetsRunnerProps.v
FleetsAnswersProps.v
Retry.v
JobUseCases.v
JobUseCasesProps.v
JobOutputs.v
JobOutputsProps.v
RayLogsProps.v
RayRunner.v
RayTasks.v
RayTasksProps.v
RayRunnerProps.v
Timeline.v
Authentication.v
AuthenticationProps.v
Endpoints.v
EndpointsProps.v
FleetWrapper.v
IamToken.v
ClientJob.v
