(* ===== verification/Prelude.v ===== *)
(** * Verification of the Qiskit Serverless gateway and scheduler

    The gateway ([src/gateway/api]) lets users upload functions, run them as jobs and read what
    the jobs leave. The scheduler ([src/gateway/scheduler]) is a loop of tasks: it starts the
    queued jobs on Ray clusters or as fleets of IBM Code Engine, follows them, frees what they
    used and delivers the messages they owe. Both share [src/gateway/core]: the tables, the one
    service that changes the status of a job, the runners, the storages and the clients of the
    cloud. This library translates that code into Rocq and proves it correct.

    ** How the code is modelled

    Python that changes state or raises is a computation of the monad [M S A] below: from a
    state, an outcome (a value, or an exception of a class of [exn_type]) and the state left
    behind. Most of the code runs in [Py := M World] ([World.v]): the database, the instance in
    hand, the clocks, the configuration, the messages sent, the scheduler's memory; what also
    drives an external service adds that service's state. [try], [finally], [for] with [break]
    and [transaction.atomic()] are combinators, and an operation is composed of the calls the
    source makes, in its order, with every early return and [except] clause. Times are integer
    microseconds, read from sequences of readings; text is a [string], or a list of code points
    where characters outside ASCII matter; a dict is an association list in insertion order, or
    a [gmap] where the order cannot be seen; rows keep their primary keys.

    Code outside [src/] is a parameter: the Ray and Kubernetes clients, the generated client of
    Code Engine, the object storage, [confluent_kafka], the IBM Cloud SDK, [jsonschema],
    [json] as text, [cryptography], [multiprocessing]. What a theorem needs of one is a class of laws stating its
    documentation ([Class ...Laws], [View]s for what can be observed of it), with an instance
    for a small concrete client, on which the witnesses compute.

    [rel R m] says every run of [m] respects a relation, [preserves] an invariant, [wp] gives a
    postcondition for returning and one for raising; the tactics [rel_auto], [rel_deep],
    [raising_auto] and [inv_run] and the hint databases [pyrel] and [pyraise] walk a handler.

    ** The files

    - Shared: [Prelude] (this file), [PyStr] (methods of [str]), [Json], [Retry]
      ([retry_function]), [TextFiles], [Paths], [Samples].
    - Data: [Domain] ([core/domain]), [Models] ([core/models.py]), [World], [JobEvents],
      [BillingEvents].
    - Status of a job: [JobTransitions] ([core/services/job_transitions.py]);
      [TransitionSpec] gives the abstract lifecycle and [TransitionProps] proves that every
      session of calls, on stale instances too, refines it, keeps the invariant of the rows,
      events and outbox, and never leaves a terminal status.
    - Scheduler, Fleets: [CircuitBreaker], [FleetsBreakers], [Schedule] ([scheduler/schedule.py]),
      [ScheduleFleets], [UpdateFleets], [FreeFleets], [StopBlocked], [Filler], [SchedulerMain],
      each with its [...Props]: fair share and quotas, one fleet per job, a stop that ends, the
      isolation of failures, the health of the loop.
    - Scheduler, Ray: [RayTasks], [RayTasksProps].
    - Messages: [OutboxDrain]/[OutboxProps] (a row is kept until its message left), [KafkaSender]/[KafkaSenderProps]
      (what is reported as delivered was stored in the right region), [KafkaConsumer]/
      [KafkaConsumerProps] (at least once), with the mirror of [Blocked] (redelivery does
      not change the mirror).
    - Background work of the gateway: [BackgroundExecutor], [BackgroundExecutorInv] and
      [BackgroundExecutorProps], a step relation over every interleaving of its threads.
    - Runners: [FleetPaths], [FleetHandler], [FleetsRunner] with [FleetsRunnerProps],
      [FleetsAnswersProps]; [RayRunner], [RayLogs] with [RayRunnerProps], [RayLogsProps].
    - Storages: [Stores], [FileStorage], [FileStorageProps], [JobStorages].
    - Gateway: [Authentication], [AuthenticationProps] (who gets in, and the groups
      of a user), [Endpoints], [EndpointsProps] (what a view answers, for whom it runs, the token
      of a job's status), [Access], [Listings], [AccessProps]
      (who sees what), [FunctionSizes], [UploadFunction], [RunFunction], [ArgumentsSchema],
      [ValidateArguments], [FilesUseCases], [JobUseCases], [JobOutputs], each with its
      [...Props], [JobEnvironment] (the environment and its secrets from upload to container),
      [Timeline] (the admin page of running jobs).
    - Beside them: [FleetWrapper] ([templates/fleet_*_job_wrapper.py], what wraps the command inside a
      fleet's container: its logs as a step relation, where every write gets to its file piece by piece and
      may fail half way), [IamToken] ([core/clients], the provider of
      IAM tokens with its refresher, and the functions operator client), [ClientJob]
      ([src/client], the status of a job and the wait for its end from the Python client).

    A [...Props] file proves what the file it is named after promises. Interfaces are classes
    whose laws the implementations discharge: [FileStorageLaws] by the file system and the object
    storage, [RayApi] by the Ray runner, [CloudLaws], [HashLaws], [SigningLaws] for authentication, [SenderLaws], [DestinationLaws] and [BreakerRefLaws]
    for the outbox, [BrokerLaws] and [DeliveryLaws] for Kafka.

    ** Fuel and bounds

    The [while] of a drain of a region runs on fuel; [OutboxProps.outbox_terminates] gives the
    fuel that is always enough, from the deadline and the clock. The waits of the Ray runner and
    [retry_function] are bounded by their own counters. The scheduler loop is followed for any
    number of iterations, the refresher of tokens for any number of turns; the fuel of the client's wait is
    computed from its timeout ([ClientJob.wait_ends_in_time]). Python integers are unbounded and so is [Z]; limits of the source (of
    bytes, rows, attempts, seconds) are its own constants.

    ** Not modelled

    Log messages, metrics other than those a task counts, tracing; Django's ORM beyond the
    queries as filters of tables, and interleaving inside one transaction, where the source
    takes a row lock. The admin pages and their HTML, serializers and URL routing, the
    management commands and migrations, the settings, the HTTP server and collector of metrics,
    the mock of the Fleets, the hardening and the settings file of the container's wrapper and the rest of
    the Python client are input, output and glue; the client of Code Engine is generated. Floating-point coordinates
    of the timeline's drawing are left out. [PROJECT.json] lists every part with its reason. *)

From Stdlib Require Export Ascii String ZArith Lia.
From stdpp Require Export base option list list_numbers sorting gmap strings.

(** ** Python exceptions

    An exception value is its class and its text ([str(ex)]). *)

Inductive exn_type :=
  | InvalidJobTransitionException
  | RunnerError
  | RunnerRetryableError
  | CosRetryableError
  | FleetAppearedError
  | ValueError
  | KeyError
  | TypeError
  | AttributeError
  | RuntimeError
  | BackgroundExecutorNotInitializedError
  | DoesNotExist
  | OperationalError
  | InterfaceError
  | RetryableError
  | RuntimeApiError
  | ValidationError
  | InvalidEventError
  | InvalidFunctionSizesError
  | FunctionNotFoundException
  | FunctionDisabledException
  | FunctionConfigurationException
  | CustomFunctionNotEntitledException
  | ActiveJobLimitExceeded
  | EngineUnavailableException
  | JobNotFoundException
  | MemoryError
  | OSError
  | FileNotFoundError
  | FileExistsError
  | IsADirectoryError
  | NotADirectoryError
  | ClientError
  | FileNotFoundException
  | RuntimeInvalidStateError
  | RecursionError
  | RequestException
  | KubernetesNotFoundError
  | ResourceNotFoundError
  | NotImplementedError
  | ApiException
  | MaxRetryError
  | ReadTimeoutError
  | ProtocolError
  | BotoConnectionError
  | BotoHTTPClientError
  | TarError
  | TimeoutError
  | UnicodeDecodeError
  | UnicodeEncodeError
  | IsolationError
  | SchemaError
  | UnsupportedSchemaError
  | InvalidArgumentsError
  | InvalidArgumentsException
  | PermissionException
  | IndexError
  | ProviderNotFoundException
  | InvalidAccessException
  | RuntimeFunctionsException
  | RuntimeFunctionsUnavailable
  | KafkaException
  | UnroutableRegionError
  | BufferError
  | DRFValidationError
  | AuthenticationFailed
  | ServiceUnavailable
  | NotFoundError
  | RequestDataTooBig
  | BadSignature
  | OtherException.

Record exn := mk_exn { exn_class : exn_type; exn_str : string }.

#[export] Instance exn_type_eq_dec : EqDecision exn_type.
Proof. solve_decision. Defined.

(** The base classes of the exceptions the handlers name:
    [CosRetryableError < RunnerRetryableError < RunnerError],
    [FleetAppearedError < RunnerRetryableError],
    [BackgroundExecutorNotInitializedError], [NotImplementedError], [UnroutableRegionError < RuntimeError], the [FileNotFoundError] family
    and [RequestException] and [TimeoutError] [< OSError],
    [RuntimeFunctionsUnavailable < RuntimeFunctionsException], the [NotFoundError] family of the gateway and
    [UnicodeDecodeError, UnicodeEncodeError, InvalidFunctionSizesError < ValueError] ([JSONDecodeError] is a [ValueError]
    here). *)
Definition isinstance (e : exn) (c : exn_type) : bool :=
  match c with
  | RunnerError =>
      match exn_class e with
      | RunnerError | RunnerRetryableError | CosRetryableError | FleetAppearedError => true
      | _ => false
      end
  | RunnerRetryableError =>
      match exn_class e with
      | RunnerRetryableError | CosRetryableError | FleetAppearedError => true
      | _ => false
      end
  | RuntimeError =>
      match exn_class e with
      | RuntimeError | BackgroundExecutorNotInitializedError | NotImplementedError | UnroutableRegionError => true
      | _ => false
      end
  | ValueError =>
      match exn_class e with ValueError | UnicodeDecodeError | UnicodeEncodeError | InvalidFunctionSizesError => true | _ => false end
  | NotFoundError =>
      match exn_class e with
      | NotFoundError | JobNotFoundException | ProviderNotFoundException | FunctionNotFoundException | FileNotFoundException => true
      | _ => false
      end
  | RuntimeFunctionsException =>
      match exn_class e with RuntimeFunctionsException | RuntimeFunctionsUnavailable => true | _ => false end
  | OSError =>
      match exn_class e with
      | OSError | RequestException | TimeoutError | FileNotFoundError | FileExistsError | IsADirectoryError | NotADirectoryError => true
      | _ => false
      end
  | c => bool_decide (exn_class e = c)
  end.

(** [scheduler/health.py]: what counts as a database outage. *)
Definition is_db_exception (e : exn) : bool :=
  isinstance e OperationalError || isinstance e InterfaceError.

(** ** The state and exception monad

    A computation reads and writes a state [S] and either returns a value or raises. The
    state survives an exception, as Python's objects do. *)

Inductive outcome (A : Type) :=
  | Ok (a : A)
  | Raise (e : exn).
Arguments Ok {A} a.
Arguments Raise {A} e.

Definition M (S A : Type) : Type := S -> outcome A * S.

Definition ret {S A} (a : A) : M S A := fun s => (Ok a, s).
Definition raise {S A} (e : exn) : M S A := fun s => (Raise e, s).
Definition bind {S A B} (m : M S A) (k : A -> M S B) : M S B :=
  fun s =>
    match m s with
    | (Ok a, s') => k a s'
    | (Raise e, s') => (Raise e, s')
    end.
Definition of_outcome {S A} (o : outcome A) : M S A :=
  match o with Ok a => ret a | Raise e => raise e end.
Definition get {S} : M S S := fun s => (Ok s, s).
Definition gets {S A} (f : S -> A) : M S A := fun s => (Ok (f s), s).
Definition modify {S} (f : S -> S) : M S unit := fun s => (Ok tt, f s).

(** [try: m except ...: h e]: [h] returns [None] for an exception no clause names. *)
Definition try_except {S A} (m : M S A) (h : exn -> option (M S A)) : M S A :=
  fun s =>
    match m s with
    | (Ok a, s') => (Ok a, s')
    | (Raise e, s') =>
        match h e with
        | Some k => k s'
        | None => (Raise e, s')
        end
    end.

(** [try: m finally: f]. *)
Definition try_finally {S A} (m : M S A) (f : M S unit) : M S A :=
  fun s =>
    let '(o, s') := m s in
    match f s' with
    | (Ok _, s'') => (o, s'')
    | (Raise e, s'') => (Raise e, s'')
    end.

(** [for x in l: body x], where [body] answers whether the loop goes on ([break]). *)
Fixpoint for_each {S A} (l : list A) (body : A -> M S bool) : M S unit :=
  match l with
  | [] => ret tt
  | x :: l' => bind (body x) (fun go => if go then for_each l' body else ret tt)
  end.

Declare Scope py_scope.
Delimit Scope py_scope with py.

Notation "x <- m ;; k" := (bind m (fun x => k))
  (at level 100, m at next level, right associativity) : py_scope.
Notation "m ;;; k" := (bind m (fun _ => k))
  (at level 100, right associativity) : py_scope.
#[global] Open Scope py_scope.

Section monad_laws.
Context {S : Type}.

Lemma bind_ok {A B} (m : M S A) (k : A -> M S B) s a s' :
  m s = (Ok a, s') -> bind m k s = k a s'.
Proof. by unfold bind; intros ->. Qed.

Lemma bind_raise {A B} (m : M S A) (k : A -> M S B) s e s' :
  m s = (Raise e, s') -> bind m k s = (Raise e, s').
Proof. by unfold bind; intros ->. Qed.

Lemma of_outcome_ok {A} (o : outcome A) (s s' : S) a : of_outcome o s = (Ok a, s') -> o = Ok a /\ s' = s.
Proof. destruct o; [|done]. by intros [= -> ->]. Qed.

Lemma bind_ok_inv {A B} (m : M S A) (k : A -> M S B) s b s' :
  bind m k s = (Ok b, s') -> exists a s1, m s = (Ok a, s1) /\ k a s1 = (Ok b, s').
Proof. unfold bind. destruct (m s) as [[a|e] s1] eqn:E; naive_solver. Qed.

Lemma bind_raise_inv {A B} (m : M S A) (k : A -> M S B) s e s' :
  bind m k s = (Raise e, s') ->
  m s = (Raise e, s') \/ exists a s1, m s = (Ok a, s1) /\ k a s1 = (Raise e, s').
Proof. unfold bind. destruct (m s) as [[a|e'] s1] eqn:E; naive_solver. Qed.

Lemma bind_ext_ok {A B} (m : M S A) (k k' : A -> M S B) s :
  (forall a s', m s = (Ok a, s') -> k a s' = k' a s') -> bind m k s = bind m k' s.
Proof. intros Hk. unfold bind. destruct (m s) as [[a|e] s'] eqn:E; [by apply Hk|done]. Qed.

Lemma bind_assoc {A B C} (m : M S A) (k : A -> M S B) (h : B -> M S C) s :
  bind (bind m k) h s = bind m (fun a => bind (k a) h) s.
Proof. unfold bind. by destruct (m s) as [[?|?] ?]. Qed.

Lemma try_except_ok {A} (m : M S A) h s a s' :
  m s = (Ok a, s') -> try_except m h s = (Ok a, s').
Proof. by unfold try_except; intros ->. Qed.

Lemma try_except_caught {A} (m : M S A) h s e s' k :
  m s = (Raise e, s') -> h e = Some k -> try_except m h s = k s'.
Proof. by unfold try_except; intros -> ->. Qed.

Lemma try_except_ok_inv {A} (m : M S A) h s a s' :
  try_except m h s = (Ok a, s') ->
  m s = (Ok a, s')
  \/ exists e s1 k, m s = (Raise e, s1) /\ h e = Some k /\ k s1 = (Ok a, s').
Proof.
  unfold try_except. destruct (m s) as [[b|e] s1]; [by left|].
  destruct (h e) as [k|] eqn:E; [|done]. right. by exists e, s1, k.
Qed.

Lemma bind_try_caught {A B} (m : M S A) h (K : A -> M S B) s e s' k :
  m s = (Raise e, s') -> h e = Some k -> bind (try_except m h) K s = bind k K s'.
Proof. intros Hm Hh. unfold bind. by rewrite (try_except_caught _ _ _ _ _ _ Hm Hh). Qed.

Lemma try_except_uncaught {A} (m : M S A) h s e s' :
  m s = (Raise e, s') -> h e = None -> try_except m h s = (Raise e, s').
Proof. by unfold try_except; intros -> ->. Qed.
End monad_laws.

(** ** Relations every run of a computation respects

    [rel R m]: whatever [m] does, returning or raising, the state it leaves is related by
    [R] to the one it started from. For a preorder [R] the property composes, which is how
    the development proves that a whole handler keeps an invariant or only extends a log. *)

Definition rel {S A} (R : S -> S -> Prop) (m : M S A) : Prop := forall s, R s (snd (m s)).

(** [preserves P m]: [m] keeps the invariant [P], exceptions included. *)
Definition preserves {S A} (P : S -> Prop) (m : M S A) : Prop :=
  rel (fun s s' => P s -> P s') m.

Lemma rel_mono {S A} (R R' : S -> S -> Prop) (m : M S A) :
  (forall s s', R s s' -> R' s s') -> rel R m -> rel R' m.
Proof. intros H Hm s. by apply H. Qed.

Section rel_rules.
Context {S : Type} (R : S -> S -> Prop) `{!PreOrder R}.

Lemma rel_ret {A} (a : A) : rel R (ret a).
Proof. intros s. cbn. reflexivity. Qed.

Lemma rel_raise {A} e : rel R (raise (A := A) e).
Proof. intros s. cbn. reflexivity. Qed.

Lemma rel_gets {A} (f : S -> A) : rel R (gets f).
Proof. intros s. cbn. reflexivity. Qed.

Lemma rel_of_outcome {A} (o : outcome A) : rel R (of_outcome o).
Proof. intros s. destruct o; cbn; reflexivity. Qed.

Lemma rel_bind {A B} (m : M S A) (k : A -> M S B) :
  rel R m -> (forall a, rel R (k a)) -> rel R (bind m k).
Proof.
  intros Hm Hk s. unfold bind. specialize (Hm s).
  destruct (m s) as [[a|e] s'] eqn:E; cbn in *; [|done].
  etransitivity; [exact Hm | apply Hk].
Qed.

(** The same from one state, with what the first computation answered at hand. *)
Lemma rel_bind_at {A B} (m : M S A) (k : A -> M S B) s :
  R s (snd (m s)) ->
  (forall a s', m s = (Ok a, s') -> R s s' -> R s' (snd (k a s'))) ->
  R s (snd (bind m k s)).
Proof.
  intros Hm Hk. unfold bind. destruct (m s) as [[a|e] s'] eqn:E; [|done].
  etransitivity; [exact Hm | by apply Hk].
Qed.

(** The same when [m] runs in a later state. *)
Lemma rel_bind_from {A B} (m : M S A) (k : A -> M S B) s0 s :
  R s0 (snd (m s)) ->
  (forall a s', m s = (Ok a, s') -> R s0 s' -> R s0 (snd (k a s'))) ->
  R s0 (snd (bind m k s)).
Proof. intros Hm Hk. unfold bind. destruct (m s) as [[a|e] s'] eqn:E; [by apply Hk|done]. Qed.

Lemma rel_bind_outcome {A B} (o : outcome A) (k : A -> M S B) :
  (forall a, o = Ok a -> rel R (k a)) -> rel R (bind (of_outcome o) k).
Proof. intros Hk s. destruct o as [a|e]; cbn; [by apply Hk|reflexivity]. Qed.

Lemma rel_try_except {A} (m : M S A) h :
  rel R m -> (forall e k, h e = Some k -> rel R k) -> rel R (try_except m h).
Proof.
  intros Hm Hh s. unfold try_except. specialize (Hm s).
  destruct (m s) as [[a|e] s'] eqn:E; cbn in *; [done|].
  destruct (h e) as [k|] eqn:Ek; cbn; [|done].
  etransitivity; [exact Hm | by eapply Hh].
Qed.

Lemma rel_try_finally {A} (m : M S A) f :
  rel R m -> rel R f -> rel R (try_finally m f).
Proof.
  intros Hm Hf s. unfold try_finally. specialize (Hm s).
  destruct (m s) as [o s'] eqn:E; cbn in *. specialize (Hf s').
  destruct (f s') as [[[]|e] s''] eqn:E'; cbn in *; by etransitivity.
Qed.

Lemma rel_for_each {A} (l : list A) body :
  (forall x, rel R (body x)) -> rel R (for_each l body).
Proof.
  intros Hb. induction l as [|x l IH]; cbn; [apply rel_ret|].
  apply rel_bind; [done|]. intros []; [done | apply rel_ret].
Qed.
End rel_rules.

#[export] Instance implication_preorder {S} (P : S -> Prop) :
  PreOrder (fun s s' => P s -> P s').
Proof. split; [by intros ?|]. intros x y z ??. auto. Qed.

Create HintDb pyrel discriminated.
#[export] Hint Resolve rel_ret rel_raise rel_gets rel_of_outcome : pyrel.

(** [rel_auto] walks a handler: binds, branches, exception clauses; the leaves are closed by
    the [pyrel] hints. *)
Ltac rel_step :=
  match goal with
  | |- preserves _ _ => unfold preserves
  | |- rel _ (bind (of_outcome _) _) => apply rel_bind_outcome; [exact _ | intros ? ?]
  | |- rel _ (bind _ _) => apply rel_bind; [exact _ | | intros ?]
  | |- rel _ (try_except _ _) => apply rel_try_except; [exact _ | | intros ? ? ?]
  | |- rel _ (try_finally _ _) => apply rel_try_finally; [exact _ | | ]
  | |- rel _ (for_each _ _) => apply rel_for_each; [exact _ | intros ?]
  | |- rel _ (ret _) => apply rel_ret; exact _
  | |- rel _ (raise _) => apply rel_raise; exact _
  | |- rel _ (gets _) => apply rel_gets; exact _
  | |- rel _ (of_outcome _) => apply rel_of_outcome; exact _
  | |- rel _ (match ?x with _ => _ end) => destruct x eqn:?
  | |- rel _ (let '_ := ?x in _) => destruct x eqn:?
  | H : (match ?x with _ => _ end) = Some _ |- rel _ _ => destruct x eqn:?; simplify_eq
  | H : Some _ = Some _ |- rel _ _ => injection H as <-
  | H : None = Some _ |- _ => discriminate H
  end.
Ltac rel_auto := repeat first [ rel_step | solve [eauto with pyrel] ].

(** ** Postconditions

    [wp m Q E s]: from [s], what [m] returns and leaves satisfies [Q], what it raises and
    leaves satisfies [E]. *)

Definition wp {S A} (m : M S A) (Q : A -> S -> Prop) (E : exn -> S -> Prop) (s : S) : Prop :=
  match m s with
  | (Ok a, s') => Q a s'
  | (Raise e, s') => E e s'
  end.

Section wp_rules.
Context {S : Type}.

Lemma wp_bind {A B} (m : M S A) (k : A -> M S B) Q E s :
  wp m (fun a s' => wp (k a) Q E s') E s -> wp (bind m k) Q E s.
Proof. unfold wp, bind. by destruct (m s) as [[a|e] s']. Qed.

Lemma wp_try_except {A} (m : M S A) h Q E s :
  wp m Q (fun e s' => match h e with Some k => wp k Q E s' | None => E e s' end) s -> wp (try_except m h) Q E s.
Proof. unfold wp, try_except. destruct (m s) as [[a|e] s']; [done|]. by destruct (h e). Qed.

Lemma wp_mono {A} (m : M S A) (Q Q' : A -> S -> Prop) (E E' : exn -> S -> Prop) s :
  wp m Q E s -> (forall a s', Q a s' -> Q' a s') -> (forall e s', E e s' -> E' e s') -> wp m Q' E' s.
Proof. unfold wp. destruct (m s) as [[a|e] s']; auto. Qed.

Lemma wp_and {A} (m : M S A) Q Q' E E' s :
  wp m Q E s -> wp m Q' E' s -> wp m (fun a s' => Q a s' /\ Q' a s') (fun e s' => E e s' /\ E' e s') s.
Proof. unfold wp. destruct (m s) as [[a|e] s']; auto. Qed.

Lemma wp_rel {A} (R : S -> S -> Prop) (m : M S A) s : rel R m -> wp m (fun _ => R s) (fun _ => R s) s.
Proof. intros H. specialize (H s). unfold wp. by destruct (m s) as [[a|e] s']. Qed.

Lemma wp_of_outcome {A} (o : outcome A) (Q : A -> S -> Prop) E s :
  (forall a, o = Ok a -> Q a s) -> (forall e, o = Raise e -> E e s) -> wp (of_outcome o) Q E s.
Proof. destruct o; unfold wp; cbn; auto. Qed.
End wp_rules.

(** [raising P m]: every exception [m] raises satisfies [P]. *)
Definition raising {S A} (P : exn -> Prop) (m : M S A) : Prop := forall s, wp m (fun _ _ => True) (fun e _ => P e) s.

Section raising_rules.
Context {S : Type} (P : exn -> Prop).

Lemma raising_ret {A} (a : A) : raising (S := S) P (ret a). Proof. done. Qed.
Lemma raising_raise {A} e : P e -> raising (S := S) (A := A) P (raise e). Proof. by intros ? ?. Qed.
Lemma raising_gets {A} (f : S -> A) : raising P (gets f). Proof. done. Qed.
Lemma raising_modify f : raising (S := S) P (modify f). Proof. done. Qed.
Lemma raising_bind {A B} (m : M S A) (k : A -> M S B) :
  raising P m -> (forall a, raising P (k a)) -> raising P (bind m k).
Proof. intros Hm Hk s. apply wp_bind. eapply wp_mono; [apply Hm|intros a s' _; apply Hk|done]. Qed.
End raising_rules.

Create HintDb pyraise discriminated.
#[export] Hint Resolve raising_ret raising_gets raising_modify : pyraise.
Ltac raising_step :=
  match goal with
  | |- raising _ (bind _ _) => apply raising_bind; [|intros ?]
  | |- raising _ (ret _) => apply raising_ret
  | |- raising _ (gets _) => apply raising_gets
  | |- raising _ (modify _) => apply raising_modify
  | |- raising _ (raise _) => apply raising_raise; try done
  | |- raising _ (match ?x with _ => _ end) => destruct x eqn:?
  | |- raising _ (let '_ := ?x in _) => destruct x eqn:?
  end.
Ltac raising_auto := repeat first [ raising_step | solve [eauto with pyraise] ].

(** [rel_deep] also unfolds the operations it meets, down to the primitive effects, which are
    closed by computation or by the hypotheses at hand; [tac] is for the wrappers that have a
    rule of their own. *)
Ltac head_of t := match t with ?f _ => head_of f | _ => t end.
Ltac rel_deep tac :=
  repeat first
    [ tac
    | rel_step
    | solve [eauto with pyrel]
    | solve [intros ?; done]
    | match goal with |- rel _ ?m => let h := head_of m in progress unfold h end ].

(** [run_cases] reads off every way a computation can end: it inverts the binds and tests of
    a hypothesis [m s = (o, s')]. *)
Ltac inv_run H :=
  repeat match type of H with
  | bind _ _ _ = (Ok _, _) =>
      let a := fresh "a" in let s := fresh "s" in let H1 := fresh "Hrun" in
      apply bind_ok_inv in H as (a & s & H1 & H)
  | ret _ _ = _ => unfold ret in H; simplify_eq
  | raise _ _ = _ => unfold raise in H; simplify_eq
  | gets _ _ = _ => unfold gets in H; simplify_eq
  | modify _ _ = _ => unfold modify in H; simplify_eq
  end.

(** ** Lists: stable minimum and stable insertion sort by an integer key

    [order_by(key)] and [sorted(key=...)] keep the insertion order of rows with equal
    keys; [first()] takes the head. *)

Section order_by.
Context {A : Type} (key : A -> Z).

Fixpoint insert_by (x : A) (l : list A) : list A :=
  match l with
  | [] => [x]
  | y :: l' => if (key x <=? key y)%Z then x :: y :: l' else y :: insert_by x l'
  end.

Definition order_by (l : list A) : list A := foldr insert_by [] l.

Definition key_le (x y : A) : Prop := (key x <= key y)%Z.

Lemma insert_by_Permutation x l : insert_by x l ≡ₚ x :: l.
Proof.
  induction l as [|y l IH]; cbn; [done|].
  destruct (Z.leb_spec (key x) (key y)); [done|]. rewrite IH. constructor.
Qed.

Lemma order_by_Permutation l : order_by l ≡ₚ l.
Proof. induction l as [|x l IH]; cbn; [done|]. by rewrite insert_by_Permutation, IH. Qed.

Lemma elem_of_order_by x l : x ∈ order_by l <-> x ∈ l.
Proof. by rewrite order_by_Permutation. Qed.

Lemma length_order_by l : length (order_by l) = length l.
Proof. by rewrite order_by_Permutation. Qed.

Lemma insert_by_sorted x l :
  StronglySorted key_le l -> StronglySorted key_le (insert_by x l).
Proof.
  induction 1 as [|y l Hl IH Hy]; cbn; [by repeat constructor|].
  destruct (Z.leb_spec (key x) (key y)).
  - constructor; [by constructor|]. constructor; [done|].
    eapply Forall_impl; [exact Hy|]. unfold key_le. intros; lia.
  - constructor; [done|]. rewrite insert_by_Permutation.
    constructor; [unfold key_le; lia | done].
Qed.

Lemma order_by_sorted l : StronglySorted key_le (order_by l).
Proof. induction l; cbn; [constructor | by apply insert_by_sorted]. Qed.

(** The head of an ordered list is a row with the least key. *)
Lemma head_order_by_min l x y :
  head (order_by l) = Some x -> y ∈ l -> (key x <= key y)%Z.
Proof.
  intros Hx Hy. pose proof (order_by_sorted l) as Hs.
  apply elem_of_order_by in Hy. destruct (order_by l) as [|z l']; [done|].
  cbn in Hx. injection Hx as ->. apply elem_of_cons in Hy as [->|Hy]; [lia|].
  inversion Hs as [|?? _ HF]; subst. rewrite Forall_forall in HF. by apply HF.
Qed.

Lemma head_order_by_elem l x : head (order_by l) = Some x -> x ∈ l.
Proof.
  intros H. apply elem_of_order_by. destruct (order_by l); cbn in *; simplify_eq. set_solver.
Qed.

Lemma head_order_by_None l : head (order_by l) = None <-> l = [].
Proof.
  split; [|by intros ->]. intros H. pose proof (length_order_by l) as HL.
  destruct (order_by l); [|done]. by destruct l.
Qed.
End order_by.

(** ** Truth values of optional strings: [None] and the empty string are false. *)
Definition truthy (o : option string) : bool :=
  match o with
  | Some s => negb (bool_decide (s = EmptyString))
  | None => false
  end.

(** [a or b] on optional strings. *)
Definition or_str (a b : option string) : option string := if truthy a then a else b.

Lemma truthy_spec o : truthy o = true <-> exists s, o = Some s /\ s <> EmptyString.
Proof.
  destruct o as [s|]; cbn.
  - rewrite negb_true_iff, bool_decide_eq_false. split; [by exists s | by intros (? & [= ->] & ?)].
  - split; [done | by intros (? & ? & _)].
Qed.

(** ** Dictionaries, in insertion order

    [d.get(k)], [d[k] = v] (which keeps the place of a key that was there) and [d.pop(k)]. *)
Section dict.
Context {K V : Type} `{EqDecision K}.

Fixpoint d_get (k : K) (d : list (K * V)) : option V :=
  match d with
  | [] => None
  | (k', v) :: d' => if bool_decide (k = k') then Some v else d_get k d'
  end.
Fixpoint d_set (k : K) (v : V) (d : list (K * V)) : list (K * V) :=
  match d with
  | [] => [(k, v)]
  | (k', v') :: d' => if bool_decide (k = k') then (k, v) :: d' else (k', v') :: d_set k v d'
  end.
Definition d_del (k : K) (d : list (K * V)) : list (K * V) := filter (fun kv => kv.1 <> k) d.

Lemma d_get_set k k' v d : d_get k (d_set k' v d) = if bool_decide (k = k') then Some v else d_get k d.
Proof.
  induction d as [|[k0 v0] d IH]; cbn [d_get d_set]; [done|].
  destruct (bool_decide (k' = k0)) eqn:E0; cbn [d_get]; [apply bool_decide_eq_true in E0 as ->; by case_bool_decide|].
  rewrite IH. destruct (bool_decide (k = k0)) eqn:E1; [|done]. apply bool_decide_eq_true in E1 as ->.
  apply bool_decide_eq_false in E0. by rewrite bool_decide_eq_false_2 by congruence.
Qed.
Lemma d_get_del k k' d : d_get k (d_del k' d) = if bool_decide (k = k') then None else d_get k d.
Proof.
  induction d as [|[k0 v0] d IH]; [by case_bool_decide|]. unfold d_del in *. rewrite filter_cons. cbn [fst].
  destruct (decide (k0 <> k')) as [Hd|Hd]; cbn [d_get]; rewrite IH; repeat case_bool_decide; try done; exfalso; apply Hd; congruence.
Qed.
Lemma d_get_elem k v d : d_get k d = Some v -> (k, v) ∈ d.
Proof.
  induction d as [|[k0 v0] d IH]; cbn [d_get]; [done|]. case_bool_decide as E; [intros [= ->]; subst; left|].
  intros H. right. by apply IH.
Qed.
End dict.

(** ** Maps *)

Lemma alter_Some `{Countable K} {A} (f : A -> A) (m : gmap K A) i x :
  m !! i = Some x -> alter f i m = <[i := f x]> m.
Proof.
  intros Hx. apply map_eq. intros j. destruct (decide (i = j)) as [<-|Hne].
  - by rewrite lookup_alter_eq, lookup_insert_eq, Hx.
  - by rewrite lookup_alter_ne, lookup_insert_ne.
Qed.

Lemma submseteq_NoDup {A} (l k : list A) : l ⊆+ k -> NoDup k -> NoDup l.
Proof.
  intros [k' Hp]%submseteq_Permutation Hk. rewrite Hp in Hk. by apply NoDup_app in Hk as [? _].
Qed.

Lemma filter_true {A} (P : A -> Prop) `{forall x, Decision (P x)} (l : list A) :
  Forall P l -> filter P l = l.
Proof. induction 1 as [|x l Hx _ IH]; [done|]. by rewrite filter_cons, decide_True, IH. Qed.

Lemma filter_of_fmap {A B} (f : A -> B) (P : B -> Prop) `{forall x, Decision (P x)} (l : list A) :
  filter P (f <$> l) = f <$> filter (fun x => P (f x)) l.
Proof.
  induction l as [|x l IH]; [done|]. cbn [fmap list_fmap].
  rewrite !filter_cons. destruct (decide (P (f x))); cbn; by rewrite <- IH.
Qed.

Lemma filter_ext_in {A} (P Q : A -> Prop) `{forall x, Decision (P x)} `{forall x, Decision (Q x)}
    (l : list A) :
  (forall x, x ∈ l -> P x <-> Q x) -> filter P l = filter Q l.
Proof.
  induction l as [|x l IH]; intros Hl; [done|]. rewrite !filter_cons.
  assert (filter P l = filter Q l) as -> by (apply IH; intros; apply Hl; by right).
  pose proof (Hl x (list_elem_of_here x l)). repeat case_decide; naive_solver.
Qed.

(** The distinct elements of a list, each where it first occurs. *)
Fixpoint dedup {A} `{EqDecision A} (l : list A) : list A :=
  match l with
  | [] => []
  | x :: l' => x :: filter (fun y => y <> x) (dedup l')
  end.
