(* ===== verification/PyStr.v ===== *)
(** * Python string operations

    The [str] methods the gateway uses, on ASCII text: [split], [join], [lower], [upper],
    [strip], [removeprefix], [startswith], slicing, [replace], [int()] and
    [urllib.parse.unquote]. Each is the function CPython documents, restricted to code points below
    128, which is all the identifiers, labels and CRNs of the gateway use. *)

From S2P Require Import Prelude.

Local Open Scope string_scope.
Local Open Scope list_scope.

(** ** Characters *)

Definition code (c : ascii) : nat := nat_of_ascii c.

(** The ASCII characters [str.strip()] and [int()] treat as blank. *)
Definition is_space (c : ascii) : bool :=
  ((9 <=? code c) && (code c <=? 13) || (28 <=? code c) && (code c <=? 32))%nat.

Definition is_digit (c : ascii) : bool := ((48 <=? code c) && (code c <=? 57))%nat.
Definition is_lower (c : ascii) : bool := ((97 <=? code c) && (code c <=? 122))%nat.
Definition is_upper (c : ascii) : bool := ((65 <=? code c) && (code c <=? 90))%nat.

Definition lower_ascii (c : ascii) : ascii :=
  if is_upper c then ascii_of_nat (code c + 32) else c.
Definition upper_ascii (c : ascii) : ascii :=
  if is_lower c then ascii_of_nat (code c - 32) else c.

(** ** Whole strings *)

Fixpoint map_str (f : ascii -> ascii) (s : string) : string :=
  match s with
  | EmptyString => EmptyString
  | String c s' => String (f c) (map_str f s')
  end.

Definition lower : string -> string := map_str lower_ascii.
Definition upper : string -> string := map_str upper_ascii.

Fixpoint forallb_str (p : ascii -> bool) (s : string) : bool :=
  match s with
  | EmptyString => true
  | String c s' => p c && forallb_str p s'
  end.

Fixpoint rev_app (s acc : string) : string :=
  match s with
  | EmptyString => acc
  | String c s' => rev_app s' (String c acc)
  end.
Definition rev_str (s : string) : string := rev_app s EmptyString.

Fixpoint lstrip (s : string) : string :=
  match s with
  | String c s' => if is_space c then lstrip s' else s
  | EmptyString => EmptyString
  end.

(** [rstrip] drops the blanks after the last character that is not one. *)
Fixpoint rstrip (s : string) : string :=
  match s with
  | EmptyString => EmptyString
  | String c s' =>
      match rstrip s' with
      | EmptyString => if is_space c then EmptyString else String c EmptyString
      | s'' => String c s''
      end
  end.

Definition strip (s : string) : string := rstrip (lstrip s).

(** [s.split(sep)] for a one-character separator: never the empty list. *)
Fixpoint split_on (sep : ascii) (s : string) : list string :=
  match s with
  | EmptyString => [EmptyString]
  | String c s' =>
      if bool_decide (c = sep) then EmptyString :: split_on sep s'
      else
        match split_on sep s' with
        | [] => [String c EmptyString]
        | w :: ws => String c w :: ws
        end
  end.

(** [sep.join(parts)]. *)
Fixpoint join (sep : string) (parts : list string) : string :=
  match parts with
  | [] => EmptyString
  | [w] => w
  | w :: ws => w +:+ sep +:+ join sep ws
  end.

Fixpoint startswith (p s : string) : bool :=
  match p, s with
  | EmptyString, _ => true
  | String a p', String b s' => bool_decide (a = b) && startswith p' s'
  | String _ _, EmptyString => false
  end.

Fixpoint drop_str (n : nat) (s : string) : string :=
  match n, s with
  | O, _ => s
  | S n', String _ s' => drop_str n' s'
  | S _, EmptyString => EmptyString
  end.

(** [s[:n]]. *)
Fixpoint take_str (n : nat) (s : string) : string :=
  match n, s with
  | O, _ => EmptyString
  | S n', String c s' => String c (take_str n' s')
  | S _, EmptyString => EmptyString
  end.

Definition removeprefix (p s : string) : string :=
  if startswith p s then drop_str (String.length p) s else s.

(** [s.replace(c, "")]. *)
Fixpoint remove_char (c : ascii) (s : string) : string :=
  match s with
  | EmptyString => EmptyString
  | String a s' => if bool_decide (a = c) then remove_char c s' else String a (remove_char c s')
  end.

Fixpoint contains_char (c : ascii) (s : string) : bool :=
  match s with
  | EmptyString => false
  | String a s' => bool_decide (a = c) || contains_char c s'
  end.

(** [s.replace(old, new)] for a non-empty [old]: [skip] characters of a match are left. *)
Fixpoint replace_from (skip : nat) (old new s : string) : string :=
  match s with
  | EmptyString => EmptyString
  | String c s' =>
      match skip with
      | S k => replace_from k old new s'
      | O => if startswith old s then new +:+ replace_from (String.length old - 1) old new s'
             else String c (replace_from 0 old new s')
      end
  end.
Definition replace (old new s : string) : string := replace_from 0 old new s.

(** [urllib.parse.unquote]: every [%XX] is the character of that code. *)
Definition hex_digit (c : ascii) : option nat :=
  let n := code c in
  if ((48 <=? n) && (n <=? 57))%nat then Some (n - 48)%nat
  else if ((65 <=? n) && (n <=? 70))%nat then Some (n - 55)%nat
  else if ((97 <=? n) && (n <=? 102))%nat then Some (n - 87)%nat
  else None.
Fixpoint unquote (s : string) : string :=
  match s with
  | EmptyString => EmptyString
  | String c s' =>
      match s' with
      | String a (String b s'') =>
          if bool_decide (c = "%"%char) then
            match hex_digit a, hex_digit b with
            | Some x, Some y => String (ascii_of_nat (16 * x + y)) (unquote s'')
            | _, _ => String c (unquote s')
            end
          else String c (unquote s')
      | _ => String c (unquote s')
      end
  end.

Example replace_ex : replace "~1" "/" "a~01~1b" = "a~01/b". Proof. reflexivity. Qed.
Example unquote_ex : unquote "a%20b%2" = "a b%2". Proof. reflexivity. Qed.

(** ** [int(s)]

    Blanks around, an optional sign, decimal digits with single underscores between them;
    [None] stands for the [ValueError] of any other text. *)

Fixpoint int_digits (acc : Z) (prev_digit : bool) (s : string) : option Z :=
  match s with
  | EmptyString => if prev_digit then Some acc else None
  | String c s' =>
      if is_digit c then int_digits (acc * 10 + Z.of_nat (code c - 48)) true s'
      else if bool_decide (c = "_"%char) && prev_digit then
        match s' with
        | EmptyString => None
        | _ => int_digits acc false s'
        end
      else None
  end.

Definition py_int (s : string) : option Z :=
  match strip s with
  | String "-" s' => Z.opp <$> int_digits 0 false s'
  | String "+" s' => int_digits 0 false s'
  | s' => int_digits 0 false s'
  end.

Example py_int_ex1 : py_int " 60 " = Some 60%Z.
Proof. reflexivity. Qed.
Example py_int_ex2 : (py_int "-1_000", py_int "1__0", py_int "", py_int "12a")
  = (Some (-1000)%Z, None, None, None).
Proof. reflexivity. Qed.
Example split_ex : split_on ":"%char "a::b" = ["a"; ""; "b"].
Proof. reflexivity. Qed.
Example strip_ex : (strip "  a b ", upper "xl-1", lower "QCtrl") = ("a b", "XL-1", "qctrl").
Proof. reflexivity. Qed.

(** ** Lemmas *)

Lemma split_on_nonempty sep s : split_on sep s <> [].
Proof. destruct s; cbn; [done|]. case_bool_decide; [done|]. by destruct (split_on sep s). Qed.

Lemma join_cons_char sep c w ws : join sep (String c w :: ws) = String c (join sep (w :: ws)).
Proof. by destruct ws. Qed.

(** Splitting loses nothing. *)
Lemma join_split sep s : join (String sep EmptyString) (split_on sep s) = s.
Proof.
  induction s as [|c s IH]; cbn; [done|].
  pose proof (split_on_nonempty sep s) as Hne.
  case_bool_decide as Hc.
  - subst c. destruct (split_on sep s) as [|w ws]; [done|].
    change (String sep (join (String sep EmptyString) (w :: ws)) = String sep s). by rewrite IH.
  - destruct (split_on sep s) as [|w ws]; [done|]. by rewrite join_cons_char, IH.
Qed.

(** No part holds the separator. *)
Lemma split_on_parts sep s w : w ∈ split_on sep s -> contains_char sep w = false.
Proof.
  revert w. induction s as [|c s IH]; cbn; intros w Hw.
  - apply list_elem_of_singleton in Hw as ->. done.
  - case_bool_decide as Hc.
    + apply elem_of_cons in Hw as [->|Hw]; [done | by apply IH].
    + pose proof (split_on_nonempty sep s) as Hne.
      destruct (split_on sep s) as [|w' ws]; [done|].
      apply elem_of_cons in Hw as [->|Hw]; cbn.
      * rewrite bool_decide_eq_false_2 by done. apply IH. set_solver.
      * apply IH. set_solver.
Qed.

Lemma length_map_str f s : String.length (map_str f s) = String.length s.
Proof. induction s; cbn; congruence. Qed.

Lemma map_str_idem f s :
  (forall c, f (f c) = f c) -> map_str f (map_str f s) = map_str f s.
Proof. intros Hf. induction s; cbn; congruence. Qed.

(** A property of all characters is checked on the 256 values. *)
Lemma ascii_forall (p : ascii -> bool) :
  forallb (fun n => p (ascii_of_nat n)) (seq 0 256) = true -> forall c, p c = true.
Proof.
  intros H c. rewrite forallb_forall in H.
  rewrite <- (ascii_nat_embedding c). apply H, in_seq.
  pose proof (nat_ascii_bounded c). lia.
Qed.

Lemma upper_ascii_idem c : upper_ascii (upper_ascii c) = upper_ascii c.
Proof.
  apply (bool_decide_eq_true_1 (upper_ascii (upper_ascii c) = upper_ascii c)).
  revert c. apply ascii_forall. vm_compute. reflexivity.
Qed.

Lemma upper_idem s : upper (upper s) = upper s.
Proof. apply map_str_idem, upper_ascii_idem. Qed.

Lemma lower_upper_ascii c : lower_ascii (upper_ascii c) = lower_ascii c.
Proof.
  apply (bool_decide_eq_true_1 (lower_ascii (upper_ascii c) = lower_ascii c)).
  revert c. apply ascii_forall. vm_compute. reflexivity.
Qed.

Lemma lower_upper s : lower (upper s) = lower s.
Proof. unfold lower, upper. induction s; cbn; [done|]. by rewrite lower_upper_ascii, IHs. Qed.

Lemma upper_is_space c : is_space (upper_ascii c) = is_space c.
Proof.
  apply (bool_decide_eq_true_1 (is_space (upper_ascii c) = is_space c)).
  revert c. apply ascii_forall. vm_compute. reflexivity.
Qed.

Lemma lstrip_upper s : lstrip (upper s) = upper (lstrip s).
Proof.
  unfold upper. induction s as [|c s IH]; cbn; [done|].
  rewrite upper_is_space. by destruct (is_space c).
Qed.

Lemma rstrip_upper s : rstrip (upper s) = upper (rstrip s).
Proof.
  unfold upper. induction s as [|c s IH]; cbn; [done|].
  rewrite IH, upper_is_space. destruct (rstrip s); cbn; [by destruct (is_space c) | done].
Qed.

Lemma strip_upper s : strip (upper s) = upper (strip s).
Proof. unfold strip. by rewrite lstrip_upper, rstrip_upper. Qed.

Lemma rstrip_idem s : rstrip (rstrip s) = rstrip s.
Proof.
  induction s as [|c s IH]; cbn; [done|].
  destruct (rstrip s) as [|d s'] eqn:E; cbn.
  - destruct (is_space c) eqn:Ec; cbn; [done|]. by rewrite Ec.
  - cbn in IH. by rewrite IH.
Qed.

Definition head_blank (s : string) : bool :=
  match s with String c _ => is_space c | EmptyString => false end.

Lemma lstrip_id s : head_blank s = false -> lstrip s = s.
Proof. destruct s; cbn; [done|]. by intros ->. Qed.

Lemma head_blank_lstrip s : head_blank (lstrip s) = false.
Proof. induction s as [|c s IH]; cbn; [done|]. by destruct (is_space c) eqn:E. Qed.

Lemma head_blank_rstrip s : head_blank s = false -> head_blank (rstrip s) = false.
Proof.
  destruct s as [|c s]; cbn; [done|]. intros E.
  destruct (rstrip s); cbn; by rewrite ?E.
Qed.

Lemma strip_idem s : strip (strip s) = strip s.
Proof.
  unfold strip. rewrite (lstrip_id (rstrip (lstrip s))).
  - apply rstrip_idem.
  - apply head_blank_rstrip, head_blank_lstrip.
Qed.

Lemma length_take_str n s : (String.length (take_str n s) <= n)%nat.
Proof. revert s. induction n; intros []; cbn; [lia..|]. specialize (IHn s). lia. Qed.

Lemma length_remove_char c s : (String.length (remove_char c s) <= String.length s)%nat.
Proof. induction s; cbn; [lia|]. case_bool_decide; cbn; lia. Qed.

Lemma remove_char_absent c s : contains_char c (remove_char c s) = false.
Proof.
  induction s as [|a s IH]; cbn; [done|]. case_bool_decide; [done|]. cbn.
  by rewrite bool_decide_eq_false_2.
Qed.

Lemma contains_take_str c n s : contains_char c s = false -> contains_char c (take_str n s) = false.
Proof.
  revert s. induction n as [|n IH]; intros [|a s]; cbn; try done.
  rewrite !orb_false_iff. intros [??]. split; [done | by apply IH].
Qed.

Lemma app_empty_r s : s +:+ "" = s.
Proof.
  induction s as [|c s IH]; [done|]. change (String c s +:+ "") with (String c (s +:+ "")). by rewrite IH.
Qed.

Lemma str_app_assoc a b c : (a +:+ b) +:+ c = a +:+ b +:+ c.
Proof.
  induction a as [|d a IH]; [done|]. change ((String d a +:+ b) +:+ c) with (String d ((a +:+ b) +:+ c)). by rewrite IH.
Qed.
Lemma str_app_inj a b c : a +:+ b = a +:+ c -> b = c.
Proof. induction a as [|d a IH]; [done|]. intros H. injection H as H. by apply IH. Qed.

Lemma length_str_app s t : String.length (s +:+ t) = (String.length s + String.length t)%nat.
Proof.
  induction s as [|c s IH]; [done|]. change (String c s +:+ t) with (String c (s +:+ t)). cbn. by rewrite IH.
Qed.

Lemma startswith_app p s : startswith p (p +:+ s) = true.
Proof. induction p as [|a p IH]; [done|]. simpl. by case_bool_decide. Qed.

Lemma drop_str_app p s : drop_str (String.length p) (p +:+ s) = s.
Proof. by induction p. Qed.

Lemma removeprefix_app p s : removeprefix p (p +:+ s) = s.
Proof. unfold removeprefix. by rewrite startswith_app, drop_str_app. Qed.

(** Splitting undoes joining parts that do not hold the separator. *)
Lemma split_on_app sep w s :
  contains_char sep w = false -> split_on sep (w +:+ String sep s) = w :: split_on sep s.
Proof.
  induction w as [|c w IH]; intros H.
  { change ("" +:+ String sep s) with (String sep s). cbn. by rewrite bool_decide_true. }
  change (String c w +:+ String sep s) with (String c (w +:+ String sep s)). cbn in H |- *.
  apply orb_false_iff in H as [Hc H]. rewrite bool_decide_false, (IH H); [done|].
  intros ->. by rewrite bool_decide_true in Hc.
Qed.
Lemma split_on_whole sep w : contains_char sep w = false -> split_on sep w = [w].
Proof.
  induction w as [|c w IH]; cbn; intros H; [done|]. apply orb_false_iff in H as [Hc H].
  rewrite bool_decide_false, (IH H); [done|]. intros ->. by rewrite bool_decide_true in Hc.
Qed.
Lemma split_join sep ws :
  ws <> [] -> Forall (fun w => contains_char sep w = false) ws ->
  split_on sep (join (String sep EmptyString) ws) = ws.
Proof.
  intros Hne H. induction H as [|w ws Hw _ IH]; [done|]. destruct ws as [|w' ws].
  - by apply split_on_whole.
  - change (join (String sep EmptyString) (w :: w' :: ws))
      with (w +:+ String sep (join (String sep EmptyString) (w' :: ws))).
    rewrite split_on_app, IH by done. done.
Qed.
