(* ===== verification/Domain.v ===== *)
(** * Domain rules: business models, CRNs, compute profiles

    [core/domain/business_models.py], [core/domain/subsidized_license_mapping.py],
    [core/domain/crn.py] and [core/domain/compute_profile.py], one Module each. *)

From S2P Require Import Prelude PyStr.

Local Open Scope string_scope.
Local Open Scope list_scope.

(** ** Business models *)
Module BusinessModel.

Definition TRIAL : string := "TRIAL".
Definition SUBSIDIZED : string := "SUBSIDIZED".
Definition LICENSED : string := "LICENSED".
Definition CONSUMPTION : string := "CONSUMPTION".

Definition BILLING_NAMES : list (string * string) :=
  [(SUBSIDIZED, "licensed"); (LICENSED, "licensed"); (TRIAL, "trial");
   (CONSUMPTION, "consumption")].

(** A dict lookup; [None] is the [KeyError]. *)
Fixpoint dict_get {V} (k : string) (d : list (string * V)) : option V :=
  match d with
  | [] => None
  | (k', v) :: d' => if bool_decide (k = k') then Some v else dict_get k d'
  end.

Definition billing_name_for (business_model : string) : outcome string :=
  match dict_get business_model BILLING_NAMES with
  | Some name => Ok name
  | None => Raise (mk_exn ValueError ("No billing name mapped for business model: " +:+ business_model))
  end.

Definition licensed_instead_of_subsidized (business_model : string) : string :=
  if bool_decide (business_model = SUBSIDIZED) then LICENSED else business_model.

End BusinessModel.

(** ** Cloud resource names *)
Module Crn.

Definition ACCOUNT_PREFIX : string := "a/".
Definition REGION_INDEX : nat := 5.
Definition ACCOUNT_INDEX : nat := 6.

Record Crn := mk_crn { region : string; account : option string }.

(** [None] for the Python [None] and for any value that is not a string. *)
Definition parse (value : option string) : option Crn :=
  match value with
  | None => None
  | Some v =>
      let parts := split_on ":" v in
      if bool_decide (length parts <= ACCOUNT_INDEX)%nat then None
      else
        match parts !! REGION_INDEX, parts !! ACCOUNT_INDEX with
        | Some r, Some a =>
            if bool_decide (r = "") then None
            else
              let a' := removeprefix ACCOUNT_PREFIX a in
              Some (mk_crn r (if bool_decide (a' = "") then None else Some a'))
        | _, _ => None
        end
  end.

(** The regular expression [^([^:]*:){5}<region>:] as a matcher: five colon-terminated
    segments, then the escaped region and a colon. *)
Fixpoint skip_segment (s : string) : option string :=
  match s with
  | EmptyString => None
  | String c s' => if bool_decide (c = ":"%char) then Some s' else skip_segment s'
  end.

Fixpoint skip_segments (n : nat) (s : string) : option string :=
  match n with
  | O => Some s
  | S n' => s' ← skip_segment s; skip_segments n' s'
  end.

Definition region_crn_regex (region crn : string) : bool :=
  match skip_segments REGION_INDEX crn with
  | Some rest => startswith (region +:+ ":") rest
  | None => false
  end.

(** *** Lemmas *)

Lemma skip_segment_split s :
  match skip_segment s with
  | Some rest => split_on ":" s = hd "" (split_on ":" s) :: split_on ":" rest
  | None => exists w, split_on ":" s = [w]
  end.
Proof.
  induction s as [|c s IH]; simpl; [by eexists|].
  case_bool_decide as Hc; [done|].
  destruct (skip_segment s) as [rest|].
  - rewrite IH. done.
  - destruct IH as [w ->]. by eexists.
Qed.

Lemma skip_segments_split n s :
  match skip_segments n s with
  | Some rest => drop n (split_on ":" s) = split_on ":" rest
  | None => (length (split_on ":" s) <= n)%nat
  end.
Proof.
  revert s. induction n as [|n IH]; intros s; simpl; [done|].
  pose proof (skip_segment_split s) as H.
  destruct (skip_segment s) as [rest|]; simpl.
  - specialize (IH rest). rewrite H.
    destruct (skip_segments n rest); [done | simpl; lia].
  - destruct H as [w ->]. simpl. lia.
Qed.

(** A colon-free region followed by a colon starts [rest] exactly when it is the first of
    at least two segments. *)
Lemma startswith_segment region rest :
  contains_char ":" region = false ->
  startswith (region +:+ ":") rest = true <->
  exists w ws, split_on ":" rest = region :: w :: ws.
Proof.
  revert rest. induction region as [|c region IH]; intros rest Hno; simpl.
  - destruct rest as [|d rest]; simpl.
    + split; [done | by intros (?&?&?)].
    + rewrite andb_true_r, bool_decide_eq_true. split.
      * intros <-. rewrite bool_decide_eq_true_2 by done.
        pose proof (split_on_nonempty ":" rest). destruct (split_on ":" rest); naive_solver.
      * intros (w & ws & H). case_bool_decide; [done|].
        destruct (split_on ":" rest); naive_solver.
  - simpl in Hno. apply orb_false_iff in Hno as [Hc Hno].
    apply bool_decide_eq_false in Hc.
    destruct rest as [|d rest]; simpl; [split; [done | by intros (?&?&?)]|].
    rewrite andb_true_iff, bool_decide_eq_true, (IH rest Hno). split.
    + intros [<- (w & ws & H)]. rewrite bool_decide_eq_false_2 by done.
      rewrite H. by eexists _, _.
    + intros (w & ws & H). case_bool_decide as Hd; [naive_solver|].
      destruct (split_on ":" rest) as [|u us]; naive_solver.
Qed.

End Crn.

(** ** Compute profiles *)
Module ComputeProfile.

Definition NL : ascii := ascii_of_nat 10.

(** The longest prefix whose characters satisfy [p], and the rest. *)
Fixpoint span (p : ascii -> bool) (s : string) : string * string :=
  match s with
  | EmptyString => (EmptyString, EmptyString)
  | String c s' =>
      if p c then let '(a, b) := span p s' in (String c a, b) else (EmptyString, s)
  end.

Definition is_alnum (c : ascii) : bool := is_lower c || is_digit c.

(** What the regular expression's [$] accepts: the end, or a newline that ends the text. *)
Definition at_end (s : string) : bool :=
  bool_decide (s = "") || bool_decide (s = String NL EmptyString).

(** [(.+)$]: group 1, the characters up to the end or up to a final newline; [.] matches
    any character but a newline. *)
Definition dot_plus_end (s : string) : option string :=
  let '(a, b) := span (fun c => negb (bool_decide (c = NL))) s in
  if negb (bool_decide (a = "")) && at_end b then Some a else None.

(** The letters, the digit and the alphanumerics before the hyphen of [_PREFIX_RE]. *)
Definition prefix_re (s : string) : option string :=
  let '(letters, r1) := span is_lower s in
  if bool_decide (letters = "") then None
  else
    match r1 with
    | String d r2 =>
        if is_digit d then
          let '(_, r3) := span is_alnum r2 in
          match r3 with
          | String h rest => if bool_decide (h = "-"%char) then dot_plus_end rest else None
          | EmptyString => None
          end
        else None
    | EmptyString => None
    end.

(** [_RESOURCE_RE]: cpu [x] memory, then optionally [x], a digit and at least one more
    alphanumeric. *)
Definition resource_re (s : string) : bool :=
  let '(cpu, r1) := span is_digit s in
  if bool_decide (cpu = "") then false
  else
    match r1 with
    | String x r2 =>
        if bool_decide (x = "x"%char) then
          let '(memory, r3) := span is_digit r2 in
          if bool_decide (memory = "") then false
          else if at_end r3 then true
          else
            match r3 with
            | String y (String d r4) =>
                if bool_decide (y = "x"%char) && is_digit d then
                  let '(model, r5) := span is_alnum r4 in
                  negb (bool_decide (model = "")) && at_end r5
                else false
            | _ => false
            end
        else false
    | EmptyString => false
    end.

Definition normalize (value : option string) : option string :=
  match value with
  | Some v =>
      if bool_decide (v = "") then None
      else Some (default v (prefix_re v))
  | None => None
  end.

Definition is_valid (value : string) : bool :=
  if bool_decide (value = "") then false
  else resource_re (default value (prefix_re value)).

Example is_valid_ex :
  map is_valid ["bx3d-24x120"; "24x120x1a100p"; "BX3D-24x120"; "24x120x"; ""]
  = [true; true; false; false; false].
Proof. reflexivity. Qed.
Example normalize_ex :
  map (fun s => normalize (Some s)) ["bx3d-24x120"; "gx3d-24x120x1a100p"; "24x120"]
  = [Some "24x120"; Some "24x120x1a100p"; Some "24x120"].
Proof. reflexivity. Qed.

(** *** Lemmas *)

Lemma span_head p s a b c s' :
  span p s = (a, b) -> s = String c s' -> p c = false -> a = "".
Proof. intros H -> Hc. simpl in H. rewrite Hc in H. by simplify_eq. Qed.

(** A resource starts with a digit, so it has no instance-family prefix. *)
Lemma resource_no_prefix s : resource_re s = true -> prefix_re s = None.
Proof.
  destruct s as [|c s]; [done|]. unfold resource_re, prefix_re.
  destruct (is_digit c) eqn:Hd.
  - intros _. assert (is_lower c = false) as Hl.
    { unfold is_digit, is_lower in *. apply andb_true_iff in Hd as [H1 H2].
      apply Nat.leb_le in H1, H2. apply andb_false_iff. left. apply Nat.leb_gt. lia. }
    simpl. rewrite Hl. done.
  - simpl. rewrite Hd. done.
Qed.

Lemma resource_nonempty s : resource_re s = true -> s <> "".
Proof. by intros H ->. Qed.

End ComputeProfile.
