(* ===== verification/Models.v ===== *)
(** * The data model ([core/models.py])

    The rows the gateway and the scheduler share, with the source's field names. A foreign
    key the code navigates ([job.program.provider]) is the joined row itself, as Django's
    [select_related] loads it; identifiers are their text form; a [DateTimeField] is an
    integer count of microseconds; a nullable column is an [option]. *)

From S2P Require Import Prelude PyStr.

Local Open Scope string_scope.
Local Open Scope list_scope.

(** ** Enumerations *)

Inductive JobStatus := PENDING | RUNNING | STOPPING | STOPPED | SUCCEEDED | FAILED | QUEUED.
#[export] Instance JobStatus_eq_dec : EqDecision JobStatus.
Proof. solve_decision. Defined.

Definition TERMINAL_STATUSES : list JobStatus := [SUCCEEDED; FAILED; STOPPED].
Definition RUNNING_STATUSES : list JobStatus := [RUNNING; PENDING; STOPPING].
Definition ACTIVE_STATUSES : list JobStatus := [QUEUED; PENDING; RUNNING; STOPPING].

Inductive SubStatus :=
  | MAPPING | OPTIMIZING_HARDWARE | WAITING_QPU | EXECUTING_QPU | POST_PROCESSING.
#[export] Instance SubStatus_eq_dec : EqDecision SubStatus.
Proof. solve_decision. Defined.

Inductive Runner := RAY | FLEETS.
#[export] Instance Runner_eq_dec : EqDecision Runner.
Proof. solve_decision. Defined.

Inductive SizeSource :=
  | SIZE_SOURCE_REQUESTED | SIZE_SOURCE_DEFAULT_SIZE
  | SIZE_SOURCE_SETTINGS_DEFAULT | SIZE_SOURCE_NONE.
#[export] Instance SizeSource_eq_dec : EqDecision SizeSource.
Proof. solve_decision. Defined.

Inductive JobEventOrigin := API | SCHEDULER | BACKOFFICE.
Inductive JobEventContext :=
  | RUN_PROGRAM | SCHEDULE_JOBS | STOP_JOB | UPDATE_JOB_STATUS | SET_SUB_STATUS | SAVE_MODEL
  | SEND_ERROR | FILLER_SUBMIT | FILLER_STOP | FILLER_FAILED | BLOCKED_RESOURCE_STOP.
Inductive JobEventType := ERROR | STATUS_CHANGE | SUB_STATUS_CHANGE.
#[export] Instance JobEventOrigin_eq_dec : EqDecision JobEventOrigin.
Proof. solve_decision. Defined.
#[export] Instance JobEventContext_eq_dec : EqDecision JobEventContext.
Proof. solve_decision. Defined.
#[export] Instance JobEventType_eq_dec : EqDecision JobEventType.
Proof. solve_decision. Defined.

Inductive OutboxChannel := LICENSE_FEE | JOB_USAGE | WORKLOAD.
#[export] Instance OutboxChannel_eq_dec : EqDecision OutboxChannel.
Proof. solve_decision. Defined.

(** ** Rows *)

Record User := mk_user { user_id : nat; username : string }.

Record CodeEngineProject := mk_project {
  project_pk : nat;
  project_name : string;
  project_region : string;
  cos_bucket_user_data_name : option string;
  project_active : bool;
  cos_bucket_provider_data_name : option string;
  project_id : string;                       (* Code Engine's own *)
  subnet_pool_id : string;
  pds_name_state : string;
  pds_name_users : string;
  pds_name_providers : string;
  cos_bucket_task_store_name : option string;
  cos_instance_name : option string;
  cos_key_name : option string
}.

Record Provider := mk_provider {
  provider_id : nat;
  provider_name : string;
  provider_code_engine_project : option CodeEngineProject
}.

Record ComputeProfile := mk_profile {
  compute_profile_id : string;
  profile_cpu : string;
  profile_gpu : option string;
  profile_memory : string
}.

(** A row as [FunctionSize.from_db] hands it out: the label is upper-cased on read and on
    every [save()]. *)
Record FunctionSize := mk_function_size {
  size_pk : nat;
  size_function : nat;
  size_function_size : string;
  size_compute_profile : ComputeProfile
}.

Definition uppercase_function_size (size : FunctionSize) : FunctionSize :=
  if bool_decide (size_function_size size = "") then size
  else mk_function_size (size_pk size) (size_function size)
         (upper (size_function_size size)) (size_compute_profile size).

Record Program := mk_program {
  program_id : nat;
  title : string;
  program_provider : option Provider;
  program_author : User;
  program_runner : Runner;
  disabled : bool;
  disabled_message : option string;
  program_gpu : bool;
  default_size : option FunctionSize;
  program_code_engine_project : option CodeEngineProject;
  program_env_vars : string;
  arguments_schema : option string;
  program_type : string;
  description : option string;
  program_version : option string;
  entrypoint : string;
  artifact : option string;
  image : option string;
  dependencies : string
}.

(** [setattr(function, field, value)] for the fields an upload assigns. *)
Inductive ProgramField :=
  | P_entrypoint (v : string)
  | P_artifact (v : option string)
  | P_image (v : option string)
  | P_description (v : option string)
  | P_version (v : option string)
  | P_arguments_schema (v : option string)
  | P_dependencies (v : string)
  | P_env_vars (v : string)
  | P_runner (v : Runner)
  | P_project (v : option CodeEngineProject)
  | P_default_size (v : option FunctionSize).

Definition set_program (x : ProgramField) (p : Program) : Program :=
  {| program_id := program_id p;
     title := title p;
     program_provider := program_provider p;
     program_author := program_author p;
     program_runner := match x with P_runner v => v | _ => program_runner p end;
     disabled := disabled p;
     disabled_message := disabled_message p;
     program_gpu := program_gpu p;
     default_size := match x with P_default_size v => v | _ => default_size p end;
     program_code_engine_project := match x with P_project v => v | _ => program_code_engine_project p end;
     program_env_vars := match x with P_env_vars v => v | _ => program_env_vars p end;
     arguments_schema := match x with P_arguments_schema v => v | _ => arguments_schema p end;
     program_type := program_type p;
     description := match x with P_description v => v | _ => description p end;
     program_version := match x with P_version v => v | _ => program_version p end;
     entrypoint := match x with P_entrypoint v => v | _ => entrypoint p end;
     artifact := match x with P_artifact v => v | _ => artifact p end;
     image := match x with P_image v => v | _ => image p end;
     dependencies := match x with P_dependencies v => v | _ => dependencies p end |}.

(** [Program.clean()]: the default size belongs to this function. *)
Definition Program_clean (p : Program) : outcome unit :=
  match default_size p with
  | Some size =>
      if bool_decide (size_function size = program_id p) then Ok tt
      else Raise (mk_exn ValidationError "default_size must be a FunctionSize belonging to this function.")
  | None => Ok tt
  end.

(** A Ray cluster. [active] can also be null in the table; nothing writes that. *)
Record ComputeResource := mk_resource {
  cr_id : string;
  cr_title : string;
  cr_host : string;
  cr_gpu : bool;
  cr_active : bool
}.

Abbreviation JobId := string (only parsing).

Record Job := mk_job {
  id : JobId;
  created : Z;
  updated : option Z;
  env_vars : string;
  gpu : bool;
  filler : bool;
  runner : Runner;
  ray_job_id : option string;
  fleet_id : option string;
  fleet_deleted_at : option Z;
  status : JobStatus;
  sub_status : option SubStatus;
  trial : bool;
  business_model : string;
  version : Z;
  author : User;
  compute_resource : option ComputeResource;
  program : option Program;
  compute_profile_fk : option string;
  size_source : SizeSource;
  function_size : option FunctionSize;
  function_size_name : option string;
  account_id : option string;
  instance_crn : option string;
  plan_id : option string;
  subscription_id : option string;
  ce_project_name : option string;
  ce_region : option string
}.

(** [setattr(job, field, value)] for the fields some code assigns after creation: one
    constructor per field, carrying the value. *)
Inductive JobField :=
  | F_updated (v : option Z)
  | F_env_vars (v : string)
  | F_ray_job_id (v : option string)
  | F_fleet_id (v : option string)
  | F_fleet_deleted_at (v : option Z)
  | F_status (v : JobStatus)
  | F_sub_status (v : option SubStatus)
  | F_version (v : Z)
  | F_compute_resource (v : option ComputeResource).

Definition setattr (f : JobField) (j : Job) : Job :=
  {| id := id j;
     created := created j;
     updated := match f with F_updated v => v | _ => updated j end;
     env_vars := match f with F_env_vars v => v | _ => env_vars j end;
     gpu := gpu j;
     filler := filler j;
     runner := runner j;
     ray_job_id := match f with F_ray_job_id v => v | _ => ray_job_id j end;
     fleet_id := match f with F_fleet_id v => v | _ => fleet_id j end;
     fleet_deleted_at := match f with F_fleet_deleted_at v => v | _ => fleet_deleted_at j end;
     status := match f with F_status v => v | _ => status j end;
     sub_status := match f with F_sub_status v => v | _ => sub_status j end;
     trial := trial j;
     business_model := business_model j;
     version := match f with F_version v => v | _ => version j end;
     author := author j;
     compute_resource := match f with F_compute_resource v => v | _ => compute_resource j end;
     program := program j;
     compute_profile_fk := compute_profile_fk j;
     size_source := size_source j;
     function_size := function_size j;
     function_size_name := function_size_name j;
     account_id := account_id j;
     instance_crn := instance_crn j;
     plan_id := plan_id j;
     subscription_id := subscription_id j;
     ce_project_name := ce_project_name j;
     ce_region := ce_region j |}.

(** A field map applied in order: a later entry wins. *)
Definition set_fields (fs : list JobField) (j : Job) : Job :=
  foldl (fun j f => setattr f j) j fs.

Inductive EventData :=
  | StatusData (s : JobStatus)
  | SubStatusData (s : option SubStatus)
  | ErrorData (err_code message exception args : string).

Record JobEvent := mk_event {
  event_job : JobId;
  event_type : JobEventType;
  origin : JobEventOrigin;
  context : JobEventContext;
  event_created : Z;
  event_data : EventData
}.

(** The messages the outbox and the best effort senders carry. *)
Record BillingData := mk_billing {
  metric_type : string;
  metric_value : Z;
  b_instance_crn : option string;
  resource_id : JobId;
  job_started : bool;
  job_started_at : option Z;
  job_completed : bool;
  b_business_model : option string
}.

Record WorkloadBody := mk_body {
  w_name : string;
  w_provider : option string;
  w_crn : option string;
  w_user_id : string;
  w_status : string;
  w_compute_profile : option string;
  w_size : option string;
  w_created_at : Z;
  w_running_at : option Z;
  w_ended_at : option Z
}.

Inductive Payload :=
  | BillingPayload (time : Z) (subject : JobId) (data : BillingData)
  | WorkloadPayload (function_id : JobId) (body : WorkloadBody).

Record Outbox := mk_outbox {
  ob_id : nat;
  ob_job : JobId;
  ob_channel : OutboxChannel;
  ob_region : option string;
  ob_payload : Payload;
  ob_created : Z;
  ob_attempts : nat;
  ob_next_attempt_at : Z;
  ob_last_error : string;
  ob_unrecoverable : bool
}.

Inductive BlockReason := TOTAL | NON_QUANTUM.
#[export] Instance BlockReason_eq_dec : EqDecision BlockReason.
Proof. solve_decision. Defined.

Record BlockedCloudResource := mk_blocked {
  bl_account : option string;
  bl_plan : option string;
  bl_subscription : option string;
  bl_reason : BlockReason;
  bl_region : string
}.
#[export] Instance BlockedCloudResource_eq_dec : EqDecision BlockedCloudResource.
Proof. solve_decision. Defined.

(** ** Properties and methods of [Job] that only read *)

Definition in_terminal_state (j : Job) : bool := bool_decide (status j ∈ TERMINAL_STATUSES).

Definition job_compute_profile_id (j : Job) : option string := compute_profile_fk j.

(** [size_label]: the snapshot, or the live row's label, upper-cased; falsy is [None]. *)
Definition size_label (j : Job) : option string :=
  let label :=
    if truthy (function_size_name j) then function_size_name j
    else match function_size j with
         | Some size => Some (size_function_size size)
         | None => function_size_name j
         end in
  if truthy label then upper <$> label else None.

Definition UNASSIGNED_PROJECT : string := "unassigned".

Definition fleet_project (j : Job) : string :=
  if truthy (ce_project_name j) then default UNASSIGNED_PROJECT (ce_project_name j)
  else UNASSIGNED_PROJECT.

Definition fleet_region (j : Job) : option string :=
  if truthy (ce_region j) then ce_region j
  else project_region <$> (p ← program j; program_code_engine_project p).

(** ** Lemmas *)

(** [ACTIVE_STATUSES] is the exact complement of [TERMINAL_STATUSES]. *)
Lemma active_complement_terminal s : s ∈ ACTIVE_STATUSES <-> s ∉ TERMINAL_STATUSES.
Proof.
  apply (bool_decide_unpack (s ∈ ACTIVE_STATUSES <-> s ∉ TERMINAL_STATUSES)).
  destruct s; vm_compute; exact I.
Qed.

Lemma terminal_cases s : s ∈ TERMINAL_STATUSES -> s = SUCCEEDED \/ s = FAILED \/ s = STOPPED.
Proof.
  intros H. apply (bool_decide_eq_true_2 (s ∈ TERMINAL_STATUSES)) in H.
  destruct s; first [discriminate H | auto].
Qed.

Lemma in_terminal_state_true j : in_terminal_state j = true <-> status j ∈ TERMINAL_STATUSES.
Proof. apply bool_decide_eq_true. Qed.

(** Fields no [setattr] of the model touches. *)
Lemma set_fields_id fs j : id (set_fields fs j) = id j.
Proof. revert j. induction fs as [|f fs IH]; intros j; [done|]. simpl. by rewrite IH. Qed.
Lemma set_fields_runner fs j : runner (set_fields fs j) = runner j.
Proof. revert j. induction fs as [|f fs IH]; intros j; [done|]. simpl. by rewrite IH. Qed.
Lemma set_fields_filler fs j : filler (set_fields fs j) = filler j.
Proof. revert j. induction fs as [|f fs IH]; intros j; [done|]. simpl. by rewrite IH. Qed.
Lemma set_fields_instance_crn fs j : instance_crn (set_fields fs j) = instance_crn j.
Proof. revert j. induction fs as [|f fs IH]; intros j; [done|]. simpl. by rewrite IH. Qed.
Lemma set_fields_program fs j : program (set_fields fs j) = program j.
Proof. revert j. induction fs as [|f fs IH]; intros j; [done|]. simpl. by rewrite IH. Qed.
Lemma set_fields_business_model fs j : business_model (set_fields fs j) = business_model j.
Proof. revert j. induction fs as [|f fs IH]; intros j; [done|]. simpl. by rewrite IH. Qed.
Lemma set_fields_size_label fs j : size_label (set_fields fs j) = size_label j.
Proof. revert j. induction fs as [|f fs IH]; intros j; [done|]. simpl. by rewrite IH. Qed.

(** A field map without a status leaves the status. *)
Definition is_status_field (f : JobField) : bool := match f with F_status _ => true | _ => false end.

Lemma set_fields_status_other fs j :
  forallb (fun f => negb (is_status_field f)) fs = true ->
  status (set_fields fs j) = status j.
Proof.
  revert j. induction fs as [|f fs IH]; intros j; simpl; [done|].
  rewrite andb_true_iff. intros [Hf Hfs]. rewrite IH by done. by destruct f.
Qed.

Create Rewrite HintDb models.
#[export] Hint Rewrite set_fields_id set_fields_runner set_fields_filler
  set_fields_instance_crn set_fields_program set_fields_business_model set_fields_size_label : models.
