(* ===== verification/World.v ===== *)
(** * The state of a gateway or scheduler process

    One record holds what a handler can read or change: the database, the [Job] instance in
    hand (Django keeps it apart from its row, so it can be stale), the two clocks, the
    dynamic configuration, the messages that left the process and the scheduler's in-memory
    state. [transaction.atomic()] rolls back the database and nothing else. *)

From S2P Require Import Prelude PyStr Models.

Local Open Scope string_scope.
Local Open Scope list_scope.

(** ** The database *)

Record DB := mk_db {
  jobs : gmap JobId Job;
  events : list JobEvent;          (* oldest first *)
  outbox : list Outbox;            (* in insertion order *)
  outbox_seq : nat;                (* the next primary key *)
  mirrors : gset JobId;            (* WorkloadMirror *)
  blocked : list BlockedCloudResource;
  compute_resources : gmap string ComputeResource
}.

Definition set_jobs (v : gmap JobId Job) (d : DB) : DB :=
  mk_db v (events d) (outbox d) (outbox_seq d) (mirrors d) (blocked d) (compute_resources d).
Definition set_events (v : list JobEvent) (d : DB) : DB :=
  mk_db (jobs d) v (outbox d) (outbox_seq d) (mirrors d) (blocked d) (compute_resources d).
Definition set_outbox (v : list Outbox) (d : DB) : DB :=
  mk_db (jobs d) (events d) v (outbox_seq d) (mirrors d) (blocked d) (compute_resources d).
Definition set_outbox_seq (v : nat) (d : DB) : DB :=
  mk_db (jobs d) (events d) (outbox d) v (mirrors d) (blocked d) (compute_resources d).
Definition set_mirrors (v : gset JobId) (d : DB) : DB :=
  mk_db (jobs d) (events d) (outbox d) (outbox_seq d) v (blocked d) (compute_resources d).
Definition set_blocked (v : list BlockedCloudResource) (d : DB) : DB :=
  mk_db (jobs d) (events d) (outbox d) (outbox_seq d) (mirrors d) v (compute_resources d).
Definition set_compute_resources (v : gmap string ComputeResource) (d : DB) : DB :=
  mk_db (jobs d) (events d) (outbox d) (outbox_seq d) (mirrors d) (blocked d) v.

(** ** Circuit breakers (the state of [scheduler/tasks/circuit_breaker.py]) *)

Record Breaker := mk_breaker { consecutive_failures : Z; opened_at : option Z }.

Definition new_breaker : Breaker := mk_breaker 0 None.

(** ** Metrics the scheduler counts *)

Inductive Metric :=
  | JobsTerminal (provider : string) (final_status : JobStatus)
  | FillerJobsStopped
  | FillerJobsEnded (final_status : JobStatus)
  | FillerJobsCreated (outcome : string)
  | JobExecutionDuration (seconds : Z) (provider : string)
  | FleetsJobsSkippedByBreaker (region : option string)
  | QueueWaitTime (seconds : Z) (compute_type : string)
  | TaskItems (task : string) (count : Z)
  | TaskError (task : string) (error : exn_type)
  | FleetDeletes (project outcome : string)
  | OutboxSend (channel : OutboxChannel) (result : string)
  | BlockedAccountEvent (region outcome : string) (count : Z)
  | BlockedAccountConsumerError (region kind : string) (count : Z)
  | BlockedAccountConsumerLag (region topic : string) (lag : Z).

(** ** The scheduler's in-memory state *)

Record Sched := mk_sched {
  cos_breakers : gmap (option string) Breaker;
  code_engine_breakers : gmap (option string) Breaker;
  cleanup_breakers : gmap (option string) Breaker;
  kafka_breakers : gmap (option string) Breaker;      (* of the outbox destinations *)
  workload_breakers : gmap (option string) Breaker;
  refused_cancel_warned : gset string;
  retry_loops : nat;
  failed_attempts : list (string * nat);    (* a dict, in insertion order *)
  given_up : list string;                   (* a dict's keys, in insertion order *)
  metrics : list Metric                     (* newest last *)
}.

Definition set_cos_breakers v (s : Sched) : Sched :=
  mk_sched v (code_engine_breakers s) (cleanup_breakers s) (kafka_breakers s)
    (workload_breakers s) (refused_cancel_warned s) (retry_loops s)
    (failed_attempts s) (given_up s) (metrics s).
Definition set_code_engine_breakers v (s : Sched) : Sched :=
  mk_sched (cos_breakers s) v (cleanup_breakers s) (kafka_breakers s)
    (workload_breakers s) (refused_cancel_warned s) (retry_loops s)
    (failed_attempts s) (given_up s) (metrics s).
Definition set_cleanup_breakers v (s : Sched) : Sched :=
  mk_sched (cos_breakers s) (code_engine_breakers s) v (kafka_breakers s)
    (workload_breakers s) (refused_cancel_warned s) (retry_loops s)
    (failed_attempts s) (given_up s) (metrics s).
Definition set_kafka_breakers v (s : Sched) : Sched :=
  mk_sched (cos_breakers s) (code_engine_breakers s) (cleanup_breakers s) v
    (workload_breakers s) (refused_cancel_warned s) (retry_loops s)
    (failed_attempts s) (given_up s) (metrics s).
Definition set_workload_breakers v (s : Sched) : Sched :=
  mk_sched (cos_breakers s) (code_engine_breakers s) (cleanup_breakers s) (kafka_breakers s)
    v (refused_cancel_warned s) (retry_loops s)
    (failed_attempts s) (given_up s) (metrics s).
Definition set_refused v (s : Sched) : Sched :=
  mk_sched (cos_breakers s) (code_engine_breakers s) (cleanup_breakers s) (kafka_breakers s)
    (workload_breakers s) v (retry_loops s)
    (failed_attempts s) (given_up s) (metrics s).
Definition set_retry_loops v (s : Sched) : Sched :=
  mk_sched (cos_breakers s) (code_engine_breakers s) (cleanup_breakers s) (kafka_breakers s)
    (workload_breakers s) (refused_cancel_warned s) v
    (failed_attempts s) (given_up s) (metrics s).
Definition set_failed_attempts v (s : Sched) : Sched :=
  mk_sched (cos_breakers s) (code_engine_breakers s) (cleanup_breakers s) (kafka_breakers s)
    (workload_breakers s) (refused_cancel_warned s) (retry_loops s)
    v (given_up s) (metrics s).
Definition set_given_up v (s : Sched) : Sched :=
  mk_sched (cos_breakers s) (code_engine_breakers s) (cleanup_breakers s) (kafka_breakers s)
    (workload_breakers s) (refused_cancel_warned s) (retry_loops s)
    (failed_attempts s) v (metrics s).
Definition set_metrics v (s : Sched) : Sched :=
  mk_sched (cos_breakers s) (code_engine_breakers s) (cleanup_breakers s) (kafka_breakers s)
    (workload_breakers s) (refused_cancel_warned s) (retry_loops s)
    (failed_attempts s) (given_up s) v.

Definition init_sched : Sched := mk_sched ∅ ∅ ∅ ∅ ∅ ∅ 0 [] [] [].

(** ** The process

    [wall] and [mono] are the successive readings of the wall clock and of
    [time.monotonic()], in microseconds; [killed] the successive readings of
    [kill_signal.received]; [ticks] counts the readings so far. *)

Record World := mk_world {
  db : DB;
  self : Job;
  wall : nat -> Z;
  mono : nat -> Z;
  killed : nat -> bool;
  ticks : nat;
  config : gmap string string;
  kafka : list Payload;            (* best effort messages handed to the broker client *)
  puts : list Payload;             (* workloads PUT to the Runtime API *)
  sched : Sched
}.

Definition set_db (v : DB) (w : World) : World :=
  mk_world v (self w) (wall w) (mono w) (killed w) (ticks w) (config w) (kafka w) (puts w) (sched w).
Definition set_self (v : Job) (w : World) : World :=
  mk_world (db w) v (wall w) (mono w) (killed w) (ticks w) (config w) (kafka w) (puts w) (sched w).
Definition set_ticks (v : nat) (w : World) : World :=
  mk_world (db w) (self w) (wall w) (mono w) (killed w) v (config w) (kafka w) (puts w) (sched w).
Definition set_config v (w : World) : World :=
  mk_world (db w) (self w) (wall w) (mono w) (killed w) (ticks w) v (kafka w) (puts w) (sched w).
Definition set_kafka v (w : World) : World :=
  mk_world (db w) (self w) (wall w) (mono w) (killed w) (ticks w) (config w) v (puts w) (sched w).
Definition set_puts v (w : World) : World :=
  mk_world (db w) (self w) (wall w) (mono w) (killed w) (ticks w) (config w) (kafka w) v (sched w).
Definition set_sched v (w : World) : World :=
  mk_world (db w) (self w) (wall w) (mono w) (killed w) (ticks w) (config w) (kafka w) (puts w) v.

Abbreviation Py := (M World).

(** ** Primitive effects *)

Definition now : Py Z := fun w => (Ok (wall w (ticks w)), set_ticks (S (ticks w)) w).
Definition monotonic : Py Z := fun w => (Ok (mono w (ticks w)), set_ticks (S (ticks w)) w).
Definition kill_received : Py bool := fun w => (Ok (killed w (ticks w)), set_ticks (S (ticks w)) w).

Definition get_self : Py Job := gets self.
Definition put_self (j : Job) : Py unit := modify (set_self j).
Definition modify_self (f : Job -> Job) : Py unit := modify (fun w => set_self (f (self w)) w).
Definition get_db : Py DB := gets db.
Definition modify_db (f : DB -> DB) : Py unit := modify (fun w => set_db (f (db w)) w).
Definition modify_sched (f : Sched -> Sched) : Py unit := modify (fun w => set_sched (f (sched w)) w).

Definition count_metric (m : Metric) : Py unit :=
  modify_sched (fun s => set_metrics (metrics s ++ [m]) s).

(** [with transaction.atomic(): m]. *)
Definition atomic {A} (m : Py A) : Py A :=
  fun w =>
    match m w with
    | (Ok a, w') => (Ok a, w')
    | (Raise e, w') => (Raise e, set_db (db w) w')
    end.

(** Run [m] on another [Job] instance, and keep the one in hand. *)
Definition on_job {A} (j : Job) (m : Py A) : Py A :=
  fun w => let '(o, w') := m (set_self j w) in (o, set_self (self w) w').

(** ** Dynamic configuration ([Config.get] and its typed readers)

    [config] is what [Config.get] answers for each registered key; an unregistered key
    raises [KeyError]. *)

Definition Config_get (key : string) : Py string :=
  c <- gets config ;;
  match c !! key with
  | Some v => ret v
  | None => raise (mk_exn KeyError ("Config '" +:+ key +:+ "' not found in db. Call add_defaults() before"))
  end.

Definition Config_get_bool (key : string) : Py bool :=
  v <- Config_get key ;;
  ret (bool_decide (lower v = "true")).

Definition Config_get_int (key : string) (dflt : Z) : Py Z :=
  v <- Config_get key ;;
  ret (match py_int v with Some n => n | None => dflt end).

Definition Config_get_list (key : string) : Py (list string) :=
  v <- Config_get key ;;
  ret (map strip (split_on "," v)).

(** ** Rules for the effects *)

Lemma atomic_raise_db {A} (m : Py A) w e w' : atomic m w = (Raise e, w') -> db w' = db w.
Proof. unfold atomic. destruct (m w) as [[a|e'] w1]; intros H; [done|]. by injection H as _ <-. Qed.

Lemma atomic_ok {A} (m : Py A) w a w' : atomic m w = (Ok a, w') <-> m w = (Ok a, w').
Proof. unfold atomic. destruct (m w) as [[a'|e'] w1]; split; intros; simplify_eq; done. Qed.

Lemma Config_get_int_inv key dflt w n w' :
  Config_get_int key dflt w = (Ok n, w') ->
  w' = w /\ n = default dflt (v ← config w !! key; py_int v).
Proof.
  unfold Config_get_int, Config_get, bind, gets, ret.
  destruct (config w !! key) as [v|]; [|done]. cbn. destruct (py_int v); by intros [= <- <-].
Qed.

(** What a relation has to say about [atomic]: the body respects it, and putting the old
    database back respects it too. *)
Lemma rel_atomic {A} (R : World -> World -> Prop) `{!PreOrder R} (m : Py A) :
  rel R m -> (forall w w', R w w' -> R w (set_db (db w) w')) -> rel R (atomic m).
Proof.
  intros Hm HR w. unfold atomic. specialize (Hm w).
  destruct (m w) as [[a|e] w'] eqn:E; cbn in *; [done | by apply HR].
Qed.

(** The parts of the process an operation can leave alone. *)
Definition same_db (w w' : World) : Prop := db w' = db w.
Definition same_env (w w' : World) : Prop :=
  wall w' = wall w /\ mono w' = mono w /\ killed w' = killed w /\ config w' = config w.

#[export] Instance same_db_preorder : PreOrder same_db.
Proof. split; unfold same_db; [done | congruence]. Qed.
#[export] Instance same_env_preorder : PreOrder same_env.
Proof. split; unfold same_env; [done|]. intros ??? (?&?&?&?) (?&?&?&?). repeat split; congruence. Qed.

Lemma same_db_now : rel same_db now. Proof. done. Qed.
Lemma same_db_monotonic : rel same_db monotonic. Proof. done. Qed.
Lemma same_db_kill : rel same_db kill_received. Proof. done. Qed.
Lemma same_db_put_self j : rel same_db (put_self j). Proof. done. Qed.
Lemma same_db_modify_self f : rel same_db (modify_self f). Proof. done. Qed.
Lemma same_db_modify_sched f : rel same_db (modify_sched f). Proof. done. Qed.
Lemma same_db_count_metric m : rel same_db (count_metric m). Proof. done. Qed.
Lemma same_db_get_self : rel same_db get_self. Proof. done. Qed.
Lemma same_db_get_db : rel same_db get_db. Proof. done. Qed.
#[export] Hint Resolve same_db_now same_db_monotonic same_db_kill same_db_put_self
  same_db_modify_self same_db_modify_sched same_db_count_metric same_db_get_self
  same_db_get_db : pyrel.

Lemma same_db_config_get key : rel same_db (Config_get key).
Proof. unfold Config_get. rel_auto. Qed.
Lemma same_db_config_get_bool key : rel same_db (Config_get_bool key).
Proof. unfold Config_get_bool. pose proof (same_db_config_get key). rel_auto. Qed.
Lemma same_db_config_get_int key d : rel same_db (Config_get_int key d).
Proof. unfold Config_get_int. pose proof (same_db_config_get key). rel_auto. Qed.
#[export] Hint Resolve same_db_config_get same_db_config_get_bool same_db_config_get_int : pyrel.

(** The instance in hand. *)
Definition same_self (w w' : World) : Prop := self w' = self w.
#[export] Instance same_self_preorder : PreOrder same_self.
Proof. split; unfold same_self; [done | congruence]. Qed.

Lemma same_self_now : rel same_self now. Proof. done. Qed.
Lemma same_self_monotonic : rel same_self monotonic. Proof. done. Qed.
Lemma same_self_kill : rel same_self kill_received. Proof. done. Qed.
Lemma same_self_modify_db f : rel same_self (modify_db f). Proof. done. Qed.
Lemma same_self_modify_sched f : rel same_self (modify_sched f). Proof. done. Qed.
Lemma same_self_count_metric m : rel same_self (count_metric m). Proof. done. Qed.
Lemma same_self_get_self : rel same_self get_self. Proof. done. Qed.
Lemma same_self_get_db : rel same_self get_db. Proof. done. Qed.
Lemma same_self_on_job {A} j (m : Py A) : rel same_self (on_job j m).
Proof. intros w. unfold on_job. by destruct (m _). Qed.
#[export] Hint Resolve same_self_now same_self_monotonic same_self_kill same_self_modify_db
  same_self_modify_sched same_self_count_metric same_self_get_self same_self_get_db
  same_self_on_job : pyrel.

Lemma same_self_config_get key : rel same_self (Config_get key).
Proof. unfold Config_get. rel_auto. Qed.
Lemma same_self_config_get_bool key : rel same_self (Config_get_bool key).
Proof. unfold Config_get_bool. pose proof (same_self_config_get key). rel_auto. Qed.
Lemma same_self_config_get_int key d : rel same_self (Config_get_int key d).
Proof. unfold Config_get_int. pose proof (same_self_config_get key). rel_auto. Qed.
#[export] Hint Resolve same_self_config_get same_self_config_get_bool same_self_config_get_int : pyrel.

(** Neither the database nor the instance in hand. *)
Definition leaves (w w' : World) : Prop := db w' = db w /\ self w' = self w.
#[export] Instance leaves_preorder : PreOrder leaves.
Proof. split; unfold leaves; [done|]. intros x y z [] []. split; congruence. Qed.

Lemma leaves_now : rel leaves now. Proof. done. Qed.
Lemma leaves_monotonic : rel leaves monotonic. Proof. done. Qed.
Lemma leaves_kill : rel leaves kill_received. Proof. done. Qed.
Lemma leaves_modify_sched f : rel leaves (modify_sched f). Proof. done. Qed.
Lemma leaves_count_metric m : rel leaves (count_metric m). Proof. done. Qed.
Lemma leaves_get_self : rel leaves get_self. Proof. done. Qed.
Lemma leaves_get_db : rel leaves get_db. Proof. done. Qed.
Lemma leaves_config_get_bool key : rel leaves (Config_get_bool key).
Proof. intros w. split; [apply same_db_config_get_bool|apply same_self_config_get_bool]. Qed.
Lemma leaves_config_get_int key d : rel leaves (Config_get_int key d).
Proof. intros w. split; [apply same_db_config_get_int|apply same_self_config_get_int]. Qed.
Lemma leaves_same_db {A} (m : Py A) : rel leaves m -> rel same_db m.
Proof. apply rel_mono. by intros w w' []. Qed.
#[export] Hint Resolve leaves_now leaves_monotonic leaves_kill leaves_modify_sched leaves_count_metric leaves_get_self leaves_get_db
  leaves_config_get_bool leaves_config_get_int : pyrel.
