(* ===== verification/JobEvents.v ===== *)
(** * Job events ([core/model_managers/job_events.py])

    The event log of a job: what each writer appends and the times the queries read off it. *)

From S2P Require Import Prelude PyStr Models World.

Local Open Scope string_scope.
Local Open Scope list_scope.

Definition create_event (job_id : JobId) (o : JobEventOrigin) (c : JobEventContext)
    (t : JobEventType) (d : EventData) : Py JobEvent :=
  at_ <- now ;;
  let e := mk_event job_id t o c at_ d in
  modify_db (fun db => set_events (events db ++ [e]) db) ;;;
  ret e.

Definition add_status_event (job_id : JobId) (o : JobEventOrigin) (c : JobEventContext)
    (s : JobStatus) : Py JobEvent :=
  create_event job_id o c STATUS_CHANGE (StatusData s).

Definition add_sub_status_event (job_id : JobId) (o : JobEventOrigin) (c : JobEventContext)
    (s : option SubStatus) : Py JobEvent :=
  create_event job_id o c SUB_STATUS_CHANGE (SubStatusData s).

Definition add_error_event (job_id : JobId) (o : JobEventOrigin) (c : JobEventContext)
    (err_code message exception args : string) : Py JobEvent :=
  create_event job_id o c ERROR (ErrorData err_code message exception args).

(** ** Queries *)

Definition of_job (job_id : JobId) (e : JobEvent) : bool := bool_decide (event_job e = job_id).

(** [data__status__in=statuses]: events whose data has one of these statuses. *)
Definition data_status_in (statuses : list JobStatus) (e : JobEvent) : bool :=
  match event_data e with
  | StatusData s => bool_decide (s ∈ statuses)
  | _ => false
  end.

Definition is_status_change (e : JobEvent) : bool := bool_decide (event_type e = STATUS_CHANGE).

Definition running_status_events (es : list JobEvent) : list JobEvent :=
  order_by event_created
    (filter (fun e => is_status_change e && data_status_in [RUNNING] e) es).

Definition first_running_at (job_id : JobId) (d : DB) : option Z :=
  event_created <$> head (running_status_events (filter (of_job job_id) (events d))).

Definition first_terminal_at (job_id : JobId) (d : DB) : option Z :=
  event_created <$>
  head (order_by event_created
    (filter (fun e => of_job job_id e && (is_status_change e && data_status_in TERMINAL_STATUSES e))
       (events d))).

Definition get_job_events (job_id : JobId) (type_filter : option JobEventType) (d : DB) : list JobEvent :=
  let es := filter (of_job job_id) (events d) in
  match type_filter with
  | Some t => filter (fun e => event_type e = t) es
  | None => es
  end.

(** The statuses a job went through, in the order they were written. *)
Definition status_of_event (e : JobEvent) : option JobStatus :=
  match event_type e, event_data e with
  | STATUS_CHANGE, StatusData s => Some s
  | _, _ => None
  end.
Definition status_history (job_id : JobId) (es : list JobEvent) : list JobStatus :=
  omap status_of_event (filter (of_job job_id) es).

(** ** Lemmas *)

Lemma create_event_run job_id o c t d w :
  create_event job_id o c t d w =
    let e := mk_event job_id t o c (wall w (ticks w)) d in
    (Ok e, set_db (set_events (events (db w) ++ [e]) (db w)) (set_ticks (S (ticks w)) w)).
Proof. reflexivity. Qed.

Lemma status_history_app j es es' :
  status_history j (es ++ es') = status_history j es ++ status_history j es'.
Proof. unfold status_history. by rewrite filter_app, omap_app. Qed.

Lemma status_history_one j e :
  status_history j [e] = if of_job j e then option_list (status_of_event e) else [].
Proof.
  unfold status_history. rewrite filter_cons, filter_nil.
  destruct (of_job j e); simpl; [|done]. by destruct (status_of_event e).
Qed.

(** A job has a first RUNNING time exactly when RUNNING is in its history. *)
Lemma first_running_at_history j d :
  is_Some (first_running_at j d) <-> RUNNING ∈ status_history j (events d).
Proof.
  unfold first_running_at, running_status_events, status_history.
  set (es := filter (of_job j) (events d)).
  rewrite fmap_is_Some. split.
  - intros [e He]. apply head_order_by_elem in He.
    apply list_elem_of_filter in He as [Hp Hin].
    apply list_elem_of_omap. exists e. split; [done|].
    apply Is_true_true, andb_true_iff in Hp as [Ht Hs].
    unfold is_status_change, data_status_in, status_of_event in *.
    apply bool_decide_eq_true in Ht. rewrite Ht.
    destruct (event_data e); try done. apply bool_decide_eq_true in Hs.
    apply list_elem_of_singleton in Hs as ->. done.
  - intros Hin. apply list_elem_of_omap in Hin as (e & Hin & He).
    destruct (head _) eqn:E; [by eexists|].
    apply head_order_by_None in E.
    assert (e ∈ filter (fun e => is_status_change e && data_status_in [RUNNING] e) es) as H.
    { apply list_elem_of_filter. split; [|done].
      unfold status_of_event, is_status_change, data_status_in in *.
      destruct (event_type e) eqn:Et; try done. destruct (event_data e); try done.
      by injection He as ->. }
    rewrite E in H. set_solver.
Qed.

(** Appending an event of another job changes no time of this one. *)
Lemma first_running_at_app j d e :
  event_job e <> j ->
  first_running_at j (set_events (events d ++ [e]) d) = first_running_at j d.
Proof.
  intros Hne. unfold first_running_at. simpl. rewrite filter_app, (filter_cons _ e []).
  rewrite decide_False; [|by unfold of_job; rewrite bool_decide_spec].
  by rewrite filter_nil, app_nil_r.
Qed.
