(* ===== verification/BillingEvents.v ===== *)
(** * The messages about a job ([core/domain/billing_events.py],
    [core/domain/workload_payload.py])

    Builders of the billing messages and of the workload envelope. A builder raises where
    the source reads an attribute of [None] or a key that is not mapped. *)

From S2P Require Import Prelude PyStr Domain Models World JobEvents.

Local Open Scope string_scope.
Local Open Scope list_scope.

Definition LICENSE_FEE_METRIC_TYPE : string := "license".
Definition CLASSICAL_TIME_METRIC_TYPE_PREFIX : string := "classical".

(** [x.attr] on a value that can be [None]. *)
Definition attr {A} (o : option A) : Py A :=
  match o with
  | Some a => ret a
  | None => raise (mk_exn AttributeError "'NoneType' object has no attribute")
  end.

Definition MICROS : Z := 1000000.

Module BillingEvents.

Definition envelope (job : Job) (data : BillingData) : Py Payload :=
  t <- now ;; ret (BillingPayload t (id job) data).

(** [math.ceil(delta.total_seconds())], never below zero. *)
Definition usage_seconds (started_at : option Z) (as_of : Z) : Z :=
  match started_at with
  | None => 0
  | Some s => Z.max 0 (- ((- (as_of - s)) / MICROS))
  end.

Definition classical_metric_type (job : Job) : string :=
  join "_" (CLASSICAL_TIME_METRIC_TYPE_PREFIX ::
              if truthy (job_compute_profile_id job)
              then option_list (job_compute_profile_id job) else []).

Definition build_license_fee (job : Job) (started_at : option Z) : Py Payload :=
  p <- attr (program job) ;;
  provider <- attr (program_provider p) ;;
  size <- attr (size_label job) ;;
  let metric := join "_" [LICENSE_FEE_METRIC_TYPE; provider_name provider; title p; lower size] in
  name <- of_outcome (BusinessModel.billing_name_for (business_model job)) ;;
  envelope job (mk_billing metric 1 (instance_crn job) (id job) true started_at true (Some name)).

Definition build_job_usage (job : Job) (started_at : option Z) (last_progress : option Z) : Py Payload :=
  let started := match last_progress with None => true | Some _ => false end in
  let usage := match last_progress with None => 0%Z | Some t => usage_seconds started_at t end in
  s <- attr started_at ;;
  envelope job (mk_billing (classical_metric_type job) usage (instance_crn job) (id job)
                  started (Some s) false None).

Definition build_job_completed_event (job : Job) (started_at : option Z) (finished_at : Z) : Py Payload :=
  envelope job (mk_billing (classical_metric_type job) (usage_seconds started_at finished_at)
                  (instance_crn job) (id job) false started_at true None).

End BillingEvents.

Module Workload.

Definition CUSTOM_FUNCTIONS : string := "custom".
Definition WORKLOADS_MIRROR_ENABLED : string := "workloads.mirror.enabled".

Definition WORKLOAD_STATUS_MAPPING (s : JobStatus) : string :=
  match s with
  | QUEUED => "Queued"
  | PENDING => "Pending"
  | RUNNING => "Running"
  | STOPPING => "Stopping"
  | SUCCEEDED => "Completed"
  | FAILED => "Failed"
  | STOPPED => "Cancelled"
  end.

Definition should_be_mirrored (job : Job) : bool :=
  bool_decide (runner job = FLEETS) && negb (filler job) && truthy (instance_crn job).

Definition in_entries (s : string) (entries : list string) : bool := bool_decide (s ∈ entries).

Definition mirror_enabled_for (job : Job) : Py bool :=
  v <- Config_get WORKLOADS_MIRROR_ENABLED ;;
  let value := lower (strip v) in
  if bool_decide (value = "true") || bool_decide (value = "false")
  then ret (bool_decide (value = "true"))
  else
    match program job with
    | None => ret false
    | Some p =>
        let entries := map strip (split_on "," value) in
        match program_provider p with
        | None => ret (in_entries CUSTOM_FUNCTIONS entries)
        | Some prov =>
            let provider := lower (provider_name prov) in
            ret (in_entries provider (filter (fun e => e <> CUSTOM_FUNCTIONS) entries)
                 || in_entries (provider +:+ "/" +:+ lower (title p)) entries)
        end
    end.

Definition is_mirrored (job : Job) : Py bool :=
  gets (fun w => bool_decide (id job ∈ mirrors (db w))).

Definition build_workload_payload (job : Job) : Py Payload :=
  if negb (truthy (instance_crn job)) then
    raise (mk_exn ValueError ("Job " +:+ id job +:+ " has no instance_crn"))
  else
    match program job with
    | None => raise (mk_exn ValueError ("Job " +:+ id job +:+ " has no program"))
    | Some p =>
        d <- get_db ;;
        let ended_at := if in_terminal_state job then first_terminal_at (id job) d else None in
        let running_at := first_running_at (id job) d in
        ret (WorkloadPayload (id job)
               (mk_body (title p) (provider_name <$> program_provider p) (instance_crn job)
                  (username (author job)) (WORKLOAD_STATUS_MAPPING (status job))
                  (job_compute_profile_id job) (size_label job)
                  (created job) running_at ended_at))
    end.

End Workload.

(** ** Lemmas *)

Section usage_seconds.
Import BillingEvents.

Lemma usage_seconds_nonneg s t : (0 <= usage_seconds s t)%Z.
Proof. unfold usage_seconds. destruct s; lia. Qed.

(** The ceiling: the least number of whole seconds that covers the elapsed time. *)
Lemma usage_seconds_ceiling s t n :
  (0 <= n)%Z -> (usage_seconds (Some s) t <= n)%Z <-> (t - s <= n * MICROS)%Z.
Proof.
  intros Hn. unfold usage_seconds, MICROS.
  pose proof (Z.div_mod (- (t - s)) 1000000 ltac:(lia)) as Hdm.
  pose proof (Z.mod_pos_bound (- (t - s)) 1000000 ltac:(lia)) as Hb. lia.
Qed.

Lemma usage_seconds_mono s t t' :
  (t <= t')%Z -> (usage_seconds s t <= usage_seconds s t')%Z.
Proof.
  destruct s as [s|]; [|done]. intros H.
  apply usage_seconds_ceiling; [apply usage_seconds_nonneg|].
  pose proof (proj1 (usage_seconds_ceiling s t' _ (usage_seconds_nonneg (Some s) t')) ltac:(lia)).
  lia.
Qed.
End usage_seconds.

(** The builders write nothing. *)
Lemma same_db_attr {A} (o : option A) : rel same_db (attr o).
Proof. unfold attr. rel_auto. Qed.
Lemma same_db_of_outcome {A} (o : outcome A) : rel same_db (of_outcome o).
Proof. unfold of_outcome. rel_auto. Qed.
#[export] Hint Resolve same_db_attr same_db_of_outcome : pyrel.

Lemma same_db_license_fee j s : rel same_db (BillingEvents.build_license_fee j s).
Proof. unfold BillingEvents.build_license_fee, BillingEvents.envelope. rel_auto. Qed.
Lemma same_db_job_usage j s t : rel same_db (BillingEvents.build_job_usage j s t).
Proof. unfold BillingEvents.build_job_usage, BillingEvents.envelope. rel_auto. Qed.
Lemma same_db_job_completed j s t : rel same_db (BillingEvents.build_job_completed_event j s t).
Proof. unfold BillingEvents.build_job_completed_event, BillingEvents.envelope. rel_auto. Qed.
Lemma same_db_workload j : rel same_db (Workload.build_workload_payload j).
Proof. unfold Workload.build_workload_payload. rel_auto. Qed.
Lemma same_db_is_mirrored j : rel same_db (Workload.is_mirrored j).
Proof. unfold Workload.is_mirrored. rel_auto. Qed.
#[export] Hint Resolve same_db_license_fee same_db_job_usage same_db_job_completed
  same_db_workload same_db_is_mirrored : pyrel.
