(* ===== verification/JobTransitions.v ===== *)
(** * Job status transitions ([core/services/job_transitions.py])

    [JobTransitionService]: the status change of a job, validated against the row, and
    everything the change owes: the event, the outbox rows, the best effort messages. The
    senders and the runner are interfaces: a record of what the service calls, and a class
    with the laws its theorems need. *)

From S2P Require Import Prelude PyStr Domain Models World JobEvents BillingEvents.

Local Open Scope string_scope.
Local Open Scope list_scope.

(** ** Rows: [Job.update_fields] and [Job.save_direct] ([core/models.py]) *)

Definition DoesNotExist_error : exn :=
  mk_exn DoesNotExist "Job matching query does not exist.".

(** [Job.objects.filter(pk=pk).update(...)]: nothing happens without a row. *)
Definition update_row (pk : JobId) (f : Job -> Job) (d : DB) : DB :=
  set_jobs (alter f pk (jobs d)) d.

(** [self.refresh_from_db(fields=["version"])]. *)
Definition refresh_version : Py unit :=
  w <- get ;;
  match jobs (db w) !! id (self w) with
  | Some row => modify_self (setattr (F_version (version row)))
  | None => raise DoesNotExist_error
  end.

Definition bump_version (j : Job) : Job := setattr (F_version (version j + 1)) j.

Definition update_fields (fields_map : list JobField) : Py unit :=
  t <- now ;;
  let fields := F_updated (Some t) :: fields_map in
  modify_self (set_fields fields) ;;;
  job <- get_self ;;
  modify_db (update_row (id job) (fun row => bump_version (set_fields fields row))) ;;;
  refresh_version.

(** ** The service *)

(** [AbstractRunner]: what the transitions and the scheduler call on the runner of a job.
    Its implementations reach other services, so here each method is any computation. *)
Record AbstractRunner := mk_runner {
  runner_submit : Py (option string);
  runner_status : Py (option JobStatus);
  runner_stop : Py bool;
  runner_free_resources : Py bool
}.

(** [get_runner(job)] called only when one of its methods is: the error of building it is
    the error of the call. *)
Definition lazy_runner (r : outcome AbstractRunner) : AbstractRunner := {|
  runner_submit := r <- of_outcome r ;; runner_submit r;
  runner_status := r <- of_outcome r ;; runner_status r;
  runner_stop := r <- of_outcome r ;; runner_stop r;
  runner_free_resources := r <- of_outcome r ;; runner_free_resources r
|}.

Record JobTransitionService := mk_service {
  billing_sender : Payload -> Py unit;
  workload_mirror : Py unit          (* sends the job in hand *)
}.

Definition VALID_TRANSITIONS (s : JobStatus) : list JobStatus :=
  match s with
  | QUEUED => [PENDING; FAILED; STOPPED; STOPPING]
  | PENDING => [SUCCEEDED; FAILED; STOPPED; STOPPING; RUNNING]
  | RUNNING => [SUCCEEDED; FAILED; STOPPED; STOPPING]
  | STOPPING => [SUCCEEDED; FAILED; STOPPED]
  | SUCCEEDED | FAILED | STOPPED => []
  end.

Definition invalid_transition (job_id : JobId) : exn :=
  mk_exn InvalidJobTransitionException ("Job " +:+ job_id +:+ ": invalid transition").

Definition change_status (new : JobStatus) (o : JobEventOrigin) (c : JobEventContext)
    (job_fields : list JobField) : Py JobEvent :=
  w <- get ;;
  match jobs (db w) !! id (self w) with
  | None => raise DoesNotExist_error
  | Some row =>
      if bool_decide (new ∈ VALID_TRANSITIONS (status row)) then
        event <- add_status_event (id (self w)) o c new ;;
        update_fields (F_status new :: job_fields) ;;;
        ret event
      else raise (invalid_transition (id (self w)))
  end.

Definition is_usage_billable (job : Job) : bool :=
  bool_decide (runner job = FLEETS) && negb (filler job) && truthy (instance_crn job).

Definition is_fee_billable (job : Job) : bool :=
  bool_decide (runner job = FLEETS) && negb (filler job) && truthy (instance_crn job)
  && match program job with
     | Some p => match program_provider p with Some _ => true | None => false end
     | None => false
     end.

Definition region (job : Job) : option string :=
  Crn.region <$> Crn.parse (instance_crn job).

(** [Outbox.objects.create(job=..., channel=..., region=..., payload=...)]. *)
Definition create_outbox (channel : OutboxChannel) (r : option string) (payload : Payload) : Py unit :=
  job <- get_self ;;
  at_ <- now ;;
  modify_db (fun d =>
    set_outbox_seq (S (outbox_seq d))
      (set_outbox (outbox d ++
         [mk_outbox (outbox_seq d) (id job) channel r payload at_ 0 at_ "" false]) d)).

Definition enqueue_job_usage (job_started_at : option Z) (job_finished_time : Z) : Py unit :=
  job <- get_self ;;
  message <- BillingEvents.build_job_completed_event job job_started_at job_finished_time ;;
  create_outbox JOB_USAGE (region job) message.

Definition enqueue_license_fee (job_started_at : option Z) : Py unit :=
  job <- get_self ;;
  match size_label job with
  | None => ret tt
  | Some _ =>
      message <- BillingEvents.build_license_fee job job_started_at ;;
      create_outbox LICENSE_FEE (region job) message
  end.

Definition enqueue_workload : Py unit :=
  job <- get_self ;;
  mirrored <- Workload.is_mirrored job ;;
  if mirrored : bool then
    payload <- Workload.build_workload_payload job ;;
    create_outbox WORKLOAD (region job) payload ;;;
    modify_db (fun d => set_mirrors (mirrors d ∖ {[id job]}) d)
  else ret tt.

Section service.
Context (svc : JobTransitionService).

Definition send_job_in_progress (started : bool) (job_started_at : option Z) : Py unit :=
  job <- get_self ;;
  if filler job then ret tt
  else
    try_except
      (last_progress <- (if started then ret None else t <- now ;; ret (Some t)) ;;
       payload <- BillingEvents.build_job_usage job job_started_at last_progress ;;
       billing_sender svc payload)
      (fun ex => if isinstance ex RuntimeError then Some (ret tt) else None).

Definition queued_to_pending (o : JobEventOrigin) (c : JobEventContext)
    (job_fields : list JobField) : Py JobEvent :=
  event <- atomic (change_status PENDING o c job_fields) ;;
  workload_mirror svc ;;;
  ret event.

Definition pending_to_running (o : JobEventOrigin) (c : JobEventContext)
    (job_fields : list JobField) : Py JobEvent :=
  event <- atomic (change_status RUNNING o c job_fields) ;;
  send_job_in_progress true (Some (event_created event)) ;;;
  workload_mirror svc ;;;
  ret event.

Definition running_to_running (job_started_at : option Z) : Py unit :=
  send_job_in_progress false job_started_at.

Definition not_a_fleets_job (job : Job) : exn :=
  mk_exn ValueError ("Job " +:+ id job +:+ ": stop is for Fleets jobs").
Definition fleet_appeared (job : Job) : exn :=
  mk_exn FleetAppearedError ("Job " +:+ id job +:+ ": a fleet appeared while stopping").

Definition stop (r : AbstractRunner) (o : JobEventOrigin) (c : JobEventContext) : Py JobStatus :=
  job <- get_self ;;
  if negb (bool_decide (runner job = FLEETS)) then raise (not_a_fleets_job job)
  else
    cancel_in_flight <- (if truthy (fleet_id job) then runner_stop r else ret false) ;;
    if cancel_in_flight : bool then
      atomic (change_status STOPPING o c []) ;;;
      workload_mirror svc ;;;
      ret STOPPING
    else
      atomic
        (w <- get ;;
         match jobs (db w) !! id (self w) with
         | None => raise DoesNotExist_error
         | Some row =>
             if bool_decide (fleet_id row = fleet_id (self w)) then
               change_status STOPPED o c [] ;;;
               enqueue_workload
             else
               modify_self (setattr (F_fleet_id (fleet_id row))) ;;;
               raise (fleet_appeared (self w))
         end) ;;;
      ret STOPPED.

Definition to_succeeded (o : JobEventOrigin) (c : JobEventContext)
    (job_fields : list JobField) : Py JobEvent :=
  atomic
    (event <- change_status SUCCEEDED o c job_fields ;;
     job <- get_self ;;
     (if is_usage_billable job then
        job_started_at <- gets (fun w => first_running_at (id job) (db w)) ;;
        enqueue_job_usage job_started_at (event_created event) ;;;
        if is_fee_billable job then enqueue_license_fee job_started_at else ret tt
      else ret tt) ;;;
     enqueue_workload ;;;
     ret event).

Definition to_stopped_or_failed (s : JobStatus) (o : JobEventOrigin) (c : JobEventContext)
    (job_fields : list JobField) : Py JobEvent :=
  atomic
    (event <- change_status s o c job_fields ;;
     job <- get_self ;;
     (if is_usage_billable job then
        job_started_at <- gets (fun w => first_running_at (id job) (db w)) ;;
        enqueue_job_usage job_started_at (event_created event) ;;;
        if bool_decide (is_Some job_started_at) && is_fee_billable job
        then enqueue_license_fee job_started_at else ret tt
      else ret tt) ;;;
     enqueue_workload ;;;
     ret event).

Definition to_failed := to_stopped_or_failed FAILED.
Definition to_stopped := to_stopped_or_failed STOPPED.

Definition to_terminal (s : JobStatus) (o : JobEventOrigin) (c : JobEventContext)
    (job_fields : list JobField) : Py JobEvent :=
  match s with
  | SUCCEEDED => to_succeeded o c job_fields
  | FAILED => to_failed o c job_fields
  | STOPPED => to_stopped o c job_fields
  | _ =>
      job <- get_self ;;
      raise (mk_exn ValueError ("Job " +:+ id job +:+ ": not a terminal status"))
  end.
End service.
