(* ===== verification/TransitionSpec.v ===== *)
(** * What the transitions promise

    [Abs]: the abstract specification of a job's lifecycle, a step relation on the database
    whose labels are the outbox rows a step writes. Every method of [JobTransitionService]
    refines it, whatever [Job] instance it is called on and however it ends; the safety
    theorems are proved on the relation. The functional theorems say what each method
    writes. *)

From S2P Require Import Prelude PyStr Domain Models World JobEvents BillingEvents JobTransitions.

Local Open Scope string_scope.
Local Open Scope list_scope.

(** ** What [change_status] writes *)

Section change_status.
Context (new : JobStatus) (o : JobEventOrigin) (c : JobEventContext) (fs : list JobField).

Definition transition_event (w : World) : JobEvent :=
  mk_event (id (self w)) STATUS_CHANGE o c (wall w (ticks w)) (StatusData new).

Definition transition_fields (w : World) : list JobField :=
  F_updated (Some (wall w (S (ticks w)))) :: F_status new :: fs.

Definition transition_row (w : World) (row : Job) : Job :=
  bump_version (set_fields (transition_fields w) row).

(** The world after the change: the event, the row and the instance in hand. *)
Definition transitioned (w : World) (row : Job) : World :=
  set_self (setattr (F_version (version (transition_row w row)))
              (set_fields (transition_fields w) (self w)))
    (set_ticks (S (S (ticks w)))
       (set_db (set_jobs (<[id (self w) := transition_row w row]> (jobs (db w)))
                  (set_events (events (db w) ++ [transition_event w]) (db w))) w)).

Lemma transitioned_id w row : id (self (transitioned w row)) = id (self w).
Proof. apply set_fields_id. Qed.

Lemma update_fields_run fields w row :
  jobs (db w) !! id (self w) = Some row ->
  update_fields fields w =
    (let fields' := F_updated (Some (wall w (ticks w))) :: fields in
     let row' := bump_version (set_fields fields' row) in
     (Ok tt, set_self (setattr (F_version (version row')) (set_fields fields' (self w)))
        (set_ticks (S (ticks w))
           (set_db (set_jobs (<[id (self w) := row']> (jobs (db w))) (db w)) w)))).
Proof.
  intros Hrow. unfold update_fields, update_row. cbn -[set_fields bump_version alter].
  unfold refresh_version. cbn -[set_fields bump_version alter].
  rewrite !set_fields_id, (alter_Some _ _ _ _ Hrow).
  rewrite lookup_insert_eq. reflexivity.
Qed.

Lemma change_status_ok w row :
  jobs (db w) !! id (self w) = Some row ->
  new ∈ VALID_TRANSITIONS (status row) ->
  change_status new o c fs w = (Ok (transition_event w), transitioned w row).
Proof.
  intros Hrow Hnew. unfold change_status. cbn -[update_fields].
  rewrite Hrow, bool_decide_eq_true_2 by done. cbn -[update_fields].
  erewrite bind_ok; [|by apply update_fields_run]. reflexivity.
Qed.

Lemma change_status_missing w :
  jobs (db w) !! id (self w) = None ->
  change_status new o c fs w = (Raise DoesNotExist_error, w).
Proof. intros Hrow. unfold change_status. cbn. by rewrite Hrow. Qed.

Lemma change_status_invalid w row :
  jobs (db w) !! id (self w) = Some row ->
  new ∉ VALID_TRANSITIONS (status row) ->
  change_status new o c fs w = (Raise (invalid_transition (id (self w))), w).
Proof.
  intros Hrow Hnew. unfold change_status. cbn. by rewrite Hrow, bool_decide_eq_false_2.
Qed.

(** Every way [change_status] can end. *)
Lemma change_status_inv w out w' :
  change_status new o c fs w = (out, w') ->
  (exists row, jobs (db w) !! id (self w) = Some row /\ new ∈ VALID_TRANSITIONS (status row)
     /\ out = Ok (transition_event w) /\ w' = transitioned w row)
  \/ (exists e, out = Raise e /\ w' = w).
Proof.
  intros H. destruct (jobs (db w) !! id (self w)) as [row|] eqn:Hrow.
  - destruct (decide (new ∈ VALID_TRANSITIONS (status row))) as [Hn|Hn].
    + rewrite (change_status_ok _ _ Hrow Hn) in H. left. naive_solver.
    + rewrite (change_status_invalid _ _ Hrow Hn) in H. right. naive_solver.
  - rewrite change_status_missing in H by done. right. naive_solver.
Qed.
End change_status.

(** ** The abstract lifecycle *)

Module Abs.

Definition job_status (d : DB) (j : JobId) : option JobStatus := status <$> jobs d !! j.
Definition history (d : DB) (j : JobId) : list JobStatus := status_history j (events d).

(** The identity of an outbox row: the fact it announces. *)
Definition fact (r : Outbox) : JobId * OutboxChannel := (ob_job r, ob_channel r).
Definition facts (d : DB) : list (JobId * OutboxChannel) := map fact (outbox d).

Definition same_job (d d' : DB) (j : JobId) : Prop :=
  job_status d' j = job_status d j /\ history d' j = history d j.

(** One step. [step_other] is everything the rest of the system does: it may write any other
    field of any row, log other events, send and delete outbox rows. *)
Inductive step : list (JobId * OutboxChannel) -> DB -> DB -> Prop :=
  | step_other d d' :
      (forall j, same_job d d' j) ->
      facts d' ⊆+ facts d ->
      step [] d d'
  | step_create d d' j :
      job_status d j = None -> history d j = [] ->
      job_status d' j = Some QUEUED -> history d' j = [QUEUED] ->
      (forall j', j' <> j -> same_job d d' j') ->
      facts d' = facts d ->
      step [] d d'
  | step_transition d d' j s s' chans :
      job_status d j = Some s -> s' ∈ VALID_TRANSITIONS s ->
      job_status d' j = Some s' -> history d' j = history d j ++ [s'] ->
      (forall j', j' <> j -> same_job d d' j') ->
      NoDup chans ->
      (chans <> [] -> s' ∈ TERMINAL_STATUSES) ->
      facts d' = facts d ++ map (pair j) chans ->
      step (map (pair j) chans) d d'.

(** Executions, labelled by every row they wrote. *)
Inductive exec : list (JobId * OutboxChannel) -> DB -> DB -> Prop :=
  | exec_nil d : exec [] d d
  | exec_cons T T' d d1 d' : step T d d1 -> exec T' d1 d' -> exec (T ++ T') d d'.

Lemma exec_one T d d' : step T d d' -> exec T d d'.
Proof. intros H. rewrite <- (app_nil_r T). econstructor; [done | constructor]. Qed.

Lemma exec_app T T' d d1 d' : exec T d d1 -> exec T' d1 d' -> exec (T ++ T') d d'.
Proof.
  induction 1 as [|T1 T2 d d2 d1 Hs _ IH]; intros H; [done|].
  rewrite <- app_assoc. econstructor; [done | by apply IH].
Qed.

Lemma last_cons_default {A} (x : A) l d : List.last (x :: l) d = List.last l x.
Proof. revert x d. induction l as [|y l IH]; intros x d; [done|]. exact (eq_trans (IH y d) (eq_sym (IH y x))). Qed.

(** A path of the status machine. *)
Fixpoint path (s : JobStatus) (l : list JobStatus) : Prop :=
  match l with
  | [] => True
  | s' :: l' => s' ∈ VALID_TRANSITIONS s /\ path s' l'
  end.

Lemma path_snoc s l s' :
  path s l -> s' ∈ VALID_TRANSITIONS (List.last l s) -> path s (l ++ [s']).
Proof.
  revert s. induction l as [|x l IH]; intros s; cbn [path app]; [done|].
  rewrite last_cons_default. intros [Hx Hl] H. auto.
Qed.

(** The invariant of a job: its log starts at QUEUED, every entry is a valid transition
    from the one before, and the last is the status of the row. *)
Definition job_ok (d : DB) (j : JobId) : Prop :=
  match job_status d j with
  | Some s => exists l, history d j = QUEUED :: l /\ path QUEUED l /\ List.last l QUEUED = s
  | None => history d j = []
  end.
Definition log_ok (d : DB) : Prop := forall j, job_ok d j.

Lemma job_ok_same d d' j : same_job d d' j -> job_ok d j -> job_ok d' j.
Proof. unfold job_ok. by intros [-> ->]. Qed.

Lemma step_log_ok T d d' : step T d d' -> log_ok d -> log_ok d'.
Proof.
  destruct 1 as [d d' Hsame _|d d' j Hn Hh Hs Hh' Hsame _|d d' j s s' chans Hs Hv Hs' Hh Hsame _ _ _];
    intros Hok j'.
  - by eapply job_ok_same.
  - destruct (decide (j' = j)) as [->|Hne]; [|by eapply job_ok_same; auto].
    unfold job_ok. rewrite Hs. exists []. done.
  - destruct (decide (j' = j)) as [->|Hne]; [|by eapply job_ok_same; auto].
    specialize (Hok j). unfold job_ok in *. rewrite Hs in Hok. rewrite Hs'.
    destruct Hok as (l & Hl & Hp & Hlast). exists (l ++ [s']). rewrite Hh, Hl.
    split; [done|]. split; [apply path_snoc; by rewrite ?Hlast|]. by rewrite last_last.
Qed.

Lemma exec_log_ok T d d' : exec T d d' -> log_ok d -> log_ok d'.
Proof. induction 1; eauto using step_log_ok. Qed.

(** Terminal statuses have no exit. *)
Lemma terminal_no_exit s s' : s ∈ TERMINAL_STATUSES -> s' ∉ VALID_TRANSITIONS s.
Proof.
  assert (bool_decide (s ∈ TERMINAL_STATUSES) && bool_decide (s' ∈ VALID_TRANSITIONS s) = false)
    as H by (by destruct s, s').
  intros Hs Hs'. by rewrite !bool_decide_eq_true_2 in H.
Qed.

Definition terminal (d : DB) (j : JobId) : Prop :=
  exists s, job_status d j = Some s /\ s ∈ TERMINAL_STATUSES.

Lemma step_terminal T d d' j :
  step T d d' -> terminal d j ->
  same_job d d' j /\ (forall ch, (j, ch) ∉ T).
Proof.
  destruct 1 as [d d' Hsame _|d d' j' Hn Hh Hs Hh' Hsame _|d d' j' s s' chans Hs Hv Hs' Hh Hsame _ _ _];
    intros (s0 & Hj & Ht).
  - split; [done | set_solver].
  - split; [apply Hsame; congruence | set_solver].
  - assert (j <> j') as Hne.
    { intros ->. rewrite Hs in Hj. injection Hj as ->. by eapply terminal_no_exit. }
    split; [by apply Hsame|]. intros ch (x & [= ] & _)%list_elem_of_fmap. done.
Qed.

Lemma terminal_same d d' j : same_job d d' j -> terminal d j -> terminal d' j.
Proof. intros [Hs _] (s & ? & ?). exists s. by rewrite Hs. Qed.

Lemma exec_terminal T d d' j :
  exec T d d' -> terminal d j -> same_job d d' j /\ (forall ch, (j, ch) ∉ T).
Proof.
  induction 1 as [|T T' d d1 d' Hs _ IH]; intros Ht; [split; [done | set_solver]|].
  destruct (step_terminal _ _ _ _ Hs Ht) as [Hsame Hn].
  destruct IH as [Hsame' Hn']; [by eapply terminal_same|].
  split; [destruct Hsame, Hsame'; split; congruence|].
  intros ch [H|H]%elem_of_app; [by eapply Hn | by eapply Hn'].
Qed.

(** The outbox announces nothing twice, and nothing about a job that has not ended. *)
Definition outbox_ok (d : DB) : Prop :=
  NoDup (facts d) /\ forall j ch, (j, ch) ∈ facts d -> terminal d j.

Lemma step_outbox_ok T d d' : step T d d' -> outbox_ok d -> outbox_ok d'.
Proof.
  intros Hstep [Hnd Ht]. pose proof (fun j => step_terminal _ _ _ j Hstep) as Habs.
  assert (Hkeep : forall j ch, (j, ch) ∈ facts d -> terminal d' j).
  { intros j ch Hin. specialize (Ht j ch Hin). eapply terminal_same; [by eapply Habs | done]. }
  destruct Hstep as [d d' Hsame Hf|d d' j Hn Hh Hs Hh' Hsame Hf|d d' j s s' chans Hs Hv Hs' Hh Hsame Hc Hct Hf].
  - split; [by eapply submseteq_NoDup|]. intros j ch Hin. eapply Hkeep.
    by eapply elem_of_submseteq.
  - unfold outbox_ok. by rewrite Hf.
  - split.
    + rewrite Hf. apply NoDup_app. split; [done|]. split.
      * intros [j' ch] Hin (x & [= -> ->] & _)%list_elem_of_fmap.
        destruct (Ht _ _ Hin) as (s0 & Hs0 & Hterm). rewrite Hs in Hs0. injection Hs0 as ->.
        by eapply terminal_no_exit.
      * apply NoDup_fmap_2; [by intros ?? [= ]|done].
    + intros j' ch. rewrite Hf. intros [Hin|(x & [= -> ->] & Hin)%list_elem_of_fmap]%elem_of_app;
        [by eapply Hkeep|].
      exists s'. split; [done|]. apply Hct. by intros ->; apply not_elem_of_nil in Hin.
Qed.

Lemma exec_outbox_ok T d d' : exec T d d' -> outbox_ok d -> outbox_ok d'.
Proof. induction 1; eauto using step_outbox_ok. Qed.

Lemma step_facts T d d' k : step T d d' -> k ∈ facts d' -> k ∈ facts d \/ k ∈ T.
Proof.
  destruct 1 as [d d' _ Hf|d d' j _ _ _ _ _ Hf|d d' j s s' chans _ _ _ _ _ _ _ Hf];
    [intros Hin; left; by eapply elem_of_submseteq|by rewrite Hf; left|by rewrite Hf, elem_of_app].
Qed.

Lemma exec_facts T d d' k : exec T d d' -> k ∈ facts d' -> k ∈ facts d \/ k ∈ T.
Proof.
  induction 1 as [|T T' d d1 d' Hs _ IH]; [by left|]. rewrite elem_of_app. intros Hin.
  destruct (IH Hin) as [H|H]; [|by auto]. destruct (step_facts _ _ _ _ Hs H); auto.
Qed.

(** A job whose rows were written is terminal. *)
Lemma step_facts_terminal T d d' j ch : step T d d' -> (j, ch) ∈ T -> terminal d' j.
Proof.
  destruct 1 as [ | |d d' j' s s' chans Hs Hv Hs' Hh Hsame _ Ht _]; [set_solver..|].
  intros (x & [= -> ->] & Hin)%list_elem_of_fmap. exists s'. split; [done|]. apply Ht.
  intros ->. set_solver.
Qed.

Lemma step_NoDup T d d' : step T d d' -> NoDup T.
Proof.
  destruct 1; [constructor..|]. apply NoDup_fmap_2; [|done]. by intros ?? [= ].
Qed.

(** No fact is written twice. *)
Lemma exec_NoDup T d d' : exec T d d' -> NoDup T.
Proof.
  induction 1 as [|T T' d d1 d' Hs He IH]; [constructor|].
  apply NoDup_app. split; [by eapply step_NoDup|]. split; [|done].
  intros [j ch] Hin Hin'. pose proof (step_facts_terminal _ _ _ _ _ Hs Hin) as Ht.
  by apply (proj2 (exec_terminal _ _ _ _ He Ht) ch).
Qed.

End Abs.

(** ** Refinement *)

(** The database effect of a run is an execution of the abstract lifecycle. *)
Definition refines (w w' : World) : Prop := exists T, Abs.exec T (db w) (db w').

#[export] Instance refines_preorder : PreOrder refines.
Proof.
  split; [intros w; exists []; constructor|].
  intros ??? [T HT] [T' HT']. exists (T ++ T'). by eapply Abs.exec_app.
Qed.

Lemma refines_same_db w w' : same_db w w' -> refines w w'.
Proof. intros H. exists []. rewrite H. constructor. Qed.

Lemma rel_refines_same_db {A} (m : Py A) : rel same_db m -> rel refines m.
Proof. apply rel_mono, refines_same_db. Qed.

(** What the service needs of the objects it calls: the senders leave the database alone,
    and whatever happens while a runner talks to Code Engine, other processes included, is
    itself made of lifecycle steps. *)
Class ServiceLaws (svc : JobTransitionService) : Prop := {
  sender_same_db p : rel same_db (billing_sender svc p);
  mirror_same_db : rel same_db (workload_mirror svc)
}.
Class RunnerLaws (r : AbstractRunner) : Prop := {
  submit_refines : rel refines (runner_submit r);
  status_refines : rel refines (runner_status r);
  stop_refines : rel refines (runner_stop r);
  free_resources_refines : rel refines (runner_free_resources r)
}.
#[export] Hint Resolve sender_same_db mirror_same_db : pyrel.

(** [Keeps R svc get_runner]: whatever the service's senders and the runners do respects [R]:
    the form in which an invariant of a task needs its collaborators to keep it. *)
Class Keeps (R : World -> World -> Prop) (svc : JobTransitionService)
    (get_runner : Job -> outcome AbstractRunner) : Prop := {
  sender_keeps p : rel R (billing_sender svc p);
  mirror_keeps : rel R (workload_mirror svc);
  submit_keeps j r : get_runner j = Ok r -> rel R (runner_submit r);
  status_keeps j r : get_runner j = Ok r -> rel R (runner_status r);
  stop_keeps j r : get_runner j = Ok r -> rel R (runner_stop r)
}.

#[export] Instance lazy_runner_laws r :
  (forall r', r = Ok r' -> RunnerLaws r') -> RunnerLaws (lazy_runner r).
Proof.
  intros Hr. destruct r as [r'|e]; [|split; apply rel_raise; exact _].
  destruct (Hr r' eq_refl). split; assumption.
Qed.

(** [adds chans m]: all [m] does to the database is to append outbox rows of the job in hand
    (and to drop its mirror row), on some of the channels [chans], each at most once and in
    that order. *)
Definition adds {A} (chans : list OutboxChannel) (m : Py A) : Prop :=
  forall w, exists rows,
    jobs (db (snd (m w))) = jobs (db w) /\ events (db (snd (m w))) = events (db w)
    /\ self (snd (m w)) = self w
    /\ outbox (db (snd (m w))) = outbox (db w) ++ rows
    /\ map ob_channel rows `sublist_of` chans
    /\ Forall (fun r => ob_job r = id (self w)) rows.

Section adds.

Lemma adds_pure {A} (m : Py A) : rel same_db m -> (forall w, self (snd (m w)) = self w) -> adds [] m.
Proof.
  intros Hm Hs w. exists []. rewrite (Hm w), Hs, app_nil_r. split_and!; [done..|constructor].
Qed.

Lemma adds_bind {A B} c1 c2 (m : Py A) (k : A -> Py B) :
  adds c1 m -> (forall a, adds c2 (k a)) -> adds (c1 ++ c2) (bind m k).
Proof.
  intros Hm Hk w. specialize (Hm w) as (r1 & Hj & He & Hs & Ho & Hc & Hf).
  unfold bind. destruct (m w) as [[a|e] w1]; cbn in *.
  - specialize (Hk a w1) as (r2 & Hj2 & He2 & Hs2 & Ho2 & Hc2 & Hf2).
    exists (r1 ++ r2). rewrite Hs in Hf2. split_and!; try congruence.
    + by rewrite Ho2, Ho, app_assoc.
    + rewrite map_app. by apply sublist_app.
    + by apply Forall_app.
  - exists r1. split_and!; [done..| |done]. by apply sublist_inserts_r.
Qed.

Lemma adds_weaken {A} c c' (m : Py A) : adds c m -> c `sublist_of` c' -> adds c' m.
Proof.
  intros Hm Hc w. destruct (Hm w) as (rows & ? & ? & ? & ? & ? & ?).
  exists rows. split_and!; try done. by etransitivity.
Qed.

Lemma adds_ret {A} (a : A) : adds [] (ret a).
Proof. by apply adds_pure. Qed.
Lemma adds_get_self : adds [] get_self.
Proof. by apply adds_pure. Qed.
Lemma adds_gets {A} (f : World -> A) : adds [] (gets f).
Proof. by apply adds_pure. Qed.

Lemma adds_create_outbox ch r p : adds [ch] (create_outbox ch r p).
Proof.
  intros w. eexists [_]. cbn. split_and!; [done..|]. by repeat constructor.
Qed.

Ltac pure_builder :=
  apply adds_pure; [auto with pyrel|];
  intros w; unfold BillingEvents.build_job_completed_event, BillingEvents.build_license_fee,
    BillingEvents.envelope, Workload.build_workload_payload, of_outcome, attr, bind, ret, raise,
    get_db, gets, now; repeat case_match; by simplify_eq/=.

Lemma adds_completed j s t : adds [] (BillingEvents.build_job_completed_event j s t).
Proof. pure_builder. Qed.
Lemma adds_license_fee j s : adds [] (BillingEvents.build_license_fee j s).
Proof. pure_builder. Qed.
Lemma adds_workload_payload j : adds [] (Workload.build_workload_payload j).
Proof. pure_builder. Qed.

Lemma adds_enqueue_job_usage s t : adds [JOB_USAGE] (enqueue_job_usage s t).
Proof.
  apply (adds_bind [] [JOB_USAGE]); [apply adds_get_self|]. intros job.
  apply (adds_bind [] [JOB_USAGE]); [apply adds_completed|]. intros. apply adds_create_outbox.
Qed.

Lemma adds_enqueue_license_fee s : adds [LICENSE_FEE] (enqueue_license_fee s).
Proof.
  apply (adds_bind [] [LICENSE_FEE]); [apply adds_get_self|]. intros job.
  destruct (size_label job); [|eapply adds_weaken; [apply adds_ret | apply sublist_nil_l]].
  apply (adds_bind [] [LICENSE_FEE]); [apply adds_license_fee|]. intros. apply adds_create_outbox.
Qed.

Lemma adds_enqueue_workload : adds [WORKLOAD] enqueue_workload.
Proof.
  apply (adds_bind [] [WORKLOAD]); [apply adds_get_self|]. intros job.
  apply (adds_bind [] [WORKLOAD]); [by apply adds_gets|]. intros [].
  - apply (adds_bind [] [WORKLOAD]); [apply adds_workload_payload|]. intros p.
    apply (adds_bind [WORKLOAD] []); [apply adds_create_outbox|]. intros _ w. exists [].
    cbn. rewrite app_nil_r. split_and!; [done..|constructor].
  - eapply adds_weaken; [apply adds_ret | apply sublist_nil_l].
Qed.
End adds.

(** The status is not one of the extra fields a caller hands to a transition. *)
Definition no_status (fs : list JobField) : bool := forallb (fun f => negb (is_status_field f)) fs.

Lemma transition_row_status new fs w row :
  no_status fs = true -> status (transition_row new fs w row) = new.
Proof.
  intros Hfs. unfold transition_row, transition_fields, bump_version. cbn [set_fields foldl].
  change (foldl (λ j f, setattr f j) ?j fs) with (set_fields fs j).
  cbn [status setattr]. by rewrite set_fields_status_other.
Qed.

Section refinement.
Context (svc : JobTransitionService) `{!ServiceLaws svc}.

(** The database of [transitioned], seen by the abstract lifecycle. *)
Lemma transitioned_view new o c fs w row :
  no_status fs = true ->
  let d := db (transitioned new o c fs w row) in
  Abs.job_status d (id (self w)) = Some new
  /\ Abs.history d (id (self w)) = Abs.history (db w) (id (self w)) ++ [new]
  /\ (forall j, j <> id (self w) -> Abs.same_job (db w) d j)
  /\ Abs.facts d = Abs.facts (db w).
Proof.
  intros Hfs d. unfold Abs.same_job, Abs.job_status, Abs.history.
  assert (jobs d = <[id (self w) := transition_row new fs w row]> (jobs (db w))) as -> by done.
  assert (events d = events (db w) ++ [transition_event new o c w]) as -> by done.
  rewrite lookup_insert_eq, fmap_Some, !status_history_app, !status_history_one.
  split_and!; [|unfold of_job; by rewrite bool_decide_eq_true_2| |done].
  - eexists. split; [done|]. by rewrite transition_row_status.
  - intros j Hne. rewrite lookup_insert_ne, status_history_app, status_history_one by done.
    unfold of_job. cbn [event_job transition_event].
    by rewrite bool_decide_eq_false_2, app_nil_r.
Qed.

Lemma rel_atomic_transition {A} new o c fs (k : JobEvent -> Py A) chans :
  no_status fs = true -> (forall e, adds chans (k e)) -> NoDup chans ->
  (chans <> [] -> new ∈ TERMINAL_STATUSES) ->
  rel refines (atomic (e <- change_status new o c fs ;; k e)).
Proof.
  intros Hfs Hk Hnd Ht w. unfold atomic, bind.
  destruct (change_status new o c fs w) as [out w1] eqn:E.
  apply change_status_inv in E as [(row & Hrow & Hnew & -> & ->)|(e & -> & ->)];
    [|apply refines_same_db; done].
  destruct (Hk (transition_event new o c w) (transitioned new o c fs w row))
    as (rows & Hj & He & _ & Ho & Hc & Hf).
  destruct (transitioned_view new o c fs w row Hfs) as (Hs & Hh & Hsame & Hfacts).
  destruct (k _ _) as [[a|e] w2]; [|apply refines_same_db; done].
  cbn [snd] in *. eexists. apply Abs.exec_one.
  eapply (Abs.step_transition _ _ (id (self w)) (status row) new (map ob_channel rows)).
  - unfold Abs.job_status. by rewrite Hrow.
  - done.
  - unfold Abs.job_status in *. by rewrite Hj.
  - unfold Abs.history in *. by rewrite He.
  - intros j Hne. specialize (Hsame j Hne). unfold Abs.same_job, Abs.job_status, Abs.history in *.
    by rewrite Hj, He.
  - by eapply sublist_NoDup.
  - intros Hne. apply Ht. intros ->. by apply sublist_nil_r in Hc.
  - unfold Abs.facts in *. rewrite Ho, map_app, Hfacts. f_equal.
    rewrite map_map. apply map_ext_Forall. eapply Forall_impl; [exact Hf|].
    intros r Hr. unfold Abs.fact. by rewrite (Hr : ob_job r = _), transitioned_id.
Qed.

Lemma bind_ret_r {S A} (m : M S A) s : bind m ret s = m s.
Proof. unfold bind. by destruct (m s) as [[?|?] ?]. Qed.

Lemma rel_atomic_change_status new o c fs :
  no_status fs = true -> rel refines (atomic (change_status new o c fs)).
Proof.
  intros Hfs w. pose proof (rel_atomic_transition new o c fs ret [] Hfs) as H.
  specialize (H (fun e => adds_ret e) ltac:(constructor) ltac:(done) w).
  unfold atomic in *. by rewrite bind_ret_r in H.
Qed.
Hint Resolve rel_atomic_change_status : pyrel.

Lemma same_db_send_job_in_progress b t : rel same_db (send_job_in_progress svc b t).
Proof. unfold send_job_in_progress. rel_auto. Qed.

Lemma rel_refines_in_progress b t : rel refines (send_job_in_progress svc b t).
Proof. apply rel_refines_same_db, same_db_send_job_in_progress. Qed.

Lemma rel_refines_mirror : rel refines (workload_mirror svc).
Proof. apply rel_refines_same_db, mirror_same_db. Qed.
Hint Resolve rel_refines_in_progress rel_refines_mirror : pyrel.

Lemma queued_to_pending_refines o c fs :
  no_status fs = true -> rel refines (queued_to_pending svc o c fs).
Proof. intros. unfold queued_to_pending. rel_auto. Qed.

Lemma pending_to_running_refines o c fs :
  no_status fs = true -> rel refines (pending_to_running svc o c fs).
Proof. intros. unfold pending_to_running. rel_auto. Qed.

Lemma running_to_running_refines t : rel refines (running_to_running svc t).
Proof. apply rel_refines_in_progress. Qed.

(** What the terminal transitions enqueue. *)
Lemma adds_billing (fee : option Z -> Job -> bool) (e : JobEvent) :
  adds [JOB_USAGE; LICENSE_FEE; WORKLOAD]
    (job <- get_self ;;
     (if is_usage_billable job then
        job_started_at <- gets (fun w => first_running_at (id job) (db w)) ;;
        enqueue_job_usage job_started_at (event_created e) ;;;
        if fee job_started_at job then enqueue_license_fee job_started_at else ret tt
      else ret tt) ;;;
     enqueue_workload ;;;
     ret e).
Proof.
  apply (adds_bind []); [apply adds_get_self|]. intros job.
  apply (adds_bind [JOB_USAGE; LICENSE_FEE] [WORKLOAD]).
  - destruct (is_usage_billable job);
      [|eapply adds_weaken; [apply adds_ret | apply sublist_nil_l]].
    apply (adds_bind []); [by apply adds_gets|]. intros s.
    apply (adds_bind [JOB_USAGE] [LICENSE_FEE]); [apply adds_enqueue_job_usage|]. intros _.
    destruct (fee s job); [apply adds_enqueue_license_fee|].
    eapply adds_weaken; [apply adds_ret | apply sublist_nil_l].
  - intros _. apply (adds_bind [WORKLOAD] []); [apply adds_enqueue_workload|]. intros. apply adds_ret.
Qed.

Lemma channels_NoDup : NoDup [JOB_USAGE; LICENSE_FEE; WORKLOAD].
Proof. apply (bool_decide_unpack _). by vm_compute. Qed.

Lemma to_succeeded_refines o c fs : no_status fs = true -> rel refines (to_succeeded o c fs).
Proof.
  intros Hfs. eapply rel_atomic_transition; [done| |apply channels_NoDup|by intros; left].
  intros e. apply (adds_billing (fun _ job => is_fee_billable job)).
Qed.

Lemma to_stopped_or_failed_refines s o c fs :
  s ∈ TERMINAL_STATUSES -> no_status fs = true -> rel refines (to_stopped_or_failed s o c fs).
Proof.
  intros Hs Hfs. eapply rel_atomic_transition; [done| |apply channels_NoDup|done].
  intros e. apply (adds_billing (fun t job => bool_decide (is_Some t) && is_fee_billable job)).
Qed.

Lemma to_terminal_refines s o c fs : no_status fs = true -> rel refines (to_terminal s o c fs).
Proof.
  intros Hfs. destruct s; cbn;
    first [ by apply to_succeeded_refines
          | apply to_stopped_or_failed_refines; [set_solver | done]
          | apply rel_refines_same_db; rel_auto ].
Qed.

Lemma stop_refines' r o c : RunnerLaws r -> rel refines (stop svc r o c).
Proof.
  intros Hr. unfold stop. pose proof stop_refines.
  rel_step; [apply rel_refines_same_db; rel_auto|].
  destruct (negb _); [rel_auto|]. rel_step; [destruct (truthy _); [done | rel_auto]|].
  destruct a0; [rel_auto|]. rel_step; [|rel_auto].
  intros w. unfold atomic, bind at 1, get.
  destruct (jobs (db w) !! id (self w)) as [row|] eqn:Hrow; [|by apply refines_same_db].
  destruct (bool_decide _) eqn:Hf; [|by apply refines_same_db].
  refine (rel_atomic_transition STOPPED o c [] (fun _ => enqueue_workload) [WORKLOAD] _ _ _ _ w);
    [done|intros; apply adds_enqueue_workload|apply NoDup_singleton|set_solver].
Qed.
End refinement.
