(* ===== verification/Samples.v ===== *)
(** * Concrete inputs

    Small databases and jobs the witnesses evaluate the theorems on. *)

From S2P Require Import Prelude PyStr Models World JobTransitions TransitionSpec.

Local Open Scope string_scope.
Local Open Scope list_scope.

Definition sample_author : User := mk_user 1 "alice".
Definition sample_project : CodeEngineProject :=
  mk_project 1 "ce-project" "us-east" (Some "bucket") true (Some "provider-bucket") "ce-uuid" "pool" "state" "users-pds" "providers-pds" (Some "tasks") (Some "cos") (Some "key").
Definition sample_provider : Provider := mk_provider 7 "acme" (Some sample_project).
Definition sample_profile : ComputeProfile := mk_profile "cx3d-4x16" "4" None "16".
Definition sample_size : FunctionSize := mk_function_size 3 5 "M" sample_profile.
Definition sample_program : Program :=
  mk_program 5 "sampler" (Some sample_provider) sample_author FLEETS false None false
    (Some sample_size) (Some sample_project) "{}" (Some "{}") "GENERIC" None None "main.py" None (Some "image") "[]".

Definition sample_crn : string :=
  "crn:v1:bluemix:public:quantum-computing:us-east:a/account:instance::".

(** A Fleets job of a provider function, billed to [sample_crn]. *)
Definition sample_job (job_id : JobId) (s : JobStatus) (fleet : option string) : Job :=
  {| id := job_id; created := 0; updated := None; env_vars := "{}"; gpu := false;
     filler := false; runner := FLEETS; ray_job_id := None; fleet_id := fleet;
     fleet_deleted_at := None; status := s; sub_status := None; trial := false;
     business_model := "LICENSED"; version := 0; author := sample_author;
     compute_resource := None; program := Some sample_program;
     compute_profile_fk := Some "cx3d-4x16"; size_source := SIZE_SOURCE_REQUESTED;
     function_size := Some sample_size; function_size_name := Some "M";
     account_id := Some "account"; instance_crn := Some sample_crn; plan_id := Some "plan";
     subscription_id := Some "subscription"; ce_project_name := Some "ce-project";
     ce_region := Some "us-east" |}.

Definition status_event (job_id : JobId) (at_ : Z) (s : JobStatus) : JobEvent :=
  mk_event job_id STATUS_CHANGE SCHEDULER UPDATE_JOB_STATUS at_ (StatusData s).

Definition empty_db : DB := mk_db ∅ [] [] 0 ∅ [] ∅.

(** One second per reading of the clocks. *)
Definition sample_clock (n : nat) : Z := 1000000 * Z.of_nat n.

Definition world_of (d : DB) (j : Job) : World :=
  mk_world d j sample_clock sample_clock (fun _ => false) 0 ∅ [] [] init_sched.

(** A running job, mirrored to the Runtime API. *)
Definition running_job : Job := sample_job "job-1" RUNNING (Some "fleet-1").
Definition running_db : DB :=
  mk_db {[ "job-1" := running_job ]}
    [status_event "job-1" 0 QUEUED; status_event "job-1" 0 PENDING; status_event "job-1" 0 RUNNING]
    [] 0 {[ "job-1" ]} [] ∅.
Definition running_world : World := world_of running_db running_job.

(** Objects the service is given in the witnesses: nothing is sent, and the cancel of a
    fleet is answered [answer]. *)
Definition noop_service : JobTransitionService := mk_service (fun _ => ret tt) (ret tt).
Definition constant_runner (answer : bool) : AbstractRunner :=
  mk_runner (ret None) (ret None) (ret answer) (ret answer).

#[export] Instance noop_service_laws : ServiceLaws noop_service.
Proof. split; intros; apply rel_ret; exact _. Qed.
#[export] Instance constant_runner_laws b : RunnerLaws (constant_runner b).
Proof. split; apply rel_ret; exact _. Qed.

(** The same job of another function, or of none, on another runner. *)
Definition with_function (r : Runner) (p : option Program) (j : Job) : Job :=
  {| id := id j; created := created j; updated := updated j; env_vars := env_vars j;
     gpu := gpu j; filler := filler j; runner := r; ray_job_id := ray_job_id j;
     fleet_id := fleet_id j; fleet_deleted_at := fleet_deleted_at j; status := status j;
     sub_status := sub_status j; trial := trial j; business_model := business_model j;
     version := version j; author := author j; compute_resource := compute_resource j;
     program := p; compute_profile_fk := compute_profile_fk j; size_source := size_source j;
     function_size := function_size j; function_size_name := function_size_name j;
     account_id := account_id j; instance_crn := instance_crn j; plan_id := plan_id j;
     subscription_id := subscription_id j; ce_project_name := ce_project_name j;
     ce_region := ce_region j |}.
(** ... once its function was deleted ([on_delete=SET_NULL]). *)
Definition without_program (j : Job) : Job := with_function (runner j) None j.
