(* ===== verification/TransitionProps.v ===== *)
(** * The correctness of the job transitions

    Sessions: any sequence of calls to the service, each on any [Job] instance (stale ones
    included) and each handling its own exception. The lifecycle theorems hold of every
    session; the functional ones say what one call writes. *)

From S2P Require Import Prelude PyStr Domain Models World JobEvents BillingEvents JobTransitions TransitionSpec Samples.

Local Open Scope string_scope.
Local Open Scope list_scope.

(** ** Sessions *)

Inductive Call :=
  | CallQueuedToPending (o : JobEventOrigin) (c : JobEventContext) (fs : list JobField)
  | CallPendingToRunning (o : JobEventOrigin) (c : JobEventContext) (fs : list JobField)
  | CallRunningToRunning (started_at : option Z)
  | CallStop (r : AbstractRunner) (o : JobEventOrigin) (c : JobEventContext)
  | CallToTerminal (s : JobStatus) (o : JobEventOrigin) (c : JobEventContext) (fs : list JobField).

Definition discard {S A} (m : M S A) : M S unit := m ;;; ret tt.

Definition perform (svc : JobTransitionService) (call : Call) : Py unit :=
  match call with
  | CallQueuedToPending o c fs => discard (queued_to_pending svc o c fs)
  | CallPendingToRunning o c fs => discard (pending_to_running svc o c fs)
  | CallRunningToRunning t => running_to_running svc t
  | CallStop r o c => discard (stop svc r o c)
  | CallToTerminal s o c fs => discard (to_terminal s o c fs)
  end.

(** Each call is on a [Job] instance of its own and its caller survives what it raises. *)
Definition session (svc : JobTransitionService) (calls : list (Job * Call)) : Py unit :=
  for_each calls (fun '(job, call) =>
    try_except (on_job job (perform svc call)) (fun _ => Some (ret tt)) ;;;
    ret true).

Definition call_ok (call : Call) : Prop :=
  match call with
  | CallQueuedToPending _ _ fs | CallPendingToRunning _ _ fs | CallToTerminal _ _ _ fs =>
      no_status fs = true
  | CallRunningToRunning _ => True
  | CallStop r _ _ => RunnerLaws r
  end.

Section sessions.
Context (svc : JobTransitionService) `{!ServiceLaws svc}.

Lemma rel_discard {A} R `{!PreOrder R} (m : Py A) : rel R m -> rel R (discard m).
Proof. intros. unfold discard. rel_auto. Qed.

Lemma perform_refines call : call_ok call -> rel refines (perform svc call).
Proof.
  destruct call; cbn; intros Hok.
  - apply (rel_discard refines). by apply queued_to_pending_refines.
  - apply (rel_discard refines). by apply pending_to_running_refines.
  - by apply (running_to_running_refines svc).
  - apply (rel_discard refines). by apply stop_refines'.
  - apply (rel_discard refines). by apply (to_terminal_refines svc).
Qed.

Lemma on_job_refines {A} j (m : Py A) : rel refines m -> rel refines (on_job j m).
Proof. intros Hm w. specialize (Hm (set_self j w)). unfold on_job. by destruct (m _). Qed.

Lemma session_refines_lifecycle calls :
  Forall (fun jc => call_ok jc.2) calls -> rel refines (session svc calls).
Proof.
  induction 1 as [|[j call] calls Hc _ IH]; [apply rel_ret; exact _|].
  cbn. apply rel_bind; [exact _| |intros []; [done | apply rel_ret; exact _]].
  apply rel_bind; [exact _| |intros ?; apply rel_ret; exact _].
  apply rel_try_except; [exact _|by apply on_job_refines, perform_refines|].
  intros e k [= <-]. apply rel_ret; exact _.
Qed.
End sessions.

(** ** What a terminal transition writes *)

(** The messages the end of [job] owes: its usage and license fee when it is billable, its
    final status when it is mirrored. A job that failed or was stopped owes the fee only if
    it ran, and a job without a size never does. *)
Definition owed (s : JobStatus) (job : Job) (started_at : option Z) (mirrored : bool)
    : list OutboxChannel :=
  (if is_usage_billable job then
     JOB_USAGE ::
     (if is_fee_billable job && (bool_decide (s = SUCCEEDED) || bool_decide (is_Some started_at))
         && bool_decide (is_Some (size_label job))
      then [LICENSE_FEE] else [])
   else [])
  ++ (if mirrored then [WORKLOAD] else []).

(** The messages can be built: the business model of a job that owes a fee has a billing
    name, and a mirrored job has an instance CRN and a program. *)
Definition buildable (job : Job) (mirrored : bool) : Prop :=
  (is_fee_billable job = true ->
     is_Some (BusinessModel.dict_get (business_model job) BusinessModel.BILLING_NAMES))
  /\ (mirrored = true -> truthy (instance_crn job) = true /\ is_Some (program job)).

(** What each message says of the job that ended, [started] being when it first ran and
    [finished] when it ended. *)
Definition row_payload (started : option Z) (finished : Z) (job : Job) (r : Outbox) : Prop :=
  match ob_channel r with
  | JOB_USAGE => exists t,
      ob_payload r = BillingPayload t (id job)
        (mk_billing (BillingEvents.classical_metric_type job)
           (BillingEvents.usage_seconds started finished) (instance_crn job) (id job)
           false started true None)
  | LICENSE_FEE => exists t p prov size name,
      program job = Some p /\ program_provider p = Some prov /\ size_label job = Some size
      /\ BusinessModel.dict_get (business_model job) BusinessModel.BILLING_NAMES = Some name
      /\ ob_payload r = BillingPayload t (id job)
           (mk_billing (join "_" ["license"; provider_name prov; title p; lower size])
              1 (instance_crn job) (id job) true started true (Some name))
  | WORKLOAD => exists body,
      ob_payload r = WorkloadPayload (id job) body
      /\ w_status body = Workload.WORKLOAD_STATUS_MAPPING (status job)
      /\ w_crn body = instance_crn job /\ w_created_at body = created job
  end.

Definition fresh_row (started : option Z) (finished : Z) (job : Job) (r : Outbox) : Prop :=
  ob_job r = id job /\ ob_region r = region job /\ ob_attempts r = 0%nat
  /\ ob_unrecoverable r = false /\ ob_next_attempt_at r = ob_created r
  /\ row_payload started finished job r.

Section enq.
Context (started : option Z) (finished : Z).

Definition pushed (w w' : World) (rows : list Outbox) : Prop :=
  jobs (db w') = jobs (db w) /\ events (db w') = events (db w) /\ self w' = self w
  /\ outbox (db w') = outbox (db w) ++ rows /\ Forall (fresh_row started finished (self w)) rows.

(** [enq cond chans m w]: run at [w], [m] appends rows on the channels [chans]; it raises
    only when [cond] fails. *)
Definition enq {A} (cond : Prop) (chans : list OutboxChannel) (m : Py A) (w : World) : Prop :=
  match m w with
  | (Ok _, w') => exists rows, pushed w w' rows /\ map ob_channel rows = chans
  | (Raise _, _) => ~ cond
  end.

Ltac one_row :=
  eexists [_]; split;
  [ split_and!; [reflexivity..|apply Forall_singleton; split_and!; [reflexivity..|]] | reflexivity ].

Lemma pushed_refl w : pushed w w [].
Proof. split_and!; by rewrite ?app_nil_r. Qed.

Lemma enq_ret {A} cond (a : A) w : enq cond [] (ret a) w.
Proof. exists []. split; [apply pushed_refl | done]. Qed.

Lemma enq_bind {A B} cond c1 c2 (m : Py A) (k : A -> Py B) w :
  enq cond c1 m w ->
  (forall a w', m w = (Ok a, w') -> self w' = self w -> events (db w') = events (db w) ->
     enq cond c2 (k a) w') ->
  enq cond (c1 ++ c2) (bind m k) w.
Proof.
  unfold enq, bind. destruct (m w) as [[a|e] w1] eqn:E; [|done].
  intros (r1 & (Hj & He & Hs & Ho & Hf) & Hc) Hk. specialize (Hk a w1 eq_refl Hs He).
  destruct (k a w1) as [[b|e] w2]; [|done].
  destruct Hk as (r2 & (Hj2 & He2 & Hs2 & Ho2 & Hf2) & Hc2). exists (r1 ++ r2).
  rewrite Hs in Hf2. split.
  - split_and!; try congruence; [by rewrite Ho2, Ho, app_assoc | by apply Forall_app].
  - by rewrite map_app, Hc, Hc2.
Qed.

Lemma enq_gets {A B} cond chans (f : World -> A) (k : A -> Py B) w :
  enq cond chans (k (f w)) w -> enq cond chans (bind (gets f) k) w.
Proof. done. Qed.

Lemma enq_job_usage cond w : enq cond [JOB_USAGE] (enqueue_job_usage started finished) w.
Proof. one_row. by eexists. Qed.

Lemma fee_billable_parts job :
  is_fee_billable job = true ->
  is_usage_billable job = true
  /\ exists p prov, program job = Some p /\ program_provider p = Some prov.
Proof.
  unfold is_fee_billable, is_usage_billable. rewrite !andb_true_iff. intros [? H].
  split; [done|]. destruct (program job) as [p|]; [|done]. destruct (program_provider p) eqn:E; [|done].
  eauto.
Qed.

Lemma enq_license_fee (mirrored : bool) w :
  is_fee_billable (self w) = true ->
  enq (buildable (self w) mirrored)
    (if bool_decide (is_Some (size_label (self w))) then [LICENSE_FEE] else [])
    (enqueue_license_fee started) w.
Proof.
  intros Hfee. destruct (fee_billable_parts _ Hfee) as (_ & p & prov & Hp & Hprov).
  unfold enqueue_license_fee. apply enq_gets.
  destruct (size_label (self w)) as [size|] eqn:Hsize; [|apply enq_ret].
  rewrite bool_decide_eq_true_2 by eauto. unfold BillingEvents.build_license_fee.
  unfold enq, bind, attr, BusinessModel.billing_name_for.
  destruct (BusinessModel.dict_get (business_model (self w)) BusinessModel.BILLING_NAMES)
    as [name|] eqn:Hn; rewrite Hp; cbn -[BusinessModel.dict_get BusinessModel.BILLING_NAMES];
    rewrite Hprov; cbn -[BusinessModel.dict_get BusinessModel.BILLING_NAMES]; rewrite Hsize;
    cbn -[BusinessModel.dict_get BusinessModel.BILLING_NAMES].
  - one_row. by do 5 eexists.
  - intros [Hb _]. destruct (Hb Hfee) as [? ?]. congruence.
Qed.

Lemma enqueue_workload_run w :
  enqueue_workload w =
    (if bool_decide (id (self w) ∈ mirrors (db w)) then
       (payload <- Workload.build_workload_payload (self w) ;;
        create_outbox WORKLOAD (region (self w)) payload ;;;
        modify_db (fun d => set_mirrors (mirrors d ∖ {[id (self w)]}) d)) w
     else (Ok tt, w)).
Proof. unfold enqueue_workload. cbn. by destruct (bool_decide _). Qed.

Lemma enq_workload w :
  let mirrored := bool_decide (id (self w) ∈ mirrors (db w)) in
  enq (buildable (self w) mirrored) (if mirrored then [WORKLOAD] else []) enqueue_workload w
  /\ forall w', enqueue_workload w = (Ok tt, w') ->
       mirrors (db w') = mirrors (db w) ∖ {[id (self w)]}.
Proof.
  intros mirrored. unfold enq. rewrite enqueue_workload_run. fold mirrored.
  unfold buildable, Workload.build_workload_payload.
  destruct mirrored eqn:Hm; subst mirrored.
  - destruct (truthy (instance_crn (self w))) eqn:Ht, (program (self w)) as [p|] eqn:Hp;
      cbn; (split; [|by intros w' [= <-]]); try (one_row; by eexists);
      (intros [_ Hb]; destruct (Hb eq_refl) as [? [? ?]]; congruence).
  - split; [exists []; split; [apply pushed_refl | done]|]. intros w' [= <-].
    apply bool_decide_eq_false in Hm. set_solver.
Qed.

Definition same_mirrors (w w' : World) : Prop := mirrors (db w') = mirrors (db w).
#[local] Instance same_mirrors_preorder : PreOrder same_mirrors.
Proof. split; unfold same_mirrors; [done | congruence]. Qed.

Lemma same_mirrors_same_db {A} (m : Py A) : rel same_db m -> rel same_mirrors m.
Proof. apply rel_mono. unfold same_db, same_mirrors. by intros ?? ->. Qed.
Lemma same_mirrors_create_outbox ch r p : rel same_mirrors (create_outbox ch r p).
Proof. done. Qed.
Hint Resolve same_mirrors_create_outbox : pyrel.

Lemma same_mirrors_job_usage t t' : rel same_mirrors (enqueue_job_usage t t').
Proof. done. Qed.
Lemma same_mirrors_license_fee t : rel same_mirrors (enqueue_license_fee t).
Proof.
  unfold enqueue_license_fee. pose proof same_db_license_fee. rel_auto.
  all: apply same_mirrors_same_db; auto with pyrel.
Qed.
Hint Resolve same_mirrors_job_usage same_mirrors_license_fee : pyrel.

(** The part of a terminal transition that follows the status change. *)
Definition settle (fee : option Z -> Job -> bool) (event : JobEvent) : Py JobEvent :=
  job <- get_self ;;
  (if is_usage_billable job then
     job_started_at <- gets (fun w => first_running_at (id job) (db w)) ;;
     enqueue_job_usage job_started_at (event_created event) ;;;
     if fee job_started_at job then enqueue_license_fee job_started_at else ret tt
   else ret tt) ;;;
  enqueue_workload ;;;
  ret event.

Lemma enq_settle s fee event w :
  (forall t job, fee t job =
     is_fee_billable job && (bool_decide (s = SUCCEEDED) || bool_decide (is_Some t))) ->
  started = first_running_at (id (self w)) (db w) -> finished = event_created event ->
  let mirrored := bool_decide (id (self w) ∈ mirrors (db w)) in
  enq (buildable (self w) mirrored) (owed s (self w) started mirrored) (settle fee event) w.
Proof.
  intros Hfee Hs Hf mirrored. unfold settle, owed. apply enq_gets.
  apply enq_bind with (c2 := if mirrored then [WORKLOAD] else []).
  - destruct (is_usage_billable (self w)) eqn:Hu; [|apply enq_ret].
    apply enq_gets. rewrite <- Hs, <- Hf.
    apply (enq_bind _ [JOB_USAGE]); [apply enq_job_usage|]. intros _ w1 _ Hself _.
    rewrite Hfee. destruct (is_fee_billable (self w)) eqn:Hfb; [|apply enq_ret].
    destruct (_ || _); [|apply enq_ret]. rewrite <- Hself in Hfb |- *.
    by apply enq_license_fee.
  - intros [] w1 Hrun Hself _.
    assert (mirrors (db w1) = mirrors (db w)) as Hm.
    { match type of Hrun with ?m w = _ =>
        assert (rel same_mirrors m) as H; [rel_auto | specialize (H w); by rewrite Hrun in H] end. }
    rewrite <- (app_nil_r (if mirrored then _ else _)).
    apply enq_bind; [|intros; apply enq_ret].
    pose proof (proj1 (enq_workload w1)) as H. cbn in H. by rewrite Hm, Hself in H.
Qed.
End enq.

(** The instance in hand after the change is the one before with some fields assigned. *)
Lemma transitioned_self new o c fs w row : exists fs', self (transitioned new o c fs w row) = set_fields fs' (self w).
Proof.
  exists (transition_fields new fs w ++ [F_version (version (transition_row new fs w row))]).
  unfold set_fields. by rewrite foldl_app.
Qed.

Lemma set_fields_billable fs j :
  is_usage_billable (set_fields fs j) = is_usage_billable j
  /\ is_fee_billable (set_fields fs j) = is_fee_billable j.
Proof. unfold is_usage_billable, is_fee_billable. by autorewrite with models. Qed.

Lemma set_fields_owed s fs j t m : owed s (set_fields fs j) t m = owed s j t m.
Proof. unfold owed. destruct (set_fields_billable fs j) as [-> ->]. by autorewrite with models. Qed.

Lemma set_fields_buildable fs j m : buildable (set_fields fs j) m <-> buildable j m.
Proof. unfold buildable. destruct (set_fields_billable fs j) as [_ ->]. by autorewrite with models. Qed.

Lemma first_running_at_terminal j e d :
  status_of_event e <> Some RUNNING ->
  first_running_at j (set_events (events d ++ [e]) d) = first_running_at j d.
Proof.
  intros He. unfold first_running_at, running_status_events. simpl.
  rewrite !filter_app. f_equal. f_equal. f_equal.
  rewrite (filter_cons _ e []), filter_nil. destruct (decide _); [|by rewrite filter_nil, app_nil_r].
  rewrite filter_cons, filter_nil. rewrite decide_False; [by rewrite app_nil_r|].
  unfold is_status_change, data_status_in, status_of_event in *.
  destruct (event_type e), (event_data e) as [[]| |]; cbn; auto.
Qed.

Definition transition_outcome (s : JobStatus) (o : JobEventOrigin) (c : JobEventContext)
    (fs : list JobField) (w : World) (e : JobEvent) (w' : World) : Prop :=
  exists row rows,
    jobs (db w) !! id (self w) = Some row
    /\ s ∈ VALID_TRANSITIONS (status row)
    /\ e = transition_event s o c w
    /\ jobs (db w') = <[id (self w) := transition_row s fs w row]> (jobs (db w))
    /\ events (db w') = events (db w) ++ [e]
    /\ outbox (db w') = outbox (db w) ++ rows
    /\ map ob_channel rows =
         owed s (self w) (first_running_at (id (self w)) (db w))
           (bool_decide (id (self w) ∈ mirrors (db w)))
    /\ Forall (fresh_row (first_running_at (id (self w)) (db w)) (event_created e) (self w')) rows.

Lemma settle_result fee event w e w' : settle fee event w = (Ok e, w') -> e = event.
Proof. unfold settle. intros H. inv_run H. done. Qed.

Lemma settle_outcome s o c fs fee w :
  s ∈ TERMINAL_STATUSES ->
  (forall t job, fee t job =
     is_fee_billable job && (bool_decide (s = SUCCEEDED) || bool_decide (is_Some t))) ->
  match atomic (event <- change_status s o c fs ;; settle fee event) w with
  | (Ok e, w') => transition_outcome s o c fs w e w'
  | (Raise _, w') =>
      db w' = db w
      /\ ~ (exists row, jobs (db w) !! id (self w) = Some row
              /\ s ∈ VALID_TRANSITIONS (status row)
              /\ buildable (self w) (bool_decide (id (self w) ∈ mirrors (db w))))
  end.
Proof.
  intros Hs Hfee. unfold atomic, bind.
  destruct (jobs (db w) !! id (self w)) as [row|] eqn:Hrow.
  2:{ rewrite change_status_missing by done. split; [done|]. naive_solver. }
  destruct (decide (s ∈ VALID_TRANSITIONS (status row))) as [Hv|Hv].
  2:{ rewrite (change_status_invalid _ _ _ _ _ _ Hrow Hv). split; [done|]. naive_solver. }
  rewrite (change_status_ok _ _ _ _ _ _ Hrow Hv).
  set (w1 := transitioned s o c fs w row). set (event := transition_event s o c w).
  pose proof (enq_settle (first_running_at (id (self w1)) (db w1)) (event_created event)
                s fee event w1 Hfee eq_refl eq_refl) as H.
  destruct (transitioned_self s o c fs w row) as [fs' Hself].
  cbv zeta in H. unfold enq in H. fold w1 in Hself.
  assert (id (self w1) = id (self w)) as Hid by apply transitioned_id.
  assert (first_running_at (id (self w1)) (db w1) = first_running_at (id (self w)) (db w)) as Hrun.
  { rewrite Hid. apply (first_running_at_terminal (id (self w)) event (db w)). cbn. set_solver. }
  rewrite Hrun, Hid, Hself, set_fields_owed in H.
  change (mirrors (db w1)) with (mirrors (db w)) in H.
  destruct (settle fee event w1) as [[e|ex] w2] eqn:E.
  - destruct H as (rows & (Hj & He & Hsf & Ho & Hf) & Hc).
    apply settle_result in E as Heq. subst e.
    exists row, rows. rewrite Hsf, Hj, He, Ho. split_and!; done.
  - split; [done|]. intros (? & _ & _ & Hb). by apply H, set_fields_buildable.
Qed.

Lemma settle_forms (s : JobStatus) o c fs w :
  s ∈ TERMINAL_STATUSES ->
  exists fee,
    (forall t job, fee t job =
       is_fee_billable job && (bool_decide (s = SUCCEEDED) || bool_decide (is_Some t)))
    /\ to_terminal s o c fs w = atomic (event <- change_status s o c fs ;; settle fee event) w.
Proof.
  intros Hs.
  destruct (terminal_cases s Hs) as [->|[-> | ->]];
    [exists (fun _ job => is_fee_billable job)
    |exists (fun t job => bool_decide (is_Some t) && is_fee_billable job)..];
    (split; [|reflexivity]); intros t job.
  - rewrite bool_decide_eq_true_2 by done. by destruct (is_fee_billable job).
  - rewrite (bool_decide_eq_false_2 (FAILED = SUCCEEDED)) by done. apply andb_comm.
  - rewrite (bool_decide_eq_false_2 (STOPPED = SUCCEEDED)) by done. apply andb_comm.
Qed.

(** ** The properties *)

Section properties.
Context (svc : JobTransitionService) `{!ServiceLaws svc}.

(** C1: whatever calls are made on the service, on whatever [Job] instances (stale ones
    included), and however each one ends, what happens to the database is an execution of
    the abstract lifecycle, and no message about a job is written twice on a channel. *)
Theorem session_refines calls w :
  Forall (fun jc => call_ok jc.2) calls ->
  exists T, Abs.exec T (db w) (db (snd (session svc calls w))) /\ NoDup T.
Proof.
  intros Hok. destruct (session_refines_lifecycle svc calls Hok w) as [T HT].
  exists T. split; [done | by eapply Abs.exec_NoDup].
Qed.

(** C2: the event log stays the history of the row: every job's status events start at
    QUEUED, each is a valid transition from the one before and the last is the row's status;
    and the outbox announces nothing twice and nothing about a job that has not ended. *)
Theorem session_invariant calls w :
  Forall (fun jc => call_ok jc.2) calls ->
  Abs.log_ok (db w) -> Abs.outbox_ok (db w) ->
  let w' := snd (session svc calls w) in
  Abs.log_ok (db w') /\ Abs.outbox_ok (db w').
Proof.
  intros Hok Hlog Hout. destruct (session_refines_lifecycle svc calls Hok w) as [T HT].
  split; [by eapply Abs.exec_log_ok | by eapply Abs.exec_outbox_ok].
Qed.

(** C3: a terminal job stays as it is: no later call changes its status, adds to its status
    history or writes another outbox row about it. *)
Theorem terminal_is_final calls w j :
  Forall (fun jc => call_ok jc.2) calls ->
  Abs.terminal (db w) j ->
  let w' := snd (session svc calls w) in
  Abs.job_status (db w') j = Abs.job_status (db w) j
  /\ Abs.history (db w') j = Abs.history (db w) j
  /\ forall ch, (j, ch) ∈ Abs.facts (db w') -> (j, ch) ∈ Abs.facts (db w).
Proof.
  intros Hok Ht. destruct (session_refines_lifecycle svc calls Hok w) as [T HT].
  destruct (Abs.exec_terminal _ _ _ _ HT Ht) as [[Hs Hh] Hn]. split_and!; [done..|].
  intros ch Hin. destruct (Abs.exec_facts _ _ _ _ HT Hin) as [H|H]; [done|]. by destruct (Hn ch).
Qed.
End properties.

(** [_change_status] succeeds exactly when the row exists and the status read from it
    (not the one of the instance in hand) allows the new one; then it logs one event and
    writes the row and the instance; otherwise it writes nothing. *)
Theorem change_status_spec new o c fs w :
  match jobs (db w) !! id (self w) with
  | None => change_status new o c fs w = (Raise DoesNotExist_error, w)
  | Some row =>
      if bool_decide (new ∈ VALID_TRANSITIONS (status row)) then
        change_status new o c fs w = (Ok (transition_event new o c w), transitioned new o c fs w row)
      else change_status new o c fs w = (Raise (invalid_transition (id (self w))), w)
  end.
Proof.
  destruct (jobs (db w) !! id (self w)) as [row|] eqn:Hrow; [|by apply change_status_missing].
  case_bool_decide; [by apply change_status_ok | by eapply change_status_invalid].
Qed.

(** C4: ending a job ([to_succeeded], [to_failed], [to_stopped]) writes, in one transaction,
    the status, its event and exactly the messages the job owes, in order, with the usage
    from its first RUNNING event to its end; or it writes nothing, and that happens only
    when the row does not allow the status or a message cannot be built. *)
Theorem to_terminal_spec s o c fs w :
  s ∈ TERMINAL_STATUSES ->
  match to_terminal s o c fs w with
  | (Ok e, w') => transition_outcome s o c fs w e w'
  | (Raise _, w') =>
      db w' = db w
      /\ ~ (exists row, jobs (db w) !! id (self w) = Some row
              /\ s ∈ VALID_TRANSITIONS (status row)
              /\ buildable (self w) (bool_decide (id (self w) ∈ mirrors (db w))))
  end.
Proof.
  intros Hs. destruct (settle_forms s o c fs w Hs) as (fee & Hfee & ->).
  by apply settle_outcome.
Qed.

(** ** [stop] *)

Lemma bind_apply {S A B} (m : M S A) (k : A -> M S B) s :
  bind m k s = match m s with (Ok a, s') => k a s' | (Raise e, s') => (Raise e, s') end.
Proof. reflexivity. Qed.

(** The part of [stop] that runs once nothing has to be cancelled. *)
Definition end_without_cancel (o : JobEventOrigin) (c : JobEventContext) : Py unit :=
  w <- get ;;
  match jobs (db w) !! id (self w) with
  | None => raise DoesNotExist_error
  | Some row =>
      if bool_decide (fleet_id row = fleet_id (self w)) then
        change_status STOPPED o c [] ;;;
        enqueue_workload
      else
        modify_self (setattr (F_fleet_id (fleet_id row))) ;;;
        raise (fleet_appeared (self w))
  end.

(** What the cancel of a fleet answered: [false] without asking when the job has none. *)
Definition cancel_answer (r : AbstractRunner) : Py bool :=
  job <- get_self ;; if truthy (fleet_id job) then runner_stop r else ret false.

Lemma end_without_cancel_ok o c w w' :
  atomic (end_without_cancel o c) w = (Ok tt, w') ->
  exists row rows,
    jobs (db w) !! id (self w) = Some row /\ fleet_id row = fleet_id (self w)
    /\ STOPPED ∈ VALID_TRANSITIONS (status row)
    /\ Abs.job_status (db w') (id (self w)) = Some STOPPED
    /\ outbox (db w') = outbox (db w) ++ rows
    /\ map ob_channel rows =
         (if bool_decide (id (self w) ∈ mirrors (db w)) then [WORKLOAD] else []).
Proof.
  rewrite atomic_ok. unfold end_without_cancel. rewrite bind_apply. cbn [get].
  destruct (jobs (db w) !! id (self w)) as [row|] eqn:Hrow; [|done].
  case_bool_decide as Hf; [|done]. rewrite bind_apply.
  destruct (change_status STOPPED o c [] w) as [out w1] eqn:E.
  apply change_status_inv in E as [(row' & Hrow' & Hv & -> & ->)|(e & -> & ->)]; [|done].
  rewrite Hrow in Hrow'. injection Hrow' as <-. intros Hw.
  set (w1 := transitioned STOPPED o c [] w row) in *.
  pose proof (proj1 (enq_workload None 0 w1)) as H. unfold enq in H. cbv zeta in H.
  rewrite Hw in H. destruct H as (rows & (Hj & _ & _ & Ho & _) & Hc).
  exists row, rows.
  destruct (transitioned_view STOPPED o c [] w row eq_refl) as (Hs & _).
  split_and!; try done. unfold Abs.job_status in *. by rewrite Hj.
Qed.

(** Every way [stop] can return. *)
Lemma stop_inv svc r o c w s w' :
  stop svc r o c w = (Ok s, w') ->
  ServiceLaws svc ->
  exists answer w1 row rows,
    runner (self w) = FLEETS
    /\ cancel_answer r w = (Ok answer, w1)
    /\ s = (if answer then STOPPING else STOPPED)
    /\ jobs (db w1) !! id (self w1) = Some row
    /\ s ∈ VALID_TRANSITIONS (status row)
    /\ (answer = false -> fleet_id row = fleet_id (self w1))
    /\ Abs.job_status (db w') (id (self w1)) = Some s
    /\ outbox (db w') = outbox (db w1) ++ rows
    /\ map ob_channel rows =
         (if negb answer && bool_decide (id (self w1) ∈ mirrors (db w1)) then [WORKLOAD] else []).
Proof.
  intros H Hsvc. unfold stop in H. inv_run H. injection Hrun as <- <-.
  destruct (negb (bool_decide (runner (self w) = FLEETS))) eqn:Hr; [done|].
  apply negb_false_iff, bool_decide_eq_true in Hr.
  apply bind_ok_inv in H as (answer & w1 & Hcancel & H).
  destruct answer; inv_run H.
  - apply atomic_ok, change_status_inv in Hrun as [(row & Hrow & Hv & _ & ->)|(e & ? & _)]; [|done].
    destruct (transitioned_view STOPPING o c [] w1 row eq_refl) as (Hs & _).
    assert (db w' = db (transitioned STOPPING o c [] w1 row)) as Hdb.
    { pose proof (mirror_same_db (transitioned STOPPING o c [] w1 row)) as Hm.
      by rewrite Hrun0 in Hm. }
    exists true, w1, row, []. rewrite Hdb, app_nil_r. split_and!; done.
  - destruct a. apply end_without_cancel_ok in Hrun as (row & rows & ? & ? & ? & ? & ? & ?).
    exists false, w1, row, rows. split_and!; try done.
Qed.

(** [stop] answers STOPPING only when the cancel of the job's fleet was accepted, and
    STOPPED only when there is no fleet to cancel and the row still has the fleet the
    decision was taken on; the status is written, and of all messages only the final
    workload status is enqueued. *)
Theorem stop_returns svc r o c w s w' :
  stop svc r o c w = (Ok s, w') ->
  ServiceLaws svc ->
  exists answer w1 row rows,
    runner (self w) = FLEETS
    /\ cancel_answer r w = (Ok answer, w1)
    /\ s = (if answer then STOPPING else STOPPED)
    /\ jobs (db w1) !! id (self w1) = Some row
    /\ s ∈ VALID_TRANSITIONS (status row)
    /\ (answer = false -> fleet_id row = fleet_id (self w1))
    /\ Abs.job_status (db w') (id (self w1)) = Some s
    /\ outbox (db w') = outbox (db w1) ++ rows
    /\ map ob_channel rows =
         (if negb answer && bool_decide (id (self w1) ∈ mirrors (db w1)) then [WORKLOAD] else []).
Proof. apply stop_inv. Qed.

(** C5: a fleet that appears while [stop] decides is never left running behind a STOPPED
    job: nothing is written, the caller is told, and the instance adopts the fleet so that
    the next attempt cancels it. *)
Theorem stop_fleet_race svc r o c w w1 row :
  runner (self w) = FLEETS ->
  cancel_answer r w = (Ok false, w1) ->
  jobs (db w1) !! id (self w1) = Some row ->
  fleet_id row <> fleet_id (self w1) ->
  stop svc r o c w = (Raise (fleet_appeared (self w1)),
                      set_self (setattr (F_fleet_id (fleet_id row)) (self w1)) w1)
  /\ isinstance (fleet_appeared (self w1)) RunnerRetryableError = true.
Proof.
  intros Hr Hc Hrow Hne. split; [|done].
  unfold stop, get_self, gets. unfold bind at 1. rewrite bool_decide_eq_true_2 by done. cbn [negb].
  erewrite bind_ok by exact Hc. apply bind_raise.
  unfold atomic, bind at 1, get. rewrite Hrow, bool_decide_eq_false_2 by done.
  cbn. by destruct w1.
Qed.

(** ** The best effort messages *)

(** The senders' contract: the billing sender drops its own failures (at most a
    [RuntimeError] escapes), and the mirror raises only for a database outage or an executor
    nobody initialized. *)
Definition mirror_may_raise (e : exn) : bool :=
  is_db_exception e || isinstance e BackgroundExecutorNotInitializedError.

Class BestEffort (svc : JobTransitionService) : Prop := {
  sender_raises p w e w' :
    billing_sender svc p w = (Raise e, w') -> isinstance e RuntimeError = true;
  mirror_raises w e w' :
    workload_mirror svc w = (Raise e, w') -> mirror_may_raise e = true
}.

Lemma send_job_in_progress_ok svc b t w :
  BestEffort svc -> exists w', send_job_in_progress svc b (Some t) w = (Ok tt, w').
Proof.
  intros Hb. unfold send_job_in_progress, get_self, gets. unfold bind at 1.
  destruct (filler (self w)); [by eexists|].
  destruct (try_except _ _ _) as [[[]|e] w'] eqn:E; [by eexists|].
  exfalso. revert E. unfold try_except.
  destruct (bind _ _ w) as [[[]|e1] w1] eqn:E1; [done|].
  assert (isinstance e1 RuntimeError = true) as Hr; [|by rewrite Hr].
  destruct b; cbn in E1; by eapply sender_raises.
Qed.

(** [pending_to_running] changes the status or reports why not, and no failure of the
    messages it sends besides undoes or hides the change: the only exceptions after it are
    those of the mirror (a database outage, an executor nobody initialized). *)
Theorem pending_to_running_spec svc o c fs w :
  ServiceLaws svc -> BestEffort svc ->
  match pending_to_running svc o c fs w with
  | (Ok e, w') => exists row,
      jobs (db w) !! id (self w) = Some row /\ RUNNING ∈ VALID_TRANSITIONS (status row)
      /\ e = transition_event RUNNING o c w
      /\ db w' = db (transitioned RUNNING o c fs w row)
  | (Raise e, w') =>
      (w' = w /\ (e = DoesNotExist_error \/ e = invalid_transition (id (self w))))
      \/ (mirror_may_raise e = true /\
          exists row, jobs (db w) !! id (self w) = Some row
            /\ db w' = db (transitioned RUNNING o c fs w row))
  end.
Proof.
  intros Hl Hb. unfold pending_to_running, atomic. unfold bind at 1.
  destruct (jobs (db w) !! id (self w)) as [row|] eqn:Hrow.
  2:{ rewrite change_status_missing by done. left. split; [by destruct w | by left]. }
  destruct (decide (RUNNING ∈ VALID_TRANSITIONS (status row))) as [Hv|Hv].
  2:{ rewrite (change_status_invalid _ _ _ _ _ _ Hrow Hv). left. split; [by destruct w | by right]. }
  rewrite (change_status_ok _ _ _ _ _ _ Hrow Hv).
  set (w1 := transitioned RUNNING o c fs w row). unfold bind at 1.
  set (t := event_created _). destruct (send_job_in_progress_ok svc true t w1 Hb) as [w2 Hw2].
  pose proof (same_db_send_job_in_progress svc true (Some t) w1) as H2.
  rewrite Hw2 in H2 |- *. unfold bind.
  pose proof (mirror_same_db w2) as H3. destruct (workload_mirror svc w2) as [[[]|e] w3] eqn:E3.
  - exists row. split_and!; [done..|]. unfold same_db in *. cbn [snd] in *. fold w1. congruence.
  - right. split; [by eapply mirror_raises|]. exists row. split; [done|]. unfold same_db in *. cbn [snd] in *. fold w1. congruence.
Qed.

(** the in-progress message of a running job is best effort only when the job has a
    start time: without one the builder fails with an error the service does not catch. *)
Theorem running_to_running_spec svc t w :
  BestEffort svc ->
  (filler (self w) = true -> running_to_running svc t w = (Ok tt, w))
  /\ (filler (self w) = false ->
      match t with
      | Some _ => exists w', running_to_running svc t w = (Ok tt, w')
      | None => exists e w', running_to_running svc t w = (Raise e, w') /\ exn_class e = AttributeError
      end).
Proof.
  intros Hb. unfold running_to_running. split; intros Hf.
  - unfold send_job_in_progress, get_self, gets. unfold bind at 1. by rewrite Hf.
  - destruct t; [by apply send_job_in_progress_ok|].
    unfold send_job_in_progress, get_self, gets. unfold bind at 1. rewrite Hf. by do 2 eexists.
Qed.

(** ** Witnesses *)

#[export] Instance noop_best_effort : BestEffort noop_service.
Proof. split; intros; discriminate. Qed.

(** A job ends, is asked to stop while its cancel is answered, and is reported failed. *)
Definition sample_calls : list (Job * Call) :=
  [(running_job, CallRunningToRunning None);
   (running_job, CallToTerminal SUCCEEDED SCHEDULER UPDATE_JOB_STATUS []);
   (running_job, CallStop (constant_runner true) API STOP_JOB);
   (running_job, CallToTerminal FAILED SCHEDULER UPDATE_JOB_STATUS [])].

Lemma sample_calls_ok : Forall (fun jc => call_ok jc.2) sample_calls.
Proof. repeat first [exact (constant_runner_laws _) | constructor]. Qed.

Lemma running_db_ok : Abs.log_ok running_db /\ Abs.outbox_ok running_db.
Proof.
  split.
  - intros j. unfold Abs.job_ok, Abs.job_status, Abs.history. cbn [jobs events running_db].
    destruct (decide (j = "job-1")) as [->|Hne].
    + rewrite lookup_singleton_eq. exists [PENDING; RUNNING].
      split; [reflexivity|]. split; [|reflexivity].
      repeat split; apply (bool_decide_unpack _); reflexivity.
    + rewrite lookup_singleton_ne by done. cbn [fmap option_fmap option_map].
      change (status_history j ([status_event "job-1" 0 QUEUED] ++ [status_event "job-1" 0 PENDING]
                ++ [status_event "job-1" 0 RUNNING]) = []).
      rewrite !status_history_app, !status_history_one. unfold of_job. cbn [event_job status_event].
      by rewrite bool_decide_eq_false_2 by done.
  - split; [constructor|]. intros j ch Hin. by apply not_elem_of_nil in Hin.
Qed.

Lemma session_refines_witness :
  exists T, Abs.exec T running_db (db (snd (session noop_service sample_calls running_world))) /\ NoDup T.
Proof. exact (session_refines noop_service sample_calls running_world sample_calls_ok). Defined.

Lemma session_invariant_witness :
  let w' := snd (session noop_service sample_calls running_world) in
  Abs.log_ok (db w') /\ Abs.outbox_ok (db w').
Proof.
  exact (session_invariant noop_service sample_calls running_world sample_calls_ok
           (proj1 running_db_ok) (proj2 running_db_ok)).
Defined.

Definition ended_world : World :=
  snd (session noop_service [(running_job, CallToTerminal SUCCEEDED SCHEDULER UPDATE_JOB_STATUS [])]
         running_world).

Lemma terminal_is_final_witness :
  let w' := snd (session noop_service sample_calls ended_world) in
  Abs.job_status (db w') "job-1" = Some SUCCEEDED
  /\ map ob_channel (outbox (db w')) = [JOB_USAGE; LICENSE_FEE; WORKLOAD].
Proof.
  assert (Abs.terminal (db ended_world) "job-1") as Ht.
  { exists SUCCEEDED. split; [vm_compute; reflexivity | apply (bool_decide_unpack _); reflexivity]. }
  destruct (terminal_is_final noop_service sample_calls ended_world "job-1" sample_calls_ok Ht)
    as [Hs _].
  split; [rewrite Hs; vm_compute; reflexivity | vm_compute; reflexivity].
Defined.

Lemma to_terminal_spec_witness :
  SUCCEEDED ∈ TERMINAL_STATUSES
  /\ match to_terminal SUCCEEDED SCHEDULER UPDATE_JOB_STATUS [] running_world with
     | (Ok e, w') => transition_outcome SUCCEEDED SCHEDULER UPDATE_JOB_STATUS [] running_world e w'
     | (Raise _, _) => False
     end.
Proof.
  assert (SUCCEEDED ∈ TERMINAL_STATUSES) as Hs by (apply (bool_decide_unpack _); reflexivity).
  split; [exact Hs|].
  pose proof (to_terminal_spec SUCCEEDED SCHEDULER UPDATE_JOB_STATUS [] running_world Hs) as H.
  destruct (to_terminal _ _ _ _ _) as [[e|e] w'] eqn:E; [exact H|].
  apply (f_equal (fun r => match fst r with Ok _ => true | Raise _ => false end)) in E.
  vm_compute in E. discriminate E.
Defined.

Definition stop_run (answer : bool) (job : Job) :=
  stop noop_service (constant_runner answer) API STOP_JOB (set_self job running_world).

Lemma stop_returns_witness :
  exists w', stop_run false running_job = (Ok STOPPED, w')
  /\ map ob_channel (outbox (db w')) = [WORKLOAD]
  /\ exists answer, STOPPED = (if answer : bool then STOPPING else STOPPED).
Proof.
  eexists. split; [vm_compute; reflexivity|]. split; [reflexivity|].
  destruct (stop_returns noop_service (constant_runner false) API STOP_JOB running_world STOPPED
              _ ltac:(vm_compute; reflexivity) noop_service_laws)
    as (answer & ? & ? & ? & ? & ? & H & ?).
  exists answer. exact H.
Defined.

(** The instance was read before the fleet was recorded. *)
Lemma stop_fleet_race_witness :
  exists w', stop_run true (sample_job "job-1" RUNNING None)
             = (Raise (fleet_appeared (sample_job "job-1" RUNNING None)), w')
  /\ fleet_id (self w') = Some "fleet-1".
Proof.
  set (stale := sample_job "job-1" RUNNING None).
  destruct (stop_fleet_race noop_service (constant_runner true) API STOP_JOB
              (set_self stale running_world) (set_self stale running_world) running_job
              eq_refl eq_refl ltac:(vm_compute; reflexivity) ltac:(discriminate)) as [H _].
  eexists. split; [exact H | reflexivity].
Defined.

Definition pending_world : World :=
  world_of (mk_db {[ "job-1" := sample_job "job-1" PENDING (Some "fleet-1") ]} [] [] 0 ∅ [] ∅)
    (sample_job "job-1" PENDING (Some "fleet-1")).

Lemma pending_to_running_spec_witness :
  match pending_to_running noop_service SCHEDULER UPDATE_JOB_STATUS [] pending_world with
  | (Ok e, w') => e = transition_event RUNNING SCHEDULER UPDATE_JOB_STATUS pending_world
  | (Raise _, _) => False
  end.
Proof.
  pose proof (pending_to_running_spec noop_service SCHEDULER UPDATE_JOB_STATUS [] pending_world
                noop_service_laws noop_best_effort) as H.
  destruct (pending_to_running _ _ _ _ _) as [[e|e] w'] eqn:E.
  - destruct H as (row & _ & _ & He & _). exact He.
  - apply (f_equal (fun r => match fst r with Ok _ => true | Raise _ => false end)) in E.
    vm_compute in E. discriminate E.
Defined.

Lemma running_to_running_spec_witness :
  filler (self running_world) = false
  /\ exists e w', running_to_running noop_service None running_world = (Raise e, w')
       /\ exn_class e = AttributeError.
Proof.
  split; [reflexivity|].
  exact (proj2 (running_to_running_spec noop_service None running_world noop_best_effort) eq_refl).
Defined.
