(* ===== verification/CircuitBreaker.v ===== *)
(** * Circuit breakers ([scheduler/tasks/circuit_breaker.py])

    A breaker is its failure streak and the monotonic time it opened at. The operations run
    on a [BreakerRef], a place in the world that holds one, because the scheduler keeps one
    per region and dependency and one per outbox destination and region. *)

From S2P Require Import Prelude PyStr Models World BillingEvents.

Local Open Scope string_scope.
Local Open Scope list_scope.
Local Open Scope Z_scope.

Definition DEFAULT_FAILURE_THRESHOLD : Z := 5.
Definition DEFAULT_PAUSE_SECONDS : Z := 60.

(** Where a breaker is, and the two [Config] entries it was built with. *)
Record BreakerRef := mk_breaker_ref {
  failure_threshold_key : string;
  pause_seconds_key : string;
  read_breaker : World -> Breaker;
  write_breaker : Breaker -> World -> World
}.

(** What writing a breaker leaves alone. *)
Class BreakerRefLaws (r : BreakerRef) : Prop := {
  read_write b w : read_breaker r (write_breaker r b w) = b;
  write_write b b' w : write_breaker r b (write_breaker r b' w) = write_breaker r b w;
  write_config b w : config (write_breaker r b w) = config w;
  write_mono b w : mono (write_breaker r b w) = mono w;
  write_wall b w : wall (write_breaker r b w) = wall w;
  write_killed b w : killed (write_breaker r b w) = killed w;
  write_ticks b w : ticks (write_breaker r b w) = ticks w;
  write_db b w : db (write_breaker r b w) = db w;
  write_self b w : self (write_breaker r b w) = self w;
  write_sent b w : puts (write_breaker r b w) = puts w /\ kafka (write_breaker r b w) = kafka w;
  read_ticks n w : read_breaker r (set_ticks n w) = read_breaker r w;
  read_db d w : read_breaker r (set_db d w) = read_breaker r w;
  read_metrics ms w : read_breaker r (set_sched (set_metrics ms (sched w)) w) = read_breaker r w
}.

Section breaker.
Context (r : BreakerRef).

Definition failure_threshold : Py Z :=
  Config_get_int (failure_threshold_key r) DEFAULT_FAILURE_THRESHOLD.

Definition pause_seconds : Py Z :=
  Config_get_int (pause_seconds_key r) DEFAULT_PAUSE_SECONDS.

Definition put_breaker (b : Breaker) : Py unit := modify (write_breaker r b).

Definition reset : Py unit := put_breaker new_breaker.

Definition is_open : Py bool :=
  b <- gets (read_breaker r) ;;
  match opened_at b with
  | None => ret false
  | Some t =>
      now_ <- monotonic ;;
      pause <- pause_seconds ;;
      if pause * MICROS <=? now_ - t then reset ;;; ret false else ret true
  end.

Definition record_success : Py unit :=
  b <- gets (read_breaker r) ;;
  put_breaker (mk_breaker 0 (opened_at b)).

Definition record_failure : Py unit :=
  b <- gets (read_breaker r) ;;
  put_breaker (mk_breaker (consecutive_failures b + 1) (opened_at b)) ;;;
  threshold <- failure_threshold ;;
  if (threshold <=? consecutive_failures b + 1) && bool_decide (opened_at b = None) then
    t <- monotonic ;;
    put_breaker (mk_breaker (consecutive_failures b + 1) (Some t))
  else ret tt.
End breaker.

(** ** What the settings are, when both entries are registered *)

Definition setting (key : string) (dflt : Z) (w : World) : Z :=
  match config w !! key with
  | Some v => default dflt (py_int v)
  | None => dflt
  end.
Definition threshold_of (r : BreakerRef) (w : World) : Z :=
  setting (failure_threshold_key r) DEFAULT_FAILURE_THRESHOLD w.
Definition pause_of (r : BreakerRef) (w : World) : Z :=
  setting (pause_seconds_key r) DEFAULT_PAUSE_SECONDS w.
Definition registered (r : BreakerRef) (w : World) : Prop :=
  is_Some (config w !! failure_threshold_key r) /\ is_Some (config w !! pause_seconds_key r).

Lemma Config_get_int_run key dflt w :
  is_Some (config w !! key) -> Config_get_int key dflt w = (Ok (setting key dflt w), w).
Proof.
  intros [v Hv]. unfold Config_get_int, Config_get, setting, bind, gets, ret. rewrite Hv.
  by destruct (py_int v).
Qed.

Section run.
Context (r : BreakerRef) `{!BreakerRefLaws r}.

(** A breaker that is closed, or whose pause has elapsed, answers that it is closed, in the
    second case with its streak back at zero; otherwise it is open and unchanged. *)
Lemma is_open_run w :
  registered r w ->
  is_open r w =
    match opened_at (read_breaker r w) with
    | None => (Ok false, w)
    | Some t =>
        let w' := set_ticks (S (ticks w)) w in
        if pause_of r w * MICROS <=? mono w (ticks w) - t
        then (Ok false, write_breaker r new_breaker w')
        else (Ok true, w')
    end.
Proof.
  intros [_ Hp]. unfold is_open, gets. unfold bind at 1.
  destruct (opened_at (read_breaker r w)) as [t|]; [|done].
  unfold monotonic. unfold bind at 1. cbv zeta.
  erewrite bind_ok by (by apply Config_get_int_run). unfold pause_of.
  change (setting (pause_seconds_key r) DEFAULT_PAUSE_SECONDS (set_ticks (S (ticks w)) w))
    with (setting (pause_seconds_key r) DEFAULT_PAUSE_SECONDS w).
  by destruct (_ <=? _).
Qed.

Lemma record_success_run w :
  record_success r w =
    (Ok tt, write_breaker r (mk_breaker 0 (opened_at (read_breaker r w))) w).
Proof. reflexivity. Qed.

Lemma record_failure_run w :
  registered r w ->
  let b := read_breaker r w in
  let n := consecutive_failures b + 1 in
  record_failure r w =
    (if (threshold_of r w <=? n) && bool_decide (opened_at b = None)
     then (Ok tt, write_breaker r (mk_breaker n (Some (mono w (ticks w)))) (set_ticks (S (ticks w)) (write_breaker r (mk_breaker n (opened_at b)) w)))
     else (Ok tt, write_breaker r (mk_breaker n (opened_at b)) w)).
Proof.
  intros [Ht _] b n. unfold record_failure, gets, put_breaker, modify. unfold bind at 1.
  unfold bind at 1. fold b n.
  erewrite bind_ok.
  2:{ apply Config_get_int_run. by rewrite write_config. }
  unfold threshold_of.
  assert (setting (failure_threshold_key r) DEFAULT_FAILURE_THRESHOLD
            (write_breaker r (mk_breaker n (opened_at b)) w) =
          setting (failure_threshold_key r) DEFAULT_FAILURE_THRESHOLD w) as ->
    by (unfold setting; by rewrite write_config).
  destruct (_ && _); [|done]. unfold bind, monotonic. by rewrite write_mono, write_ticks.
Qed.
End run.

(** ** Reference: streaks of failures *)

(** [tripped n k l]: whether the reports [l] ([true] is a success), coming after a streak of
    [k] failures, contain a streak that reaches [n]. *)
Fixpoint tripped (n k : Z) (l : list bool) : bool :=
  match l with
  | [] => false
  | true :: l' => tripped n 0 l'
  | false :: l' => (n <=? k + 1) || tripped n (k + 1) l'
  end.

(** The streak the reports end with. *)
Fixpoint streak (k : Z) (l : list bool) : Z :=
  match l with
  | [] => k
  | true :: l' => streak 0 l'
  | false :: l' => streak (k + 1) l'
  end.

Definition report (r : BreakerRef) (ok : bool) : Py bool :=
  (if ok then record_success r else record_failure r) ;;; ret true.
Definition reports (r : BreakerRef) (l : list bool) : Py unit := for_each l (report r).

(** [tripped] says what it should: some block of consecutive reports is all failures and
    reaches the threshold. *)
Lemma tripped_spec n l :
  1 <= n ->
  tripped n 0 l = true <->
  exists l1 m l2, l = l1 ++ replicate m false ++ l2 /\ n <= Z.of_nat m.
Proof.
  intros Hn.
  assert (forall l k, 0 <= k ->
    tripped n k l = true <->
    (exists m l2, l = replicate m false ++ l2 /\ (1 <= m)%nat /\ n <= k + Z.of_nat m)
    \/ exists l1 m l2, l = l1 ++ replicate m false ++ l2 /\ n <= Z.of_nat m) as H.
  { clear l. induction l as [|b l IH]; intros k Hk; cbn.
    - split; [done|]. intros [([|m] & l2 & Hl & Hm & _)|(l1 & m & l2 & Hl & Hm)]; [lia|done|].
      symmetry in Hl. apply app_eq_nil in Hl as [_ Hl]. apply app_eq_nil in Hl as [Hl _].
      destruct m; [lia|done].
    - destruct b.
      + rewrite IH by lia. split.
        * intros [(m & l2 & -> & ? & ?)|(l1 & m & l2 & -> & ?)]; right;
            [by exists [true], m, l2|by exists (true :: l1), m, l2].
        * intros [([|m] & l2 & Hl & ? & ?)|(l1 & m & l2 & Hl & ?)]; [lia|done|].
          destruct l1 as [|x l1]; cbn in Hl; [destruct m; [lia|done]|].
          injection Hl as <- ->. right. by exists l1, m, l2.
      + rewrite orb_true_iff, Z.leb_le, IH by lia. split.
        * intros [?|[(m & l2 & -> & ? & ?)|(l1 & m & l2 & -> & ?)]].
          -- left. exists 1%nat, l. cbn. split; [done|lia].
          -- left. exists (S m), l2. cbn. split; [done|lia].
          -- right. by exists (false :: l1), m, l2.
        * intros [([|m] & l2 & Hl & ? & ?)|(l1 & m & l2 & Hl & ?)]; [lia| |].
          -- injection Hl as ->. destruct m as [|m]; [left; lia|].
             right. left. exists (S m), l2. split; [done|lia].
          -- destruct l1 as [|x l1].
             ++ destruct m as [|m]; [lia|]. injection Hl as ->. destruct m as [|m]; [left; lia|].
                right. left. exists (S m), l2. split; [done|lia].
             ++ injection Hl as <- ->. right. right. by exists l1, m, l2. }
  rewrite H by lia. split; [|by intros; right].
  intros [(m & l2 & -> & _ & ?)|H']; [|done]. exists [], m, l2. split; [done|lia].
Qed.

Section trips.
Context (r : BreakerRef) `{!BreakerRefLaws r}.

Lemma registered_write b w : registered r (write_breaker r b w) <-> registered r w.
Proof. unfold registered. by rewrite write_config. Qed.

Lemma threshold_write b w : threshold_of r (write_breaker r b w) = threshold_of r w.
Proof. unfold threshold_of, setting. by rewrite write_config. Qed.

(** One report, seen from the breaker. *)
Lemma report_run ok w :
  registered r w ->
  exists w', report r ok w = (Ok true, w')
    /\ registered r w' /\ threshold_of r w' = threshold_of r w
    /\ let b := read_breaker r w in
       let b' := read_breaker r w' in
       consecutive_failures b' = (if ok then 0 else consecutive_failures b + 1)
       /\ (is_Some (opened_at b') <->
             is_Some (opened_at b)
             \/ (ok = false /\ threshold_of r w <= consecutive_failures b + 1)).
Proof.
  intros Hr. unfold report. destruct ok.
  - rewrite (bind_ok _ _ _ _ _ (record_success_run r w)). eexists. split; [done|].
    rewrite registered_write, threshold_write, read_write. cbn. naive_solver.
  - pose proof (record_failure_run r w Hr) as H. cbv zeta in H.
    destruct (Z.leb_spec (threshold_of r w) (consecutive_failures (read_breaker r w) + 1));
      cbn [andb] in H; [case_bool_decide as Hn|]; rewrite (bind_ok _ _ _ _ _ H);
      (eexists; split; [reflexivity|]); rewrite registered_write, threshold_write, read_write; cbn.
    + change (registered r (set_ticks ?n ?w')) with (registered r w').
      change (threshold_of r (set_ticks ?n ?w')) with (threshold_of r w').
      rewrite registered_write, threshold_write. naive_solver.
    + destruct (opened_at (read_breaker r w)); naive_solver.
    + split_and!; try done. split; [by left|]. intros [?|[_ ?]]; [done|lia].
Qed.

Lemma reports_run l w :
  registered r w ->
  exists w', reports r l w = (Ok tt, w')
    /\ consecutive_failures (read_breaker r w') = streak (consecutive_failures (read_breaker r w)) l
    /\ (is_Some (opened_at (read_breaker r w')) <->
          is_Some (opened_at (read_breaker r w))
          \/ tripped (threshold_of r w) (consecutive_failures (read_breaker r w)) l = true).
Proof.
  revert w. induction l as [|ok l IH]; intros w Hr.
  - exists w. cbn. naive_solver.
  - destruct (report_run ok w Hr) as (w1 & Hrun & Hr1 & Ht & Hc & Ho).
    destruct (IH w1 Hr1) as (w2 & Hrun2 & Hc2 & Ho2). exists w2.
    unfold reports in *. cbn [for_each]. rewrite (bind_ok _ _ _ _ _ Hrun). split; [done|].
    rewrite Hc2, Ho2, Ho, Ht, Hc. destruct ok; cbn [streak tripped].
    + split; [done|]. naive_solver.
    + rewrite orb_true_iff, Z.leb_le. naive_solver.
Qed.
End trips.
