(* ===== verification/FleetsBreakers.v ===== *)
(** * The breakers of the Fleets regions ([scheduler/schedule.py])

    [RegionBreakers], one breaker per region built the first time it is asked for, and
    [FleetsBreakers], the three dependencies that have one. *)

From S2P Require Import Prelude PyStr Models World BillingEvents JobTransitions TransitionSpec Samples CircuitBreaker.

Local Open Scope string_scope.
Local Open Scope list_scope.
Local Open Scope Z_scope.

Definition FLEETS_BREAKER_FAILURES : string := "scheduler.fleets.breaker_failures".
Definition FLEETS_BREAKER_PAUSE_SECONDS : string := "scheduler.fleets.breaker_pause_seconds".

Inductive Dependency := Cos | CodeEngine | Cleanup.
#[export] Instance Dependency_eq_dec : EqDecision Dependency.
Proof. solve_decision. Defined.

Definition breakers_of (dep : Dependency) (s : Sched) : gmap (option string) Breaker :=
  match dep with
  | Cos => cos_breakers s
  | CodeEngine => code_engine_breakers s
  | Cleanup => cleanup_breakers s
  end.
Definition set_breakers_of (dep : Dependency) (m : gmap (option string) Breaker) (s : Sched) : Sched :=
  match dep with
  | Cos => set_cos_breakers m s
  | CodeEngine => set_code_engine_breakers m s
  | Cleanup => set_cleanup_breakers m s
  end.

(** [build_fleets_circuit_breaker()] in its place: the breaker of [region], closed until
    it is written. *)
Definition region_breaker (dep : Dependency) (region : option string) : BreakerRef := {|
  failure_threshold_key := FLEETS_BREAKER_FAILURES;
  pause_seconds_key := FLEETS_BREAKER_PAUSE_SECONDS;
  read_breaker := fun w => default new_breaker (breakers_of dep (sched w) !! region);
  write_breaker := fun b w =>
    set_sched (set_breakers_of dep (<[region := b]> (breakers_of dep (sched w))) (sched w)) w
|}.

Definition get_breaker (dep : Dependency) (region : option string) : Py BreakerRef :=
  m <- gets (fun w => breakers_of dep (sched w)) ;;
  (if decide (is_Some (m !! region)) then ret tt
   else modify_sched (set_breakers_of dep (<[region := new_breaker]> m))) ;;;
  ret (region_breaker dep region).

Definition region_paused (dep : Dependency) (region : option string) : Py bool :=
  breaker <- get_breaker dep region ;;
  is_open breaker.

Definition paused_regions (dep : Dependency) : Py (list (option string)) :=
  m <- gets (fun w => breakers_of dep (sched w)) ;;
  (fix go (regions : list (option string)) : Py (list (option string)) :=
     match regions with
     | [] => ret []
     | region :: regions' =>
         open_ <- is_open (region_breaker dep region) ;;
         rest <- go regions' ;;
         ret (if open_ : bool then region :: rest else rest)
     end) (map_to_list m).*1.

(** [FleetsBreakers.paused]. *)
Definition fleets_paused (region : option string) : Py bool :=
  cos <- region_paused Cos region ;;
  if cos : bool then ret true else region_paused CodeEngine region.

(** ** Lemmas *)

#[export] Instance region_breaker_laws dep region : BreakerRefLaws (region_breaker dep region).
Proof.
  split; intros; unfold region_breaker; cbn; try done.
  - destruct dep; cbn; by rewrite lookup_insert_eq.
  - destruct w as [? ? ? ? ? ? ? ? ? [? ? ? ? ? ? ? ? ? ?]], dep; unfold set_sched; cbn; by rewrite insert_insert_eq.
Qed.

Lemma same_db_breaker_write r b : BreakerRefLaws r -> rel same_db (put_breaker r b).
Proof. intros Hr w. unfold same_db, put_breaker, modify. cbn. apply write_db. Qed.

Lemma same_db_is_open r : BreakerRefLaws r -> rel same_db (is_open r).
Proof.
  intros Hr. pose proof same_db_breaker_write. unfold is_open, pause_seconds, reset. rel_auto.
Qed.
Lemma same_db_record_success r : BreakerRefLaws r -> rel same_db (record_success r).
Proof. intros Hr. pose proof same_db_breaker_write. unfold record_success. rel_auto. Qed.
Lemma same_db_record_failure r : BreakerRefLaws r -> rel same_db (record_failure r).
Proof.
  intros Hr. pose proof same_db_breaker_write. unfold record_failure, failure_threshold. rel_auto.
Qed.
Lemma same_db_get_breaker dep region : rel same_db (get_breaker dep region).
Proof. unfold get_breaker. rel_auto. Qed.
#[export] Hint Resolve same_db_is_open same_db_record_success same_db_record_failure
  same_db_get_breaker region_breaker_laws : pyrel.

Lemma same_self_breaker_write r b : BreakerRefLaws r -> rel same_self (put_breaker r b).
Proof. intros Hr w. unfold same_self, put_breaker, modify. cbn. apply write_self. Qed.
Lemma same_self_is_open r : BreakerRefLaws r -> rel same_self (is_open r).
Proof.
  intros Hr. pose proof same_self_breaker_write. unfold is_open, pause_seconds, reset. rel_auto.
Qed.
Lemma same_self_record_success r : BreakerRefLaws r -> rel same_self (record_success r).
Proof. intros Hr. pose proof same_self_breaker_write. unfold record_success. rel_auto. Qed.
Lemma same_self_record_failure r : BreakerRefLaws r -> rel same_self (record_failure r).
Proof.
  intros Hr. pose proof same_self_breaker_write. unfold record_failure, failure_threshold. rel_auto.
Qed.
Lemma same_self_get_breaker dep region : rel same_self (get_breaker dep region).
Proof. unfold get_breaker. rel_auto. Qed.
#[export] Hint Resolve same_self_is_open same_self_record_success same_self_record_failure
  same_self_get_breaker : pyrel.

Lemma get_breaker_result dep region w b w' :
  get_breaker dep region w = (Ok b, w') -> b = region_breaker dep region.
Proof. unfold get_breaker. intros H. inv_run H. done. Qed.

(** A relation over the use of a breaker: what is asked of [get_breaker] and of its answer. *)
Lemma rel_bind_breaker (R : World -> World -> Prop) `{!PreOrder R} {B} dep region (k : BreakerRef -> Py B) :
  rel R (get_breaker dep region) -> rel R (k (region_breaker dep region)) ->
  rel R (bind (get_breaker dep region) k).
Proof.
  intros Hg Hk w. apply (rel_bind_at _); [apply Hg|]. intros b w' Hrun _.
  apply get_breaker_result in Hrun as ->. apply Hk.
Qed.

Lemma same_db_region_paused dep region : rel same_db (region_paused dep region).
Proof.
  unfold region_paused. intros w. unfold bind.
  pose proof (same_db_get_breaker dep region w) as H.
  destruct (get_breaker dep region w) as [[b|e] w1] eqn:E; [|done].
  apply get_breaker_result in E as ->.
  etransitivity; [exact H|]. apply same_db_is_open. exact _.
Qed.
#[export] Hint Resolve same_db_region_paused : pyrel.

Lemma same_self_region_paused dep region : rel same_self (region_paused dep region).
Proof.
  unfold region_paused. intros w. unfold bind.
  pose proof (same_self_get_breaker dep region w) as H.
  destruct (get_breaker dep region w) as [[b|e] w1] eqn:E; [|done].
  apply get_breaker_result in E as ->.
  etransitivity; [exact H|]. apply same_self_is_open. exact _.
Qed.
#[export] Hint Resolve same_self_region_paused : pyrel.

Lemma same_self_fleets_paused region : rel same_self (fleets_paused region).
Proof. unfold fleets_paused. rel_auto. Qed.
#[export] Hint Resolve same_self_fleets_paused : pyrel.

Lemma same_db_fleets_paused region : rel same_db (fleets_paused region).
Proof. unfold fleets_paused. rel_auto. Qed.
#[export] Hint Resolve same_db_fleets_paused : pyrel.

(** Asking for a breaker never changes what a breaker is. *)
Lemma get_breaker_reads dep region dep' region' w :
  exists w', get_breaker dep region w = (Ok (region_breaker dep region), w')
    /\ read_breaker (region_breaker dep' region') w' = read_breaker (region_breaker dep' region') w
    /\ config w' = config w /\ mono w' = mono w /\ ticks w' = ticks w /\ db w' = db w
    /\ self w' = self w.
Proof.
  unfold get_breaker, gets. unfold bind at 1.
  destruct (decide (is_Some (breakers_of dep (sched w) !! region))) as [H|H];
    (eexists; split; [reflexivity|]); [done|].
  split_and!; try done. cbn.
  rewrite <- eq_None_not_Some in H. destruct (decide (dep = dep')) as [<-|Hd].
  - assert (breakers_of dep (set_breakers_of dep (<[region:=new_breaker]> (breakers_of dep (sched w)))
              (sched w)) = <[region:=new_breaker]> (breakers_of dep (sched w))) as -> by (by destruct dep).
    destruct (decide (region = region')) as [<-|Hr].
    + by rewrite lookup_insert_eq, H.
    + by rewrite lookup_insert_ne.
  - by destruct dep, dep'.
Qed.

(** ** Properties *)

(** C6: a breaker fed any sequence of reports opens exactly when some run of consecutive
    failures in it reaches the configured threshold: a success in between starts over. *)
Theorem breaker_trips r w l :
  BreakerRefLaws r -> registered r w ->
  read_breaker r w = new_breaker -> 1 <= threshold_of r w ->
  exists w', reports r l w = (Ok tt, w')
    /\ (is_Some (opened_at (read_breaker r w')) <->
        exists l1 m l2, l = l1 ++ replicate m false ++ l2 /\ threshold_of r w <= Z.of_nat m).
Proof.
  intros Hl Hr Hb Ht. destruct (reports_run r l w Hr) as (w' & Hrun & _ & Ho).
  exists w'. split; [done|]. rewrite Hb in Ho. cbn in Ho.
  rewrite Ho, tripped_spec by done. split; [intros [[]|?]; done|by right].
Qed.

(** an open breaker answers open until its pause has elapsed since it opened, whatever
    failures are reported meanwhile; then it is as new, so only a whole new streak opens it
    again. *)
Theorem breaker_pause r w t k :
  BreakerRefLaws r -> registered r w ->
  read_breaker r w = mk_breaker k (Some t) ->
  let failed := snd (record_failure r w) in
  opened_at (read_breaker r failed) = Some t
  /\ fst (is_open r w) = Ok (mono w (ticks w) - t <? pause_of r w * MICROS)
  /\ read_breaker r (snd (is_open r w)) =
       (if mono w (ticks w) - t <? pause_of r w * MICROS then mk_breaker k (Some t) else new_breaker).
Proof.
  intros Hl Hr Hb failed. split.
  - subst failed. pose proof (record_failure_run r w Hr) as H. cbv zeta in H. rewrite Hb in H.
    rewrite (bool_decide_eq_false_2 (opened_at _ = None)), andb_false_r in H by done.
    rewrite H. cbn [snd]. by rewrite read_write.
  - rewrite (is_open_run r w Hr), Hb. cbn [opened_at]. cbv zeta.
    rewrite Z.ltb_antisym.
    destruct (_ <=? _); cbn [negb fst snd]; split; by rewrite ?read_write, ?read_ticks.
Qed.

(** ** Witnesses *)

Definition breaker_config : gmap string string :=
  {[ FLEETS_BREAKER_FAILURES := "2"; FLEETS_BREAKER_PAUSE_SECONDS := "60" ]}.
Definition breaker_world : World := set_config breaker_config running_world.
Definition us_east : BreakerRef := region_breaker CodeEngine (Some "us-east").

Lemma breaker_world_registered : registered us_east breaker_world.
Proof. split; eexists; vm_compute; reflexivity. Qed.

Lemma breaker_trips_witness :
  exists w', reports us_east [false; true; false; false] breaker_world = (Ok tt, w')
    /\ is_Some (opened_at (read_breaker us_east w')).
Proof.
  destruct (breaker_trips us_east breaker_world [false; true; false; false] _
              breaker_world_registered eq_refl ltac:(vm_compute; discriminate)) as (w' & H & Hiff).
  exists w'. split; [exact H|]. apply Hiff. exists [false; true], 2%nat, [].
  split; [reflexivity | vm_compute; discriminate].
Defined.

(** Opened at second 0, asked again at second 5. *)
Definition open_world : World :=
  set_ticks 5 (write_breaker us_east (mk_breaker 2 (Some 0)) breaker_world).

Lemma breaker_pause_witness :
  registered us_east open_world /\ fst (is_open us_east open_world) = Ok true.
Proof.
  assert (registered us_east open_world) as Hr by (split; eexists; vm_compute; reflexivity).
  split; [exact Hr|].
  destruct (breaker_pause us_east open_world 0 2 _ Hr ltac:(vm_compute; reflexivity)) as (_ & H & _).
  rewrite H. vm_compute. reflexivity.
Defined.
