(* ===== verification/Blocked.v ===== *)
(** * Blocked cloud resources ([core/models.py], [core/services/blocked_account_events.py])

    The mirror of the blocked set: the two readings of it, one for a submission
    ([blocks]) and one for a query over jobs ([blocked_jobs_filter]), and the handler of the
    events that keep it. *)

From S2P Require Import Prelude PyStr Domain Models World JobTransitions TransitionSpec Samples.

Local Open Scope string_scope.
Local Open Scope list_scope.

Definition BLOCKED_JOBS_STOP_ENABLED : string := "scheduler.blocked_jobs_stop.enabled".
Definition BLOCKED_RESOURCES_REGIONAL : string := "gateway.blocked_resources.regional.enabled".

(** ** [BlockedCloudResource.blocks] and [blocked_jobs_filter] *)

(** A row at exactly this account, plan and subscription; [NULL] only matches [NULL]. *)
Definition at_scope (account plan subscription : option string) (row : BlockedCloudResource) : bool :=
  bool_decide (bl_account row = account) && bool_decide (bl_plan row = plan)
  && bool_decide (bl_subscription row = subscription).

Definition blocks (account plan subscription region : option string) : Py bool :=
  enabled <- Config_get_bool BLOCKED_JOBS_STOP_ENABLED ;;
  if negb enabled then ret false
  else
    d <- get_db ;;
    let rows := filter (at_scope account plan subscription) (blocked d) in
    regional <- Config_get_bool BLOCKED_RESOURCES_REGIONAL ;;
    let rows := if regional : bool
                then filter (fun row => Some (bl_region row) = region) rows else rows in
    ret (bool_decide (rows <> [])).

(** A [Q] over jobs, as the predicate it selects; a regular expression does not match a
    [NULL] CRN. *)
Definition matches_region (region : string) (job : Job) : bool :=
  match instance_crn job with
  | Some crn => Crn.region_crn_regex region crn
  | None => false
  end.

Definition job_at_scope (row : BlockedCloudResource) (job : Job) : bool :=
  bool_decide (account_id job = bl_account row) && bool_decide (plan_id job = bl_plan row)
  && bool_decide (subscription_id job = bl_subscription row).

Definition blocked_jobs_filter : Py (option (Job -> bool)) :=
  enabled <- Config_get_bool BLOCKED_JOBS_STOP_ENABLED ;;
  if negb enabled then ret None
  else
    regional <- Config_get_bool BLOCKED_RESOURCES_REGIONAL ;;
    d <- get_db ;;
    let jobs_of row := if regional : bool
                       then fun job => job_at_scope row job && matches_region (bl_region row) job
                       else job_at_scope row in
    match blocked d with
    | [] => ret None
    | rows => ret (Some (fun job => existsb (fun row => jobs_of row job) rows))
    end.

(** ** [BlockedAccountEventsService] *)

(** What [payload.get(field)] holds: nothing, a string, a boolean or something else. *)
Inductive FieldValue :=
  | FieldNone
  | FieldStr (s : string)
  | FieldBool (b : bool)
  | FieldOther.

Definition EventPayload := string -> FieldValue.

Definition MAX_LENGTH : nat := 255.

Definition invalid_event (what : string) : exn := mk_exn InvalidEventError what.

(** One field of the event: its value, [None] when it is missing or empty. *)
Definition parse_field (is_account : bool) (value : FieldValue) : outcome (option string) :=
  match value with
  | FieldNone => Ok None
  | FieldStr s =>
      let s := if is_account then removeprefix Crn.ACCOUNT_PREFIX s else s in
      if bool_decide (s = "") then Ok None
      else if bool_decide (String.length s <= MAX_LENGTH)%nat then Ok (Some s)
      else Raise (invalid_event "field is too long")
  | _ => Raise (invalid_event "field is not a string")
  end.

Record ParsedEvent := mk_parsed {
  pe_account : string; pe_plan : string; pe_subscription : string; pe_deleted : bool
}.

Definition parse_event (payload : EventPayload) : outcome ParsedEvent :=
  match parse_field true (payload "account_id") with
  | Raise e => Raise e
  | Ok account =>
      match parse_field false (payload "plan_id") with
      | Raise e => Raise e
      | Ok plan =>
          match parse_field false (payload "subscription_id") with
          | Raise e => Raise e
          | Ok subscription =>
              match account, plan, subscription with
              | Some account, Some plan, Some subscription =>
                  match payload "deleted" with
                  | FieldNone => Ok (mk_parsed account plan subscription false)
                  | FieldBool b => Ok (mk_parsed account plan subscription b)
                  | _ => Raise (invalid_event "deleted is not a boolean")
                  end
              | _, _, _ => Raise (invalid_event "event is missing fields")
              end
          end
      end
  end.

Definition handle (topic_reasons : list (string * BlockReason)) (payload : EventPayload)
    (region topic : string) : Py unit :=
  match BusinessModel.dict_get topic topic_reasons with
  | None => raise (invalid_event ("topic " +:+ topic +:+ " has no blocking reason"))
  | Some reason =>
      match parse_event payload with
      | Raise e => raise e
      | Ok event =>
          let row := mk_blocked (Some (pe_account event)) (Some (pe_plan event))
                       (Some (pe_subscription event)) reason region in
          if pe_deleted event then
            modify_db (fun d => set_blocked (filter (fun r => r <> row) (blocked d)) d)
          else
            modify_db (fun d =>
              if bool_decide (row ∈ blocked d) then d else set_blocked (blocked d ++ [row]) d)
      end
  end.

(** The topics, each with the reason its blocks are stored under
    ([scheduler/tasks/consume_blocked_account_events.py]). *)
Definition blocked_accounts_topics (environment : string) : list (string * BlockReason) :=
  [("quantum." +:+ environment +:+ ".blocked-account-plans.v1", TOTAL);
   ("quantum." +:+ environment +:+ ".blocked-account-plans-non-quantum.v1", NON_QUANTUM)].

(** ** Lemmas *)

(** The pattern matches exactly the CRNs [Crn.parse] reads that region from. *)
Lemma region_crn_regex_parse region crn :
  region <> "" -> contains_char ":" region = false ->
  Crn.region_crn_regex region crn = true <->
  Crn.region <$> Crn.parse (Some crn) = Some region.
Proof.
  intros Hne Hc. unfold Crn.region_crn_regex, Crn.parse.
  pose proof (Crn.skip_segments_split Crn.REGION_INDEX crn) as Hs.
  set (parts := split_on ":" crn) in *.
  destruct (Crn.skip_segments Crn.REGION_INDEX crn) as [rest|].
  2:{ split; [done|]. unfold Crn.REGION_INDEX, Crn.ACCOUNT_INDEX in *.
      rewrite bool_decide_eq_true_2 by lia. done. }
  rewrite Crn.startswith_segment by done. rewrite <- Hs.
  assert (forall i, drop Crn.REGION_INDEX parts !! i = parts !! (Crn.REGION_INDEX + i)%nat) as Hd
    by (intros; apply lookup_drop).
  split.
  - intros (w & ws & Hw). pose proof (Hd 0%nat) as H0. pose proof (Hd 1%nat) as H1.
    rewrite Hw in H0, H1. cbn in H0, H1.
    assert (Crn.ACCOUNT_INDEX < length parts)%nat as Hl by (apply lookup_lt_is_Some; by eexists).
    rewrite bool_decide_eq_false_2 by lia.
    change (parts !! Crn.REGION_INDEX) with (parts !! 5%nat).
    change (parts !! Crn.ACCOUNT_INDEX) with (parts !! 6%nat).
    rewrite <- H0, <- H1, bool_decide_eq_false_2 by done. done.
  - case_bool_decide as Hl; [done|]. unfold Crn.ACCOUNT_INDEX, Crn.REGION_INDEX in *.
    destruct (parts !! 5%nat) as [r|] eqn:H5; [|done].
    destruct (parts !! 6%nat) as [a|] eqn:H6; [|done].
    case_bool_decide; [done|]. cbn. intros [= ->].
    rewrite (drop_S _ _ _ H5), (drop_S _ _ _ H6). by eexists _, _.
Qed.

Definition row_region_ok (row : BlockedCloudResource) : Prop :=
  bl_region row <> "" /\ contains_char ":" (bl_region row) = false.

Lemma matches_region_parse row job :
  row_region_ok row ->
  matches_region (bl_region row) job
  = bool_decide (Some (bl_region row) = (Crn.region <$> Crn.parse (instance_crn job))).
Proof.
  intros [Hne Hc]. unfold matches_region. destruct (instance_crn job) as [crn|]; [|done].
  apply eq_bool_prop_intro. rewrite bool_decide_spec, Is_true_true, region_crn_regex_parse by done.
  done.
Qed.

(** the query filter and the submission check agree: with no failure to read the
    configuration, a job is selected by [blocked_jobs_filter] exactly when [blocks] answers
    true for its account, plan, subscription and the region of its CRN. *)
Theorem blocked_filter_agrees w job :
  Forall row_region_ok (blocked (db w)) ->
  let b := blocks (account_id job) (plan_id job) (subscription_id job)
             (Crn.region <$> Crn.parse (instance_crn job)) w in
  match fst (blocked_jobs_filter w), fst b with
  | Ok f, Ok answer => answer = match f with Some q => q job | None => false end
  | Raise e, Raise e' => e = e'
  | Raise _, Ok _ | Ok _, Raise _ => False
  end.
Proof.
  intros Hok b. subst b. unfold blocked_jobs_filter, blocks, bind, get_db, gets, ret.
  destruct (Config_get_bool BLOCKED_JOBS_STOP_ENABLED w) as [[[]|e] w1] eqn:E1; cbn; [|done..].
  assert (db w1 = db w) as Hdb.
  { pose proof (same_db_config_get_bool BLOCKED_JOBS_STOP_ENABLED w) as H. by rewrite E1 in H. }
  destruct (Config_get_bool BLOCKED_RESOURCES_REGIONAL w1) as [[regional|e] w2] eqn:E2; cbn; [|done].
  assert (db w2 = db w1) as Hdb2.
  { pose proof (same_db_config_get_bool BLOCKED_RESOURCES_REGIONAL w1) as H. by rewrite E2 in H. }
  rewrite Hdb2, Hdb.
  set (sel := fun row => if regional then job_at_scope row job && matches_region (bl_region row) job
                         else job_at_scope row job).
  assert (forall rows, Forall row_region_ok rows ->
    bool_decide ((if regional
       then filter (fun row => Some (bl_region row) = Crn.region <$> Crn.parse (instance_crn job))
              (filter (at_scope (account_id job) (plan_id job) (subscription_id job)) rows)
       else filter (at_scope (account_id job) (plan_id job) (subscription_id job)) rows) <> [])
    = existsb sel rows) as H.
  { clear -sel. intros rows. induction 1 as [|row rows Hrow Hrows IH]; [by destruct regional|].
    cbn [existsb]. rewrite <- IH. clear IH.
    assert (at_scope (account_id job) (plan_id job) (subscription_id job) row = job_at_scope row job) as Hs.
    { unfold at_scope, job_at_scope.
      rewrite (bool_decide_ext (bl_account row = _) (account_id job = bl_account row)) by done.
      rewrite (bool_decide_ext (bl_plan row = _) (plan_id job = bl_plan row)) by done.
      by rewrite (bool_decide_ext (bl_subscription row = _) (subscription_id job = bl_subscription row)). }
    subst sel. cbv beta. rewrite (filter_cons _ row rows), Hs.
    destruct regional.
    - rewrite (matches_region_parse row job Hrow).
      destruct (job_at_scope row job); cbn [andb]; [|by rewrite decide_False by auto].
      rewrite decide_True by done. rewrite filter_cons.
      destruct (decide (Some (bl_region row) = Crn.region <$> Crn.parse (instance_crn job))) as [Hr|Hr];
        [by rewrite (bool_decide_eq_true_2 _ Hr)|by rewrite (bool_decide_eq_false_2 _ Hr)].
    - by destruct (job_at_scope row job). }
  rewrite (H (blocked (db w)) Hok). destruct (blocked (db w)) as [|row rows] eqn:Hb; [done|].
  cbn -[existsb]. subst sel. by destruct regional.
Qed.

(** ** The mirror of the blocked set *)

(** What an event the handler accepts means: the row it names and whether it leaves. *)
Definition event_row (topic_reasons : list (string * BlockReason)) (payload : EventPayload)
    (region topic : string) : option (BlockedCloudResource * bool) :=
  match BusinessModel.dict_get topic topic_reasons, parse_event payload with
  | Some reason, Ok event =>
      Some (mk_blocked (Some (pe_account event)) (Some (pe_plan event))
              (Some (pe_subscription event)) reason region, pe_deleted event)
  | _, _ => None
  end.

Lemma parse_field_invalid b v e : parse_field b v = Raise e -> exn_class e = InvalidEventError.
Proof. destruct v; cbn; repeat case_bool_decide; naive_solver. Qed.

Lemma parse_event_invalid payload e :
  parse_event payload = Raise e -> exn_class e = InvalidEventError.
Proof.
  unfold parse_event.
  destruct (parse_field true _) as [account|e1] eqn:E1; [|intros [= <-]; by eapply parse_field_invalid].
  destruct (parse_field false (payload "plan_id")) as [plan|e2] eqn:E2;
    [|intros [= <-]; by eapply parse_field_invalid].
  destruct (parse_field false (payload "subscription_id")) as [sub|e3] eqn:E3;
    [|intros [= <-]; by eapply parse_field_invalid].
  destruct account, plan, sub; try (by intros [= <-]); destruct (payload "deleted"); by intros [= <-].
Qed.

(** an event either is refused for good and changes nothing, or leaves the blocked set
    with exactly its own row added or removed (an unblock never lifts the block another
    limit or region still holds); no row is ever duplicated, and handling the event again
    changes nothing more. *)
Theorem handle_spec topic_reasons payload region topic w :
  NoDup (blocked (db w)) ->
  match event_row topic_reasons payload region topic with
  | None => exists e, handle topic_reasons payload region topic w = (Raise e, w)
              /\ exn_class e = InvalidEventError
  | Some (row, deleted) => exists w',
      handle topic_reasons payload region topic w = (Ok tt, w')
      /\ NoDup (blocked (db w'))
      /\ (forall r, r ∈ blocked (db w') <->
            if deleted : bool then r ∈ blocked (db w) /\ r <> row
            else r ∈ blocked (db w) \/ r = row)
      /\ handle topic_reasons payload region topic w' = (Ok tt, w')
  end.
Proof.
  intros Hnd. unfold event_row, handle.
  destruct (BusinessModel.dict_get topic topic_reasons) as [reason|]; [|by eexists].
  destruct (parse_event payload) as [event|e] eqn:Hp;
    [|exists e; split; [done | by eapply parse_event_invalid]].
  set (row := mk_blocked _ _ _ reason region).
  destruct (pe_deleted event); (eexists; split; [reflexivity|]); unfold modify_db, modify; cbn.
  - split; [by apply NoDup_filter|]. split; [intros r; rewrite list_elem_of_filter; tauto|].
    unfold set_db, set_blocked. cbn. rewrite filter_true; [done|]. apply Forall_forall. intros r Hr. by apply list_elem_of_filter in Hr as [? _].
  - case_bool_decide as Hin.
    + split; [done|]. split; [naive_solver|]. rewrite bool_decide_eq_true_2 by done. by destruct w.
    + split; [cbn; apply NoDup_app; split; [done|]; split; [set_solver|apply NoDup_singleton]|].
      split; [intros r; cbn; rewrite elem_of_app, list_elem_of_singleton; tauto|].
      rewrite bool_decide_eq_true_2 by (cbn; set_solver). done.
Qed.

(** ** Witnesses *)

Definition blocked_row : BlockedCloudResource :=
  mk_blocked (Some "account") (Some "plan") (Some "subscription") TOTAL "us-east".
Definition blocked_world : World :=
  set_config {[ BLOCKED_JOBS_STOP_ENABLED := "true"; BLOCKED_RESOURCES_REGIONAL := "true" ]}
    (world_of (set_blocked [blocked_row] running_db) running_job).

Lemma blocked_filter_agrees_witness :
  Forall row_region_ok (blocked (db blocked_world))
  /\ match fst (blocked_jobs_filter blocked_world) with
     | Ok (Some q) => q running_job = true
     | _ => False
     end.
Proof.
  assert (Forall row_region_ok (blocked (db blocked_world))) as Hok.
  { constructor; [split; [discriminate | reflexivity] | constructor]. }
  split; [exact Hok|].
  pose proof (blocked_filter_agrees blocked_world running_job Hok) as H. cbv zeta in H.
  assert (fst (blocks (account_id running_job) (plan_id running_job) (subscription_id running_job)
                 (Crn.region <$> Crn.parse (instance_crn running_job)) blocked_world) = Ok true) as Hb
    by (vm_compute; reflexivity).
  rewrite Hb in H. destruct (fst (blocked_jobs_filter blocked_world)) as [[q|]|]; [by symmetry|done..].
Defined.

Definition unblock_event : EventPayload := fun field =>
  if bool_decide (field = "account_id") then FieldStr "a/account"
  else if bool_decide (field = "plan_id") then FieldStr "plan"
  else if bool_decide (field = "subscription_id") then FieldStr "subscription"
  else if bool_decide (field = "deleted") then FieldBool true else FieldNone.

Lemma handle_spec_witness :
  NoDup (blocked (db blocked_world))
  /\ exists w', handle (blocked_accounts_topics "prod") unblock_event "us-east"
                 "quantum.prod.blocked-account-plans.v1" blocked_world = (Ok tt, w')
     /\ blocked_row ∉ blocked (db w').
Proof.
  assert (NoDup (blocked (db blocked_world))) as Hnd by (apply NoDup_singleton).
  split; [exact Hnd|].
  pose proof (handle_spec (blocked_accounts_topics "prod") unblock_event "us-east"
                "quantum.prod.blocked-account-plans.v1" blocked_world Hnd) as H.
  assert (event_row (blocked_accounts_topics "prod") unblock_event "us-east"
            "quantum.prod.blocked-account-plans.v1" = Some (blocked_row, true)) as He
    by (vm_compute; reflexivity).
  rewrite He in H. destruct H as (w' & Hrun & _ & Hin & _).
  exists w'. split; [exact Hrun|]. intros Hr. apply Hin in Hr as [_ Hr]. by apply Hr.
Defined.
