(* ===== verification/Schedule.v ===== *)
(** * Scheduling ([scheduler/schedule.py])

    The submitter and the canceller of Fleets jobs behind their breakers, the fleet deleter,
    the fair share and the execution timeout. [get_runner] is a
    parameter: it answers the runner of a job or raises. *)

From S2P Require Import Prelude PyStr Domain Models World JobEvents BillingEvents JobTransitions CircuitBreaker FleetsBreakers Blocked.

Local Open Scope string_scope.
Local Open Scope list_scope.
Local Open Scope Z_scope.

(** [type(ex).__name__]; what no handler names is an [Exception]. *)
Definition exn_name (c : exn_type) : string :=
  match c with
  | InvalidJobTransitionException => "InvalidJobTransitionException"
  | RunnerError => "RunnerError"
  | RunnerRetryableError => "RunnerRetryableError"
  | CosRetryableError => "CosRetryableError"
  | FleetAppearedError => "FleetAppearedError"
  | ValueError => "ValueError"
  | KeyError => "KeyError"
  | TypeError => "TypeError"
  | AttributeError => "AttributeError"
  | RuntimeError => "RuntimeError"
  | BackgroundExecutorNotInitializedError => "BackgroundExecutorNotInitializedError"
  | DoesNotExist => "DoesNotExist"
  | OperationalError => "OperationalError"
  | InterfaceError => "InterfaceError"
  | RetryableError => "RetryableError"
  | RuntimeApiError => "RuntimeApiError"
  | ValidationError => "ValidationError"
  | InvalidEventError => "InvalidEventError"
  | InvalidFunctionSizesError => "InvalidFunctionSizesError"
  | FunctionNotFoundException => "FunctionNotFoundException"
  | FunctionDisabledException => "FunctionDisabledException"
  | FunctionConfigurationException => "FunctionConfigurationException"
  | CustomFunctionNotEntitledException => "CustomFunctionNotEntitledException"
  | ActiveJobLimitExceeded => "ActiveJobLimitExceeded"
  | EngineUnavailableException => "EngineUnavailableException"
  | JobNotFoundException => "JobNotFoundException"
  | MemoryError => "MemoryError"
  | OSError => "OSError"
  | FileNotFoundError => "FileNotFoundError"
  | FileExistsError => "FileExistsError"
  | IsADirectoryError => "IsADirectoryError"
  | NotADirectoryError => "NotADirectoryError"
  | ClientError => "ClientError"
  | FileNotFoundException => "FileNotFoundException"
  | RuntimeInvalidStateError => "RuntimeInvalidStateError"
  | RecursionError => "RecursionError"
  | RequestException => "RequestException"
  | KubernetesNotFoundError => "NotFoundError"
  | ResourceNotFoundError => "ResourceNotFoundError"
  | NotImplementedError => "NotImplementedError"
  | ApiException => "ApiException"
  | MaxRetryError => "MaxRetryError"
  | ReadTimeoutError => "ReadTimeoutError"
  | ProtocolError => "ProtocolError"
  | BotoConnectionError => "ConnectionError"
  | BotoHTTPClientError => "HTTPClientError"
  | TarError => "TarError"
  | TimeoutError => "TimeoutError"
  | UnicodeDecodeError => "UnicodeDecodeError"
  | UnicodeEncodeError => "UnicodeEncodeError"
  | IsolationError => "IsolationError"
  | SchemaError => "SchemaError"
  | UnsupportedSchemaError => "UnsupportedSchemaError"
  | InvalidArgumentsError => "InvalidArgumentsError"
  | InvalidArgumentsException => "InvalidArgumentsException"
  | PermissionException => "PermissionException"
  | IndexError => "IndexError"
  | ProviderNotFoundException => "ProviderNotFoundException"
  | InvalidAccessException => "InvalidAccessException"
  | RuntimeFunctionsException => "RuntimeFunctionsException"
  | RuntimeFunctionsUnavailable => "RuntimeFunctionsUnavailable"
  | KafkaException => "KafkaException"
  | UnroutableRegionError => "UnroutableRegionError"
  | BufferError => "BufferError"
  | DRFValidationError => "ValidationError"
  | AuthenticationFailed => "AuthenticationFailed"
  | ServiceUnavailable => "ServiceUnavailable"
  | NotFoundError => "NotFoundError"
  | RequestDataTooBig => "RequestDataTooBig"
  | BadSignature => "BadSignature"
  | OtherException => "Exception"
  end.

Definition paused_by_breaker (what : string) : exn :=
  mk_exn RunnerRetryableError (what +:+ " are paused by the circuit breaker").

(** ** Fleets *)

Section fleets.
Context (svc : JobTransitionService).
Context (get_runner : Job -> outcome AbstractRunner).

Definition cancel_orphan_fleet (r : AbstractRunner) (c : JobEventContext) : Py unit :=
  job <- get_self ;;
  try_except (runner_stop r ;;; ret tt)
    (fun ex =>
       if isinstance ex RunnerRetryableError || isinstance ex RunnerError then
         Some (add_error_event (id job) SCHEDULER c "FLEET_LEFT_RUNNING"
                 ("Fleet " +:+ default "None" (fleet_id job) +:+ " was created but could not be cancelled")
                 (exn_name (exn_class ex)) (exn_str ex) ;;;
               ret tt)
       else None).

(** What [submit] does when Code Engine refused the job. *)
Definition submission_failed (c : JobEventContext) (ex : exn) : Py unit :=
  job <- get_self ;;
  add_error_event (id job) SCHEDULER c "FLEET_SUBMIT_FAILED"
    "The job could not be submitted to Code Engine" (exn_name (exn_class ex)) (exn_str ex) ;;;
  update_fields [F_env_vars "{}"] ;;;
  try_except (to_failed SCHEDULER c [] ;;; ret tt)
    (fun refused => if isinstance refused InvalidJobTransitionException
                    then Some (ret tt) else None).

Definition submit (c : JobEventContext) : Py unit :=
  job <- get_self ;;
  paused <- fleets_paused (ce_region job) ;;
  if paused : bool then raise (paused_by_breaker "Fleets submits")
  else
    cos <- get_breaker Cos (ce_region job) ;;
    code_engine <- get_breaker CodeEngine (ce_region job) ;;
    r <- of_outcome (get_runner job) ;;
    try_except
      (runner_submit r ;;;
       record_success cos ;;;
       record_success code_engine)
      (fun ex =>
         if isinstance ex CosRetryableError then Some (record_failure cos ;;; raise ex)
         else if isinstance ex RunnerRetryableError then Some (record_failure code_engine ;;; raise ex)
         else if isinstance ex RunnerError then Some (submission_failed c ex ;;; raise ex)
         else None) ;;;
    job <- get_self ;;
    update_fields [F_fleet_id (fleet_id job); F_env_vars "{}"] ;;;
    try_except (queued_to_pending svc SCHEDULER c [] ;;; ret tt)
      (fun refused =>
         if isinstance refused InvalidJobTransitionException
         then Some (cancel_orphan_fleet r c ;;; raise refused) else None).

(** [FleetsJobCanceller.cancel]. *)
Definition cancel (c : JobEventContext) : Py bool :=
  job <- get_self ;;
  if negb (truthy (fleet_id job)) || bool_decide (program job = None) then ret false
  else
    breaker <- get_breaker CodeEngine (ce_region job) ;;
    open_ <- is_open breaker ;;
    if open_ : bool then raise (paused_by_breaker "Fleets cancels")
    else
      written <- try_except
        (stop svc (lazy_runner (get_runner job)) SCHEDULER c)
        (fun ex =>
           if isinstance ex FleetAppearedError then Some (record_success breaker ;;; raise ex)
           else if isinstance ex RunnerRetryableError then Some (record_failure breaker ;;; raise ex)
           else if isinstance ex InvalidJobTransitionException then Some (record_success breaker ;;; raise ex)
           else None) ;;
      record_success breaker ;;;
      modify_sched (fun s => set_refused (refused_cancel_warned s ∖ {[id job]}) s) ;;;
      ret (bool_decide (written = STOPPING)).

Definition canceller_paused (region : option string) : Py bool := region_paused CodeEngine region.

(** [FleetsFleetDeleter]. *)
Definition fleet_delete (job : Job) : Py bool :=
  paused <- region_paused Cleanup (fleet_region job) ;;
  if paused : bool then raise (paused_by_breaker "Fleet deletes")
  else
    r <- of_outcome (get_runner job) ;;
    on_job job (runner_free_resources r).

Definition record_cycle (region : option string) (answered : bool) : Py unit :=
  breaker <- get_breaker Cleanup region ;;
  if answered then record_success breaker else record_failure breaker.
End fleets.

Definition REFUSED_CANCEL_LIMIT : nat := 10000.

Definition first_cancel_refusal (job_id : JobId) : Py bool :=
  warned <- gets (fun w => refused_cancel_warned (sched w)) ;;
  if bool_decide (job_id ∈ warned) then ret false
  else
    (if bool_decide (REFUSED_CANCEL_LIMIT <= size warned)%nat
     then modify_sched (set_refused ∅) else ret tt) ;;;
    modify_sched (fun s => set_refused (refused_cancel_warned s ∪ {[job_id]}) s) ;;;
    ret true.

(** ** Fair share *)

Definition rows (d : DB) : list Job := (map_to_list (jobs d)).*2.

(** How many jobs of an author hold a slot: fillers are not user demand. *)
Definition running_count (r : Runner) (author_id : nat) (js : list Job) : nat :=
  length (filter (fun j => bool_decide (status j ∈ RUNNING_STATUSES) && bool_decide (runner j = r)
                           && negb (filler j) && bool_decide (user_id (author j) = author_id)) js).

(** [RowNumber() over (partition by author order by created)]. *)
Definition rank (l : list Job) (pos : nat) (j : Job) : nat :=
  S (length (filter (fun j' => user_id (author j') = user_id (author j)) (take pos l))).

Definition ranked (l : list Job) : list (nat * Job) := imap (fun pos j => (rank l pos j, j)) l.

Definition fair_share (slots : nat) (per_call : nat) (jobs_per_user : Z) (running : nat -> nat)
    (queued : list Job) : list Job :=
  let by_age := order_by created queued in
  let candidates := filter (fun p => (p.1 <= per_call)%nat) (ranked by_age) in
  let in_rounds := order_by (fun p => Z.of_nat p.1) candidates in
  take slots
    (map snd (filter (fun p => Z.of_nat p.1 <= jobs_per_user - Z.of_nat (running (user_id (author p.2))))
                in_rounds)).

Definition get_jobs_to_schedule_fair_share (slots : nat) (want_gpu : bool) (r : Runner)
    (jobs_per_user : Z) : Py (list Job) :=
  d <- get_db ;;
  let running author_id := running_count r author_id (rows d) in
  blocked <- (if bool_decide (r = FLEETS) then blocked_jobs_filter else ret None) ;;
  let at_max author_id := (0 <? Z.of_nat (running author_id))
                          && (jobs_per_user <=? Z.of_nat (running author_id)) in
  let queued := filter (fun j =>
      bool_decide (status j = QUEUED) && bool_decide (gpu j = want_gpu) && bool_decide (runner j = r)
      && negb (at_max (user_id (author j)))
      && negb (match blocked with Some q => q j | None => false end)) (rows d) in
  ret (fair_share slots (if bool_decide (r = RAY) then 1 else slots) jobs_per_user running queued).

(** ** Execution timeout *)

Definition HOUR : Z := 3600 * MICROS.
Definition PROGRAM_TIMEOUT_HOURS : string := "scheduler.program_timeout_hours".

Definition program_timeout_hours (PROGRAM_TIMEOUT : Z) : Py Z :=
  Config_get_int PROGRAM_TIMEOUT_HOURS PROGRAM_TIMEOUT.

Definition check_job_timeout (PROGRAM_TIMEOUT : Z) (job : Job) (first_running : option Z) : Py bool :=
  match first_running with
  | Some started =>
      if bool_decide (status job ∈ RUNNING_STATUSES) then
        hours <- program_timeout_hours PROGRAM_TIMEOUT ;;
        t <- now ;;
        ret (started + hours * HOUR <? t)
      else ret false
  | None => ret false
  end.

(** ** Lemmas on the fair share *)

Section fair_share.

(** Round first, then age. *)
Definition before (p q : nat * Job) : Prop :=
  (p.1 < q.1)%nat \/ (p.1 = q.1 /\ created p.2 <= created q.2).

Definition author_is (a : nat) (j : Job) : bool := bool_decide (user_id (author j) = a).

Lemma ranked_snoc l x :
  ranked (l ++ [x]) = ranked l ++ [(S (length (filter (author_is (user_id (author x))) l)), x)].
Proof.
  unfold ranked. rewrite imap_app. f_equal.
  - apply imap_ext. intros i y Hi. unfold rank.
    rewrite take_app_le; [done|]. apply lookup_lt_Some in Hi. lia.
  - cbn. rewrite Nat.add_0_r. f_equal. f_equal. unfold rank. f_equal.
    rewrite take_app_length. f_equal. apply list_filter_iff. intros y.
    unfold author_is. by rewrite bool_decide_spec.
Qed.

(** The ranks of an author are 1, 2, 3, ... *)
Lemma author_ranks a l :
  (filter (fun p => author_is a p.2) (ranked l)).*1 = seq 1 (length (filter (author_is a) l)).
Proof.
  induction l as [|x l IH] using rev_ind; [done|].
  rewrite ranked_snoc, !filter_app, fmap_app, IH, length_app, seq_app. f_equal.
  rewrite !filter_cons, !filter_nil. cbn [snd].
  destruct (decide (author_is a x)) as [Ha|Ha]; [|done].
  unfold author_is in Ha. apply bool_decide_unpack in Ha as <-. done.
Qed.

Lemma ranked_snd l : (ranked l).*2 = l.
Proof.
  induction l as [|x l IH] using rev_ind; [done|]. by rewrite ranked_snoc, fmap_app, IH.
Qed.

Lemma seq_filter_le n k : (length (filter (fun i => (i <= k)%nat) (seq 1 n)) <= k)%nat.
Proof.
  transitivity (length (seq 1 k)); [|by rewrite length_seq].
  apply submseteq_length, NoDup_submseteq.
  - apply NoDup_filter, NoDup_seq.
  - intros i [Hi Hin]%list_elem_of_filter. apply elem_of_seq in Hin. apply elem_of_seq. lia.
Qed.

(** At most [k] jobs of an author have a rank of at most [k]. *)
Lemma author_rank_le a k l :
  (length (filter (fun p => author_is a p.2 /\ (p.1 <= k)%nat) (ranked l)) <= k)%nat.
Proof.
  transitivity (length (filter (fun i => (i <= k)%nat)
                  (filter (fun p => author_is a p.2) (ranked l)).*1)).
  - rewrite filter_of_fmap, length_fmap, list_filter_filter.
    apply Nat.eq_le_incl. f_equal. apply list_filter_iff. intros p. cbn. tauto.
  - rewrite author_ranks. apply seq_filter_le.
Qed.

(** A stable sort by rank of jobs in order of age is in rounds, by age in each. *)
Lemma insert_by_before (p : nat * Job) l :
  StronglySorted before l -> Forall (fun q => created p.2 <= created q.2) l ->
  StronglySorted before (insert_by (fun q => Z.of_nat q.1) p l).
Proof.
  induction 1 as [|q l Hl IH Hq]; intros Hp; cbn; [by repeat constructor|].
  apply Forall_cons in Hp as [Hpq Hp]. destruct (Z.leb_spec (Z.of_nat p.1) (Z.of_nat q.1)).
  - constructor; [by constructor|]. constructor; [unfold before; lia|].
    rewrite Forall_forall in Hq |- *. intros q' Hin. specialize (Hq q' Hin).
    rewrite Forall_forall in Hp. specialize (Hp q' Hin). unfold before in *. lia.
  - constructor; [by apply IH|]. rewrite insert_by_Permutation.
    constructor; [unfold before; lia|done].
Qed.

Lemma order_by_before l :
  StronglySorted (fun p q : nat * Job => created p.2 <= created q.2) l ->
  StronglySorted before (order_by (fun p => Z.of_nat p.1) l).
Proof.
  induction 1 as [|p l Hl IH Hp]; [constructor|].
  apply insert_by_before; [exact IH|].
  by rewrite (order_by_Permutation (fun p : nat * Job => Z.of_nat p.1) l).
Qed.

Lemma StronglySorted_filter {A} (R : A -> A -> Prop) (P : A -> Prop) `{forall x, Decision (P x)} l :
  StronglySorted R l -> StronglySorted R (filter P l).
Proof.
  induction 1 as [|x l Hl IH Hx]; [constructor|]. rewrite filter_cons. case_decide; [|done].
  constructor; [done|]. rewrite Forall_forall in Hx |- *.
  intros y [_ Hy]%list_elem_of_filter. by apply Hx.
Qed.

Lemma StronglySorted_take {A} (R : A -> A -> Prop) n l :
  StronglySorted R l -> StronglySorted R (take n l).
Proof.
  intros H. revert n. induction H as [|x l Hl IH Hx]; intros [|n]; cbn; try constructor; [done|].
  by apply Forall_take.
Qed.

Lemma StronglySorted_app_inv {A} (R : A -> A -> Prop) l k x y :
  StronglySorted R (l ++ k) -> x ∈ l -> y ∈ k -> R x y.
Proof.
  induction l as [|z l IH]; [set_solver|]. cbn. intros Hs Hx Hy.
  inversion Hs as [|?? Hs' Hz]; subst. apply elem_of_cons in Hx as [->|Hx]; [|by apply IH].
  rewrite Forall_forall in Hz. apply Hz. set_solver.
Qed.

Lemma StronglySorted_ranked (l : list Job) :
  StronglySorted (fun i j => created i <= created j) l ->
  StronglySorted (fun p q : nat * Job => created p.2 <= created q.2) (ranked l).
Proof.
  rewrite <- (ranked_snd l) at 1. generalize (ranked l) as k. clear l.
  induction k as [|p k IH]; cbn; intros H; [constructor|]. inversion H as [|?? Hs Hp]; subst.
  constructor; [by apply IH|]. by rewrite Forall_fmap in Hp.
Qed.

Context (slots per_call : nat) (jobs_per_user : Z) (running : nat -> nat) (queued : list Job).

(** Whether a ranked job is within the limits of the call and of its user. *)
Definition within (p : nat * Job) : Prop :=
  (p.1 <= per_call)%nat /\ Z.of_nat p.1 <= jobs_per_user - Z.of_nat (running (user_id (author p.2))).

Definition eligible : list (nat * Job) :=
  filter (fun p => Z.of_nat p.1 <= jobs_per_user - Z.of_nat (running (user_id (author p.2))))
       (order_by (fun p => Z.of_nat p.1)
          (filter (fun p => (p.1 <= per_call)%nat) (ranked (order_by created queued)))).

Lemma fair_share_picks :
  fair_share slots per_call jobs_per_user running queued = map snd (take slots eligible).
Proof. unfold fair_share. by rewrite firstn_map. Qed.

Lemma elem_of_eligible p : p ∈ eligible <-> p ∈ ranked (order_by created queued) /\ within p.
Proof.
  destruct p as [rk j]. unfold eligible, within.
  rewrite list_elem_of_filter, elem_of_order_by, list_elem_of_filter. cbn. tauto.
Qed.

Lemma eligible_before : StronglySorted before eligible.
Proof.
  unfold eligible.
  apply StronglySorted_filter, order_by_before, StronglySorted_filter, StronglySorted_ranked.
  apply order_by_sorted.
Qed.
End fair_share.
