(* ===== verification/ScheduleProps.v ===== *)
(** * The correctness of scheduling: fair share, submitter, canceller *)

From S2P Require Import Prelude PyStr Domain Models World JobEvents BillingEvents JobTransitions TransitionSpec Samples TransitionProps CircuitBreaker FleetsBreakers Blocked Schedule.

Local Open Scope string_scope.
Local Open Scope list_scope.
Local Open Scope Z_scope.

(** ** Fair share *)

Lemma filter_submseteq {A} (P : A -> Prop) `{forall x, Decision (P x)} (l : list A) : filter P l ⊆+ l.
Proof. apply sublist_submseteq, sublist_filter. Qed.

Lemma filter_submseteq_mono {A} (P : A -> Prop) `{forall x, Decision (P x)} (l k : list A) :
  l ⊆+ k -> filter P l ⊆+ filter P k.
Proof.
  intros [k' Hp]%submseteq_Permutation. rewrite Hp, filter_app. apply submseteq_inserts_r. done.
Qed.

Lemma fair_share_author slots per_call jpu running queued a :
  (length (filter (author_is a) (fair_share slots per_call jpu running queued))
   <= min per_call (Z.to_nat (jpu - Z.of_nat (running a))))%nat.
Proof.
  set (k := min per_call (Z.to_nat (jpu - Z.of_nat (running a)))).
  rewrite fair_share_picks. change (map snd ?l) with (snd <$> l).
  rewrite filter_of_fmap, length_fmap.
  etransitivity; [|apply (author_rank_le a k (order_by created queued))].
  transitivity (length (filter (fun p => author_is a p.2)
                  (eligible per_call jpu running queued))).
  { apply submseteq_length, filter_submseteq_mono, sublist_submseteq, sublist_take. }
  transitivity (length (filter (fun p => author_is a p.2 /\ (p.1 <= k)%nat)
                  (eligible per_call jpu running queued))).
  { apply Nat.eq_le_incl. f_equal. apply filter_ext_in. intros p Hin.
    split; [|by intros []]. intros Ha. split; [done|].
    apply elem_of_eligible in Hin as [_ [H1 H2]].
    unfold author_is in Ha. apply bool_decide_unpack in Ha. rewrite Ha in H2. lia. }
  apply submseteq_length, filter_submseteq_mono.
  unfold eligible. etransitivity; [apply filter_submseteq|].
  rewrite (order_by_Permutation _ _). apply filter_submseteq.
Qed.

Lemma fair_share_submseteq slots per_call jpu running queued :
  fair_share slots per_call jpu running queued ⊆+ queued.
Proof.
  rewrite fair_share_picks. transitivity (order_by created queued);
    [|by rewrite order_by_Permutation].
  rewrite <- (ranked_snd (order_by created queued)).
  change (map snd ?l) with (snd <$> l). apply fmap_submseteq. etransitivity; [apply sublist_submseteq, sublist_take|].
  unfold eligible. etransitivity; [apply filter_submseteq|].
  rewrite (order_by_Permutation (fun p : nat * Job => Z.of_nat p.1) _). apply filter_submseteq.
Qed.

(** C7: what the fair share picks are queued jobs of the asked compute type and runner, none
    of them of a blocked resource, no more than the free slots, each once; a user gets at
    most what their limit leaves after the jobs they already run, and a Ray user one. *)
Theorem fair_share_limits slots want_gpu r jpu w res w' :
  get_jobs_to_schedule_fair_share slots want_gpu r jpu w = (Ok res, w') ->
  db w' = db w
  /\ (length res <= slots)%nat
  /\ res ⊆+ rows (db w)
  /\ (forall j, j ∈ res -> status j = QUEUED /\ gpu j = want_gpu /\ runner j = r
        /\ (r = FLEETS -> forall q, fst (blocked_jobs_filter w) = Ok (Some q) -> q j = false))
  /\ (forall a, Z.of_nat (length (filter (author_is a) res))
        <= Z.max 0 (jpu - Z.of_nat (running_count r a (rows (db w)))))
  /\ (r = RAY -> forall a, (length (filter (author_is a) res) <= 1)%nat).
Proof.
  unfold get_jobs_to_schedule_fair_share. intros H.
  apply bind_ok_inv in H as (d & w0 & Hd & H). injection Hd as <- <-.
  apply bind_ok_inv in H as (blocked & w1 & Hb & H). injection H as <- <-.
  set (queued := filter _ (rows (db w))).
  set (per_call := if bool_decide (r = RAY) then 1%nat else slots).
  set (running := fun a => running_count r a (rows (db w))).
  pose proof (fair_share_submseteq slots per_call jpu running queued) as Hsub.
  split_and!.
  - case_bool_decide; [|by injection Hb as _ <-].
    assert (rel same_db blocked_jobs_filter) as Hsame by (unfold blocked_jobs_filter; rel_auto).
    specialize (Hsame w). by rewrite Hb in Hsame.
  - rewrite fair_share_picks. change (map snd ?l) with (snd <$> l).
    rewrite length_fmap, length_take. lia.
  - etransitivity; [exact Hsub | apply filter_submseteq].
  - intros j Hj. assert (j ∈ queued) as Hq by (by eapply elem_of_submseteq).
    apply list_elem_of_filter in Hq as [Hq _].
    apply Is_true_true in Hq. rewrite !andb_true_iff in Hq.
    destruct Hq as [[[[H1 H2] H3] _] H4].
    apply bool_decide_eq_true in H1, H2, H3. split_and!; [done..|].
    intros -> q Hfilter. rewrite bool_decide_eq_true_2 in Hb by done. rewrite Hb in Hfilter.
    injection Hfilter as ->. by apply negb_true_iff in H4.
  - intros a. pose proof (fair_share_author slots per_call jpu running queued a) as Ha.
    fold (running a). lia.
  - intros -> a. pose proof (fair_share_author slots per_call jpu running queued a) as Ha.
    unfold per_call in Ha. rewrite bool_decide_eq_true_2 in Ha by done.
    unfold per_call. rewrite bool_decide_eq_true_2 by done. lia.
Qed.

(** the picks go in rounds: the oldest job of every user before the second of any, and
    in a round the jobs that waited longest first; and a job within the limits is left out
    only when every slot is taken by jobs that go before it. *)
Theorem fair_share_rounds slots per_call jpu running queued :
  exists picked,
    fair_share slots per_call jpu running queued = map snd picked
    /\ StronglySorted before picked
    /\ (forall p, p ∈ picked ->
          p ∈ ranked (order_by created queued) /\ within per_call jpu running p)
    /\ (forall p, p ∈ ranked (order_by created queued) -> within per_call jpu running p ->
          p ∈ picked \/ (length picked = slots /\ forall q, q ∈ picked -> before q p)).
Proof.
  set (el := eligible per_call jpu running queued). exists (take slots el).
  split; [apply fair_share_picks|]. split; [apply StronglySorted_take, eligible_before|]. split.
  - intros p Hp. apply elem_of_eligible. by eapply elem_of_sublist, sublist_take.
  - intros p Hp Hw. assert (p ∈ el) as Hel by (apply elem_of_eligible; done).
    rewrite <- (take_drop slots el) in Hel. apply elem_of_app in Hel as [?|Hd]; [by left|].
    right. split.
    + rewrite length_take. assert (slots < length el)%nat; [|lia].
      apply Nat.lt_nge. intros Hge. rewrite drop_ge in Hd by done. by apply not_elem_of_nil in Hd.
    + intros q Hq. eapply (StronglySorted_app_inv before (take slots el) (drop slots el)); [|done..].
      rewrite take_drop. apply eligible_before.
Qed.

(** ** The submitter *)

(** [submit] past its guard. *)
Definition submit_rest (svc : JobTransitionService) (r : AbstractRunner) (region : option string)
    (c : JobEventContext) : Py unit :=
  try_except
    (runner_submit r ;;;
     record_success (region_breaker Cos region) ;;;
     record_success (region_breaker CodeEngine region))
    (fun ex =>
       if isinstance ex CosRetryableError
       then Some (record_failure (region_breaker Cos region) ;;; raise ex)
       else if isinstance ex RunnerRetryableError
       then Some (record_failure (region_breaker CodeEngine region) ;;; raise ex)
       else if isinstance ex RunnerError then Some (submission_failed c ex ;;; raise ex)
       else None) ;;;
  job <- get_self ;;
  update_fields [F_fleet_id (fleet_id job); F_env_vars "{}"] ;;;
  try_except (queued_to_pending svc SCHEDULER c [] ;;; ret tt)
    (fun refused =>
       if isinstance refused InvalidJobTransitionException
       then Some (cancel_orphan_fleet r c ;;; raise refused) else None).

Lemma get_breaker_run dep region w :
  exists w', get_breaker dep region w = (Ok (region_breaker dep region), w')
    /\ db w' = db w /\ self w' = self w /\ config w' = config w
    /\ forall dep' region', read_breaker (region_breaker dep' region') w'
                          = read_breaker (region_breaker dep' region') w.
Proof.
  destruct (get_breaker_reads dep region dep region w) as (w' & Hrun & _ & Hc & _ & _ & Hdb & Hself).
  exists w'. split_and!; try done. intros dep' region'.
  destruct (get_breaker_reads dep region dep' region' w) as (w2 & Hrun2 & Hread & _).
  rewrite Hrun in Hrun2. by injection Hrun2 as <-.
Qed.

Lemma submit_unpaused svc gr r c w w0 :
  fleets_paused (ce_region (self w)) w = (Ok false, w0) -> gr (self w) = Ok r ->
  exists w2, db w2 = db w /\ self w2 = self w
    /\ submit svc gr c w = submit_rest svc r (ce_region (self w)) c w2
    /\ config w2 = config w0
    /\ forall dep region, read_breaker (region_breaker dep region) w2
                        = read_breaker (region_breaker dep region) w0.
Proof.
  intros Hp Hr. unfold submit, get_self, gets. unfold bind at 1.
  rewrite (bind_ok _ _ _ _ _ Hp).
  pose proof (same_db_fleets_paused (ce_region (self w)) w) as Hdb.
  pose proof (same_self_fleets_paused (ce_region (self w)) w) as Hself.
  rewrite Hp in Hdb, Hself. unfold same_db, same_self in Hdb, Hself. cbn [snd] in Hdb, Hself.
  destruct (get_breaker_run Cos (ce_region (self w)) w0) as (w1 & H1 & Hdb1 & Hself1 & Hc1 & Hr1).
  destruct (get_breaker_run CodeEngine (ce_region (self w)) w1) as (w2 & H2 & Hdb2 & Hself2 & Hc2 & Hr2).
  exists w2. split_and!; try congruence.
  - rewrite (bind_ok _ _ _ _ _ H1), (bind_ok _ _ _ _ _ H2), Hr. reflexivity.
Qed.

(** A submit that Code Engine accepts: the runner assigns the fleet to the instance, and
    nothing else. *)
Definition creates_fleet (r : AbstractRunner) (f : string) : Prop :=
  forall w, exists w' o, runner_submit r w = (Ok o, w')
    /\ db w' = db w /\ self w' = setattr (F_fleet_id (Some f)) (self w).

Lemma queued_to_pending_run svc c w row :
  ServiceLaws svc -> BestEffort svc ->
  jobs (db w) !! id (self w) = Some row ->
  (status row = QUEUED /\ exists o w', queued_to_pending svc SCHEDULER c [] w = (o, w')
     /\ db w' = db (transitioned PENDING SCHEDULER c [] w row)
     /\ match o with Ok _ => True | Raise e => mirror_may_raise e = true end)
  \/ (status row <> QUEUED
      /\ queued_to_pending svc SCHEDULER c [] w = (Raise (invalid_transition (id (self w))), w)).
Proof.
  intros Hl Hb Hrow.
  destruct (decide (status row = QUEUED)) as [Hq|Hq]; [left|right]; (split; [done|]);
    unfold queued_to_pending, atomic; unfold bind at 1.
  - rewrite (change_status_ok PENDING SCHEDULER c [] w row Hrow) by
      (rewrite Hq; apply (bool_decide_unpack _); reflexivity).
    set (w1 := transitioned _ _ _ _ _ _). unfold bind.
    pose proof (mirror_same_db w1) as Hm.
    destruct (workload_mirror svc w1) as [[[]|e] w2] eqn:E; do 2 eexists; (split; [reflexivity|]);
      (split; [exact Hm|]); [done|by eapply mirror_raises].
  - rewrite (change_status_invalid PENDING SCHEDULER c [] w row Hrow); [by destruct w|].
    intros Hin. apply (bool_decide_eq_true_2 (PENDING ∈ VALID_TRANSITIONS (status row))) in Hin.
    by destruct (status row).
Qed.

(** The rows of the jobs. *)
Definition same_jobs (w w' : World) : Prop := jobs (db w') = jobs (db w).
#[local] Instance same_jobs_preorder : PreOrder same_jobs.
Proof. split; unfold same_jobs; [done | congruence]. Qed.
Lemma same_jobs_same_db {A} (m : Py A) : rel same_db m -> rel same_jobs m.
Proof. apply rel_mono. unfold same_db, same_jobs. by intros ?? ->. Qed.
Lemma same_jobs_error_event j o c a b d e : rel same_jobs (add_error_event j o c a b d e).
Proof. done. Qed.
#[local] Hint Resolve same_jobs_error_event : pyrel.

Lemma same_jobs_cancel_orphan r c :
  rel same_db (runner_stop r) -> rel same_jobs (cancel_orphan_fleet r c).
Proof.
  intros Hs%same_jobs_same_db. unfold cancel_orphan_fleet.
  assert (rel same_jobs get_self) by done. rel_auto.
Qed.

Lemma VALID_TRANSITIONS_pending s : PENDING ∈ VALID_TRANSITIONS s <-> s = QUEUED.
Proof.
  split; [|intros ->; apply (bool_decide_unpack _); reflexivity].
  intros H%(bool_decide_eq_true_2 (PENDING ∈ VALID_TRANSITIONS s)). by destruct s.
Qed.

(** C8: a fleet that was created is never orphaned: whatever happens after Code Engine
    accepted the submit, and even when the row left QUEUED meanwhile, the row ends up
    pointing at its fleet, with the forwarded environment wiped; a row that was still QUEUED
    becomes PENDING, any other keeps its status and the caller is told. *)
Theorem submit_keeps_fleet svc gr r f c w w0 row :
  ServiceLaws svc -> BestEffort svc ->
  fleets_paused (ce_region (self w)) w = (Ok false, w0) ->
  gr (self w) = Ok r -> creates_fleet r f -> rel same_db (runner_stop r) ->
  jobs (db w) !! id (self w) = Some row ->
  exists row',
    jobs (db (snd (submit svc gr c w))) !! id (self w) = Some row'
    /\ fleet_id row' = Some f /\ env_vars row' = "{}"
    /\ status row' = (if bool_decide (status row = QUEUED) then PENDING else status row)
    /\ match fst (submit svc gr c w) with
       | Ok _ => status row = QUEUED
       | Raise e => status row <> QUEUED \/ mirror_may_raise e = true
       end.
Proof.
  intros Hl Hb Hp Hr Hf Hstop Hrow.
  destruct (submit_unpaused svc gr r c w w0 Hp Hr) as (w2 & Hdb & Hself & -> & _ & _).
  destruct (submit_rest svc r (ce_region (self w)) c w2) as [out w'] eqn:E. cbn [fst snd].
  revert E. unfold submit_rest. destruct (Hf w2) as (w3 & o & Hrun & Hdb3 & Hself3).
  set (cos := region_breaker Cos (ce_region (self w))).
  set (ce := region_breaker CodeEngine (ce_region (self w))).
  assert (exists w5, db w5 = db w /\ self w5 = setattr (F_fleet_id (Some f)) (self w)
    /\ (runner_submit r ;;; record_success cos ;;; record_success ce) w2 = (Ok tt, w5)) as
    (w5 & Hdb5 & Hself5 & Hsub).
  { rewrite (bind_ok _ _ _ _ _ Hrun), (bind_ok _ _ _ _ _ (record_success_run cos w3)).
    eexists. split; [|split; [|reflexivity]]; rewrite !write_db || rewrite !write_self; congruence. }
  rewrite (bind_ok _ _ _ _ _ (try_except_ok _ _ _ _ _ Hsub)).
  unfold get_self, gets. unfold bind at 1.
  assert (jobs (db w5) !! id (self w5) = Some row) as Hrow5 by (by rewrite Hdb5, Hself5).
  rewrite (bind_ok _ _ _ _ _ (update_fields_run [F_fleet_id (fleet_id (self w5)); F_env_vars "{}"] w5 row Hrow5)).
  set (row6 := bump_version _). set (w6 := set_self _ _).
  assert (fleet_id row6 = Some f /\ env_vars row6 = "{}" /\ status row6 = status row) as
    (Hf6 & He6 & Hs6) by (subst row6; cbn; by rewrite Hself5).
  assert (id (self w6) = id (self w)) as Hid by (cbn; by rewrite Hself5).
  assert (jobs (db w6) !! id (self w6) = Some row6) as Hrow6.
  { rewrite Hid. cbn. rewrite Hself5. apply lookup_insert_eq. }
  clearbody w6.
  destruct (queued_to_pending_run svc c w6 row6 Hl Hb Hrow6) as
    [(Hq & o7 & w7 & Hrun7 & Hdb7 & Ho7)|(Hq & Hrun7)].
  - assert (jobs (db w7) !! id (self w) = Some (transition_row PENDING [] w6 row6)) as Hrow7.
    { rewrite Hdb7, <- Hid. apply lookup_insert_eq. }
    assert (fleet_id (transition_row PENDING [] w6 row6) = Some f
      /\ env_vars (transition_row PENDING [] w6 row6) = "{}"
      /\ status (transition_row PENDING [] w6 row6) = PENDING) as (? & ? & ?) by done.
    rewrite Hs6 in Hq. rewrite bool_decide_eq_true_2 by done.
    unfold try_except, bind. rewrite Hrun7. destruct o7 as [e7|e7].
    + intros [= <- <-]. exists (transition_row PENDING [] w6 row6). split_and!; done.
    + assert (isinstance e7 InvalidJobTransitionException = false) as ->.
      { unfold mirror_may_raise, is_db_exception in Ho7. destruct e7 as [[] ?]; done. }
      intros [= <- <-]. exists (transition_row PENDING [] w6 row6). split_and!; try done. by right.
  - intros E. exists row6. rewrite Hs6 in Hq. rewrite bool_decide_eq_false_2 by done.
    revert E. unfold try_except. unfold bind at 1. rewrite Hrun7.
    change (isinstance (invalid_transition (id (self w6))) InvalidJobTransitionException) with true.
    pose proof (same_jobs_cancel_orphan r c Hstop w6) as Hj.
    unfold bind. destruct (cancel_orphan_fleet r c w6) as [[[]|e8] w8]; cbn [fst snd] in *;
      intros [= <- <-]; unfold same_jobs in Hj; rewrite Hj, <- Hid; split_and!; try done; by left.
Qed.

(** A submit that fails: nothing was created. *)
Definition refuses (r : AbstractRunner) (e : exn) : Prop :=
  forall w, runner_submit r w = (Raise e, w).

Lemma to_failed_ends o c w row :
  jobs (db w) !! id (self w) = Some row ->
  buildable (self w) (bool_decide (id (self w) ∈ mirrors (db w))) ->
  let w' := snd (to_failed o c [] w) in
  match fst (to_failed o c [] w) with
  | Ok _ => FAILED ∈ VALID_TRANSITIONS (status row)
       /\ jobs (db w') !! id (self w) = Some (transition_row FAILED [] w row)
       /\ (exists es, events (db w') = events (db w) ++ es)
  | Raise e => FAILED ∉ VALID_TRANSITIONS (status row)
       /\ e = invalid_transition (id (self w)) /\ db w' = db w
  end.
Proof.
  intros Hrow Hb. change (to_failed o c [] w) with (to_terminal FAILED o c [] w).
  assert (FAILED ∈ TERMINAL_STATUSES) as Ht by (apply (bool_decide_unpack _); reflexivity).
  destruct (settle_forms FAILED o c [] w Ht) as (fee & Hfee & ->).
  pose proof (settle_outcome FAILED o c [] fee w Ht Hfee) as H.
  destruct (decide (FAILED ∈ VALID_TRANSITIONS (status row))) as [Hv|Hv].
  - destruct (atomic _ w) as [[e|e] w']; cbn [fst snd].
    + destruct H as (row' & rows & Hrow' & _ & _ & Hj & He & _).
      rewrite Hrow in Hrow'. injection Hrow' as <-. rewrite Hj. split; [done|].
      split; [apply lookup_insert_eq | by eexists].
    + destruct H as [_ Hn]. exfalso. apply Hn. by exists row.
  - clear H. unfold atomic, bind. rewrite (change_status_invalid FAILED o c [] w row Hrow Hv).
    cbn [fst snd]. done.
Qed.

(** Writing one breaker leaves the others. *)
Lemma read_other_breaker dep region dep' region' b w :
  (dep, region) <> (dep', region') ->
  read_breaker (region_breaker dep' region') (write_breaker (region_breaker dep region) b w)
  = read_breaker (region_breaker dep' region') w.
Proof.
  intros Hne. cbn. destruct dep, dep'; cbn; try done; rewrite lookup_insert_ne; congruence.
Qed.

Lemma record_failure_others dep region dep' region' w :
  registered (region_breaker dep region) w ->
  exists w', record_failure (region_breaker dep region) w = (Ok tt, w')
    /\ db w' = db w
    /\ consecutive_failures (read_breaker (region_breaker dep' region') w')
       = consecutive_failures (read_breaker (region_breaker dep' region') w)
         + (if decide ((dep, region) = (dep', region')) then 1 else 0).
Proof.
  intros Hr. pose proof (record_failure_run _ w Hr) as H. cbv zeta in H.
  pose proof (same_db_record_failure _ (region_breaker_laws dep region) w) as Hdb.
  destruct (_ && _); rewrite H in *; (eexists; split; [reflexivity|]);
    (split; [exact Hdb|]); case_decide as Hd.
  - injection Hd as <- <-. by rewrite read_write.
  - rewrite read_other_breaker by done. rewrite read_ticks, read_other_breaker by done. lia.
  - injection Hd as <- <-. by rewrite read_write.
  - rewrite read_other_breaker by done. lia.
Qed.

(** when a dependency cannot be reached the job stays as it is, so it is QUEUED for a
    later tick: nothing is written, the caller gets the runner's error, and one failure is
    counted on the breaker of the dependency that failed (COS or Code Engine), in the job's
    region and nowhere else. *)
Theorem submit_unreachable svc gr r e c w w0 :
  fleets_paused (ce_region (self w)) w = (Ok false, w0) ->
  gr (self w) = Ok r -> refuses r e -> isinstance e RunnerRetryableError = true ->
  (forall dep, registered (region_breaker dep (ce_region (self w))) w0) ->
  exists w', submit svc gr c w = (Raise e, w') /\ db w' = db w
    /\ forall dep region,
         consecutive_failures (read_breaker (region_breaker dep region) w')
         = consecutive_failures (read_breaker (region_breaker dep region) w0)
           + (if decide ((if isinstance e CosRetryableError then Cos else CodeEngine,
                          ce_region (self w)) = (dep, region)) then 1 else 0).
Proof.
  intros Hp Hr Hf He Hreg.
  destruct (submit_unpaused svc gr r c w w0 Hp Hr) as (w2 & Hdb & Hself & -> & Hconf & Hreads).
  set (failed := if isinstance e CosRetryableError then Cos else CodeEngine).
  assert (registered (region_breaker failed (ce_region (self w))) w2) as Hreg2.
  { specialize (Hreg failed). unfold registered in *. by rewrite Hconf. }
  destruct (record_failure_others failed (ce_region (self w)) failed None w2 Hreg2)
    as (w3 & Hrun & Hdb3 & _).
  exists w3. split; [|split; [congruence|]].
  - unfold submit_rest. apply bind_raise.
    assert ((runner_submit r ;;; record_success (region_breaker Cos (ce_region (self w))) ;;;
      record_success (region_breaker CodeEngine (ce_region (self w)))) w2 = (Raise e, w2)) as Hraise
      by (apply bind_raise, Hf).
    subst failed. destruct (isinstance e CosRetryableError) eqn:Hcos.
    + erewrite try_except_caught; [|exact Hraise|rewrite Hcos; reflexivity].
      by rewrite (bind_ok _ _ _ _ _ Hrun).
    + erewrite try_except_caught; [|exact Hraise|rewrite Hcos, He; reflexivity].
      by rewrite (bind_ok _ _ _ _ _ Hrun).
  - intros dep region. rewrite <- Hreads.
    destruct (record_failure_others failed (ce_region (self w)) dep region w2 Hreg2)
      as (w3' & Hrun' & _ & Hcount).
    rewrite Hrun in Hrun'. injection Hrun' as <-. exact Hcount.
Qed.

(** a refusal of Code Engine ends the job: an error event with the reason is logged,
    the forwarded environment is wiped and the job is FAILED, unless its row already left
    for a status FAILED does not follow, which stays; the caller gets the refusal. *)
Theorem submit_refused svc gr r e c w w0 row :
  fleets_paused (ce_region (self w)) w = (Ok false, w0) ->
  gr (self w) = Ok r -> refuses r e ->
  isinstance e RunnerError = true -> isinstance e RunnerRetryableError = false ->
  jobs (db w) !! id (self w) = Some row ->
  buildable (self w) (bool_decide (id (self w) ∈ mirrors (db w))) ->
  exists w' row' ev rest,
    submit svc gr c w = (Raise e, w')
    /\ jobs (db w') !! id (self w) = Some row' /\ env_vars row' = "{}"
    /\ status row' = (if bool_decide (FAILED ∈ VALID_TRANSITIONS (status row))
                      then FAILED else status row)
    /\ events (db w') = events (db w) ++ ev :: rest
    /\ event_job ev = id (self w) /\ event_type ev = ERROR
    /\ event_data ev = ErrorData "FLEET_SUBMIT_FAILED" "The job could not be submitted to Code Engine"
                         (exn_name (exn_class e)) (exn_str e).
Proof.
  intros Hp Hr Hf He Hnr Hrow Hb.
  destruct (submit_unpaused svc gr r c w w0 Hp Hr) as (w2 & Hdb & Hself & -> & _ & _).
  set (ev := mk_event (id (self w)) ERROR SCHEDULER c (wall w2 (ticks w2))
               (ErrorData "FLEET_SUBMIT_FAILED" "The job could not be submitted to Code Engine"
                  (exn_name (exn_class e)) (exn_str e))).
  set (w3 := set_db (set_events (events (db w2) ++ [ev]) (db w2)) (set_ticks (S (ticks w2)) w2)).
  assert (jobs (db w3) !! id (self w3) = Some row) as Hrow3 by (cbn; by rewrite Hdb, Hself).
  pose proof (update_fields_run [F_env_vars "{}"] w3 row Hrow3) as Hupd. cbv zeta in Hupd.
  set (row4 := bump_version _) in Hupd. set (w4 := set_self _ _) in Hupd.
  assert (id (self w4) = id (self w)) as Hid4 by (cbn; by rewrite Hself).
  assert (jobs (db w4) !! id (self w4) = Some row4) as Hrow4.
  { rewrite Hid4. cbn. rewrite Hself. apply lookup_insert_eq. }
  assert (buildable (self w4) (bool_decide (id (self w4) ∈ mirrors (db w4)))) as Hb4.
  { rewrite Hid4. assert (mirrors (db w4) = mirrors (db w)) as -> by (cbn; by rewrite Hdb).
    rewrite <- Hself in Hb |- *.
    exact (proj2 (set_fields_buildable [F_updated (Some (wall w3 (ticks w3))); F_env_vars "{}";
             F_version (version row4)] (self w2) _) Hb). }
  assert (events (db w4) = events (db w) ++ [ev]) as Hev4 by (cbn; by rewrite Hdb).
  assert (status row4 = status row /\ env_vars row4 = "{}") as [Hs4 He4] by done.
  pose proof (to_failed_ends SCHEDULER c w4 row4 Hrow4 Hb4) as Hfail. cbv zeta in Hfail.
  destruct (to_failed SCHEDULER c [] w4) as [o5 w5] eqn:Hrun5. cbn [fst snd] in Hfail.
  assert (submission_failed c e w2 = (Ok tt, w5)) as Hsf.
  { unfold submission_failed, get_self, gets. unfold bind at 1. rewrite Hself.
    unfold bind at 1.
    change (add_error_event (id (self w)) SCHEDULER c "FLEET_SUBMIT_FAILED"
      "The job could not be submitted to Code Engine" (exn_name (exn_class e)) (exn_str e) w2)
      with (Ok (A:=JobEvent) ev, w3).
    cbv iota. rewrite (bind_ok _ _ _ _ _ Hupd). unfold try_except, bind. rewrite Hrun5.
    destruct o5 as [e5|e5]; [done|]. destruct Hfail as (_ & -> & _). done. }
  exists w5.
  assert (submit_rest svc r (ce_region (self w)) c w2 = (Raise e, w5)) as ->.
  { unfold submit_rest. apply bind_raise.
    assert (isinstance e CosRetryableError = false) as Hcos by (by destruct e as [[] ?]).
    erewrite try_except_caught; [|apply bind_raise, Hf|rewrite Hcos, Hnr, He; reflexivity].
    by rewrite (bind_ok _ _ _ _ _ Hsf). }
  rewrite <- Hid4, <- Hs4. destruct o5 as [e5|e5].
  - destruct Hfail as (Hv & Hj & es & Hes). rewrite bool_decide_eq_true_2 by done.
    eexists _, ev, es. split; [done|]. split; [exact Hj|].
    split_and!; try done. by rewrite Hes, Hev4, <- app_assoc.
  - destruct Hfail as (Hv & _ & Hdb5). rewrite bool_decide_eq_false_2 by done.
    eexists row4, ev, []. rewrite Hdb5. split_and!; done.
Qed.

(** ** The canceller *)

(** What the breaker of the region learns from a cancel that reached the service. *)
Definition cancel_learns (o : outcome JobStatus) : option bool :=
  match o with
  | Ok _ => Some true
  | Raise e =>
      if isinstance e FleetAppearedError then Some true
      else if isinstance e RunnerRetryableError then Some false
      else if isinstance e InvalidJobTransitionException then Some true
      else None
  end.

(** a cancel of a job with a fleet asks the service once, unless the breaker of its
    region is open. The breaker learns from it exactly when Code Engine was reached: a
    success when it answered, also when the row changed under the cancel, a failure when it
    did not, nothing for an error of this process. The caller gets the service's exception,
    or whether a cancel is in flight. *)
Theorem cancel_spec svc gr c w w0 :
  truthy (fleet_id (self w)) = true -> program (self w) <> None ->
  region_paused CodeEngine (ce_region (self w)) w = (Ok false, w0) ->
  registered (region_breaker CodeEngine (ce_region (self w)))
    (snd (stop svc (lazy_runner (gr (self w))) SCHEDULER c w0)) ->
  let b := region_breaker CodeEngine (ce_region (self w)) in
  let '(o, w1) := stop svc (lazy_runner (gr (self w))) SCHEDULER c w0 in
  exists w',
    cancel svc gr c w =
      (match o with Ok s => Ok (bool_decide (s = STOPPING)) | Raise e => Raise e end, w')
    /\ db w' = db w1
    /\ consecutive_failures (read_breaker b w') =
         match cancel_learns o with
         | Some true => 0
         | Some false => consecutive_failures (read_breaker b w1) + 1
         | None => consecutive_failures (read_breaker b w1)
         end.
Proof.
  intros Hf Hp Hopen Hreg b. unfold cancel, get_self, gets. unfold bind at 1.
  rewrite Hf, (bool_decide_eq_false_2 _ Hp). cbn [negb orb].
  assert (forall k : BreakerRef -> bool -> Py bool,
    (breaker <- get_breaker CodeEngine (ce_region (self w)) ;;
     open_ <- is_open breaker ;; k breaker open_) w = k b false w0) as Hguard.
  { intros k. unfold region_paused in Hopen.
    destruct (get_breaker_run CodeEngine (ce_region (self w)) w) as (w2 & Hrun & _).
    rewrite (bind_ok _ _ _ _ _ Hrun) in Hopen. rewrite (bind_ok _ _ _ _ _ Hrun).
    by rewrite (bind_ok _ _ _ _ _ Hopen). }
  rewrite Hguard. clear Hguard.
  destruct (stop svc _ SCHEDULER c w0) as [o w1] eqn:Hstop. cbn [snd] in Hreg.
  destruct o as [s|e]; cbn [cancel_learns].
  - rewrite (bind_ok _ _ _ _ _ (try_except_ok _ _ _ _ _ Hstop)).
    rewrite (bind_ok _ _ _ _ _ (record_success_run b w1)).
    eexists. split; [reflexivity|]. split; [reflexivity|].
    cbn. by rewrite lookup_insert_eq.
  - destruct (record_failure_others CodeEngine (ce_region (self w)) CodeEngine (ce_region (self w)) w1 Hreg)
      as (w3 & Hfail & Hdb3 & Hcount).
    rewrite decide_True in Hcount by done.
    pose proof (record_success_run b w1) as Hok.
    destruct (isinstance e FleetAppearedError) eqn:E1;
      [|destruct (isinstance e RunnerRetryableError) eqn:E2;
        [|destruct (isinstance e InvalidJobTransitionException) eqn:E3]];
      (eexists; split;
        [apply bind_raise; first
           [ eapply try_except_uncaught; [exact Hstop|by rewrite E1, E2, E3]
           | erewrite try_except_caught; [|exact Hstop|rewrite E1, ?E2, ?E3; reflexivity];
             first [rewrite (bind_ok _ _ _ _ _ Hfail) | rewrite (bind_ok _ _ _ _ _ Hok)]; reflexivity]
        |]); (split; [done|]); try done; cbn; by rewrite lookup_insert_eq.
Qed.

(** ** Witnesses *)

Definition fleets_config : gmap string string :=
  {[ FLEETS_BREAKER_FAILURES := "2"; FLEETS_BREAKER_PAUSE_SECONDS := "60";
     BLOCKED_JOBS_STOP_ENABLED := "true"; BLOCKED_RESOURCES_REGIONAL := "true" ]}.

Definition queued_job (job_id : JobId) : Job := sample_job job_id QUEUED None.
Definition queued_world : World :=
  set_config fleets_config
    (world_of (mk_db {[ "job-1" := queued_job "job-1"; "job-2" := queued_job "job-2" ]} [] [] 0 ∅ [] ∅)
       (queued_job "job-1")).

Lemma fair_share_limits_witness :
  exists res w', get_jobs_to_schedule_fair_share 5 false FLEETS 1 queued_world = (Ok res, w')
    /\ length res = 1%nat
    /\ Z.of_nat (length (filter (author_is 1) res)) <= Z.max 0 (1 - Z.of_nat (running_count FLEETS 1 (rows (db queued_world)))).
Proof.
  destruct (get_jobs_to_schedule_fair_share 5 false FLEETS 1 queued_world) as [[res|e] w'] eqn:H.
  - exists res, w'. split; [reflexivity|]. split.
    + apply (f_equal (fun r => match fst r with Ok l => length l | Raise _ => 0%nat end)) in H.
      vm_compute in H. symmetry. exact H.
    + destruct (fair_share_limits 5 false FLEETS 1 queued_world res w' H) as (_ & _ & _ & _ & Hc & _).
      exact (Hc 1%nat).
  - apply (f_equal (fun r => match fst r with Ok _ => true | Raise _ => false end)) in H.
    vm_compute in H. discriminate H.
Defined.

(** Runners that create the fleet, cannot reach Code Engine, or are refused. *)
Definition creating_runner (f : string) : AbstractRunner :=
  mk_runner (modify_self (setattr (F_fleet_id (Some f))) ;;; ret (Some f)) (ret None) (ret true) (ret true).
Definition failing_runner (e : exn) : AbstractRunner :=
  mk_runner (raise e) (raise e) (raise e) (raise e).
Definition unreachable : exn := mk_exn CosRetryableError "timeout".
Definition refusal : exn := mk_exn RunnerError "invalid spec".

(** The guard of the submitter at [w]. *)
Definition guarded (w : World) : World := snd (fleets_paused (ce_region (self w)) w).

(** The job was stopped while it was queued. *)
Definition stopped_world : World :=
  set_config fleets_config
    (world_of (mk_db {[ "job-1" := sample_job "job-1" STOPPED None ]} [] [] 0 ∅ [] ∅) (queued_job "job-1")).

Lemma submit_keeps_fleet_witness :
  exists row',
    jobs (db (snd (submit noop_service (fun _ => Ok (creating_runner "fleet-9")) SCHEDULE_JOBS stopped_world)))
      !! "job-1" = Some row'
    /\ fleet_id row' = Some "fleet-9" /\ status row' = STOPPED.
Proof.
  assert (rel same_db (runner_stop (creating_runner "fleet-9"))) as Hs by (intros w; reflexivity).
  assert (creates_fleet (creating_runner "fleet-9") "fleet-9") as Hf.
  { intros w. eexists _, _. split; [reflexivity|]. split; reflexivity. }
  destruct (submit_keeps_fleet noop_service (fun _ => Ok (creating_runner "fleet-9"))
              (creating_runner "fleet-9") "fleet-9" SCHEDULE_JOBS stopped_world (guarded stopped_world)
              (sample_job "job-1" STOPPED None) noop_service_laws noop_best_effort
              ltac:(vm_compute; reflexivity) eq_refl Hf Hs ltac:(vm_compute; reflexivity))
    as (row' & Hrow & Hfl & _ & Hst & _).
  exists row'. split; [exact Hrow|]. split; [exact Hfl|]. rewrite Hst. reflexivity.
Defined.

Lemma submit_unreachable_witness :
  exists w', submit noop_service (fun _ => Ok (failing_runner unreachable)) SCHEDULE_JOBS queued_world
             = (Raise unreachable, w')
    /\ db w' = db queued_world
    /\ consecutive_failures (read_breaker (region_breaker Cos (Some "us-east")) w') = 1.
Proof.
  assert (forall dep, registered (region_breaker dep (ce_region (self queued_world))) (guarded queued_world)) as Hreg.
  { intros dep. split; eexists; vm_compute; reflexivity. }
  destruct (submit_unreachable noop_service (fun _ => Ok (failing_runner unreachable))
              (failing_runner unreachable) unreachable SCHEDULE_JOBS queued_world (guarded queued_world)
              ltac:(vm_compute; reflexivity) eq_refl (fun w => eq_refl) eq_refl Hreg)
    as (w' & Hrun & Hdb & Hcount).
  exists w'. split; [exact Hrun|]. split; [exact Hdb|].
  rewrite (Hcount Cos (Some "us-east")). vm_compute. reflexivity.
Defined.

Lemma submit_refused_witness :
  exists w' row', submit noop_service (fun _ => Ok (failing_runner refusal)) SCHEDULE_JOBS queued_world
             = (Raise refusal, w')
    /\ jobs (db w') !! "job-1" = Some row' /\ status row' = FAILED.
Proof.
  assert (buildable (self queued_world) (bool_decide (id (self queued_world) ∈ mirrors (db queued_world)))) as Hb.
  { split; [intros _; eexists; reflexivity | intros H; vm_compute in H; discriminate H]. }
  destruct (submit_refused noop_service (fun _ => Ok (failing_runner refusal))
              (failing_runner refusal) refusal SCHEDULE_JOBS queued_world (guarded queued_world)
              (queued_job "job-1") ltac:(vm_compute; reflexivity) eq_refl (fun w => eq_refl) eq_refl
              eq_refl ltac:(vm_compute; reflexivity) Hb)
    as (w' & row' & ev & rest & Hrun & Hrow & _ & Hst & _).
  exists w', row'. split; [exact Hrun|]. split; [exact Hrow|]. rewrite Hst. reflexivity.
Defined.

Definition cancel_world : World := set_config fleets_config running_world.

Lemma cancel_spec_witness :
  exists w', cancel noop_service (fun _ => Ok (failing_runner unreachable)) UPDATE_JOB_STATUS cancel_world
             = (Raise unreachable, w')
    /\ consecutive_failures (read_breaker (region_breaker CodeEngine (Some "us-east")) w') = 1.
Proof.
  set (w0 := snd (region_paused CodeEngine (ce_region (self cancel_world)) cancel_world)).
  assert (registered (region_breaker CodeEngine (ce_region (self cancel_world)))
            (snd (stop noop_service (lazy_runner (Ok (failing_runner unreachable))) SCHEDULER
                    UPDATE_JOB_STATUS w0))) as Hreg by (split; eexists; vm_compute; reflexivity).
  pose proof (cancel_spec noop_service (fun _ => Ok (failing_runner unreachable)) UPDATE_JOB_STATUS
                cancel_world w0 eq_refl ltac:(discriminate) ltac:(vm_compute; reflexivity) Hreg) as H.
  cbv zeta in H.
  destruct (stop noop_service _ SCHEDULER UPDATE_JOB_STATUS w0) as [o w1] eqn:E.
  assert (o = Raise unreachable /\
          consecutive_failures (read_breaker (region_breaker CodeEngine (Some "us-east")) w1) = 0) as [-> Hc].
  { apply (f_equal (fun r => (fst r, consecutive_failures
      (read_breaker (region_breaker CodeEngine (Some "us-east")) (snd r))))) in E.
    vm_compute in E. cbn [fst snd] in E. injection E as <- E. split; [reflexivity|]. symmetry. exact E. }
  destruct H as (w' & Hrun & _ & Hcount). exists w'. split; [exact Hrun|].
  cbn [cancel_learns isinstance] in Hcount.
  change (ce_region (self cancel_world)) with (Some "us-east") in Hcount.
  rewrite Hcount, Hc. reflexivity.
Defined.
