(* ===== verification/FreeFleets.v ===== *)
(** * Deleting the fleets of ended jobs ([scheduler/tasks/free_fleets_resources.py])

    The task that frees the fleets past the retention window or over their project's quota,
    with its memory of the rows that keep failing. *)

From S2P Require Import Prelude PyStr Models World BillingEvents JobTransitions CircuitBreaker FleetsBreakers Blocked Schedule.

Local Open Scope string_scope.
Local Open Scope list_scope.
Local Open Scope Z_scope.

Definition DEFAULT_BUDGET_MS : Z := 500.
Definition DEFAULT_MAX_DELETES_PER_CYCLE : Z := 20.
Definition MAX_ATTEMPTS_PER_FLEET : nat := 3.
Definition MAX_TRACKED_FAILURES : nat := 500.
Definition DEFAULT_RETENTION_HOURS : Z := 336.
Definition DEFAULT_QUOTA_PER_PROJECT : Z := 1000.
Definition DEFAULT_FORCE_AT_PERCENT : Z := 80.

Definition FLEETS_CLEANUP_ENABLED : string := "scheduler.fleets.cleanup.enabled".
Definition FLEETS_CLEANUP_RETENTION_HOURS : string := "scheduler.fleets.cleanup.retention_hours".
Definition FLEETS_CLEANUP_FORCE_AT_PERCENT : string := "scheduler.fleets.cleanup.force_at_percent".
Definition FLEETS_CLEANUP_BUDGET_MS : string := "scheduler.fleets.cleanup.budget_ms".
Definition FLEETS_CLEANUP_MAX_DELETES : string := "scheduler.fleets.cleanup.max_deletes_per_cycle".
Definition FLEETS_QUOTA_PER_PROJECT : string := "scheduler.fleets.quota_per_project".

(** ** Queries ([core/model_managers/jobs.py]) *)

Definition held_fleets (js : list Job) : list Job :=
  filter (fun j => runner j = FLEETS /\ is_Some (fleet_id j) /\ fleet_deleted_at j = None) js.

(** [order_by("updated")]: a [NULL] goes last. *)
Definition order_by_updated (js : list Job) : list Job :=
  order_by (fun j => default 0 (updated j)) (filter (fun j => is_Some (updated j)) js)
  ++ filter (fun j => updated j = None) js.

(** How many of the jobs each project holds, as a dict. *)
Definition count_held_fleets (d : DB) : list (string * Z) :=
  let held := held_fleets (rows d) in
  map (fun p => (p, Z.of_nat (length (filter (fun j => fleet_project j = p) held))))
    (dedup (map fleet_project held)).

(** ** Which jobs *)

Definition projects_over_quota (counts : list (string * Z)) : Py (list (string * Z)) :=
  percent <- Config_get_int FLEETS_CLEANUP_FORCE_AT_PERCENT DEFAULT_FORCE_AT_PERCENT ;;
  quota <- Config_get_int FLEETS_QUOTA_PER_PROJECT DEFAULT_QUOTA_PER_PROJECT ;;
  if negb ((1 <=? percent) && (percent <? 100)) || (quota <? 1) then ret []
  else
    let threshold := quota * percent / 100 in
    ret (omap (fun '(project, held) =>
           if negb (bool_decide (project = UNASSIGNED_PROJECT)) && (threshold <=? held)
           then Some (project, held - threshold + 1) else None) counts).

(** [updated__lt=cutoff]; a [NULL] is not. *)
Definition updated_before (cutoff : Z) (j : Job) : bool :=
  match updated j with Some u => u <? cutoff | None => false end.

Definition past_the_window (deletable : list Job) : Py (list Job) :=
  hours <- Config_get_int FLEETS_CLEANUP_RETENTION_HOURS DEFAULT_RETENTION_HOURS ;;
  t <- now ;;
  let cutoff := t - Z.max 1 hours * HOUR in
  ret (order_by_updated (filter (updated_before cutoff)
         deletable)).

(** The loop over the projects: each takes the fleets it has to lose, while there is budget. *)
Fixpoint take_over_quota (deletable : list Job) (budget : Z) (over_quota : list (string * Z))
    (taken : list Job) : list Job :=
  match over_quota with
  | [] => taken
  | (project, needed) :: over_quota' =>
      if budget <=? Z.of_nat (length taken) then taken
      else
        let n := Z.min needed (budget - Z.of_nat (length taken)) in
        take_over_quota deletable budget over_quota'
          (taken ++ take (Z.to_nat n)
             (order_by_updated (filter (fun j => ce_project_name j = Some project) deletable)))
  end.

Definition jobs_to_clean (over_quota : list (string * Z)) (paused : list (option string)) : Py (list Job) :=
  budget <- Config_get_int FLEETS_CLEANUP_MAX_DELETES DEFAULT_MAX_DELETES_PER_CYCLE ;;
  giving_up_on <- gets (fun w => given_up (sched w)) ;;
  d <- get_db ;;
  let deletable := filter (fun j => status j ∈ TERMINAL_STATUSES /\ fleet_region j ∉ paused
                                    /\ id j ∉ giving_up_on) (held_fleets (rows d)) in
  let taken := take_over_quota deletable budget over_quota [] in
  if Z.of_nat (length taken) <? budget then
    past <- past_the_window deletable ;;
    ret (taken ++ take (Z.to_nat (budget - Z.of_nat (length taken)))
           (filter (fun j => id j ∉ map id taken) past))
  else ret taken.

(** ** Counting failures *)

Definition dict_pop (k : string) (d : list (string * nat)) : list (string * nat) :=
  filter (fun kv => kv.1 <> k) d.
Definition dict_count (k : string) (d : list (string * nat)) : nat :=
  match filter (fun kv => kv.1 = k) d with [] => 0%nat | kv :: _ => kv.2 end.
(** Assigning an existing key keeps its place. *)
Fixpoint dict_put (k : string) (v : nat) (d : list (string * nat)) : list (string * nat) :=
  match d with
  | [] => [(k, v)]
  | (k', v') :: d' => if bool_decide (k' = k) then (k, v) :: d' else (k', v') :: dict_put k v d'
  end.

(** [while len(d) >= limit: d.pop(next(iter(d)))]. *)
Definition evict (limit : nat) (d : list (string * nat)) : list (string * nat) :=
  drop (S (length d) - limit) d.

Definition count_failure (job : Job) : Py unit :=
  s <- gets sched ;;
  let tracked := if bool_decide (id job ∈ map fst (failed_attempts s))
                 then failed_attempts s else evict MAX_TRACKED_FAILURES (failed_attempts s) in
  let failures := S (dict_count (id job) tracked) in
  let tracked := dict_put (id job) failures tracked in
  if bool_decide (MAX_ATTEMPTS_PER_FLEET <= failures)%nat then
    let skipped := if bool_decide (MAX_TRACKED_FAILURES <= length (given_up s))%nat
                   then drop 1 (given_up s) else given_up s in
    modify_sched (fun s => set_given_up
      (if bool_decide (id job ∈ skipped) then skipped else skipped ++ [id job])
      (set_failed_attempts (dict_pop (id job) tracked) s)) ;;;
    count_metric (FleetDeletes (fleet_project job) "gave_up")
  else
    modify_sched (set_failed_attempts tracked) ;;;
    count_metric (FleetDeletes (fleet_project job) "failed").

(** ** Deleting *)

Section task.
Context (get_runner : Job -> outcome AbstractRunner).

Definition delete_and_stamp (job : Job) : Py bool :=
  gone <- fleet_delete get_runner job ;;
  if gone : bool then
    t <- now ;;
    on_job job (update_fields [F_fleet_deleted_at (Some t)]) ;;;
    modify_sched (fun s => set_failed_attempts (dict_pop (id job) (failed_attempts s)) s) ;;;
    count_metric (FleetDeletes (fleet_project job) "deleted") ;;;
    ret true
  else
    count_failure job ;;;
    ret false.

(** The loop of [run]: the regions that failed and those that answered. *)
Fixpoint clean_loop (deadline : Z) (position : nat) (candidates : list Job)
    (failed answered : list (option string)) : Py (list (option string) * list (option string)) :=
  match candidates with
  | [] => ret (failed, answered)
  | job :: candidates' =>
      kill <- kill_received ;;
      spent <- (if kill : bool then ret true
                else match position with
                     | O => ret false
                     | S _ => t <- monotonic ;; ret (deadline <=? t)
                     end) ;;
      if spent : bool then ret (failed, answered)
      else
        let region := fleet_region job in
        if bool_decide (region ∈ failed) then clean_loop deadline (S position) candidates' failed answered
        else
          step <- try_except
            (gone <- delete_and_stamp job ;;
             ret (failed, if gone : bool then region :: answered else answered))
            (fun ex =>
               if isinstance ex RunnerRetryableError
               then Some (record_cycle region false ;;; ret (region :: failed, answered))
               else None) ;;
          clean_loop deadline (S position) candidates' step.1 step.2
  end.

Definition free_fleets_run : Py unit :=
  d <- get_db ;;
  let counts := count_held_fleets d in
  enabled <- Config_get_bool FLEETS_CLEANUP_ENABLED ;;
  if negb enabled then ret tt
  else
    over_quota <- projects_over_quota counts ;;
    paused <- paused_regions Cleanup ;;
    candidates <- jobs_to_clean over_quota paused ;;
    started <- monotonic ;;
    budget_ms <- Config_get_int FLEETS_CLEANUP_BUDGET_MS DEFAULT_BUDGET_MS ;;
    regions <- clean_loop (started + budget_ms * 1000) 0 candidates [] [] ;;
    for_each (filter (fun r => r ∉ regions.1) (dedup regions.2))
      (fun region => record_cycle region true ;;; ret true).
End task.

(** ** Lemmas *)

Definition tracking_ok (s : Sched) : Prop :=
  (length (failed_attempts s) <= MAX_TRACKED_FAILURES)%nat
  /\ NoDup (map fst (failed_attempts s))
  /\ Forall (fun kv => 0 < kv.2 < MAX_ATTEMPTS_PER_FLEET)%nat (failed_attempts s)
  /\ (length (given_up s) <= MAX_TRACKED_FAILURES)%nat
  /\ NoDup (given_up s).

Lemma dict_put_keys k v d :
  map fst (dict_put k v d) = if bool_decide (k ∈ map fst d) then map fst d else map fst d ++ [k].
Proof.
  induction d as [|[k' v'] d IH]; [done|]. cbn [dict_put].
  destruct (decide (k' = k)) as [->|Hk].
  - rewrite bool_decide_eq_true_2 by done. cbn. by rewrite bool_decide_eq_true_2 by left.
  - rewrite bool_decide_eq_false_2 by done. cbn [map fst]. rewrite IH. clear IH.
    repeat case_bool_decide; set_solver.
Qed.

Lemma dict_put_length k v d :
  length (dict_put k v d) = if bool_decide (k ∈ map fst d) then length d else S (length d).
Proof.
  rewrite <- (length_map fst (dict_put k v d)), dict_put_keys.
  case_bool_decide; rewrite ?length_app, length_map; cbn; lia.
Qed.

Lemma dict_put_elem k v d kv : kv ∈ dict_put k v d -> kv = (k, v) \/ kv ∈ d.
Proof.
  induction d as [|[k' v'] d IH]; cbn [dict_put]; [set_solver|].
  case_bool_decide; set_solver.
Qed.

Lemma dict_put_NoDup k v d : NoDup (map fst d) -> NoDup (map fst (dict_put k v d)).
Proof.
  intros Hd. rewrite dict_put_keys. case_bool_decide; [done|].
  apply NoDup_app. split; [done|]. split; [set_solver|apply NoDup_singleton].
Qed.

Lemma filter_NoDup_fst (P : string * nat -> Prop) `{forall x, Decision (P x)} d :
  NoDup (map fst d) -> NoDup (map fst (filter P d)).
Proof.
  induction d as [|kv d IH]; [done|]. cbn [map]. rewrite NoDup_cons. intros [Hn Hd].
  rewrite filter_cons. case_decide; [|by apply IH]. cbn. apply NoDup_cons. split; [|by apply IH].
  intros (kv' & Hk & Hin)%list_elem_of_fmap. apply list_elem_of_filter in Hin as [_ Hin].
  apply Hn. rewrite Hk. by apply list_elem_of_fmap_2.
Qed.

Lemma evict_length d : (length (evict MAX_TRACKED_FAILURES d) < MAX_TRACKED_FAILURES)%nat.
Proof. unfold evict, MAX_TRACKED_FAILURES. rewrite length_drop. lia. Qed.

Lemma drop_NoDup_fst n (d : list (string * nat)) : NoDup (map fst d) -> NoDup (map fst (drop n d)).
Proof. rewrite <- skipn_map. intros H. rewrite <- (take_drop n (map fst d)) in H. by apply NoDup_app in H as (_ & _ & ?). Qed.

Lemma dict_count_elem k d n : dict_count k d = S n -> (k, S n) ∈ d.
Proof.
  unfold dict_count. destruct (filter _ d) as [|kv l] eqn:E; [done|]. intros Hn.
  assert (kv ∈ filter (fun kv => kv.1 = k) d) as Hin by (rewrite E; left).
  apply list_elem_of_filter in Hin as [Hk Hin]. destruct kv as [k' v]. cbn in *. by subst.
Qed.
