(* ===== verification/FreeFleetsProps.v ===== *)
(** * The correctness of the fleet cleanup *)

From S2P Require Import Prelude PyStr Models World BillingEvents JobTransitions TransitionSpec Samples CircuitBreaker FleetsBreakers Blocked Schedule FreeFleets.

Local Open Scope string_scope.
Local Open Scope list_scope.
Local Open Scope Z_scope.

(** ** The memory of failures *)

Definition counts_ok (d : list (string * nat)) : Prop :=
  NoDup (map fst d) /\ Forall (fun kv => 0 < kv.2 < MAX_ATTEMPTS_PER_FLEET)%nat d.

Lemma dict_count_absent k d : k ∉ map fst d -> dict_count k d = 0%nat.
Proof.
  intros Hd. unfold dict_count. destruct (filter _ d) as [|kv l] eqn:E; [done|].
  exfalso. apply Hd. pose proof (list_elem_of_here kv l) as Hin. rewrite <- E in Hin.
  apply list_elem_of_filter in Hin as [<- Hin]. by apply list_elem_of_fmap_2.
Qed.

Lemma dict_count_put k n d : dict_count k (dict_put k n d) = n.
Proof.
  induction d as [|[k' v] d IH]; cbn [dict_put]; [unfold dict_count; by rewrite filter_cons, decide_True|].
  destruct (decide (k' = k)) as [->|Hk].
  - rewrite bool_decide_eq_true_2 by done. unfold dict_count. by rewrite filter_cons, decide_True.
  - rewrite bool_decide_eq_false_2 by done. unfold dict_count in *. by rewrite filter_cons, decide_False.
Qed.

Lemma dict_count_pop k d : dict_count k (dict_pop k d) = 0%nat.
Proof.
  apply dict_count_absent. intros (kv & -> & Hin)%list_elem_of_fmap.
  by apply list_elem_of_filter in Hin as [? _].
Qed.

Lemma dict_count_lt k d : counts_ok d -> (dict_count k d < MAX_ATTEMPTS_PER_FLEET)%nat.
Proof.
  intros [_ Hc]. destruct (dict_count k d) as [|n] eqn:E; [unfold MAX_ATTEMPTS_PER_FLEET; lia|].
  apply dict_count_elem in E. rewrite Forall_forall in Hc. apply Hc in E. cbn in E. lia.
Qed.

(** Making room for a row that is not tracked yet. *)
Definition room (k : string) (d : list (string * nat)) : list (string * nat) :=
  if bool_decide (k ∈ map fst d) then d else evict MAX_TRACKED_FAILURES d.

Lemma room_ok k d : counts_ok d -> counts_ok (room k d).
Proof.
  intros [Hnd Hc]. unfold room. case_bool_decide; [done|].
  split; [by apply drop_NoDup_fst | by apply Forall_drop].
Qed.

Lemma room_count k d : dict_count k (room k d) = dict_count k d.
Proof.
  unfold room. case_bool_decide as Hin; [done|].
  rewrite (dict_count_absent k d Hin). apply dict_count_absent. unfold evict.
  rewrite <- skipn_map. intros Hd. apply Hin.
  rewrite <- (take_drop (S (length d) - MAX_TRACKED_FAILURES) (map fst _)).
  apply elem_of_app. by right.
Qed.

Lemma room_put_length k n d :
  (length d <= MAX_TRACKED_FAILURES)%nat ->
  (length (dict_put k n (room k d)) <= MAX_TRACKED_FAILURES)%nat.
Proof.
  intros Hlen. rewrite dict_put_length. unfold room.
  destruct (decide (k ∈ map fst d)) as [Hin|Hin].
  - rewrite (bool_decide_eq_true_2 _ Hin). by rewrite (bool_decide_eq_true_2 _ Hin).
  - rewrite (bool_decide_eq_false_2 _ Hin). generalize (evict_length d).
    generalize (evict MAX_TRACKED_FAILURES d). intros d' Hd'. case_bool_decide; lia.
Qed.

Lemma put_ok k n d :
  counts_ok d -> (0 < n < MAX_ATTEMPTS_PER_FLEET)%nat -> counts_ok (dict_put k n d).
Proof.
  intros [Hnd Hc] Hn. split; [by apply dict_put_NoDup|].
  apply Forall_forall. intros kv [->|Hin]%dict_put_elem; [done|]. rewrite Forall_forall in Hc. by apply Hc.
Qed.

Lemma put_pop_ok k n d : counts_ok d -> counts_ok (dict_pop k (dict_put k n d)).
Proof.
  intros [Hnd Hc]. split; [by apply filter_NoDup_fst, dict_put_NoDup|].
  apply Forall_forall. intros kv [Hk Hin]%list_elem_of_filter.
  apply dict_put_elem in Hin as [->|Hin]; [done|]. rewrite Forall_forall in Hc. by apply Hc.
Qed.

(** Adding a row to the ones given up, the oldest making room for it. *)
Definition remember_key (k : string) (l : list string) : list string :=
  let l := if bool_decide (MAX_TRACKED_FAILURES <= length l)%nat then drop 1 l else l in
  if bool_decide (k ∈ l) then l else l ++ [k].

Lemma remember_key_ok k l :
  (length l <= MAX_TRACKED_FAILURES)%nat -> NoDup l ->
  (length (remember_key k l) <= MAX_TRACKED_FAILURES)%nat /\ NoDup (remember_key k l) /\ k ∈ remember_key k l.
Proof.
  intros Hlen Hnd. unfold remember_key.
  set (l' := if bool_decide (MAX_TRACKED_FAILURES <= length l)%nat then drop 1 l else l).
  assert (NoDup l' /\ (length l' < MAX_TRACKED_FAILURES)%nat) as [Hnd' Hlen'].
  { subst l'. case_bool_decide; [|split; [done|lia]]. rewrite length_drop.
    unfold MAX_TRACKED_FAILURES in *. split; [|lia].
    rewrite <- (take_drop 1 l) in Hnd. by apply NoDup_app in Hnd as (_ & _ & ?). }
  clearbody l'. cbv zeta. case_bool_decide as Hin; [split_and!; [lia|done..]|].
  split_and!; [rewrite length_app; cbn; lia| |apply elem_of_app; right; left].
  apply NoDup_app. split; [done|]. split; [set_solver|apply NoDup_singleton].
Qed.

Lemma count_failure_run job w :
  let s := sched w in
  let n := S (dict_count (id job) (failed_attempts s)) in
  let tracked := dict_put (id job) n (room (id job) (failed_attempts s)) in
  sched (snd (count_failure job w)) =
    (if bool_decide (MAX_ATTEMPTS_PER_FLEET <= n)%nat then
       set_metrics (metrics s ++ [FleetDeletes (fleet_project job) "gave_up"])
         (set_given_up (remember_key (id job) (given_up s))
            (set_failed_attempts (dict_pop (id job) tracked) s))
     else set_metrics (metrics s ++ [FleetDeletes (fleet_project job) "failed"])
            (set_failed_attempts tracked s)).
Proof.
  intros s n tracked. unfold count_failure, gets. unfold bind at 1. fold s (room (id job) (failed_attempts s)).
  rewrite room_count. fold n tracked.
  unfold remember_key. generalize MAX_TRACKED_FAILURES as limit. intros limit.
  destruct (bool_decide (MAX_ATTEMPTS_PER_FLEET <= n)%nat); reflexivity.
Qed.

(** the memory of the rows that fail stays bounded (at most 500 tracked and 500 given
    up, none twice), whatever fails; and a row is given up exactly on its third tracked
    failure: until then its count grows by one, then it leaves the counts. *)
Theorem count_failure_spec job w :
  tracking_ok (sched w) ->
  let s := sched w in
  let s' := sched (snd (count_failure job w)) in
  let n := dict_count (id job) (failed_attempts s) in
  tracking_ok s'
  /\ (if decide (S n = MAX_ATTEMPTS_PER_FLEET)
      then id job ∈ given_up s' /\ dict_count (id job) (failed_attempts s') = 0%nat
      else given_up s' = given_up s /\ dict_count (id job) (failed_attempts s') = S n).
Proof.
  intros (Hlen & Hnd & Hcounts & Hglen & Hgnd) s s' n.
  assert (counts_ok (failed_attempts s)) as Hok by done.
  pose proof (dict_count_lt (id job) _ Hok) as Hlt. fold n in Hlt.
  unfold s'. rewrite count_failure_run. fold s n.
  pose proof (room_ok (id job) _ Hok) as Hroom. unfold tracking_ok. case_decide as Hmax.
  - rewrite bool_decide_eq_true_2 by lia. cbn.
    destruct (remember_key_ok (id job) (given_up s) Hglen Hgnd) as (? & ? & ?).
    destruct (put_pop_ok (id job) (S n) _ Hroom) as [? ?].
    split_and!; try done; [|apply dict_count_pop].
    etransitivity; [apply length_filter | by apply room_put_length].
  - rewrite bool_decide_eq_false_2 by lia. cbn.
    destruct (put_ok (id job) (S n) _ Hroom ltac:(lia)) as [? ?].
    split_and!; try done; [by apply room_put_length | apply dict_count_put].
Qed.

(** ** Which jobs a cycle may delete *)

(** Rows are stored under their own id. *)
Definition keyed (d : DB) : Prop := forall k row, jobs d !! k = Some row -> id row = k.

Lemma keyed_NoDup d : keyed d -> NoDup (map id (rows d)).
Proof.
  intros Hk. unfold rows. replace (map id (map_to_list (jobs d)).*2) with (map_to_list (jobs d)).*1.
  - apply NoDup_fst_map_to_list.
  - change (map id ?l) with (id <$> l). rewrite <- list_fmap_compose.
    apply list_fmap_ext. intros i [k row] Hi. cbn. symmetry. apply Hk.
    apply elem_of_map_to_list. by eapply list_elem_of_lookup_2.
Qed.

Lemma order_by_updated_Permutation js : order_by_updated js ≡ₚ js.
Proof.
  unfold order_by_updated. rewrite order_by_Permutation.
  induction js as [|j js IH]; [done|]. rewrite !filter_cons.
  destruct (updated j) as [u|].
  - rewrite decide_True by eauto. rewrite decide_False by done. cbn. by rewrite IH.
  - rewrite decide_False by (by intros []). rewrite decide_True by done.
    by rewrite <- Permutation_middle, IH.
Qed.

Lemma NoDup_ids_submseteq (l k : list Job) : l ⊆+ k -> NoDup (map id k) -> NoDup (map id l).
Proof. intros Hs. apply submseteq_NoDup. change (map id ?l) with (id <$> l). by apply fmap_submseteq. Qed.

Section take.
Context (deletable : list Job) (budget : Z).

(** The loop over the projects keeps the batch within the budget, made of distinct
    deletable jobs of the projects it has gone through. *)
Lemma take_over_quota_spec over_quota taken seen :
  NoDup (map id deletable) -> NoDup (seen ++ map fst over_quota) ->
  taken ⊆+ deletable -> (Z.of_nat (length taken) <= Z.max 0 budget) ->
  (forall j, j ∈ taken -> exists p, ce_project_name j = Some p /\ p ∈ seen) ->
  let res := take_over_quota deletable budget over_quota taken in
  res ⊆+ deletable /\ Z.of_nat (length res) <= Z.max 0 budget
  /\ forall j, j ∈ res -> exists p, ce_project_name j = Some p /\ p ∈ seen ++ map fst over_quota.
Proof.
  intros Hids. revert taken seen.
  induction over_quota as [|[p needed] over_quota IH]; intros taken seen Hnd Hsub Hlen Hin; cbn.
  - split_and!; [done..|]. by rewrite app_nil_r.
  - destruct (Z.leb_spec budget (Z.of_nat (length taken))) as [Hfull|Hroom].
    { split_and!; [done..|]. intros j (q & ? & ?)%Hin. exists q. set_solver. }
    set (new := take _ _).
    assert (new ⊆+ filter (fun j => ce_project_name j = Some p) deletable) as Hnew.
    { subst new. etransitivity; [apply sublist_submseteq, sublist_take|].
      by rewrite order_by_updated_Permutation. }
    assert (forall j, j ∈ new -> ce_project_name j = Some p) as Hproj.
    { intros j Hj. eapply elem_of_submseteq in Hj; [|exact Hnew].
      by apply list_elem_of_filter in Hj as [? _]. }
    replace (seen ++ p :: map fst over_quota) with ((seen ++ [p]) ++ map fst over_quota)
      by (by rewrite <- app_assoc).
    apply IH.
    + by rewrite <- app_assoc.
    + (* distinct ids, so the two parts together are still a part of the deletable jobs *)
      apply NoDup_submseteq.
      * apply NoDup_app. split; [|split].
        -- apply (NoDup_fmap_1 id). by eapply NoDup_ids_submseteq.
        -- intros j Hj Hj'. apply Hproj in Hj'. apply Hin in Hj as (q & Hq & Hs).
           rewrite Hj' in Hq. injection Hq as <-.
           apply NoDup_app in Hnd as (_ & Hd & _). by apply (Hd p Hs), list_elem_of_here.
        -- apply (NoDup_fmap_1 id), (NoDup_ids_submseteq _ deletable); [|done].
           etransitivity; [exact Hnew|]. apply sublist_submseteq, sublist_filter.
      * intros j [Hj|Hj]%elem_of_app; [by eapply elem_of_submseteq|].
        eapply elem_of_submseteq in Hj; [|exact Hnew]. by apply list_elem_of_filter in Hj as [_ ?].
    + rewrite length_app. subst new. rewrite length_take. lia.
    + intros j [Hj|Hj]%elem_of_app.
      * apply Hin in Hj as (q & ? & ?). exists q. set_solver.
      * exists p. split; [by apply Hproj|]. set_solver.
Qed.
End take.

Lemma past_the_window_spec deletable w past w' :
  past_the_window deletable w = (Ok past, w') ->
  past ⊆+ deletable
  /\ forall j, j ∈ past -> exists u, updated j = Some u /\ u < wall w (ticks w) - HOUR.
Proof.
  intros H. unfold past_the_window in H.
  apply bind_ok_inv in H as (hours & w1 & [-> _]%Config_get_int_inv & H).
  unfold now in H. unfold bind in H. injection H as <- _.
  split; [rewrite order_by_updated_Permutation; apply sublist_submseteq, sublist_filter|].
  intros j Hj. rewrite order_by_updated_Permutation in Hj.
  apply list_elem_of_filter in Hj as [Hj _]. unfold updated_before in Hj.
  destruct (updated j) as [u|]; [|done]. exists u. split; [done|].
  apply Is_true_true, Z.ltb_lt in Hj. unfold HOUR, MICROS in *. lia.
Qed.

(** a cleanup cycle deletes at most its budget of distinct jobs, each an ended Fleets
    job whose fleet we still hold, outside the paused regions and not given up; and each is
    there because its project is over its quota or because it is past the retention
    window, which is never shorter than an hour. *)
Theorem jobs_to_clean_spec over_quota paused w res w' :
  jobs_to_clean over_quota paused w = (Ok res, w') ->
  keyed (db w) -> NoDup (map fst over_quota) ->
  let budget := default DEFAULT_MAX_DELETES_PER_CYCLE
                  (v ← config w !! FLEETS_CLEANUP_MAX_DELETES; py_int v) in
  Z.of_nat (length res) <= Z.max 0 budget
  /\ NoDup (map id res)
  /\ forall j, j ∈ res ->
       j ∈ rows (db w) /\ runner j = FLEETS /\ is_Some (fleet_id j) /\ fleet_deleted_at j = None
       /\ status j ∈ TERMINAL_STATUSES /\ fleet_region j ∉ paused /\ id j ∉ given_up (sched w)
       /\ ((exists p, ce_project_name j = Some p /\ p ∈ map fst over_quota)
           \/ exists u, updated j = Some u /\ u < wall w (ticks w) - HOUR).
Proof.
  intros H Hkeyed Hoq. unfold jobs_to_clean in H.
  apply bind_ok_inv in H as (budget & w1 & [-> ->]%Config_get_int_inv & H).
  set (budget := default _ _) in *. unfold get_db, gets in H. unfold bind at 1 2 in H. cbv beta iota zeta in H.
  set (deletable := filter (fun j => status j ∈ TERMINAL_STATUSES /\ fleet_region j ∉ paused
                              /\ id j ∉ given_up (sched w)) (held_fleets (rows (db w)))) in H.
  assert (deletable ⊆+ rows (db w)) as Hdsub.
  { etransitivity; [apply sublist_submseteq, sublist_filter|]. apply sublist_submseteq, sublist_filter. }
  assert (NoDup (map id deletable)) as Hdnd.
  { eapply NoDup_ids_submseteq; [exact Hdsub | by apply keyed_NoDup]. }
  assert (forall j, j ∈ deletable ->
    j ∈ rows (db w) /\ runner j = FLEETS /\ is_Some (fleet_id j) /\ fleet_deleted_at j = None
    /\ status j ∈ TERMINAL_STATUSES /\ fleet_region j ∉ paused /\ id j ∉ given_up (sched w)) as Hdel.
  { intros j Hj. apply list_elem_of_filter in Hj as [(? & ? & ?) Hj].
    by apply list_elem_of_filter in Hj as [(? & ? & ?) Hj]. }
  destruct (take_over_quota_spec deletable budget over_quota [] [] Hdnd Hoq
              (submseteq_nil_l _) ltac:(cbn; lia) ltac:(set_solver)) as (Hsub & Hlen & Hproj).
  destruct (Z.ltb_spec (Z.of_nat (length (take_over_quota deletable budget over_quota []))) budget)
    as [Hroom|Hfull].
  2:{ injection H as <- <-. split_and!; [done|by eapply NoDup_ids_submseteq|].
      intros j Hj. destruct (Hproj j Hj) as (p & ? & ?).
      destruct (Hdel j ltac:(by eapply elem_of_submseteq)) as (?&?&?&?&?&?&?).
      split_and!; try done. left. by exists p. }
  set (taken := take_over_quota _ _ _ _) in *.
  apply bind_ok_inv in H as (past & w2 & Hpast & H). injection H as <- <-.
  destruct (past_the_window_spec _ _ _ _ Hpast) as [Hpsub Hpold].
  set (extra := take _ _).
  assert (extra ⊆+ filter (fun j => id j ∉ map id taken) past) as Hextra.
  { apply sublist_submseteq, sublist_take. }
  assert (extra ⊆+ deletable) as Hesub.
  { etransitivity; [exact Hextra|]. etransitivity; [apply sublist_submseteq, sublist_filter | done]. }
  split_and!.
  - rewrite length_app. subst extra. rewrite length_take. lia.
  - rewrite map_app. apply NoDup_app. split; [by eapply NoDup_ids_submseteq|].
    split; [|by eapply NoDup_ids_submseteq].
    intros i Hi (j & -> & Hj)%list_elem_of_fmap.
    eapply elem_of_submseteq in Hj; [|exact Hextra]. by apply list_elem_of_filter in Hj as [? _].
  - intros j [Hj|Hj]%elem_of_app.
    + destruct (Hproj j Hj) as (p & ? & ?).
      destruct (Hdel j ltac:(by eapply elem_of_submseteq)) as (?&?&?&?&?&?&?).
      split_and!; try done. left. by exists p.
    + destruct (Hdel j ltac:(by eapply elem_of_submseteq)) as (?&?&?&?&?&?&?).
      split_and!; try done. right. apply Hpold.
      eapply elem_of_submseteq in Hj; [|exact Hextra]. by apply list_elem_of_filter in Hj as [_ ?].
Qed.

(** ** Witnesses *)

Definition ended_job (job_id : JobId) : Job :=
  setattr (F_updated (Some (-5000000000))) (sample_job job_id SUCCEEDED (Some "fleet")).
Definition cleanup_world : World :=
  set_config {[ FLEETS_CLEANUP_MAX_DELETES := "1"; FLEETS_CLEANUP_RETENTION_HOURS := "1" ]}
    (world_of (mk_db {[ "job-1" := ended_job "job-1"; "job-2" := ended_job "job-2" ]} [] [] 0 ∅ [] ∅)
       (ended_job "job-1")).

(** Two failures are already counted. *)
Definition failing_world : World :=
  set_sched (set_failed_attempts [("job-1", 2%nat)] init_sched) cleanup_world.

Lemma count_failure_spec_witness :
  tracking_ok (sched failing_world)
  /\ "job-1" ∈ given_up (sched (snd (count_failure (ended_job "job-1") failing_world))).
Proof.
  assert (tracking_ok (sched failing_world)) as Hok.
  { split_and!; try (cbn; unfold MAX_TRACKED_FAILURES; lia); try apply NoDup_singleton; try constructor.
    - cbn. unfold MAX_ATTEMPTS_PER_FLEET. lia.
    - constructor. }
  split; [exact Hok|].
  exact (proj1 (proj2 (count_failure_spec (ended_job "job-1") failing_world Hok))).
Defined.

Lemma cleanup_keyed : keyed (db cleanup_world).
Proof.
  intros k row Hk. unfold cleanup_world, world_of, set_config in Hk. cbn [db jobs] in Hk.
  rewrite lookup_insert_Some, lookup_singleton_Some in Hk.
  destruct Hk as [[<- <-]|(_ & <- & <-)]; reflexivity.
Qed.

Lemma jobs_to_clean_spec_witness :
  exists res w', jobs_to_clean [("ce-project", 1)] [] cleanup_world = (Ok res, w')
    /\ length res = 1%nat /\ NoDup (map id res).
Proof.
  destruct (jobs_to_clean [("ce-project", 1)] [] cleanup_world) as [[res|e] w'] eqn:E.
  - exists res, w'. split; [reflexivity|]. split.
    + apply (f_equal (fun r => match fst r with Ok l => length l | Raise _ => 0%nat end)) in E.
      vm_compute in E. symmetry. exact E.
    + exact (proj1 (proj2 (jobs_to_clean_spec [("ce-project", 1)] [] cleanup_world res w' E
               cleanup_keyed (NoDup_singleton _)))).
  - apply (f_equal (fun r => match fst r with Ok _ => true | Raise _ => false end)) in E.
    vm_compute in E. discriminate E.
Defined.
