(* ===== verification/OutboxDrain.v ===== *)
(** * Draining the outbox ([scheduler/tasks/outbox_destination.py], [scheduler/tasks/outbox.py])

    A destination sends the rows of its channels, region by region, each region behind a
    breaker of its own and all within a time budget. The sender is a parameter: it delivers
    a message or raises, one at a time or in batches. *)

From S2P Require Import Prelude PyStr Models World BillingEvents JobTransitions TransitionSpec CircuitBreaker FleetsBreakers Schedule.

Local Open Scope string_scope.
Local Open Scope list_scope.
Local Open Scope Z_scope.

Definition BATCH_SIZE : nat := 100.
Definition LAST_ERROR_MAX_LENGTH : nat := 500.
Definition MIN_RETRY_WAIT_SECONDS : Z := 1.
Definition MAX_RETRY_DOUBLINGS : Z := 30.
Definition MAX_RETRY_WAIT_SECONDS : Z := 24 * 3600.

(** [isinstance(self.sender, BatchSender)]. *)
Inductive Sender :=
  | OneByOne (send : Payload -> Py unit)
  | Batch (send_batch : list (nat * Payload) -> Py (list nat)).

Record Destination := mk_destination {
  sender : Sender;
  get_dest_breaker : option string -> BreakerRef;
  dest_regions : World -> list (option string);       (* the regions that have a breaker *)
  budget_key : string;
  retry_base_key : string;
  retry_max_key : string
}.

(** ** Rows *)

Definition due (channel : OutboxChannel) (t : Z) (row : Outbox) : bool :=
  bool_decide (ob_channel row = channel) && negb (ob_unrecoverable row) && (ob_next_attempt_at row <=? t).

Definition update_outbox (pks : list nat) (f : Outbox -> Outbox) (d : DB) : DB :=
  set_outbox (map (fun row => if bool_decide (ob_id row ∈ pks) then f row else row) (outbox d)) d.

Definition delete_outbox (pks : list nat) (d : DB) : DB :=
  set_outbox (filter (fun row => ob_id row ∉ pks) (outbox d)) d.

(** [error.replace("\x00", "")[:LAST_ERROR_MAX_LENGTH]]. *)
Definition stored_error (error : string) : string :=
  take_str LAST_ERROR_MAX_LENGTH (remove_char (ascii_of_nat 0) error).

Definition mark_unrecoverable (row : Outbox) (error : string) : Py unit :=
  modify_db (update_outbox [ob_id row] (fun r =>
    mk_outbox (ob_id r) (ob_job r) (ob_channel r) (ob_region r) (ob_payload r) (ob_created r)
      (S (ob_attempts row)) (ob_next_attempt_at r) (stored_error error) true)).

(** The wait after a number of attempts, in seconds. *)
Definition retry_wait (base cap : Z) (attempts : nat) : Z :=
  let wait := base * 2 ^ Z.min (Z.of_nat attempts - 1) MAX_RETRY_DOUBLINGS in
  Z.max MIN_RETRY_WAIT_SECONDS (Z.min (Z.min wait cap) MAX_RETRY_WAIT_SECONDS).

(** [bulk_update] writes the attempts of the instances that were read. *)
Definition attempts_read (rows : list Outbox) (pk : nat) : nat :=
  match filter (fun r => ob_id r = pk) rows with r :: _ => ob_attempts r | [] => 0 end.

Definition retried (base cap t : Z) (error : string) (rows : list Outbox) (r : Outbox) : Outbox :=
  let attempts := S (attempts_read rows (ob_id r)) in
  mk_outbox (ob_id r) (ob_job r) (ob_channel r) (ob_region r) (ob_payload r) (ob_created r)
    attempts (t + retry_wait base cap attempts * MICROS) error (ob_unrecoverable r).

Section destination.
Context (dest : Destination).

Definition keep_for_retry (rows : list Outbox) (error : string) : Py unit :=
  match rows with
  | [] => ret tt
  | _ =>
      base <- Config_get_int (retry_base_key dest) 120 ;;
      cap <- Config_get_int (retry_max_key dest) 600 ;;
      t <- now ;;
      modify_db (update_outbox (map ob_id rows) (retried base cap t (stored_error error) rows))
  end.

Definition should_continue_draining (deadline : Z) : Py bool :=
  kill <- kill_received ;;
  if kill : bool then ret false
  else
    t <- monotonic ;;
    ret (negb (deadline <=? t)).

(** ** Sending *)

Definition send_batch_of (send_batch : list (nat * Payload) -> Py (list nat)) (breaker : BreakerRef)
    (batch : list Outbox) : Py unit :=
  delivered <- send_batch (map (fun row => (ob_id row, ob_payload row)) batch) ;;
  for_each batch (fun row =>
    count_metric (OutboxSend (ob_channel row)
      (if bool_decide (ob_id row ∈ delivered) then "success" else "failure")) ;;;
    ret true) ;;;
  (match delivered with
   | [] => record_failure breaker
   | _ => record_success breaker ;;; modify_db (delete_outbox delivered)
   end) ;;;
  keep_for_retry (filter (fun row => ob_id row ∉ delivered) batch) "not confirmed by the sender".

Definition send_row (send : Payload -> Py unit) (breaker : BreakerRef) (row : Outbox) : Py unit :=
  sent <- try_except
    (send (ob_payload row) ;;; ret true)
    (fun ex =>
       if isinstance ex RetryableError then
         Some (count_metric (OutboxSend (ob_channel row) "failure") ;;;
               record_failure breaker ;;;
               keep_for_retry [row] (exn_name (exn_class ex) +:+ ": " +:+ exn_str ex) ;;;
               ret false)
       else
         Some (count_metric (OutboxSend (ob_channel row) "unrecoverable") ;;;
               mark_unrecoverable row (exn_name (exn_class ex) +:+ ": " +:+ exn_str ex) ;;;
               ret false)) ;;
  if sent : bool then
    count_metric (OutboxSend (ob_channel row) "success") ;;;
    record_success breaker ;;;
    modify_db (delete_outbox [ob_id row])
  else ret tt.

Definition send_one_by_one (send : Payload -> Py unit) (breaker : BreakerRef) (deadline : Z)
    (batch : list Outbox) : Py unit :=
  for_each batch (fun row =>
    open_ <- is_open breaker ;;
    if open_ : bool then ret false
    else
      go <- should_continue_draining deadline ;;
      if go : bool then send_row send breaker row ;;; ret true else ret false).

(** [order_by("attempts", "created", "pk")]. *)
Definition in_send_order (rows : list Outbox) : list Outbox :=
  order_by (fun r => Z.of_nat (ob_attempts r))
    (order_by ob_created (order_by (fun r => Z.of_nat (ob_id r)) rows)).

(** The [while] of [_drain_region], on fuel. *)
Fixpoint drain_region (fuel : nat) (channel : OutboxChannel) (region : option string)
    (deadline : Z) : Py unit :=
  match fuel with
  | O => ret tt
  | S fuel =>
      let breaker := get_dest_breaker dest region in
      open_ <- is_open breaker ;;
      if open_ : bool then ret tt
      else
        go <- should_continue_draining deadline ;;
        if go : bool then
          t <- now ;;
          d <- get_db ;;
          let batch := take BATCH_SIZE (in_send_order
            (filter (fun row => due channel t row && bool_decide (ob_region row = region)) (outbox d))) in
          match batch with
          | [] => ret tt
          | _ =>
              (match sender dest with
               | Batch send_batch => send_batch_of send_batch breaker batch
               | OneByOne send => send_one_by_one send breaker deadline batch
               end) ;;;
              drain_region fuel channel region deadline
          end
        else ret tt
  end.

(** The regions with rows due, the one with the oldest first. *)
Definition pending_regions (channel : OutboxChannel) : Py (list (option string)) :=
  t <- now ;;
  d <- get_db ;;
  ret (dedup (map ob_region (order_by ob_created (filter (due channel t) (outbox d))))).

Definition drain (fuel : nat) (channel : OutboxChannel) : Py unit :=
  budget_ms <- Config_get_int (budget_key dest) 500 ;;
  started <- monotonic ;;
  let deadline := started + budget_ms * 1000 in
  regions <- pending_regions channel ;;
  for_each regions (fun region =>
    go <- should_continue_draining deadline ;;
    if go : bool then
      open_ <- is_open (get_dest_breaker dest region) ;;
      (if open_ : bool then ret tt else drain_region fuel channel region deadline) ;;;
      ret true
    else ret false).
End destination.

(** ** The task *)

Definition kafka_breaker (region : option string) : BreakerRef := {|
  failure_threshold_key := "scheduler.outbox.kafka.breaker_failures";
  pause_seconds_key := "scheduler.outbox.kafka.breaker_pause_seconds";
  read_breaker := fun w => default new_breaker (kafka_breakers (sched w) !! region);
  write_breaker := fun b w =>
    set_sched (set_kafka_breakers (<[region := b]> (kafka_breakers (sched w))) (sched w)) w
|}.
Definition workload_breaker (region : option string) : BreakerRef := {|
  failure_threshold_key := "scheduler.outbox.workload.breaker_failures";
  pause_seconds_key := "scheduler.outbox.workload.breaker_pause_seconds";
  read_breaker := fun w => default new_breaker (workload_breakers (sched w) !! region);
  write_breaker := fun b w =>
    set_sched (set_workload_breakers (<[region := b]> (workload_breakers (sched w))) (sched w)) w
|}.

Section task.
Context (kafka_sender workload_sender : Sender).

Definition kafka_destination : Destination :=
  mk_destination kafka_sender kafka_breaker (fun w => (map_to_list (kafka_breakers (sched w))).*1)
    "scheduler.outbox.kafka.budget_ms"
    "scheduler.outbox.kafka.retry_base_seconds" "scheduler.outbox.kafka.retry_max_seconds".
Definition workload_destination : Destination :=
  mk_destination workload_sender workload_breaker
    (fun w => (map_to_list (workload_breakers (sched w))).*1) "scheduler.outbox.workload.budget_ms"
    "scheduler.outbox.workload.retry_base_seconds" "scheduler.outbox.workload.retry_max_seconds".

(** License fees and usage share one destination, and so its breakers. *)
Definition channels : list (OutboxChannel * Destination) :=
  [(LICENSE_FEE, kafka_destination); (JOB_USAGE, kafka_destination); (WORKLOAD, workload_destination)].

(** [any(breaker.is_open for ...)]: asking resets a breaker whose pause has elapsed. *)
Definition report_open (dest : Destination) : Py unit :=
  regions <- gets (dest_regions dest) ;;
  for_each regions (fun region =>
    open_ <- is_open (get_dest_breaker dest region) ;;
    ret (negb open_)).

Definition outbox_run (fuel : nat) : Py unit :=
  for_each channels (fun '(channel, dest) =>
    kill <- kill_received ;;
    if kill : bool then ret false
    else drain dest fuel channel ;;; ret true) ;;;
  for_each channels (fun '(_, dest) => report_open dest ;;; ret true).
End task.
