(* ===== verification/OutboxProps.v ===== *)
(** * What draining the outbox promises

    The interface of the senders, the conservation of the rows (kept or delivered, never
    lost), what one attempt writes, the wait before the next one, and the termination of the
    loop over a region. *)

From S2P Require Import Prelude PyStr Models World BillingEvents JobTransitions TransitionSpec Samples CircuitBreaker FleetsBreakers Schedule OutboxDrain.

Local Open Scope string_scope.
Local Open Scope list_scope.
Local Open Scope Z_scope.

(** ** What left the process *)

Definition grows (w w' : World) : Prop :=
  puts w `prefix_of` puts w' /\ kafka w `prefix_of` kafka w'.

(** [p] left the process between the two states. *)
Definition sent_between (w w' : World) (p : Payload) : Prop :=
  exists new_puts new_kafka,
    puts w' = puts w ++ new_puts /\ kafka w' = kafka w ++ new_kafka /\ p ∈ new_puts ++ new_kafka.

#[export] Instance grows_preorder : PreOrder grows.
Proof. split; [by split|]. intros ??? [??] [??]. split; by etransitivity. Qed.

Lemma sent_between_then w w1 w2 p : sent_between w w1 p -> grows w1 w2 -> sent_between w w2 p.
Proof.
  intros (np & nk & Hp & Hk & Hin) [[np' Hp'] [nk' Hk']]. exists (np ++ np'), (nk ++ nk').
  rewrite Hp', Hk', Hp, Hk, !app_assoc. split_and!; [done..|]. set_solver.
Qed.

Lemma then_sent_between w w1 w2 p : grows w w1 -> sent_between w1 w2 p -> sent_between w w2 p.
Proof.
  intros [[np' Hp'] [nk' Hk']] (np & nk & Hp & Hk & Hin). exists (np' ++ np), (nk' ++ nk).
  rewrite Hp, Hk, Hp', Hk', !app_assoc. split_and!; [done..|]. set_solver.
Qed.

(** Everything but the database may move, the clocks only forward. *)
Definition quiet (w w' : World) : Prop :=
  db w' = db w /\ mono w' = mono w /\ config w' = config w /\ (ticks w <= ticks w')%nat /\ grows w w'.

#[export] Instance quiet_preorder : PreOrder quiet.
Proof.
  split; [intros w; split_and!; [done..|reflexivity]|].
  intros w1 w2 w3 (?&?&?&?&?) (?&?&?&?&?).
  split_and!; [congruence..|lia|by etransitivity].
Qed.

(** What the drain relies on: sending writes no row, and what a sender reports as delivered
    did leave the process. *)
Class SenderLaws (s : Sender) : Prop := {
  sender_quiet :
    match s with
    | OneByOne send => forall p, rel quiet (send p)
    | Batch send_batch => forall l, rel quiet (send_batch l)
    end;
  sender_delivers :
    match s with
    | OneByOne send => forall p w w', send p w = (Ok tt, w') -> sent_between w w' p
    | Batch send_batch => forall l w delivered w',
        send_batch l w = (Ok delivered, w') ->
        forall pk, pk ∈ delivered -> exists p, (pk, p) ∈ l /\ sent_between w w' p
    end
}.

Class DestinationLaws (dest : Destination) : Prop := {
  dest_sender :: SenderLaws (sender dest);
  dest_breaker :: forall region, BreakerRefLaws (get_dest_breaker dest region)
}.

Ltac quiet_prim := intros w; split_and!; cbn; [done..|lia|split; cbn; reflexivity].

Lemma quiet_now : rel quiet now. Proof. quiet_prim. Qed.
Lemma quiet_monotonic : rel quiet monotonic.
Proof. quiet_prim. Qed.
Lemma quiet_kill : rel quiet kill_received.
Proof. quiet_prim. Qed.
Lemma quiet_get_db : rel quiet get_db. Proof. intros w. cbn. reflexivity. Qed.
Lemma quiet_count_metric m : rel quiet (count_metric m).
Proof. quiet_prim. Qed.
Lemma quiet_config_get_int key d : rel quiet (Config_get_int key d).
Proof. unfold Config_get_int, Config_get. rel_auto. Qed.
#[export] Hint Resolve quiet_now quiet_monotonic quiet_kill quiet_get_db quiet_count_metric
  quiet_config_get_int : pyrel.

Lemma quiet_put_breaker r b : BreakerRefLaws r -> rel quiet (put_breaker r b).
Proof.
  intros Hr w. unfold put_breaker, modify. cbn [snd].
  split_and!; [apply write_db|apply write_mono|apply write_config|by rewrite write_ticks|].
  destruct (write_sent (r := r) b w) as [Hp Hk]. by split; rewrite ?Hp, ?Hk.
Qed.
Lemma quiet_is_open r : BreakerRefLaws r -> rel quiet (is_open r).
Proof. intros Hr. pose proof quiet_put_breaker. unfold is_open, pause_seconds, reset. rel_auto. Qed.
Lemma quiet_record_success r : BreakerRefLaws r -> rel quiet (record_success r).
Proof. intros Hr. pose proof quiet_put_breaker. unfold record_success. rel_auto. Qed.
Lemma quiet_record_failure r : BreakerRefLaws r -> rel quiet (record_failure r).
Proof. intros Hr. pose proof quiet_put_breaker. unfold record_failure, failure_threshold. rel_auto. Qed.
Lemma quiet_should_continue deadline : rel quiet (should_continue_draining deadline).
Proof. unfold should_continue_draining. rel_auto. Qed.
#[export] Hint Resolve quiet_is_open quiet_record_success quiet_record_failure
  quiet_should_continue : pyrel.

(** ** Rows are kept or delivered *)

(** The same message: what a row announces never changes, only its delivery state does. *)
Definition same_message (r r' : Outbox) : Prop :=
  ob_id r' = ob_id r /\ ob_job r' = ob_job r /\ ob_channel r' = ob_channel r
  /\ ob_region r' = ob_region r /\ ob_payload r' = ob_payload r /\ ob_created r' = ob_created r.

#[export] Instance same_message_preorder : PreOrder same_message.
Proof.
  split; [by repeat split|]. intros ??? (?&?&?&?&?&?) (?&?&?&?&?&?). repeat split; congruence.
Qed.

(** [drained P w w']: only the outbox changed in the database, and in it only the rows whose
    key satisfies [P]; each of those is still there with its message, or was delivered. *)
Record drained (P : nat -> Prop) (w w' : World) : Prop := {
  drained_db : db w' = set_outbox (outbox (db w')) (db w);
  drained_grows : grows w w';
  drained_ids : map ob_id (outbox (db w')) `sublist_of` map ob_id (outbox (db w));
  drained_forward r :
    r ∈ outbox (db w) ->
    (exists r', r' ∈ outbox (db w') /\ same_message r r') \/ sent_between w w' (ob_payload r);
  drained_backward r' :
    r' ∈ outbox (db w') -> exists r, r ∈ outbox (db w) /\ same_message r r';
  drained_others r : ~ P (ob_id r) -> r ∈ outbox (db w') <-> r ∈ outbox (db w)
}.

#[export] Instance drained_preorder P : PreOrder (drained P).
Proof.
  split.
  - intros w. split; [by destruct w as [[] ? ? ? ? ? ? ? ? ?]|reflexivity|done| |naive_solver|done].
    intros r Hr. left. by exists r.
  - intros w w1 w2 [D1 G1 I1 F1 B1 O1] [D2 G2 I2 F2 B2 O2]. split.
    + rewrite D2 at 1. rewrite D1. done.
    + by etransitivity.
    + by etransitivity.
    + intros r Hr. destruct (F1 r Hr) as [(r1 & H1 & Hs1)|?]; [|right; by eapply sent_between_then].
      destruct (F2 r1 H1) as [(r2 & H2 & Hs2)|Hs].
      * left. exists r2. split; [done|by etransitivity].
      * right. destruct Hs1 as (_ & _ & _ & _ & Hp & _). rewrite Hp in Hs. by eapply then_sent_between.
    + intros r2 H2. destruct (B2 r2 H2) as (r1 & H1 & Hs2). destruct (B1 r1 H1) as (r & Hr & Hs1).
      exists r. split; [done|by etransitivity].
    + intros r Hr. rewrite O2, O1; done.
Qed.

Lemma drained_mono (P Q : nat -> Prop) w w' : (forall n, P n -> Q n) -> drained P w w' -> drained Q w w'.
Proof. intros HPQ [D G I F B O]. split; try done. intros r Hr. apply O. auto. Qed.

Lemma drained_quiet P w w' : quiet w w' -> drained P w w'.
Proof.
  intros (Hd & _ & _ & _ & Hg). split; rewrite ?Hd; [|done|done| |naive_solver|done].
  - by destruct (db w).
  - intros r Hr. left. by exists r.
Qed.

Lemma rel_drained_quiet {A} P (m : Py A) : rel quiet m -> rel (drained P) m.
Proof. apply rel_mono. intros. by apply drained_quiet. Qed.
#[export] Hint Extern 5 (rel (drained _) _) => apply rel_drained_quiet : pyrel.

Lemma sublist_map_filter {A B} (f : A -> B) (P : A -> Prop) `{forall x, Decision (P x)} (l : list A) :
  map f (filter P l) `sublist_of` map f l.
Proof.
  induction l as [|x l IH]; [done|]. rewrite filter_cons. case_decide; cbn; by constructor.
Qed.

(** Changing the delivery state of some rows. *)
Lemma drained_update pks f w :
  (forall r, same_message r (f r)) ->
  drained (fun n => n ∈ pks) w (set_db (update_outbox pks f (db w)) w).
Proof.
  intros Hf. set (g := fun row => if bool_decide (ob_id row ∈ pks) then f row else row).
  assert (forall r, same_message r (g r)) as Hg by (intros r; unfold g; by case_bool_decide).
  assert (forall r, ob_id (g r) = ob_id r) as Hid by (intros r; apply Hg).
  split; cbn; [done|split; cbn; reflexivity| | | |].
  - rewrite map_map. fold g. erewrite map_ext; [done|]. intros r. apply Hid.
  - intros r Hr. left. exists (g r). split; [by apply list_elem_of_fmap_2|done].
  - intros r' (r & -> & Hr)%list_elem_of_fmap. by exists r.
  - intros r Hn. split.
    + intros (r0 & Heq & Hr0)%list_elem_of_fmap. fold (g r0) in Heq.
      assert (ob_id r0 ∉ pks) as Hn0 by (rewrite <- Hid, <- Heq; done).
      unfold g in Heq. rewrite bool_decide_eq_false_2 in Heq by done. by subst.
    + intros Hr. apply list_elem_of_fmap. exists r. split; [|done].
      by rewrite bool_decide_eq_false_2.
Qed.

(** Deleting rows that were delivered since [w0]. *)
Lemma drained_delete pks w0 w :
  quiet w0 w ->
  (forall r, r ∈ outbox (db w) -> ob_id r ∈ pks -> sent_between w0 w (ob_payload r)) ->
  drained (fun n => n ∈ pks) w0 (set_db (delete_outbox pks (db w)) w).
Proof.
  intros (Hd & _ & _ & _ & Hg) Hs. rewrite Hd in *. split; cbn; [done|done| | | |].
  - apply sublist_map_filter.
  - intros r Hr. destruct (decide (ob_id r ∈ pks)) as [Hin|Hn]; [right; by apply Hs|].
    left. exists r. by rewrite list_elem_of_filter.
  - intros r' [_ Hr]%list_elem_of_filter. by exists r'.
  - intros r Hn. rewrite list_elem_of_filter. naive_solver.
Qed.

Section operations.
Context (dest : Destination).

Lemma keep_for_retry_drained rows error :
  rel (drained (fun n => n ∈ map ob_id rows)) (keep_for_retry dest rows error).
Proof.
  destruct rows as [|row rows]; [intros w; cbn; reflexivity|]. unfold keep_for_retry.
  do 3 (rel_step; [rel_auto|]). intros w. unfold modify_db, modify. cbn [snd].
  apply drained_update. intros r. by repeat split.
Qed.

(** The rows in hand still announce what the table says. *)
Definition fresh_reads (batch : list Outbox) (w : World) : Prop :=
  forall r r', r ∈ batch -> r' ∈ outbox (db w) -> ob_id r' = ob_id r -> ob_payload r' = ob_payload r.

Lemma mark_unrecoverable_drained row error :
  rel (drained (fun n => n ∈ [ob_id row])) (mark_unrecoverable row error).
Proof.
  intros w. unfold mark_unrecoverable, modify_db, modify. cbn [snd].
  apply drained_update. intros r. by repeat split.
Qed.

(** After a delivery the rows go, whatever else is recorded. *)
Lemma delivered_drained breaker pks w w1 :
  BreakerRefLaws breaker -> quiet w w1 ->
  (forall r, r ∈ outbox (db w) -> ob_id r ∈ pks -> sent_between w w1 (ob_payload r)) ->
  drained (fun n => n ∈ pks) w
    (snd ((record_success breaker ;;; modify_db (delete_outbox pks)) w1)).
Proof.
  intros Hb Hq Hs. rewrite (bind_ok _ _ _ _ _ (record_success_run breaker w1)).
  pose proof (quiet_record_success _ Hb w1) as H12. rewrite record_success_run in H12. cbn [snd] in H12.
  set (w2 := write_breaker _ _ _) in *. clearbody w2.
  unfold modify_db, modify. cbn [snd].
  assert (quiet w w2) as H02 by (by etransitivity).
  apply drained_delete; [done|]. intros r Hr Hid.
  destruct H02 as (Hdb & _). rewrite Hdb in Hr.
  eapply sent_between_then; [by apply Hs|apply H12].
Qed.

Lemma send_row_drained send breaker row w :
  SenderLaws (OneByOne send) -> BreakerRefLaws breaker -> fresh_reads [row] w ->
  drained (fun n => n ∈ [ob_id row]) w (snd (send_row dest send breaker row w)).
Proof.
  intros [Hq Hd] Hb Hf. cbn in Hq, Hd.
  pose proof (keep_for_retry_drained [row]) as Hk. pose proof (mark_unrecoverable_drained row) as Hm.
  pose proof (Hq (ob_payload row) w) as Hquiet. specialize (Hd (ob_payload row) w).
  unfold send_row. destruct (send (ob_payload row) w) as [[[]|e] w1] eqn:E; cbn [snd] in Hquiet.
  - erewrite bind_ok; [|eapply try_except_ok; by rewrite (bind_ok _ _ _ _ _ E)].
    set (m := OutboxSend (ob_channel row) "success").
    cbn match. rewrite (bind_ok (count_metric m) _ w1 tt (snd (count_metric m w1)) eq_refl).
    pose proof (quiet_count_metric m w1) as H12. set (w2 := snd (count_metric m w1)) in *. clearbody w2.
    apply delivered_drained; [done|by etransitivity|]. intros r Hr Hid%list_elem_of_singleton.
    rewrite (Hf row r (list_elem_of_here _ _) Hr Hid).
    eapply sent_between_then; [by apply Hd|apply H12].
  - set (m := try_except _ _). assert (exists k, m w = k w1
        /\ (k = (count_metric (OutboxSend (ob_channel row) "failure") ;;; record_failure breaker ;;;
               keep_for_retry dest [row] (exn_name (exn_class e) +:+ ": " +:+ exn_str e) ;;; ret false)
            \/ k = (count_metric (OutboxSend (ob_channel row) "unrecoverable") ;;;
               mark_unrecoverable row (exn_name (exn_class e) +:+ ": " +:+ exn_str e) ;;; ret false)))
      as (k & Hm' & Hcases).
    { unfold m. destruct (isinstance e RetryableError) eqn:Hi.
      - eexists. split; [|by left].
        apply (try_except_caught _ _ _ e w1 _); [by rewrite (bind_raise _ _ _ _ _ E)|by rewrite Hi].
      - eexists. split; [|by right].
        apply (try_except_caught _ _ _ e w1 _); [by rewrite (bind_raise _ _ _ _ _ E)|by rewrite Hi]. }
    assert (rel (drained (fun n => n ∈ [ob_id row])) k) as Hrel
      by (destruct Hcases as [-> | ->]; rel_auto).
    assert (drained (fun n => n ∈ [ob_id row]) w (snd (m w))) as Hdr
      by (rewrite Hm'; transitivity w1; [by apply drained_quiet|apply Hrel]).
    apply (rel_bind_at _); [exact Hdr|]. intros b s' Hb' _.
    assert (b = false) as ->; [|cbn; reflexivity].
    rewrite Hm' in Hb'. destruct Hcases as [-> | ->]; by inv_run Hb'.
Qed.
Lemma fresh_reads_drained P batch w w' :
  drained P w w' -> (forall r, r ∈ batch -> ~ P (ob_id r)) -> fresh_reads batch w -> fresh_reads batch w'.
Proof.
  intros Hd HP Hf r r' Hr Hr' Hid. apply (Hf r r'); [done| |done].
  apply (drained_others _ _ _ Hd); [rewrite Hid; by apply HP|done].
Qed.

Lemma fresh_reads_quiet batch w w' : quiet w w' -> fresh_reads batch w -> fresh_reads batch w'.
Proof. intros [Hd _] Hf r r' Hr Hr'. rewrite Hd in Hr'. by apply Hf. Qed.

Lemma fresh_reads_cons row batch w :
  fresh_reads (row :: batch) w -> fresh_reads [row] w /\ fresh_reads batch w.
Proof. intros Hf. split; intros r r' Hr; apply Hf; set_solver. Qed.

Lemma send_one_by_one_drained send breaker deadline batch w :
  SenderLaws (OneByOne send) -> BreakerRefLaws breaker ->
  NoDup (map ob_id batch) -> fresh_reads batch w ->
  drained (fun n => n ∈ map ob_id batch) w (snd (send_one_by_one dest send breaker deadline batch w)).
Proof.
  intros Hs Hb. revert w. induction batch as [|row batch IH]; intros w Hnd Hf.
  { unfold send_one_by_one. cbn. reflexivity. }
  cbn [map] in Hnd. apply NoDup_cons in Hnd as [Hn Hnd].
  apply fresh_reads_cons in Hf as [Hf1 Hf]. unfold send_one_by_one. cbn [for_each].
  assert (forall w', fresh_reads [row] w' -> drained (fun n => n ∈ [ob_id row]) w' (snd
    ((open_ <- is_open breaker ;;
      if open_ : bool then ret false
      else go <- should_continue_draining deadline ;;
           if go : bool then send_row dest send breaker row ;;; ret true else ret false) w'))) as Hbody.
  { intros w' Hf'. apply (rel_bind_at _).
    { apply drained_quiet, quiet_is_open, Hb. }
    intros o s1 H1 _. pose proof (quiet_is_open _ Hb w') as Hq1. rewrite H1 in Hq1. cbn [snd] in Hq1.
    destruct o; [cbn; reflexivity|]. apply (rel_bind_at _).
    { apply drained_quiet, quiet_should_continue. }
    intros g s2 H2 _. pose proof (quiet_should_continue deadline s1) as Hq2. rewrite H2 in Hq2.
    cbn [snd] in Hq2. destruct g; [|cbn; reflexivity]. apply (rel_bind_at _).
    { apply send_row_drained; [done..|]. apply (fresh_reads_quiet _ w'); [by etransitivity|done]. }
    intros. cbn. reflexivity. }
  specialize (Hbody w). apply (rel_bind_at _).
  - eapply drained_mono; [|by apply Hbody]. cbn. set_solver.
  - intros go s' Hrun _. rewrite Hrun in Hbody. cbn [snd] in Hbody.
    destruct go; [|cbn; reflexivity].
    eapply drained_mono; [|apply IH; [done|]]; [cbn; set_solver|].
    eapply fresh_reads_drained; [by apply Hbody| |done].
    intros r Hr Hin. apply Hn. apply list_elem_of_singleton in Hin. rewrite <- Hin.
    by apply list_elem_of_fmap_2.
Qed.

Lemma rel_for_each_ok {A} (l : list A) (f : A -> Py unit) w :
  (forall x w, exists w', f x w = (Ok tt, w')) ->
  fst (for_each l (fun x => f x ;;; ret true) w) = Ok tt.
Proof.
  intros Hf. revert w. induction l as [|x l IH]; intros w; [done|]. cbn [for_each].
  destruct (Hf x w) as [w' Hw]. erewrite bind_ok; [|by erewrite bind_ok]. apply IH.
Qed.

Lemma send_batch_drained send_batch breaker batch w :
  SenderLaws (Batch send_batch) -> BreakerRefLaws breaker -> fresh_reads batch w ->
  drained (fun n => n ∈ map ob_id batch) w (snd (send_batch_of dest send_batch breaker batch w)).
Proof.
  intros [Hq Hd] Hb Hf. cbn in Hq, Hd. unfold send_batch_of.
  set (msgs := map (fun row => (ob_id row, ob_payload row)) batch). specialize (Hq msgs w). specialize (Hd msgs w).
  apply (rel_bind_from _); [by apply drained_quiet|]. intros delivered w1 H1 _.
  rewrite H1 in Hq. cbn [snd] in Hq. specialize (Hd delivered w1 H1).
  match goal with |- context [for_each batch ?f] => set (count := for_each batch f) end.
  assert (rel quiet count) as Hcount by (unfold count; rel_auto).
  apply (rel_bind_from _).
  { apply drained_quiet. etransitivity; [exact Hq|apply Hcount]. }
  intros [] w2 H2 _. pose proof (Hcount w1) as Hq2. rewrite H2 in Hq2. cbn [snd] in Hq2.
  assert (quiet w w2) as Hq02 by (by etransitivity).
  apply (rel_bind_from _).
  - destruct delivered as [|pk delivered].
    + apply drained_quiet. etransitivity; [exact Hq02|by apply quiet_record_failure].
    + eapply drained_mono; [|apply delivered_drained; [done..|]].
      * cbn beta. intros n Hn. destruct (Hd n Hn) as (p & Hp & _).
        apply list_elem_of_fmap in Hp as (r & [= -> _] & Hr). by apply list_elem_of_fmap_2.
      * intros r Hr Hn. destruct (Hd _ Hn) as (p & Hp & Hsent).
        apply list_elem_of_fmap in Hp as (r0 & [= Hid ->] & Hr0).
        rewrite (Hf r0 r Hr0 Hr Hid). eapply sent_between_then; [done|apply Hq2].
  - intros [] w3 _ H3. etransitivity; [exact H3|].
    eapply drained_mono; [|apply keep_for_retry_drained]. cbn beta.
    intros n (r & -> & [_ Hr]%list_elem_of_filter)%list_elem_of_fmap. by apply list_elem_of_fmap_2.
Qed.
End operations.

(** ** Conservation *)

Definition keys_ok (w : World) : Prop := NoDup (map ob_id (outbox (db w))).

(** A row of a channel in [C] is kept or was delivered; every other row, and every row marked
    unrecoverable, is exactly as it was. *)
Record conserved (C : OutboxChannel -> Prop) (w w' : World) : Prop := {
  conserved_drained : drained (fun _ => True) w w';
  conserved_other r : ~ C (ob_channel r) -> r ∈ outbox (db w') <-> r ∈ outbox (db w);
  conserved_parked r : r ∈ outbox (db w) -> ob_unrecoverable r = true -> r ∈ outbox (db w')
}.

(** Under the uniqueness of the primary keys, which the drain keeps. *)
Definition conserves (C : OutboxChannel -> Prop) (w w' : World) : Prop :=
  keys_ok w -> keys_ok w' /\ conserved C w w'.

#[export] Instance conserves_preorder C : PreOrder (conserves C).
Proof.
  split.
  - intros w Hk. split; [done|]. split; [reflexivity|done..].
  - intros w w1 w2 H1 H2 Hk. destruct (H1 Hk) as [Hk1 [D1 O1 P1]]. destruct (H2 Hk1) as [Hk2 [D2 O2 P2]].
    split; [done|]. split; [by etransitivity| |by auto].
    intros r Hr. by rewrite O2, O1.
Qed.

Lemma conserves_quiet C w w' : quiet w w' -> conserves C w w'.
Proof.
  intros Hq Hk. pose proof Hq as (Hd & _). split; [by unfold keys_ok; rewrite Hd|].
  split; [by apply drained_quiet| |]; by rewrite Hd.
Qed.
Lemma rel_conserves_quiet {A} C (m : Py A) : rel quiet m -> rel (conserves C) m.
Proof. apply rel_mono. intros. by apply conserves_quiet. Qed.
#[export] Hint Extern 5 (rel (conserves _) _) => apply rel_conserves_quiet : pyrel.

Lemma conserves_mono (C C' : OutboxChannel -> Prop) w w' :
  (forall c, C c -> C' c) -> conserves C w w' -> conserves C' w w'.
Proof.
  intros HC H Hk. destruct (H Hk) as [Hk' [D O P]]. split; [done|]. split; [done| |done].
  intros r Hr. apply O. auto.
Qed.

(** One row per key. *)
Lemma row_of_key w r r' :
  keys_ok w -> r ∈ outbox (db w) -> r' ∈ outbox (db w) -> ob_id r' = ob_id r -> r' = r.
Proof.
  unfold keys_ok. induction (outbox (db w)) as [|x l IH]; [set_solver|]. cbn [map].
  intros [Hx Hl]%NoDup_cons Hr Hr' Hid.
  apply elem_of_cons in Hr as [->|Hr], Hr' as [->|Hr']; [done| | |by apply IH];
    exfalso; apply Hx, list_elem_of_fmap; eauto.
Qed.

(** Touching rows that were read as pending, each by its key, conserves. *)
Lemma drained_conserves ch batch w w' :
  drained (fun n => n ∈ map ob_id batch) w w' ->
  (forall r, r ∈ batch -> r ∈ outbox (db w) /\ ob_channel r = ch /\ ob_unrecoverable r = false) ->
  conserves (fun c => c = ch) w w'.
Proof.
  intros Hd Hbatch Hk.
  assert (keys_ok w') as Hk' by (eapply submseteq_NoDup; [apply sublist_submseteq, (drained_ids _ _ _ Hd)|done]).
  assert (forall r, r ∈ outbox (db w) -> ob_id r ∈ map ob_id batch -> r ∈ batch) as Hin.
  { intros r Hr (r0 & Hid & Hr0)%list_elem_of_fmap.
    rewrite (row_of_key w r0 r); [done..|by apply Hbatch|done|done]. }
  split; [done|]. split.
  - by eapply drained_mono.
  - intros r Hr. split; intros Hr'.
    + apply (drained_others _ _ _ Hd); [|done].
      destruct (drained_backward _ _ _ Hd r Hr') as (r0 & Hr0 & Hid & _ & Hch & _).
      rewrite Hid. intros H%Hin; [|done]. apply Hbatch in H as (_ & Hch' & _). congruence.
    + apply (drained_others _ _ _ Hd); [|done]. intros H%Hin; [|done].
      by apply Hbatch in H as (_ & Hch' & _).
  - intros r Hr Hu. apply (drained_others _ _ _ Hd); [|done]. intros H%Hin; [|done].
    apply Hbatch in H as (_ & _ & H). congruence.
Qed.

(** ** The loops *)

Definition batch_of (ch : OutboxChannel) (region : option string) (t : Z) (d : DB) : list Outbox :=
  take BATCH_SIZE (in_send_order
    (filter (fun row => due ch t row && bool_decide (ob_region row = region)) (outbox d))).

Lemma in_send_order_Permutation rows : in_send_order rows ≡ₚ rows.
Proof. unfold in_send_order. by rewrite !order_by_Permutation. Qed.

Lemma elem_of_batch ch region t d r :
  r ∈ batch_of ch region t d ->
  r ∈ outbox d /\ ob_channel r = ch /\ ob_region r = region /\ ob_unrecoverable r = false
  /\ ob_next_attempt_at r <= t.
Proof.
  intros Hr%(subseteq_take _ _). rewrite in_send_order_Permutation in Hr.
  apply list_elem_of_filter in Hr as [Hr Hin]. unfold due in Hr.
  rewrite !andb_True, negb_True, !bool_decide_spec in Hr. destruct Hr as [[[? Hu] Ht%Is_true_true] ?].
  apply Z.leb_le in Ht. split_and!; try done. by destruct (ob_unrecoverable r).
Qed.

Lemma batch_keys ch region t w : keys_ok w -> NoDup (map ob_id (batch_of ch region t (db w))).
Proof.
  intros Hk. eapply submseteq_NoDup; [|exact Hk]. apply fmap_submseteq.
  etransitivity; [apply sublist_submseteq, sublist_take|].
  rewrite in_send_order_Permutation. apply sublist_submseteq, sublist_filter.
Qed.

Lemma fresh_batch ch region t w : keys_ok w -> fresh_reads (batch_of ch region t (db w)) w.
Proof.
  intros Hk r r' Hr Hr' Hid. apply elem_of_batch in Hr as [Hr _].
  by rewrite (row_of_key w r r').
Qed.

Section loops.
Context (dest : Destination) `{!DestinationLaws dest}.

Definition send_step (ch : OutboxChannel) (region : option string) (deadline t : Z) (d : DB) : Py unit :=
  match sender dest with
  | Batch send_batch => send_batch_of dest send_batch (get_dest_breaker dest region) (batch_of ch region t d)
  | OneByOne send => send_one_by_one dest send (get_dest_breaker dest region) deadline (batch_of ch region t d)
  end.

Lemma send_step_conserves ch region deadline t w :
  conserves (fun c => c = ch) w (snd (send_step ch region deadline t (db w) w)).
Proof.
  intros Hk. apply (drained_conserves ch (batch_of ch region t (db w))); [| |done].
  - unfold send_step. pose proof (dest_sender (dest := dest)) as Hs.
    destruct (sender dest) as [send|send_batch].
    + apply send_one_by_one_drained; [done|apply dest_breaker|by apply batch_keys|by apply fresh_batch].
    + apply send_batch_drained; [done|apply dest_breaker|by apply fresh_batch].
  - intros r (? & ? & _ & ? & _)%elem_of_batch. done.
Qed.

(** One turn of the loop. *)
Lemma drain_region_S fuel ch region deadline :
  drain_region dest (S fuel) ch region deadline =
  (open_ <- is_open (get_dest_breaker dest region) ;;
   if open_ : bool then ret tt
   else
     go <- should_continue_draining deadline ;;
     if go : bool then
       t <- now ;;
       d <- get_db ;;
       match batch_of ch region t d with
       | [] => ret tt
       | _ => send_step ch region deadline t d ;;; drain_region dest fuel ch region deadline
       end
     else ret tt).
Proof. reflexivity. Qed.

Lemma drain_region_conserves fuel ch region deadline :
  rel (conserves (fun c => c = ch)) (drain_region dest fuel ch region deadline).
Proof.
  pose proof dest_breaker. induction fuel as [|fuel IH]; [apply rel_ret; exact _|].
  rewrite drain_region_S.
  do 2 (rel_step; [rel_auto|]; destruct a; [|try solve [rel_auto]]; try solve [rel_auto]).
  rel_step; [rel_auto|]. intros w. rewrite (bind_ok get_db _ w (db w) w eq_refl).
  destruct (batch_of ch region a (db w)) eqn:E; [cbn; reflexivity|].
  apply (rel_bind_at _); [apply send_step_conserves|intros; apply IH].
Qed.

Lemma quiet_pending_regions ch : rel quiet (pending_regions ch).
Proof. unfold pending_regions. rel_auto. Qed.

Lemma drain_conserves fuel ch : rel (conserves (fun c => c = ch)) (drain dest fuel ch).
Proof.
  pose proof dest_breaker. pose proof drain_region_conserves. pose proof quiet_pending_regions.
  unfold drain. rel_auto.
Qed.

Lemma quiet_report_open : rel quiet (report_open dest).
Proof. pose proof dest_breaker. unfold report_open. rel_auto. Qed.
End loops.

#[export] Instance kafka_breaker_laws region : BreakerRefLaws (kafka_breaker region).
Proof.
  split; intros; unfold kafka_breaker; cbn; try done; [by rewrite lookup_insert_eq|].
  destruct w as [? ? ? ? ? ? ? ? ? [? ? ? ? ? ? ? ? ? ?]]; unfold set_sched; cbn; by rewrite insert_insert_eq.
Qed.
#[export] Instance workload_breaker_laws region : BreakerRefLaws (workload_breaker region).
Proof.
  split; intros; unfold workload_breaker; cbn; try done; [by rewrite lookup_insert_eq|].
  destruct w as [? ? ? ? ? ? ? ? ? [? ? ? ? ? ? ? ? ? ?]]; unfold set_sched; cbn; by rewrite insert_insert_eq.
Qed.

(** ** Termination *)

(** [m n w] no longer depends on the fuel [n] once there is enough of it. *)
Definition converges {A} (m : nat -> Py A) (w : World) : Prop :=
  exists N, forall n, (N <= n)%nat -> m n w = m N w.

Lemma converges_const {A} (m : Py A) w : converges (fun _ => m) w.
Proof. by exists 0%nat. Qed.

Lemma converges_bind {A B} (m : nat -> Py A) (k : nat -> A -> Py B) w :
  converges m w ->
  (forall n a w', m n w = (Ok a, w') -> converges (fun n => k n a) w') ->
  converges (fun n => bind (m n) (k n)) w.
Proof.
  intros [N HN] Hk. unfold converges, bind. destruct (m N w) as [[a|e] w'] eqn:E.
  - destruct (Hk _ _ _ E) as [N' HN']. exists (max N N'). intros n Hn.
    rewrite (HN n), (HN (max N N')) by lia. rewrite (HN' n), (HN' (max N N')) by lia. done.
  - exists N. intros n Hn. by rewrite (HN n), E.
Qed.

Lemma converges_for_each {A} (l : list A) (body : nat -> A -> Py bool) (I : World -> Prop) w :
  (forall x w, x ∈ l -> I w -> converges (fun n => body n x) w) ->
  (forall n x, x ∈ l -> preserves I (body n x)) ->
  I w -> converges (fun n => for_each l (body n)) w.
Proof.
  intros Hb Hp. revert w. induction l as [|x l IH]; intros w Hw; [apply converges_const|].
  cbn [for_each]. apply (converges_bind (fun n => body n x)); [by apply Hb; [left|]|].
  intros n go w' Hrun. destruct go; [|apply converges_const].
  apply IH; [intros; apply Hb; [by right|done]|intros; apply Hp; by right|].
  pose proof (Hp n x ltac:(left) w Hw) as H. by rewrite Hrun in H.
Qed.

(** The clocks are those of the same process, read further on. *)
Definition later (w w' : World) : Prop := mono w' = mono w /\ (ticks w <= ticks w')%nat.
#[export] Instance later_preorder : PreOrder later.
Proof. split; [by split|]. intros ??? [??] [??]. split; [congruence|lia]. Qed.
Lemma later_quiet w w' : quiet w w' -> later w w'.
Proof. intros (?&?&?&?&?). by split. Qed.
Lemma rel_later_quiet {A} (m : Py A) : rel quiet m -> rel later m.
Proof. apply rel_mono, later_quiet. Qed.
#[export] Hint Extern 5 (rel later _) => apply rel_later_quiet : pyrel.
Lemma later_modify_db f : rel later (modify_db f). Proof. done. Qed.
#[export] Hint Resolve later_modify_db : pyrel.

(** A monotonic clock that moves: it never goes back and passes any deadline. *)
Definition clock_advances (w : World) : Prop :=
  (forall i j, (i <= j)%nat -> mono w i <= mono w j) /\ (forall t, exists i, t <= mono w i).

Lemma clock_advances_later w w' : later w w' -> clock_advances w -> clock_advances w'.
Proof. intros [Hm _]. unfold clock_advances. by rewrite Hm. Qed.

Section terminates.
Context (dest : Destination) `{!DestinationLaws dest}.

Lemma later_keep_for_retry rows e : rel later (keep_for_retry dest rows e).
Proof. unfold keep_for_retry. rel_auto. Qed.

Lemma later_send_step ch region deadline t d : rel later (send_step dest ch region deadline t d).
Proof.
  pose proof (dest_sender (dest := dest)) as Hs. pose proof (dest_breaker (dest := dest)) as Hb.
  pose proof later_keep_for_retry. unfold send_step. destruct (sender dest) as [send|send_batch].
  - pose proof (sender_quiet (s := OneByOne send)) as Hq. cbn in Hq.
    unfold send_one_by_one, send_row, mark_unrecoverable. rel_auto.
  - pose proof (sender_quiet (s := Batch send_batch)) as Hq. cbn in Hq.
    unfold send_batch_of. rel_auto.
Qed.

Lemma later_drain_region fuel ch region deadline :
  rel later (drain_region dest fuel ch region deadline).
Proof.
  pose proof (dest_breaker (dest := dest)). pose proof later_send_step.
  induction fuel as [|fuel IH]; [apply rel_ret; exact _|]. rewrite drain_region_S. rel_auto.
Qed.

Lemma later_drain fuel ch : rel later (drain dest fuel ch).
Proof.
  pose proof (dest_breaker (dest := dest)). pose proof later_drain_region.
  pose proof quiet_pending_regions. unfold drain. rel_auto.
Qed.

(** Going on means that a reading of the clock was before the deadline. *)
Lemma should_continue_true deadline w w' :
  should_continue_draining deadline w = (Ok true, w') ->
  exists i, (ticks w <= i < ticks w')%nat /\ mono w i < deadline.
Proof.
  unfold should_continue_draining, kill_received, monotonic, bind, ret.
  destruct (killed w (ticks w)); [done|]. cbn. intros [= Hd <-]. exists (S (ticks w)). cbn.
  apply negb_true_iff, Z.leb_gt in Hd. split; [lia|done].
Qed.

Lemma rel_at {S A} (R : S -> S -> Prop) (m : M S A) s o s' : rel R m -> m s = (o, s') -> R s s'.
Proof. intros Hm H. specialize (Hm s). by rewrite H in Hm. Qed.

(** The loop over a region needs no more turns than the clock has readings left before the
    deadline. *)
Lemma drain_region_fuel N ch region deadline i w :
  clock_advances w -> deadline <= mono w i -> (i < N + ticks w)%nat -> (0 < N)%nat ->
  forall n, (N <= n)%nat -> drain_region dest n ch region deadline w = drain_region dest N ch region deadline w.
Proof.
  pose proof (dest_breaker (dest := dest)) as Hb. revert w.
  induction N as [|N IH]; intros w Hc Hi HN H0 n Hn; [lia|].
  destruct n as [|n]; [lia|]. rewrite !drain_region_S.
  apply bind_ext_ok. intros o w1 H1. destruct o; [done|].
  apply (rel_at later) in H1 as [Hm1 Ht1]; [|rel_auto].
  apply bind_ext_ok. intros g w2 H2. destruct g; [|done].
  apply should_continue_true in H2 as H2'. destruct H2' as (j & Hj & Hlt).
  apply (rel_at later) in H2 as [Hm2 Ht2]; [|rel_auto].
  apply bind_ext_ok. intros t w3 H3. apply (rel_at later) in H3 as [Hm3 Ht3]; [|rel_auto].
  apply bind_ext_ok. intros d w4 H4. apply (rel_at later) in H4 as [Hm4 Ht4]; [|rel_auto].
  destruct (batch_of ch region t d); [done|].
  apply bind_ext_ok. intros [] w5 H5. apply (rel_at later) in H5 as [Hm5 Ht5]; [|apply later_send_step].
  assert (mono w5 = mono w) as Hm by congruence.
  assert (j < i)%nat as Hji.
  { destruct (decide (i <= j)%nat) as [Hle|]; [|lia].
    destruct Hc as [Hmono _]. specialize (Hmono i j Hle). rewrite Hm1 in Hlt. lia. }
  apply IH; [|by rewrite Hm|lia|lia|lia]. unfold clock_advances in *. by rewrite Hm.
Qed.

Lemma drain_region_converges ch region deadline w :
  clock_advances w -> converges (fun n => drain_region dest n ch region deadline) w.
Proof.
  intros Hc. destruct (proj2 Hc deadline) as [i Hi]. exists (S i). intros n Hn.
  by apply (drain_region_fuel (S i) ch region deadline i w); [..|lia|lia|].
Qed.

Lemma drain_converges ch w : clock_advances w -> converges (fun n => drain dest n ch) w.
Proof.
  pose proof (dest_breaker (dest := dest)) as Hb. pose proof quiet_pending_regions.
  intros Hc. unfold drain.
  apply (converges_bind (fun _ => _)); [apply converges_const|]. intros _ budget w1 H1.
  apply (rel_at later) in H1; [|rel_auto].
  apply (converges_bind (fun _ => _)); [apply converges_const|]. intros _ t w2 H2.
  apply (rel_at later) in H2; [|rel_auto].
  apply (converges_bind (fun _ => _)); [apply converges_const|]. intros _ regions w3 H3.
  apply (rel_at later) in H3; [|rel_auto].
  eapply (converges_for_each _ _ clock_advances).
  - intros region w' _ Hw'.
    apply (converges_bind (fun _ => _)); [apply converges_const|]. intros _ go w1' H1'.
    apply (rel_at later) in H1'; [|rel_auto]. destruct go; [|apply converges_const].
    apply (converges_bind (fun _ => _)); [apply converges_const|]. intros _ o w2' H2'.
    apply (rel_at later) in H2'; [|rel_auto].
    eapply (converges_bind (fun n => if o then ret tt else drain_region dest n ch region _)).
    + destruct o; [apply converges_const|]. apply drain_region_converges.
      by eapply clock_advances_later; [|eapply clock_advances_later].
    + intros. apply converges_const.
  - intros n region _. apply (rel_mono later); [|pose proof later_drain_region; rel_auto].
    intros ??. by apply clock_advances_later.
  - do 3 (eapply clock_advances_later; [eassumption|]). done.
Qed.
End terminates.

Section run.
Context (kafka_sender workload_sender : Sender).
Context `{!SenderLaws kafka_sender} `{!SenderLaws workload_sender}.

Instance kafka_destination_laws : DestinationLaws (kafka_destination kafka_sender).
Proof. split; [done|exact kafka_breaker_laws]. Qed.
Instance workload_destination_laws : DestinationLaws (workload_destination workload_sender).
Proof. split; [done|exact workload_breaker_laws]. Qed.

Lemma outbox_run_conserves fuel :
  rel (conserves (fun _ => True)) (outbox_run kafka_sender workload_sender fuel).
Proof.
  assert (forall ch dest, DestinationLaws dest ->
    rel (conserves (fun _ => True)) (drain dest fuel ch)) as Hdrain.
  { intros ch dest Hl. eapply rel_mono; [|by apply (drain_conserves dest fuel ch)].
    intros ??. by apply conserves_mono. }
  pose proof (Hdrain LICENSE_FEE _ kafka_destination_laws).
  pose proof (Hdrain JOB_USAGE _ kafka_destination_laws).
  pose proof (Hdrain WORKLOAD _ workload_destination_laws).
  pose proof (quiet_report_open (kafka_destination kafka_sender)).
  pose proof (quiet_report_open (workload_destination workload_sender)).
  unfold outbox_run, channels. cbn [for_each]. rel_auto.
Qed.

(** C9: A tick of the outbox task, whatever happens in it, loses no row: with unique keys,
    each row that was there is still there with the same message or its payload left the
    process during the tick, no row appears, and a row marked unrecoverable is as it was. *)
Theorem outbox_conserves fuel w w' out :
  keys_ok w -> outbox_run kafka_sender workload_sender fuel w = (out, w') ->
  keys_ok w'
  /\ (forall r, r ∈ outbox (db w) ->
       (exists r', r' ∈ outbox (db w') /\ same_message r r') \/ sent_between w w' (ob_payload r))
  /\ (forall r', r' ∈ outbox (db w') -> exists r, r ∈ outbox (db w) /\ same_message r r')
  /\ (forall r, r ∈ outbox (db w) -> ob_unrecoverable r = true -> r ∈ outbox (db w'))
  /\ db w' = set_outbox (outbox (db w')) (db w).
Proof.
  intros Hk Hrun.
  pose proof (outbox_run_conserves fuel) as Hrel.
  pose proof (Hrel w Hk) as [Hk' [D O P]]. rewrite Hrun in *. cbn [snd] in *.
  split_and!; [done|apply D..|done|apply D].
Qed.

(** C10: The outbox task always ends. When the monotonic clock moves, more fuel than some
    bound changes nothing: the loop over a region, which reads the clock at every turn, has
    then left by its own exits, a time budget among them. *)
Theorem outbox_terminates w :
  clock_advances w ->
  exists N, forall n, (N <= n)%nat ->
    outbox_run kafka_sender workload_sender n w = outbox_run kafka_sender workload_sender N w.
Proof.
  intros Hc. change (converges (outbox_run kafka_sender workload_sender) w). unfold outbox_run.
  assert (forall ch dest, (ch, dest) ∈ channels kafka_sender workload_sender -> DestinationLaws dest) as Hl.
  { unfold channels. intros ch dest. rewrite !elem_of_cons, elem_of_nil.
    intros [[= _ ->]|[[= _ ->]|[[= _ ->]|[]]]]; exact _. }
  eapply (converges_bind (fun n => for_each _ _)); [|intros; apply converges_const].
  eapply (converges_for_each _ _ clock_advances); [| |done].
  - intros [ch dest] w' Hin Hw'. pose proof (Hl ch dest Hin).
    apply (converges_bind (fun _ => _)); [apply converges_const|]. intros _ kill w1 H1.
    apply (rel_at later) in H1; [|rel_auto]. destruct kill; [apply converges_const|].
    apply (converges_bind (fun n => drain dest n ch)); [|intros; apply converges_const].
    apply drain_converges; [done|]. by eapply clock_advances_later.
  - intros n [ch dest] Hin. pose proof (Hl ch dest Hin). pose proof (later_drain dest).
    apply (rel_mono later); [intros ??; by apply clock_advances_later|rel_auto].
Qed.
End run.

(** ** One attempt *)

(** The wait after a failed attempt is between one second and a day whatever the two
    Config entries hold; it never shrinks as the attempts grow, unless the base is negative;
    and between the bounds it is the base doubled once per earlier attempt, up to the cap. *)
Theorem retry_wait_bounds base cap attempts :
  let wait := retry_wait base cap attempts in
  MIN_RETRY_WAIT_SECONDS <= wait <= MAX_RETRY_WAIT_SECONDS
  /\ (0 <= base -> wait <= retry_wait base cap (S attempts))
  /\ (1 <= base -> (1 <= attempts <= 31)%nat ->
      base * 2 ^ (Z.of_nat attempts - 1) <= Z.min cap MAX_RETRY_WAIT_SECONDS ->
      wait = base * 2 ^ (Z.of_nat attempts - 1)).
Proof.
  unfold retry_wait, MIN_RETRY_WAIT_SECONDS, MAX_RETRY_WAIT_SECONDS, MAX_RETRY_DOUBLINGS.
  cbv zeta. split; [lia|split].
  - intros Hb. apply Z.max_le_compat_l, Z.min_le_compat_r, Z.min_le_compat_r, Z.mul_le_mono_nonneg_l; [done|].
    destruct attempts as [|n]; [by vm_compute|]. apply Z.pow_le_mono_r; lia.
  - intros Hb Hn Hle. rewrite (Z.min_l (Z.of_nat attempts - 1)) by lia.
    assert (0 < 2 ^ (Z.of_nat attempts - 1)) as Hp by (apply Z.pow_pos_nonneg; lia).
    assert (1 <= base * 2 ^ (Z.of_nat attempts - 1)) as Hw by nia.
    generalize dependent (base * 2 ^ (Z.of_nat attempts - 1)). intros. lia.
Qed.

(** What a failed attempt leaves of a row. *)
Definition waiting (row : Outbox) (t : Z) (wait : Z) (error : string) (r : Outbox) : Outbox :=
  mk_outbox (ob_id r) (ob_job r) (ob_channel r) (ob_region r) (ob_payload r) (ob_created r)
    (S (ob_attempts row)) (t + wait * MICROS) error (ob_unrecoverable r).
Definition parked (row : Outbox) (error : string) (r : Outbox) : Outbox :=
  mk_outbox (ob_id r) (ob_job r) (ob_channel r) (ob_region r) (ob_payload r) (ob_created r)
    (S (ob_attempts row)) (ob_next_attempt_at r) error true.

Lemma keep_for_retry_run dest row error w :
  is_Some (config w !! retry_base_key dest) -> is_Some (config w !! retry_max_key dest) ->
  let wait := retry_wait (setting (retry_base_key dest) 120 w) (setting (retry_max_key dest) 600 w)
                (S (ob_attempts row)) in
  keep_for_retry dest [row] error w =
    (Ok tt, set_db (update_outbox [ob_id row] (waiting row (wall w (ticks w)) wait (stored_error error)) (db w))
              (set_ticks (S (ticks w)) w)).
Proof.
  intros H1 H2 wait. unfold keep_for_retry.
  rewrite (bind_ok _ _ _ _ _ (Config_get_int_run _ 120 w H1)).
  rewrite (bind_ok _ _ _ _ _ (Config_get_int_run _ 600 w H2)).
  unfold now, modify_db, modify, bind. cbn [db wall ticks set_ticks].
  f_equal. f_equal. unfold update_outbox. f_equal. apply map_ext. intros r. cbn [map].
  case_bool_decide as Hin; [|done]. apply list_elem_of_singleton in Hin.
  unfold retried, waiting, attempts_read. rewrite Hin, filter_cons, decide_True by done. done.
Qed.

(** One attempt at a row. A delivery deletes exactly that row and resets the streak of
    its breaker. A retryable failure keeps it with one attempt more, due again no sooner
    than a second later, and adds one to the streak. Any other failure parks it for good
    and leaves the breaker alone. *)
Theorem send_row_spec dest send breaker row w o w1 :
  BreakerRefLaws breaker -> registered breaker w1 ->
  is_Some (config w1 !! retry_base_key dest) -> is_Some (config w1 !! retry_max_key dest) ->
  send (ob_payload row) w = (o, w1) -> db w1 = db w ->
  exists w', send_row dest send breaker row w = (Ok tt, w') /\
    match o with
    | Ok _ =>
        db w' = delete_outbox [ob_id row] (db w)
        /\ read_breaker breaker w' = mk_breaker 0 (opened_at (read_breaker breaker w1))
    | Raise e =>
        let error := stored_error (exn_name (exn_class e) +:+ ": " +:+ exn_str e) in
        if isinstance e RetryableError then
          exists i wait, MIN_RETRY_WAIT_SECONDS <= wait
            /\ db w' = update_outbox [ob_id row] (waiting row (wall w1 i) wait error) (db w)
            /\ consecutive_failures (read_breaker breaker w')
               = consecutive_failures (read_breaker breaker w1) + 1
            /\ (forall r t, t < wall w1 i + MICROS ->
                  due (ob_channel r) t (waiting row (wall w1 i) wait error r) = false)
        else
          db w' = update_outbox [ob_id row] (parked row error) (db w)
          /\ read_breaker breaker w' = read_breaker breaker w1
    end.
Proof.
  intros Hb Hr Hbase Hmax Hsend Hdb. unfold send_row. destruct o as [[]|e].
  - erewrite bind_ok; [|eapply try_except_ok; by rewrite (bind_ok _ _ _ _ _ Hsend)].
    set (m := OutboxSend (ob_channel row) "success"). cbn match.
    rewrite (bind_ok (count_metric m) _ w1 tt (snd (count_metric m w1)) eq_refl).
    rewrite (bind_ok _ _ _ _ _ (record_success_run breaker _)).
    unfold modify_db, modify. eexists. split; [reflexivity|]. cbn [db set_db]. rewrite write_db.
    split; [cbn; by rewrite Hdb|]. rewrite read_db, read_write. f_equal.
    apply (f_equal opened_at), (read_metrics (r := breaker)).
  - set (error := stored_error _). destruct (isinstance e RetryableError) eqn:Hi.
    + set (m := OutboxSend (ob_channel row) "failure").
      set (w2 := snd (count_metric m w1)).
      assert (registered breaker w2) as Hr2 by done.
      pose proof (record_failure_run breaker w2 Hr2) as Hrf. cbv zeta in Hrf.
      assert (exists w3, record_failure breaker w2 = (Ok tt, w3) /\ config w3 = config w1
        /\ db w3 = db w1 /\ wall w3 = wall w1
        /\ consecutive_failures (read_breaker breaker w3) = consecutive_failures (read_breaker breaker w1) + 1)
        as (w3 & H3 & Hc3 & Hd3 & Hw3 & Hf3).
      { assert (read_breaker breaker w2 = read_breaker breaker w1) as Hread by apply (read_metrics (r := breaker)).
        rewrite Hread in Hrf. destruct (_ && _); rewrite Hrf; eexists; (split; [reflexivity|]);
          rewrite ?write_config, ?write_db, ?write_wall, ?read_write; cbn;
          rewrite ?write_config, ?write_db, ?write_wall, ?read_write; done. }
      pose proof (keep_for_retry_run dest row (exn_name (exn_class e) +:+ ": " +:+ exn_str e) w3) as Hkeep.
      rewrite Hc3 in Hkeep. specialize (Hkeep Hbase Hmax). cbv zeta in Hkeep.
      set (wait := retry_wait _ _ _) in *.
      assert (MIN_RETRY_WAIT_SECONDS <= wait) as Hwait
        by (unfold wait, retry_wait; lia).
      eexists. split.
      * erewrite bind_try_caught; [|by rewrite (bind_raise _ _ _ _ _ Hsend)|by rewrite Hi].
        rewrite bind_assoc, (bind_ok (count_metric _) _ w1 tt w2 eq_refl).
        rewrite bind_assoc, (bind_ok _ _ _ _ _ H3).
        rewrite bind_assoc, (bind_ok _ _ _ _ _ Hkeep). reflexivity.
      * exists (ticks w3), wait. split; [done|]. cbn [db set_db]. rewrite Hd3, Hdb, Hw3.
        split; [done|]. split; [by rewrite read_db, read_ticks|].
        intros r t Ht. unfold due, waiting. cbn [ob_next_attempt_at].
        rewrite (proj2 (Z.leb_gt _ _)); [apply andb_false_r|].
        unfold MIN_RETRY_WAIT_SECONDS, MICROS in *. lia.
    + set (m := OutboxSend (ob_channel row) "unrecoverable").
      set (w2 := snd (count_metric m w1)). eexists. split.
      * erewrite bind_try_caught; [|by rewrite (bind_raise _ _ _ _ _ Hsend)|by rewrite Hi].
        rewrite bind_assoc, (bind_ok (count_metric _) _ w1 tt w2 eq_refl).
        unfold mark_unrecoverable, modify_db, modify, bind, ret. reflexivity.
      * cbn [db set_db]. rewrite read_db. split; [by rewrite <- Hdb|].
        apply (read_metrics (r := breaker)).
Qed.

(** ** Concrete inputs *)

(** Senders that hand over everything. *)
Definition accepting_batch : Sender :=
  Batch (fun l w => (Ok (map fst l), set_kafka (kafka w ++ map snd l) w)).
Definition accepting_sender : Sender :=
  OneByOne (fun p w => (Ok tt, set_puts (puts w ++ [p]) w)).

#[export] Instance accepting_batch_laws : SenderLaws accepting_batch.
Proof.
  split; cbn.
  - intros l w. split_and!; cbn; [done..|]. split; cbn; [done|by apply prefix_app_r].
  - intros l w delivered w' [= <- <-] pk ([? p] & -> & Hp)%list_elem_of_fmap.
    exists p. split; [done|]. exists [], (map snd l). cbn. rewrite app_nil_r.
    split_and!; [done..|]. apply list_elem_of_fmap. by exists (n, p).
Qed.
#[export] Instance accepting_sender_laws : SenderLaws accepting_sender.
Proof.
  split; cbn.
  - intros p w. split_and!; cbn; [done..|]. split; cbn; [by apply prefix_app_r|done].
  - intros p w w' [= <-]. exists [p], []. cbn. rewrite app_nil_r. split_and!; [done..|].
    by apply list_elem_of_singleton.
Qed.

Definition sample_row (pk : nat) (ch : OutboxChannel) (unrecoverable : bool) : Outbox :=
  mk_outbox pk "job-1" ch None
    (WorkloadPayload "job-1" (mk_body "sampler" None None "alice" "Succeeded" None None 0 None None))
    0 0 0 "" unrecoverable.
Definition outbox_config : gmap string string :=
  <["scheduler.outbox.kafka.budget_ms" := "60000"]>
  (<["scheduler.outbox.workload.budget_ms" := "60000"]>
  (<["scheduler.outbox.workload.breaker_failures" := "3"]>
  (<["scheduler.outbox.workload.breaker_pause_seconds" := "60"]>
  (<["scheduler.outbox.workload.retry_base_seconds" := "120"]>
  (<["scheduler.outbox.workload.retry_max_seconds" := "600"]> ∅))))).
Definition outbox_world : World :=
  set_config outbox_config
    (set_db (set_outbox [sample_row 1 JOB_USAGE false; sample_row 2 WORKLOAD false;
                         sample_row 3 WORKLOAD true] running_db) running_world).

Definition outbox_tick (fuel : nat) : Py unit := outbox_run accepting_batch accepting_sender fuel.

Example outbox_tick_sends :
  map ob_id (outbox (db (snd (outbox_tick 4 outbox_world)))) = [3%nat]
  /\ length (kafka (snd (outbox_tick 4 outbox_world))) = 1%nat
  /\ length (puts (snd (outbox_tick 4 outbox_world))) = 1%nat.
Proof. vm_compute. done. Qed.

Lemma outbox_world_keys : keys_ok outbox_world.
Proof. apply (bool_decide_unpack (NoDup [1%nat; 2%nat; 3%nat])). by vm_compute. Qed.

Lemma outbox_conserves_witness :
  keys_ok (snd (outbox_tick 4 outbox_world))
  /\ sample_row 3 WORKLOAD true ∈ outbox (db (snd (outbox_tick 4 outbox_world))).
Proof.
  destruct (outbox_conserves accepting_batch accepting_sender 4 outbox_world
              (snd (outbox_tick 4 outbox_world)) (fst (outbox_tick 4 outbox_world))
              outbox_world_keys (surjective_pairing _)) as (Hk & _ & _ & Hu & _).
  split; [exact Hk|]. apply Hu; [|reflexivity]. do 2 right. left.
Defined.

Lemma sample_clock_advances : clock_advances outbox_world.
Proof.
  split; cbn; unfold sample_clock.
  - intros i j Hij. lia.
  - intros t. exists (Z.to_nat t). lia.
Qed.

Lemma outbox_terminates_witness :
  exists N, forall n, (N <= n)%nat -> outbox_tick n outbox_world = outbox_tick N outbox_world.
Proof. exact (outbox_terminates accepting_batch accepting_sender outbox_world sample_clock_advances). Defined.

Definition refusing_send : Payload -> Py unit := fun _ => raise (mk_exn RetryableError "no answer").

Lemma send_row_spec_witness :
  exists w', send_row (workload_destination accepting_sender) refusing_send (workload_breaker None)
    (sample_row 2 WORKLOAD false) outbox_world = (Ok tt, w')
  /\ consecutive_failures (read_breaker (workload_breaker None) w') = 1.
Proof.
  destruct (send_row_spec (workload_destination accepting_sender) refusing_send (workload_breaker None)
    (sample_row 2 WORKLOAD false) outbox_world (Raise (mk_exn RetryableError "no answer")) outbox_world
    (workload_breaker_laws None)) as (w' & Hrun & _ & _ & _ & _ & Hf & _).
  - split; vm_compute; eauto.
  - vm_compute; eauto.
  - vm_compute; eauto.
  - reflexivity.
  - reflexivity.
  - exists w'. split; [exact Hrun|]. rewrite Hf. reflexivity.
Defined.
