(* ===== verification/UpdateFleets.v ===== *)
(** * Updating the statuses of Fleets jobs ([scheduler/tasks/update_fleets_jobs_statuses.py])

    One poll of a job ([update_job_status], the job in hand is the row as it was loaded) and
    the pass over every running job. *)

From S2P Require Import Prelude PyStr Domain Models World JobEvents BillingEvents JobTransitions TransitionSpec CircuitBreaker FleetsBreakers Blocked Schedule.

Local Open Scope string_scope.
Local Open Scope list_scope.
Local Open Scope Z_scope.

Definition STOPPING_DEADLINE_SECONDS : Z := 600.

(** [job.program.provider.name if ... else "custom"]. *)
Definition provider_label (job : Job) : string :=
  match program job with
  | Some p => match program_provider p with Some pr => provider_name pr | None => "custom" end
  | None => "custom"
  end.

(** The earliest STOPPING event, the latest RUNNING one. *)
Definition stopping_event (job_id : JobId) (d : DB) : option JobEvent :=
  head (order_by event_created
    (filter (fun e => of_job job_id e && data_status_in [STOPPING] e) (events d))).
Definition last_running_event (job_id : JobId) (d : DB) : option JobEvent :=
  head (order_by (fun e => - event_created e)
    (filter (fun e => of_job job_id e && data_status_in [RUNNING] e) (events d))).

Definition stopping_deadline_passed : Py bool :=
  job <- get_self ;;
  d <- get_db ;;
  reference_time <- (match stopping_event (id job) d with
                     | Some e => ret (event_created e)
                     | None =>
                         match updated job with
                         | Some t => ret t
                         | None => raise (mk_exn TypeError "unsupported operand type(s) for -")
                         end
                     end) ;;
  t <- now ;;
  ret (STOPPING_DEADLINE_SECONDS * MICROS <=? t - reference_time).

Definition increment_terminal_counter (stop_landed : bool) : Py unit :=
  job <- get_self ;;
  if filler job then
    count_metric (if stop_landed then FillerJobsStopped else FillerJobsEnded (status job))
  else count_metric (JobsTerminal (provider_label job) (status job)).

Definition record_execution_duration : Py unit :=
  job <- get_self ;;
  if filler job then ret tt
  else
    d <- get_db ;;
    match last_running_event (id job) d with
    | None => ret tt
    | Some e =>
        t <- now ;;
        count_metric (JobExecutionDuration (t - event_created e) (provider_label job))
    end.

(** [except InvalidJobTransitionException]: [None] when the transition was refused. *)
Definition unless_refused {A} (m : Py A) : Py (option A) :=
  try_except (a <- m ;; ret (Some a))
    (fun ex => if isinstance ex InvalidJobTransitionException then Some (ret None) else None).

Definition update_to_terminal (new_status : JobStatus) : Py unit :=
  job <- get_self ;;
  let stop_landed := bool_decide (status job = STOPPING) && bool_decide (new_status = STOPPED) in
  done <- unless_refused
    (to_terminal new_status SCHEDULER UPDATE_JOB_STATUS [F_sub_status None; F_env_vars "{}"]) ;;
  match done with
  | None => ret tt
  | Some _ =>
      increment_terminal_counter stop_landed ;;;
      if bool_decide (new_status = SUCCEEDED) then record_execution_duration else ret tt
  end.

Definition confirm_stop (new_status : option JobStatus) : Py bool :=
  match new_status with
  | Some s =>
      if bool_decide (s ∈ TERMINAL_STATUSES) then update_to_terminal s ;;; ret true
      else
        passed <- stopping_deadline_passed ;;
        if passed : bool then update_to_terminal STOPPED ;;; ret true else ret false
  | None =>
      passed <- stopping_deadline_passed ;;
      if passed : bool then update_to_terminal STOPPED ;;; ret true else ret false
  end.

Section poll.
Context (svc : JobTransitionService).
Context (get_runner : Job -> outcome AbstractRunner).
Context (PROGRAM_TIMEOUT : Z).

(** [first_running]: the time loaded with the job. *)
Definition update_to_running (first_running : option Z) : Py unit :=
  job <- get_self ;;
  if bool_decide (status job = PENDING) then
    unless_refused (pending_to_running svc SCHEDULER UPDATE_JOB_STATUS []) ;;; ret tt
  else running_to_running svc first_running.

Definition stop_job_if_timeout (first_running : option Z) : Py bool :=
  job <- get_self ;;
  if filler job then ret false
  else
    timed_out <- check_job_timeout PROGRAM_TIMEOUT job first_running ;;
    if negb timed_out then ret false
    else
      paused <- canceller_paused (ce_region job) ;;
      if paused : bool then ret false
      else
        program_timeout_hours PROGRAM_TIMEOUT ;;;
        cancelled <- try_except
          (c <- cancel svc get_runner UPDATE_JOB_STATUS ;; ret (Some c))
          (fun ex =>
             if isinstance ex RunnerRetryableError then Some (ret None)
             else if isinstance ex RunnerError then Some (first_cancel_refusal (id job) ;;; ret None)
             else if isinstance ex InvalidJobTransitionException then Some (ret None)
             else None) ;;
        match cancelled with
        | None => ret false
        | Some true => ret true
        | Some false => increment_terminal_counter false ;;; ret true
        end.

(** What the task store says; a configuration problem is an unknown status. *)
Definition read_status (r : AbstractRunner) : Py (option JobStatus) :=
  try_except (runner_status r)
    (fun ex => if isinstance ex RunnerError || isinstance ex ValueError
               then Some (ret None) else None).

Definition update_job_status (first_running : option Z) : Py bool :=
  job <- get_self ;;
  if negb (truthy (fleet_id job)) then
    if bool_decide (status job = STOPPING) then update_to_terminal STOPPED ;;; ret true
    else ret false
  else
    r <- of_outcome (get_runner job) ;;
    new_status <- read_status r ;;
    job <- get_self ;;
    if bool_decide (status job = STOPPING) then confirm_stop new_status
    else
      match new_status with
      | None => stop_job_if_timeout first_running
      | Some s =>
          (if bool_decide (s ∈ TERMINAL_STATUSES) then update_to_terminal s
           else if bool_decide (s = PENDING) then stop_job_if_timeout first_running ;;; ret tt
           else if bool_decide (s = RUNNING) then
             update_to_running first_running ;;;
             stop_job_if_timeout first_running ;;;
             ret tt
           else update_to_terminal FAILED) ;;;
          ret true
      end.

(** ** The pass *)

(** The jobs of one pass, each with the first RUNNING time it was loaded with. *)
Definition running_fleets_jobs (d : DB) : list (Job * option Z) :=
  map (fun j => (j, first_running_at (id j) d))
    (filter (fun j => status j ∈ RUNNING_STATUSES /\ runner j = FLEETS) (rows d)).

Record PassResult := mk_pass {
  pass_killed : bool;
  pass_changed : Z;
  pass_checked : Z;
  pass_db_error : option exn
}.

(** The loop body never raises: every exception of a poll is caught, and the first database
    error is kept for the end. *)
Fixpoint status_loop (js : list (Job * option Z)) (acc : PassResult) : Py PassResult :=
  match js with
  | [] => ret acc
  | (job, first_running) :: js' =>
      kill <- kill_received ;;
      if kill : bool then ret (mk_pass true (pass_changed acc) (pass_checked acc) (pass_db_error acc))
      else
        let checked := pass_checked acc + 1 in
        acc' <- try_except
          (changed <- on_job job (update_job_status first_running) ;;
           ret (mk_pass false (if changed : bool then pass_changed acc + 1 else pass_changed acc)
                  checked (pass_db_error acc)))
          (fun ex =>
             Some (ret (mk_pass false (pass_changed acc) checked
                          (if is_db_exception ex
                           then match pass_db_error acc with Some e => Some e | None => Some ex end
                           else pass_db_error acc)))) ;;
        status_loop js' acc'
  end.

Definition update_fleets_run (LIMITS_MAX_FLEETS : Z) : Py unit :=
  if LIMITS_MAX_FLEETS <=? 0 then ret tt
  else
    d <- get_db ;;
    r <- status_loop (running_fleets_jobs d) (mk_pass false 0 0 None) ;;
    count_metric (TaskItems "UpdateFleetsJobsStatuses" (pass_checked r)) ;;;
    if pass_killed r then ret tt
    else match pass_db_error r with Some e => raise e | None => ret tt end.
End poll.
