(* ===== verification/UpdateFleetsProps.v ===== *)
(** * What the status pass promises

    The end of a stop, the transition each reported status leads to, and the isolation of the
    jobs of a pass from each other. *)

From S2P Require Import Prelude PyStr Domain Models World JobEvents BillingEvents JobTransitions TransitionSpec Samples TransitionProps CircuitBreaker FleetsBreakers Schedule UpdateFleets.

Local Open Scope string_scope.
Local Open Scope list_scope.
Local Open Scope Z_scope.

(** ** Terminal transitions of the poller *)

Definition wiped : list JobField := [F_sub_status None; F_env_vars "{}"].

Lemma to_terminal_ok s o c fs w row :
  s ∈ TERMINAL_STATUSES -> jobs (db w) !! id (self w) = Some row ->
  s ∈ VALID_TRANSITIONS (status row) ->
  buildable (self w) (bool_decide (id (self w) ∈ mirrors (db w))) ->
  exists e w', to_terminal s o c fs w = (Ok e, w') /\ transition_outcome s o c fs w e w'.
Proof.
  intros Hs Hrow Hv Hb. destruct (settle_forms s o c fs w Hs) as (fee & Hfee & ->).
  pose proof (settle_outcome s o c fs fee w Hs Hfee) as H.
  destruct (atomic _ w) as [[e|e] w']; [by exists e, w'|].
  destruct H as [_ []]. by exists row.
Qed.

Lemma to_terminal_refused s o c fs w row :
  s ∈ TERMINAL_STATUSES -> jobs (db w) !! id (self w) = Some row ->
  s ∉ VALID_TRANSITIONS (status row) ->
  to_terminal s o c fs w = (Raise (invalid_transition (id (self w))), set_db (db w) w).
Proof.
  intros Hs Hrow Hv. destruct (settle_forms s o c fs w Hs) as (fee & _ & ->).
  unfold atomic, bind. by rewrite (change_status_invalid _ _ _ _ _ _ Hrow Hv).
Qed.

(** The job in hand ended with [s], its row with the environment wiped, everything it owes
    enqueued; what happens after the transaction writes nothing. *)
Definition ended (s : JobStatus) (w w' : World) : Prop :=
  exists e w1, transition_outcome s SCHEDULER UPDATE_JOB_STATUS wiped w e w1 /\ db w' = db w1.

Lemma ended_status s w w' : ended s w w' -> Abs.job_status (db w') (id (self w)) = Some s.
Proof.
  intros (e & w1 & (row & rows & _ & _ & _ & Hj & _) & Hd). unfold Abs.job_status.
  rewrite Hd, Hj, lookup_insert_eq. cbn [fmap option_fmap option_map]. f_equal.
Qed.

Lemma same_db_terminal_counter b : rel same_db (increment_terminal_counter b).
Proof. unfold increment_terminal_counter. rel_auto. Qed.
Lemma same_db_execution_duration : rel same_db record_execution_duration.
Proof. unfold record_execution_duration. rel_auto. Qed.
#[export] Hint Resolve same_db_terminal_counter same_db_execution_duration : pyrel.

(** Runs that cannot raise. *)
Definition returns {A} (m : Py A) : Prop := forall w, exists a, fst (m w) = Ok a.
Lemma returns_terminal_counter b : returns (increment_terminal_counter b).
Proof.
  intros w. exists tt. unfold increment_terminal_counter, get_self, gets, bind.
  by destruct (filler (self w)).
Qed.
Lemma returns_execution_duration : returns record_execution_duration.
Proof.
  intros w. exists tt. unfold record_execution_duration, get_self, get_db, gets, bind.
  destruct (filler (self w)); [done|]. by destruct (last_running_event _ _).
Qed.
Lemma returns_run {A} (m : Py A) w : returns m -> exists a, m w = (Ok a, snd (m w)).
Proof. intros H. destruct (H w) as [a Ha]. exists a. destruct (m w). cbn in *. by subst. Qed.

Lemma update_to_terminal_ok s w row :
  s ∈ TERMINAL_STATUSES -> jobs (db w) !! id (self w) = Some row ->
  s ∈ VALID_TRANSITIONS (status row) ->
  buildable (self w) (bool_decide (id (self w) ∈ mirrors (db w))) ->
  exists w', update_to_terminal s w = (Ok tt, w') /\ ended s w w'.
Proof.
  intros Hs Hrow Hv Hb.
  destruct (to_terminal_ok s SCHEDULER UPDATE_JOB_STATUS wiped w row Hs Hrow Hv Hb) as (e & w1 & Hrun & Ho).
  unfold update_to_terminal. rewrite (bind_ok get_self _ w (self w) w eq_refl). cbv zeta.
  erewrite bind_ok; [|unfold unless_refused; apply try_except_ok; by rewrite (bind_ok _ _ _ _ _ Hrun)].
  set (b := bool_decide _ && _). cbn match.
  destruct (returns_run (increment_terminal_counter b) w1 (returns_terminal_counter b)) as [[] Hc].
  pose proof (same_db_terminal_counter b w1) as Hdb.
  rewrite (bind_ok _ _ _ _ _ Hc). set (w2 := snd _) in *.
  destruct (bool_decide (s = SUCCEEDED)).
  - destruct (returns_run record_execution_duration w2 returns_execution_duration) as [[] Hd].
    pose proof (same_db_execution_duration w2) as Hdb'. eexists. split; [exact Hd|].
    exists e, w1. split; [done|]. unfold same_db in *. congruence.
  - eexists. split; [reflexivity|]. by exists e, w1.
Qed.

Lemma update_to_terminal_refused s w row :
  s ∈ TERMINAL_STATUSES -> jobs (db w) !! id (self w) = Some row ->
  s ∉ VALID_TRANSITIONS (status row) ->
  update_to_terminal s w = (Ok tt, set_db (db w) w).
Proof.
  intros Hs Hrow Hv. unfold update_to_terminal. rewrite (bind_ok get_self _ w (self w) w eq_refl). cbv zeta.
  unfold unless_refused. erewrite bind_try_caught;
    [|by rewrite (bind_raise _ _ _ _ _ (to_terminal_refused s _ _ _ w row Hs Hrow Hv))|reflexivity].
  reflexivity.
Qed.

(** ** The end of a stop *)

(** What the task store is taken to say. *)
Definition reads (r : AbstractRunner) (w : World) (ns : option JobStatus) (w1 : World) : Prop :=
  read_status r w = (Ok ns, w1) /\ db w1 = db w /\ self w1 = self w.

(** Where a stop ends: the status the task store reports if it is final, STOPPED once the
    deadline has passed, nowhere yet otherwise. *)
Definition stop_ends_with (ns : option JobStatus) (asked_at t : Z) : option JobStatus :=
  match ns with
  | Some s =>
      if bool_decide (s ∈ TERMINAL_STATUSES) then Some s
      else if STOPPING_DEADLINE_SECONDS * MICROS <=? t - asked_at then Some STOPPED else None
  | None => if STOPPING_DEADLINE_SECONDS * MICROS <=? t - asked_at then Some STOPPED else None
  end.

Lemma stopping_deadline_run w e :
  stopping_event (id (self w)) (db w) = Some e ->
  stopping_deadline_passed w =
    (Ok (STOPPING_DEADLINE_SECONDS * MICROS <=? wall w (ticks w) - event_created e), set_ticks (S (ticks w)) w).
Proof.
  intros He. unfold stopping_deadline_passed, get_self, get_db, gets, bind. by rewrite He.
Qed.

Lemma terminal_valid_from_stopping s : s ∈ TERMINAL_STATUSES -> s ∈ VALID_TRANSITIONS STOPPING.
Proof. intros H. destruct (terminal_cases s H) as [->|[->| ->]]; by apply (bool_decide_unpack _). Qed.

Lemma confirm_stop_run ns w row e :
  jobs (db w) !! id (self w) = Some row -> status row = STOPPING ->
  buildable (self w) (bool_decide (id (self w) ∈ mirrors (db w))) ->
  stopping_event (id (self w)) (db w) = Some e ->
  match stop_ends_with ns (event_created e) (wall w (ticks w)) with
  | Some s => exists w1 w', db w1 = db w /\ self w1 = self w
                /\ confirm_stop ns w = (Ok true, w') /\ ended s w1 w'
  | None => exists w', confirm_stop ns w = (Ok false, w') /\ db w' = db w
  end.
Proof.
  intros Hrow Hst Hb He.
  assert (forall s w1, s ∈ TERMINAL_STATUSES -> db w1 = db w -> self w1 = self w ->
    exists w', (update_to_terminal s ;;; ret true) w1 = (Ok true, w') /\ ended s w1 w') as Hend.
  { intros s w1 Hs Hd Hself.
    destruct (update_to_terminal_ok s w1 row) as (w' & Hrun & Hended);
      [done|by rewrite Hd, Hself|rewrite Hst; by apply terminal_valid_from_stopping|by rewrite Hd, Hself|].
    exists w'. split; [by rewrite (bind_ok _ _ _ _ _ Hrun)|done]. }
  assert (match (if STOPPING_DEADLINE_SECONDS * MICROS <=? wall w (ticks w) - event_created e
                 then Some STOPPED else None) with
    | Some s => exists w1 w', db w1 = db w /\ self w1 = self w
                  /\ (passed <- stopping_deadline_passed ;;
                      if passed : bool then update_to_terminal STOPPED ;;; ret true else ret false) w
                     = (Ok true, w') /\ ended s w1 w'
    | None => exists w', (passed <- stopping_deadline_passed ;;
                      if passed : bool then update_to_terminal STOPPED ;;; ret true else ret false) w
                     = (Ok false, w') /\ db w' = db w
    end) as Hdead.
  { rewrite (bind_ok _ _ _ _ _ (stopping_deadline_run w e He)). destruct (_ <=? _).
    - destruct (Hend STOPPED (set_ticks (S (ticks w)) w)) as (w' & ? & ?); [by apply (bool_decide_unpack _)|done..|].
      by exists (set_ticks (S (ticks w)) w), w'.
    - by eexists. }
  unfold confirm_stop, stop_ends_with. destruct ns as [s|]; [|exact Hdead].
  destruct (decide (s ∈ TERMINAL_STATUSES)) as [Hs|Hs].
  - rewrite bool_decide_eq_true_2 by done. destruct (Hend s w Hs eq_refl eq_refl) as (w' & ? & ?).
    by exists w, w'.
  - rewrite bool_decide_eq_false_2 by done. exact Hdead.
Qed.

(** ** The execution timeout *)

Definition timeout_hours (PROGRAM_TIMEOUT : Z) (w : World) : Z :=
  setting PROGRAM_TIMEOUT_HOURS PROGRAM_TIMEOUT w.

(** Whether a job that started running when it was loaded is late at the next reading. *)
Definition overdue (PROGRAM_TIMEOUT : Z) (first_running : option Z) (w : World) : bool :=
  match first_running with
  | Some started => started + timeout_hours PROGRAM_TIMEOUT w * HOUR <? wall w (ticks w)
  | None => false
  end.

Lemma check_job_timeout_run PROGRAM_TIMEOUT fr w :
  is_Some (config w !! PROGRAM_TIMEOUT_HOURS) -> status (self w) ∈ RUNNING_STATUSES ->
  exists n, check_job_timeout PROGRAM_TIMEOUT (self w) fr w
    = (Ok (overdue PROGRAM_TIMEOUT fr w), set_ticks n w).
Proof.
  intros Hc Hs. unfold check_job_timeout, overdue.
  destruct fr as [t|]; [|exists (ticks w); by destruct w].
  rewrite bool_decide_eq_true_2 by done. unfold program_timeout_hours.
  rewrite (bind_ok _ _ _ _ _ (Config_get_int_run _ _ w Hc)). by eexists.
Qed.

Section poll.
Context (svc : JobTransitionService) (get_runner : Job -> outcome AbstractRunner) (PROGRAM_TIMEOUT : Z).

Lemma stop_if_timeout_in_time fr w :
  is_Some (config w !! PROGRAM_TIMEOUT_HOURS) -> status (self w) ∈ RUNNING_STATUSES ->
  filler (self w) = true \/ overdue PROGRAM_TIMEOUT fr w = false ->
  exists w', stop_job_if_timeout svc get_runner PROGRAM_TIMEOUT fr w = (Ok false, w')
    /\ db w' = db w /\ self w' = self w.
Proof.
  intros Hc Hs Hin. unfold stop_job_if_timeout. rewrite (bind_ok get_self _ w (self w) w eq_refl).
  destruct (filler (self w)); [by eexists|]. destruct Hin as [?|Hin]; [done|].
  destruct (check_job_timeout_run PROGRAM_TIMEOUT fr w Hc Hs) as (n & Hrun).
  rewrite (bind_ok _ _ _ _ _ Hrun), Hin. by eexists.
Qed.

(** The poll of a job with a fleet, once its status was read. *)
Lemma poll_read fr w r ns w1 :
  truthy (fleet_id (self w)) = true -> get_runner (self w) = Ok r -> reads r w ns w1 ->
  update_job_status svc get_runner PROGRAM_TIMEOUT fr w =
    (if bool_decide (status (self w1) = STOPPING) then confirm_stop ns
     else
       match ns with
       | None => stop_job_if_timeout svc get_runner PROGRAM_TIMEOUT fr
       | Some s =>
           (if bool_decide (s ∈ TERMINAL_STATUSES) then update_to_terminal s
            else if bool_decide (s = PENDING) then
              stop_job_if_timeout svc get_runner PROGRAM_TIMEOUT fr ;;; ret tt
            else if bool_decide (s = RUNNING) then
              update_to_running svc fr ;;;
              stop_job_if_timeout svc get_runner PROGRAM_TIMEOUT fr ;;;
              ret tt
            else update_to_terminal FAILED) ;;;
           ret true
       end) w1.
Proof.
  intros Hf Hr (Hread & _ & _). unfold update_job_status.
  rewrite (bind_ok get_self _ w (self w) w eq_refl), Hf. cbn [negb].
  rewrite Hr. rewrite (bind_ok (of_outcome (Ok r)) _ w r w eq_refl).
  rewrite (bind_ok _ _ _ _ _ Hread). by rewrite (bind_ok get_self _ w1 (self w1) w1 eq_refl).
Qed.

(** C11: a poll of a job that is stopping ends it as soon as the task store reports a final
    status, with that status, and with STOPPED once the stop is unconfirmed for ten minutes
    since it was first asked for, even if the status can never be read; before that it
    writes nothing. *)
Theorem stopping_ends fr w r ns w1 row e :
  status (self w) = STOPPING -> truthy (fleet_id (self w)) = true ->
  get_runner (self w) = Ok r -> reads r w ns w1 ->
  jobs (db w) !! id (self w) = Some row -> status row = STOPPING ->
  buildable (self w) (bool_decide (id (self w) ∈ mirrors (db w))) ->
  stopping_event (id (self w)) (db w) = Some e ->
  match stop_ends_with ns (event_created e) (wall w1 (ticks w1)) with
  | Some s =>
      exists w2 w', db w2 = db w /\ self w2 = self w
        /\ update_job_status svc get_runner PROGRAM_TIMEOUT fr w = (Ok true, w') /\ ended s w2 w'
  | None =>
      exists w', update_job_status svc get_runner PROGRAM_TIMEOUT fr w = (Ok false, w') /\ db w' = db w
  end.
Proof.
  intros Hst Hf Hr Hread Hrow Hrst Hb He. rewrite (poll_read fr w r ns w1 Hf Hr Hread).
  destruct Hread as (_ & Hd & Hs). rewrite bool_decide_eq_true_2 by (by rewrite Hs).
  rewrite <- Hs, <- Hd in Hrow, Hb, He. pose proof (confirm_stop_run ns w1 row e Hrow Hrst Hb He) as H.
  destruct (stop_ends_with _ _ _).
  - destruct H as (w2 & w' & ? & ? & ? & ?). exists w2, w'. split_and!; [congruence..|done|done].
  - destruct H as (w' & ? & ?). exists w'. split; [done|congruence].
Qed.

(** What a reported status makes of a row that is still the one that was loaded. *)
Definition reported (s : JobStatus) : option JobStatus :=
  match s with
  | SUCCEEDED | FAILED | STOPPED => Some s
  | QUEUED | STOPPING => Some FAILED
  | PENDING | RUNNING => None
  end.

(** a poll of a PENDING or RUNNING job ends it with the status the task store reports,
    with FAILED when that status is none a fleet can have, and only if its row still allows
    it: a row that ended meanwhile is left alone. A job whose status is unknown, or still
    pending, keeps its row until it is overdue. *)
Theorem poll_spec fr w r ns w1 row :
  status (self w) ∈ [PENDING; RUNNING] -> truthy (fleet_id (self w)) = true ->
  get_runner (self w) = Ok r -> reads r w ns w1 ->
  jobs (db w) !! id (self w) = Some row ->
  buildable (self w) (bool_decide (id (self w) ∈ mirrors (db w))) ->
  is_Some (config w1 !! PROGRAM_TIMEOUT_HOURS) ->
  filler (self w) = true \/ overdue PROGRAM_TIMEOUT fr w1 = false ->
  let poll := update_job_status svc get_runner PROGRAM_TIMEOUT fr w in
  match ns ≫= reported with
  | Some s =>
      if bool_decide (s ∈ VALID_TRANSITIONS (status row))
      then exists w', poll = (Ok true, w') /\ ended s w1 w'
      else exists w', poll = (Ok true, w') /\ db w' = db w
  | None =>
      ns <> Some RUNNING ->
      exists w', poll = (Ok (bool_decide (is_Some ns)), w') /\ db w' = db w
  end.
Proof.
  intros Hst Hf Hr Hread Hrow Hb Hc Hin poll. unfold poll. rewrite (poll_read fr w r ns w1 Hf Hr Hread).
  destruct Hread as (_ & Hd & Hs). rewrite <- Hs in Hst, Hb, Hin, Hrow. rewrite <- Hd in Hb, Hrow |- *.
  rewrite (bool_decide_eq_false_2 (status (self w1) = STOPPING))
    by (intros Heq; rewrite Heq, !elem_of_cons, elem_of_nil in Hst; by destruct Hst as [?|[?|[]]]).
  assert (status (self w1) ∈ RUNNING_STATUSES) as Hrun
    by (rewrite !elem_of_cons, elem_of_nil in Hst; unfold RUNNING_STATUSES; rewrite !elem_of_cons; tauto).
  assert (forall s, s ∈ TERMINAL_STATUSES ->
    if bool_decide (s ∈ VALID_TRANSITIONS (status row))
    then exists w', (update_to_terminal s ;;; ret true) w1 = (Ok true, w') /\ ended s w1 w'
    else exists w', (update_to_terminal s ;;; ret true) w1 = (Ok true, w') /\ db w' = db w1) as Hend.
  { intros s Ht. destruct (decide (s ∈ VALID_TRANSITIONS (status row))) as [Hv|Hv].
    - rewrite bool_decide_eq_true_2 by done.
      destruct (update_to_terminal_ok s w1 row Ht Hrow Hv Hb) as (w' & Hu & ?).
      exists w'. by rewrite (bind_ok _ _ _ _ _ Hu).
    - rewrite bool_decide_eq_false_2 by done.
      rewrite (bind_ok _ _ _ _ _ (update_to_terminal_refused s w1 row Ht Hrow Hv)). by eexists. }
  destruct (stop_if_timeout_in_time fr w1 Hc Hrun Hin) as (w2 & Hstop & Hd2 & _).
  destruct ns as [[]|]; cbn -[update_to_terminal stop_job_if_timeout VALID_TRANSITIONS ret bind];
    try (apply Hend; by apply (bool_decide_unpack _)).
  - intros _. change (bool_decide (PENDING ∈ TERMINAL_STATUSES)) with false.
    change (bool_decide (PENDING = PENDING)) with true. cbn match.
    rewrite bind_assoc, (bind_ok _ _ _ _ _ Hstop). by exists w2.
  - intros H. by destruct H.
  - intros _. by exists w2.
Qed.
(** Asking for a breaker that is closed writes no row and counts nothing. *)
Lemma region_closed_run dep region w :
  opened_at (read_breaker (region_breaker dep region) w) = None ->
  exists w', region_paused dep region w = (Ok false, w') /\ db w' = db w /\ self w' = self w
    /\ config w' = config w /\ metrics (sched w') = metrics (sched w).
Proof.
  intros Ho. unfold region_paused, get_breaker, gets. cbn in Ho.
  destruct (breakers_of dep (sched w) !! region) as [b|] eqn:E; cbn in Ho.
  - exists w. unfold bind, ret. destruct (decide _) as [?|Hn]; [|by destruct Hn; eexists].
    unfold is_open, gets, bind, ret. cbn. rewrite E. cbn. by rewrite Ho.
  - exists (set_sched (set_breakers_of dep (<[region := new_breaker]> (breakers_of dep (sched w))) (sched w)) w).
    unfold bind, ret. destruct (decide _) as [[x Hx]|Hn]; [congruence|].
    unfold modify_sched, modify, is_open, gets, bind, ret. cbn.
    destruct dep; cbn; by rewrite lookup_insert_eq.
Qed.

(** the deadline of a job whose function was deleted. Once such a job is overdue, a poll
    that cannot read its status answers that it ended the job and counts it as terminal with
    the status it still has, but writes nothing: the job stays active, and the next poll
    does the same again. *)
Theorem orphan_counted_not_ended fr w r w1 :
  program (self w) = None -> filler (self w) = false ->
  status (self w) ∈ [PENDING; RUNNING] -> truthy (fleet_id (self w)) = true ->
  get_runner (self w) = Ok r -> reads r w None w1 ->
  is_Some (config w1 !! PROGRAM_TIMEOUT_HOURS) -> overdue PROGRAM_TIMEOUT fr w1 = true ->
  opened_at (read_breaker (region_breaker CodeEngine (ce_region (self w))) w1) = None ->
  exists w', update_job_status svc get_runner PROGRAM_TIMEOUT fr w = (Ok true, w')
    /\ db w' = db w
    /\ metrics (sched w') = metrics (sched w1) ++ [JobsTerminal "custom" (status (self w))].
Proof.
  intros Hp Hfl Hst Hf Hr Hread Hc Hover Ho. rewrite (poll_read fr w r None w1 Hf Hr Hread).
  destruct Hread as (_ & Hd & Hs). rewrite <- Hs in Hp, Hfl, Hst, Hf, Ho |- *. rewrite <- Hd.
  rewrite (bool_decide_eq_false_2 (status (self w1) = STOPPING))
    by (intros Heq; rewrite Heq, !elem_of_cons, elem_of_nil in Hst; by destruct Hst as [?|[?|[]]]).
  assert (status (self w1) ∈ RUNNING_STATUSES) as Hrun
    by (rewrite !elem_of_cons, elem_of_nil in Hst; unfold RUNNING_STATUSES; rewrite !elem_of_cons; tauto).
  unfold stop_job_if_timeout. rewrite (bind_ok get_self _ w1 (self w1) w1 eq_refl), Hfl.
  destruct (check_job_timeout_run PROGRAM_TIMEOUT fr w1 Hc Hrun) as (n & Hcheck).
  rewrite (bind_ok _ _ _ _ _ Hcheck), Hover. cbn [negb].
  destruct (region_closed_run CodeEngine (ce_region (self w1)) (set_ticks n w1) Ho)
    as (w2 & Hpaused & Hd2 & Hs2 & Hc2 & Hm2).
  unfold canceller_paused. rewrite (bind_ok _ _ _ _ _ Hpaused).
  unfold program_timeout_hours.
  rewrite (bind_ok _ _ _ _ _ (Config_get_int_run _ _ w2 ltac:(by rewrite Hc2))).
  assert (cancel svc get_runner UPDATE_JOB_STATUS w2 = (Ok false, w2)) as Hcancel.
  { unfold cancel. rewrite (bind_ok get_self _ w2 (self w2) w2 eq_refl), Hs2.
    cbn [self set_ticks]. rewrite Hp, (bool_decide_eq_true_2 (None = None)), orb_true_r by done. done. }
  erewrite bind_ok; [|apply try_except_ok; by rewrite (bind_ok _ _ _ _ _ Hcancel)].
  unfold increment_terminal_counter. rewrite (bind_ok (bind get_self _) _ w2 tt
    (set_sched (set_metrics (metrics (sched w2) ++ [JobsTerminal "custom" (status (self w1))]) (sched w2)) w2)).
  - eexists. split; [reflexivity|]. cbn. rewrite Hd2, Hm2. done.
  - unfold get_self, gets, bind. rewrite Hs2. cbn [self set_ticks]. rewrite Hfl.
    unfold provider_label. by rewrite Hp.
Qed.
End poll.

(** ** The pass *)

(** The kill signal is the process's own: what the service and the runner do does not move
    its readings. *)
Definition same_killed (w w' : World) : Prop := killed w' = killed w.
#[export] Instance same_killed_preorder : PreOrder same_killed.
Proof. split; unfold same_killed; [done|congruence]. Qed.

Section pass.
Context (svc : JobTransitionService) (get_runner : Job -> outcome AbstractRunner) (PROGRAM_TIMEOUT : Z).
Context `{!Keeps same_killed svc get_runner}.

Lemma same_killed_atomic {A} (m : Py A) : rel same_killed m -> rel same_killed (atomic m).
Proof. intros Hm. by apply (rel_atomic _). Qed.

Lemma same_killed_put_breaker dep region b : rel same_killed (put_breaker (region_breaker dep region) b).
Proof. intros w. apply write_killed. Qed.

Ltac killed_auto :=
  rel_deep ltac:(idtac; match goal with
    | |- rel _ (atomic _) => apply same_killed_atomic
    | |- rel _ (bind (get_breaker _ _) _) => apply (rel_bind_breaker _)
    | |- rel _ (put_breaker _ _) => apply same_killed_put_breaker
    end).

Lemma to_terminal_killed s o c fs : rel same_killed (to_terminal s o c fs).
Proof. killed_auto. Qed.

Lemma stop_killed' j o c : rel same_killed (stop svc (lazy_runner (get_runner j)) o c).
Proof.
  pose proof mirror_keeps.
  assert (rel same_killed (runner_stop (lazy_runner (get_runner j)))).
  { unfold lazy_runner, runner_stop at 1. pose proof stop_keeps. rel_auto. }
  killed_auto.
Qed.

Lemma cancel_killed c : rel same_killed (cancel svc get_runner c).
Proof. pose proof stop_killed'. killed_auto. Qed.

Lemma update_to_terminal_killed s : rel same_killed (update_to_terminal s).
Proof. pose proof to_terminal_killed. killed_auto. Qed.

Lemma timeout_killed fr : rel same_killed (stop_job_if_timeout svc get_runner PROGRAM_TIMEOUT fr).
Proof. pose proof cancel_killed. killed_auto. Qed.

Lemma to_running_killed fr : rel same_killed (update_to_running svc fr).
Proof. pose proof sender_keeps. pose proof mirror_keeps. killed_auto. Qed.

Lemma update_job_status_killed fr : rel same_killed (update_job_status svc get_runner PROGRAM_TIMEOUT fr).
Proof.
  pose proof update_to_terminal_killed. pose proof timeout_killed. pose proof to_running_killed.
  pose proof status_keeps. killed_auto.
Qed.
(** The reference: every job of the pass is polled, one after the other, each from the state
    the one before left, whatever that one answered or raised. *)
Fixpoint polls (js : list (Job * option Z)) (w : World) : list (outcome bool) * World :=
  match js with
  | [] => ([], w)
  | (job, fr) :: js' =>
      let '(o, w1) := on_job job (update_job_status svc get_runner PROGRAM_TIMEOUT fr)
                        (set_ticks (S (ticks w)) w) in
      let '(os, w2) := polls js' w1 in
      (o :: os, w2)
  end.

Definition db_error (o : outcome bool) : option exn :=
  match o with Raise e => if is_db_exception e then Some e else None | Ok _ => None end.

Definition first_db_error (os : list (outcome bool)) : option exn := head (omap db_error os).

Definition changed (o : outcome bool) : bool := match o with Ok true => true | _ => false end.

Definition never_killed (w : World) : Prop := forall n, killed w n = false.

Lemma on_job_killed {A} j (m : Py A) : rel same_killed m -> rel same_killed (on_job j m).
Proof.
  intros Hm w. unfold on_job. specialize (Hm (set_self j w)). destruct (m (set_self j w)). done.
Qed.

Lemma status_loop_polls js acc w :
  never_killed w -> pass_killed acc = false ->
  let '(os, w') := polls js w in
  status_loop svc get_runner PROGRAM_TIMEOUT js acc w =
    (Ok (mk_pass false (pass_changed acc + Z.of_nat (length (filter changed os)))
           (pass_checked acc + Z.of_nat (length js))
           (match pass_db_error acc with Some e => Some e | None => first_db_error os end)), w').
Proof.
  revert acc w. induction js as [|[job fr] js IH]; intros acc w Hk Ha.
  - cbn. destruct acc as [kl ch ck err]. cbn in *. subst.
    rewrite !Z.add_0_r. by destruct err.
  - cbn [polls status_loop]. set (w0 := set_ticks (S (ticks w)) w).
    assert (kill_received w = (Ok false, w0)) as Hkill
      by (unfold kill_received, w0; by rewrite Hk).
    rewrite (bind_ok _ _ _ _ _ Hkill).
    pose proof (on_job_killed job _ (update_job_status_killed fr) w0) as Hk1.
    destruct (on_job job _ w0) as [o w1] eqn:Ej. cbn [snd] in Hk1.
    assert (never_killed w1) as Hk1' by (intros n; unfold same_killed in Hk1; rewrite Hk1; apply Hk).
    specialize (IH (mk_pass false (if changed o then pass_changed acc + 1 else pass_changed acc)
      (pass_checked acc + 1)
      (match pass_db_error acc with Some e => Some e | None => db_error o end)) w1 Hk1' eq_refl).
    destruct (polls js w1) as [os w2]. cbn [pass_changed pass_checked pass_db_error] in IH.
    match goal with |- context [bind (try_except ?m ?h) ?K w0] =>
      assert (bind (try_except m h) K w0
        = K (mk_pass false (if changed o then pass_changed acc + 1 else pass_changed acc)
              (pass_checked acc + 1)
              (match pass_db_error acc with Some e => Some e | None => db_error o end)) w1) as -> end.
    { destruct o as [b|e].
      - erewrite bind_ok; [reflexivity|]. apply try_except_ok. rewrite (bind_ok _ _ _ _ _ Ej).
        unfold ret. destruct b, (pass_db_error acc); reflexivity.
      - erewrite bind_try_caught; [|by rewrite (bind_raise _ _ _ _ _ Ej)|reflexivity].
        unfold ret, bind, db_error. destruct (is_db_exception e), (pass_db_error acc); reflexivity. }
    rewrite IH. clear IH. f_equal. f_equal. unfold first_db_error. cbn [omap list_omap].
    rewrite filter_cons. f_equal; [|rewrite length_cons; lia|].

    + destruct (changed o); case_decide; try done; rewrite ?length_cons; lia.
    + destruct (pass_db_error acc); [done|]. by destruct (db_error o).
Qed.

(** the jobs of a pass do not affect each other: with no kill signal every running job
    is polled, whatever the polls before it raised; nothing is raised before the last one,
    and then only the first database error, for the scheduler to count. *)
Theorem status_pass_isolates LIMITS_MAX_FLEETS w :
  never_killed w -> 0 < LIMITS_MAX_FLEETS ->
  let js := running_fleets_jobs (db w) in
  let '(os, w1) := polls js w in
  let '(out, w') := update_fleets_run svc get_runner PROGRAM_TIMEOUT LIMITS_MAX_FLEETS w in
  length os = length js
  /\ out = match first_db_error os with Some e => Raise e | None => Ok tt end
  /\ db w' = db w1
  /\ metrics (sched w') = metrics (sched w1) ++ [TaskItems "UpdateFleetsJobsStatuses" (Z.of_nat (length js))].
Proof.
  intros Hk Hl js. pose proof (status_loop_polls js (mk_pass false 0 0 None) w Hk eq_refl) as H.
  assert (length (fst (polls js w)) = length js) as Hlen.
  { clearbody js. clear. revert w. induction js as [|[job fr] js IH]; intros w; [done|]. cbn [polls].
    destruct (on_job _ _ _) as [o w1]. specialize (IH w1). destruct (polls js w1). cbn in *. lia. }
  destruct (polls js w) as [os w1]. unfold update_fleets_run.
  rewrite (proj2 (Z.leb_gt _ _)) by done.
  rewrite (bind_ok get_db _ w (db w) w eq_refl). fold js. rewrite (bind_ok _ _ _ _ _ H).
  cbn [pass_checked pass_killed pass_db_error pass_changed].
  unfold count_metric, modify_sched, modify, bind.
  destruct (first_db_error os); cbn; by rewrite ?Z.add_0_l.
Qed.
End pass.

(** ** Concrete inputs *)

(** A runner whose task store reports [s]. *)
Definition reporting_runner (s : option JobStatus) : AbstractRunner :=
  mk_runner (ret None) (ret s) (ret true) (ret true).

(** A job whose stop was asked for at time 0, ten minutes and a bit later. *)
Definition stopping_job : Job := sample_job "job-1" STOPPING (Some "fleet-1").
Definition stopping_db : DB :=
  mk_db {[ "job-1" := stopping_job ]} [status_event "job-1" 0 STOPPING] [] 0 ∅ [] ∅.
Definition stopping_world : World :=
  mk_world stopping_db stopping_job (fun n => 700 * MICROS + sample_clock n) sample_clock
    (fun _ => false) 0 ∅ [] [] init_sched.

Lemma sample_buildable s fleet m : buildable (sample_job "job-1" s fleet) m.
Proof.
  split; [|split; done]. intros _. by eexists.
Qed.

Lemma stopping_ends_witness :
  exists w', update_job_status noop_service (fun _ => Ok (reporting_runner None)) 24 None stopping_world
             = (Ok true, w')
  /\ Abs.job_status (db w') "job-1" = Some STOPPED.
Proof.
  destruct (stopping_ends noop_service (fun _ => Ok (reporting_runner None)) 24 None stopping_world
              (reporting_runner None) None stopping_world stopping_job (status_event "job-1" 0 STOPPING))
    as (w2 & w' & Hd & Hs & Hrun & Hend); try reflexivity.
  - split; [reflexivity|]. split; reflexivity.
  - apply sample_buildable.
  - exists w'. split; [exact Hrun|]. apply ended_status in Hend. rewrite Hs in Hend. exact Hend.
Defined.

Definition timeout_world : World :=
  set_config (<["scheduler.program_timeout_hours" := "24"]> ∅) running_world.

Lemma poll_spec_witness :
  exists w', update_job_status noop_service (fun _ => Ok (reporting_runner (Some SUCCEEDED))) 24 None timeout_world
             = (Ok true, w')
  /\ Abs.job_status (db w') "job-1" = Some SUCCEEDED.
Proof.
  destruct (poll_spec noop_service (fun _ => Ok (reporting_runner (Some SUCCEEDED))) 24 None timeout_world
              (reporting_runner (Some SUCCEEDED)) (Some SUCCEEDED) timeout_world running_job)
    as (w' & Hrun & Hend); try reflexivity.
  - apply (bool_decide_unpack _). reflexivity.
  - split; [reflexivity|]. split; reflexivity.
  - apply sample_buildable.
  - by eexists.
  - right. reflexivity.
  - exists w'. split; [exact Hrun|]. apply ended_status in Hend. exact Hend.
Defined.

(** A database that goes away while the runner is being built. *)
Definition outage : exn := mk_exn OperationalError "server closed the connection".
Instance outage_keeps : Keeps same_killed noop_service (fun _ => Raise outage).
Proof. split; intros; try done; apply rel_ret; exact _. Qed.

Lemma status_pass_isolates_witness :
  fst (update_fleets_run noop_service (fun _ => Raise outage) 24 10 running_world) = Raise outage.
Proof.
  pose proof (status_pass_isolates noop_service (fun _ => Raise outage) 24 10 running_world
                ltac:(intros ?; reflexivity) ltac:(reflexivity)) as H.
  cbv zeta in H.
  assert (first_db_error (fst (polls noop_service (fun _ => Raise outage) 24
            (running_fleets_jobs (db running_world)) running_world)) = Some outage) as He
    by (vm_compute; reflexivity).
  destruct (polls _ _ _ _ _) as [os w1]. destruct (update_fleets_run _ _ _ _ _) as [out w'].
  destruct H as (_ & Hout & _). cbn [fst] in *. rewrite He in Hout. exact Hout.
Defined.

(** A running job whose function was deleted, 25 hours after it started. *)
Definition orphan_world : World :=
  mk_world (set_jobs {[ "job-1" := without_program running_job ]} running_db) (without_program running_job)
    (fun n => 25 * HOUR + sample_clock n) sample_clock (fun _ => false) 0
    (<["scheduler.program_timeout_hours" := "24"]> ∅) [] [] init_sched.

Lemma orphan_counted_not_ended_witness :
  exists w', update_job_status noop_service (fun _ => Ok (reporting_runner None)) 24 (Some 0) orphan_world
             = (Ok true, w')
  /\ Abs.job_status (db w') "job-1" = Some RUNNING
  /\ metrics (sched w') = [JobsTerminal "custom" RUNNING].
Proof.
  destruct (orphan_counted_not_ended noop_service (fun _ => Ok (reporting_runner None)) 24 (Some 0)
              orphan_world (reporting_runner None) orphan_world) as (w' & Hrun & Hd & Hm); try reflexivity.
  - apply (bool_decide_unpack _). reflexivity.
  - split; [reflexivity|]. split; reflexivity.
  - by eexists.
  - exists w'. split; [exact Hrun|]. split; [rewrite Hd; reflexivity|rewrite Hm; reflexivity].
Defined.
