(* ===== verification/ScheduleFleets.v ===== *)
(** * The scheduling task of Fleets ([scheduler/tasks/schedule_fleets_jobs.py])

    One tick: how many slots are free, which queued jobs get them, and the loop that submits
    them within the quota of each Code Engine project. Counting the fleets of a project and
    parsing the environment of a job are parameters. *)

From S2P Require Import Prelude PyStr Domain Models World JobEvents BillingEvents JobTransitions TransitionSpec Samples CircuitBreaker FleetsBreakers Blocked Schedule FreeFleets.

Local Open Scope string_scope.
Local Open Scope list_scope.
Local Open Scope Z_scope.

Definition MAINTENANCE : string := "scheduler.maintenance".
Definition FLEETS_JOBS_PER_TICK : string := "scheduler.fleets.jobs_per_tick".
Definition ACTIVE_JOBS_PER_USER : string := "gateway.limits.active_jobs_per_user".

(** What one tick knows: the regions it gave up on, those of them whose breaker is open, the
    jobs it submitted (the code keeps their number) and how many more fleets each project
    can hold, [None] being infinity. *)
Record Tick := mk_tick {
  skipped_regions : list (option string);
  paused_regions : list (option string);
  submitted : list Job;
  free_fleets : gmap nat (option Z)
}.

Section task.
Context (svc : JobTransitionService).
Context (get_runner : Job -> outcome AbstractRunner).
Context (IBM_CLOUD_API_KEY : string) (ce_count_fleets : CodeEngineProject -> Py Z).
Context (json_loads : string -> outcome unit).

(** [count_fleets] ([core/services/runners/fleets_runner.py]): every failure is a
    [RunnerError]. *)
Definition count_fleets (project : CodeEngineProject) : Py Z :=
  if bool_decide (IBM_CLOUD_API_KEY = "") then
    raise (mk_exn RunnerError "IBM_CLOUD_API_KEY not configured in settings")
  else
    try_except (ce_count_fleets project)
      (fun _ => Some (raise (mk_exn RunnerError
         ("Unable to count the fleets of project " +:+ project_name project)))).

Definition free_fleets_of (project : CodeEngineProject) : Py (option Z) :=
  count <- try_except (c <- count_fleets project ;; ret (Some c))
    (fun ex => if isinstance ex RunnerError then Some (ret None) else None) ;;
  match count with
  | None => ret None
  | Some count =>
      quota <- Config_get_int FLEETS_QUOTA_PER_PROJECT DEFAULT_QUOTA_PER_PROJECT ;;
      ret (Some (Z.max 0 (quota - count)))
  end.

(** The active project of the job and the counts, with this one in. *)
Definition counted_project (job : Job) (free : gmap nat (option Z))
    : Py (option CodeEngineProject * gmap nat (option Z)) :=
  match p ← program job; program_code_engine_project p with
  | None => ret (None, free)
  | Some project =>
      if negb (project_active project) then ret (None, free)
      else
        match free !! project_pk project with
        | Some _ => ret (Some project, free)
        | None =>
            n <- free_fleets_of project ;;
            ret (Some project, <[project_pk project := n]> free)
        end
  end.

(** [free_fleets[project.id] <= 0]. *)
Definition no_free_fleet (project : CodeEngineProject) (free : gmap nat (option Z)) : bool :=
  match free !! project_pk project with
  | Some (Some n) => n <=? 0
  | _ => false
  end.

Definition take_fleet (project : option CodeEngineProject) (free : gmap nat (option Z))
    : gmap nat (option Z) :=
  match project with
  | Some project => alter (fmap (fun n => n - 1)) (project_pk project) free
  | None => free
  end.

Definition add_queue_wait_time_metric (job : Job) : Py unit :=
  if filler job then ret tt
  else
    t <- now ;;
    count_metric (QueueWaitTime (t - created job) (if gpu job then "gpu" else "cpu")).

(** One job of the loop; [None] means the kill signal was received. *)
Definition schedule_one (job : Job) (st : Tick) : Py (option Tick) :=
  kill <- kill_received ;;
  if kill : bool then ret None
  else
    let region := ce_region job in
    if bool_decide (region ∈ skipped_regions st) then
      (if bool_decide (region ∈ paused_regions st)
       then count_metric (FleetsJobsSkippedByBreaker region) else ret tt) ;;;
      ret (Some st)
    else
      paused <- fleets_paused region ;;
      if paused : bool then
        count_metric (FleetsJobsSkippedByBreaker region) ;;;
        ret (Some (mk_tick (region :: skipped_regions st) (region :: paused_regions st)
                     (submitted st) (free_fleets st)))
      else
        counted <- counted_project job (free_fleets st) ;;
        let '(project, free) := counted in
        let st := mk_tick (skipped_regions st) (paused_regions st) (submitted st) free in
        if match project with Some p => no_free_fleet p free | None => false end then ret (Some st)
        else
          of_outcome (json_loads (env_vars job)) ;;;
          outcome_ <- try_except
            (on_job job (submit svc get_runner SCHEDULE_JOBS) ;;; ret (Some true))
            (fun ex =>
               if isinstance ex RunnerRetryableError then Some (ret (Some false))
               else if isinstance ex RunnerError || isinstance ex InvalidJobTransitionException
               then Some (ret None) else None) ;;
          match outcome_ with
          | Some true =>
              add_queue_wait_time_metric job ;;;
              ret (Some (mk_tick (skipped_regions st) (paused_regions st) (submitted st ++ [job])
                           (take_fleet project free)))
          | Some false =>
              ret (Some (mk_tick (region :: skipped_regions st) (paused_regions st) (submitted st) free))
          | None => ret (Some st)
          end.

Fixpoint schedule_loop (js : list Job) (st : Tick) : Py (option Tick) :=
  match js with
  | [] => ret (Some st)
  | job :: js' =>
      next <- schedule_one job st ;;
      match next with
      | None => ret None
      | Some st' => schedule_loop js' st'
      end
  end.

Definition first_tick : Tick := mk_tick [] [] [] ∅.

Definition schedule_jobs_if_slots_available (max_slots_possible number_of_slots_running : Z) : Py unit :=
  let free_slots := max_slots_possible - number_of_slots_running in
  if free_slots <? 1 then ret tt
  else
    jobs_per_tick <- Config_get_int FLEETS_JOBS_PER_TICK 0 ;;
    if jobs_per_tick <? 1 then ret tt
    else
      per_user <- Config_get_int ACTIVE_JOBS_PER_USER 0 ;;
      js <- get_jobs_to_schedule_fair_share (Z.to_nat (Z.min free_slots jobs_per_tick)) false FLEETS per_user ;;
      st <- schedule_loop js first_tick ;;
      match st with
      | None => ret tt
      | Some st => count_metric (TaskItems "ScheduleFleetsJobs" (Z.of_nat (length (submitted st))))
      end.

Definition running_fleets (d : DB) : Z :=
  Z.of_nat (length (filter (fun j => status j ∈ RUNNING_STATUSES /\ runner j = FLEETS) (rows d))).

Definition schedule_fleets_run (LIMITS_MAX_FLEETS : Z) : Py unit :=
  maintenance <- Config_get_bool MAINTENANCE ;;
  if maintenance : bool then ret tt
  else
    d <- get_db ;;
    schedule_jobs_if_slots_available LIMITS_MAX_FLEETS (running_fleets d).
End task.
