(* ===== verification/ScheduleFleetsProps.v ===== *)
(** * What a scheduling tick promises

    The quota of every Code Engine project holds over the submits of a tick. *)

From S2P Require Import Prelude PyStr Domain Models World JobEvents BillingEvents JobTransitions TransitionSpec Samples CircuitBreaker FleetsBreakers Blocked Schedule FreeFleets ScheduleFleets.

Local Open Scope string_scope.
Local Open Scope list_scope.
Local Open Scope Z_scope.

(** The job runs on the active project with this key. *)
Definition on_project (pk : nat) (job : Job) : bool :=
  match p ← program job; program_code_engine_project p with
  | Some project => project_active project && bool_decide (project_pk project = pk)
  | None => false
  end.

Section tick.
Context (svc : JobTransitionService) (get_runner : Job -> outcome AbstractRunner).
Context (IBM_CLOUD_API_KEY : string) (ce_count_fleets : CodeEngineProject -> Py Z).
Context (json_loads : string -> outcome unit).

Let loop := schedule_loop svc get_runner IBM_CLOUD_API_KEY ce_count_fleets json_loads.
Let one := schedule_one svc get_runner IBM_CLOUD_API_KEY ce_count_fleets json_loads.
Let counted := counted_project IBM_CLOUD_API_KEY ce_count_fleets.

(** A count of the project with key [pk] answered that it can hold [total] more fleets. *)
Definition has_free (pk : nat) (total : Z) : Prop :=
  0 <= total /\ exists project w w', project_pk project = pk
    /\ free_fleets_of IBM_CLOUD_API_KEY ce_count_fleets project w = (Ok (Some total), w').

Definition was_submitted (job : Job) : Prop :=
  exists w w', on_job job (submit svc get_runner SCHEDULE_JOBS) w = (Ok tt, w').

Definition submits_on (pk : nat) (js : list Job) : Z := Z.of_nat (length (filter (on_project pk) js)).

(** The counts of the tick are the free fleets that were read, less one per submit. *)
Record tick_ok (submits : list Job) (free : gmap nat (option Z)) : Prop := {
  tick_counts pk n :
    free !! pk = Some (Some n) -> 0 <= n /\ exists total, has_free pk total /\ n = total - submits_on pk submits;
  tick_uncounted pk : free !! pk = None -> submits_on pk submits = 0
}.

Lemma free_fleets_of_nonneg project w total w' :
  free_fleets_of IBM_CLOUD_API_KEY ce_count_fleets project w = (Ok (Some total), w') -> 0 <= total.
Proof.
  unfold free_fleets_of. intros H. inv_run H. destruct a as [c|]; inv_run H. lia.
Qed.

(** Counting a project that was not keeps the counts right. *)
Lemma counted_project_ok job submits free w project free' w' :
  tick_ok submits free ->
  counted job free w = (Ok (project, free'), w') ->
  tick_ok submits free'
  /\ match project with
     | Some p => is_Some (free' !! project_pk p) /\ (forall pk, on_project pk job <-> project_pk p = pk)
     | None => forall pk, ~ on_project pk job
     end.
Proof.
  intros Hok. unfold counted, counted_project, on_project.
  destruct (p ← program job; program_code_engine_project p) as [p|]; [|intros [= <- <- <-]; by split; [|intros ? []]].
  destruct (project_active p); cbn [negb andb]; [|intros [= <- <- <-]; by split; [|intros ? []]].
  assert (forall pk, bool_decide (project_pk p = pk) <-> project_pk p = pk) as Hpk
    by (intros; apply bool_decide_spec).
  destruct (free !! project_pk p) as [n|] eqn:E.
  - intros [= <- <- <-]. split; [done|]. split; [by eexists|done].
  - intros H. inv_run H. split; [|split; [rewrite lookup_insert_eq; by eexists|done]].
    split; intros pk.
    + intros n Hn. destruct (decide (project_pk p = pk)) as [<-|Hne].
      * rewrite lookup_insert_eq in Hn. injection Hn as ->.
        apply free_fleets_of_nonneg in Hrun as Hn0. split; [done|]. exists n.
        split; [by split; [|eexists _, _, _]|]. rewrite (tick_uncounted _ _ Hok _ E). lia.
      * rewrite lookup_insert_ne in Hn by done. by apply (tick_counts _ _ Hok).
    + intros Hn. destruct (decide (project_pk p = pk)) as [<-|Hne].
      * by rewrite lookup_insert_eq in Hn.
      * rewrite lookup_insert_ne in Hn by done. by apply (tick_uncounted _ _ Hok).
Qed.

Lemma submits_on_snoc pk js job :
  submits_on pk (js ++ [job]) = submits_on pk js + (if on_project pk job then 1 else 0).
Proof.
  unfold submits_on. rewrite filter_app, length_app, filter_cons, filter_nil.
  destruct (on_project pk job); case_decide; try done; cbn [length]; lia.
Qed.

(** One more submit on a project with a free fleet. *)
Lemma tick_ok_submit submits free project job :
  tick_ok submits free ->
  match project with
  | Some p => is_Some (free !! project_pk p) /\ (forall pk, on_project pk job <-> project_pk p = pk)
              /\ no_free_fleet p free = false
  | None => forall pk, ~ on_project pk job
  end ->
  tick_ok (submits ++ [job]) (take_fleet project free).
Proof.
  intros Hok Hp. assert (forall pk, ~ on_project pk job -> submits_on pk (submits ++ [job]) = submits_on pk submits) as Hsame.
  { intros pk Hn. rewrite submits_on_snoc. destruct (on_project pk job); [by destruct Hn|lia]. }
  destruct project as [p|]; cbn [take_fleet].
  - destruct Hp as (Hsome & Hon & Hfree). split; intros pk.
    + intros n Hn. destruct (decide (project_pk p = pk)) as [<-|Hne].
      * rewrite lookup_alter_eq in Hn. destruct (free !! project_pk p) as [[m|]|] eqn:E; [|done..].
        injection Hn as <-. destruct (tick_counts _ _ Hok _ _ E) as (Hm & total & Ht & Heq).
        unfold no_free_fleet in Hfree. rewrite E in Hfree. apply Z.leb_gt in Hfree.
        split; [lia|]. exists total. split; [done|]. rewrite submits_on_snoc.
        destruct (on_project (project_pk p) job) eqn:Ej; [lia|].
        exfalso. assert (on_project (project_pk p) job) as Hj by (by apply Hon). by rewrite Ej in Hj.
      * rewrite lookup_alter_ne in Hn by done. rewrite Hsame by (by rewrite Hon). by apply (tick_counts _ _ Hok).
    + intros Hn. destruct (decide (project_pk p = pk)) as [<-|Hne].
      * rewrite lookup_alter_eq in Hn. destruct Hsome as [x Hx]. by rewrite Hx in Hn.
      * rewrite lookup_alter_ne in Hn by done. rewrite Hsame by (by rewrite Hon). by apply (tick_uncounted _ _ Hok).
  - split; intros pk; [intros n|]; rewrite Hsame by done; [apply (tick_counts _ _ Hok)|apply (tick_uncounted _ _ Hok)].
Qed.

(** One job of the loop adds at most itself. *)
Lemma schedule_one_ok job st w st' w' :
  tick_ok (submitted st) (free_fleets st) ->
  one job st w = (Ok (Some st'), w') ->
  tick_ok (submitted st') (free_fleets st')
  /\ (submitted st' = submitted st \/ submitted st' = submitted st ++ [job] /\ was_submitted job).
Proof.
  intros Hok. unfold one, schedule_one. intros H. inv_run H. destruct a; inv_run H.
  destruct (bool_decide (ce_region job ∈ skipped_regions st)).
  { destruct (bool_decide (ce_region job ∈ ScheduleFleets.paused_regions st)); inv_run H; by split; [|left]. }
  inv_run H. destruct a; [inv_run H; by split; [|left]|]. inv_run H. destruct a as [project free].
  apply counted_project_ok with (submits := submitted st) in Hrun1 as [Hok' Hp]; [|done].
  destruct (match project with Some p => no_free_fleet p free | None => false end) eqn:Hfree;
    [inv_run H; by split; [|left]|].
  inv_run H. destruct a0 as [[]|]; inv_run H; [|by split; [|left]..].
  split.
  - apply tick_ok_submit; [done|]. destruct project; [|done]. destruct Hp. done.
  - right. split; [done|]. match goal with H : try_except _ _ _ = _ |- _ => rename H into Htry end.
    apply try_except_ok_inv in Htry as [Htry|(e & s5 & k & _ & He & Hk)].
    + apply bind_ok_inv in Htry as ([] & s6 & Hsub & _). by eexists _, _.
    + destruct (isinstance e RunnerRetryableError); [by simplify_eq|].
      destruct (_ || _); by simplify_eq.
Qed.

Lemma schedule_loop_ok js st w st' w' :
  tick_ok (submitted st) (free_fleets st) ->
  loop js st w = (Ok (Some st'), w') ->
  tick_ok (submitted st') (free_fleets st')
  /\ exists more, submitted st' = submitted st ++ more /\ more `sublist_of` js /\ Forall was_submitted more.
Proof.
  unfold loop. revert st w. induction js as [|job js IH]; intros st w Hok H; cbn [schedule_loop] in H.
  { inv_run H. split; [done|]. exists []. by rewrite app_nil_r. }
  inv_run H. destruct a as [st1|]; [|by inv_run H]. apply schedule_one_ok in Hrun as [Hok1 Hs]; [|done].
  destruct (IH _ _ Hok1 H) as [Hok' (more & Heq & Hsub & Hall)]. split; [done|].
  destruct Hs as [Hs|[Hs Hjob]].
  - exists more. rewrite Heq, Hs. split_and!; [done|by constructor|done].
  - exists (job :: more). rewrite Heq, Hs, <- app_assoc. split_and!; [done|by constructor|by constructor].
Qed.

(** C12: a tick respects the quota of every Code Engine project. The jobs it reports as
    submitted are distinct jobs of the list it was given, in its order, each accepted; and a
    project whose fleets were counted takes no more submits than it could hold fleets,
    while no job of a project goes before its project was looked at. *)
Theorem schedule_quota js w st w' :
  loop js first_tick w = (Ok (Some st), w') ->
  submitted st `sublist_of` js
  /\ Forall was_submitted (submitted st)
  /\ (forall pk n, free_fleets st !! pk = Some (Some n) ->
        exists total, has_free pk total /\ submits_on pk (submitted st) = total - n /\ 0 <= n)
  /\ (forall pk, free_fleets st !! pk = None -> submits_on pk (submitted st) = 0).
Proof.
  intros H. apply schedule_loop_ok in H as [Hok (more & Heq & Hsub & Hall)].
  - cbn in Heq. subst more. split_and!; [done..| |apply Hok].
    intros pk n Hn. destruct (tick_counts _ _ Hok pk n Hn) as (? & total & ? & ?).
    exists total. split_and!; [done|lia|done].
  - split; cbn; [intros pk n; by rewrite lookup_empty|done].
Qed.
End tick.

(** ** Concrete input *)

(** Two queued jobs of a project that can hold one fleet. *)
Definition queued_jobs : list Job := [sample_job "job-1" QUEUED None; sample_job "job-2" QUEUED None].
Definition queued_world : World :=
  set_config
    (<[FLEETS_QUOTA_PER_PROJECT := "1"]> (<[FLEETS_BREAKER_FAILURES := "3"]>
     (<[FLEETS_BREAKER_PAUSE_SECONDS := "60"]> ∅)))
    (set_db (set_jobs (<["job-1" := sample_job "job-1" QUEUED None]>
                       {[ "job-2" := sample_job "job-2" QUEUED None ]}) empty_db) running_world).

Definition sample_tick : Py (option Tick) :=
  schedule_loop noop_service (fun _ => Ok (constant_runner true)) "key" (fun _ => ret 0)
    (fun _ => Ok tt) queued_jobs first_tick.

Lemma schedule_quota_witness :
  exists st w', sample_tick queued_world = (Ok (Some st), w')
  /\ map id (submitted st) = ["job-1"]
  /\ exists total, has_free "key" (fun _ => ret 0) 1 total /\ submits_on 1 (submitted st) = total - 0.
Proof.
  do 2 eexists. split; [vm_compute; reflexivity|]. split; [reflexivity|].
  destruct (schedule_quota noop_service (fun _ => Ok (constant_runner true)) "key" (fun _ => ret 0)
              (fun _ => Ok tt) queued_jobs queued_world _ _ ltac:(vm_compute; reflexivity))
    as (_ & _ & Hq & _).
  destruct (Hq 1%nat 0 ltac:(vm_compute; reflexivity)) as (total & H1 & H2 & _).
  exists total. split; [exact H1|exact H2].
Defined.
