(* ===== verification/StopBlocked.v ===== *)
(** * Stopping the jobs of a blocked resource
    ([scheduler/tasks/stop_blocked_fleets_jobs.py])

    One pass: the running Fleets jobs of a blocked account, plan and subscription are asked to
    stop, and each one that was stopped is owed an error event. *)

From S2P Require Import Prelude PyStr Domain Models World JobEvents BillingEvents JobTransitions TransitionSpec Samples CircuitBreaker FleetsBreakers Blocked Schedule TransitionProps UpdateFleets UpdateFleetsProps.

Local Open Scope string_scope.
Local Open Scope list_scope.
Local Open Scope Z_scope.

Definition BLOCKED_RESOURCE_ERROR_CODE : string := "BLOCKED_RESOURCE".
Definition BLOCKED_RESOURCE_ERROR_MESSAGE : string :=
  "This job was cancelled because your account, plan or subscription is blocked, so its result may be missing or incomplete. Run it again once the block is lifted.".

(** The identifiers of the ERROR event, as one text. *)
Definition blocked_args (job : Job) : string :=
  join "/" (map (fun o => default "None" o) [account_id job; plan_id job; subscription_id job]).

Definition blocked_resource_error (job : Job) (t : Z) : JobEvent :=
  mk_event (id job) ERROR SCHEDULER BLOCKED_RESOURCE_STOP t
    (ErrorData BLOCKED_RESOURCE_ERROR_CODE BLOCKED_RESOURCE_ERROR_MESSAGE "BlockedResource" (blocked_args job)).

Section task.
Context (svc : JobTransitionService).
Context (get_runner : Job -> outcome AbstractRunner).

(** [_stop], on the job in hand. *)
Definition stop_one : Py bool :=
  job <- get_self ;;
  paused <- canceller_paused (ce_region job) ;;
  if paused : bool then ret false
  else
    try_except
      (cancelled <- cancel svc get_runner BLOCKED_RESOURCE_STOP ;;
       (if cancelled : bool then ret tt
        else to_stopped SCHEDULER BLOCKED_RESOURCE_STOP [] ;;; ret tt) ;;;
       ret true)
      (fun ex =>
         if isinstance ex RunnerRetryableError then Some (ret false)
         else if isinstance ex RunnerError then Some (first_cancel_refusal (id job) ;;; ret false)
         else if isinstance ex InvalidJobTransitionException then Some (ret false)
         else None).

(** The loop; [break] on the kill signal. *)
Fixpoint stop_loop (js stopped : list Job) : Py (list Job) :=
  match js with
  | [] => ret stopped
  | job :: js' =>
      kill <- kill_received ;;
      if kill : bool then ret stopped
      else
        done <- on_job job stop_one ;;
        stop_loop js' (if done : bool then stopped ++ [job] else stopped)
  end.

(** [JobEvent.objects.bulk_create([...])]: each instance is stamped when it is saved. *)
Fixpoint create_blocked_errors (js : list Job) : Py unit :=
  match js with
  | [] => ret tt
  | job :: js' =>
      t <- now ;;
      modify_db (fun d => set_events (events d ++ [blocked_resource_error job t]) d) ;;;
      create_blocked_errors js'
  end.

(** The jobs a pass asks to stop. *)
Definition to_stop (q : Job -> bool) (d : DB) : list Job :=
  filter (fun j => q j && bool_decide (runner j = FLEETS) && negb (filler j)
                   && bool_decide (status j ∈ [PENDING; RUNNING])) (rows d).

Definition stop_blocked_run : Py unit :=
  enabled <- Config_get_bool BLOCKED_JOBS_STOP_ENABLED ;;
  if negb enabled then ret tt
  else
    blocked <- blocked_jobs_filter ;;
    match blocked with
    | None => ret tt
    | Some q =>
        d <- get_db ;;
        stopped <- stop_loop (to_stop q d) [] ;;
        create_blocked_errors stopped
    end.
End task.

(** * What stopping the jobs of a blocked resource promises

    Which jobs a pass is done with, by what the cancel answered. *)

Section stop_one.
Context (svc : JobTransitionService) (get_runner : Job -> outcome AbstractRunner).

Lemma same_db_first_refusal j : rel same_db (first_cancel_refusal j).
Proof. unfold first_cancel_refusal. rel_auto. Qed.

Lemma first_refusal_returns j w : exists b w', first_cancel_refusal j w = (Ok b, w') /\ db w' = db w.
Proof.
  pose proof (same_db_first_refusal j w) as Hd.
  assert (returns (first_cancel_refusal j)) as Hr.
  { intros w0. unfold first_cancel_refusal, gets, modify_sched, modify, bind, ret.
    repeat case_bool_decide; by eexists. }
  destruct (returns_run _ w Hr) as [b Hb]. by exists b, (snd (first_cancel_refusal j w)).
Qed.

(** one job of a blocked resource. It is done with (and owed the error event) when its
    cancel is in flight, or when there was nothing to cancel and its row could be ended as
    STOPPED; a cancel that was refused, that did not land or that came too late writes
    nothing more and leaves the job to the next pass. *)
Theorem blocked_stop_answers w w0 o w1 row :
  region_paused CodeEngine (ce_region (self w)) w = (Ok false, w0) ->
  cancel svc get_runner BLOCKED_RESOURCE_STOP w0 = (o, w1) ->
  jobs (db w1) !! id (self w1) = Some row ->
  buildable (self w1) (bool_decide (id (self w1) ∈ mirrors (db w1))) ->
  match o with
  | Ok true => stop_one svc get_runner w = (Ok true, w1)
  | Ok false =>
      if bool_decide (STOPPED ∈ VALID_TRANSITIONS (status row)) then
        exists w', stop_one svc get_runner w = (Ok true, w')
          /\ Abs.job_status (db w') (id (self w1)) = Some STOPPED
      else exists w', stop_one svc get_runner w = (Ok false, w') /\ db w' = db w1
  | Raise e =>
      if isinstance e RunnerError || isinstance e InvalidJobTransitionException then
        exists w', stop_one svc get_runner w = (Ok false, w') /\ db w' = db w1
      else stop_one svc get_runner w = (Raise e, w1)
  end.
Proof.
  intros Hp Hc Hrow Hb. unfold stop_one. rewrite (bind_ok get_self _ w (self w) w eq_refl).
  unfold canceller_paused. rewrite (bind_ok _ _ _ _ _ Hp). cbn match.
  destruct o as [[]|e].
  - apply try_except_ok. by rewrite (bind_ok _ _ _ _ _ Hc).
  - assert (STOPPED ∈ TERMINAL_STATUSES) as Ht by (by apply (bool_decide_unpack _)).
    destruct (decide (STOPPED ∈ VALID_TRANSITIONS (status row))) as [Hv|Hv].
    + rewrite bool_decide_eq_true_2 by done.
      destruct (to_terminal_ok STOPPED SCHEDULER BLOCKED_RESOURCE_STOP [] w1 row Ht Hrow Hv Hb)
        as (ev & w2 & Hrun & (row' & rows & _ & _ & _ & Hj & _)).
      cbn [to_terminal] in Hrun. exists w2. split.
      * apply try_except_ok. rewrite (bind_ok _ _ _ _ _ Hc).
        erewrite bind_ok; [reflexivity|]. by rewrite (bind_ok _ _ _ _ _ Hrun).
      * unfold Abs.job_status. rewrite Hj, lookup_insert_eq. done.
    + rewrite bool_decide_eq_false_2 by done.
      pose proof (to_terminal_refused STOPPED SCHEDULER BLOCKED_RESOURCE_STOP [] w1 row Ht Hrow Hv) as Hr.
      cbn [to_terminal] in Hr. eexists. split.
      * eapply try_except_caught.
        -- rewrite (bind_ok _ _ _ _ _ Hc). apply bind_raise, bind_raise. exact Hr.
        -- reflexivity.
      * reflexivity.
  - set (h := fun ex : exn => _). set (m := bind _ _).
    assert (m w0 = (Raise e, w1)) as Hm by (by apply bind_raise).
    assert (isinstance e RunnerRetryableError = true -> isinstance e RunnerError = true) as Hsub
      by (unfold isinstance; by destruct (exn_class e)).
    destruct (isinstance e RunnerRetryableError) eqn:Hrr; [rewrite Hsub by done|destruct (isinstance e RunnerError) eqn:Hre].
    + eexists. split; [eapply try_except_caught; [exact Hm|unfold h; by rewrite Hrr]|done].
    + destruct (first_refusal_returns (id (self w)) w1) as (b & w2 & Hf & Hd). exists w2. split; [|done].
      erewrite try_except_caught; [|exact Hm|unfold h; by rewrite Hrr, Hre].
      by rewrite (bind_ok _ _ _ _ _ Hf).
    + destruct (isinstance e InvalidJobTransitionException) eqn:Hi; cbn [orb].
      * eexists. split; [eapply try_except_caught; [exact Hm|unfold h; by rewrite Hrr, Hre, Hi]|done].
      * apply try_except_uncaught; [exact Hm|]. unfold h. by rewrite Hrr, Hre, Hi.
Qed.
End stop_one.

(** ** Concrete inputs *)

Definition sample_block : BlockedCloudResource :=
  mk_blocked (Some "account") (Some "plan") (Some "subscription") TOTAL "us-east".
Definition blocked_config : gmap string string :=
  <["scheduler.blocked_jobs_stop.enabled" := "true"]>
  (<["gateway.blocked_resources.regional.enabled" := "false"]>
  (<["scheduler.fleets.breaker_failures" := "3"]>
  (<["scheduler.fleets.breaker_pause_seconds" := "60"]> ∅))).
Definition blocked_world : World :=
  set_config blocked_config (set_db (set_blocked [sample_block] running_db) running_world).

Definition errors_of (j : JobId) (d : DB) : nat := length (get_job_events j (Some ERROR) d).

(** A job whose cancel is in flight gets the error event. *)
Example blocked_job_reported :
  let w' := snd (stop_blocked_run noop_service (fun _ => Ok (constant_runner true)) blocked_world) in
  Abs.job_status (db w') "job-1" = Some STOPPING /\ errors_of "job-1" (db w') = 1%nat.
Proof. vm_compute. done. Qed.

(** A job whose fleet was already gone is ended as STOPPED by the cancel itself, and the error
    event it is owed is never written. *)
Example blocked_event_missed :
  let w' := snd (stop_blocked_run noop_service (fun _ => Ok (constant_runner false)) blocked_world) in
  Abs.job_status (db w') "job-1" = Some STOPPED /\ errors_of "job-1" (db w') = 0%nat.
Proof. vm_compute. done. Qed.

Lemma blocked_stop_answers_witness :
  exists w', stop_one noop_service (fun _ => Ok (constant_runner false))
               (set_self (sample_job "job-1" RUNNING None) blocked_world) = (Ok true, w')
  /\ Abs.job_status (db w') "job-1" = Some STOPPED.
Proof.
  set (w := set_self (sample_job "job-1" RUNNING None) blocked_world).
  pose proof (blocked_stop_answers noop_service (fun _ => Ok (constant_runner false)) w
                (snd (region_paused CodeEngine (Some "us-east") w)) (Ok false)
                (snd (region_paused CodeEngine (Some "us-east") w)) running_job) as H.
  destruct H as (w' & Hrun & Hs).
  - vm_compute. reflexivity.
  - vm_compute. reflexivity.
  - vm_compute. reflexivity.
  - apply sample_buildable.
  - exists w'. split; [exact Hrun|exact Hs].
Defined.
