(* ===== verification/Filler.v ===== *)
(** * The filler jobs ([scheduler/tasks/balance_filler_jobs.py])

    The task that keeps real plus filler jobs of one compute profile at a configured number.
    The table of functions, the identifiers ([uuid]), the arguments storage and the runner
    are parameters. *)

From S2P Require Import Prelude PyStr Domain Models World JobEvents BillingEvents JobTransitions TransitionSpec Samples CircuitBreaker FleetsBreakers Blocked Schedule UpdateFleets ScheduleFleets.

Local Open Scope string_scope.
Local Open Scope list_scope.
Local Open Scope Z_scope.

Definition RETRY_AFTER_LOOPS : nat := 60.
Definition FILLER_ENABLED : string := "scheduler.filler.enabled".
Definition FILLER_FUNCTION : string := "scheduler.filler.function".
Definition FILLER_SLOTS : string := "scheduler.filler.slots".

Definition filler_jobs_of (d : DB) : list Job :=
  order_by created (filter (fun j => filler j /\ runner j = FLEETS /\ status j ∈ RUNNING_STATUSES) (rows d)).

Section task.
Context (svc : JobTransitionService).
Context (get_runner : Job -> outcome AbstractRunner).
Context (programs : list Program) (parse_uuid : string -> option nat) (uuid4 : Py JobId).
Context (save_arguments : Job -> Py unit).

(** ** The configured function *)

(** [programs.get(...)]. *)
Definition get_program (p : Program -> bool) : outcome (option Program) :=
  match filter p programs with
  | [] => Ok None
  | [program] => Ok (Some program)
  | _ => Raise (mk_exn OtherException "get() returned more than one Program")
  end.

Definition lookup_filler_function : Py (option Program) :=
  v <- Config_get FILLER_FUNCTION ;;
  let value := strip v in
  if bool_decide (value = "") then ret None
  else
    match split_on "/" value with
    | [value] =>
        match parse_uuid value with
        | None => ret None
        | Some pk => of_outcome (get_program (fun p => bool_decide (program_id p = pk)))
        end
    | [provider; name] =>
        if bool_decide (provider = "") || bool_decide (name = "") then ret None
        else of_outcome (get_program (fun p =>
          bool_decide (provider_name <$> program_provider p = Some provider) && bool_decide (title p = name)))
    | _ => ret None
    end.

(** What the creation of a filler job needs of its function. *)
Definition usable_function (p : Program) : bool :=
  bool_decide (program_runner p = FLEETS) && negb (disabled p)
  && match program_code_engine_project p with
     | Some project => project_active project && truthy (cos_bucket_user_data_name project)
     | None => false
     end
  && bool_decide (is_Some (default_size p)).

Definition get_filler_program : Py (option Program) :=
  maintenance <- Config_get_bool MAINTENANCE ;;
  if maintenance : bool then ret None
  else
    enabled <- Config_get_bool FILLER_ENABLED ;;
    if negb enabled then ret None
    else
      slots <- Config_get_int FILLER_SLOTS 0 ;;
      if slots <=? 0 then ret None
      else
        program <- lookup_filler_function ;;
        ret (match program with
             | Some p => if usable_function p then Some p else None
             | None => None
             end).

(** ** Stopping *)

Definition mark_failed : Py unit :=
  try_except (to_failed SCHEDULER FILLER_FAILED [] ;;; ret tt)
    (fun ex => if isinstance ex InvalidJobTransitionException then Some (ret tt) else None).

Definition discard_unsubmitted_filler_jobs : Py unit :=
  d <- get_db ;;
  for_each (filter (fun j => filler j /\ status j = QUEUED /\ fleet_id j = None) (rows d))
    (fun job => on_job job mark_failed ;;; ret true).

Definition stop_one_filler_job : Py unit :=
  job <- get_self ;;
  paused <- canceller_paused (ce_region job) ;;
  if paused : bool then ret tt
  else
    cancelled <- try_except
      (c <- cancel svc get_runner FILLER_STOP ;; ret (Some c))
      (fun ex =>
         if isinstance ex RunnerRetryableError then Some (ret None)
         else if isinstance ex RunnerError then Some (first_cancel_refusal (id job) ;;; ret None)
         else if isinstance ex InvalidJobTransitionException then Some (ret None)
         else None) ;;
    match cancelled with
    | Some false => count_metric FillerJobsStopped
    | _ => ret tt
    end.

Definition stop_filler_jobs (js : list Job) : Py unit :=
  for_each js (fun job =>
    kill <- kill_received ;;
    if kill : bool then ret false
    else if bool_decide (status job = STOPPING) then ret true
    else on_job job stop_one_filler_job ;;; ret true).

(** ** Creating *)

(** The row a filler job is saved as; [concurrency]'s version field starts at the time. *)
Definition new_filler_job (program : Program) (size : FunctionSize) (project : CodeEngineProject)
    (job_id : JobId) (t : Z) : Job :=
  {| id := job_id; created := t; updated := Some t; env_vars := "{}"; gpu := false; filler := true;
     runner := FLEETS; ray_job_id := None; fleet_id := None; fleet_deleted_at := None;
     status := QUEUED; sub_status := None; trial := false; business_model := BusinessModel.LICENSED;
     version := t; author := program_author program; compute_resource := None;
     program := Some program; compute_profile_fk := Some (compute_profile_id (size_compute_profile size));
     size_source := SIZE_SOURCE_NONE; function_size := Some size;
     function_size_name := Some (size_function_size size); account_id := None; instance_crn := None;
     plan_id := None; subscription_id := None; ce_project_name := Some (project_name project);
     ce_region := Some (project_region project) |}.

Definition log_creation_failed : Py unit := count_metric (FillerJobsCreated "failed").

(** [job.save()] on a new instance. *)
Definition insert_job (job : Job) : Py unit :=
  modify_db (fun d => set_jobs (<[id job := job]> (jobs d)) d) ;;;
  put_self job.

(** The submit of the job in hand and what its failures leave. *)
Definition submit_new_filler : Py bool :=
  submitted <- try_except
    (submit svc get_runner FILLER_SUBMIT ;;; ret true)
    (fun ex =>
       if is_db_exception ex then None
       else if isinstance ex RunnerRetryableError then
         Some (mark_failed ;;; log_creation_failed ;;; raise ex)
       else if isinstance ex InvalidJobTransitionException then Some (ret false)
       else
         Some (job <- get_self ;;
               (if bool_decide (status job = QUEUED) && negb (truthy (fleet_id job))
                then mark_failed else ret tt) ;;;
               log_creation_failed ;;;
               ret false)) ;;
  if submitted : bool then count_metric (FillerJobsCreated "submitted") ;;; ret true
  else ret false.

Definition submit_filler_job (program : Program) : Py bool :=
  match program_code_engine_project program, default_size program with
  | Some project, Some size =>
      job_id <- uuid4 ;;
      let job t := new_filler_job program size project job_id t in
      saved <- try_except
        (save_arguments (job 0) ;;; t <- now ;; insert_job (job t) ;;; ret true)
        (fun ex => if is_db_exception ex then None
                   else Some (log_creation_failed ;;; ret false)) ;;
      if saved : bool then submit_new_filler else ret false
  | _, _ => raise (mk_exn AttributeError "'NoneType' object has no attribute")
  end.

Definition create_filler_job (program : Program) : Py unit :=
  loops <- gets (fun w => retry_loops (sched w)) ;;
  match loops with
  | S loops => modify_sched (set_retry_loops loops)
  | O =>
      kill <- kill_received ;;
      paused <- (if kill : bool then ret true
                 else project <- attr (program_code_engine_project program) ;;
                      fleets_paused (Some (project_region project))) ;;
      if paused : bool then ret tt
      else
        try_except
          (created <- submit_filler_job program ;;
           if created : bool then ret tt else modify_sched (set_retry_loops RETRY_AFTER_LOOPS))
          (fun ex => if isinstance ex RunnerRetryableError then Some (ret tt) else None)
  end.

(** ** Balancing *)

Definition real_running (profile : string) (d : DB) : Z :=
  Z.of_nat (length (filter (fun j => compute_profile_fk j = Some profile /\ runner j = FLEETS
                                     /\ status j ∈ RUNNING_STATUSES /\ filler j = false) (rows d))).

(** [(job.program_id, job.compute_profile_fk_id) == expected]. *)
Definition belongs (p : Program) (profile : string) (job : Job) : bool :=
  bool_decide (program_id <$> program job = Some (program_id p))
  && bool_decide (compute_profile_fk job = Some profile).

Definition filler_target (slots real : Z) : Z := Z.max 0 (slots - real).

(** The stops that close the gap when there are too many. *)
Definition surplus (current : list Job) (target : Z) : list Job :=
  let stoppable := filter (fun j => status j <> STOPPING) current in
  take (Z.to_nat (Z.max 0 (Z.of_nat (length stoppable) - target))) stoppable.

Definition balance_filler_jobs (p : Program) (filler_jobs : list Job) : Py unit :=
  size <- attr (default_size p) ;;
  let profile := compute_profile_id (size_compute_profile size) in
  slots <- Config_get_int FILLER_SLOTS 0 ;;
  d <- get_db ;;
  let target := filler_target slots (real_running profile d) in
  let stale := filter (fun j => negb (belongs p profile j)) filler_jobs in
  let current := filter (belongs p profile) filler_jobs in
  (match stale with [] => ret tt | _ => stop_filler_jobs stale end) ;;;
  if Z.of_nat (length current) <? target then create_filler_job p
  else if target <? Z.of_nat (length current) then stop_filler_jobs (surplus current target)
  else ret tt.

Definition balance_run : Py unit :=
  discard_unsubmitted_filler_jobs ;;;
  program <- get_filler_program ;;
  d <- get_db ;;
  let filler_jobs := filler_jobs_of d in
  match program with
  | None => stop_filler_jobs filler_jobs
  | Some p => balance_filler_jobs p filler_jobs
  end.
End task.

(** * What balancing the filler jobs promises

    How many jobs a run creates, and the pause after a creation that failed. *)

(** No job row appears or goes, and the pause between creations stays. *)
Definition calm (w w' : World) : Prop :=
  dom (jobs (db w')) = dom (jobs (db w)) /\ retry_loops (sched w') = retry_loops (sched w).
#[export] Instance calm_preorder : PreOrder calm.
Proof. split; [done|]. intros ??? [??] [??]. split; congruence. Qed.

Lemma calm_atomic {A} (m : Py A) : rel calm m -> rel calm (atomic m).
Proof. intros Hm. apply (rel_atomic _); [done|]. intros w w' [? ?]. done. Qed.

Lemma calm_on_job {A} j (m : Py A) : rel calm m -> rel calm (on_job j m).
Proof. intros Hm w. unfold on_job. specialize (Hm (set_self j w)). by destruct (m (set_self j w)). Qed.

Lemma calm_update_row pk f : rel calm (modify_db (update_row pk f)).
Proof. intros w. split; [|done]. cbn. apply dom_alter_L. Qed.

Lemma calm_put_breaker dep region b : rel calm (put_breaker (region_breaker dep region) b).
Proof. intros w. split; [done|]. by destruct dep. Qed.

Lemma calm_breakers dep m : rel calm (modify_sched (set_breakers_of dep m)).
Proof. intros w. split; [done|]. by destruct dep. Qed.

Ltac calm_auto :=
  rel_deep ltac:(idtac; match goal with
    | |- rel _ (atomic _) => apply calm_atomic
    | |- rel _ (on_job _ _) => apply calm_on_job
    | |- rel _ (bind (get_breaker _ _) _) => apply (rel_bind_breaker _)
    | |- rel _ (put_breaker _ _) => apply calm_put_breaker
    | |- rel _ (modify_db (update_row _ _)) => apply calm_update_row
    | |- rel _ (modify_sched (set_breakers_of _ _)) => apply calm_breakers
    end).

Section calm.
Context (svc : JobTransitionService) (get_runner : Job -> outcome AbstractRunner).
Context `{!Keeps calm svc get_runner}.

Lemma to_failed_calm o c fs : rel calm (to_failed o c fs).
Proof. calm_auto. Qed.

Lemma mark_failed_calm : rel calm mark_failed.
Proof. pose proof to_failed_calm. calm_auto. Qed.

Lemma stop_calm j o c : rel calm (stop svc (lazy_runner (get_runner j)) o c).
Proof.
  pose proof mirror_keeps.
  assert (rel calm (runner_stop (lazy_runner (get_runner j)))).
  { unfold lazy_runner, runner_stop at 1. pose proof stop_keeps. rel_auto. }
  calm_auto.
Qed.

Lemma cancel_calm c : rel calm (cancel svc get_runner c).
Proof. pose proof stop_calm. calm_auto. Qed.

Lemma stop_filler_jobs_calm js : rel calm (stop_filler_jobs svc get_runner js).
Proof. pose proof cancel_calm. calm_auto. Qed.

Lemma submit_calm c : rel calm (submit svc get_runner c).
Proof.
  pose proof to_failed_calm. pose proof mirror_keeps. pose proof submit_keeps. pose proof stop_keeps.
  calm_auto.
Qed.
End calm.

(** ** One creation per run *)

Section run.
Context (svc : JobTransitionService) (get_runner : Job -> outcome AbstractRunner).
Context (programs : list Program) (parse_uuid : string -> option nat) (uuid4 : Py JobId).
Context (save_arguments : Job -> Py unit).
Context `{!Keeps calm svc get_runner}.
Context (uuid4_calm : rel calm uuid4) (save_arguments_calm : forall j, rel calm (save_arguments j)).

(** At most one row appeared. *)
Definition one_more (w w' : World) : Prop :=
  exists new : gset JobId, (size new <= 1)%nat /\ dom (jobs (db w')) = dom (jobs (db w)) ∪ new.

Lemma one_more_calm w w' : calm w w' -> one_more w w'.
Proof. intros [Hd _]. exists ∅. rewrite size_empty, Hd. split; [lia|set_solver]. Qed.

Lemma calm_one_more w w1 w' : calm w w1 -> one_more w1 w' -> one_more w w'.
Proof. intros [Hd _] (new & Hn & Hd'). exists new. by rewrite Hd', Hd. Qed.

Lemma one_more_then_calm w w1 w' : one_more w w1 -> calm w1 w' -> one_more w w'.
Proof. intros (new & Hn & Hd) [Hd' _]. exists new. by rewrite Hd', Hd. Qed.

Lemma submit_new_filler_calm : rel calm (submit_new_filler svc get_runner).
Proof. pose proof mark_failed_calm. pose proof submit_calm. calm_auto. Qed.

Lemma insert_job_one_more job w : one_more w (snd (insert_job job w)).
Proof.
  exists {[id job]}. rewrite size_singleton. split; [lia|]. cbn. rewrite dom_insert_L. set_solver.
Qed.

(** Composition of a part that creates nothing with one that may. *)
Lemma one_more_bind {A B} (m : Py A) (k : A -> Py B) :
  rel calm m -> (forall a, rel one_more (k a)) -> rel one_more (bind m k).
Proof.
  intros Hm Hk w. unfold bind. specialize (Hm w). destruct (m w) as [[a|e] w1]; cbn [snd] in *.
  - eapply calm_one_more; [exact Hm|apply Hk].
  - by apply one_more_calm.
Qed.

Lemma one_more_bind_calm {A B} (m : Py A) (k : A -> Py B) :
  rel one_more m -> (forall a, rel calm (k a)) -> rel one_more (bind m k).
Proof.
  intros Hm Hk w. unfold bind. specialize (Hm w). destruct (m w) as [[a|e] w1]; cbn [snd] in *; [|done].
  eapply one_more_then_calm; [exact Hm|apply Hk].
Qed.

Lemma one_more_try {A} (m : Py A) h :
  rel one_more m -> (forall e k, h e = Some k -> rel calm k) -> rel one_more (try_except m h).
Proof.
  intros Hm Hh w. unfold try_except. specialize (Hm w). destruct (m w) as [[a|e] w1]; cbn [snd] in *; [done|].
  destruct (h e) as [k|] eqn:E; [|done]. eapply one_more_then_calm; [exact Hm|by eapply Hh].
Qed.

Lemma one_more_of_calm {A} (m : Py A) : rel calm m -> rel one_more m.
Proof. apply rel_mono, one_more_calm. Qed.

Lemma submit_filler_job_one_more p :
  rel one_more (submit_filler_job svc get_runner uuid4 save_arguments p).
Proof.
  pose proof submit_new_filler_calm. unfold submit_filler_job.
  destruct (program_code_engine_project p); [|apply one_more_of_calm; calm_auto].
  destruct (default_size p); [|apply one_more_of_calm; calm_auto].
  apply one_more_bind; [done|]. intros job_id. apply one_more_bind_calm; [|intros []; calm_auto].
  apply one_more_try.
  - apply one_more_bind; [done|]. intros []. apply one_more_bind; [calm_auto|]. intros t.
    apply one_more_bind_calm; [|intros []; calm_auto]. intros w. apply insert_job_one_more.
  - intros e k. destruct (is_db_exception e); [done|]. intros [= <-]. calm_auto.
Qed.

(** The same, and nothing at all during the pause after a failed creation. *)
Definition at_most_one (w w' : World) : Prop :=
  one_more w w' /\ (retry_loops (sched w) <> 0%nat -> dom (jobs (db w')) = dom (jobs (db w))).

Lemma at_most_one_calm w w' : calm w w' -> at_most_one w w'.
Proof. intros H. split; [by apply one_more_calm|]. intros _. apply H. Qed.

Lemma at_most_one_bind {A B} (m : Py A) (k : A -> Py B) :
  rel calm m -> (forall a, rel at_most_one (k a)) -> rel at_most_one (bind m k).
Proof.
  intros Hm Hk w. unfold bind. specialize (Hm w). destruct (m w) as [[a|e] w1]; cbn [snd] in *;
    [|by apply at_most_one_calm].
  destruct (Hk a w1) as [H1 H2]. split; [by eapply calm_one_more|].
  destruct Hm as [Hd Hl]. rewrite <- Hl, <- Hd. exact H2.
Qed.

Lemma create_filler_job_one p :
  rel at_most_one (create_filler_job svc get_runner uuid4 save_arguments p).
Proof.
  pose proof submit_filler_job_one_more as Hsubmit. intros w. unfold create_filler_job.
  rewrite (bind_ok (gets _) _ w (retry_loops (sched w)) w eq_refl).
  destruct (retry_loops (sched w)) as [|n] eqn:E.
  2:{ split; [|done]. exists ∅. rewrite size_empty. split; [lia|]. cbn. set_solver. }
  split; [|by rewrite E]. revert w E.
  assert (forall m : Py unit, rel one_more m -> forall w, retry_loops (sched w) = 0%nat -> one_more w (snd (m w)))
    as Hm by (intros m Hm w _; apply Hm).
  apply Hm. apply one_more_bind; [calm_auto|]. intros kill.
  apply one_more_bind; [destruct kill; calm_auto|]. intros paused.
  destruct paused; [apply one_more_of_calm; calm_auto|].
  apply one_more_try; [|intros e k Hk; destruct (isinstance _ _); simplify_eq; calm_auto].
  intros w. specialize (Hsubmit p w). unfold bind.
  destruct (submit_filler_job _ _ _ _ _ w) as [[[]|e] w1]; cbn [snd] in *; done.
Qed.

(** a run of the balancer creates at most one job, and none while the pause after a
    failed creation lasts; no run deletes a row. *)
Theorem filler_one_per_run w out w' :
  balance_run svc get_runner programs parse_uuid uuid4 save_arguments w = (out, w') ->
  (exists new : gset JobId, (size new <= 1)%nat /\ dom (jobs (db w')) = dom (jobs (db w)) ∪ new)
  /\ (retry_loops (sched w) <> 0%nat -> dom (jobs (db w')) = dom (jobs (db w))).
Proof.
  assert (forall w, at_most_one w (snd (balance_run svc get_runner programs parse_uuid uuid4 save_arguments w))) as H.
  { pose proof mark_failed_calm. pose proof stop_filler_jobs_calm. unfold balance_run.
    apply at_most_one_bind; [calm_auto|]. intros [].
    apply at_most_one_bind; [calm_auto|]. intros program.
    apply at_most_one_bind; [calm_auto|]. intros d.
    destruct program as [p|]; [|intros w0; by apply at_most_one_calm, stop_filler_jobs_calm].
    unfold balance_filler_jobs. apply at_most_one_bind; [calm_auto|]. intros size.
    apply at_most_one_bind; [calm_auto|]. intros slots.
    apply at_most_one_bind; [calm_auto|]. intros d'. cbv zeta.
    apply at_most_one_bind; [calm_auto|]. intros [].
    destruct (_ <? _); [apply create_filler_job_one|].
    intros w0. apply at_most_one_calm. destruct (_ <? _); [by apply stop_filler_jobs_calm|done]. }
  intros Hrun. specialize (H w). rewrite Hrun in H. exact H.
Qed.
End run.

(** ** Concrete input *)

Definition filler_config : gmap string string :=
  <["scheduler.maintenance" := "false"]>
  (<["scheduler.filler.enabled" := "true"]>
  (<["scheduler.filler.function" := "acme/sampler"]>
  (<["scheduler.filler.slots" := "2"]>
  (<["scheduler.fleets.breaker_failures" := "3"]>
  (<["scheduler.fleets.breaker_pause_seconds" := "60"]> ∅))))).
Definition filler_world : World := set_config filler_config (world_of empty_db running_job).

Definition sample_balance : Py unit :=
  balance_run noop_service (fun _ => Ok (constant_runner true)) [sample_program] (fun _ => None)
    (ret "job-9") (fun _ => ret tt).

#[export] Instance constant_keeps R `{!PreOrder R} b : Keeps R noop_service (fun _ => Ok (constant_runner b)).
Proof. split; intros; simplify_eq; apply rel_ret; exact _. Qed.

Example sample_balance_creates :
  (fun j => (status j, filler j)) <$> jobs (db (snd (sample_balance filler_world))) !! "job-9"
  = Some (PENDING, true).
Proof. vm_compute. reflexivity. Qed.

Lemma filler_one_per_run_witness :
  exists new : gset JobId, (size new <= 1)%nat
  /\ dom (jobs (db (snd (sample_balance filler_world)))) = dom (jobs (db filler_world)) ∪ new.
Proof.
  exact (proj1 (filler_one_per_run noop_service (fun _ => Ok (constant_runner true)) [sample_program]
    (fun _ => None) (ret "job-9") (fun _ => ret tt) (rel_ret _ _) (fun _ => rel_ret _ _)
    filler_world _ _ (surjective_pairing _))).
Defined.
