(* ===== verification/SchedulerMain.v ===== *)
(** * The scheduler loop ([scheduler/main.py], [scheduler/health.py])

    The loop that runs every task in turn, what it does with the exceptions of a task, and
    the health the liveness probe reads. The tasks are a parameter, so the theorems hold for
    any list of them. *)

From S2P Require Import Prelude PyStr Models World JobTransitions TransitionSpec Samples.

Local Open Scope string_scope.
Local Open Scope list_scope.
Local Open Scope Z_scope.

(** ** Health *)

Definition UNHEALTHY_THRESHOLD : Z := 5.

(** [SchedulerHealth] is its counter. *)
Definition set_db_error (consecutive_errors : Z) : bool * Z :=
  let n := consecutive_errors + 1 in (n =? 1, n).
Definition clear_db_error (_ : Z) : Z := 0.
Definition is_unhealthy (consecutive_errors : Z) : bool := UNHEALTHY_THRESHOLD <=? consecutive_errors.

(** ** The loop *)

Record Task := mk_task { task_name : string; task_run : Py unit; task_close : Py unit }.

(** One task of an iteration: the counter afterwards. *)
Definition run_task (t : Task) (errors : Z) : Py Z :=
  try_except
    (task_run t ;;; ret (clear_db_error errors))
    (fun ex =>
       Some (let errors' := if is_db_exception ex then snd (set_db_error errors) else errors in
             count_metric (TaskError (task_name t) (exn_class ex)) ;;;
             ret errors')).

Fixpoint run_tasks (tasks : list Task) (errors : Z) : Py Z :=
  match tasks with
  | [] => ret errors
  | t :: tasks' =>
      kill <- kill_received ;;
      if kill : bool then ret errors
      else
        errors' <- run_task t errors ;;
        run_tasks tasks' errors'
  end.

(** [Main.close_tasks]: a task that fails to close does not keep the others open. *)
Fixpoint close_tasks (tasks : list Task) : Py unit :=
  match tasks with
  | [] => ret tt
  | t :: tasks' => try_except (task_close t) (fun _ => Some (ret tt)) ;;; close_tasks tasks'
  end.

(** The [while] loop of [Main.run], without the sleep: iterations until the kill signal, on
    fuel. *)
Fixpoint iterations (fuel : nat) (tasks : list Task) (errors : Z) : Py Z :=
  match fuel with
  | O => ret errors
  | S fuel =>
      kill <- kill_received ;;
      if kill : bool then ret errors
      else
        errors' <- run_tasks tasks errors ;;
        iterations fuel tasks errors'
  end.

(** [Main.run] with its three nested [finally] parts: the background pool is shut down first,
    then the tasks are closed, then the HTTP server stops. *)
Definition main_run (fuel : nat) (tasks : list Task) (executor_shutdown stop_http_server : Py unit) : Py Z :=
  try_finally (iterations fuel tasks 0)
    (try_finally executor_shutdown (try_finally (close_tasks tasks) stop_http_server)).

(** ** What a task's run counts as *)

Inductive Verdict := Success | DbError | OtherError.
#[export] Instance Verdict_eq_dec : EqDecision Verdict.
Proof. solve_decision. Defined.

Definition verdict (o : outcome unit) : Verdict :=
  match o with
  | Ok _ => Success
  | Raise e => if is_db_exception e then DbError else OtherError
  end.

Definition count_verdict (errors : Z) (v : Verdict) : Z :=
  match v with Success => 0 | DbError => errors + 1 | OtherError => errors end.

(** The reference: every task of the list is run, each from the state the one before left. *)
Fixpoint runs (tasks : list Task) (w : World) : list Verdict * World :=
  match tasks with
  | [] => ([], w)
  | t :: tasks' =>
      let w0 := set_ticks (S (ticks w)) w in
      let '(o, w1) := task_run t w0 in
      let w2 := match o with
                | Ok _ => w1
                | Raise e => snd (count_metric (TaskError (task_name t) (exn_class e)) w1)
                end in
      let '(vs, w3) := runs tasks' w2 in
      (verdict o :: vs, w3)
  end.

(** How many of some runs hit a database error. *)
Definition db_errors (vs : list Verdict) : Z := Z.of_nat (length (filter (fun v => v = DbError) vs)).

Lemma db_errors_cons v vs :
  db_errors (v :: vs) = (if decide (v = DbError) then 1 else 0) + db_errors vs.
Proof. unfold db_errors. rewrite filter_cons. case_decide; [rewrite length_cons|]; lia. Qed.

Lemma db_errors_nonneg vs : 0 <= db_errors vs.
Proof. unfold db_errors. lia. Qed.

(** The counter is the number of database errors since the last success. *)
Lemma fold_count vs n k :
  n <= foldl count_verdict k vs <->
  (Success ∉ vs /\ n <= k + db_errors vs)
  \/ (exists l1 l2, vs = l1 ++ Success :: l2 /\ Success ∉ l2 /\ n <= db_errors l2).
Proof.
  revert k. induction vs as [|v vs IH]; intros k; cbn [foldl].
  { unfold db_errors. cbn. split.
    - intros ?. left. split; [set_solver|lia].
    - intros [[_ ?]|(l1 & l2 & H & _)]; [lia|]. by destruct l1. }
  rewrite IH. destruct v; cbn [count_verdict].
  - split.
    + intros [[Hn Hle]|(l1 & l2 & -> & Hn & Hle)]; right; [by exists [], vs|].
      by exists (Success :: l1), l2.
    + intros [[Hn _]|(l1 & l2 & H & Hn & Hle)]; [set_solver|].
      destruct l1 as [|x l1]; [injection H as ->; left; split; [done|lia]|].
      injection H as _ ->. right. by exists l1, l2.
  - rewrite db_errors_cons, decide_True by done. split.
    + intros [[Hn Hle]|(l1 & l2 & -> & Hn & Hle)].
      * left. split; [set_solver|lia].
      * right. by exists (DbError :: l1), l2.
    + intros [[Hn Hle]|(l1 & l2 & H & Hn & Hle)]; [left; split; [set_solver|lia]|].
      destruct l1 as [|x l1]; [done|]. injection H as _ ->. right. by exists l1, l2.
  - rewrite db_errors_cons, decide_False by done. split.
    + intros [[Hn Hle]|(l1 & l2 & -> & Hn & Hle)].
      * left. split; [set_solver|lia].
      * right. by exists (OtherError :: l1), l2.
    + intros [[Hn Hle]|(l1 & l2 & H & Hn & Hle)]; [left; split; [set_solver|lia]|].
      destruct l1 as [|x l1]; [done|]. injection H as _ ->. right. by exists l1, l2.
Qed.

(** The kill signal never comes, whatever the tasks do. *)
Definition undisturbed (tasks : list Task) (w : World) : Prop :=
  (forall n, killed w n = false) /\ Forall (fun t => rel (fun w w' => killed w' = killed w) (task_run t)) tasks.

Lemma run_tasks_runs tasks errors w :
  undisturbed tasks w ->
  let '(vs, w') := runs tasks w in
  run_tasks tasks errors w = (Ok (foldl count_verdict errors vs), w') /\ length vs = length tasks.
Proof.
  revert errors w. induction tasks as [|t tasks IH]; intros errors w [Hk Ht]; [done|].
  apply Forall_cons in Ht as [Ht1 Ht]. cbn [runs run_tasks]. set (w0 := set_ticks (S (ticks w)) w).
  assert (kill_received w = (Ok false, w0)) as Hkill by (unfold kill_received, w0; by rewrite Hk).
  rewrite (bind_ok _ _ _ _ _ Hkill). specialize (Ht1 w0).
  destruct (task_run t w0) as [o w1] eqn:E. cbn [snd] in Ht1.
  set (w2 := match o with Ok _ => w1 | Raise _ => _ end).
  assert (undisturbed tasks w2) as Hu.
  { split; [|done]. intros n. unfold w2. destruct o; cbn; rewrite Ht1; apply Hk. }
  specialize (IH (count_verdict errors (verdict o)) w2 Hu).
  destruct (runs tasks w2) as [vs w3]. destruct IH as [IH Hlen].
  assert (run_task t errors w0 = (Ok (count_verdict errors (verdict o)), w2)) as Hrun.
  { unfold run_task. destruct o as [[]|e].
    - apply try_except_ok. by rewrite (bind_ok _ _ _ _ _ E).
    - erewrite try_except_caught; [|by rewrite (bind_raise _ _ _ _ _ E)|reflexivity].
      unfold count_metric, modify_sched, modify, bind, ret, w2. cbn [verdict].
      by destruct (is_db_exception e). }
  rewrite (bind_ok _ _ _ _ _ Hrun), IH. cbn [foldl length]. by split; [|lia].
Qed.

(** Undisturbed runs stay undisturbed. *)
Lemma runs_undisturbed tasks w all :
  undisturbed all w -> Forall (fun t => rel (fun w w' => killed w' = killed w) (task_run t)) tasks ->
  undisturbed all (snd (runs tasks w)).
Proof.
  revert w. induction tasks as [|t tasks IH]; intros w Hu Ht; [done|].
  apply Forall_cons in Ht as [Ht1 Ht]. cbn [runs]. specialize (Ht1 (set_ticks (S (ticks w)) w)).
  destruct (task_run t _) as [o w1]. cbn [snd] in Ht1.
  set (w2 := match o with Ok _ => w1 | Raise _ => _ end).
  assert (undisturbed all w2) as Hu2.
  { destruct Hu as [Hk Hall]. split; [|done]. intros n. unfold w2. destruct o; cbn; rewrite Ht1; apply Hk. }
  specialize (IH w2 Hu2 Ht). by destruct (runs tasks w2).
Qed.

(** The reference for a number of iterations. *)
Fixpoint rounds (n : nat) (tasks : list Task) (w : World) : list Verdict * World :=
  match n with
  | O => ([], w)
  | S n =>
      let '(vs, w1) := runs tasks (set_ticks (S (ticks w)) w) in
      let '(vs', w2) := rounds n tasks w1 in
      (vs ++ vs', w2)
  end.

Lemma iterations_rounds n tasks errors w :
  undisturbed tasks w ->
  let '(vs, w') := rounds n tasks w in
  iterations n tasks errors w = (Ok (foldl count_verdict errors vs), w')
  /\ length vs = (n * length tasks)%nat.
Proof.
  revert errors w. induction n as [|n IH]; intros errors w Hu; [done|]. cbn [rounds iterations].
  set (w0 := set_ticks (S (ticks w)) w).
  assert (kill_received w = (Ok false, w0)) as Hkill by (unfold kill_received, w0; by rewrite (proj1 Hu)).
  rewrite (bind_ok _ _ _ _ _ Hkill).
  assert (undisturbed tasks w0) as Hu0 by exact Hu.
  pose proof (run_tasks_runs tasks errors w0 Hu0) as Hrun.
  pose proof (runs_undisturbed tasks w0 tasks Hu0 (proj2 Hu0)) as Hu1.
  destruct (runs tasks w0) as [vs w1]. destruct Hrun as [Hrun Hlen]. cbn [snd] in Hu1.
  specialize (IH (foldl count_verdict errors vs) w1 Hu1). destruct (rounds n tasks w1) as [vs' w2].
  destruct IH as [IH Hlen']. rewrite (bind_ok _ _ _ _ _ Hrun), IH, foldl_app, length_app.
  split; [done|]. lia.
Qed.

(** C13: in every iteration of the loop each task runs, whatever the tasks before it raised,
    and the scheduler reports itself unhealthy exactly when five runs have hit a database
    error with no successful run since; other errors neither count nor reset. *)
Theorem loop_health n tasks w :
  undisturbed tasks w ->
  let '(vs, w') := rounds n tasks w in
  exists errors, iterations n tasks 0 w = (Ok errors, w')
    /\ length vs = (n * length tasks)%nat
    /\ (is_unhealthy errors = true <->
          exists l1 l2, vs = l1 ++ l2 /\ Success ∉ l2 /\ 5 <= db_errors l2).
Proof.
  intros Hu. pose proof (iterations_rounds n tasks 0 w Hu) as H. destruct (rounds n tasks w) as [vs w1].
  destruct H as [Hrun Hlen]. eexists. split; [exact Hrun|]. split; [exact Hlen|].
  unfold is_unhealthy, UNHEALTHY_THRESHOLD. rewrite Z.leb_le, fold_count. split.
  - intros [[Hn Hle]|(l1 & l2 & -> & Hn & Hle)].
    + exists [], vs. split_and!; [done..|lia].
    + exists (l1 ++ [Success]), l2. by rewrite <- app_assoc.
  - intros (l1 & l2 & -> & Hn & Hle). destruct (decide (Success ∈ l1)) as [Hin|Hnin].
    + right. apply list_elem_of_split_r in Hin as (k1 & k2 & -> & Hk2).
      exists k1, (k2 ++ l2). rewrite <- app_assoc, not_elem_of_app. split_and!; [done..|].
      unfold db_errors in *. rewrite filter_app, length_app. lia.
    + left. rewrite not_elem_of_app. split; [done|].
      unfold db_errors in *. rewrite filter_app, length_app. lia.
Qed.

(** ** Concrete input *)

(** A task whose database is down. *)
Definition broken_task : Task := mk_task "OutboxTask" (raise (mk_exn OperationalError "no database")) (ret tt).

Lemma loop_health_witness :
  exists errors w', iterations 5 [broken_task] 0 running_world = (Ok errors, w') /\ is_unhealthy errors = true
  /\ snd (rounds 5 [broken_task] running_world) = w'.
Proof.
  assert (undisturbed [broken_task] running_world) as Hu.
  { split; [done|]. constructor; [|constructor]. intros w. reflexivity. }
  pose proof (loop_health 5 [broken_task] running_world Hu) as H.
  assert (fst (rounds 5 [broken_task] running_world) = replicate 5 DbError) as Hv by (vm_compute; reflexivity).
  destruct (rounds 5 [broken_task] running_world) as [vs w']. destruct H as (errors & Hrun & _ & Hiff).
  cbn [fst] in Hv. subst vs. exists errors, w'. split; [exact Hrun|]. split; [|reflexivity].
  apply Hiff. exists [], (replicate 5 DbError). split; [reflexivity|]. split.
  - apply (bool_decide_unpack _). reflexivity.
  - vm_compute. discriminate.
Defined.
