(* ===== verification/BackgroundExecutor.v ===== *)
(** * The background executor ([core/services/background_executor.py])

    One thread pool per process. Its state is shared by its worker threads and by every
    caller, so it is a step function on that state: an action is one section of code that no
    other thread can split, the body of a [with cond] block or one call on a [Future]. What
    a thread still has to do after such a section is kept in the state, so any interleaving
    of the threads is a list of actions. The pools are a parameter, as the code works for
    any number of members of [BackgroundPool]. *)

From S2P Require Import Prelude.

Local Open Scope string_scope.
Local Open Scope list_scope.

(** ** [concurrent.futures.Future]

    What the executor uses of the standard library's class. [None] is the error of a call
    in a state that does not allow it. *)
Module Future.
Inductive state := PENDING | RUNNING | CANCELLED | CANCELLED_AND_NOTIFIED | FINISHED.
#[global] Instance state_eq_dec : EqDecision state.
Proof. solve_decision. Defined.

Definition cancelled (s : state) : bool :=
  match s with CANCELLED | CANCELLED_AND_NOTIFIED => true | _ => false end.

(** The answer, and the state afterwards. *)
Definition cancel (s : state) : bool * state :=
  match s with
  | RUNNING | FINISHED => (false, s)
  | CANCELLED | CANCELLED_AND_NOTIFIED => (true, s)
  | PENDING => (true, CANCELLED)
  end.

Definition set_running_or_notify_cancel (s : state) : option (bool * state) :=
  match s with
  | CANCELLED => Some (false, CANCELLED_AND_NOTIFIED)
  | PENDING => Some (true, RUNNING)
  | _ => None
  end.

Definition set_result (s : state) : option state :=
  match s with PENDING | RUNNING => Some FINISHED | _ => None end.

(** Whoever waits for the future is released. *)
Definition resolved (s : state) : bool :=
  match s with CANCELLED_AND_NOTIFIED | FINISHED => true | _ => false end.
End Future.

Inductive TaskOutcome := COMPLETED | FAILED | CANCELED | REPLACED.
Inductive DropReason := FULL | SHUT_DOWN.
#[export] Instance TaskOutcome_eq_dec : EqDecision TaskOutcome.
Proof. solve_decision. Defined.
#[export] Instance DropReason_eq_dec : EqDecision DropReason.
Proof. solve_decision. Defined.

(** [_Task]: its identity stands for its future and for the function it holds. *)
Record Task := mk_task { tid : nat; replace_key : option string }.
#[export] Instance Task_eq_dec : EqDecision Task.
Proof. solve_decision. Defined.

(** [BackgroundPool]. *)
Inductive BackgroundPool := RUNTIME_API.
#[export] Instance BackgroundPool_eq_dec : EqDecision BackgroundPool.
Proof. solve_decision. Defined.
Definition all_pools : list BackgroundPool := [RUNTIME_API].

Section executor.
Context {Pool : Type} `{EqDecision Pool} (pools : list Pool).

Definition upd {A} (f : Pool -> A) (p : Pool) (a : A) : Pool -> A :=
  fun q => if decide (q = p) then a else f q.

(** ** What each thread has left to do *)

(** How a worker ends with a task it took: the two ways out for a cancelled one, and the
    result of one that ran ([true]: the function returned). *)
Inductive Ending := WakeCancelled | NothingLeft | SetResult (ok : bool).

Definition ending_outcome (e : Ending) : TaskOutcome :=
  match e with
  | WakeCancelled | NothingLeft => CANCELED
  | SetResult true => COMPLETED
  | SetResult false => FAILED
  end.

(** A worker thread ([_work], [_execute], [_finish]): between two of its sections. *)
Inductive Worker :=
  | Idle                                      (* at the top of the loop *)
  | Exited
  | Taken (p : Pool) (t : Task)               (* before [future.cancelled()] *)
  | Checked (p : Pool) (t : Task)             (* before [set_running_or_notify_cancel] *)
  | Executing (p : Pool) (t : Task)           (* in [fn] *)
  | Finishing (p : Pool) (t : Task) (e : Ending)   (* before the counters of [_finish] *)
  | Freeing (p : Pool) (t : Task) (e : Ending)     (* before [running -= 1] *)
  | Resolving (t : Task) (e : Ending).             (* before the future is resolved *)

(** A thread of a caller inside [future.cancel()] or [submit]; [releasing]: it is the
    [submit] that replaced the task, which notifies its future once [cancel] returned. *)
Inductive Caller :=
  | Cancelling (p : Pool) (t : Task) (releasing : bool)    (* before [future.cancel()] *)
  | Forgetting (p : Pool) (t : Task) (releasing : bool)    (* before [forget_if_cancelled] *)
  | Notifying (t : Task) (releasing : bool)                (* before its last line *)
  | Gone.

Record State := mk_state {
  queues : Pool -> list Task;
  running : Pool -> nat;
  served : Pool -> nat;
  clock : nat;
  stopping : bool;
  futures : gmap nat Future.state;
  callbacks : gmap nat (Pool * Task);      (* what the done callback of each future holds *)
  replaced : gset nat;
  tasks_total : list (Pool * nat * TaskOutcome);   (* _TASKS, with the task that counted *)
  pending_gauge : Pool -> Z;                       (* _PENDING *)
  dropped : list (Pool * DropReason);              (* _DROPPED *)
  workers : list Worker;
  callers : list Caller;
  raised : list nat;                       (* futures a call raised on *)
  next_id : nat
}.

Definition set_queues f s := mk_state f (running s) (served s) (clock s) (stopping s) (futures s) (callbacks s) (replaced s) (tasks_total s) (pending_gauge s) (dropped s) (workers s) (callers s) (raised s) (next_id s).
Definition set_running f s := mk_state (queues s) f (served s) (clock s) (stopping s) (futures s) (callbacks s) (replaced s) (tasks_total s) (pending_gauge s) (dropped s) (workers s) (callers s) (raised s) (next_id s).
Definition set_served f k s := mk_state (queues s) (running s) f k (stopping s) (futures s) (callbacks s) (replaced s) (tasks_total s) (pending_gauge s) (dropped s) (workers s) (callers s) (raised s) (next_id s).
Definition set_stopping b s := mk_state (queues s) (running s) (served s) (clock s) b (futures s) (callbacks s) (replaced s) (tasks_total s) (pending_gauge s) (dropped s) (workers s) (callers s) (raised s) (next_id s).
Definition set_futures f s := mk_state (queues s) (running s) (served s) (clock s) (stopping s) f (callbacks s) (replaced s) (tasks_total s) (pending_gauge s) (dropped s) (workers s) (callers s) (raised s) (next_id s).
Definition set_callbacks f s := mk_state (queues s) (running s) (served s) (clock s) (stopping s) (futures s) f (replaced s) (tasks_total s) (pending_gauge s) (dropped s) (workers s) (callers s) (raised s) (next_id s).
Definition set_replaced f s := mk_state (queues s) (running s) (served s) (clock s) (stopping s) (futures s) (callbacks s) f (tasks_total s) (pending_gauge s) (dropped s) (workers s) (callers s) (raised s) (next_id s).
Definition set_tasks_total l s := mk_state (queues s) (running s) (served s) (clock s) (stopping s) (futures s) (callbacks s) (replaced s) l (pending_gauge s) (dropped s) (workers s) (callers s) (raised s) (next_id s).
Definition set_pending_gauge g s := mk_state (queues s) (running s) (served s) (clock s) (stopping s) (futures s) (callbacks s) (replaced s) (tasks_total s) g (dropped s) (workers s) (callers s) (raised s) (next_id s).
Definition set_dropped l s := mk_state (queues s) (running s) (served s) (clock s) (stopping s) (futures s) (callbacks s) (replaced s) (tasks_total s) (pending_gauge s) l (workers s) (callers s) (raised s) (next_id s).
Definition set_workers l s := mk_state (queues s) (running s) (served s) (clock s) (stopping s) (futures s) (callbacks s) (replaced s) (tasks_total s) (pending_gauge s) (dropped s) l (callers s) (raised s) (next_id s).
Definition set_callers l s := mk_state (queues s) (running s) (served s) (clock s) (stopping s) (futures s) (callbacks s) (replaced s) (tasks_total s) (pending_gauge s) (dropped s) (workers s) l (raised s) (next_id s).
Definition set_raised l s := mk_state (queues s) (running s) (served s) (clock s) (stopping s) (futures s) (callbacks s) (replaced s) (tasks_total s) (pending_gauge s) (dropped s) (workers s) (callers s) l (next_id s).
Definition set_next_id n s := mk_state (queues s) (running s) (served s) (clock s) (stopping s) (futures s) (callbacks s) (replaced s) (tasks_total s) (pending_gauge s) (dropped s) (workers s) (callers s) (raised s) n.

(** ** [_Cycle] *)

Definition count_task (p : Pool) (t : Task) (o : TaskOutcome) (s : State) : State :=
  set_tasks_total (tasks_total s ++ [(p, tid t, o)]) s.
Definition move_gauge (p : Pool) (d : Z) (s : State) : State :=
  set_pending_gauge (upd (pending_gauge s) p (pending_gauge s p + d)%Z) s.
(** A new future is pending: the map has those that moved. *)
Definition future_of (t : Task) (s : State) : Future.state := default Future.PENDING (futures s !! tid t).
Definition put_future (t : Task) (f : Future.state) (s : State) : State :=
  set_futures (<[tid t := f]> (futures s)) s.

(** [future.set_running_or_notify_cancel()] of a task nobody runs: waiters wake. *)
Definition notify (t : Task) (s : State) : State :=
  match Future.set_running_or_notify_cancel (future_of t s) with
  | Some (_, f) => put_future t f s
  | None => set_raised (tid t :: raised s) s
  end.

(** The part of [forget_if_cancelled] under the lock; [true]: it goes on to notify. *)
Definition forget_if_cancelled (p : Pool) (t : Task) (s : State) : bool * State :=
  if negb (Future.cancelled (future_of t s)) then (false, s)
  else if bool_decide (tid t ∈ replaced s) then (false, s)
  else if bool_decide (t ∈ queues s p) then
    (true, move_gauge p (-1)
             (count_task p t CANCELED
               (set_queues (upd (queues s) p (filter (fun t' => t' <> t) (queues s p))) s)))
  else (false, s).

(** [future.cancel()] with the lock held: its callback runs at once, in the same thread. *)
Definition cancel_locked (p : Pool) (t : Task) (s : State) : bool * State :=
  match future_of t s with
  | Future.PENDING =>
      let '(go, s') := forget_if_cancelled p t (put_future t Future.CANCELLED s) in
      (true, if go : bool then notify t s' else s')
  | f => (fst (Future.cancel f), s)
  end.

Definition waiting_index (p : Pool) (key : string) (s : State) : option nat :=
  fst <$> list_find (fun t => replace_key t = Some key) (queues s p).

Definition pending (p : Pool) (s : State) : nat := length (queues s p) + running s p.

Section limits.
Context (max_workers pool_limit : nat).

Definition enqueue (p : Pool) (t : Task) (s : State) : option DropReason * option Task * State :=
  if stopping s then (Some SHUT_DOWN, None, s)
  else
    match i ← (key ← replace_key t; waiting_index p key s); old ← queues s p !! i; Some (i, old) with
    | Some (i, old) =>
        let outcome := if Future.cancelled (future_of old s) then CANCELED else REPLACED in
        (None, Some old,
         count_task p old outcome
           (set_replaced ({[tid old]} ∪ replaced s)
             (set_queues (upd (queues s) p (<[i := t]> (queues s p))) s)))
    | None =>
        if bool_decide (pool_limit <= pending p s) then (Some FULL, None, s)
        else
          (None, None,
           move_gauge p 1 (set_queues (upd (queues s) p (queues s p ++ [t])) s))
    end.

(** [min(waiting, key=...)]: the first of the pools with the least key. *)
Definition fewer (s : State) (p q : Pool) : bool :=
  bool_decide (running s p < running s q)
  || (bool_decide (running s p = running s q) && bool_decide (served s p < served s q)).
Definition least (s : State) (best : option Pool) (p : Pool) : option Pool :=
  match best with
  | None => Some p
  | Some q => if fewer s p q then Some p else Some q
  end.
Definition next_pool (s : State) : option Pool :=
  foldl (least s) None (filter (fun p => queues s p <> []) pools).

(** ** [BackgroundExecutor]: the operations on the cycle in use *)

(** [submit], up to the end of its [with] block; what is left for a replaced task is done by
    a thread of its own in the model, as nothing orders it with the caller's next call. *)
Definition submit (p : Pool) (key : option string) (s : State) : State :=
  let t := mk_task (next_id s) key in
  let s := set_next_id (S (next_id s)) s in
  match enqueue p t s with
  | (Some reason, _, s') => set_dropped (dropped s' ++ [(p, reason)]) s'
  | (None, old, s') =>
      let s' := set_callbacks (<[tid t := (p, t)]> (callbacks s')) s' in
      match old with
      | None => s'
      | Some old => set_callers (callers s' ++ [Cancelling p old true]) s'
      end
  end.

Definition would_accept (p : Pool) (key : option string) (s : State) : bool :=
  if stopping s then false
  else bool_decide (pending p s < pool_limit)
       || bool_decide (is_Some (k ← key; waiting_index p k s)).

Definition discard (p : Pool) (key : string) (s : State) : bool * State :=
  match i ← waiting_index p key s; queues s p !! i with
  | None => (false, s)
  | Some t => cancel_locked p t s
  end.

(** How loaded a pool is. *)
Record PoolStatus := mk_status { st_queued : nat; st_running : nat; free_slots : nat; idle_workers : nat }.
Definition status (p : Pool) (s : State) : PoolStatus :=
  mk_status (length (queues s p)) (running s p) (pool_limit - pending p s)
    (max_workers - sum_list_with (running s) pools).

(** The [with] block of [shutdown]: [for queue in queues: for task in list(queue)]. *)
Definition cancel_all (p : Pool) (s : State) : State :=
  foldl (fun s t => snd (cancel_locked p t s)) s (queues s p).
Definition shutdown (s : State) : State :=
  foldl (fun s p => cancel_all p s) (set_stopping true s) pools.

(** ** The steps of the threads *)

(** The next section of a worker; [None] while it waits. [ok]: whether the function of the
    task it runs returns. *)
Definition worker_step (w : Worker) (ok : bool) (s : State) : option (Worker * State) :=
  match w with
  | Exited => None
  | Idle =>
      if stopping s then Some (Exited, s)
      else
        match next_pool s with
        | None => None
        | Some p =>
            match queues s p with
            | [] => None
            | t :: q =>
                Some (Taken p t,
                      set_served (upd (served s) p (S (clock s))) (S (clock s))
                        (set_running (upd (running s) p (S (running s p)))
                          (set_queues (upd (queues s) p q) s)))
            end
        end
  | Taken p t =>
      Some (if Future.cancelled (future_of t s) then Finishing p t WakeCancelled else Checked p t, s)
  | Checked p t =>
      Some (match Future.set_running_or_notify_cancel (future_of t s) with
            | Some (true, f) => (Executing p t, put_future t f s)
            | Some (false, f) => (Finishing p t NothingLeft, put_future t f s)
            | None => (Idle, set_raised (tid t :: raised s) s)
            end)
  | Executing p t => Some (Finishing p t (SetResult ok), s)
  | Finishing p t e =>
      Some (Freeing p t e, move_gauge p (-1) (count_task p t (ending_outcome e) s))
  | Freeing p t e =>
      Some (match e with NothingLeft => Idle | _ => Resolving t e end,
            set_running (upd (running s) p (running s p - 1)) s)
  | Resolving t WakeCancelled => Some (Idle, notify t s)
  | Resolving t NothingLeft => Some (Idle, s)
  | Resolving t (SetResult _) =>
      Some (Idle, match Future.set_result (future_of t s) with
                  | Some f => put_future t f s
                  | None => set_raised (tid t :: raised s) s
                  end)
  end.

(** The next section of a caller. *)
Definition caller_step (c : Caller) (s : State) : option (Caller * State) :=
  match c with
  | Gone => None
  | Cancelling p t releasing =>
      let '(_, f) := Future.cancel (future_of t s) in
      Some (if bool_decide (future_of t s = Future.PENDING) then Forgetting p t releasing
            else if releasing then Notifying t false else Gone, put_future t f s)
  | Forgetting p t releasing =>
      let '(go, s') := forget_if_cancelled p t s in
      Some (if go then Notifying t releasing else if releasing then Notifying t false else Gone, s')
  | Notifying t releasing => Some (if releasing then Notifying t false else Gone, notify t s)
  end.

Inductive Action :=
  | Submit (p : Pool) (key : option string)
  | Cancel (n : nat)                         (* a caller calls [cancel()] of a future it has *)
  | Discard (p : Pool) (key : string)
  | Shutdown
  | Work (i : nat) (ok : bool)               (* worker [i] goes on *)
  | Help (j : nat).                          (* caller [j] goes on *)

(** [None]: the action is not possible in this state. *)
Definition step (a : Action) (s : State) : option State :=
  match a with
  | Submit p key => Some (submit p key s)
  | Cancel n =>
      '(p, t) ← callbacks s !! n;
      Some (set_callers (callers s ++ [Cancelling p t false]) s)
  | Discard p key => Some (snd (discard p key s))
  | Shutdown => Some (shutdown s)
  | Work i ok =>
      w ← workers s !! i;
      '(w', s') ← worker_step w ok s;
      Some (set_workers (<[i := w']> (workers s')) s')
  | Help j =>
      c ← callers s !! j;
      '(c', s') ← caller_step c s;
      Some (set_callers (<[j := c']> (callers s')) s')
  end.

(** [_Cycle.__init__], its threads started. *)
Definition new_cycle : State :=
  mk_state (fun _ => []) (fun _ => 0%nat) (fun _ => 0%nat) 0 false ∅ ∅ ∅ [] (fun _ => 0%Z) []
    (replicate max_workers Idle) [] [] 0.

Inductive reachable : State -> Prop :=
  | reachable_new : reachable new_cycle
  | reachable_step a s s' : reachable s -> step a s = Some s' -> reachable s'.

Fixpoint exec (acts : list Action) (s : State) : option State :=
  match acts with
  | [] => Some s
  | a :: acts' => s' ← step a s; exec acts' s'
  end.

Lemma reachable_exec acts s s' : reachable s -> exec acts s = Some s' -> reachable s'.
Proof.
  revert s. induction acts as [|a acts IH]; intros s Hr H; cbn in H; [by simplify_eq|].
  destruct (step a s) as [s1|] eqn:E; [|done]. cbn in H. eapply IH; [|exact H].
  by eapply reachable_step.
Qed.
End limits.

(** ** The executor of a process: [init], [_current_cycle] and [shutdown] *)

Record BackgroundExecutor := mk_executor {
  ex_cycle : option State;
  ex_pid : option nat;
  ex_max_workers : Z;
  ex_max_pending : Z
}.

Definition already_initialized : exn :=
  mk_exn RuntimeError "BackgroundExecutor is already initialized in this process".
Definition bad_limits : exn :=
  mk_exn ValueError "max_workers must be at least 1 and max_pending must not be negative".
Definition not_initialized : exn :=
  mk_exn BackgroundExecutorNotInitializedError "BackgroundExecutor.init() was not called in this process".

(** [pending // len(BackgroundPool)]. *)
Definition share (max_pending : Z) : nat := Z.to_nat (max_pending / Z.of_nat (length pools)).

(** [start] is how starting the threads ended: nothing is stored when one could not start. *)
Definition init (getpid : nat) (settings_workers settings_pending : Z)
    (max_workers max_pending : option Z) (start : outcome unit) (x : BackgroundExecutor)
    : outcome unit * BackgroundExecutor :=
  if bool_decide (is_Some (ex_cycle x)) && bool_decide (ex_pid x = Some getpid)
  then (Raise already_initialized, x)
  else
    let workers := default settings_workers max_workers in
    let pending := default settings_pending max_pending in
    if ((workers <? 1) || (pending <? 0))%Z then (Raise bad_limits, x)
    else
      match start with
      | Raise e => (Raise e, x)
      | Ok _ => (Ok tt, mk_executor (Some (new_cycle (Z.to_nat workers))) (Some getpid) workers pending)
      end.

(** A forked child has the object but not the threads: it must call [init] itself. *)
Definition current_cycle (getpid : nat) (x : BackgroundExecutor) : outcome State :=
  match ex_cycle x with
  | Some c => if bool_decide (ex_pid x = Some getpid) then Ok c else Raise not_initialized
  | None => Raise not_initialized
  end.

(** [shutdown]: the cycle is forgotten first, and asked to stop only by its own process. *)
Definition close (getpid : nat) (x : BackgroundExecutor) : option State * BackgroundExecutor :=
  let x' := mk_executor None None (ex_max_workers x) (ex_max_pending x) in
  match ex_cycle x with
  | Some c => (if bool_decide (ex_pid x = Some getpid) then Some (shutdown c) else None, x')
  | None => (None, x')
  end.
End executor.
