(* ===== verification/BackgroundExecutorInv.v ===== *)
(** * The invariant of the background executor

    Every task accepted has exactly one holder that will resolve its future (a queue, a
    worker, a caller, or nobody once it is resolved) and one place where its outcome is
    counted or still to be. The numbers are sums over the holders, so that a step is a linear
    equation. *)

From S2P Require Import Prelude BackgroundExecutor.

Local Open Scope string_scope.
Local Open Scope list_scope.
Local Open Scope nat_scope.

(** ** Sums over a list *)

Section sums.
Context {A : Type}.
Implicit Types (f : A -> nat) (l : list A).

Lemma sum_insert f l i a b :
  l !! i = Some a -> sum_list_with f (<[i := b]> l) + f a = sum_list_with f l + f b.
Proof.
  revert i. induction l as [|x l IH]; intros [|i] H; simpl in *; [done|done|by simplify_eq; lia|].
  specialize (IH i H). lia.
Qed.

Lemma sum_lookup_le f l i a : l !! i = Some a -> f a <= sum_list_with f l.
Proof.
  revert i. induction l as [|x l IH]; intros [|i] H; simpl in *; [done|done|by simplify_eq; lia|].
  specialize (IH i H). lia.
Qed.

Lemma sum_two f l i j a b :
  l !! i = Some a -> l !! j = Some b -> i <> j -> f a + f b <= sum_list_with f l.
Proof.
  revert i j. induction l as [|x l IH]; intros [|i] [|j] Ha Hb Hij; simpl in *; try done.
  - simplify_eq. pose proof (sum_lookup_le f l j b Hb). lia.
  - simplify_eq. pose proof (sum_lookup_le f l i a Ha). lia.
  - assert (f a + f b <= sum_list_with f l); [|lia]. apply (IH i j); [done..|congruence].
Qed.

Lemma sum_zero f l i a : l !! i = Some a -> sum_list_with f l = 0 -> f a = 0.
Proof. intros H. pose proof (sum_lookup_le f l i a H). lia. Qed.

Lemma sum_pos f l : 0 < sum_list_with f l -> exists i a, l !! i = Some a /\ 0 < f a.
Proof.
  induction l as [|x l IH]; simpl; [lia|]. intros H. destruct (decide (0 < f x)) as [|Hx]; [by exists 0, x|].
  destruct IH as (i & a & Ha & Hf); [lia|]. by exists (S i), a.
Qed.
End sums.

Lemma sublist_omap {A B} (f : A -> option B) (l l' : list A) :
  l `sublist_of` l' -> omap f l `sublist_of` omap f l'.
Proof.
  induction 1 as [|x l l' _ IH|x l l' _ IH]; cbn; [done|by destruct (f x); [apply sublist_skip|]|].
  destruct (f x); [by apply sublist_cons|done].
Qed.

Lemma sublist_filter_self {A} (P : A -> Prop) `{forall x, Decision (P x)} (l : list A) :
  filter P l `sublist_of` l.
Proof.
  induction l as [|x l IH]; [done|]. rewrite filter_cons. case_decide; [by apply sublist_skip|by apply sublist_cons].
Qed.

Section executor.
Context {Pool : Type} `{EqDecision Pool} (pools : list Pool).
Context (pools_NoDup : NoDup pools) (pools_all : forall p, p ∈ pools).
Context (max_workers pool_limit : nat).
Implicit Types (p : Pool) (t : Task) (s : State (Pool:=Pool)).

Lemma upd_same {A} (f : Pool -> A) p a : upd f p a p = a.
Proof. unfold upd. by rewrite decide_True. Qed.
Lemma upd_other {A} (f : Pool -> A) p q a : q <> p -> upd f p a q = f q.
Proof. intros. unfold upd. by rewrite decide_False. Qed.

Lemma sum_upd {A} (g : A -> nat) (f : Pool -> A) p a :
  sum_list_with (fun q => g (upd f p a q)) pools + g (f p) = sum_list_with (fun q => g (f q)) pools + g a.
Proof.
  pose proof (pools_all p) as Hp. clear pools_all.
  induction pools as [|q l IH]; [by apply elem_of_nil in Hp|]. cbn.
  apply NoDup_cons in pools_NoDup as [Hq Hnd]. apply elem_of_cons in Hp as [<-|Hp].
  - rewrite upd_same.
    assert (sum_list_with (fun q => g (upd f p a q)) l = sum_list_with (fun q => g (f q)) l) as ->; [|lia].
    clear -Hq. induction l as [|q l IH]; [done|]. cbn. apply not_elem_of_cons in Hq as [Hq Hq'].
    rewrite IH by done. by rewrite upd_other by congruence.
  - rewrite upd_other by (intros ->; done). specialize (IH Hnd Hp). lia.
Qed.

(** ** Who holds a task *)

Definition is_task (n : nat) t : nat := if decide (tid t = n) then 1 else 0.
Definition in_queue (n : nat) (q : list Task) : nat := sum_list_with (is_task n) q.

(** Who still has to resolve the future of the task. *)
Definition owes_worker (n : nat) (w : Worker (Pool:=Pool)) : nat :=
  match w with
  | Taken _ t | Checked _ t | Executing _ t => is_task n t
  | Finishing _ t e | Freeing _ t e | Resolving t e =>
      match e with NothingLeft => 0 | _ => is_task n t end
  | Idle | Exited => 0
  end.
Definition owes_caller (n : nat) (c : Caller (Pool:=Pool)) : nat :=
  match c with
  | Cancelling _ t true | Forgetting _ t true | Notifying t _ => is_task n t
  | _ => 0
  end.
Definition final (n : nat) s : nat :=
  match futures s !! n with Some f => if Future.resolved f then 1 else 0 | None => 0 end.
Definition queued_anywhere (n : nat) s : nat := sum_list_with (fun p => in_queue n (queues s p)) pools.

Definition tokens (n : nat) s : nat :=
  queued_anywhere n s + sum_list_with (owes_worker n) (workers s)
  + sum_list_with (owes_caller n) (callers s) + final n s.

(** Where its outcome is still to be counted, or is. *)
Definition uncounted (n : nat) (w : Worker (Pool:=Pool)) : nat :=
  match w with
  | Taken _ t | Checked _ t | Executing _ t | Finishing _ t _ => is_task n t
  | _ => 0
  end.
Definition outcomes_of (n : nat) s : list TaskOutcome :=
  (filter (fun x => x.1.2 = n) (tasks_total s)).*2.
Definition places (n : nat) s : nat :=
  queued_anywhere n s + sum_list_with (uncounted n) (workers s) + length (outcomes_of n s).

Definition occupies p (w : Worker (Pool:=Pool)) : nat :=
  match w with
  | Taken q _ | Checked q _ | Executing q _ | Finishing q _ _ | Freeing q _ _ => if decide (q = p) then 1 else 0
  | _ => 0
  end.
Definition uncounted_in p (w : Worker (Pool:=Pool)) : nat :=
  match w with
  | Taken q _ | Checked q _ | Executing q _ | Finishing q _ _ => if decide (q = p) then 1 else 0
  | _ => 0
  end.

Definition accepted (n : nat) s : nat := if decide (is_Some (callbacks s !! n)) then 1 else 0.

(** ** The invariant *)

Definition owned p t s : Prop := callbacks s !! tid t = Some (p, t).
Definition waiting_state (f : Future.state) : Prop := f = Future.PENDING \/ f = Future.CANCELLED.

Definition ending_ok t (e : Ending) s : Prop :=
  future_of t s = match e with
                  | WakeCancelled => Future.CANCELLED
                  | NothingLeft => Future.CANCELLED_AND_NOTIFIED
                  | SetResult _ => Future.RUNNING
                  end.
Definition worker_ok s (w : Worker (Pool:=Pool)) : Prop :=
  match w with
  | Idle | Exited => True
  | Taken p t | Checked p t => owned p t s /\ waiting_state (future_of t s)
  | Executing p t => owned p t s /\ future_of t s = Future.RUNNING
  | Finishing p t e | Freeing p t e => owned p t s /\ ending_ok t e s
  | Resolving t e => ending_ok t e s
  end.
Definition caller_ok s (c : Caller (Pool:=Pool)) : Prop :=
  match c with
  | Gone => True
  | Cancelling p t releasing => owned p t s /\ (releasing = true -> waiting_state (future_of t s))
  | Forgetting p t releasing =>
      owned p t s /\ Future.cancelled (future_of t s) = true
      /\ (releasing = true -> future_of t s = Future.CANCELLED)
  | Notifying t releasing => future_of t s = Future.CANCELLED /\ releasing = false
  end.
Definition outcome_ok s (x : Pool * nat * TaskOutcome) : Prop :=
  exists t, owned x.1.1 t s /\ tid t = x.1.2 /\
  match x.2 with
  | COMPLETED | FAILED => future_of t s = Future.RUNNING \/ future_of t s = Future.FINISHED
  | CANCELED | REPLACED => waiting_state (future_of t s) \/ future_of t s = Future.CANCELLED_AND_NOTIFIED
  end.

Record Inv s : Prop := {
  inv_fresh : forall n p t, callbacks s !! n = Some (p, t) -> n < next_id s /\ tid t = n;
  inv_unborn : forall t, callbacks s !! tid t = None -> future_of t s = Future.PENDING;
  inv_tokens : forall n, tokens n s = accepted n s;
  inv_places : forall n, places n s = accepted n s;
  inv_queue : forall p t, t ∈ queues s p -> owned p t s /\ waiting_state (future_of t s);
  inv_workers : forall i w, workers s !! i = Some w -> worker_ok s w;
  inv_callers : forall j c, callers s !! j = Some c -> caller_ok s c;
  inv_outcomes : forall x, x ∈ tasks_total s -> outcome_ok s x;
  inv_running : forall p, running s p = sum_list_with (occupies p) (workers s);
  inv_gauge : forall p, pending_gauge s p = Z.of_nat (length (queues s p) + sum_list_with (uncounted_in p) (workers s));
  inv_limit : forall p, pending p s <= pool_limit;
  inv_keys : forall p, NoDup (omap replace_key (queues s p));
  inv_raised : raised s = [];
  inv_threads : length (workers s) = max_workers
}.

Lemma inv_new : Inv (new_cycle max_workers).
Proof.
  assert (forall (f : Worker (Pool:=Pool) -> nat), f Idle = 0 -> sum_list_with f (replicate max_workers Idle) = 0) as Hs.
  { intros f Hf. induction max_workers; cbn; [done|]. lia. }
  assert (forall n, queued_anywhere n (new_cycle max_workers) = 0) as Hq.
  { intros n. unfold queued_anywhere. cbn. clear. by induction pools. }
  constructor; cbn; try set_solver; try done.
  - intros n. unfold tokens. rewrite Hq. cbn. by rewrite Hs.
  - intros n. unfold places. rewrite Hq. cbn. by rewrite Hs.
  - intros i w [-> _]%lookup_replicate. done.
  - intros p. by rewrite Hs.
  - intros p. by rewrite Hs.
  - intros p. unfold pending. cbn. lia.
  - intros p. constructor.
  - by rewrite length_replicate.
Qed.

(** ** How the conditions on the states survive a step *)

Lemma future_of_put t t' f s :
  future_of t' (put_future t f s) = if decide (tid t' = tid t) then f else future_of t' s.
Proof.
  unfold future_of, put_future. cbn. case_decide as H; [by rewrite H, lookup_insert_eq|].
  by rewrite lookup_insert_ne.
Qed.

Lemma final_put n t f s :
  final n (put_future t f s) = if decide (tid t = n) then (if Future.resolved f then 1 else 0) else final n s.
Proof.
  unfold final, put_future. cbn. case_decide as H; [by rewrite H, lookup_insert_eq|].
  by rewrite lookup_insert_ne.
Qed.

Lemma is_task_same t : is_task (tid t) t = 1.
Proof. unfold is_task. by rewrite decide_True. Qed.
Lemma is_task_zero n t : is_task n t = 0 <-> tid t <> n.
Proof. unfold is_task. by case_decide. Qed.

(** Every registered task stays so, and a future only went from pending to cancelled. *)
Definition evolves s s' : Prop :=
  (forall n x, callbacks s !! n = Some x -> callbacks s' !! n = Some x)
  /\ forall t, future_of t s' = future_of t s
               \/ future_of t s = Future.PENDING /\ future_of t s' = Future.CANCELLED
                  /\ is_Some (callbacks s !! tid t).

Ltac by_evolution t :=
  match goal with
  | H : evolves _ _ |- _ =>
      pose proof (proj1 H); pose proof (proj2 H t); unfold owned, ending_ok, waiting_state in *;
      intuition (repeat match goal with e : Ending |- _ => destruct e end; eauto; congruence)
  end.

Lemma waiting_evolves s s' t : evolves s s' -> waiting_state (future_of t s) -> waiting_state (future_of t s').
Proof. intros He. by_evolution t. Qed.
Lemma owned_evolves s s' p t : evolves s s' -> owned p t s -> owned p t s'.
Proof. intros He. by_evolution t. Qed.
Lemma ending_evolves s s' t e : evolves s s' -> ending_ok t e s -> ending_ok t e s'.
Proof. intros He. destruct e; by_evolution t. Qed.
Lemma worker_evolves s s' w : evolves s s' -> worker_ok s w -> worker_ok s' w.
Proof.
  intros He. destruct w as [| |p t|p t|p t|p t e|p t e|t e]; cbn; [done..| | | | | |];
    try destruct e; by_evolution t.
Qed.
Lemma caller_evolves s s' c : evolves s s' -> caller_ok s c -> caller_ok s' c.
Proof.
  intros He. destruct c as [p t r|p t r|t r|]; cbn; [by_evolution t| |by_evolution t|done].
  intros (Ho & Hc & Hr). split; [by eapply owned_evolves|].
  destruct (proj2 He t) as [->|[Hp _]]; [done|]. by rewrite Hp in Hc.
Qed.
Lemma outcome_evolves s s' x : evolves s s' -> outcome_ok s x -> outcome_ok s' x.
Proof.
  intros He (t & Ho & Ht & Hx). exists t. split; [by eapply owned_evolves|]. split; [done|].
  destruct x as [[p n] []]; cbn in *; by_evolution t.
Qed.

(** Only the future of task [n] changed, not from a final state, and not out of a cancel. *)
Definition resolves (n : nat) s s' : Prop :=
  callbacks s' = callbacks s
  /\ (forall t, tid t <> n -> future_of t s' = future_of t s)
  /\ (forall t, tid t = n -> Future.resolved (future_of t s) = false
        /\ (Future.cancelled (future_of t s) = true -> Future.cancelled (future_of t s') = true)).

Lemma owned_resolves n s s' p t : resolves n s s' -> owned p t s -> owned p t s'.
Proof. intros (Hc & _). unfold owned. by rewrite Hc. Qed.
Lemma ending_resolves n s s' t e :
  resolves n s s' -> (match e with NothingLeft => 0 | _ => is_task n t end) = 0 ->
  ending_ok t e s -> ending_ok t e s'.
Proof.
  intros (_ & Hf & Hn). unfold ending_ok. destruct (decide (tid t = n)) as [E|E]; [|by rewrite Hf].
  destruct e; rewrite ?is_task_zero; [done| |done]. intros _ H. destruct (Hn t E) as [Hr _].
  by rewrite H in Hr.
Qed.
Lemma worker_resolves n s s' w :
  resolves n s s' -> owes_worker n w = 0 -> worker_ok s w -> worker_ok s' w.
Proof.
  intros Hr. pose proof Hr as (_ & Hf & _).
  destruct w as [| |p t|p t|p t|p t e|p t e|t e]; cbn; [done..| | | | | |];
    try (intros Hz%is_task_zero [Ho Hs]; split; [by eapply owned_resolves|by rewrite Hf]).
  - intros Hz [Ho He]. split; [by eapply owned_resolves|by eapply ending_resolves].
  - intros Hz [Ho He]. split; [by eapply owned_resolves|by eapply ending_resolves].
  - intros Hz He. by eapply ending_resolves.
Qed.
Lemma caller_resolves n s s' c :
  resolves n s s' -> owes_caller n c = 0 -> caller_ok s c -> caller_ok s' c.
Proof.
  intros Hr. pose proof Hr as (_ & Hf & Hn). destruct c as [p t r|p t r|t r|]; cbn; [| | |done].
  - intros Hz [Ho Hs]. split; [by eapply owned_resolves|]. intros ->.
    apply is_task_zero in Hz. rewrite Hf by done. by apply Hs.
  - intros Hz (Ho & Hc & Hs). split; [by eapply owned_resolves|].
    destruct (decide (tid t = n)) as [E|E]; [|by rewrite Hf by done].
    split; [by apply (proj2 (Hn t E))|]. intros ->. by apply is_task_zero in Hz.
  - intros Hz%is_task_zero [Hs Ha]. by rewrite Hf.
Qed.
Lemma queue_resolves n s s' p q t :
  resolves n s s' -> in_queue n q = 0 -> t ∈ q -> owned p t s /\ waiting_state (future_of t s) ->
  owned p t s' /\ waiting_state (future_of t s').
Proof.
  intros Hr Hz [k Hk]%list_elem_of_lookup [Ho Hs]. split; [by eapply owned_resolves|].
  apply (sum_zero _ _ _ _ Hk), is_task_zero in Hz. by rewrite (proj1 (proj2 Hr)).
Qed.
Lemma outcome_resolves n s s' x :
  resolves n s s' -> x.1.2 <> n -> outcome_ok s x -> outcome_ok s' x.
Proof.
  intros Hr Hx (t & Ho & Ht & Hs). exists t. split; [by eapply owned_resolves|]. split; [done|].
  rewrite (proj1 (proj2 Hr)); [done|congruence].
Qed.

(** ** One holder at a time *)

Lemma accepted_le n s : accepted n s <= 1.
Proof. unfold accepted. case_decide; lia. Qed.
Lemma accepted_owned p t s : owned p t s -> accepted (tid t) s = 1.
Proof. intros H. unfold accepted. by rewrite decide_True by (by eexists). Qed.

Lemma in_queue_elem t (q : list Task) : t ∈ q -> 1 <= in_queue (tid t) q.
Proof.
  intros [k Hk]%list_elem_of_lookup. pose proof (sum_lookup_le (is_task (tid t)) q k t Hk) as H.
  by rewrite is_task_same in H.
Qed.
Lemma in_queue_zero n (q : list Task) : in_queue n q = 0 -> forall t, t ∈ q -> tid t <> n.
Proof. intros H t Ht <-. apply in_queue_elem in Ht. lia. Qed.

Lemma queued_le n p s : in_queue n (queues s p) <= queued_anywhere n s.
Proof.
  destruct (proj1 (list_elem_of_lookup pools p) (pools_all p)) as [k Hk].
  exact (sum_lookup_le (fun p => in_queue n (queues s p)) pools k p Hk).
Qed.
Lemma queued_two n p q s : p <> q -> in_queue n (queues s p) + in_queue n (queues s q) <= queued_anywhere n s.
Proof.
  intros Hpq. destruct (proj1 (list_elem_of_lookup pools p) (pools_all p)) as [k Hk].
  destruct (proj1 (list_elem_of_lookup pools q) (pools_all q)) as [k' Hk'].
  apply (sum_two (fun p => in_queue n (queues s p)) pools k k' p q Hk Hk'). congruence.
Qed.
Lemma queued_zero n s : queued_anywhere n s = 0 -> forall p, in_queue n (queues s p) = 0.
Proof. intros H p. pose proof (queued_le n p s). lia. Qed.

Section holders.
Context s (HI : Inv s).

Lemma tokens_le n : tokens n s <= 1.
Proof. rewrite (inv_tokens s HI). apply accepted_le. Qed.
Lemma places_le n : places n s <= 1.
Proof. rewrite (inv_places s HI). apply accepted_le. Qed.

(** Nobody but a place that is left out holds the task. *)
Definition free_workers (n : nat) (except : option nat) : Prop :=
  forall i w, workers s !! i = Some w -> Some i <> except -> owes_worker n w = 0.
Definition free_callers (n : nat) (except : option nat) : Prop :=
  forall j c, callers s !! j = Some c -> Some j <> except -> owes_caller n c = 0.

Lemma sum_free_workers n : sum_list_with (owes_worker n) (workers s) = 0 -> free_workers n None.
Proof. intros H i w Hw _. exact (sum_zero _ _ _ _ Hw H). Qed.
Lemma sum_free_callers n : sum_list_with (owes_caller n) (callers s) = 0 -> free_callers n None.
Proof. intros H j c Hc _. exact (sum_zero _ _ _ _ Hc H). Qed.

Lemma queue_holds p t :
  t ∈ queues s p ->
  in_queue (tid t) (queues s p) = 1 /\ (forall q, q <> p -> in_queue (tid t) (queues s q) = 0)
  /\ free_workers (tid t) None /\ free_callers (tid t) None
  /\ final (tid t) s = 0 /\ outcomes_of (tid t) s = [].
Proof.
  intros Ht. pose proof (in_queue_elem t _ Ht). pose proof (tokens_le (tid t)) as Htok. unfold tokens in Htok.
  pose proof (places_le (tid t)) as Hpl. unfold places in Hpl.
  pose proof (queued_le (tid t) p s). split_and!.
  - lia.
  - intros q Hq. pose proof (queued_two (tid t) p q s ltac:(congruence)). lia.
  - apply sum_free_workers. lia.
  - apply sum_free_callers. lia.
  - lia.
  - apply length_zero_iff_nil. lia.
Qed.

Lemma worker_holds n i w :
  workers s !! i = Some w -> owes_worker n w = 1 ->
  queued_anywhere n s = 0 /\ free_workers n (Some i) /\ free_callers n None /\ final n s = 0.
Proof.
  intros Hi Hw. pose proof (tokens_le n) as Htok. unfold tokens in Htok.
  pose proof (sum_lookup_le (owes_worker n) _ _ _ Hi). split_and!; [lia| | |lia].
  - intros k w' Hk Hne. pose proof (sum_two (owes_worker n) _ i k w w' Hi Hk ltac:(congruence)). lia.
  - apply sum_free_callers. lia.
Qed.

Lemma caller_holds n j c :
  callers s !! j = Some c -> owes_caller n c = 1 ->
  queued_anywhere n s = 0 /\ free_workers n None /\ free_callers n (Some j) /\ final n s = 0.
Proof.
  intros Hj Hc. pose proof (tokens_le n) as Htok. unfold tokens in Htok.
  pose proof (sum_lookup_le (owes_caller n) _ _ _ Hj). split_and!; [lia| | |lia].
  - apply sum_free_workers. lia.
  - intros k c' Hk Hne. pose proof (sum_two (owes_caller n) _ j k c c' Hj Hk ltac:(congruence)). lia.
Qed.

Lemma inv_registered n : 0 < tokens n s -> is_Some (callbacks s !! n).
Proof. rewrite (inv_tokens s HI). unfold accepted. case_decide; [done|lia]. Qed.

Lemma uncounted_holds n i w :
  workers s !! i = Some w -> uncounted n w = 1 -> outcomes_of n s = [].
Proof.
  intros Hi Hw. pose proof (places_le n) as Hpl. unfold places in Hpl.
  pose proof (sum_lookup_le (uncounted n) _ _ _ Hi). apply length_zero_iff_nil. lia.
Qed.
End holders.

Lemma no_outcomes n s x : outcomes_of n s = [] -> x ∈ tasks_total s -> x.1.2 <> n.
Proof.
  intros H Hx <-. unfold outcomes_of in H. apply fmap_nil_inv in H.
  assert (x ∈ filter (fun y => y.1.2 = x.1.2) (tasks_total s)) as Hf by (by apply list_elem_of_filter).
  rewrite H in Hf. by apply elem_of_nil in Hf.
Qed.

Lemma outcomes_snoc n s p m o :
  (filter (fun x => x.1.2 = n) (tasks_total s ++ [(p, m, o)])).*2
  = outcomes_of n s ++ (if decide (m = n) then [o] else []).
Proof.
  unfold outcomes_of. rewrite filter_app, fmap_app. f_equal. rewrite filter_cons, filter_nil. cbn.
  by case_decide.
Qed.

(** ** Queues *)

Lemma remove_split t (q : list Task) :
  t ∈ q -> in_queue (tid t) q = 1 -> exists l1 l2, q = l1 ++ t :: l2 /\ filter (fun t' => t' <> t) q = l1 ++ l2.
Proof.
  intros (l1 & l2 & ->)%list_elem_of_split Hq. exists l1, l2. split; [done|].
  unfold in_queue in Hq. rewrite sum_list_with_app in Hq. cbn in Hq. rewrite is_task_same in Hq.
  assert (forall l, in_queue (tid t) l = 0 -> filter (fun t' => t' <> t) l = l) as Hf.
  { intros l Hl. apply filter_true, Forall_forall. intros t0 Ht0 ->. by apply (in_queue_zero _ _ Hl t Ht0). }
  rewrite filter_app, filter_cons, decide_False by (intros H; done).
  rewrite !Hf by (unfold in_queue; lia). done.
Qed.

Lemma removed t (q : list Task) :
  t ∈ q -> in_queue (tid t) q = 1 ->
  let q' := filter (fun t' => t' <> t) q in
  (forall n, in_queue n q' + is_task n t = in_queue n q) /\ S (length q') = length q.
Proof.
  intros Ht Hq. destruct (remove_split t q Ht Hq) as (l1 & l2 & -> & ->). cbn zeta. split_and!.
  - intros n. unfold in_queue. rewrite !sum_list_with_app. cbn. lia.
  - rewrite !length_app. cbn. lia.
Qed.

(** ** A step of one worker *)

Definition same_rest s s' : Prop :=
  callbacks s' = callbacks s /\ next_id s' = next_id s /\ raised s' = raised s.

(** The futures move for everybody but the holders of task [n], if any. *)
Definition moves (held : option nat) s s' : Prop :=
  match held with None => evolves s s' | Some n => resolves n s s' end.

Lemma worker_moves held s s' w :
  moves held s s' -> (forall n, held = Some n -> owes_worker n w = 0) -> worker_ok s w -> worker_ok s' w.
Proof.
  destruct held as [n|]; intros Hm Hz; [by apply (worker_resolves n), Hz|by apply worker_evolves].
Qed.
Lemma caller_moves held s s' c :
  moves held s s' -> (forall n, held = Some n -> owes_caller n c = 0) -> caller_ok s c -> caller_ok s' c.
Proof.
  destruct held as [n|]; intros Hm Hz; [by apply (caller_resolves n), Hz|by apply caller_evolves].
Qed.
Lemma queue_moves held s s' p t :
  moves held s s' -> (forall n, held = Some n -> in_queue n (queues s p) = 0) -> t ∈ queues s p ->
  owned p t s /\ waiting_state (future_of t s) -> owned p t s' /\ waiting_state (future_of t s').
Proof.
  destruct held as [n|]; intros Hm Hz Ht H; [by apply (queue_resolves n s s' p (queues s p)); [|apply Hz|..]|].
  destruct H. split; [by eapply owned_evolves|by eapply waiting_evolves].
Qed.

Lemma inv_worker_step s s' i w w' held :
  Inv s -> workers s !! i = Some w -> workers s' = <[i := w']> (workers s) -> callers s' = callers s ->
  same_rest s s' -> moves held s s' -> (forall n, held = Some n -> owes_worker n w = 1) ->
  (forall n, queued_anywhere n s' + owes_worker n w' + final n s'
             = queued_anywhere n s + owes_worker n w + final n s) ->
  (forall n, queued_anywhere n s' + uncounted n w' + length (outcomes_of n s')
             = queued_anywhere n s + uncounted n w + length (outcomes_of n s)) ->
  (forall p, running s' p + occupies p w = running s p + occupies p w') ->
  (forall p, (pending_gauge s' p + Z.of_nat (length (queues s p) + uncounted_in p w)
              = pending_gauge s p + Z.of_nat (length (queues s' p) + uncounted_in p w'))%Z) ->
  (forall p, pending p s' <= pending p s) ->
  (forall p, queues s' p `sublist_of` queues s p) ->
  worker_ok s' w' -> (forall x, x ∈ tasks_total s' -> outcome_ok s' x) ->
  Inv s'.
Proof.
  intros HI Hi Hw Hc (Hcb & Hid & Hra) Hm Hheld Htok Hpl Hrun Hga Hlim Hsub Hok Hout.
  assert (forall n, held = Some n -> queued_anywhere n s = 0 /\ free_workers s n (Some i) /\ free_callers s n None) as Hfree.
  { intros n Hn. destruct (worker_holds s HI n i w Hi (Hheld n Hn)) as (? & ? & ? & _). done. }
  constructor.
  - rewrite Hcb, Hid. apply (inv_fresh s HI).
  - intros t Ht. rewrite Hcb in Ht. destruct held as [n|].
    + rewrite (proj1 (proj2 Hm)); [by apply (inv_unborn s HI)|]. intros E.
      destruct (inv_registered s HI n) as [x Hx]; [pose proof (sum_lookup_le (owes_worker n) _ _ _ Hi) as Hle;
        rewrite (Hheld n eq_refl) in Hle; unfold tokens; lia|]. congruence.
    + destruct (proj2 Hm t) as [->|(_ & _ & [x Hx])]; [by apply (inv_unborn s HI)|congruence].
  - intros n. unfold accepted. rewrite Hcb. fold (accepted n s). rewrite <- (inv_tokens s HI n).
    unfold tokens. rewrite Hc, Hw. pose proof (sum_insert (owes_worker n) _ i w w' Hi). specialize (Htok n). lia.
  - intros n. unfold accepted. rewrite Hcb. fold (accepted n s). rewrite <- (inv_places s HI n).
    unfold places. rewrite Hw. pose proof (sum_insert (uncounted n) _ i w w' Hi). specialize (Hpl n). lia.
  - intros p t Ht. eapply elem_of_submseteq in Ht; [|by apply sublist_submseteq, Hsub].
    eapply queue_moves; [exact Hm| |exact Ht|by apply (inv_queue s HI)].
    intros n Hn. apply queued_zero. by apply Hfree.
  - intros k v. rewrite Hw. destruct (decide (k = i)) as [->|Hk].
    + rewrite list_lookup_insert_eq by (by eapply lookup_lt_Some). by intros [= <-].
    + rewrite list_lookup_insert_ne by done. intros Hv.
      eapply worker_moves; [exact Hm| |by apply (inv_workers s HI k)].
      intros n Hn. eapply (proj1 (proj2 (Hfree n Hn))); [exact Hv|congruence].
  - intros j c. rewrite Hc. intros Hj. eapply caller_moves; [exact Hm| |by apply (inv_callers s HI j)].
    intros n Hn. eapply (proj2 (proj2 (Hfree n Hn))); [exact Hj|done].
  - exact Hout.
  - intros p. rewrite Hw. pose proof (sum_insert (occupies p) _ i w w' Hi).
    pose proof (inv_running s HI p). specialize (Hrun p). lia.
  - intros p. rewrite Hw. pose proof (sum_insert (uncounted_in p) _ i w w' Hi).
    pose proof (inv_gauge s HI p). specialize (Hga p). lia.
  - intros p. etrans; [apply Hlim|apply (inv_limit s HI)].
  - intros p. eapply sublist_NoDup; [apply (inv_keys s HI p)|by apply sublist_omap].
  - rewrite Hra. apply (inv_raised s HI).
  - rewrite Hw, length_insert. apply (inv_threads s HI).
Qed.

(** ** A step of one caller *)

Lemma inv_caller_step s s' j c c' held :
  Inv s -> callers s !! j = Some c -> callers s' = <[j := c']> (callers s) -> workers s' = workers s ->
  same_rest s s' -> running s' = running s ->
  moves held s s' -> (forall n, held = Some n -> owes_caller n c = 1) ->
  (forall n, queued_anywhere n s' + owes_caller n c' + final n s'
             = queued_anywhere n s + owes_caller n c + final n s) ->
  (forall n, queued_anywhere n s' + length (outcomes_of n s') = queued_anywhere n s + length (outcomes_of n s)) ->
  (forall p, (pending_gauge s' p + Z.of_nat (length (queues s p))
              = pending_gauge s p + Z.of_nat (length (queues s' p)))%Z) ->
  (forall p, queues s' p `sublist_of` queues s p) ->
  caller_ok s' c' -> (forall x, x ∈ tasks_total s' -> outcome_ok s' x) ->
  Inv s'.
Proof.
  intros HI Hj Hc Hw (Hcb & Hid & Hra) Hru Hm Hheld Htok Hpl Hga Hsub Hok Hout.
  assert (forall n, held = Some n -> queued_anywhere n s = 0 /\ free_workers s n None /\ free_callers s n (Some j)) as Hfree.
  { intros n Hn. destruct (caller_holds s HI n j c Hj (Hheld n Hn)) as (? & ? & ? & _). done. }
  constructor.
  - rewrite Hcb, Hid. apply (inv_fresh s HI).
  - intros t Ht. rewrite Hcb in Ht. destruct held as [n|].
    + rewrite (proj1 (proj2 Hm)); [by apply (inv_unborn s HI)|]. intros E.
      destruct (inv_registered s HI n) as [x Hx]; [pose proof (sum_lookup_le (owes_caller n) _ _ _ Hj) as Hle;
        rewrite (Hheld n eq_refl) in Hle; unfold tokens; lia|]. congruence.
    + destruct (proj2 Hm t) as [->|(_ & _ & [x Hx])]; [by apply (inv_unborn s HI)|congruence].
  - intros n. unfold accepted. rewrite Hcb. fold (accepted n s). rewrite <- (inv_tokens s HI n).
    unfold tokens. rewrite Hc, Hw. pose proof (sum_insert (owes_caller n) _ j c c' Hj). specialize (Htok n). lia.
  - intros n. unfold accepted. rewrite Hcb. fold (accepted n s). rewrite <- (inv_places s HI n).
    unfold places. rewrite Hw. specialize (Hpl n). lia.
  - intros p t Ht. eapply elem_of_submseteq in Ht; [|by apply sublist_submseteq, Hsub].
    eapply queue_moves; [exact Hm| |exact Ht|by apply (inv_queue s HI)].
    intros n Hn. apply queued_zero. by apply Hfree.
  - intros i w. rewrite Hw. intros Hi. eapply worker_moves; [exact Hm| |by apply (inv_workers s HI i)].
    intros n Hn. eapply (proj1 (proj2 (Hfree n Hn))); [exact Hi|done].
  - intros k v. rewrite Hc. destruct (decide (k = j)) as [->|Hk].
    + rewrite list_lookup_insert_eq by (by eapply lookup_lt_Some). by intros [= <-].
    + rewrite list_lookup_insert_ne by done. intros Hv.
      eapply caller_moves; [exact Hm| |by apply (inv_callers s HI k)].
      intros n Hn. eapply (proj2 (proj2 (Hfree n Hn))); [exact Hv|congruence].
  - exact Hout.
  - intros p. rewrite Hw, Hru. apply (inv_running s HI).
  - intros p. rewrite Hw. pose proof (inv_gauge s HI p). specialize (Hga p). lia.
  - intros p. pose proof (inv_limit s HI p) as Hl. unfold pending in *. rewrite Hru.
    pose proof (sublist_length _ _ (Hsub p)). lia.
  - intros p. eapply sublist_NoDup; [apply (inv_keys s HI p)|by apply sublist_omap].
  - rewrite Hra. apply (inv_raised s HI).
  - rewrite Hw. apply (inv_threads s HI).
Qed.

(** ** The changes of state of a future *)

Lemma evolves_refl s s' : callbacks s' = callbacks s -> futures s' = futures s -> evolves s s'.
Proof. intros Hc Hf. split; [by rewrite Hc|]. intros t. left. unfold future_of. by rewrite Hf. Qed.

Lemma evolves_cancel t s s' :
  callbacks s' = callbacks s -> futures s' = <[tid t := Future.CANCELLED]> (futures s) ->
  future_of t s = Future.PENDING -> is_Some (callbacks s !! tid t) -> evolves s s'.
Proof.
  intros Hc Hf Hp Hreg. split; [by rewrite Hc|]. intros t'. unfold future_of in *. rewrite Hf.
  destruct (decide (tid t' = tid t)) as [->|H]; [right; by rewrite lookup_insert_eq|].
  left. by rewrite lookup_insert_ne.
Qed.

Lemma resolves_put t f s s' :
  callbacks s' = callbacks s -> futures s' = <[tid t := f]> (futures s) ->
  Future.resolved (future_of t s) = false ->
  (Future.cancelled (future_of t s) = true -> Future.cancelled f = true) ->
  resolves (tid t) s s'.
Proof.
  intros Hc Hf Hr Hx. unfold future_of in *. split; [done|]. split.
  - intros t' Ht'. unfold future_of. by rewrite Hf, lookup_insert_ne.
  - intros t' Ht'. unfold future_of. by rewrite Hf, Ht', lookup_insert_eq.
Qed.

Lemma future_of_same t t' s : tid t = tid t' -> future_of t s = future_of t' s.
Proof. intros H. unfold future_of. by rewrite H. Qed.

(** An outcome already counted is right after the future of its task was resolved. *)
Definition good_outcome (f : Future.state) (o : TaskOutcome) : Prop :=
  match o with
  | COMPLETED | FAILED => f = Future.RUNNING \/ f = Future.FINISHED
  | CANCELED | REPLACED => waiting_state f \/ f = Future.CANCELLED_AND_NOTIFIED
  end.

Lemma outcomes_move n s s' f :
  resolves n s s' -> (forall t, tid t = n -> future_of t s' = f) ->
  (forall t p o, tid t = n -> (p, n, o) ∈ tasks_total s -> good_outcome (future_of t s) o -> good_outcome f o) ->
  forall x, x ∈ tasks_total s -> outcome_ok s x -> outcome_ok s' x.
Proof.
  intros Hr Hf Hg x Hx Hok. destruct (decide (x.1.2 = n)) as [E|E]; [|by eapply outcome_resolves].
  destruct Hok as (t & Ho & Ht & Hs). exists t. split; [by eapply owned_resolves|]. split; [done|].
  rewrite (Hf t) by congruence. destruct x as [[p m] o]. cbn in *. subst m. subst n.
  exact (Hg t p o eq_refl Hx Hs).
Qed.

(** ** Every step of a worker keeps the invariant *)

(** An equation about pools: only pool [p] changed. *)
Ltac at_pool p :=
  let q := fresh "q" in
  intros q; unfold pending; cbn; destruct (decide (p = q)) as [<-|];
  rewrite ?upd_same, ?upd_other by congruence; lia.

Lemma outcomes_stay s s' :
  Inv s -> evolves s s' -> tasks_total s' = tasks_total s ->
  forall x, x ∈ tasks_total s' -> outcome_ok s' x.
Proof. intros HI He -> x Hx. by eapply outcome_evolves, (inv_outcomes s HI). Qed.

Lemma outcomes_counted s s' p t o :
  Inv s -> evolves s s' -> tasks_total s' = tasks_total s ++ [(p, tid t, o)] ->
  owned p t s -> good_outcome (future_of t s') o ->
  forall x, x ∈ tasks_total s' -> outcome_ok s' x.
Proof.
  intros HI He -> Ho Hg x [Hx| ->%list_elem_of_singleton]%elem_of_app.
  - by eapply outcome_evolves, (inv_outcomes s HI).
  - exists t. cbn. split; [by eapply owned_evolves|done].
Qed.

Lemma inv_phase s i w w' :
  Inv s -> workers s !! i = Some w -> worker_ok s w' ->
  (forall n, owes_worker n w' = owes_worker n w) -> (forall n, uncounted n w' = uncounted n w) ->
  (forall p, occupies p w' = occupies p w) -> (forall p, uncounted_in p w' = uncounted_in p w) ->
  Inv (set_workers (<[i := w']> (workers s)) s).
Proof.
  intros HI Hi Hok H1 H2 H3 H4.
  assert (evolves s (set_workers (<[i := w']> (workers s)) s)) as He by (by apply evolves_refl).
  eapply (inv_worker_step s _ i w w' None); try done.
  - intros n. rewrite H1. done.
  - intros n. rewrite H2. done.
  - intros p. cbn. rewrite H3. lia.
  - intros p. cbn. rewrite H4. done.
  - by eapply outcomes_stay.
Qed.

Lemma inv_take s i p t q :
  Inv s -> workers s !! i = Some Idle -> queues s p = t :: q ->
  let s' := set_served (upd (served s) p (S (clock s))) (S (clock s))
              (set_running (upd (running s) p (S (running s p))) (set_queues (upd (queues s) p q) s)) in
  Inv (set_workers (<[i := Taken p t]> (workers s)) s').
Proof.
  intros HI Hi Hq s'. assert (evolves s (set_workers (<[i := Taken p t]> (workers s)) s')) as He by (by apply evolves_refl).
  assert (forall n, queued_anywhere n s' + is_task n t = queued_anywhere n s) as Hsum.
  { intros n. pose proof (sum_upd (in_queue n) (queues s) p q) as H. rewrite Hq in H. cbn in H.
    unfold queued_anywhere in *. cbn. unfold in_queue in *. lia. }
  destruct (inv_queue s HI p t ltac:(rewrite Hq; apply elem_of_cons; by left)) as [Ho Hs].
  eapply (inv_worker_step s _ i Idle (Taken p t) None); try done.
  - intros n. specialize (Hsum n). unfold queued_anywhere in *. cbn in *. unfold final. cbn. lia.
  - intros n. specialize (Hsum n). unfold queued_anywhere, outcomes_of in *. cbn in *. lia.
  - intros r. cbn. destruct (decide (p = r)) as [<-|]; rewrite ?upd_same, ?upd_other by congruence; lia.
  - intros r. cbn. destruct (decide (p = r)) as [<-|]; rewrite ?upd_same, ?upd_other by congruence; [|lia].
    rewrite Hq. cbn. lia.
  - intros r. unfold pending. cbn.
    destruct (decide (p = r)) as [<-|]; rewrite ?upd_same, ?upd_other by congruence; [|lia].
    rewrite Hq. cbn. lia.
  - intros r. cbn. destruct (decide (p = r)) as [<-|]; rewrite ?upd_same, ?upd_other by congruence; [|done].
    rewrite Hq. by apply sublist_cons.
  - by eapply outcomes_stay.
Qed.

(** The future of the task a worker holds moves to [f], and the worker goes on. *)
Lemma inv_worker_put s i w w' t f :
  Inv s -> workers s !! i = Some w -> owes_worker (tid t) w = 1 ->
  Future.resolved (future_of t s) = false ->
  (Future.cancelled (future_of t s) = true -> Future.cancelled f = true) ->
  (forall n, owes_worker n w' + (if decide (tid t = n) then if Future.resolved f then 1 else 0 else 0) = owes_worker n w) ->
  (forall n, uncounted n w' = uncounted n w) ->
  (forall p, occupies p w' = occupies p w) -> (forall p, uncounted_in p w' = uncounted_in p w) ->
  (forall p o, (p, tid t, o) ∈ tasks_total s -> good_outcome (future_of t s) o -> good_outcome f o) ->
  worker_ok (put_future t f s) w' ->
  Inv (set_workers (<[i := w']> (workers s)) (put_future t f s)).
Proof.
  intros HI Hi Hw Hr Hx Ht Hu Hoc Huc Hg Hok.
  assert (resolves (tid t) s (set_workers (<[i := w']> (workers s)) (put_future t f s))) as Hres
    by (by eapply resolves_put).
  assert (final (tid t) s = 0) as Hfin by (by eapply worker_holds).
  eapply (inv_worker_step s _ i w w' (Some (tid t))); try done.
  - by intros n [= <-].
  - intros n. specialize (Ht n).
    assert (final n (set_workers (<[i := w']> (workers s)) (put_future t f s)) = final n (put_future t f s)) as -> by done.
    assert (queued_anywhere n (set_workers (<[i := w']> (workers s)) (put_future t f s)) = queued_anywhere n s) as -> by done.
    rewrite final_put. destruct (decide (tid t = n)) as [<-|E]; lia.
  - intros n. rewrite Hu. done.
  - intros p. cbn. rewrite Hoc. lia.
  - intros p. cbn. rewrite Huc. done.
  - intros x Hxin. eapply outcomes_move; [exact Hres| | |exact Hxin|by apply (inv_outcomes s HI)].
    + intros t' Ht'. unfold future_of. cbn. by rewrite Ht', lookup_insert_eq.
    + intros t' p o E Hin Hgo. rewrite (future_of_same t' t) in Hgo by done. by apply (Hg p o).
Qed.

Lemma inv_count s i p t e :
  Inv s -> workers s !! i = Some (Finishing p t e) ->
  Inv (set_workers (<[i := Freeing p t e]> (workers s))
         (move_gauge p (-1) (count_task p t (ending_outcome e) s))).
Proof.
  intros HI Hi. set (s' := set_workers _ _). destruct (inv_workers s HI i _ Hi) as [Ho He].
  assert (evolves s s') as Hev by (by apply evolves_refl).
  eapply (inv_worker_step s s' i _ (Freeing p t e) None); try done.
  - intros n. change (queued_anywhere n s') with (queued_anywhere n s). unfold outcomes_of at 1.
    unfold s'. cbn. rewrite outcomes_snoc, length_app. unfold is_task. case_decide; cbn; lia.
  - at_pool p.
  - eapply outcomes_counted; [done..|]. change (future_of t s') with (future_of t s).
    unfold ending_ok in He. rewrite He. destruct e as [| |[]]; cbn; unfold waiting_state; auto.
Qed.

Lemma inv_free s i p t e :
  Inv s -> workers s !! i = Some (Freeing p t e) ->
  Inv (set_workers (<[i := match e with NothingLeft => Idle | _ => Resolving t e end]> (workers s))
         (set_running (upd (running s) p (running s p - 1)) s)).
Proof.
  intros HI Hi. set (s' := set_workers _ _). destruct (inv_workers s HI i _ Hi) as [Ho He].
  assert (evolves s s') as Hev by (by apply evolves_refl).
  pose proof (sum_lookup_le (occupies p) _ _ _ Hi) as Hr. rewrite <- (inv_running s HI p) in Hr.
  cbn in Hr. rewrite decide_True in Hr by done.
  eapply (inv_worker_step s s' i _ _ None); try done.
  - intros n. by destruct e.
  - intros n. by destruct e.
  - intros q. cbn. destruct (decide (p = q)) as [<-|]; rewrite ?upd_same, ?upd_other by congruence; destruct e; cbn; lia.
  - intros q. by destruct e.
  - at_pool p.
  - destruct e; done.
  - by eapply outcomes_stay.
Qed.

Lemma inv_work s i w w' ok s' :
  Inv s -> workers s !! i = Some w -> worker_step pools w ok s = Some (w', s') ->
  Inv (set_workers (<[i := w']> (workers s')) s').
Proof.
  intros HI Hi H. pose proof (inv_workers s HI i w Hi) as Hok.
  destruct w as [| |p t|p t|p t|p t e|p t e|t e]; cbn in H, Hok; [|done| | | | | |].
  - destruct (stopping s); [simplify_eq; by eapply inv_phase|].
    destruct (next_pool pools s) as [p|]; [|done]. destruct (queues s p) as [|t q] eqn:Eq; [done|].
    simplify_eq. exact (inv_take s i p t q HI Hi Eq).
  - simplify_eq. destruct Hok as [Ho Hs].
    assert (Future.cancelled (future_of t s') = true -> future_of t s' = Future.CANCELLED).
    { destruct Hs as [->| ->]; done. }
    destruct (Future.cancelled _); eapply inv_phase; try done. cbn. unfold ending_ok. auto.
  - destruct Hok as [Ho [Hs|Hs]]; rewrite Hs in H; cbn in H; simplify_eq; cbn [workers put_future set_futures].
    + eapply inv_worker_put; try done; cbn; rewrite ?is_task_same, ?Hs; try done.
      * intros n. case_decide; lia.
      * intros q o Hin. pose proof (uncounted_holds s HI (tid t) i _ Hi (is_task_same t)) as Hno.
        by destruct (no_outcomes _ _ _ Hno Hin).
      * split; [done|]. by rewrite future_of_put, decide_True.
    + eapply inv_worker_put; try done; cbn; rewrite ?is_task_same, ?Hs; try done.
      * intros q [] _; cbn; unfold waiting_state; intuition congruence.
      * split; [done|]. unfold ending_ok. by rewrite future_of_put, decide_True.
  - simplify_eq. destruct Hok as [Ho Hs]. eapply inv_phase; try done.
  - simplify_eq. exact (inv_count s i p t e HI Hi).
  - simplify_eq. exact (inv_free s i p t e HI Hi).
  - destruct e as [| |b]; simplify_eq; unfold ending_ok in Hok.
    + unfold notify. rewrite Hok. cbn.
      eapply inv_worker_put; try done; cbn; rewrite ?is_task_same, ?Hok; try done.
      intros q [] _; cbn; unfold waiting_state; intuition congruence.
    + by eapply inv_phase.
    + rewrite Hok. cbn. eapply inv_worker_put; try done; cbn; rewrite ?is_task_same, ?Hok; try done.
      intros q [] _; cbn; unfold waiting_state; intuition congruence.
Qed.

(** ** Every step of a caller keeps the invariant *)

Lemma inv_caller_phase s s' j c c' :
  Inv s -> callers s !! j = Some c -> callers s' = <[j := c']> (callers s) -> workers s' = workers s ->
  same_rest s s' -> running s' = running s -> queues s' = queues s -> tasks_total s' = tasks_total s ->
  pending_gauge s' = pending_gauge s -> evolves s s' -> (forall n, final n s' = final n s) ->
  (forall n, owes_caller n c' = owes_caller n c) -> caller_ok s' c' ->
  Inv s'.
Proof.
  intros HI Hj Hc Hw Hre Hru Hq Ht Hg He Hf Hn Hok.
  eapply (inv_caller_step s s' j c c' None); try done.
  - intros n. unfold queued_anywhere. by rewrite Hq, Hn, Hf.
  - intros n. unfold queued_anywhere, outcomes_of. by rewrite Hq, Ht.
  - intros p. by rewrite Hq, Hg.
  - intros p. by rewrite Hq.
  - by eapply outcomes_stay.
Qed.

Lemma inv_caller_put s j t :
  Inv s -> callers s !! j = Some (Notifying t false) -> future_of t s = Future.CANCELLED ->
  Inv (set_callers (<[j := Gone]> (callers s)) (put_future t Future.CANCELLED_AND_NOTIFIED s)).
Proof.
  intros HI Hj Hs. set (s' := set_callers _ _).
  assert (resolves (tid t) s s') as Hres by (eapply resolves_put; try done; by rewrite Hs).
  assert (final (tid t) s = 0) as Hfin.
  { eapply (caller_holds s HI (tid t) j); [exact Hj|]. cbn. apply is_task_same. }
  eapply (inv_caller_step s s' j _ Gone (Some (tid t))); try done.
  - intros n [= <-]. cbn. apply is_task_same.
  - intros n. change (queued_anywhere n s') with (queued_anywhere n s).
    change (final n s') with (final n (put_future t Future.CANCELLED_AND_NOTIFIED s)). rewrite final_put. cbn.
    unfold is_task. destruct (decide (tid t = n)) as [<-|]; lia.
  - intros x Hxin. eapply outcomes_move; [exact Hres| | |exact Hxin|by apply (inv_outcomes s HI)].
    + intros t' Ht'. unfold future_of. cbn. by rewrite Ht', lookup_insert_eq.
    + intros t' p [] E Hin; rewrite (future_of_same t' t), Hs by done; cbn; unfold waiting_state;
        intuition congruence.
Qed.

(** Taking a cancelled task out of its queue counts it as canceled; its token goes on. *)
Definition taken_out p t s : State (Pool:=Pool) :=
  move_gauge p (-1) (count_task p t CANCELED
    (set_queues (upd (queues s) p (filter (fun t' => t' <> t) (queues s p))) s)).

Lemma taken_out_counts s p t :
  Inv s -> t ∈ queues s p ->
  (forall n, queued_anywhere n (taken_out p t s) + is_task n t = queued_anywhere n s)
  /\ (forall n, length (outcomes_of n (taken_out p t s)) = length (outcomes_of n s) + is_task n t)
  /\ (forall q, (pending_gauge (taken_out p t s) q + Z.of_nat (length (queues s q))
                 = pending_gauge s q + Z.of_nat (length (queues (taken_out p t s) q)))%Z)
  /\ (forall q, queues (taken_out p t s) q `sublist_of` queues s q).
Proof.
  intros HI Ht. destruct (queue_holds s HI p t Ht) as (Hone & _). destruct (removed t _ Ht Hone) as [Hn Hlen].
  split_and!.
  - intros n. pose proof (sum_upd (in_queue n) (queues s) p (filter (fun t' => t' <> t) (queues s p))) as H.
    specialize (Hn n). unfold queued_anywhere.
    change (queues (taken_out p t s)) with (upd (queues s) p (filter (fun t' => t' <> t) (queues s p))). lia.
  - intros n. unfold taken_out. unfold outcomes_of at 1. cbn. rewrite outcomes_snoc, length_app. unfold is_task.
    case_decide; cbn; lia.
  - intros q. cbn. destruct (decide (p = q)) as [<-|]; rewrite ?upd_same, ?upd_other by congruence; lia.
  - intros q. cbn. destruct (decide (p = q)) as [<-|]; rewrite ?upd_same, ?upd_other by congruence; [|done].
    apply sublist_filter_self.
Qed.

Lemma forget_removes p t s s' :
  forget_if_cancelled p t s = (true, s') -> t ∈ queues s p /\ s' = taken_out p t s.
Proof.
  unfold forget_if_cancelled. destruct (negb _); [done|]. destruct (bool_decide (tid t ∈ _)); [done|].
  case_bool_decide; [|done]. intros [= <-]. done.
Qed.
Lemma forget_keeps p t s s' : forget_if_cancelled p t s = (false, s') -> s' = s.
Proof.
  unfold forget_if_cancelled. destruct (negb _); [by intros [= <-]|].
  destruct (bool_decide (tid t ∈ _)); [by intros [= <-]|]. case_bool_decide; [done|]. by intros [= <-].
Qed.

Lemma inv_forget s j p t releasing :
  Inv s -> callers s !! j = Some (Forgetting p t releasing) -> t ∈ queues s p ->
  Inv (set_callers (<[j := Notifying t releasing]> (callers s)) (taken_out p t s)).
Proof.
  intros HI Hj Ht. set (s' := set_callers _ _). destruct (inv_callers s HI j _ Hj) as (Ho & Hc & Hr).
  assert (evolves s s') as Hev by (by apply evolves_refl).
  destruct (queue_holds s HI p t Ht) as (_ & _ & _ & Hfree & _).
  destruct releasing.
  { specialize (Hfree j _ Hj ltac:(done)). cbn in Hfree. by rewrite is_task_same in Hfree. }
  assert (future_of t s = Future.CANCELLED) as Hs.
  { destruct (inv_queue s HI p t Ht) as [_ [Hp|Hp]]; [by rewrite Hp in Hc|done]. }
  destruct (taken_out_counts s p t HI Ht) as (Hq & Hout & Hg & Hsub).
  eapply (inv_caller_step s s' j _ _ None); try done.
  - intros n. specialize (Hq n). change (queued_anywhere n s') with (queued_anywhere n (taken_out p t s)).
    change (final n s') with (final n s). cbn. lia.
  - intros n. specialize (Hq n). specialize (Hout n).
    change (queued_anywhere n s') with (queued_anywhere n (taken_out p t s)).
    change (outcomes_of n s') with (outcomes_of n (taken_out p t s)). lia.
  - eapply outcomes_counted; [done..|]. change (future_of t s') with (future_of t s). rewrite Hs. cbn.
    unfold waiting_state. auto.
Qed.

Lemma inv_help s j c c' s' :
  Inv s -> callers s !! j = Some c -> caller_step c s = Some (c', s') ->
  Inv (set_callers (<[j := c']> (callers s')) s').
Proof.
  intros HI Hj H. pose proof (inv_callers s HI j c Hj) as Hok.
  destruct c as [p t r|p t r|t r|]; cbn in H, Hok; [| | |done].
  - destruct Hok as [Ho Hr]. destruct (Future.cancel (future_of t s)) as [a f] eqn:Ef. simplify_eq.
    cbn [callers put_future set_futures]. case_bool_decide as Hp.
    + rewrite Hp in Ef. cbn in Ef. simplify_eq.
      assert (evolves s (set_callers (<[j := Forgetting p t r]> (callers s)) (put_future t Future.CANCELLED s)))
        as He by (by eapply evolves_cancel; [..|eexists]).
      eapply inv_caller_phase; try done.
      * intros n. change (final n (set_callers _ _)) with (final n (put_future t Future.CANCELLED s)).
        rewrite final_put. case_decide as E; [|done]. unfold final. rewrite <- E. unfold future_of in Hp.
        destruct (futures s !! tid t) as [[]|]; done.
      * cbn. split; [done|]. change (future_of t (set_callers _ _)) with (future_of t (put_future t Future.CANCELLED s)).
        rewrite future_of_put, decide_True by done. done.
    + assert (f = future_of t s /\ futures s !! tid t = Some f) as [Hf Hl].
      { unfold future_of in *. destruct (futures s !! tid t) as [[]|]; cbn in *; simplify_eq; done. }
      clear Ef. subst f.
      set (s' := set_callers _ _).
      assert (forall t', future_of t' s' = future_of t' s) as Hsame.
      { intros t'. change (future_of t' s') with (future_of t' (put_future t (future_of t s) s)).
        rewrite future_of_put. case_decide as E; [by apply future_of_same|done]. }
      eapply (inv_caller_phase s s' j); try done.
      * split; [done|]. intros t'. left. apply Hsame.
      * intros n. change (final n s') with (final n (put_future t (future_of t s) s)). rewrite final_put.
        case_decide as E; [|done]. unfold final. by rewrite <- E, Hl.
      * by destruct r.
      * destruct r; [|done]. cbn. rewrite Hsame. split; [|done]. by destruct (Hr eq_refl).
  - destruct Hok as (Ho & Hc & Hr). destruct (forget_if_cancelled p t s) as [go s1] eqn:Ef. simplify_eq.
    destruct go.
    + apply forget_removes in Ef as [Ht ->]. exact (inv_forget s j p t r HI Hj Ht).
    + apply forget_keeps in Ef as ->. eapply inv_caller_phase; try done.
      * by apply evolves_refl.
      * by destruct r.
      * destruct r; [|done]. split; [exact (Hr eq_refl)|done].
  - destruct Hok as [Hs ->]. simplify_eq. unfold notify. rewrite Hs. cbn. by apply inv_caller_put.
Qed.

(** ** What the callers start keeps the invariant *)

Lemma inv_discarded s p t :
  Inv s -> t ∈ queues s p -> future_of t s = Future.PENDING ->
  Inv (put_future t Future.CANCELLED_AND_NOTIFIED (taken_out p t s)).
Proof.
  intros HI Ht Hp. set (s' := put_future _ _ _). destruct (inv_queue s HI p t Ht) as [Ho _].
  destruct (queue_holds s HI p t Ht) as (_ & Hq0 & Hfw & Hfc & Hfin & Hout).
  destruct (taken_out_counts s p t HI Ht) as (Hq & Hlen & Hg & Hsub).
  assert (resolves (tid t) s s') as Hres by (eapply resolves_put; [done..| |]; by rewrite Hp).
  change (pending_gauge (taken_out p t s)) with (pending_gauge s') in Hg.
  constructor; try apply HI.
  - intros t' Ht'. change (callbacks s') with (callbacks s) in Ht'. unfold owned in Ho.
    rewrite (proj1 (proj2 Hres)) by congruence. by apply (inv_unborn s HI).
  - intros n. change (accepted n s') with (accepted n s). rewrite <- (inv_tokens s HI n). unfold tokens.
    change (queued_anywhere n s') with (queued_anywhere n (taken_out p t s)).
    change (workers s') with (workers s). change (callers s') with (callers s).
    change (final n s') with (final n (put_future t Future.CANCELLED_AND_NOTIFIED (taken_out p t s))).
    rewrite final_put. change (final n (taken_out p t s)) with (final n s). specialize (Hq n).
    unfold is_task in Hq. destruct (decide (tid t = n)) as [<-|]; cbn; lia.
  - intros n. change (accepted n s') with (accepted n s). rewrite <- (inv_places s HI n). unfold places.
    specialize (Hq n). specialize (Hlen n). change (queued_anywhere n s') with (queued_anywhere n (taken_out p t s)).
    change (outcomes_of n s') with (outcomes_of n (taken_out p t s)). change (workers s') with (workers s). lia.
  - intros q t' Ht'. change (queues s') with (queues (taken_out p t s)) in Ht'.
    assert (in_queue (tid t) (queues (taken_out p t s) q) = 0) as Hz.
    { assert (queued_anywhere (tid t) (taken_out p t s) = 0); [|by apply queued_zero].
      specialize (Hq (tid t)). rewrite is_task_same in Hq. pose proof (tokens_le s HI (tid t)) as Hle.
      unfold tokens in Hle. lia. }
    eapply queue_resolves; [exact Hres|exact Hz|exact Ht'|].
    apply (inv_queue s HI). eapply elem_of_submseteq; [exact Ht'|by apply sublist_submseteq, Hsub].
  - intros i w Hi. eapply worker_resolves; [exact Hres|by apply (Hfw i w Hi)|by apply (inv_workers s HI i)].
  - intros j c Hj. eapply caller_resolves; [exact Hres|by apply (Hfc j c Hj)|by apply (inv_callers s HI j)].
  - intros x [Hx| ->%list_elem_of_singleton]%elem_of_app.
    + eapply outcome_resolves; [exact Hres|by eapply no_outcomes|by apply (inv_outcomes s HI)].
    + exists t. split; [done|]. split; [done|]. right.
      unfold s'. by rewrite future_of_put, decide_True.
  - intros q. specialize (Hg q). pose proof (inv_gauge s HI q).
    change (workers s') with (workers s). change (queues s') with (queues (taken_out p t s)). lia.
  - intros q. pose proof (inv_limit s HI q). pose proof (sublist_length _ _ (Hsub q)). unfold pending in *.
    change (running s') with (running s). change (queues s') with (queues (taken_out p t s)). lia.
  - intros q. eapply sublist_NoDup; [apply (inv_keys s HI q)|]. apply sublist_omap, Hsub.
Qed.

(** What cancelling a waiting task with the lock held comes to. *)
Lemma cancel_locked_run s p t :
  t ∈ queues s p -> tid t ∉ replaced s ->
  waiting_state (future_of t s) ->
  cancel_locked p t s =
    (true, if decide (future_of t s = Future.PENDING)
           then put_future t Future.CANCELLED_AND_NOTIFIED (taken_out p t (put_future t Future.CANCELLED s))
           else s).
Proof.
  intros Ht Hr [Hp|Hc]; unfold cancel_locked; [rewrite Hp|rewrite Hc; by rewrite decide_False].
  rewrite decide_True by done. unfold forget_if_cancelled. rewrite future_of_put, decide_True by done. cbn [negb Future.cancelled].
  rewrite bool_decide_false by done. rewrite bool_decide_true by done. cbn [fst].
  fold (taken_out p t (put_future t Future.CANCELLED s)). f_equal. unfold notify.
  change (future_of t (taken_out p t (put_future t Future.CANCELLED s))) with (future_of t (put_future t Future.CANCELLED s)).
  by rewrite future_of_put, decide_True.
Qed.

Lemma discarded_twice s p t f :
  put_future t f (taken_out p t (put_future t Future.CANCELLED s)) = put_future t f (taken_out p t s).
Proof. unfold put_future, taken_out, set_futures. cbn. by rewrite insert_insert_eq. Qed.

(** ** Waiting tasks

    Nobody forgets a waiting task: one whose caller cancelled it has that caller on its way
    to take it out, and once the executor stops ([b]) every waiting task is such a one. *)
Record Waiting (b : bool) s : Prop := {
  wa_replaced : forall p t, t ∈ queues s p -> tid t ∉ replaced s;
  wa_fresh : forall n, n ∈ replaced s -> n < next_id s;
  wa_forget : forall p t, t ∈ queues s p -> future_of t s = Future.CANCELLED ->
    exists j r, callers s !! j = Some (Forgetting p t r);
  wa_stopping : b = true -> forall p t, t ∈ queues s p -> future_of t s <> Future.PENDING
}.

Lemma waiting_keep b s s' :
  Waiting b s ->
  (forall q t, t ∈ queues s' q -> t ∈ queues s q /\ future_of t s' = future_of t s) ->
  replaced s' = replaced s -> next_id s <= next_id s' ->
  (forall j p t r, callers s !! j = Some (Forgetting p t r) -> t ∈ queues s' p ->
     callers s' !! j = Some (Forgetting p t r)) ->
  Waiting b s'.
Proof.
  intros HW Hq Hr Hn Hc. constructor.
  - intros p t Ht. rewrite Hr. by eapply (wa_replaced b s HW), Hq.
  - intros n. rewrite Hr. intros H. eapply Nat.lt_le_trans; [by apply (wa_fresh b s HW)|done].
  - intros p t Ht Hs. destruct (Hq p t Ht) as [Hin Hf]. rewrite Hf in Hs.
    destruct (wa_forget b s HW p t Hin Hs) as (j & r & Hj). exists j, r. by apply Hc.
  - intros Hb p t Ht. destruct (Hq p t Ht) as [Hin ->]. by apply (wa_stopping b s HW Hb p t).
Qed.

Lemma not_queued_put n t f s q t' :
  queued_anywhere n s = 0 -> tid t = n -> t' ∈ queues s q -> future_of t' (put_future t f s) = future_of t' s.
Proof.
  intros Hz Ht Hin. rewrite future_of_put, decide_False; [done|]. rewrite Ht.
  eapply in_queue_zero; [apply (queued_zero n s Hz q)|done].
Qed.

Lemma waiting_work b s i w w' ok s' :
  Inv s -> Waiting b s -> workers s !! i = Some w -> worker_step pools w ok s = Some (w', s') ->
  Waiting b (set_workers (<[i := w']> (workers s')) s').
Proof.
  intros HI HW Hi H. pose proof (inv_workers s HI i w Hi) as Hok.
  assert (forall t f, owes_worker (tid t) w = 1 ->
            forall q t', t' ∈ queues s q -> t' ∈ queues s q /\ future_of t' (put_future t f s) = future_of t' s) as Hput.
  { intros t f Hw q t' Hin. split; [done|]. eapply not_queued_put; [|done|exact Hin].
    by eapply worker_holds. }
  destruct w as [| |p t|p t|p t|p t e|p t e|t e]; cbn in H, Hok; [|done| | | | | |].
  - destruct (stopping s) eqn:Es; [simplify_eq; by eapply waiting_keep|].
    destruct (next_pool pools s) as [p|]; [|done]. destruct (queues s p) as [|t q] eqn:Eq; [done|].
    simplify_eq. eapply waiting_keep; [exact HW| |done..]. intros r t' Ht'. cbn in Ht'. split; [|done].
    destruct (decide (p = r)) as [<-|]; rewrite ?upd_same, ?upd_other in Ht' by congruence; [|done].
    rewrite Eq. apply elem_of_cons. by right.
  - simplify_eq. by eapply waiting_keep.
  - destruct Hok as [Ho [Hs|Hs]]; rewrite Hs in H; cbn in H; simplify_eq;
      (eapply waiting_keep; [exact HW| |done..]; apply Hput; cbn; apply is_task_same).
  - simplify_eq. by eapply waiting_keep.
  - simplify_eq. by eapply waiting_keep.
  - simplify_eq. by eapply waiting_keep.
  - destruct e as [| |r]; simplify_eq; unfold ending_ok in Hok.
    + unfold notify. rewrite Hok. cbn. eapply waiting_keep; [exact HW| |done..]. apply Hput; cbn; apply is_task_same.
    + by eapply waiting_keep.
    + rewrite Hok. cbn. eapply waiting_keep; [exact HW| |done..]. apply Hput; cbn; apply is_task_same.
Qed.

Lemma waiting_help b s j c c' s' :
  Inv s -> Waiting b s -> callers s !! j = Some c -> caller_step c s = Some (c', s') ->
  Waiting b (set_callers (<[j := c']> (callers s')) s').
Proof.
  intros HI HW Hj H. pose proof (inv_callers s HI j c Hj) as Hok.
  assert (forall k p t r c1, callers s !! k = Some (Forgetting p t r) -> k <> j ->
            <[j := c1]> (callers s) !! k = Some (Forgetting p t r)) as Hothers.
  { intros k p t r c1 Hk Hne. by rewrite list_lookup_insert_ne. }
  destruct c as [p t r|p t r|t r|]; cbn in H, Hok; [| | |done].
  - destruct Hok as [Ho Hr]. destruct (Future.cancel (future_of t s)) as [a f] eqn:Ef. simplify_eq.
    set (s' := set_callers _ _).
    assert (forall k p' t' r', callers s !! k = Some (Forgetting p' t' r') -> callers s' !! k = Some (Forgetting p' t' r')) as Hc.
    { intros k p' t' r' Hk. cbn. apply Hothers; [done|]. intros ->. congruence. }
    assert (forall t', future_of t' s' = if decide (tid t' = tid t) then f else future_of t' s) as Hf
      by (intros t'; apply future_of_put).
    constructor.
    + apply (wa_replaced b s HW).
    + apply (wa_fresh b s HW).
    + intros q t' Ht' Hs'. rewrite Hf in Hs'. destruct (decide (tid t' = tid t)) as [E|E].
      2:{ destruct (wa_forget b s HW q t' Ht' Hs') as (k & r' & Hk). exists k, r'. by apply Hc. }
      assert ((q, t') = (p, t)) as [= -> ->].
      { destruct (inv_queue s HI q t' Ht') as [Ho' _]. unfold owned in *. rewrite E in Ho'. congruence. }
      destruct (decide (future_of t s = Future.PENDING)) as [Hp|Hp].
      * exists j, r. cbn. rewrite bool_decide_true by done.
        apply list_lookup_insert_eq. by eapply lookup_lt_Some.
      * assert (future_of t s = Future.CANCELLED) as Hs2.
        { destruct (inv_queue s HI p t Ht') as [_ [?|?]]; done. }
        destruct (wa_forget b s HW p t Ht' Hs2) as (k & r' & Hk). exists k, r'. by apply Hc.
    + intros Hb q t' Ht'. rewrite Hf. case_decide as E; [|by apply (wa_stopping b s HW Hb q)].
      destruct (future_of t s); cbn in Ef; simplify_eq; done.
  - destruct Hok as (Ho & Hc & Hr). destruct (forget_if_cancelled p t s) as [go s1] eqn:Ef. simplify_eq.
    destruct go.
    + apply forget_removes in Ef as [Ht ->]. destruct (taken_out_counts s p t HI Ht) as (Hq & _ & _ & Hsub).
      eapply waiting_keep; [exact HW| |done|done|].
      * intros q t' Ht'. split; [|done]. eapply elem_of_submseteq; [exact Ht'|by apply sublist_submseteq, Hsub].
      * intros k p' t' r' Hk Ht'. cbn. apply Hothers; [done|]. intros ->. rewrite Hk in Hj.
        injection Hj as -> -> ->. cbn in Ht'. rewrite upd_same in Ht'.
        apply list_elem_of_filter in Ht' as [Hne _]. done.
    + pose proof Ef as Hs1. apply forget_keeps in Hs1 as ->. eapply waiting_keep; [exact HW|done|done|done|].
      intros k p' t' r' Hk Ht'. cbn. apply Hothers; [done|]. intros ->. rewrite Hk in Hj.
      injection Hj as -> -> ->. cbn in Ht'. unfold forget_if_cancelled in Ef. rewrite Hc in Ef. cbn in Ef.
      rewrite bool_decide_false in Ef by (by apply (wa_replaced b s HW p)). by rewrite bool_decide_true in Ef.
  - destruct Hok as [Hs ->]. simplify_eq. unfold notify. rewrite Hs. cbn.
    eapply waiting_keep; [exact HW| |done|done|].
    + intros q t' Ht'. split; [done|]. eapply not_queued_put; [|done|exact Ht'].
      eapply caller_holds; [done|exact Hj|]. cbn. apply is_task_same.
    + intros k p' t' r' Hk _. cbn. apply Hothers; [done|]. intros ->. congruence.
Qed.

(** ** Submitting *)

Lemma waiting_index_None p key s : waiting_index p key s = None -> key ∉ omap replace_key (queues s p).
Proof.
  unfold waiting_index. intros H%fmap_None%list_find_None (t & Ht & Hk)%list_elem_of_omap.
  by apply (proj1 (Forall_forall _ _) H t Ht).
Qed.
Lemma waiting_index_Some p key s i :
  waiting_index p key s = Some i -> exists t, queues s p !! i = Some t /\ replace_key t = Some key.
Proof.
  unfold waiting_index. intros ([j t] & (Hj & Hk & _)%list_find_Some & ->)%fmap_Some. by exists t.
Qed.

(** What [enqueue] does, by the three ways it ends. *)
Lemma enqueue_cases p t s :
  (exists reason, enqueue pool_limit p t s = (Some reason, None, s))
  \/ (stopping s = false /\ pending p s < pool_limit
      /\ (forall key, replace_key t = Some key -> key ∉ omap replace_key (queues s p))
      /\ enqueue pool_limit p t s
         = (None, None, move_gauge p 1 (set_queues (upd (queues s) p (queues s p ++ [t])) s)))
  \/ (stopping s = false /\ exists i old o,
      queues s p !! i = Some old /\ replace_key old = replace_key t
      /\ (o = CANCELED \/ o = REPLACED)
      /\ enqueue pool_limit p t s
         = (None, Some old,
            count_task p old o (set_replaced ({[tid old]} ∪ replaced s)
              (set_queues (upd (queues s) p (<[i := t]> (queues s p))) s)))).
Proof.
  unfold enqueue. destruct (stopping s); [left; by eexists|].
  destruct (replace_key t) as [key|] eqn:Ek; cbn.
  - destruct (waiting_index p key s) as [i|] eqn:Ei; cbn.
    + destruct (waiting_index_Some _ _ _ _ Ei) as (old & Hi & Hk). rewrite Hi. cbn. right; right. split; [done|].
      eexists i, old, _. split_and!; [done|done| |reflexivity]. destruct (Future.cancelled _); auto.
    + case_bool_decide; [left; by eexists|]. right; left. split_and!; [done|lia| |done].
      intros k [= <-]. by apply waiting_index_None.
  - case_bool_decide; [left; by eexists|]. right; left. split_and!; [done|lia|done|done].
Qed.

Definition registered p t s : State (Pool:=Pool) := set_callbacks (<[tid t := (p, t)]> (callbacks s)) s.

Section submitting.
Context b s (HI : Inv s) (HW : Waiting b s) (p : Pool) (t : Task) (Hfresh : next_id s <= tid t).

Lemma fresh_callbacks : callbacks s !! tid t = None.
Proof.
  destruct (callbacks s !! tid t) as [[q t']|] eqn:E; [|done].
  destruct (inv_fresh s HI _ _ _ E). lia.
Qed.
Lemma fresh_pending : future_of t s = Future.PENDING.
Proof. apply (inv_unborn s HI), fresh_callbacks. Qed.
Lemma fresh_tokens : tokens (tid t) s = 0 /\ places (tid t) s = 0.
Proof.
  rewrite (inv_tokens s HI), (inv_places s HI). unfold accepted. rewrite fresh_callbacks.
  rewrite decide_False; [done|]. by intros [? ?].
Qed.
Lemma fresh_accepted n s' :
  callbacks s' = <[tid t := (p, t)]> (callbacks s) -> accepted n s' = accepted n s + is_task n t.
Proof.
  intros Hc. unfold accepted, is_task. rewrite Hc. destruct (decide (tid t = n)) as [<-|E].
  - rewrite lookup_insert_eq, fresh_callbacks. rewrite decide_True by (by eexists).
    rewrite decide_False; [done|]. by intros [? ?].
  - rewrite lookup_insert_ne by done. lia.
Qed.

(** What every accepted task brings, whichever place it takes. *)
Lemma inv_accepted s' :
  callbacks s' = <[tid t := (p, t)]> (callbacks s) -> futures s' = futures s ->
  workers s' = workers s -> running s' = running s -> raised s' = raised s -> next_id s' = S (tid t) ->
  (forall n, queued_anywhere n s' + sum_list_with (owes_caller n) (callers s')
             = queued_anywhere n s + sum_list_with (owes_caller n) (callers s) + is_task n t) ->
  (forall n, queued_anywhere n s' + length (outcomes_of n s')
             = queued_anywhere n s + length (outcomes_of n s) + is_task n t) ->
  (forall q t', t' ∈ queues s' q -> t' ∈ queues s q \/ (q = p /\ t' = t)) ->
  (forall j c, callers s' !! j = Some c -> callers s !! j = Some c \/ caller_ok s' c) ->
  (forall x, x ∈ tasks_total s' -> x ∈ tasks_total s \/ outcome_ok s' x) ->
  (forall q, (pending_gauge s' q + Z.of_nat (length (queues s q))
              = pending_gauge s q + Z.of_nat (length (queues s' q)))%Z) ->
  (forall q, pending q s' <= pool_limit) -> (forall q, NoDup (omap replace_key (queues s' q))) ->
  Inv s'.
Proof.
  intros Hc Hf Hw Hru Hra Hid Htok Hpl Hq Hca Hout Hg Hlim Hkeys.
  assert (evolves s s') as He.
  { split; [|intros t'; left; unfold future_of; by rewrite Hf].
    intros n x Hx. rewrite Hc, lookup_insert_ne; [done|]. intros <-. by rewrite fresh_callbacks in Hx. }
  constructor.
  - intros n q t'. rewrite Hc, Hid. destruct (decide (tid t = n)) as [<-|E].
    + rewrite lookup_insert_eq. intros [= <- <-]. lia.
    + rewrite lookup_insert_ne by done. intros H. destruct (inv_fresh s HI n q t' H). lia.
  - intros t' Ht'. rewrite Hc in Ht'. apply lookup_insert_None in Ht' as [Ht' _].
    unfold future_of. rewrite Hf. by apply (inv_unborn s HI).
  - intros n. rewrite (fresh_accepted n s' Hc), <- (inv_tokens s HI n). unfold tokens. rewrite Hw.
    unfold final. rewrite Hf. specialize (Htok n). lia.
  - intros n. rewrite (fresh_accepted n s' Hc), <- (inv_places s HI n). unfold places. rewrite Hw.
    specialize (Hpl n). lia.
  - intros q t' [Ht'|[-> ->]]%Hq.
    + eapply (queue_moves None); [exact He|done|exact Ht'|by apply (inv_queue s HI)].
    + split; [unfold owned; by rewrite Hc, lookup_insert_eq|]. left. unfold future_of. rewrite Hf. apply fresh_pending.
  - intros i w. rewrite Hw. intros Hi. by eapply worker_evolves, (inv_workers s HI i).
  - intros j c Hj. destruct (Hca j c Hj) as [H|H]; [|done]. by eapply caller_evolves, (inv_callers s HI j).
  - intros x Hx. destruct (Hout x Hx) as [H|H]; [|done]. by eapply outcome_evolves, (inv_outcomes s HI).
  - intros q. rewrite Hru, Hw. apply (inv_running s HI).
  - intros q. rewrite Hw. specialize (Hg q). pose proof (inv_gauge s HI q). lia.
  - done.
  - done.
  - rewrite Hra. apply (inv_raised s HI).
  - rewrite Hw. apply (inv_threads s HI).
Qed.

(** Waiting tasks that stay wait as before; the new one is pending. *)
Lemma waiting_accepted s' :
  futures s' = futures s -> (b = true -> forall q, queues s' q = queues s q) -> next_id s' = S (tid t) ->
  (forall q t', t' ∈ queues s' q -> (t' ∈ queues s q \/ (q = p /\ t' = t)) /\ tid t' ∉ replaced s') ->
  (forall n, n ∈ replaced s' -> n ∈ replaced s \/ n < next_id s) ->
  (forall j q t' r, callers s !! j = Some (Forgetting q t' r) -> callers s' !! j = Some (Forgetting q t' r)) ->
  Waiting b s'.
Proof.
  intros Hf Hb Hid Hq Hre Hca. constructor.
  - intros q t' Ht'. by destruct (Hq q t' Ht').
  - intros n [H|H]%Hre; [pose proof (wa_fresh b s HW n H)|]; lia.
  - intros q t' [[Ht'|[-> ->]] _]%Hq Hs; unfold future_of in Hs; rewrite Hf in Hs.
    + destruct (wa_forget b s HW q t' Ht' Hs) as (j & r & Hj). exists j, r. by apply Hca.
    + pose proof fresh_pending as Hp. unfold future_of in Hp. congruence.
  - intros E q t'. rewrite Hb by done. unfold future_of. rewrite Hf. by apply (wa_stopping b s HW E).
Qed.
End submitting.

Lemma inv_next s n : Inv s -> next_id s <= n -> Inv (set_next_id n s).
Proof.
  intros HI Hn. constructor; try apply HI. intros m q t' H. destruct (inv_fresh s HI m q t' H).
  cbn. lia.
Qed.
Lemma waiting_next b s n : Waiting b s -> next_id s <= n -> Waiting b (set_next_id n s).
Proof. intros HW Hn. eapply waiting_keep; [exact HW|done|done|exact Hn|done]. Qed.

Lemma sum_snoc {A} (f : A -> nat) l x : sum_list_with f (l ++ [x]) = sum_list_with f l + f x.
Proof. rewrite sum_list_with_app. cbn. lia. Qed.

Lemma omap_replace (q : list Task) i old t :
  q !! i = Some old -> replace_key old = replace_key t ->
  omap replace_key (<[i := t]> q) = omap replace_key q.
Proof.
  revert i. induction q as [|x q IH]; intros [|i] Hi Hk; simpl in *; [done|done| |by rewrite IH].
  injection Hi as ->. by rewrite Hk.
Qed.

(** A task that replaces a waiting one. *)
Definition replacing p i t old o s : State (Pool:=Pool) :=
  set_callers (callers s ++ [Cancelling p old true])
    (registered p t
      (count_task p old o (set_replaced ({[tid old]} ∪ replaced s)
        (set_queues (upd (queues s) p (<[i := t]> (queues s p))) (set_next_id (S (tid t)) s))))).

Lemma inv_replacing s p i t old o :
  Inv s -> next_id s <= tid t -> queues s p !! i = Some old -> replace_key old = replace_key t ->
  o = CANCELED \/ o = REPLACED -> Inv (replacing p i t old o s).
Proof.
  intros HI Hfresh Hi Hk Ho. set (s' := replacing p i t old o s).
  pose proof (list_elem_of_lookup_2 _ _ _ Hi) as Hin. destruct (inv_queue s HI p old Hin) as [Hown Hst].
  assert (forall n, queued_anywhere n s' + is_task n old = queued_anywhere n s + is_task n t) as Hq.
  { intros n. pose proof (sum_upd (in_queue n) (queues s) p (<[i := t]> (queues s p))) as H.
    pose proof (sum_insert (is_task n) _ i old t Hi) as H'. fold (in_queue n) in H'. unfold in_queue in *.
    unfold queued_anywhere, in_queue.
    change (queues s') with (upd (queues s) p (<[i := t]> (queues s p))). lia. }
  assert (forall q, queues s' q = if decide (q = p) then <[i := t]> (queues s p) else queues s q) as Hqs by done.
  assert (forall n, outcomes_of n s' = outcomes_of n s ++ if decide (tid old = n) then [o] else []) as Hos
    by (intros n; exact (outcomes_snoc n s p (tid old) o)).
  apply (inv_accepted s HI p t Hfresh s'); try done.
  - intros n. specialize (Hq n). cbn [callers s' replacing set_callers]. rewrite sum_snoc. cbn. lia.
  - intros n. specialize (Hq n). rewrite Hos, length_app. unfold is_task in Hq |- *.
    destruct (decide (tid old = n)); cbn; lia.
  - intros q t'. rewrite Hqs. case_decide as E; [|by left]. subst q.
    intros [k [(_ & -> & _)|[_ Hk']]%list_lookup_insert_Some]%list_elem_of_lookup; [by right|].
    left. by eapply list_elem_of_lookup_2.
  - intros j c [Hj|[_ Hj]]%lookup_app_Some; [by left|]. right.
    apply list_lookup_singleton_Some in Hj as [_ <-]. cbn. split; [|by intros _].
    unfold owned in *. cbn. rewrite lookup_insert_ne; [done|]. intros E. rewrite <- E in Hown.
    by rewrite (fresh_callbacks s HI t Hfresh) in Hown.
  - intros x [Hx| ->%list_elem_of_singleton]%elem_of_app; [by left|]. right. exists old. cbn.
    split; [|split; [done|]].
    + unfold owned in *. cbn. rewrite lookup_insert_ne; [done|]. intros E. rewrite <- E in Hown.
      by rewrite (fresh_callbacks s HI t Hfresh) in Hown.
    + destruct Ho as [-> | ->]; by left.
  - intros q. change (pending_gauge s') with (pending_gauge s). rewrite Hqs.
    case_decide as E; [subst; rewrite length_insert|]; lia.
  - intros q. unfold pending. change (running s') with (running s). rewrite Hqs.
    pose proof (inv_limit s HI q). unfold pending in *. case_decide as E; [subst; rewrite length_insert|]; lia.
  - intros q. rewrite Hqs. case_decide as E; [|apply HI]. rewrite (omap_replace _ _ old) by done. apply HI.
Qed.

(** A task at the end of the queue. *)
Definition appending p t s : State (Pool:=Pool) :=
  registered p t (move_gauge p 1 (set_queues (upd (queues s) p (queues s p ++ [t])) (set_next_id (S (tid t)) s))).

Lemma inv_appending s p t :
  Inv s -> next_id s <= tid t -> pending p s < pool_limit ->
  (forall key, replace_key t = Some key -> key ∉ omap replace_key (queues s p)) ->
  Inv (appending p t s).
Proof.
  intros HI Hfresh Hlt Hk. set (s' := appending p t s).
  assert (forall n, queued_anywhere n s' = queued_anywhere n s + is_task n t) as Hq.
  { intros n. pose proof (sum_upd (in_queue n) (queues s) p (queues s p ++ [t])) as H.
    unfold in_queue at 4 in H. rewrite sum_snoc in H. fold (in_queue n (queues s p)) in H.
    unfold queued_anywhere. change (queues s') with (upd (queues s) p (queues s p ++ [t])). lia. }
  assert (forall q, queues s' q = if decide (q = p) then queues s p ++ [t] else queues s q) as Hqs by done.
  apply (inv_accepted s HI p t Hfresh s'); try done.
  - intros n. rewrite Hq. cbn [callers s' appending]. cbn. lia.
  - intros n. rewrite Hq. change (outcomes_of n s') with (outcomes_of n s). lia.
  - intros q t'. rewrite Hqs. case_decide as E; [|by left]. subst q.
    intros [H| ->%list_elem_of_singleton]%elem_of_app; [by left|by right].
  - by left.
  - by left.
  - intros q. rewrite Hqs. cbn. unfold upd. case_decide as E; [subst; rewrite length_app; cbn|]; lia.
  - intros q. unfold pending in *. change (running s') with (running s). rewrite Hqs.
    case_decide as E; [subst; rewrite length_app; cbn; lia|]. apply (inv_limit s HI).
  - intros q. rewrite Hqs. case_decide as E; [|apply HI]. subst q. rewrite omap_app. cbn.
    destruct (replace_key t) as [key|] eqn:Ek; [|rewrite app_nil_r; apply HI].
    apply NoDup_app. split; [apply HI|]. split; [|apply NoDup_singleton].
    intros k Hin ->%list_elem_of_singleton. by apply (Hk key).
Qed.

Lemma fresh_not_waiting s p t t' : Inv s -> next_id s <= tid t -> t' ∈ queues s p -> tid t' <> tid t.
Proof.
  intros HI Hfresh Hin E. destruct (inv_queue s HI p t' Hin) as [Ho _].
  destruct (inv_fresh s HI _ _ _ Ho). lia.
Qed.

Lemma waiting_replacing b s p i t old o :
  Inv s -> Waiting b s -> b = false -> next_id s <= tid t -> queues s p !! i = Some old ->
  Waiting b (replacing p i t old o s).
Proof.
  intros HI HW -> Hfresh Hi. pose proof (list_elem_of_lookup_2 _ _ _ Hi) as Hin.
  destruct (inv_queue s HI p old Hin) as [Hown _]. destruct (inv_fresh s HI _ _ _ Hown) as [Hlt _].
  destruct (queue_holds s HI p old Hin) as (Hone & Hzero & _).
  apply (waiting_accepted false s HI HW p t Hfresh); try done.
  - intros q t' Ht'. cbn in Ht'. destruct (decide (q = p)) as [->|E].
    + rewrite upd_same in Ht'. apply list_elem_of_lookup in Ht' as [k [(_ & -> & _)|[Hne Hk]]%list_lookup_insert_Some].
      * split; [by right|]. cbn. intros [H%elem_of_singleton|H]%elem_of_union; [lia|].
        pose proof (wa_fresh false s HW _ H). lia.
      * pose proof (list_elem_of_lookup_2 _ _ _ Hk) as Hin'. split; [by left|]. cbn.
        intros [H%elem_of_singleton|H]%elem_of_union; [|by eapply (wa_replaced false s HW)].
        pose proof (sum_two (is_task (tid old)) _ k i t' old Hk Hi ltac:(congruence)) as Hs.
        unfold in_queue in Hone. rewrite is_task_same in Hs. unfold is_task in Hs at 1.
        rewrite decide_True in Hs by done. lia.
    + rewrite upd_other in Ht' by done. split; [by left|]. cbn.
      intros [H%elem_of_singleton|H]%elem_of_union; [|by eapply (wa_replaced false s HW)].
      by eapply (in_queue_zero _ _ (Hzero q E)).
  - intros n. cbn. intros [->%elem_of_singleton|H]%elem_of_union; [right; done|by left].
  - intros j q t' r Hj. cbn. by apply lookup_app_l_Some.
Qed.

Lemma waiting_appending b s p t :
  Inv s -> Waiting b s -> b = false -> next_id s <= tid t -> Waiting b (appending p t s).
Proof.
  intros HI HW -> Hfresh. apply (waiting_accepted false s HI HW p t Hfresh); try done.
  - intros q t' Ht'. cbn in Ht'. destruct (decide (q = p)) as [->|E].
    + rewrite upd_same in Ht'. apply elem_of_app in Ht' as [Ht'| ->%list_elem_of_singleton].
      * split; [by left|]. by eapply (wa_replaced false s HW).
      * split; [by right|]. cbn. intros H. pose proof (wa_fresh false s HW _ H). lia.
    + rewrite upd_other in Ht' by done. split; [by left|]. by eapply (wa_replaced false s HW).
  - by left.
Qed.

(** What [submit] comes to: dropped, added or put in the place of another. *)
Lemma submit_cases p key s :
  let t := mk_task (next_id s) key in
  (exists reason, submit pool_limit p key s
     = set_dropped (dropped s ++ [(p, reason)]) (set_next_id (S (next_id s)) s))
  \/ (stopping s = false /\ pending p s < pool_limit
      /\ (forall k, key = Some k -> k ∉ omap replace_key (queues s p))
      /\ submit pool_limit p key s = appending p t s)
  \/ (stopping s = false /\ exists i old o, queues s p !! i = Some old /\ replace_key old = key
      /\ (o = CANCELED \/ o = REPLACED) /\ submit pool_limit p key s = replacing p i t old o s).
Proof.
  intros t. destruct (enqueue_cases p t (set_next_id (S (next_id s)) s)) as
    [[reason H]|[(Hst & Hlt & Hk & H)|(Hst & i & old & o & Hi & Hk & Ho & H)]].
  - left. exists reason. unfold submit. fold t. by rewrite H.
  - right; left. split_and!; [done..|]. unfold submit. fold t. by rewrite H.
  - right; right. split; [done|]. exists i, old, o. split_and!; [done..|]. unfold submit. fold t. by rewrite H.
Qed.

Lemma inv_submit p key s :
  Inv s -> Waiting (stopping s) s ->
  let s' := submit pool_limit p key s in Inv s' /\ Waiting (stopping s') s'.
Proof.
  intros HI HW s'. subst s'.
  destruct (submit_cases p key s) as [[reason ->]|[(Hst & Hlt & Hk & ->)|(Hst & i & old & o & Hi & Hk & Ho & ->)]].
  - pose proof (inv_next s (S (next_id s)) HI ltac:(lia)) as HI'.
    pose proof (waiting_next _ s (S (next_id s)) HW ltac:(lia)) as HW'.
    split; [constructor; apply HI'|constructor; apply HW'].
  - split; [by apply inv_appending|]. cbn. rewrite Hst in *. by apply waiting_appending.
  - split; [by apply inv_replacing|]. cbn. rewrite Hst in *. by apply waiting_replacing.
Qed.

(** ** Cancelling from outside *)

Lemma inv_caller_starts s p t :
  Inv s -> Waiting (stopping s) s -> callbacks s !! tid t = Some (p, t) ->
  let s' := set_callers (callers s ++ [Cancelling p t false]) s in Inv s' /\ Waiting (stopping s') s'.
Proof.
  intros HI HW Hc s'. split.
  - constructor; try apply HI.
    + intros n. rewrite <- (inv_tokens s HI n : tokens n s = accepted n s'). unfold tokens. cbn [callers s' set_callers].
      rewrite sum_snoc. cbn. change (queued_anywhere n s') with (queued_anywhere n s).
      change (workers s') with (workers s). change (final n s') with (final n s). lia.
    + intros j c [Hj|[_ Hj]]%lookup_app_Some; [by apply (inv_callers s HI j)|].
      apply list_lookup_singleton_Some in Hj as [_ <-]. by split.
  - eapply waiting_keep; [exact HW|done|done|done|]. intros j q t' r Hj _. cbn. by apply lookup_app_l_Some.
Qed.

(** One task cancelled with the lock held. *)
Lemma inv_cancel_locked s p t b :
  Inv s -> Waiting b s -> t ∈ queues s p ->
  let '(answer, s') := cancel_locked p t s in
  answer = true /\ Inv s' /\ Waiting b s' /\ stopping s' = stopping s
  /\ (forall q t', t' ∈ queues s' q -> t' ∈ queues s q /\ future_of t' s' = future_of t' s)
  /\ (forall q t', t' ∈ queues s q -> t' <> t -> t' ∈ queues s' q)
  /\ (t ∈ queues s' p -> future_of t s' <> Future.PENDING).
Proof.
  intros HI HW Ht. destruct (inv_queue s HI p t Ht) as [Hown Hst].
  rewrite (cancel_locked_run s p t Ht (wa_replaced b s HW p t Ht) Hst).
  destruct (decide (future_of t s = Future.PENDING)) as [Hp|Hp]; [|by split_and!].
  rewrite discarded_twice. set (s' := put_future _ _ _).
  destruct (taken_out_counts s p t HI Ht) as (_ & _ & _ & Hsub).
  assert (forall q t', t' ∈ queues s' q -> t' ∈ queues s q) as Hin.
  { intros q t' H. eapply elem_of_submseteq; [exact H|by apply sublist_submseteq, Hsub]. }
  assert (t ∉ queues s' p) as Hgone.
  { cbn. rewrite upd_same. by intros [? _]%list_elem_of_filter. }
  assert (forall q t', t' ∈ queues s' q -> t' ∈ queues s q /\ future_of t' s' = future_of t' s) as Hkeep.
  { intros q t' H. split; [by apply Hin|]. unfold s'. rewrite future_of_put, decide_False; [done|].
    intros E. destruct (inv_queue s HI q t' (Hin q t' H)) as [Ho' _]. unfold owned in *. rewrite E in Ho'.
    rewrite Hown in Ho'. injection Ho' as -> ->. done. }
  split_and!; [done|by apply inv_discarded| |done|done| |done].
  - by eapply waiting_keep.
  - intros q t' H Hne. cbn. destruct (decide (q = p)) as [->|E]; rewrite ?upd_same, ?upd_other by done; [|done].
    by apply list_elem_of_filter.
Qed.

Lemma inv_discard s p key :
  Inv s -> Waiting (stopping s) s ->
  let s' := snd (discard p key s) in Inv s' /\ Waiting (stopping s') s'.
Proof.
  intros HI HW. unfold discard. destruct (waiting_index p key s) as [i|]; [|done]. cbn.
  destruct (queues s p !! i) as [t|] eqn:Hi; [|done].
  pose proof (inv_cancel_locked s p t _ HI HW (list_elem_of_lookup_2 _ _ _ Hi)) as H.
  destruct (cancel_locked p t s) as [a s']. destruct H as (_ & HI' & HW' & Hs & _). cbn. by rewrite Hs.
Qed.

(** ** Shutting down *)

Definition none_pending p s : Prop := forall t, t ∈ queues s p -> future_of t s <> Future.PENDING.

Lemma cancel_list p (l : list Task) s :
  Inv s -> Waiting false s -> NoDup l -> (forall t, t ∈ l -> t ∈ queues s p) ->
  let s' := foldl (fun s t => snd (cancel_locked p t s)) s l in
  Inv s' /\ Waiting false s' /\ stopping s' = stopping s
  /\ (forall q t, t ∈ queues s' q -> t ∈ queues s q /\ future_of t s' = future_of t s)
  /\ (forall t, t ∈ l -> t ∈ queues s' p -> future_of t s' <> Future.PENDING).
Proof.
  revert s. induction l as [|t l IH]; intros s HI HW Hnd Hl; cbn; [split_and!; by try set_solver|].
  apply NoDup_cons in Hnd as [Hnin Hnd].
  pose proof (inv_cancel_locked s p t false HI HW (Hl t ltac:(set_solver))) as H.
  destruct (cancel_locked p t s) as [a s1]. destruct H as (_ & HI1 & HW1 & Hs1 & Hq1 & Hk1 & Hp1). cbn [snd].
  destruct (IH s1 HI1 HW1 Hnd) as (HI2 & HW2 & Hs2 & Hq2 & Hp2).
  { intros t' Ht'. apply Hk1; [apply Hl; set_solver|]. intros ->. done. }
  split_and!; [done|done|congruence| |].
  - intros q t' Ht'. destruct (Hq2 q t' Ht') as [Hin ->]. by apply Hq1.
  - intros t' [->|Ht']%elem_of_cons Hin; [|by apply Hp2].
    destruct (Hq2 p t Hin) as [Hin1 ->]. by apply Hp1.
Qed.

Lemma queue_NoDup s p : Inv s -> NoDup (queues s p).
Proof.
  intros HI. apply NoDup_alt. intros i j t Hi Hj. destruct (decide (i = j)) as [|Hne]; [done|].
  destruct (queue_holds s HI p t (list_elem_of_lookup_2 _ _ _ Hi)) as (Hone & _).
  pose proof (sum_two (is_task (tid t)) _ i j t t Hi Hj Hne) as H. rewrite is_task_same in H.
  unfold in_queue in Hone. lia.
Qed.

Lemma cancel_pools (l : list Pool) s :
  Inv s -> Waiting false s ->
  let s' := foldl (fun s p => cancel_all p s) s l in
  Inv s' /\ Waiting false s' /\ stopping s' = stopping s
  /\ (forall q t, t ∈ queues s' q -> t ∈ queues s q /\ future_of t s' = future_of t s)
  /\ (forall p, p ∈ l -> none_pending p s').
Proof.
  revert s. induction l as [|p l IH]; intros s HI HW; cbn; [split_and!; by try set_solver|].
  destruct (cancel_list p (queues s p) s HI HW (queue_NoDup s p HI) ltac:(done)) as (HI1 & HW1 & Hs1 & Hq1 & Hp1).
  destruct (IH _ HI1 HW1) as (HI2 & HW2 & Hs2 & Hq2 & Hp2). fold (cancel_all p s) in *.
  split_and!; [done|done|congruence| |].
  - intros q t Ht. destruct (Hq2 q t Ht) as [Hin ->]. by apply Hq1.
  - intros q [->|Hq]%elem_of_cons; [|by apply Hp2]. intros t Ht. destruct (Hq2 p t Ht) as [Hin ->].
    apply Hp1; [|done]. by apply Hq1.
Qed.

Lemma inv_shutdown s :
  Inv s -> Waiting (stopping s) s ->
  let s' := shutdown pools s in Inv s' /\ Waiting (stopping s') s' /\ stopping s' = true.
Proof.
  intros HI HW. unfold shutdown. set (s0 := set_stopping true s).
  assert (Inv s0) as HI0 by (constructor; apply HI).
  assert (Waiting false s0) as HW0 by (constructor; [apply HW|apply HW|apply HW|done]).
  destruct (cancel_pools pools s0 HI0 HW0) as (HI1 & HW1 & Hs1 & _ & Hp1). cbn zeta. rewrite Hs1.
  split_and!; [done| |done]. destruct HW1 as [H1 H2 H3 _]. constructor; [done..|]. intros _ p t. by apply Hp1.
Qed.

(** ** Every reachable state *)

(** What a worker or a caller does not change. *)
Lemma work_keeps w w' ok s s' :
  worker_step pools w ok s = Some (w', s') ->
  stopping s' = stopping s /\ workers s' = workers s /\ callers s' = callers s.
Proof.
  destruct w as [| |p t|p t|p t|p t e|p t e|t e]; cbn; intros H; simplify_eq; try done.
  - destruct (stopping s) eqn:Hs; [by simplify_eq|]. destruct (next_pool pools s) as [p|]; [|done].
    destruct (queues s p); [done|]. by simplify_eq.
  - destruct (Future.set_running_or_notify_cancel _) as [[[] ?]|]; by simplify_eq.
  - destruct e as [| |b]; simplify_eq; [|done|]; unfold notify;
      [by destruct (Future.set_running_or_notify_cancel _) as [[]|]|by destruct (Future.set_result _)].
Qed.

Lemma help_keeps c c' s s' :
  caller_step c s = Some (c', s') ->
  stopping s' = stopping s /\ workers s' = workers s /\ callers s' = callers s.
Proof.
  destruct c as [p t r|p t r|t r|]; cbn; intros H; [| | |done].
  - destruct (Future.cancel _) as [a f]. by simplify_eq.
  - destruct (forget_if_cancelled p t s) as [[] s2] eqn:Ef; simplify_eq.
    + by apply forget_removes in Ef as [_ ->].
    + by apply forget_keeps in Ef as ->.
  - simplify_eq. unfold notify. by destruct (Future.set_running_or_notify_cancel _) as [[]|].
Qed.

Lemma reachable_inv s :
  reachable pools max_workers pool_limit s -> Inv s /\ Waiting (stopping s) s.
Proof.
  induction 1 as [|a s s' _ [HI HW] Hstep].
  - split; [apply inv_new|]. constructor; cbn; set_solver.
  - destruct a as [p key|n|p key| |i ok|j]; cbn in Hstep; simplify_eq.
    + by apply inv_submit.
    + destruct (callbacks s !! n) as [[p t]|] eqn:Hc; [|done]. cbn in Hstep. simplify_eq.
      destruct (inv_fresh s HI _ _ _ Hc) as [_ <-]. by apply inv_caller_starts.
    + by apply inv_discard.
    + destruct (inv_shutdown s HI HW) as (? & ? & _). done.
    + destruct (workers s !! i) as [w|] eqn:Hi; [|done]. cbn in Hstep.
      destruct (worker_step pools w ok s) as [[w' s1]|] eqn:Hw; [|done]. cbn in Hstep. simplify_eq.
      split; [by eapply inv_work|]. cbn. destruct (work_keeps w w' ok s s1 Hw) as (-> & _).
      by eapply waiting_work.
    + destruct (callers s !! j) as [c|] eqn:Hj; [|done]. cbn in Hstep.
      destruct (caller_step c s) as [[c' s1]|] eqn:Hc; [|done]. cbn in Hstep. simplify_eq.
      split; [by eapply inv_help|]. cbn. destruct (help_keeps c c' s s1 Hc) as (-> & _).
      by eapply waiting_help.
Qed.
End executor.
