(* ===== verification/BackgroundExecutorProps.v ===== *)
(** * Correctness of the background executor

    Whatever way the threads interleave: the limits hold and [would_accept] is exact, a task
    has one outcome and its future is resolved once, and a shutdown drains the executor. *)

From S2P Require Import Prelude BackgroundExecutor BackgroundExecutorInv.

Local Open Scope string_scope.
Local Open Scope list_scope.
Local Open Scope nat_scope.

Section executor.
Context {Pool : Type} `{EqDecision Pool} (pools : list Pool).
Context (pools_NoDup : NoDup pools) (pools_all : forall p, p ∈ pools).
Context (max_workers pool_limit : nat).
Implicit Types (p : Pool) (t : Task) (s : State (Pool:=Pool)).

Local Notation Inv := (Inv pools max_workers pool_limit).
Local Notation reachable := (reachable pools max_workers pool_limit).

(** ** Limits *)

Lemma sum_swap {A B} (f : A -> B -> nat) (l : list A) (k : list B) :
  sum_list_with (fun a => sum_list_with (f a) k) l = sum_list_with (fun b => sum_list_with (fun a => f a b) l) k.
Proof.
  induction l as [|a l IH]; cbn; [induction k; cbn; [done|lia]|]. rewrite IH. clear IH.
  induction k as [|b k IH]; cbn; [done|]. lia.
Qed.

Lemma occupies_one w : sum_list_with (fun p => occupies p w) pools <= 1.
Proof.
  clear pools_all. assert (forall q, sum_list_with (fun p => if decide (q = p) then 1 else 0) pools <= 1) as Hq.
  { intros q. induction pools as [|p l IH]; cbn; [lia|].
    apply NoDup_cons in pools_NoDup as [Hp Hnd]. specialize (IH Hnd). case_decide as E; [|lia]. subst q.
    assert (sum_list_with (fun q => if decide (p = q) then 1 else 0) l = 0) as ->; [|lia].
    clear -Hp. induction l as [|q l IH]; [done|]. cbn. apply not_elem_of_cons in Hp as [Hq Hp].
    rewrite decide_False by done. by apply IH. }
  assert (sum_list_with (fun _ : Pool => 0) pools <= 1) as H0 by (clear; induction pools; cbn; lia).
  destruct w; cbn; auto.
Qed.

Lemma running_total s : Inv s -> sum_list_with (running s) pools <= max_workers.
Proof.
  intros HI. rewrite <- (inv_threads _ _ _ s HI).
  transitivity (sum_list_with (fun p => sum_list_with (occupies p) (workers s)) pools).
  - pose proof (inv_running _ _ _ s HI) as Hrun. clear HI pools_NoDup pools_all.
    induction pools as [|p l IH]; simpl; [done|]. rewrite (Hrun p). lia.
  - rewrite sum_swap. generalize (workers s) as ws. induction ws as [|w ws IH]; cbn; [done|].
    pose proof (occupies_one w). lia.
Qed.

Lemma enqueue_accepts p t s :
  would_accept pool_limit p (replace_key t) s = true <-> (enqueue pool_limit p t s).1.1 = None.
Proof.
  unfold would_accept, enqueue. destruct (stopping s); [done|].
  assert (bool_decide (pending p s < pool_limit) = negb (bool_decide (pool_limit <= pending p s))) as ->.
  { do 2 case_bool_decide; cbn; done || lia. }
  destruct (replace_key t) as [key|]; cbn.
  - destruct (waiting_index p key s) as [i|] eqn:Ei; cbn.
    + destruct (waiting_index_Some _ _ _ _ Ei) as (old & -> & _). cbn.
      by destruct (bool_decide (pool_limit <= _)).
    + by destruct (bool_decide (pool_limit <= _)).
  - by destruct (bool_decide (pool_limit <= _)).
Qed.

Lemma would_accept_submit s p key :
  would_accept pool_limit p key s = true <-> dropped (submit pool_limit p key s) = dropped s.
Proof.
  set (t := mk_task (next_id s) key). set (s0 := set_next_id (S (next_id s)) s).
  change (would_accept pool_limit p key s) with (would_accept pool_limit p (replace_key t) s0).
  rewrite enqueue_accepts. unfold submit. fold t s0.
  destruct (enqueue_cases pool_limit p t s0) as [[reason H]|[(_ & _ & _ & H)|(_ & i & old & o & _ & _ & _ & H)]];
    rewrite H; cbn; [|done|done]. split; [done|]. intros E%(f_equal length). rewrite length_app in E. cbn in E. lia.
Qed.

(** C14: whatever the threads and the callers did, a pool never has more tasks than its
    share, no more tasks run than there are threads, the tasks that wait in a pool have
    different keys, the gauge counts the waiting tasks and the running ones not yet counted,
    and [would_accept] answers exactly whether the next [submit] is dropped. *)
Theorem executor_limits s :
  reachable s ->
  sum_list_with (running s) pools <= max_workers
  /\ (forall p key, would_accept pool_limit p key s = true <-> dropped (submit pool_limit p key s) = dropped s)
  /\ forall p,
       length (queues s p) + running s p <= pool_limit
       /\ NoDup (omap replace_key (queues s p))
       /\ (Z.of_nat (length (queues s p)) <= pending_gauge s p
           <= Z.of_nat (length (queues s p) + running s p))%Z.
Proof.
  intros Hr. destruct (reachable_inv pools pools_NoDup pools_all _ _ s Hr) as [HI _].
  split; [by apply running_total|]. split; [apply would_accept_submit|]. intros p.
  split; [apply (inv_limit _ _ _ s HI)|]. split; [apply (inv_keys _ _ _ s HI)|].
  rewrite (inv_gauge _ _ _ s HI), (inv_running _ _ _ s HI).
  assert (sum_list_with (uncounted_in p) (workers s) <= sum_list_with (occupies p) (workers s)); [|lia].
  generalize (workers s) as ws. induction ws as [|w ws IH]; cbn; [done|]. destruct w; cbn; lia.
Qed.

(** ** Outcomes *)

Lemma elem_of_outcomes n s o : o ∈ outcomes_of n s -> exists p, (p, n, o) ∈ tasks_total s.
Proof.
  unfold outcomes_of. intros ([[p m] o'] & -> & [E Hin]%list_elem_of_filter)%list_elem_of_fmap. cbn in *.
  subst m. by exists p.
Qed.

Lemma finished_counted s n p t :
  Inv s -> callbacks s !! n = Some (p, t) -> future_of t s = Future.FINISHED -> length (outcomes_of n s) = 1.
Proof.
  intros HI Hc Hf. destruct (inv_fresh _ _ _ s HI n p t Hc) as [_ <-].
  pose proof (inv_tokens _ _ _ s HI (tid t)) as Ht. pose proof (inv_places _ _ _ s HI (tid t)) as Hp.
  unfold accepted in *. rewrite decide_True in * by (by eexists). unfold tokens, places in *.
  assert (final (tid t) s = 1) as Hfin.
  { unfold final, future_of in *. destruct (futures s !! tid t) as [f|]; cbn in Hf; [by subst|done]. }
  assert (sum_list_with (uncounted (tid t)) (workers s) = 0); [|lia].
  destruct (decide (0 < sum_list_with (uncounted (tid t)) (workers s))) as [Hpos|]; [|lia].
  destruct (sum_pos _ _ Hpos) as (i & w & Hi & Hw).
  pose proof (sum_zero (owes_worker (tid t)) _ _ _ Hi ltac:(lia)) as Ho.
  pose proof (inv_workers _ _ _ s HI i w Hi) as Hok.
  destruct w as [| |q u|q u|q u|q u e|q u e|u e]; cbn in *; try lia. destruct e; cbn in *; try lia.
  destruct Hok as [_ He]. unfold ending_ok, is_task in *. case_decide as E; [|lia].
  rewrite (future_of_same u t) in He by done. congruence.
Qed.

(** C15: no call on a future ever fails, so none is resolved or notified twice, and a task
    counts one outcome at most: one that did not run is never counted as completed or failed,
    one that ran never as canceled or replaced, and a finished future has counted its own. *)
Theorem executor_one_outcome s :
  reachable s ->
  raised s = []
  /\ forall n p t, callbacks s !! n = Some (p, t) ->
       tid t = n /\ length (outcomes_of n s) <= 1
       /\ (forall o, o ∈ outcomes_of n s -> good_outcome (future_of t s) o)
       /\ (future_of t s = Future.FINISHED -> outcomes_of n s = [COMPLETED] \/ outcomes_of n s = [FAILED]).
Proof.
  intros Hr. destruct (reachable_inv pools pools_NoDup pools_all _ _ s Hr) as [HI _].
  split; [apply (inv_raised _ _ _ s HI)|]. intros n p t Hc.
  destruct (inv_fresh _ _ _ s HI n p t Hc) as [_ <-].
  pose proof (places_le pools _ _ s HI (tid t)) as Hp. unfold places in Hp.
  assert (forall o, o ∈ outcomes_of (tid t) s -> good_outcome (future_of t s) o) as Hgood.
  { intros o [q Hin]%elem_of_outcomes. destruct (inv_outcomes _ _ _ s HI _ Hin) as (t' & _ & Ht & Hg). cbn in *.
    by rewrite (future_of_same t' t) in Hg. }
  split_and!; [done|lia|done|]. intros Hf. pose proof (finished_counted s _ _ _ HI Hc Hf) as Hlen.
  destruct (outcomes_of (tid t) s) as [|o [|]]; [done| |done]. specialize (Hgood o ltac:(set_solver)).
  rewrite Hf in Hgood. destruct o; cbn in Hgood; unfold waiting_state in Hgood; [by left|by right|..];
    destruct Hgood as [[]|]; done.
Qed.

(** ** Shutdown *)

Definition internal (a : Action (Pool:=Pool)) : Prop :=
  match a with Work _ _ | Help _ => True | _ => False end.

Definition work_left (w : Worker (Pool:=Pool)) : nat :=
  match w with
  | Idle => 1 | Exited => 0
  | Taken _ _ => 7 | Checked _ _ => 6 | Executing _ _ => 5
  | Finishing _ _ _ => 4 | Freeing _ _ _ => 3 | Resolving _ _ => 2
  end.
Definition call_left (c : Caller (Pool:=Pool)) : nat :=
  match c with
  | Cancelling _ _ _ => 4 | Forgetting _ _ _ => 3 | Notifying _ true => 2 | Notifying _ false => 1 | Gone => 0
  end.
Definition effort s : nat := sum_list_with work_left (workers s) + sum_list_with call_left (callers s).

Lemma worker_step_less w w' ok s s' :
  stopping s = true -> worker_step pools w ok s = Some (w', s') -> work_left w' < work_left w.
Proof.
  intros Hs. destruct w as [| |p t|p t|p t|p t e|p t e|t e]; cbn; [rewrite Hs| | | | | | |]; intros H; simplify_eq; cbn; try lia.
  - destruct (Future.cancelled _); cbn; lia.
  - destruct (Future.set_running_or_notify_cancel _) as [[[] ?]|]; simplify_eq; cbn; lia.
  - destruct e; cbn; lia.
  - destruct e; simplify_eq; cbn; lia.
Qed.

Lemma caller_step_less c c' s s' : caller_step c s = Some (c', s') -> call_left c' < call_left c.
Proof.
  destruct c as [p t r|p t r|t r|]; cbn; intros H; [| | |done].
  - destruct (Future.cancel _). simplify_eq. destruct (bool_decide _), r; cbn; lia.
  - destruct (forget_if_cancelled p t s) as [[] ?]; simplify_eq; destruct r; cbn; lia.
  - simplify_eq. destruct r; cbn; lia.
Qed.

Lemma internal_step_less a s s' :
  stopping s = true -> internal a -> step pools pool_limit a s = Some s' ->
  stopping s' = true /\ effort s' < effort s.
Proof.
  intros Hs. destruct a as [| | | |i ok|j]; cbn; try done; intros _ H; unfold effort.
  - destruct (workers s !! i) as [w|] eqn:Hi; [|done]. cbn in H.
    destruct (worker_step pools w ok s) as [[w' s1]|] eqn:Hw; [|done]. cbn in H. simplify_eq.
    destruct (work_keeps pools w w' ok s s1 Hw) as (Hs1 & Hws & Hcs). cbn. rewrite Hws, Hcs, Hs1. split; [done|].
    pose proof (sum_insert work_left _ i w w' Hi). pose proof (worker_step_less w w' ok s s1 Hs Hw). lia.
  - destruct (callers s !! j) as [c|] eqn:Hj; [|done]. cbn in H.
    destruct (caller_step c s) as [[c' s1]|] eqn:Hc; [|done]. cbn in H. simplify_eq.
    destruct (help_keeps c c' s s1 Hc) as (Hs1 & Hws & Hcs). cbn. rewrite Hws, Hcs, Hs1. split; [done|].
    pose proof (sum_insert call_left _ j c c' Hj). pose proof (caller_step_less c c' s s1 Hc). lia.
Qed.

(** Every thread is done and every task accepted is accounted for. *)
Definition drained s : Prop :=
  (forall p, queues s p = []) /\ (forall w, w ∈ workers s -> w = Exited) /\ (forall c, c ∈ callers s -> c = Gone)
  /\ forall n p t, callbacks s !! n = Some (p, t) ->
       Future.resolved (future_of t s) = true /\ length (outcomes_of n s) = 1.

Lemma worker_enabled s i w :
  stopping s = true -> workers s !! i = Some w -> w <> Exited -> is_Some (step pools pool_limit (Work i true) s).
Proof.
  intros Hs Hi Hw. cbn. rewrite Hi. cbn.
  assert (is_Some (worker_step pools w true s)) as [[w' s1] ->]; [|by eexists].
  destruct w as [| |p t|p t|p t|p t e|p t e|t []]; cbn; rewrite ?Hs; [by eexists|done|by eexists..].
Qed.
Lemma caller_enabled s j c :
  callers s !! j = Some c -> c <> Gone -> is_Some (step pools pool_limit (Help j) s).
Proof.
  intros Hj Hc. cbn. rewrite Hj. cbn. assert (is_Some (caller_step c s)) as [[c' s1] ->]; [|by eexists].
  destruct c as [p t r|p t r|t r|]; cbn; [| | |done].
  - destruct (Future.cancel _). by eexists.
  - destruct (forget_if_cancelled p t s). by eexists.
  - by eexists.
Qed.

Lemma sum_all_zero {A} (f : A -> nat) (l : list A) : (forall x, x ∈ l -> f x = 0) -> sum_list_with f l = 0.
Proof.
  induction l as [|x l IH]; intros H; cbn; [done|]. rewrite (H x), IH; [done| |]; intros; try apply H; set_solver.
Qed.

Lemma stuck_drained s :
  reachable s -> stopping s = true -> (forall a, internal a -> step pools pool_limit a s = None) -> drained s.
Proof.
  intros Hr Hs Hstuck. destruct (reachable_inv pools pools_NoDup pools_all _ _ s Hr) as [HI HW].
  assert (forall w, w ∈ workers s -> w = Exited) as Hws.
  { intros w [i Hi]%list_elem_of_lookup. destruct w; try done;
      (eapply worker_enabled in Hi as [? Hi]; [|done..]; by rewrite (Hstuck (Work i true)) in Hi). }
  assert (forall c, c ∈ callers s -> c = Gone) as Hcs.
  { intros c [j Hj]%list_elem_of_lookup. destruct c; try done;
      (eapply caller_enabled in Hj as [? Hj]; [|done..]; by rewrite (Hstuck (Help j)) in Hj). }
  assert (forall p, queues s p = []) as Hq.
  { intros p. destruct (queues s p) as [|t q] eqn:Eq; [done|].
    assert (t ∈ queues s p) as Hin by (rewrite Eq; set_solver).
    rewrite Hs in HW. destruct (inv_queue _ _ _ s HI p t Hin) as [_ [Hp|Hp]]; [by destruct (wa_stopping _ s HW eq_refl p t Hin)|].
    destruct (wa_forget _ s HW p t Hin Hp) as (j & r & Hj).
    by specialize (Hcs _ (list_elem_of_lookup_2 _ _ _ Hj)). }
  split_and!; [done..|]. intros n p t Hc. destruct (inv_fresh _ _ _ s HI n p t Hc) as [_ <-].
  pose proof (inv_tokens _ _ _ s HI (tid t)) as Ht. pose proof (inv_places _ _ _ s HI (tid t)) as Hp.
  unfold accepted in *. rewrite decide_True in * by (by eexists). unfold tokens, places in *.
  rewrite (sum_all_zero (owes_worker (tid t))) in Ht by (by intros w ->%Hws).
  rewrite (sum_all_zero (owes_caller (tid t))) in Ht by (by intros c ->%Hcs).
  rewrite (sum_all_zero (uncounted (tid t))) in Hp by (by intros w ->%Hws).
  assert (queued_anywhere pools (tid t) s = 0) as Hz by (apply sum_all_zero; intros q _; by rewrite Hq).
  split; [|lia]. unfold final in Ht. unfold future_of. destruct (futures s !! tid t) as [f|]; cbn; [|lia].
  destruct (Future.resolved f); [done|lia].
Qed.

(** C16: once [shutdown] asked, the threads end whatever way they interleave: no run of theirs
    is longer than the work they had left, and one that cannot go on has every worker out,
    nothing waiting, and the future of every task ever accepted resolved, with one outcome. *)
Theorem executor_drains s :
  reachable s -> stopping s = true ->
  (forall acts s', Forall internal acts -> exec pools pool_limit acts s = Some s' -> length acts <= effort s)
  /\ exists acts s', Forall internal acts /\ exec pools pool_limit acts s = Some s' /\ drained s'.
Proof.
  intros Hr Hs. split.
  - intros acts. revert s Hr Hs. induction acts as [|a acts IH]; intros s Hr Hs s' Hin H; cbn in *; [lia|].
    apply Forall_cons in Hin as [Ha Hin]. destruct (step pools pool_limit a s) as [s1|] eqn:E; [|done]. cbn in H.
    destruct (internal_step_less a s s1 Hs Ha E) as [Hs1 Hlt].
    specialize (IH s1 ltac:(by eapply reachable_step) Hs1 s' Hin H). lia.
  - remember (effort s) as k eqn:Hk. revert s Hr Hs Hk. induction k as [k IH] using lt_wf_ind. intros s Hr Hs ->.
    assert ((exists a, internal a /\ is_Some (step pools pool_limit a s)) \/ drained s) as [(a & Ha & s1 & E)|Hd].
    { destruct (decide (Forall (fun w => work_left w = 0) (workers s))) as [Hw|Hw].
      - destruct (decide (Forall (fun c => call_left c = 0) (callers s))) as [Hc|Hc].
        + right. apply stuck_drained; [done..|]. rewrite Forall_forall in Hw. rewrite Forall_forall in Hc.
          intros [| | | |i ok|j] Ha; try done; cbn.
          * destruct (workers s !! i) as [w|] eqn:Hi; [|done].
            specialize (Hw w (list_elem_of_lookup_2 _ _ _ Hi)). by destruct w.
          * destruct (callers s !! j) as [c|] eqn:Hj; [|done].
            specialize (Hc c (list_elem_of_lookup_2 _ _ _ Hj)). by destruct c as [| |? []|].
        + left. apply not_Forall_Exists, Exists_exists in Hc as (c & [j Hj]%list_elem_of_lookup & Hc); [|solve_decision].
          exists (Help j). split; [done|]. eapply caller_enabled; [exact Hj|]. intros ->. by apply Hc.
      - left. apply not_Forall_Exists, Exists_exists in Hw as (w & [i Hi]%list_elem_of_lookup & Hw); [|solve_decision].
        exists (Work i true). split; [done|]. eapply worker_enabled; [done|exact Hi|]. intros ->. by apply Hw. }
    2:{ exists [], s. split_and!; [constructor|done|done]. }
    destruct (internal_step_less a s s1 Hs Ha E) as [Hs1 Hlt].
    destruct (IH (effort s1) Hlt s1 ltac:(by eapply reachable_step) Hs1 eq_refl) as (acts & s' & Hin & Hex & Hd).
    exists (a :: acts), s'. split_and!; [by constructor| |done]. cbn. by rewrite E.
Qed.
End executor.

(** ** Concrete input

    One thread and room for two tasks: a task is replaced, its successor is taken, a third
    one is cancelled by its caller, and the executor is shut down. *)
Definition sample_actions : list (Action (Pool:=BackgroundPool)) :=
  [Submit RUNTIME_API (Some "job-1"); Submit RUNTIME_API (Some "job-1"); Work 0 true;
   Submit RUNTIME_API None; Cancel 2; Help 1; Shutdown].
Definition sample_state : State :=
  default (new_cycle 1) (exec all_pools 2 sample_actions (new_cycle 1)).

Lemma all_pools_NoDup : NoDup all_pools.
Proof. apply NoDup_singleton. Qed.
Lemma all_pools_all (p : BackgroundPool) : p ∈ all_pools.
Proof. destruct p. apply elem_of_cons. by left. Qed.

Lemma sample_reachable : reachable all_pools 1 2 sample_state.
Proof.
  unfold sample_state. destruct (exec _ _ _ _) as [s|] eqn:E; [|apply reachable_new].
  eapply reachable_exec; [apply reachable_new|exact E].
Qed.

Lemma executor_limits_witness :
  would_accept 2 RUNTIME_API (Some "job-2") sample_state = false
  /\ dropped (submit 2 RUNTIME_API (Some "job-2") sample_state) <> dropped sample_state.
Proof.
  assert (would_accept 2 RUNTIME_API (Some "job-2") sample_state = false) as Hw by (vm_compute; reflexivity).
  split; [exact Hw|]. intros Hd.
  pose proof (executor_limits all_pools all_pools_NoDup all_pools_all 1 2 sample_state sample_reachable) as (_ & H & _).
  apply H in Hd. rewrite Hw in Hd. discriminate Hd.
Defined.

Lemma executor_one_outcome_witness :
  outcomes_of 0 sample_state = [REPLACED] /\ future_of (mk_task 0 (Some "job-1")) sample_state <> Future.FINISHED.
Proof.
  assert (outcomes_of 0 sample_state = [REPLACED]) as Ho by (vm_compute; reflexivity).
  split; [exact Ho|]. intros Hf.
  pose proof (executor_one_outcome all_pools all_pools_NoDup all_pools_all 1 2 sample_state sample_reachable) as [_ H].
  destruct (H 0 RUNTIME_API (mk_task 0 (Some "job-1")) ltac:(vm_compute; reflexivity)) as (_ & _ & _ & Hfin).
  rewrite Ho in Hfin. destruct (Hfin Hf) as [E|E]; discriminate E.
Defined.

Lemma executor_drains_witness :
  stopping sample_state = true
  /\ exists acts s', Forall internal acts /\ exec all_pools 2 acts sample_state = Some s'
     /\ drained s' /\ length acts <= 20.
Proof.
  assert (stopping sample_state = true) as Hs by (vm_compute; reflexivity). split; [exact Hs|].
  pose proof (executor_drains all_pools all_pools_NoDup all_pools_all 1 2 sample_state sample_reachable Hs)
    as (Hbound & acts & s' & Hin & Hex & Hd).
  exists acts, s'. split; [exact Hin|]. split; [exact Hex|]. split; [exact Hd|].
  specialize (Hbound acts s' Hin Hex). etransitivity; [exact Hbound|]. vm_compute. lia.
Defined.
