(* ===== verification/Json.v ===== *)
(** * JSON documents

    What [json.loads] returns, the equality JSON Schema gives it and Python's own on numbers,
    depths and sizes. *)

From Stdlib Require Import QArith.
From S2P Require Import Prelude PyStr.

Local Open Scope string_scope.
Local Open Scope list_scope.
Local Open Scope Z_scope.

(** ** Numbers

    A Python [int], or a [float]: a finite one is [m * 2 ^ e]. [NaN] is a value [json.loads]
    accepts, and it hands out one object for it, which Python finds equal to itself inside a
    tuple. *)
Inductive Float := Finite (m e : Z) | PosInf | NegInf | NaN.
Inductive Number := IntNum (z : Z) | FloatNum (f : Float).
#[export] Instance Float_eq_dec : EqDecision Float.
Proof. solve_decision. Defined.
#[export] Instance Number_eq_dec : EqDecision Number.
Proof. solve_decision. Defined.

Definition finite_value (n : Number) : option Q :=
  match n with
  | IntNum z => Some (inject_Z z)
  | FloatNum (Finite m e) =>
      Some (if 0 <=? e then inject_Z (m * 2 ^ e) else Qmake m (Z.to_pos (2 ^ (- e))))
  | FloatNum _ => None
  end.

(** [a == b]. *)
Definition num_eqb (a b : Number) : bool :=
  match finite_value a, finite_value b with
  | Some p, Some q => Qeq_bool p q
  | None, None => bool_decide (a = b)
  | _, _ => false
  end.

(** [f.is_integer()] and [int(f)]. *)
Definition is_integer (f : Float) : bool :=
  match f with
  | Finite m e => (0 <=? e) || (m mod 2 ^ (- e) =? 0)
  | _ => false
  end.
Definition to_int (f : Float) : Z :=
  match f with
  | Finite m e => if 0 <=? e then m * 2 ^ e else m / 2 ^ (- e)
  | _ => 0
  end.

(** ** Documents *)

Inductive Json :=
  | JNull
  | JBool (b : bool)
  | JNum (n : Number)
  | JStr (s : string)
  | JArr (l : list Json)
  | JObj (m : list (string * Json)).        (* a dict, in its order *)

(** Induction with the hypothesis for every element. *)
Section ind.
Context (P : Json -> Prop).
Context (H_null : P JNull) (H_bool : forall b, P (JBool b)) (H_num : forall n, P (JNum n)).
Context (H_str : forall s, P (JStr s)).
Context (H_arr : forall l, Forall P l -> P (JArr l)).
Context (H_obj : forall m, Forall (fun kv => P kv.2) m -> P (JObj m)).

Fixpoint Json_all (v : Json) : P v :=
  match v with
  | JNull => H_null
  | JBool b => H_bool b
  | JNum n => H_num n
  | JStr s => H_str s
  | JArr l =>
      H_arr l ((fix go l := match l return Forall P l with
                            | [] => List.Forall_nil _
                            | x :: l' => List.Forall_cons _ x l' (Json_all x) (go l')
                            end) l)
  | JObj m =>
      H_obj m ((fix go m := match m return Forall (fun kv => P kv.2) m with
                            | [] => List.Forall_nil _
                            | kv :: m' => List.Forall_cons _ kv m' (Json_all kv.2) (go m')
                            end) m)
  end.
End ind.

(** [node.get(key)]. *)
Definition get_key (m : list (string * Json)) (key : string) : option Json :=
  snd <$> (snd <$> list_find (fun kv => kv.1 = key) m).

(** The values a container holds. *)
Definition children (v : Json) : list Json :=
  match v with JArr l => l | JObj m => m.*2 | _ => [] end.

Definition is_container (v : Json) : bool := match v with JArr _ | JObj _ => true | _ => false end.

(** What a parser can return: the keys of every object differ. *)
Inductive wf : Json -> Prop :=
  | wf_leaf v : is_container v = false -> wf v
  | wf_arr l : Forall wf l -> wf (JArr l)
  | wf_obj m : NoDup m.*1 -> Forall (fun kv => wf kv.2) m -> wf (JObj m).

(** JSON Schema equality: [true] is not [1], [1] is [1.0], arrays by position and objects by
    key. *)
Inductive json_equal : Json -> Json -> Prop :=
  | eq_null : json_equal JNull JNull
  | eq_bool b : json_equal (JBool b) (JBool b)
  | eq_num a b : num_eqb a b = true -> json_equal (JNum a) (JNum b)
  | eq_str s : json_equal (JStr s) (JStr s)
  | eq_arr l l' : Forall2 json_equal l l' -> json_equal (JArr l) (JArr l')
  | eq_obj m m' :
      (forall k, k ∈ m.*1 <-> k ∈ m'.*1) ->
      (forall k v w, (k, v) ∈ m -> (k, w) ∈ m' -> json_equal v w) ->
      json_equal (JObj m) (JObj m').

(** [bool(v)]. *)
Definition json_truthy (v : Json) : bool :=
  match v with
  | JNull | JBool false | JStr EmptyString | JArr [] | JObj [] => false
  | JNum x => negb (num_eqb x (IntNum 0))
  | _ => true
  end.

(** How many levels of containers lie above the deepest value, and how many values there are. *)
Fixpoint depth (v : Json) : nat :=
  match v with
  | JArr l => foldr (fun x n => Nat.max (S (depth x)) n) 0%nat l
  | JObj m => foldr (fun kv n => Nat.max (S (depth kv.2)) n) 0%nat m
  | _ => 0%nat
  end.
Fixpoint size (v : Json) : nat :=
  match v with
  | JArr l => S (foldr (fun x n => (size x + n)%nat) 0%nat l)
  | JObj m => S (foldr (fun kv n => (size kv.2 + n)%nat) 0%nat m)
  | _ => 1%nat
  end.
(** How many objects and booleans it holds. *)
Fixpoint nodes (v : Json) : nat :=
  match v with
  | JBool _ => 1%nat
  | JArr l => foldr (fun x n => (nodes x + n)%nat) 0%nat l
  | JObj m => S (foldr (fun kv n => (nodes kv.2 + n)%nat) 0%nat m)
  | _ => 0%nat
  end.

Lemma foldr_snd {B} (f : Json -> B -> B) b (m : list (string * Json)) :
  foldr (fun kv => f kv.2) b m = foldr f b m.*2.
Proof. induction m as [|kv m IH]; [done|]. cbn. by rewrite IH. Qed.

Lemma depth_children v :
  depth v = foldr (fun x n => Nat.max (S (depth x)) n) 0%nat (children v).
Proof. destruct v; try done. apply (foldr_snd (fun x n => Nat.max (S (depth x)) n)). Qed.
Lemma size_children v : size v = S (sum_list_with size (children v)).
Proof.
  assert (forall l, foldr (fun x n => (size x + n)%nat) 0%nat l = sum_list_with size l) as Hs
    by (induction l as [|x l IH]; [done|]; cbn; by rewrite IH).
  destruct v; cbn; rewrite ?(foldr_snd (fun x n => (size x + n)%nat)), ?Hs; done.
Qed.
Lemma nodes_children v :
  nodes v = (match v with JObj _ | JBool _ => 1 | _ => 0 end + sum_list_with nodes (children v))%nat.
Proof.
  assert (forall l, foldr (fun x n => (nodes x + n)%nat) 0%nat l = sum_list_with nodes l) as Hs
    by (induction l as [|x l IH]; [done|]; cbn; by rewrite IH).
  destruct v; cbn; rewrite ?(foldr_snd (fun x n => (nodes x + n)%nat)), ?Hs; done.
Qed.
