(* ===== verification/ArgumentsSchema.v ===== *)
(** * The schema of the arguments of a function ([api/domain/arguments_schema.py])

    The walks that bound a document before anything is evaluated, the key that decides
    [uniqueItems], and the walks over the references of a schema. *)

From S2P Require Import Prelude PyStr Json.

Local Open Scope string_scope.
Local Open Scope list_scope.

Definition MAX_SCHEMA_LENGTH : nat := 64 * 1024.
Definition MAX_DOCUMENT_DEPTH : nat := 64.
Definition MAX_SCHEMA_NODES : nat := 200.

(** ** Limits

    Both walks keep a stack, here with its top first: [extend] leaves the last value of a
    container on top. [None]: the fuel was not enough. *)
Fixpoint depth_walk (fuel : nat) (stack : list (Json * nat)) : option bool :=
  match stack, fuel with
  | [], _ => Some false
  | _, O => None
  | (node, d) :: stack, S fuel =>
      if bool_decide (MAX_DOCUMENT_DEPTH < d)%nat then Some true
      else depth_walk fuel (rev (map (fun item => (item, S d)) (children node)) ++ stack)
  end.
Definition exceeds_max_depth (v : Json) : option bool := depth_walk (size v) [(v, 0%nat)].

Definition is_node (v : Json) : bool := match v with JObj _ | JBool _ => true | _ => false end.

Fixpoint nodes_walk (fuel : nat) (seen : nat) (stack : list Json) : option bool :=
  match stack, fuel with
  | [], _ => Some false
  | _, O => None
  | node :: stack, S fuel =>
      let seen := if is_node node then S seen else seen in
      if is_node node && bool_decide (MAX_SCHEMA_NODES < seen)%nat then Some true
      else nodes_walk fuel seen (rev (children node) ++ stack)
  end.
Definition exceeds_max_nodes (v : Json) : option bool := nodes_walk (size v) 0 [v].

Definition type_name (v : Json) : string :=
  match v with
  | JNull => "NoneType"
  | JBool _ => "bool"
  | JNum (IntNum _) => "int"
  | JNum (FloatNum _) => "float"
  | JStr _ => "str"
  | JArr _ => "list"
  | JObj _ => "dict"
  end.
Definition schema_shape_error (schema : Json) : option string :=
  match schema with
  | JObj _ | JBool _ => None
  | _ => Some ("a JSON Schema must be an object or a boolean, not " +:+ type_name schema)
  end.

(** ** [uniqueItems] *)

(** What [_comparison_key] returns: a tagged tuple; an object is the set of its pairs. *)
Inductive Key :=
  | KBoolean (b : bool)
  | KNumber (n : Number)
  | KString (s : string)
  | KArray (l : list Key)
  | KObject (m : list (string * Key))
  | KOther (repr : string).

Fixpoint comparison_key (v : Json) : Key :=
  match v with
  | JBool b => KBoolean b
  | JNum (IntNum z) => KNumber (IntNum z)
  | JNum (FloatNum f) => KNumber (if is_integer f then IntNum (to_int f) else FloatNum f)
  | JStr s => KString s
  | JArr l => KArray (map comparison_key l)
  | JObj m => KObject (map (fun kv => (kv.1, comparison_key kv.2)) m)
  | JNull => KOther "None"
  end.

(** [==] on two such tuples: two frozensets are equal when each holds the pairs of the other. *)
Fixpoint key_eqb (a b : Key) : bool :=
  match a, b with
  | KBoolean x, KBoolean y => bool_decide (x = y)
  | KNumber x, KNumber y => num_eqb x y
  | KString x, KString y => bool_decide (x = y)
  | KArray l, KArray l' =>
      (fix go l l' := match l, l' with
                      | [], [] => true
                      | x :: l, y :: l' => key_eqb x y && go l l'
                      | _, _ => false
                      end) l l'
  | KObject m, KObject m' =>
      forallb (fun x => existsb (fun y => bool_decide (x.1 = y.1) && key_eqb x.2 y.2) m') m
      && forallb (fun y => existsb (fun x => bool_decide (x.1 = y.1) && key_eqb x.2 y.2) m) m'
  | KOther x, KOther y => bool_decide (x = y)
  | _, _ => false
  end.

(** [_unique_items] over an array: whether it yields an error. *)
Fixpoint unique_walk (seen : list Key) (items : list Json) : bool :=
  match items with
  | [] => false
  | item :: items =>
      let key := comparison_key item in
      if existsb (fun k => key_eqb k key) seen then true
      else unique_walk (key :: seen) items
  end.
Definition unique_items (unique : bool) (instance_ : Json) : bool :=
  match instance_ with
  | JArr items => unique && unique_walk [] items
  | _ => false
  end.

(** ** References *)

Definition LITERAL_VALUE_KEYWORDS : list string := ["const"; "default"; "enum"; "examples"].
Definition SCHEMA_MAP_KEYWORDS : list string :=
  ["properties"; "patternProperties"; "$defs"; "definitions"; "dependentSchemas"; "dependencies"].
Definition REFERENCE_KEYWORDS : list string := ["$ref"; "$dynamicRef"; "$recursiveRef"].

Definition schema_children (m : list (string * Json)) : list Json :=
  flat_map (fun '(keyword, v) =>
    if bool_decide (keyword ∈ LITERAL_VALUE_KEYWORDS) then []
    else if bool_decide (keyword ∈ SCHEMA_MAP_KEYWORDS) then
      match v with JObj m' => m'.*2 | _ => [v] end
    else [v]) m.

(** The first value a search finds something in. *)
Definition first_some {A B} (f : A -> option B) : list A -> option B :=
  fix go l := match l with
              | [] => None
              | x :: l => match f x with Some b => Some b | None => go l end
              end.

(** A search through [schema_children], in order. *)
Definition search_children {B} (f : Json -> option B) (m : list (string * Json)) : option B :=
  first_some (fun '(keyword, v) =>
    if bool_decide (keyword ∈ LITERAL_VALUE_KEYWORDS) then None
    else if bool_decide (keyword ∈ SCHEMA_MAP_KEYWORDS) then
      match v with JObj m' => first_some (fun '(_, x) => f x) m' | _ => f v end
    else f v) m.

(** The first of the three keywords whose value is a string with [p]. *)
Definition first_ref (p : string -> bool) (m : list (string * Json)) : option string :=
  first_some (fun keyword =>
    match get_key m keyword with
    | Some (JStr ref) => if p ref then Some ref else None
    | _ => None
    end) REFERENCE_KEYWORDS.

(** The shape of the two searches for a reference: the first one [p] finds. *)
Fixpoint find_ref (p : string -> bool) (node : Json) : option string :=
  match node with
  | JObj m =>
      match first_ref p m with
      | Some ref => Some ref
      | None => search_children (find_ref p) m
      end
  | JArr l => first_some (find_ref p) l
  | _ => None
  end.

Definition find_external_ref : Json -> option string := find_ref (fun ref => negb (startswith "#" ref)).

(** The walk of a pointer: [segments] are already split. *)
Fixpoint segments_resolve (node : Json) (segments : list string) : bool :=
  match segments with
  | [] => true
  | raw :: segments =>
      let segment := replace "~0" "~" (replace "~1" "/" raw) in
      match node with
      | JObj m =>
          match get_key m segment with
          | Some v => segments_resolve v segments
          | None => false
          end
      | JArr l =>
          match py_int segment with
          | None => false
          | Some index =>
              if (0 <=? index)%Z then
                match l !! Z.to_nat index with
                | Some v => segments_resolve v segments
                | None => false
                end
              else false
          end
      | _ => false
      end
  end.

Definition pointer_resolves (root : Json) (ref : string) : bool :=
  let fragment := drop_str 1 ref in
  let fragment := if startswith "/" fragment then drop_str 1 fragment else fragment in
  if bool_decide (fragment = "") then true
  else segments_resolve root (split_on "/"%char (unquote fragment)).

Fixpoint holds_subresource (node : Json) : bool :=
  match node with
  | JObj m =>
      match get_key m "$id" with
      | Some (JStr _) => true
      | _ => bool_decide (is_Some (search_children (fun v => if holds_subresource v then Some tt else None) m))
      end
  | JArr l => existsb holds_subresource l
  | _ => false
  end.

(** A reference [find_unresolvable_ref] looks at and that names nothing in [root]. *)
Definition dangling (root : Json) (ref : string) : bool :=
  startswith "#" ref
  && (let fragment := drop_str 1 ref in
      bool_decide (fragment = "") || startswith "/" fragment)
  && negb (pointer_resolves root ref).

Definition find_unresolvable_ref (schema : Json) : option string :=
  if holds_subresource schema then None else find_ref (dangling schema) schema.
