(* ===== verification/ArgumentsSchemaProps.v ===== *)
(** * Correctness of the checks on a schema of arguments

    The walks agree with what they measure, [uniqueItems] with JSON Schema equality, and the
    pointer of every path resolves to what is there. *)

From Stdlib Require Import QArith.
From S2P Require Import Prelude PyStr Json ArgumentsSchema.

Local Open Scope string_scope.
Local Open Scope list_scope.
Local Open Scope nat_scope.

(** ** The walks *)

Lemma existsb_rev {A} (f : A -> bool) (l : list A) : existsb f (rev l) = existsb f l.
Proof.
  induction l as [|x l IH]; [done|]. cbn. rewrite existsb_app, IH. cbn. rewrite orb_false_r. apply orb_comm.
Qed.
Lemma existsb_map {A B} (f : A -> B) (p : B -> bool) (l : list A) : existsb p (map f l) = existsb (fun x => p (f x)) l.
Proof. induction l as [|x l IH]; [done|]. cbn. by rewrite IH. Qed.
Lemma sum_rev {A} (f : A -> nat) (l : list A) : sum_list_with f (rev l) = sum_list_with f l.
Proof. induction l as [|x l IH]; [done|]. cbn. rewrite sum_list_with_app, IH. cbn. lia. Qed.
Lemma sum_map {A B} (g : A -> B) (f : B -> nat) (l : list A) : sum_list_with f (map g l) = sum_list_with (fun x => f (g x)) l.
Proof. induction l as [|x l IH]; [done|]. cbn. by rewrite IH. Qed.

Definition too_deep (d : nat) (v : Json) : bool := bool_decide (MAX_DOCUMENT_DEPTH < d + depth v).

Lemma too_deep_children d v :
  d <= MAX_DOCUMENT_DEPTH -> too_deep d v = existsb (too_deep (S d)) (children v).
Proof.
  intros Hd. unfold too_deep. rewrite depth_children.
  induction (children v) as [|x l IH]; cbn [foldr existsb]; [case_bool_decide; [lia|done]|].
  rewrite <- IH. repeat case_bool_decide; cbn; done || lia.
Qed.

Lemma depth_walk_run fuel stack :
  sum_list_with (fun p => size p.1) stack <= fuel ->
  depth_walk fuel stack = Some (existsb (fun p => too_deep p.2 p.1) stack).
Proof.
  revert stack. induction fuel as [|fuel IH]; intros [|[v d] stack] H; cbn in *; try done.
  { destruct v; cbn in H; lia. }
  case_bool_decide as Hd.
  - unfold too_deep at 1. by rewrite bool_decide_true by lia.
  - rewrite IH.
    + rewrite existsb_app, existsb_rev, existsb_map. cbn. rewrite too_deep_children by lia. done.
    + rewrite sum_list_with_app, sum_rev, sum_map. rewrite size_children in H.
      change (sum_list_with (fun x => size (x, S d).1) (children v)) with (sum_list_with size (children v)). lia.
Qed.

Lemma nodes_walk_run fuel seen stack :
  sum_list_with size stack <= fuel -> seen <= MAX_SCHEMA_NODES ->
  nodes_walk fuel seen stack = Some (bool_decide (MAX_SCHEMA_NODES < seen + sum_list_with nodes stack)).
Proof.
  revert seen stack. induction fuel as [|fuel IH]; intros seen [|v stack] H Hs; cbn [nodes_walk sum_list_with] in *.
  - rewrite bool_decide_false by lia. done.
  - destruct v; cbn in H; lia.
  - rewrite bool_decide_false by lia. done.
  - rewrite nodes_children.
    assert (is_node v = true /\ match v with JObj _ | JBool _ => 1 | _ => 0 end = 1
            \/ is_node v = false /\ match v with JObj _ | JBool _ => 1 | _ => 0 end = 0) as [[-> ->]|[-> ->]]
      by (destruct v; auto).
    + cbn [andb]. case_bool_decide as Hd; [by rewrite bool_decide_true by lia|].
      rewrite IH; [|rewrite sum_list_with_app, sum_rev; rewrite size_children in H; lia|lia].
      rewrite sum_list_with_app, sum_rev. f_equal; apply bool_decide_ext; lia.
    + cbn [andb]. rewrite IH; [|rewrite sum_list_with_app, sum_rev; rewrite size_children in H; lia|lia].
      rewrite sum_list_with_app, sum_rev. f_equal; apply bool_decide_ext; lia.
Qed.

(** the two walks with a stack always end, and answer what they are for: whether some
    value lies under more than 64 containers, and whether the document has more than 200
    objects and booleans. *)
Theorem schema_limits v :
  exceeds_max_depth v = Some (bool_decide (MAX_DOCUMENT_DEPTH < depth v))
  /\ exceeds_max_nodes v = Some (bool_decide (MAX_SCHEMA_NODES < nodes v)).
Proof.
  unfold exceeds_max_depth, exceeds_max_nodes. split.
  - rewrite depth_walk_run by (cbn; lia). cbn. by rewrite orb_false_r.
  - rewrite nodes_walk_run by (cbn; unfold MAX_SCHEMA_NODES; lia). cbn. by rewrite Nat.add_0_r.
Qed.

(** ** [uniqueItems] *)

Definition normal (n : Number) : Number :=
  match n with
  | IntNum z => IntNum z
  | FloatNum f => if is_integer f then IntNum (to_int f) else FloatNum f
  end.

(** Collapsing an integral float onto its integer keeps its value. *)
Lemma normal_value n :
  match finite_value n, finite_value (normal n) with
  | Some p, Some q => Qeq p q
  | None, None => normal n = n
  | _, _ => False
  end.
Proof.
  destruct n as [z|[m e| | |]]; cbn [normal finite_value is_integer]; try done.
  unfold to_int. destruct (0 <=? e)%Z eqn:He; cbn [orb]; [cbn; rewrite ?He; done|].
  destruct (m mod 2 ^ (- e) =? 0)%Z eqn:Hm; cbn [finite_value]; [|rewrite He; done].
  apply Z.eqb_eq in Hm. apply Z.leb_gt in He.
  assert (0 < 2 ^ (- e))%Z as Hpow by (apply Z.pow_pos_nonneg; lia).
  unfold Qeq. cbn. rewrite Z2Pos.id by done. rewrite (Z_div_mod_eq_full m (2 ^ (- e))) at 1. rewrite Hm. lia.
Qed.

Lemma num_eqb_normal a b : num_eqb (normal a) (normal b) = num_eqb a b.
Proof.
  pose proof (normal_value a) as Ha. pose proof (normal_value b) as Hb. unfold num_eqb.
  destruct (finite_value a) as [p|], (finite_value (normal a)) as [p'|] eqn:Ea; try done;
    destruct (finite_value b) as [q|], (finite_value (normal b)) as [q'|] eqn:Eb; try done; [|by rewrite Ha, Hb].
  apply eq_bool_prop_intro. rewrite !Is_true_true, !Qeq_bool_iff. by rewrite Ha, Hb.
Qed.

Lemma comparison_key_num n : comparison_key (JNum n) = KNumber (normal n).
Proof. by destruct n. Qed.

Lemma forallb_spec {A} (p : A -> bool) (l : list A) : forallb p l = true <-> forall x, x ∈ l -> p x = true.
Proof.
  induction l as [|x l IH]; cbn; [split; [set_solver|done]|]. rewrite andb_true_iff, IH. set_solver.
Qed.
Lemma existsb_spec {A} (p : A -> bool) (l : list A) : existsb p l = true <-> exists x, x ∈ l /\ p x = true.
Proof.
  induction l as [|x l IH]; cbn; [split; [done|set_solver]|]. rewrite orb_true_iff, IH. set_solver.
Qed.

Lemma wf_obj_inv m : wf (JObj m) -> NoDup m.*1 /\ Forall (fun kv => wf kv.2) m.
Proof. intros H. inversion H; subst; [by cbn in *|done]. Qed.
Lemma wf_arr_inv l : wf (JArr l) -> Forall wf l.
Proof. intros H. inversion H; subst; [by cbn in *|done]. Qed.

Lemma NoDup_key (m : list (string * Json)) k v w : NoDup m.*1 -> (k, v) ∈ m -> (k, w) ∈ m -> v = w.
Proof.
  induction m as [|[k' u] m IH]; cbn; [set_solver|]. intros [Hk Hnd]%NoDup_cons.
  intros [[=]|Hv]%elem_of_cons [[=]|Hw]%elem_of_cons; subst; [done| | |by apply IH];
    destruct Hk; apply list_elem_of_fmap; by eexists (_, _).
Qed.

Definition key_pairs (m : list (string * Json)) : list (string * Key) :=
  map (fun kv => (kv.1, comparison_key kv.2)) m.

Lemma elem_of_key_pairs m k y : (k, y) ∈ key_pairs m <-> exists v, (k, v) ∈ m /\ y = comparison_key v.
Proof.
  unfold key_pairs. rewrite list_elem_of_fmap. split.
  - intros ([k' v] & [= -> ->] & Hv). by exists v.
  - intros (v & Hv & ->). by exists (k, v).
Qed.
Lemma elem_of_keys (m : list (string * Json)) k : k ∈ m.*1 <-> exists v, (k, v) ∈ m.
Proof.
  rewrite list_elem_of_fmap. split; [intros ([k' v] & -> & Hv); by exists v|intros [v Hv]; by exists (k, v)].
Qed.

(** Two objects: the frozensets of their pairs are equal exactly when the objects are. *)
Lemma key_pairs_spec m m' :
  NoDup m.*1 -> NoDup m'.*1 ->
  (forall k v w, (k, v) ∈ m -> (k, w) ∈ m' -> key_eqb (comparison_key v) (comparison_key w) = true <-> json_equal v w) ->
  key_eqb (KObject (key_pairs m)) (KObject (key_pairs m')) = true <-> json_equal (JObj m) (JObj m').
Proof.
  intros Hnd Hnd' Hkey. cbn. rewrite andb_true_iff, !forallb_spec.
  setoid_rewrite existsb_spec. setoid_rewrite andb_true_iff. setoid_rewrite bool_decide_eq_true. split.
  - intros [H1 H2].
    assert (forall k v, (k, v) ∈ m -> exists w, (k, w) ∈ m' /\ key_eqb (comparison_key v) (comparison_key w) = true) as H1'.
    { intros k v Hv. destruct (H1 (k, comparison_key v)) as ([k2 y] & Hy & E & Heq); [apply elem_of_key_pairs; by exists v|].
      cbn in *. subst k2. apply elem_of_key_pairs in Hy as (w & Hw & ->). by exists w. }
    constructor.
    + intros k. rewrite !elem_of_keys. split.
      * intros [v Hv]. destruct (H1' k v Hv) as (w & Hw & _). by exists w.
      * intros [w Hw]. destruct (H2 (k, comparison_key w)) as ([k2 y] & Hy & E & _); [apply elem_of_key_pairs; by exists w|].
        cbn in *. subst k2. apply elem_of_key_pairs in Hy as (v & Hv & _). by exists v.
    + intros k v w Hv Hw. apply (Hkey k v w Hv Hw). destruct (H1' k v Hv) as (w' & Hw' & Heq).
      by rewrite (NoDup_key m' k w w' Hnd' Hw Hw').
  - inversion 1 as [| | | | |? ? Hks Hvs]; subst. split.
    + intros [k y] (v & Hv & ->)%elem_of_key_pairs.
      assert (k ∈ m'.*1) as [w Hw]%elem_of_keys by (apply Hks, elem_of_keys; by exists v).
      exists (k, comparison_key w). split; [apply elem_of_key_pairs; by exists w|]. cbn. split; [done|].
      apply (Hkey k v w Hv Hw). by apply (Hvs k).
    + intros [k y] (w & Hw & ->)%elem_of_key_pairs.
      assert (k ∈ m.*1) as [v Hv]%elem_of_keys by (apply Hks, elem_of_keys; by exists w).
      exists (k, comparison_key v). split; [apply elem_of_key_pairs; by exists v|]. cbn. split; [done|].
      apply (Hkey k v w Hv Hw). by apply (Hvs k).
Qed.

(** Two keys are equal exactly when the values are. *)
Lemma comparison_key_spec a b : wf a -> wf b -> key_eqb (comparison_key a) (comparison_key b) = true <-> json_equal a b.
Proof.
  revert b. induction a as [|x|n|x|l IH|m IH] using Json_all; intros b Ha Hb.
  - destruct b as [|y|[z|f]|y|l'|m']; cbn; try (split; [done|by inversion 1]). split; [constructor|done].
  - destruct b as [|y|[z|f]|y|l'|m']; cbn; try (split; [done|by inversion 1]).
    rewrite bool_decide_eq_true. split; [intros ->; constructor|by inversion 1].
  - rewrite comparison_key_num. destruct b as [|y|n'|y|l'|m']; try (split; [done|by inversion 1]).
    rewrite comparison_key_num. cbn. rewrite num_eqb_normal. split; [by constructor|by inversion 1].
  - destruct b as [|y|[z|f]|y|l'|m']; cbn; try (split; [done|by inversion 1]).
    rewrite bool_decide_eq_true. split; [intros ->; constructor|by inversion 1].
  - destruct b as [|y|[z|f]|y|l'|m']; cbn; try (split; [done|by inversion 1]).
    apply wf_arr_inv in Ha, Hb.
    trans (Forall2 json_equal l l'); [|split; [by constructor|by inversion 1]].
    revert l' Hb. induction IH as [|x l Hx _ IHl]; intros [|y l'] Hb; cbn; try (split; [done|by inversion 1]).
    apply Forall_cons in Ha as [Hwx Ha]. apply Forall_cons in Hb as [Hwy Hb].
    rewrite andb_true_iff, Hx, (IHl Ha l' Hb) by done. split; [intros []; by constructor|by inversion 1].
  - destruct b as [|y|[z|f]|y|l'|m']; try (split; [done|by inversion 1]).
    apply wf_obj_inv in Ha as [Hnd Hwf], Hb as [Hnd' Hwf'].
    rewrite Forall_forall in IH. rewrite Forall_forall in Hwf. rewrite Forall_forall in Hwf'.
    apply key_pairs_spec; [done..|]. intros k v w Hv Hw. apply (IH (k, v) Hv w); [apply (Hwf _ Hv)|apply (Hwf' _ Hw)].
Qed.

Lemma unique_walk_spec seen items :
  Forall wf seen -> Forall wf items ->
  unique_walk (map comparison_key seen) items = true <->
  (exists x y, x ∈ seen /\ y ∈ items /\ json_equal x y)
  \/ exists i j x y, i < j /\ items !! i = Some x /\ items !! j = Some y /\ json_equal x y.
Proof.
  revert seen. induction items as [|z items IH]; intros seen Hs Hi.
  { cbn. split; [done|]. intros [(x & y & _ & Hy & _)|(i & j & x & y & _ & Hx & _)]; [set_solver|done]. }
  apply Forall_cons in Hi as [Hz Hi]. cbn [unique_walk]. rewrite existsb_map.
  destruct (existsb _ seen) eqn:E.
  - split; [intros _|done]. apply existsb_spec in E as (x & Hx & Hk). left. exists x, z.
    rewrite Forall_forall in Hs. apply comparison_key_spec in Hk; [set_solver|by apply Hs|done].
  - change (comparison_key z :: map comparison_key seen) with (map comparison_key (z :: seen)).
    rewrite IH by (done || by constructor).
    assert (forall x, x ∈ seen -> ~ json_equal x z) as Hno.
    { intros x Hx Heq. rewrite Forall_forall in Hs. apply (comparison_key_spec x z (Hs x Hx) Hz) in Heq.
      assert (existsb (fun k => key_eqb (comparison_key k) (comparison_key z)) seen = true) as E'
        by (apply existsb_spec; by exists x). congruence. }
    split.
    + intros [(x & y & [->|Hx]%elem_of_cons & Hy & Heq)|(i & j & x & y & Hij & Hx & Hy & Heq)].
      * right. apply list_elem_of_lookup in Hy as [j Hj]. exists 0, (S j), z, y. split_and!; [lia|done..].
      * left. exists x, y. set_solver.
      * right. exists (S i), (S j), x, y. split_and!; [lia|done..].
    + intros [(x & y & Hx & [->|Hy]%elem_of_cons & Heq)|(i & j & x & y & Hij & Hx & Hy & Heq)].
      * by destruct (Hno x Hx).
      * left. exists x, y. set_solver.
      * destruct j as [|j]; [lia|]. cbn in Hy. destruct i as [|i]; cbn in Hx.
        -- simplify_eq. left. exists x, y. split; [set_solver|]. split; [by eapply list_elem_of_lookup_2|done].
        -- right. exists i, j, x, y. split_and!; [lia|done..].
Qed.

(** the one-pass [uniqueItems] rejects an array exactly when two of its elements, at
    different places, are equal in the sense of JSON Schema: [1] and [1.0] are, [1] and [true]
    are not, and objects are compared by key whatever their order. *)
Theorem unique_items_spec items :
  wf (JArr items) ->
  unique_items true (JArr items) = true <->
  exists i j x y, i < j /\ items !! i = Some x /\ items !! j = Some y /\ json_equal x y.
Proof.
  intros Hwf%wf_arr_inv. unfold unique_items. cbn [andb].
  rewrite (unique_walk_spec [] items (List.Forall_nil _) Hwf). split; [|by right].
  intros [(x & y & Hx & _)|H]; [set_solver|done].
Qed.

(** ** Pointers *)

(** RFC 6901: how the text of a segment is written in a pointer. *)
Fixpoint escape (s : string) : string :=
  match s with
  | EmptyString => EmptyString
  | String c s' =>
      if bool_decide (c = "~"%char) then String "~" (String "0" (escape s'))
      else if bool_decide (c = "/"%char) then String "~" (String "1" (escape s'))
      else String c (escape s')
  end.

(** Half of the way back. *)
Fixpoint escape_tilde (s : string) : string :=
  match s with
  | EmptyString => EmptyString
  | String c s' =>
      if bool_decide (c = "~"%char) then String "~" (String "0" (escape_tilde s')) else String c (escape_tilde s')
  end.

Lemma replace_slash s : replace "~1" "/" (escape s) = escape_tilde s.
Proof.
  unfold replace. induction s as [|c s IH]; [done|]. cbn [escape escape_tilde].
  case_bool_decide as Ht; [cbn; by rewrite IH|]. case_bool_decide as Hs; [subst; cbn; by rewrite IH|].
  cbn. rewrite bool_decide_false by congruence. cbn. by rewrite IH.
Qed.
Lemma replace_tilde s : replace "~0" "~" (escape_tilde s) = s.
Proof.
  unfold replace. induction s as [|c s IH]; [done|]. cbn [escape_tilde].
  case_bool_decide as Ht; [subst; cbn; by rewrite IH|]. cbn. rewrite bool_decide_false by congruence. cbn. by rewrite IH.
Qed.
Lemma escape_no_slash s : contains_char "/" (escape s) = false.
Proof.
  induction s as [|c s IH]; [done|]. cbn [escape].
  case_bool_decide; [done|]. case_bool_decide; [done|]. cbn. rewrite IH, bool_decide_false; done.
Qed.

(** What lies at the end of a path: each segment names a member of an object or, by any text
    [int()] reads as its index, an element of an array. *)
Inductive names : Json -> list string -> Json -> Prop :=
  | names_here v : names v [] v
  | names_member m k v path w : get_key m k = Some v -> names v path w -> names (JObj m) (k :: path) w
  | names_element l i text v path w :
      py_int text = Some (Z.of_nat i) -> l !! i = Some v -> names v path w -> names (JArr l) (text :: path) w.

Lemma segments_resolve_spec path node :
  segments_resolve node (map escape path) = true <-> exists w, names node path w.
Proof.
  revert node. induction path as [|k path IH]; intros node; cbn [map segments_resolve].
  { split; [intros _; exists node; constructor|done]. }
  rewrite replace_slash, replace_tilde. destruct node as [|b|n|s|l|m]; try (split; [done|intros [w H]; by inversion H]).
  - destruct (py_int k) as [index|] eqn:Hk; [|split; [done|intros [w H]; inversion H; congruence]].
    destruct (0 <=? index)%Z eqn:Hpos.
    + apply Z.leb_le in Hpos. destruct (l !! Z.to_nat index) as [v|] eqn:Hl.
      * rewrite IH. split.
        -- intros [w Hw]. exists w. by apply (names_element l (Z.to_nat index) k v); [rewrite Z2Nat.id|..].
        -- intros [w H]. inversion H as [| |? i ? v' ? ? Hi Hl' Hw]; subst. exists w.
           rewrite Hk in Hi. injection Hi as ->. rewrite Nat2Z.id in Hl. congruence.
      * split; [done|]. intros [w H]. inversion H as [| |? i ? v' ? ? Hi Hl' Hw]; subst.
        rewrite Hk in Hi. injection Hi as ->. rewrite Nat2Z.id in Hl. congruence.
    + split; [done|]. intros [w H]. inversion H as [| |? i ? v' ? ? Hi Hl' Hw]; subst.
      rewrite Hk in Hi. injection Hi as ->. apply Z.leb_gt in Hpos. lia.
  - destruct (get_key m k) as [v|] eqn:Hk.
    + rewrite IH. split; intros [w H].
      * exists w. by econstructor.
      * inversion H as [|? ? v' ? ? Hv' Hw|]; subst. exists w. congruence.
    + split; [done|]. intros [w H]. inversion H as [|? ? v' ? ? Hv' Hw|]; subst. congruence.
Qed.

(** a pointer written for a path the way RFC 6901 says, with any percent-encoding of it,
    is read back as that path: it resolves exactly when the path leads somewhere in the
    document. The exception is the pointer whose text is empty ([#/], the path of the member
    with the empty name), which always resolves. *)
Theorem pointer_roundtrip root path encoded :
  path <> [] -> encoded <> "" ->
  unquote encoded = join "/" (map escape path) ->
  pointer_resolves root ("#/" +:+ encoded) = true <-> exists w, names root path w.
Proof.
  intros Hpath Hne Hun. unfold pointer_resolves.
  change ("#/" +:+ encoded) with (String "#" (String "/" encoded)).
  cbn -[startswith bool_decide unquote split_on]. change (startswith "/" (String "/" encoded)) with true. cbn iota.
  rewrite bool_decide_false by done. rewrite Hun, split_join.
  - apply segments_resolve_spec.
  - by destruct path.
  - apply Forall_forall. intros w (k & -> & _)%list_elem_of_fmap. apply escape_no_slash.
Qed.

(** ** References *)

Lemma size_elem x l : x ∈ l -> size x <= sum_list_with size l.
Proof. induction 1 as [x l|x y l _ IH]; cbn; lia. Qed.

Lemma schema_children_smaller m x : x ∈ schema_children m -> size x < size (JObj m).
Proof.
  rewrite (size_children (JObj m)). cbn [children]. intros H. apply Nat.lt_succ_r. revert H.
  induction m as [|[k v] m IH]; cbn [schema_children flat_map]; [set_solver|].
  fold (schema_children m). change (((k, v) :: m).*2) with (v :: m.*2). cbn [sum_list_with].
  intros [H|H]%elem_of_app; [|specialize (IH H); lia]. clear IH.
  assert (size x <= size v); [|lia]. revert H.
  case_bool_decide; [set_solver|]. case_bool_decide; [|by intros ->%list_elem_of_singleton].
  destruct v as [| | | | |m']; try (by intros ->%list_elem_of_singleton).
  rewrite (size_children (JObj m')). cbn [children]. intros Hx%size_elem. lia.
Qed.

Lemma first_some_app {A B} (f : A -> option B) l l' :
  first_some f (l ++ l') = match first_some f l with Some b => Some b | None => first_some f l' end.
Proof. induction l as [|x l IH]; cbn; [done|]. destruct (f x); [done|apply IH]. Qed.

(** The search goes over [schema_children]. *)
Lemma search_children_spec {B} (f : Json -> option B) m : search_children f m = first_some f (schema_children m).
Proof.
  induction m as [|[k v] m IH]; cbn [schema_children flat_map]; [done|]. fold (schema_children m).
  rewrite first_some_app, <- IH. cbn. case_bool_decide; [done|].
  assert (forall x, first_some f [x] = f x) as Hone by (intros x; cbn; by destruct (f x)).
  case_bool_decide; [|by rewrite Hone]. destruct v as [| | | | |m']; try (by rewrite Hone).
  assert (first_some (fun '(_, x) => f x) m' = first_some f m'.*2) as ->; [|done].
  induction m' as [|[k' x] m' IHm]; [done|]. cbn. by rewrite IHm.
Qed.

Lemma first_some_None {A B} (f : A -> option B) l : first_some f l = None <-> forall x, x ∈ l -> f x = None.
Proof.
  induction l as [|x l IH]; cbn; [split; [set_solver|done]|].
  destruct (f x) as [b|] eqn:E; [split; [done|]|rewrite IH]; set_solver.
Qed.
Lemma first_some_Some {A B} (f : A -> option B) l b : first_some f l = Some b -> exists x, x ∈ l /\ f x = Some b.
Proof.
  induction l as [|x l IH]; cbn; [done|]. destruct (f x) as [b'|] eqn:E.
  - intros [= ->]. exists x. set_solver.
  - intros H. destruct (IH H) as (y & Hy & ?). exists y. set_solver.
Qed.

(** The places of a document that JSON Schema reads as schemas. *)
Inductive subschema : Json -> Json -> Prop :=
  | sub_here v : subschema v v
  | sub_array l x v : x ∈ l -> subschema v x -> subschema v (JArr l)
  | sub_object m x v : x ∈ schema_children m -> subschema v x -> subschema v (JObj m).

(** The references written there. *)
Definition refers (v : Json) (ref : string) : Prop :=
  exists m keyword, subschema (JObj m) v /\ keyword ∈ REFERENCE_KEYWORDS /\ get_key m keyword = Some (JStr ref).

Lemma first_ref_None p m :
  first_ref p m = None <-> forall keyword ref, keyword ∈ REFERENCE_KEYWORDS -> get_key m keyword = Some (JStr ref) -> p ref = false.
Proof.
  unfold first_ref. rewrite first_some_None. split.
  - intros H k ref Hk Hg. specialize (H k Hk). rewrite Hg in H. by destruct (p ref).
  - intros H k Hk. destruct (get_key m k) as [[| | |ref| |]|] eqn:E; try done. by rewrite (H k ref Hk E).
Qed.
Lemma first_ref_Some p m ref :
  first_ref p m = Some ref -> p ref = true /\ exists keyword, keyword ∈ REFERENCE_KEYWORDS /\ get_key m keyword = Some (JStr ref).
Proof.
  unfold first_ref. intros (k & Hk & H)%first_some_Some.
  destruct (get_key m k) as [[| | |r| |]|] eqn:E; try done. destruct (p r) eqn:Hp; [|done]. injection H as ->.
  split; [done|]. by exists k.
Qed.

Lemma find_ref_spec p v :
  match find_ref p v with
  | None => forall ref, refers v ref -> p ref = false
  | Some ref => refers v ref /\ p ref = true
  end.
Proof.
  remember (size v) as n eqn:Hn. revert v Hn. induction n as [n IH] using lt_wf_ind. intros v ->.
  destruct v as [|b|k|s|l|m]; cbn [find_ref]; try (intros ref (m & k' & H & _); inversion H).
  - destruct (first_some (find_ref p) l) as [ref|] eqn:E.
    + apply first_some_Some in E as (x & Hx & E). specialize (IH (size x)). pose proof (size_elem x l Hx).
      specialize (IH ltac:(rewrite (size_children (JArr l)); cbn [children]; lia) x eq_refl). rewrite E in IH.
      destruct IH as [(m & k & Hs & Hk) Hp]. split; [|done]. exists m, k. split; [by eapply sub_array|done].
    + intros ref (m & k & Hs & Hk & Hg). inversion Hs as [|? x ? Hx Hs'|]; subst.
      pose proof (proj1 (first_some_None _ _) E x Hx) as Ex. pose proof (size_elem x l Hx).
      specialize (IH (size x) ltac:(rewrite (size_children (JArr l)); cbn [children]; lia) x eq_refl). rewrite Ex in IH.
      apply IH. by exists m, k.
  - destruct (first_ref p m) as [ref|] eqn:E.
    + apply first_ref_Some in E as (Hp & k & Hk & Hg). split; [|done]. exists m, k. by split; [constructor|].
    + rewrite search_children_spec. destruct (first_some (find_ref p) (schema_children m)) as [ref|] eqn:E'.
      * apply first_some_Some in E' as (x & Hx & E'). pose proof (schema_children_smaller m x Hx) as Hlt.
        specialize (IH (size x) Hlt x eq_refl). rewrite E' in IH.
        destruct IH as [(m' & k & Hs & Hk) Hp]. split; [|done]. exists m', k. split; [by eapply sub_object|done].
      * intros ref (m' & k & Hs & Hk & Hg). inversion Hs as [| |? x ? Hx Hs']; subst.
        { by apply (proj1 (first_ref_None p m) E k). }
        pose proof (proj1 (first_some_None _ _) E' x Hx) as Ex. pose proof (schema_children_smaller m x Hx) as Hlt.
        specialize (IH (size x) Hlt x eq_refl). rewrite Ex in IH. apply IH. by exists m', k.
Qed.

(** ** References that resolve, by the documents that define them *)

(** RFC 6901, the way back of [escape], in one pass; a tilde before anything else stays. *)
Fixpoint unescape (s : string) : string :=
  match s with
  | String "~" (String "1" s') => String "/" (unescape s')
  | String "~" (String "0" s') => String "~" (unescape s')
  | String c s' => String c (unescape s')
  | EmptyString => EmptyString
  end.

(** A reference that is a JSON Pointer: to the document, or into it. The others that begin with [#] name an anchor. *)
Definition is_pointer (ref : string) : Prop := ref = "#" \/ exists encoded, ref = "#/" +:+ encoded.

(** What it points to: the fragment is percent-decoded, its segments follow the slashes. *)
Definition resolves (root : Json) (ref : string) : Prop :=
  ref = "#" \/ exists encoded w, ref = "#/" +:+ encoded /\ names root (map unescape (split_on "/" (unquote encoded))) w.

(** A schema somewhere in the document, its top included, declares an [$id]. *)
Definition declares_id (v : Json) : Prop := exists m i, subschema (JObj m) v /\ get_key m "$id" = Some (JStr i).

Lemma replace_skip a b new c s : c <> a -> replace (String a (String b "")) new (String c s) = String c (replace (String a (String b "")) new s).
Proof. intros H. unfold replace. cbn. by rewrite bool_decide_false. Qed.
Lemma replace_hit a b new s : replace (String a (String b "")) new (String a (String b s)) = new +:+ replace (String a (String b "")) new s.
Proof. unfold replace. cbn. rewrite (bool_decide_true (a = a)), (bool_decide_true (b = b)) by done. reflexivity. Qed.
Lemma replace_near a b new c s : c <> b ->
  replace (String a (String b "")) new (String a (String c s)) = String a (replace (String a (String b "")) new (String c s)).
Proof. intros H. unfold replace. cbn. rewrite (bool_decide_true (a = a)), (bool_decide_false (b = c)) by congruence. reflexivity. Qed.

Lemma unescape_plain c s : c <> "~"%char -> unescape (String c s) = String c (unescape s).
Proof. intros H. destruct c as [[] [] [] [] [] [] [] []]; done. Qed.
Lemma unescape_near c s : c <> "0"%char -> c <> "1"%char -> unescape (String "~" (String c s)) = String "~" (unescape (String c s)).
Proof. intros H0 H1. destruct c as [[] [] [] [] [] [] [] []]; done. Qed.

(** The first pass makes no digit that was not there. *)
Lemma first_pass_head c s : exists d s', replace "~1" "/" (String c s) = String d s' /\ (d = "0"%char -> c = "0"%char).
Proof.
  destruct (decide (c = "~"%char)) as [->|Hc]; [|rewrite replace_skip by done; by eauto].
  destruct s as [|b s]; [by eexists _, _|]. destruct (decide (b = "1"%char)) as [->|Hb].
  - rewrite replace_hit. by eexists _, _.
  - rewrite replace_near by done. by eexists _, _.
Qed.

(** The two replacements of the source, one after the other, are the one pass. *)
Lemma unescape_two_passes s : replace "~0" "~" (replace "~1" "/" s) = unescape s.
Proof.
  remember (String.length s) as n eqn:Hn. revert s Hn. induction n as [n IH] using lt_wf_ind. intros s ->.
  destruct s as [|c s]; [done|]. destruct (decide (c = "~"%char)) as [->|Hc].
  2:{ rewrite !replace_skip, unescape_plain by done. f_equal. apply (IH (String.length s)); [cbn; lia|done]. }
  destruct s as [|b s]; [done|]. destruct (decide (b = "1"%char)) as [->|H1].
  { rewrite replace_hit. change ("/" +:+ replace "~1" "/" s) with (String "/" (replace "~1" "/" s)).
    rewrite replace_skip by done. cbn [unescape]. f_equal. apply (IH (String.length s)); [cbn; lia|done]. }
  rewrite replace_near by done. destruct (decide (b = "0"%char)) as [->|H0].
  { rewrite (replace_skip "~" "1" "/" "0" s), replace_hit by done. cbn [unescape]. change ("~" +:+ ?x) with (String "~" x).
    f_equal. apply (IH (String.length s)); [cbn; lia|done]. }
  rewrite unescape_near by done. destruct (first_pass_head b s) as (d & s' & E & Hd). rewrite E, replace_near by auto.
  rewrite <- E. f_equal. apply (IH (String.length (String b s))); [cbn; lia|done].
Qed.

Lemma names_segments root raws : segments_resolve root raws = true <-> exists w, names root (map unescape raws) w.
Proof.
  rewrite <- segments_resolve_spec. enough (segments_resolve root raws = segments_resolve root (map escape (map unescape raws))) as -> by done.
  revert root. induction raws as [|r raws IH]; intros root; [done|]. cbn [map segments_resolve].
  rewrite replace_slash, replace_tilde, unescape_two_passes. repeat case_match; auto.
Qed.

Lemma pointer_resolves_spec root ref : is_pointer ref -> pointer_resolves root ref = true <-> ref = "#/" \/ resolves root ref.
Proof.
  unfold resolves. intros [->|[e ->]]; [split; [by right; left|done]|].
  assert (pointer_resolves root ("#/" +:+ e) = true <-> e = "" \/ exists w, names root (map unescape (split_on "/" (unquote e))) w) as ->.
  { unfold pointer_resolves. change (drop_str 1 ("#/" +:+ e)) with (String "/" e). cbn zeta.
    change (startswith "/" (String "/" e)) with true. change (drop_str 1 (String "/" e)) with e. cbn iota.
    case_bool_decide as He; [subst; tauto|]. rewrite names_segments. tauto. }
  split.
  - intros [->|[w Hw]]; [by left|]. right. right. by exists e, w.
  - intros [H|[H|(e' & w & H & Hw)]]; [left|done|right]; [by destruct e|]. assert (e = e') as <- by by injection H. by exists w.
Qed.

Lemma dangling_spec root ref : dangling root ref = true <-> is_pointer ref /\ ref <> "#/" /\ ~ resolves root ref.
Proof.
  assert (startswith "#" ref && (bool_decide (drop_str 1 ref = "") || startswith "/" (drop_str 1 ref)) = true <-> is_pointer ref) as Hp.
  { unfold is_pointer. split.
    - destruct ref as [|c ref]; [done|]. intros [H1 H2]%andb_prop. cbn in H1. rewrite andb_true_r in H1. apply bool_decide_eq_true in H1 as <-.
      cbn in H2. apply orb_prop in H2 as [->%bool_decide_eq_true|H2]; [by left|]. right. destruct ref as [|d ref]; [done|]. cbn in H2.
      rewrite andb_true_r in H2. apply bool_decide_eq_true in H2 as <-. by exists ref.
    - by intros [->|[e ->]]. }
  unfold dangling. rewrite andb_true_iff, Hp, negb_true_iff. split.
  - intros [H Hr]. split; [done|]. rewrite <- not_true_iff_false, pointer_resolves_spec in Hr by done. tauto.
  - intros (H & Hne & Hr). split; [done|]. rewrite <- not_true_iff_false, pointer_resolves_spec by done. tauto.
Qed.

Lemma holds_subresource_spec v : holds_subresource v = true <-> declares_id v.
Proof.
  remember (size v) as n eqn:Hn. revert v Hn. induction n as [n IH] using lt_wf_ind. intros v ->.
  unfold declares_id. destruct v as [|b|k|s|l|m]; cbn [holds_subresource]; try (split; [done|intros (m & i & H & _); inversion H]).
  - rewrite existsb_spec. split.
    + intros (x & Hx & H). pose proof (size_elem x l Hx). apply (IH (size x)) in H as (m & i & Hs & Hg); [|rewrite (size_children (JArr l)); cbn [children]; lia|done].
      exists m, i. split; [by eapply sub_array|done].
    + intros (m & i & Hs & Hg). inversion Hs as [|? x ? Hx Hs'|]; subst. exists x. split; [done|]. pose proof (size_elem x l Hx).
      apply (IH (size x)); [rewrite (size_children (JArr l)); cbn [children]; lia|done|]. by exists m, i.
  - assert (bool_decide (is_Some (search_children (fun v => if holds_subresource v then Some tt else None) m)) = true
      <-> exists x m' i, x ∈ schema_children m /\ subschema (JObj m') x /\ get_key m' "$id" = Some (JStr i)) as Hsub.
    { rewrite bool_decide_eq_true, search_children_spec. split.
      - intros [[] (x & Hx & H)%first_some_Some]. destruct (holds_subresource x) eqn:E; [|done].
        apply (IH (size x)) in E as (m' & i & Hs & Hg); [|by apply schema_children_smaller|done]. by exists x, m', i.
      - intros (x & m' & i & Hx & Hs & Hg). destruct (first_some _ _) eqn:E; [done|]. pose proof (proj1 (first_some_None _ _) E x Hx) as Ex.
        cbn in Ex. assert (holds_subresource x = true) as Hx1; [|by rewrite Hx1 in Ex].
        apply (IH (size x)); [by apply schema_children_smaller|done|]. by exists m', i. }
    split.
    + intros H. assert ((exists i, get_key m "$id" = Some (JStr i)) \/ bool_decide (is_Some (search_children (fun v => if holds_subresource v then Some tt else None) m)) = true) as [[i Hi]|Hc].
      { destruct (get_key m "$id") as [[| | |i| |]|]; eauto. }
      * exists m, i. split; [constructor|done].
      * apply Hsub in Hc as (x & m' & i & Hx & Hs & Hg). exists m', i. split; [by eapply sub_object|done].
    + intros (m' & i & Hs & Hg). inversion Hs as [| |? x ? Hx Hs']; subst; [by rewrite Hg|].
      enough (bool_decide (is_Some (search_children (fun v => if holds_subresource v then Some tt else None) m)) = true) as Hc by (by destruct (get_key m "$id") as [[]|]).
      apply Hsub. by exists x, m', i.
Qed.

Lemma unique_items_spec_witness :
  exists i j x y, i < j
    /\ [JNum (IntNum 1); JBool true; JNum (FloatNum (Finite 4 (-2)))] !! i = Some x
    /\ [JNum (IntNum 1); JBool true; JNum (FloatNum (Finite 4 (-2)))] !! j = Some y /\ json_equal x y.
Proof.
  apply (unique_items_spec [JNum (IntNum 1); JBool true; JNum (FloatNum (Finite 4 (-2)))]).
  - apply wf_arr. repeat constructor.
  - vm_compute. reflexivity.
Defined.

Lemma pointer_roundtrip_witness :
  exists w, names (JObj [("$defs", JObj [("a /b", JArr [JNull; JBool true])])]) ["$defs"; "a /b"; "1"] w.
Proof.
  apply (pointer_roundtrip (JObj [("$defs", JObj [("a /b", JArr [JNull; JBool true])])]) ["$defs"; "a /b"; "1"]
           "$defs/a%20~1b/1"); [done|done|reflexivity|].
  vm_compute. reflexivity.
Defined.

(** The two places where the check lets a pointer that names nothing through: below an [$id]
    at the very top of the schema, and behind the empty name. *)
Example dangling_accepted :
  find_unresolvable_ref (JObj [("$id", JStr "https://x/s"); ("$ref", JStr "#/$defs/none")]) = None
  /\ find_unresolvable_ref (JObj [("$ref", JStr "#/$defs/none")]) = Some "#/$defs/none"
  /\ find_unresolvable_ref (JObj [("$ref", JStr "#/")]) = None.
Proof. repeat split; reflexivity. Qed.
