(* ===== verification/ValidateArguments.v ===== *)
(** * Validating arguments in a child process

    [api/domain/isolated.py], the two entry points of [api/domain/arguments_schema.py] and
    [validate_arguments] of [api/use_cases/programs/validate_arguments.py]. The operating
    system, the text form of JSON ([json.dumps], [json.loads], [repr]) and the [jsonschema]
    library are parameters. *)

From stdpp Require Import pretty.
From S2P Require Import Prelude PyStr Json ArgumentsSchema.

Local Open Scope string_scope.
Local Open Scope list_scope.

(** ** What the operating system and the libraries do *)

Inductive Signal := SIGXCPU | SIGKILL | OtherSignal.
#[export] Instance Signal_eq_dec : EqDecision Signal.
Proof. solve_decision. Defined.
Inductive WaitStatus := Exited | Signaled (sig : Signal).

(** What [_read_and_reap] returns; the CPU time is in microseconds. *)
Record Reading := mk_reading {
  chunks : string;
  timed_out : bool;
  wait_status : WaitStatus;
  cpu_used : Z
}.

Record System := mk_system {
  os_pipe : outcome unit;
  os_fork : outcome unit;
  set_limits : outcome unit;                      (* [_apply_limits], in the child *)
  os_read : option string -> outcome Reading      (* of what the child wrote, if anything *)
}.

(** How [_validator(schema).validate(instance)] ends: the fields of a [ValidationError], or
    any other exception. The argument is the replacement of [uniqueItems]. *)
Inductive Verdict :=
  | Matches
  | Mismatch (keyword : option string) (required rejected : Json) (path : list Json)
  | Broken (e : exn).

Record Libraries := mk_libraries {
  json_dumps : Json -> outcome string;
  json_loads : string -> outcome Json;
  repr : Json -> string;
  class_name : exn_type -> string;
  jsonschema_validate : (bool -> Json -> bool) -> Json -> Json -> Verdict;
  check_schema : Json -> outcome unit
}.

Section isolation.
Context (sys : System) (lib : Libraries).

(** ** [api/domain/isolated.py] *)

Definition isolation_error {A} (reason : string) : outcome A := Raise (mk_exn IsolationError reason).

Definition too_much_memory (memory_mb : Z) : string := "it needed more than " +:+ pretty memory_mb +:+ " MB of memory".

Definition because (reason : string) : Json := JObj [("reason", JStr reason)].

(** [_run_child]: what it encodes. *)
Definition child_payload (work : outcome Json) (memory_mb : Z) : Json :=
  match (match set_limits sys with Ok _ => work | Raise e => Raise e end) with
  | Ok result => JObj [("result", result)]
  | Raise e => because (if isinstance e MemoryError then too_much_memory memory_mb
                        else "it raised " +:+ class_name lib (exn_class e))
  end.

(** [_run_child]: what it writes; nothing when even the reason cannot be encoded. *)
Definition run_child (work : outcome Json) (memory_mb : Z) : option string :=
  let encode v := match json_dumps lib v with Ok s => Some s | Raise _ => None end in
  match json_dumps lib (child_payload work memory_mb) with
  | Ok s => Some s
  | Raise e =>
      if isinstance e MemoryError then encode (because (too_much_memory memory_mb))
      else if isinstance e TypeError || isinstance e ValueError
      then encode (because "its result could not be encoded as JSON")
      else None
  end.

Definition read_and_reap (written : option string) : outcome Reading :=
  match os_read sys written with
  | Ok r => Ok r
  | Raise e =>
      if isinstance e OSError || isinstance e MemoryError
      then isolation_error ("its answer could not be read (" +:+ class_name lib (exn_class e) +:+ ": " +:+ exn_str e +:+ ")")
      else Raise e
  end.

Definition seconds (n : Z) : string := pretty n +:+ " seconds".

(** [_collect], without an answer and with one. *)
Definition no_answer (r : Reading) (wall_seconds cpu_seconds : Z) : string :=
  if timed_out r then "it took more than " +:+ pretty wall_seconds +:+ ".0 seconds of wall-clock time"
  else
    match wait_status r with
    | Signaled sig =>
        if bool_decide (sig = SIGXCPU)
           || (bool_decide (sig = SIGKILL) && (cpu_seconds * 1000000 <=? cpu_used r)%Z)
        then "it took more than " +:+ seconds cpu_seconds +:+ " of CPU time"
        else if bool_decide (sig = SIGKILL)
        then "it was killed by the operating system, most likely for using too much memory"
        else "it stopped without producing an answer"
    | Exited => "it stopped without producing an answer"
    end.

(** Indexing an answer that lacks what its sender always puts in it; the class of the error
    is not kept. *)
Definition key_error : exn := mk_exn KeyError "result".

Definition decode (text : string) : outcome Json :=
  match json_loads lib text with
  | Raise e => if isinstance e ValueError then isolation_error "it stopped without producing a complete answer"
               else Raise e
  | Ok (JObj payload) =>
      match get_key payload "reason" with
      | Some (JStr reason) => isolation_error reason
      | Some _ => isolation_error ""
      | None => match get_key payload "result" with Some v => Ok v | None => Raise key_error end
      end
  | Ok _ => Raise key_error
  end.

Definition collect (written : option string) (wall_seconds cpu_seconds : Z) : outcome Json :=
  match read_and_reap written with
  | Raise e => Raise e
  | Ok r =>
      if bool_decide (chunks r = "") then isolation_error (no_answer r wall_seconds cpu_seconds)
      else decode (chunks r)
  end.

Definition WALL_CLOCK_SLOWDOWN_FACTOR : Z := 5.

Definition run_isolated (work : outcome Json) (cpu_seconds memory_mb : Z) : outcome Json :=
  let not_started e :=
    if isinstance e OSError then isolation_error ("it could not be started: " +:+ exn_str e) else Raise e in
  match os_pipe sys with
  | Raise e => not_started e
  | Ok _ =>
      match os_fork sys with
      | Raise e => not_started e
      | Ok _ => collect (run_child work memory_mb) (cpu_seconds * WALL_CLOCK_SLOWDOWN_FACTOR) cpu_seconds
      end
  end.

(** ** [api/domain/arguments_schema.py] *)

Context (ARGUMENTS_SCHEMA_MEMORY_LIMIT_MB ARGUMENTS_SCHEMA_CPU_LIMIT_SECONDS : Z).

Definition memory_limit_mb : Z := Z.max 64 (Z.min ARGUMENTS_SCHEMA_MEMORY_LIMIT_MB 256).
Definition cpu_limit_seconds : Z := Z.max 1 (Z.min ARGUMENTS_SCHEMA_CPU_LIMIT_SECONDS 5).

(** [_answer_from_child]: an [IsolationError] is an [UnsupportedSchemaError]. *)
Definition answer_from_child (work : outcome Json) : outcome Json :=
  match run_isolated work cpu_limit_seconds memory_limit_mb with
  | Ok v => Ok v
  | Raise e => if isinstance e IsolationError then Raise (mk_exn UnsupportedSchemaError (exn_str e)) else Raise e
  end.

Definition MAX_EXCERPT_LENGTH : nat := 150.
Definition excerpt (v : Json) : string :=
  let text := repr lib v in
  if bool_decide (MAX_EXCERPT_LENGTH < String.length text)%nat
  then take_str MAX_EXCERPT_LENGTH text +:+ "... (value truncated)" else text.

Definition validation_message (keyword : option string) (required rejected : Json) : string :=
  match keyword with
  | None => "the schema rejects every value: rejected value " +:+ excerpt rejected
  | Some keyword =>
      "'" +:+ keyword +:+ "' validation failed, schema requires " +:+ excerpt required
      +:+ ": rejected value " +:+ excerpt rejected
  end.

Definition validate (schema instance_ : Json) : Verdict := jsonschema_validate lib unique_items schema instance_.

Definition unusable (e : exn) : string := class_name lib (exn_class e) +:+ ": " +:+ exn_str e.

Definition is_bad_json (e : exn) : bool := isinstance e ValueError || isinstance e RecursionError.

(** [work] of [validate_arguments_in_isolation]. *)
Definition validation_work (schema : Json) (arguments_str : string) : outcome Json :=
  match json_loads lib arguments_str with
  | Raise e =>
      if is_bad_json e
      then Ok (JObj [("invalid_arguments", JStr ("arguments is not valid JSON: " +:+ exn_str e))])
      else Raise e
  | Ok arguments =>
      if bool_decide (exceeds_max_depth arguments = Some true)
      then Ok (JObj [("invalid_arguments", JStr "arguments are nested more than 64 levels deep")])
      else
        match validate schema arguments with
        | Matches => Ok (JObj [("valid", JBool true)])
        | Mismatch keyword required rejected path =>
            Ok (JObj [("valid", JBool false); ("message", JStr (validation_message keyword required rejected));
                      ("path", JArr path)])
        | Broken e =>
            if isinstance e MemoryError then Raise e else Ok (JObj [("unusable", JStr (unusable e))])
        end
  end.

(** How the function ends: [None] is a return, the exceptions are those it names and any
    other one. *)
Inductive Refusal :=
  | InvalidArguments (message : string)
  | UnsupportedSchema (message : string)
  | NoMatch (message : string) (path : list Json)
  | Escaped (e : exn).

Definition text_of (v : option Json) : string := match v with Some (JStr s) => s | _ => "" end.

Definition validate_arguments_in_isolation (schema : Json) (arguments_str : string) : option Refusal :=
  match schema_shape_error schema with
  | Some error => Some (UnsupportedSchema error)
  | None =>
      match answer_from_child (validation_work schema arguments_str) with
      | Raise e => Some (if isinstance e UnsupportedSchemaError then UnsupportedSchema (exn_str e) else Escaped e)
      | Ok (JObj answer) =>
          if bool_decide (is_Some (get_key answer "invalid_arguments"))
          then Some (InvalidArguments (text_of (get_key answer "invalid_arguments")))
          else if bool_decide (is_Some (get_key answer "unusable"))
          then Some (UnsupportedSchema (text_of (get_key answer "unusable")))
          else
            match get_key answer "valid" with
            | Some (JBool true) => None
            | Some (JBool false) =>
                match get_key answer "message", get_key answer "path" with
                | Some (JStr message), Some (JArr path) => Some (NoMatch message path)
                | _, _ => Some (Escaped key_error)
                end
            | _ => Some (Escaped key_error)
            end
      | Ok _ => Some (Escaped key_error)
      end
  end.

(** [work] of [check_uploaded_schema_in_isolation]: the error it reports, or [None]. *)
Definition upload_work (schema_str : string) : outcome (option string) :=
  match json_loads lib schema_str with
  | Raise e => if is_bad_json e then Ok (Some "it must be valid JSON") else Raise e
  | Ok schema =>
      match schema_shape_error schema with
      | Some error => Ok (Some error)
      | None =>
          if bool_decide (exceeds_max_depth schema = Some true)
          then Ok (Some "it is nested more than 64 levels deep")
          else if bool_decide (exceeds_max_nodes schema = Some true)
          then Ok (Some "it contains more than 200 subschemas")
          else
            match find_external_ref schema with
            | Some ref => Ok (Some ("it must not reference external resources: '" +:+ ref +:+ "'. Inline the "
                +:+ "definitions or use an internal reference such as '#/$defs/name'"))
            | None =>
                match find_unresolvable_ref schema with
                | Some ref => Ok (Some ("it contains a reference that does not resolve: '" +:+ ref +:+ "'"))
                | None =>
                    match check_schema lib schema with
                    | Raise e =>
                        if isinstance e SchemaError then Ok (Some ("it is not a valid JSON Schema: " +:+ exn_str e))
                        else if isinstance e MemoryError then Raise e
                        else Ok (Some ("it cannot be used (" +:+ unusable e +:+ ")"))
                    | Ok _ =>
                        match validate schema (JObj []) with
                        | Matches | Mismatch _ _ _ _ => Ok None
                        | Broken e =>
                            if isinstance e MemoryError then Raise e
                            else Ok (Some ("it cannot be used (" +:+ unusable e +:+ ")"))
                        end
                    end
                end
            end
      end
  end.

Definition check_uploaded_schema_in_isolation (schema_str : string) : option Refusal :=
  let work := match upload_work schema_str with
              | Ok (Some error) => Ok (JObj [("error", JStr error)])
              | Ok None => Ok (JObj [("ok", JBool true)])
              | Raise e => Raise e
              end in
  match answer_from_child work with
  | Raise e => Some (if isinstance e UnsupportedSchemaError then UnsupportedSchema (exn_str e) else Escaped e)
  | Ok (JObj answer) =>
      if bool_decide (is_Some (get_key answer "error"))
      then Some (UnsupportedSchema (text_of (get_key answer "error"))) else None
  | Ok _ => Some (Escaped key_error)
  end.

(** ** [api/use_cases/programs/validate_arguments.py] *)

Context (MAX_ARGUMENTS_LENGTH_MB : nat).

Definition MAX_MESSAGE_LENGTH : nat := 500.
Definition shortened (message : string) : string :=
  if bool_decide (String.length message <= MAX_MESSAGE_LENGTH)%nat then message
  else take_str MAX_MESSAGE_LENGTH message +:+ "... (message truncated)".
Definition shortened_path (path : list Json) : list Json :=
  map (fun segment => match segment with JStr s => JStr (shortened s) | _ => segment end) path.

(** [None] is a return, [Some (inl ...)] the [InvalidArgumentsException] with its message and
    path, [Some (inr e)] any other exception. *)
Definition validate_arguments (arguments_schema arguments_str : option string)
    : option (string * list Json + exn) :=
  let invalid message := Some (inl (message, [])) in
  if negb (truthy arguments_schema) || bool_decide (arguments_schema = Some "{}") then None
  else
    let schema_str := default "" arguments_schema in
    let arguments := default "" arguments_str in
    let max_arguments_bytes := (N.of_nat MAX_ARGUMENTS_LENGTH_MB * 1024 * 1024)%N in
    if bool_decide (MAX_SCHEMA_LENGTH < String.length schema_str)%nat then
      invalid ("the function arguments schema is " +:+ pretty (N.of_nat (String.length schema_str))
               +:+ " characters long and the maximum is 65536")
    else if bool_decide (max_arguments_bytes < N.of_nat (String.length arguments))%N then
      invalid ("arguments are " +:+ pretty (N.of_nat (String.length arguments))
               +:+ " characters long and the maximum is " +:+ pretty max_arguments_bytes)
    else
      match json_loads lib schema_str with
      | Raise e => if is_bad_json e then invalid "the function arguments schema is not valid JSON" else Some (inr e)
      | Ok (JObj []) => None
      | Ok schema =>
          if bool_decide (exceeds_max_depth schema = Some true) then
            invalid "the function arguments schema is nested more than 64 levels deep"
          else if bool_decide (exceeds_max_nodes schema = Some true) then
            invalid "the function arguments schema contains more than 200 subschemas"
          else
            match validate_arguments_in_isolation schema (if truthy arguments_str then arguments else "{}") with
            | None => None
            | Some (InvalidArguments message) => invalid (shortened message)
            | Some (UnsupportedSchema message) =>
                invalid (shortened ("the function arguments schema cannot be used: " +:+ message))
            | Some (NoMatch message path) => Some (inl (shortened message, shortened_path path))
            | Some (Escaped e) => Some (inr e)
            end
      end.
End isolation.
