(* ===== verification/ValidateArgumentsProps.v ===== *)
(** * Correctness of the validation in a child process

    An accepted call was really checked within its limits, and nothing that goes wrong on the
    way leaves as an error of the gateway. *)

From stdpp Require Import pretty.
From S2P Require Import Prelude PyStr Json ArgumentsSchema ArgumentsSchemaProps ValidateArguments.

Local Open Scope string_scope.
Local Open Scope list_scope.

(** What the operating system documents: the calls raise [OSError], reading can also run out
    of memory, and the parent reads what the child wrote or the first part of it. *)
Class SystemLaws (sys : System) : Prop := {
  pipe_raises e : os_pipe sys = Raise e -> isinstance e OSError = true;
  fork_raises e : os_fork sys = Raise e -> isinstance e OSError = true;
  read_raises w e : os_read sys w = Raise e -> isinstance e OSError = true \/ isinstance e MemoryError = true;
  read_prefix w r : os_read sys w = Ok r -> exists rest, default "" w = chunks r +:+ rest
}.

(** What the [json] module documents: reading back what was written, no object in a text cut
    short, and which exceptions a text causes. *)
Class JsonLaws (lib : Libraries) : Prop := {
  dumps_loads v s : json_dumps lib v = Ok s -> json_loads lib s = Ok v;
  dumps_cut m s p rest :
    json_dumps lib (JObj m) = Ok s -> s = p +:+ rest -> p <> "" -> rest <> "" ->
    exists e, json_loads lib p = Raise e /\ isinstance e ValueError = true;
  loads_raises s e : json_loads lib s = Raise e -> is_bad_json e = true
}.

Section isolation.
Context (sys : System) (lib : Libraries) `{!SystemLaws sys} `{!JsonLaws lib}.

(** ** The child and its parent *)

Lemma run_child_writes work mb s :
  run_child sys lib work mb = Some s ->
  exists m, json_dumps lib (JObj m) = Ok s
    /\ ((exists v, work = Ok v /\ set_limits sys = Ok tt /\ m = [("result", v)])
        \/ exists reason, m = [("reason", JStr reason)]).
Proof.
  intros H. set (good m := json_dumps lib (JObj m) = Ok s
    /\ ((exists v, work = Ok v /\ set_limits sys = Ok tt /\ m = [("result", v)])
        \/ exists reason, m = [("reason", JStr reason)])). fold good. revert H.
  assert (forall reason, match json_dumps lib (because reason) with Ok s => Some s | Raise _ => None end = Some s ->
    exists m, good m) as Hr.
  { intros reason. destruct (json_dumps lib _) as [s'|] eqn:E'; [|done]. intros [= ->]. eexists.
    split; [exact E'|]. right. by eexists. }
  assert (exists m, child_payload sys lib work mb = JObj m
    /\ ((exists v, work = Ok v /\ set_limits sys = Ok tt /\ m = [("result", v)])
        \/ exists reason, m = [("reason", JStr reason)])) as (m & Em & Hm).
  { unfold child_payload. destruct (set_limits sys) as [[]|e]; [destruct work as [v|e]|];
      (eexists; split; [reflexivity|]); [left; by exists v|right; by eexists..]. }
  unfold run_child. rewrite Em. destruct (json_dumps lib (JObj m)) as [s'|e] eqn:E.
  - intros [= ->]. by exists m.
  - destruct (isinstance e MemoryError); [apply Hr|]. destruct (_ || _); [apply Hr|done].
Qed.

(** A result the parent returns is the one the work had, and all it raises is the class the
    isolation documents. *)
Lemma run_isolated_spec work cpu mb :
  match run_isolated sys lib work cpu mb with
  | Ok v => work = Ok v
  | Raise e => exn_class e = IsolationError
  end.
Proof.
  unfold run_isolated, isolation_error.
  destruct (os_pipe sys) as [[]|e] eqn:Ep; [|by rewrite (pipe_raises e Ep)].
  destruct (os_fork sys) as [[]|e] eqn:Ef; [|by rewrite (fork_raises e Ef)].
  unfold collect, read_and_reap. set (w := run_child sys lib work mb).
  destruct (os_read sys w) as [r|e] eqn:Er.
  2:{ destruct (read_raises w e Er) as [->| ->]; [done|by rewrite orb_true_r]. }
  case_bool_decide as Hc; [done|]. destruct (read_prefix w r Er) as [rest Hw].
  destruct w as [s|] eqn:Ew; [|by destruct (chunks r)]. cbn in Hw.
  destruct (run_child_writes work mb s Ew) as (m & Hd & Hm). unfold decode.
  destruct (decide (rest = "")) as [->|Hrest].
  - rewrite app_empty_r in Hw. subst s.
    rewrite (dumps_loads _ _ Hd). destruct Hm as [(v & -> & _ & ->)|[reason ->]]; done.
  - destruct (dumps_cut m s (chunks r) rest Hd Hw Hc Hrest) as (e & -> & He). by rewrite He.
Qed.

Context (MEM CPU : Z) (MAX_MB : nat).

Lemma answer_from_child_spec work :
  match answer_from_child sys lib MEM CPU work with
  | Ok v => work = Ok v
  | Raise e => exn_class e = UnsupportedSchemaError
  end.
Proof.
  unfold answer_from_child. pose proof (run_isolated_spec work (cpu_limit_seconds CPU) (memory_limit_mb MEM)) as H.
  destruct (run_isolated _ _ _ _ _) as [v|e]; [done|]. unfold isinstance. by rewrite H.
Qed.

Lemma isinstance_self e c : exn_class e = c -> isinstance e c = true.
Proof. destruct e as [k s]. cbn. intros <-. by destruct k. Qed.

(** What the validation of parsed arguments answers. *)
Lemma validate_in_isolation_spec schema arguments_str :
  match validate_arguments_in_isolation sys lib MEM CPU schema arguments_str with
  | Some (Escaped e) => False
  | Some _ => True
  | None => exists arguments, json_loads lib arguments_str = Ok arguments
      /\ (depth arguments <= MAX_DOCUMENT_DEPTH)%nat /\ validate lib schema arguments = Matches
  end.
Proof.
  unfold validate_arguments_in_isolation. destruct (schema_shape_error schema); [done|].
  pose proof (answer_from_child_spec (validation_work lib schema arguments_str)) as H.
  destruct (answer_from_child _ _ _ _ _) as [v|e]; [|by rewrite (isinstance_self _ _ H)].
  unfold validation_work in H. destruct (json_loads lib arguments_str) as [arguments|e]; [|by destruct (is_bad_json e); simplify_eq].
  case_bool_decide as Hd; [by simplify_eq|]. destruct (validate lib schema arguments) as [|k req rej path|e] eqn:Ev; simplify_eq.
  - exists arguments. split; [done|]. split; [|done]. rewrite (proj1 (schema_limits arguments)) in Hd.
    case_bool_decide; [done|lia].
  - done.
  - destruct (isinstance e MemoryError); [done|]. by simplify_eq.
Qed.

(** Nothing goes wrong on the way, and [answer] can be written. *)
Record delivers (answer : Json) : Prop := {
  pipe_ok : os_pipe sys = Ok tt;
  fork_ok : os_fork sys = Ok tt;
  limits_ok : set_limits sys = Ok tt;
  read_all s : exists r, os_read sys (Some s) = Ok r /\ chunks r = s;
  dumps_ok : exists s, json_dumps lib (JObj [("result", answer)]) = Ok s /\ s <> ""
}.

Lemma delivered work answer :
  delivers answer -> work = Ok answer -> answer_from_child sys lib MEM CPU work = Ok answer.
Proof.
  intros [Hp Hf Hl Hr (s & Hs & Hne)] ->. unfold answer_from_child, run_isolated. rewrite Hp, Hf.
  unfold run_child, child_payload. rewrite Hl, Hs. unfold collect, read_and_reap.
  destruct (Hr s) as (r & -> & Hc). rewrite Hc, bool_decide_false by done. unfold decode. by rewrite (dumps_loads _ _ Hs).
Qed.

(** ** [validate_arguments] *)

Definition max_arguments_bytes : N := (N.of_nat MAX_MB * 1024 * 1024)%N.

(** The two texts are within their limits. *)
Definition short_enough (schema_str arguments_str : option string) : Prop :=
  (String.length (default "" schema_str) <= MAX_SCHEMA_LENGTH)%nat
  /\ (N.of_nat (String.length (default "" arguments_str)) <= max_arguments_bytes)%N.

(** The function has no schema: none is stored, or an empty one. *)
Definition no_schema (schema_str arguments_str : option string) : Prop :=
  truthy schema_str = false \/ schema_str = Some "{}"
  \/ (short_enough schema_str arguments_str /\ json_loads lib (default "" schema_str) = Ok (JObj [])).

(** The arguments match a schema that is within the limits, and so are they. *)
Definition matched (schema_str arguments_str : option string) : Prop :=
  exists schema arguments,
    short_enough schema_str arguments_str
    /\ json_loads lib (default "" schema_str) = Ok schema
    /\ json_loads lib (if truthy arguments_str then default "" arguments_str else "{}") = Ok arguments
    /\ schema_shape_error schema = None
    /\ (depth schema <= MAX_DOCUMENT_DEPTH)%nat /\ (nodes schema <= MAX_SCHEMA_NODES)%nat
    /\ (depth arguments <= MAX_DOCUMENT_DEPTH)%nat
    /\ validate lib schema arguments = Matches.

Lemma short_path path : Forall (fun v => match v with JStr s => (String.length s <= 523)%nat | _ => True end) (shortened_path path).
Proof.
  apply Forall_map, Forall_true. intros [| | |s| |]; cbn; try done. unfold shortened. case_bool_decide as H.
  - unfold MAX_MESSAGE_LENGTH in H. lia.
  - rewrite length_str_app. pose proof (length_take_str MAX_MESSAGE_LENGTH s) as Hl.
    change (String.length "... (message truncated)") with 23%nat. unfold MAX_MESSAGE_LENGTH in Hl at 2. lia.
Qed.

Lemma not_deep v : (bool_decide (exceeds_max_depth v = Some true) = false) <-> (depth v <= MAX_DOCUMENT_DEPTH)%nat.
Proof.
  rewrite (proj1 (schema_limits v)), bool_decide_eq_false. destruct (bool_decide_reflect (MAX_DOCUMENT_DEPTH < depth v)%nat);
    split; (lia || done || by intros []).
Qed.
Lemma not_large v : (bool_decide (exceeds_max_nodes v = Some true) = false) <-> (nodes v <= MAX_SCHEMA_NODES)%nat.
Proof.
  rewrite (proj2 (schema_limits v)), bool_decide_eq_false. destruct (bool_decide_reflect (MAX_SCHEMA_NODES < nodes v)%nat);
    split; (lia || done || by intros []).
Qed.

Local Abbreviation run := (validate_arguments sys lib MEM CPU MAX_MB).

Lemma empty_or_not schema :
  schema = JObj [] \/ forall A (x y : A), match schema with JObj [] => x | _ => y end = y.
Proof. destruct schema as [| | | | |[|]]; auto. Qed.

Lemma short_spec schema_str arguments_str :
  bool_decide (MAX_SCHEMA_LENGTH < String.length (default "" schema_str))%nat = false ->
  bool_decide (N.of_nat MAX_MB * 1024 * 1024 < N.of_nat (String.length (default "" arguments_str)))%N = false ->
  short_enough schema_str arguments_str.
Proof. intros H1%bool_decide_eq_false H2%bool_decide_eq_false. unfold short_enough, max_arguments_bytes. lia. Qed.

(** Every end of the run. *)
Lemma validate_arguments_ends schema_str arguments_str :
  match run schema_str arguments_str with
  | None => no_schema schema_str arguments_str \/ matched schema_str arguments_str
  | Some (inl (_, path)) => Forall (fun v => match v with JStr s => (String.length s <= 523)%nat | _ => True end) path
  | Some (inr _) => False
  end.
Proof.
  unfold validate_arguments. destruct (truthy schema_str) eqn:Ht; [|by left; left].
  cbn [negb orb]. case_bool_decide as He; [by left; right; left|].
  destruct (bool_decide _) eqn:Hs; [by constructor|]. destruct (bool_decide (_ < N.of_nat _)%N) eqn:Ha; [by constructor|].
  pose proof (short_spec _ _ Hs Ha) as Hshort.
  destruct (json_loads lib (default "" schema_str)) as [schema|e] eqn:El; [|by rewrite (loads_raises _ _ El); constructor].
  destruct (empty_or_not schema) as [->|Hne]; [left; right; by right|]. rewrite Hne.
  destruct (bool_decide (exceeds_max_depth schema = Some true)) eqn:Hd; [by constructor|].
  destruct (bool_decide (exceeds_max_nodes schema = Some true)) eqn:Hn; [by constructor|].
  set (text := if truthy arguments_str then _ else "{}").
  pose proof (validate_in_isolation_spec schema text) as H.
  destruct (validate_arguments_in_isolation _ _ _ _ _ _) as [[| |message path|e]|] eqn:Ev; [by constructor| |apply short_path|done|].
  { by constructor. }
  destruct H as (arguments & Hl & Hda & Hv). right. exists schema, arguments.
  split_and!; try done; [|by apply not_deep|by apply not_large].
  unfold validate_arguments_in_isolation in Ev. by destruct (schema_shape_error schema).
Qed.

Lemma matched_accepted schema_str arguments_str :
  delivers (JObj [("valid", JBool true)]) -> matched schema_str arguments_str -> run schema_str arguments_str = None.
Proof.
  intros Hok (schema & arguments & [Hs Ha] & El & Ela & Hshape & Hd%not_deep & Hn%not_large & Hda%not_deep & Hv).
  unfold validate_arguments. destruct (negb _ || _); [done|]. unfold max_arguments_bytes in Ha.
  rewrite bool_decide_false by lia. rewrite bool_decide_false by lia. rewrite El.
  destruct (empty_or_not schema) as [->|Hne]; [done|].
  rewrite Hne, Hd, Hn. unfold validate_arguments_in_isolation. rewrite Hshape.
  rewrite (delivered _ (JObj [("valid", JBool true)]) Hok); [done|]. unfold validation_work. by rewrite Ela, Hda, Hv.
Qed.

(** C17: a call is accepted only when the function has no schema, or when the schema and the
    arguments are within their limits and the library finds that the arguments match; it is
    accepted then whenever nothing goes wrong on the way. Everything else, a child that dies,
    hangs, answers nonsense or cannot even start included, is the error the caller is told
    about, whose path stays short. *)
Theorem validate_arguments_contained schema_str arguments_str :
  (validate_arguments sys lib MEM CPU MAX_MB schema_str arguments_str = None ->
     no_schema schema_str arguments_str \/ matched schema_str arguments_str)
  /\ (no_schema schema_str arguments_str ->
     validate_arguments sys lib MEM CPU MAX_MB schema_str arguments_str = None)
  /\ (delivers (JObj [("valid", JBool true)]) -> matched schema_str arguments_str ->
     validate_arguments sys lib MEM CPU MAX_MB schema_str arguments_str = None)
  /\ (validate_arguments sys lib MEM CPU MAX_MB schema_str arguments_str <> None ->
     exists message path, validate_arguments sys lib MEM CPU MAX_MB schema_str arguments_str = Some (inl (message, path))
       /\ Forall (fun v => match v with JStr s => (String.length s <= 523)%nat | _ => True end) path).
Proof.
  pose proof (validate_arguments_ends schema_str arguments_str) as H. split_and!.
  - intros E. by rewrite E in H.
  - intros [Ht|[->|[[Hs Ha] Hl]]]; unfold validate_arguments; [by rewrite Ht|done|].
    destruct (negb _ || _); [done|]. unfold max_arguments_bytes in Ha.
    rewrite bool_decide_false by lia. rewrite bool_decide_false by lia. by rewrite Hl.
  - apply matched_accepted.
  - intros Hne. destruct (validate_arguments _ _ _ _ _ _ _) as [[[message path]|e]|]; [|done..]. by exists message, path.
Qed.

(** ** [check_uploaded_schema_in_isolation] *)

(** A schema the gateway can use, by the documents that define one: an object or a boolean, within the limits,
    whose references are to the document itself and, when they are pointers, point to something in it (RFC 6901), and that the
    library accepts and can evaluate. Pointers are not looked at in a document that declares an [$id], and [#/] never is. *)
Record usable (schema : Json) : Prop := {
  usable_shape : (exists m, schema = JObj m) \/ exists b, schema = JBool b;
  usable_depth : (depth schema <= MAX_DOCUMENT_DEPTH)%nat;
  usable_nodes : (nodes schema <= MAX_SCHEMA_NODES)%nat;
  usable_internal ref : refers schema ref -> exists fragment, ref = String "#" fragment;
  usable_resolves ref : refers schema ref -> is_pointer ref -> declares_id schema \/ ref = "#/" \/ resolves schema ref;
  usable_schema : exists u, check_schema lib schema = Ok u;
  usable_trial e : validate lib schema (JObj []) <> Broken e
}.

Lemma shape_spec schema : schema_shape_error schema = None <-> (exists m, schema = JObj m) \/ exists b, schema = JBool b.
Proof. split; [destruct schema; by eauto|by intros [[m ->]|[b ->]]]. Qed.
Lemma starts_with_hash ref : startswith "#" ref = true <-> exists fragment, ref = String "#" fragment.
Proof.
  split; [|by intros [f ->]]. destruct ref as [|c ref]; [done|]. cbn. rewrite andb_true_r. intros <-%bool_decide_eq_true. by exists ref.
Qed.

Lemma find_external_ref_spec schema :
  match find_external_ref schema with
  | None => forall ref, refers schema ref -> exists fragment, ref = String "#" fragment
  | Some ref => refers schema ref /\ ~ exists fragment, ref = String "#" fragment
  end.
Proof.
  pose proof (find_ref_spec (fun ref => negb (startswith "#" ref)) schema) as H. unfold find_external_ref.
  destruct (find_ref _ schema) as [ref|].
  - by rewrite <- starts_with_hash, not_true_iff_false, <- negb_true_iff.
  - intros ref Hr. apply starts_with_hash, negb_false_iff, (H ref Hr).
Qed.

Lemma find_unresolvable_ref_spec schema :
  match find_unresolvable_ref schema with
  | None => forall ref, refers schema ref -> is_pointer ref -> declares_id schema \/ ref = "#/" \/ resolves schema ref
  | Some ref => ~ declares_id schema /\ refers schema ref /\ is_pointer ref /\ ref <> "#/" /\ ~ resolves schema ref
  end.
Proof.
  unfold find_unresolvable_ref. pose proof (holds_subresource_spec schema) as Hid. destruct (holds_subresource schema); [by left; apply Hid|].
  pose proof (find_ref_spec (dangling schema) schema) as H. destruct (find_ref _ schema) as [ref|].
  - destruct H as [Hr Hd%dangling_spec]. split; [intros Hi; by apply Hid in Hi|done].
  - intros ref Hr Hp. right. specialize (H ref Hr). apply not_true_iff_false in H. rewrite dangling_spec in H.
    pose proof (pointer_resolves_spec schema ref Hp) as Hs. destruct (pointer_resolves schema ref); [by apply Hs|].
    destruct (decide (ref = "#/")); [by left|]. right. destruct H. split_and!; try done. intros Hres. discriminate (proj2 Hs (or_intror Hres)).
Qed.

Lemma upload_work_ends schema_str :
  match upload_work lib schema_str with
  | Ok None => exists schema, json_loads lib schema_str = Ok schema /\ usable schema
  | _ => forall schema, json_loads lib schema_str = Ok schema -> ~ usable schema
  end.
Proof.
  unfold upload_work. destruct (json_loads lib schema_str) as [schema|e] eqn:El; [|by rewrite (loads_raises _ _ El)].
  destruct (schema_shape_error schema) as [error|] eqn:Hshape; [intros ? [= <-] [Hs]; apply shape_spec in Hs; congruence|].
  destruct (bool_decide (exceeds_max_depth schema = Some true)) eqn:Hd; [intros ? [= <-] [_ H%not_deep]; congruence|].
  destruct (bool_decide (exceeds_max_nodes schema = Some true)) eqn:Hn; [intros ? [= <-] [_ _ H%not_large]; congruence|].
  pose proof (find_external_ref_spec schema) as Hext. destruct (find_external_ref schema) as [ref|].
  { intros ? [= <-] [_ _ _ H]. destruct Hext as [Hr Hp]. by apply Hp, H. }
  pose proof (find_unresolvable_ref_spec schema) as Hres. destruct (find_unresolvable_ref schema) as [ref|].
  { intros ? [= <-] [_ _ _ _ H]. destruct Hres as (Hs & Hr & Hp & Hne & Hno). by destruct (H _ Hr Hp) as [|[|]]. }
  destruct (check_schema lib schema) as [u|e] eqn:Hc.
  2:{ assert (forall schema', Ok schema = Ok schema' -> ~ usable schema') as Hno
        by (intros ? [= <-] [_ _ _ _ _ [u H] _]; congruence).
      destruct (isinstance e SchemaError); [done|]. by destruct (isinstance e MemoryError). }
  destruct (validate lib schema (JObj [])) as [|? ? ? ?|e] eqn:Hv.
  3:{ assert (forall schema', Ok schema = Ok schema' -> ~ usable schema') as Hno
        by (intros ? [= <-] [_ _ _ _ _ _ H]; by destruct (H e)).
      by destruct (isinstance e MemoryError). }
  all: exists schema; split; [done|]; constructor; rewrite ?Hv; try done;
    [by apply shape_spec|by apply not_deep|by apply not_large|by exists u].
Qed.

(** C18: the schema of an upload is accepted only when it is usable: an object or a boolean
    within the limits, whose references are internal, whose pointers point to something in the document (unless it declares an
    [$id], where they are not looked at, and [#/] apart), and that the library accepts;
    a usable one is accepted whenever nothing goes wrong on the way, and every refusal is the
    error the uploader is told about. *)
Theorem upload_accepts schema_str :
  let result := check_uploaded_schema_in_isolation sys lib MEM CPU schema_str in
  (result = None -> exists schema, json_loads lib schema_str = Ok schema /\ usable schema)
  /\ (delivers (JObj [("ok", JBool true)]) ->
      (exists schema, json_loads lib schema_str = Ok schema /\ usable schema) -> result = None)
  /\ (result <> None -> exists message, result = Some (UnsupportedSchema message)).
Proof.
  unfold check_uploaded_schema_in_isolation. cbn zeta.
  set (work := match upload_work lib schema_str with Ok (Some _) => _ | Ok None => _ | Raise e => Raise e end).
  pose proof (answer_from_child_spec work) as H. pose proof (upload_work_ends schema_str) as Hends. split_and!.
  - destruct (answer_from_child _ _ _ _ work) as [v|e]; [|done]. unfold work in H.
    destruct (upload_work lib schema_str) as [[error|]|e]; simplify_eq; [done|]. intros _. exact Hends.
  - intros Hok (schema & Hl & Hu). unfold work.
    destruct (upload_work lib schema_str) as [[error|]|e]; [by destruct (Hends _ Hl)| |by destruct (Hends _ Hl)].
    by rewrite (delivered _ _ Hok eq_refl).
  - intros Hne. destruct (answer_from_child _ _ _ _ work) as [v|e].
    + unfold work in H. destruct (upload_work lib schema_str) as [[error|]|e]; simplify_eq; by eexists.
    + rewrite (isinstance_self _ _ H). by eexists.
Qed.

End isolation.

(** ** The hypotheses hold of a system that delivers and of a table of texts *)

Module Sample.
(** A text with its quotes. *)
Definition text (s : string) : string := map_str (fun c => if bool_decide (c = "'"%char) then ascii_of_nat 34 else c) s.

Definition payload (key : string) : Json := JObj [("result", JObj [(key, JBool true)])].
Definition table : list (string * Json) :=
  [ (text "{'result': {'valid': true}}", payload "valid");
    (text "{'result': {'ok': true}}", payload "ok");
    (text "{'type': 'object'}", JObj [("type", JStr "object")]);
    ("{}", JObj []) ].

Definition bad_json : exn := mk_exn ValueError "Expecting value".
Definition dumps (v : Json) : outcome string :=
  match v with
  | JObj [("result", JObj [("valid", JBool true)])] => Ok (text "{'result': {'valid': true}}")
  | JObj [("result", JObj [("ok", JBool true)])] => Ok (text "{'result': {'ok': true}}")
  | _ => Raise bad_json
  end.
Definition loads (s : string) : outcome Json :=
  match get_key table s with Some v => Ok v | None => Raise bad_json end.

(** The keyword [type] for objects. *)
Definition check_type (unique : bool -> Json -> bool) (schema instance_ : Json) : Verdict :=
  match schema, instance_ with
  | JObj [("type", JStr "object")], JObj _ => Matches
  | JObj [("type", required)], v => Mismatch (Some "type") required v []
  | _, _ => Matches
  end.

Definition lib : Libraries :=
  mk_libraries dumps loads (fun _ => "...") (fun _ => "Error") check_type (fun _ => Ok tt).
Definition sys : System :=
  mk_system (Ok tt) (Ok tt) (Ok tt) (fun w => Ok (mk_reading (default "" w) false Exited 0)).

#[global] Instance sys_laws : SystemLaws sys.
Proof. split; try done. intros w r [= <-]. exists "". by rewrite app_empty_r. Qed.

Lemma dumps_inv v s :
  dumps v = Ok s ->
  v = payload "valid" /\ s = text "{'result': {'valid': true}}" \/ v = payload "ok" /\ s = text "{'result': {'ok': true}}".
Proof.
  unfold dumps. intros H. repeat case_match; simplify_eq; auto.
Qed.

(** No text of the table is cut short of an answer. *)
Lemma cut_not_in_table s p rest :
  s ∈ [text "{'result': {'valid': true}}"; text "{'result': {'ok': true}}"] ->
  s = p +:+ rest -> rest <> "" -> loads p = Raise bad_json.
Proof.
  intros Hs -> Hrest. unfold loads. destruct (get_key table p) as [v|] eqn:E; [|done].
  assert (p ∈ table.*1) as Hp.
  { unfold get_key in E. destruct (list_find _ table) as [[i kv]|] eqn:F; [|done].
    apply list_find_Some in F as (F & <- & _). apply list_elem_of_fmap_2, (list_elem_of_lookup_2 _ _ _ F). }
  assert (forallb (fun t => forallb (fun s => negb (startswith t s) || bool_decide (t = s))
            [text "{'result': {'valid': true}}"; text "{'result': {'ok': true}}"]) table.*1 = true) as Hall by reflexivity.
  rewrite forallb_spec in Hall. specialize (Hall p Hp). rewrite forallb_spec in Hall. specialize (Hall _ Hs).
  rewrite startswith_app in Hall. apply bool_decide_eq_true in Hall. apply (f_equal String.length) in Hall.
  rewrite length_str_app in Hall. destruct rest; [done|]. cbn in Hall. lia.
Qed.

#[global] Instance lib_laws : JsonLaws lib.
Proof.
  split.
  - by intros v s [[-> ->]|[-> ->]]%dumps_inv.
  - intros m s p rest H%dumps_inv Hs _ Hrest. exists bad_json. split; [|done].
    apply (cut_not_in_table s p rest); [|done..]. destruct H as [[_ ->]|[_ ->]]; set_solver.
  - cbn. unfold loads. intros s e H. by destruct (get_key table s); simplify_eq.
Qed.

Lemma delivers_sample key : key ∈ ["valid"; "ok"] -> delivers sys lib (JObj [(key, JBool true)]).
Proof.
  intros H. split; try done; [by eexists|].
  apply elem_of_cons in H as [->|H%list_elem_of_singleton]; [|subst]; by eexists.
Qed.
End Sample.

Lemma validate_arguments_contained_witness :
  validate_arguments Sample.sys Sample.lib 128 2 2 (Some (Sample.text "{'type': 'object'}")) None = None
  /\ validate_arguments Sample.sys Sample.lib 128 2 2 (Some "{}") (Some "[") = None.
Proof.
  split.
  - destruct (validate_arguments_contained Sample.sys Sample.lib 128 2 2 (Some (Sample.text "{'type': 'object'}")) None)
      as (_ & _ & H & _).
    apply H; [apply Sample.delivers_sample; set_solver|].
    exists (JObj [("type", JStr "object")]), (JObj []). split; [split; [by apply Nat.leb_le|by apply N.leb_le]|].
    split_and!; first [reflexivity|by apply Nat.leb_le].
  - destruct (validate_arguments_contained Sample.sys Sample.lib 128 2 2 (Some "{}") (Some "[")) as (_ & H & _).
    apply H. right. by left.
Defined.

Lemma upload_accepts_witness :
  check_uploaded_schema_in_isolation Sample.sys Sample.lib 128 2 (Sample.text "{'type': 'object'}") = None.
Proof.
  destruct (upload_accepts Sample.sys Sample.lib 128 2 (Sample.text "{'type': 'object'}")) as (_ & H & _).
  apply H; [apply Sample.delivers_sample; set_solver|].
  exists (JObj [("type", JStr "object")]). split; [reflexivity|].
  pose proof (find_external_ref_spec (JObj [("type", JStr "object")])) as He.
  pose proof (find_unresolvable_ref_spec (JObj [("type", JStr "object")])) as Hu.
  constructor; [left; by eexists|by apply Nat.leb_le|by apply Nat.leb_le|exact He|exact Hu|by exists tt|done].
Defined.
