(* ===== verification/Access.v ===== *)
(** * Who may see and do what

    The functions an instance may use ([core/domain/authorization/]), the queries over
    functions ([core/model_managers/functions.py]), the access policies
    ([api/access_policies/]) and the listings built on them ([api/use_cases/programs/] and
    [api/use_cases/jobs/]). *)

From S2P Require Import Prelude PyStr Domain Models World JobEvents.

Local Open Scope string_scope.
Local Open Scope list_scope.

(** ** The tables the checks read

    Rows are listed in the order of their primary keys, which is the order [first()] gives a
    queryset without one. *)

Record Group := mk_group { group_id : nat; group_users : list nat; group_permissions : list string }.

Record Catalog := mk_catalog {
  providers : list Provider;
  functions : list Program;
  groups : list Group;
  admin_groups : nat -> list nat;          (* Provider.admin_groups, by provider *)
  instances : nat -> list nat;             (* Program.instances, by function *)
  trial_instances : nat -> list nat;       (* Program.trial_instances *)
  function_sizes_rows : list FunctionSize;
  compute_profiles : list ComputeProfile;
  projects : list CodeEngineProject
}.

Definition VIEW_PROGRAM_PERMISSION : string := "view_program".
Definition RUN_PROGRAM_PERMISSION : string := "run_program".
Definition PLATFORM_PERMISSION_READ : string := "function.read".
Definition PLATFORM_PERMISSION_RUN : string := "function.run".
Definition PLATFORM_PERMISSION_WRITE : string := "function.write".
Definition PLATFORM_PERMISSION_JOBS_READ : string := "function-job.read".
Definition PLATFORM_PERMISSION_PROVIDER_LOGS : string := "function-provider-logs.read".
Definition PLATFORM_PERMISSION_USER_FILES_READ : string := "function-files.read".
Definition PLATFORM_PERMISSION_USER_FILES_WRITE : string := "function-files.write".
Definition PLATFORM_PERMISSION_PROVIDER_FILES_READ : string := "function-provider-files.read".
Definition PLATFORM_PERMISSION_PROVIDER_FILES_WRITE : string := "function-provider-files.write".
Definition PLATFORM_PERMISSION_CUSTOM_WRITE : string := "function-custom.write".
Definition PLATFORM_PERMISSION_CUSTOM_RUN : string := "function-custom.run".

(** ** What an instance is entitled to *)

Record FunctionAccessEntry := mk_entry {
  e_provider_name : string;
  e_function_title : string;
  e_business_model : string;
  e_permissions : list string
}.

Definition VALID_BUSINESS_MODELS : list string :=
  [BusinessModel.TRIAL; BusinessModel.LICENSED; BusinessModel.CONSUMPTION].

(** The constructor with its [__post_init__]. *)
Definition make_entry (provider_name title business_model : string) (permissions : list string)
    : outcome FunctionAccessEntry :=
  let business_model := BusinessModel.licensed_instead_of_subsidized (upper business_model) in
  if bool_decide (business_model ∈ VALID_BUSINESS_MODELS)
  then Ok (mk_entry provider_name title business_model permissions)
  else Raise (mk_exn ValueError ("Invalid business_model '" +:+ business_model +:+ "' for "
                +:+ provider_name +:+ "." +:+ title)).

Record FunctionAccessResult := mk_access {
  use_legacy_authorization : bool;
  access_message : string;
  access_functions : list FunctionAccessEntry;
  custom_function_permissions : list string
}.

Definition access_get_function (a : FunctionAccessResult) (provider title : string) : option FunctionAccessEntry :=
  snd <$> list_find (fun e => e_provider_name e = provider /\ e_function_title e = title) (access_functions a).

Definition has_permission_for_function (a : FunctionAccessResult) (provider title permission : string) : bool :=
  match access_get_function a provider title with
  | Some entry => bool_decide (permission ∈ e_permissions entry)
  | None => false
  end.

Definition has_permission_for_provider (a : FunctionAccessResult) (provider permission : string) : bool :=
  existsb (fun e => bool_decide (e_provider_name e = provider) && bool_decide (permission ∈ e_permissions e))
    (access_functions a).

Definition get_functions_by_provider (a : FunctionAccessResult) (permission : string) : gmap string (gset string) :=
  foldl (fun by_provider e =>
      if bool_decide (permission ∈ e_permissions e) then
        <[e_provider_name e := {[e_function_title e]} ∪ default ∅ (by_provider !! e_provider_name e)]> by_provider
      else by_provider)
    ∅ (access_functions a).

Definition has_custom_permission (a : FunctionAccessResult) (permission : string) : bool :=
  bool_decide (permission ∈ custom_function_permissions a).

(** [accessible_functions is None or accessible_functions.use_legacy_authorization]. *)
Definition legacy (a : option FunctionAccessResult) : bool :=
  match a with Some a => use_legacy_authorization a | None => true end.

(** ** Queries over functions *)

Definition written_by (u : User) (f : Program) : bool := bool_decide (user_id (program_author f) = user_id u).
Definition is_custom (f : Program) : bool := bool_decide (program_provider f = None).
Definition of_provider (name : string) (f : Program) : bool :=
  match program_provider f with Some p => bool_decide (provider_name p = name) | None => false end.

(** [Group.objects.filter(user=user, permissions__codename=codename)]. *)
Definition groups_of (c : Catalog) (u : User) (codename : string) : list nat :=
  map group_id (filter (fun g => user_id u ∈ group_users g /\ codename ∈ group_permissions g) (groups c)).

Definition shares (ids ids' : list nat) : bool := existsb (fun i => bool_decide (i ∈ ids')) ids.

Section queries.
Context (c : Catalog).

(** The rows [with_permission] keeps of the table. *)
Definition permitted (author : User) (legacy_permission_name : string)
    (accessible : option FunctionAccessResult) (permission : string) (f : Program) : bool :=
  match accessible with
  | Some a =>
      if use_legacy_authorization a then
        written_by author f || shares (instances c (program_id f)) (groups_of c author legacy_permission_name)
      else
        (written_by author f && is_custom f)
        || match program_provider f with
           | Some p =>
               match get_functions_by_provider a permission !! provider_name p with
               | Some titles => bool_decide (title f ∈ titles)
               | None => false
               end
           | None => false
           end
  | None => written_by author f || shares (instances c (program_id f)) (groups_of c author legacy_permission_name)
  end.
Definition with_permission author legacy_permission_name accessible permission : list Program :=
  filter (fun f => permitted author legacy_permission_name accessible permission f) (functions c).

Definition user_functions (author : User) (fs : list Program) : list Program :=
  filter (fun f => written_by author f && is_custom f) fs.

Definition provider_functions (provider_name : option string) (fs : list Program) : list Program :=
  if truthy provider_name then filter (fun f => of_provider (default "" provider_name) f) fs
  else filter (fun f => negb (is_custom f)) fs.

Definition get_user_function (author : User) (function_title : string) : option Program :=
  head (filter (fun f => title f = function_title) (user_functions author (functions c))).

Definition get_function (fs : list Program) (function_title : string) (provider_name : option string) : option Program :=
  let fs := filter (fun f => title f = function_title) fs in
  head (if truthy provider_name then provider_functions provider_name fs else fs).

Definition get_function_by_permission (user : User) (function_title : string) (provider_name : option string)
    (accessible : option FunctionAccessResult) (permission legacy_permission_name : string) : option Program :=
  if negb (truthy provider_name) then get_function (user_functions user (functions c)) function_title None
  else
    match accessible with
    | Some a =>
        if use_legacy_authorization a then
          get_function (with_permission user legacy_permission_name None "") function_title provider_name
        else
          match access_get_function a (default "" provider_name) function_title with
          | Some entry =>
              if bool_decide (permission ∈ e_permissions entry)
              then get_function (functions c) function_title provider_name else None
          | None => None
          end
    | None => get_function (with_permission user legacy_permission_name None "") function_title provider_name
    end.

(** ** Access policies *)

(** [provider.admin_groups.filter(user=user).exists()]. *)
Definition in_admin_groups (u : User) (p : Provider) : bool :=
  existsb (fun g => bool_decide (group_id g ∈ admin_groups c (provider_id p))
                    && bool_decide (user_id u ∈ group_users g)) (groups c).

(** [Function.objects.filter(provider=provider, title=title, author=user).exists()]. *)
Definition is_author_of (u : User) (p : Provider) (function_title : string) : bool :=
  existsb (fun f => bool_decide (provider_id <$> program_provider f = Some (provider_id p))
                    && bool_decide (title f = function_title) && written_by u f) (functions c).

Definition check (u : User) (p : Provider) (function_title : string)
    (accessible : option FunctionAccessResult) (permission : string) : bool :=
  (if legacy accessible then in_admin_groups u p
   else match accessible with
        | Some a => has_permission_for_function a (provider_name p) function_title permission
        | None => false
        end)
  || is_author_of u p function_title.

Definition cannot_be_None (what : string) : exn := mk_exn ValueError (what +:+ " cannot be None").

(** The methods of [ProviderAccessPolicy], by the permission each checks. *)
Definition provider_policy (permission : string) (u : User) (provider : option Provider) (function_title : string)
    (accessible : option FunctionAccessResult) : outcome bool :=
  match provider with
  | None => Raise (cannot_be_None "provider")
  | Some p => Ok (check u p function_title accessible permission)
  end.
Definition can_retrieve_job := provider_policy PLATFORM_PERMISSION_JOBS_READ.
Definition can_read_logs := provider_policy PLATFORM_PERMISSION_PROVIDER_LOGS.
Definition can_list_jobs := provider_policy PLATFORM_PERMISSION_JOBS_READ.
Definition can_read_files := provider_policy PLATFORM_PERMISSION_PROVIDER_FILES_READ.
Definition can_write_files := provider_policy PLATFORM_PERMISSION_PROVIDER_FILES_WRITE.
Definition can_upload_function := provider_policy PLATFORM_PERMISSION_WRITE.
Definition is_provider_admin (u : User) (provider : option Provider) : outcome bool :=
  match provider with
  | None => Raise (cannot_be_None "provider")
  | Some p => Ok (in_admin_groups u p)
  end.

(** [ProgramAccessPolicies.can_create] and [JobAccessPolicies.can_create]. *)
Definition may_with (permission : string) (accessible : option FunctionAccessResult) : bool :=
  match accessible with
  | None => true
  | Some a => use_legacy_authorization a || has_custom_permission a permission
  end.
Definition can_create_program := may_with PLATFORM_PERMISSION_CUSTOM_WRITE.
Definition can_create_job := may_with PLATFORM_PERMISSION_CUSTOM_RUN.

Definition is_author (u : User) (j : Job) : bool := bool_decide (user_id u = user_id (author j)).

(** [job.program and job.program.provider]. *)
Definition job_provider (j : Job) : option (Program * Provider) :=
  p ← program j; provider ← program_provider p; Some (p, provider).

Definition can_access (user : option User) (job : option Job) (accessible : option FunctionAccessResult) : outcome bool :=
  match user, job with
  | None, _ => Raise (cannot_be_None "user")
  | _, None => Raise (cannot_be_None "job")
  | Some u, Some j =>
      if is_author u j then Ok true
      else
        match job_provider j with
        | Some (p, provider) => can_retrieve_job u (Some provider) (title p) accessible
        | None => Ok false
        end
  end.

Definition can_read_provider_logs (u : User) (j : Job) (accessible : option FunctionAccessResult) : outcome bool :=
  match job_provider j with
  | Some (p, provider) => can_read_logs u (Some provider) (title p) accessible
  | None => Ok false
  end.

Definition can_read_result := is_author.
Definition can_read_user_logs := is_author.
Definition can_save_result := is_author.
Definition can_manage_runtime_jobs := is_author.
Definition can_update_sub_status := is_author.
Definition can_create_events := is_author.
Definition can_read_events := is_author.
Definition can_stop := is_author.
Definition can_get_status_token (u : User) (j : Job) : bool := is_author u j && negb (in_terminal_state j).
End queries.

(** [UserAccessPolicies.can_access]: of a user, only whether it is active. *)
Definition user_can_access (is_active : option bool) : outcome bool :=
  match is_active with
  | None => Raise (cannot_be_None "user")
  | Some active => Ok active
  end.
