(* ===== verification/Listings.v ===== *)
(** * Listings

    The job queryset's filters and pages ([core/model_managers/jobs.py]) and the use cases
    that look functions up and list functions and jobs. *)

From S2P Require Import Prelude PyStr Domain Models World JobEvents Access.

Local Open Scope string_scope.
Local Open Scope list_scope.

(** ** [core/model_managers/jobs.py] *)

Inductive TypeFilter := SERVERLESS | CATALOG.
#[export] Instance TypeFilter_eq_dec : EqDecision TypeFilter.
Proof. solve_decision. Defined.

Record JobFilters := mk_filters {
  f_function : option string;
  f_functions : option (gset string);
  f_provider : option string;
  f_limit : option nat;
  f_offset : option nat;
  f_filter : option TypeFilter;
  f_status : option JobStatus;
  f_created_after : option Z
}.

Definition set_functions (v : option (gset string)) (f : JobFilters) : JobFilters :=
  mk_filters (f_function f) v (f_provider f) (f_limit f) (f_offset f) (f_filter f) (f_status f) (f_created_after f).

(** [filter(program__provider__name=name)]. *)
Definition provided_by (name : string) (j : Job) : bool :=
  match job_provider j with Some (_, p) => bool_decide (provider_name p = name) | None => false end.
(** [filter(program__title=title)]. *)
Definition titled (p : string -> bool) (j : Job) : bool :=
  match program j with Some f => p (title f) | None => false end.

(** The conditions [_apply_filters] adds, on one row. *)
Definition matches_filters (f : JobFilters) (j : Job) : bool :=
  match f_filter f with
  | Some CATALOG => bool_decide (is_Some (job_provider j))
  | Some SERVERLESS => negb (bool_decide (is_Some (job_provider j)))
  | None => true
  end
  && (if truthy (f_provider f) then provided_by (default "" (f_provider f)) j else true)
  && match f_status f with Some s => bool_decide (status j = s) | None => true end
  && match f_created_after f with Some t => (t <=? created j)%Z | None => true end
  && (if truthy (f_function f) then titled (fun t => bool_decide (Some t = f_function f)) j
      else
        match f_functions f with
        | Some titles => if bool_decide (titles = ∅) then true else titled (fun t => bool_decide (t ∈ titles)) j
        | None => true
        end).
Definition apply_filters (f : JobFilters) (js : list Job) : list Job := filter (fun j => matches_filters f j) js.

(** The rows of a page and the number of rows; a limit of 0 is no limit. *)
Definition paginate_queryset {A} (limit offset : option nat) (rows : list A) : list A * nat :=
  let total_count := length rows in
  let start := default 0%nat offset in
  (if bool_decide (total_count <= start /\ 0 < total_count)%nat then []
   else match limit with
        | Some (S _ as limit) => take limit (drop start rows)
        | _ => drop start rows
        end, total_count).

(** [order_by("-created")]. *)
Definition newest_first (js : list Job) : list Job := order_by (fun j => (- created j)%Z) js.

Definition user_jobs_page (user : option User) (filters : option JobFilters) (js : list Job) : list Job * nat :=
  let rows := newest_first js in
  let rows := match user with Some u => filter (fun j => is_author u j) rows | None => rows end in
  match filters with
  | Some f => paginate_queryset (f_limit f) (f_offset f) (apply_filters f rows)
  | None => paginate_queryset (Some 20%nat) (Some 0%nat) rows
  end.

Definition all_jobs (d : DB) : list Job := (map_to_list (jobs d)).*2.

(** ** Use cases on functions *)

Definition function_not_found (t : string) (provider : option string) : exn :=
  mk_exn FunctionNotFoundException
    ("Qiskit Function " +:+ (if truthy provider then default "" provider +:+ "/" else "") +:+ t +:+ " doesn't exist.").
Definition provider_not_found (provider : option string) : exn :=
  mk_exn ProviderNotFoundException ("Provider " +:+ default "None" provider +:+ " doesn't exist.").

(** A stable sort by title: [order_by("title", "id")] of rows in the order of their ids. *)
Fixpoint insert_title (x : Program) (l : list Program) : list Program :=
  match l with
  | [] => [x]
  | y :: l' => if String.leb (title x) (title y) then x :: l else y :: insert_title x l'
  end.
Definition order_by_title (l : list Program) : list Program := foldr insert_title [] l.

Section use_cases.
Context (c : Catalog).

(** [api/use_cases/programs/list.py]. *)
Definition list_functions (user : User) (a : FunctionAccessResult) (type_filter : option TypeFilter)
    (provider : option string) : list Program :=
  let rows :=
    match type_filter with
    | Some SERVERLESS => user_functions user (functions c)
    | Some CATALOG =>
        filter (fun f => permitted c user RUN_PROGRAM_PERMISSION (Some a) PLATFORM_PERMISSION_READ f)
          (provider_functions None (functions c))
    | None => with_permission c user VIEW_PROGRAM_PERMISSION (Some a) PLATFORM_PERMISSION_READ
    end in
  order_by_title
    (if truthy provider then filter (fun f => of_provider (default "" provider) f) rows else rows).

(** [api/use_cases/programs/get_by_title.py]. *)
Definition get_function_by_title (user : User) (a : FunctionAccessResult) (t : string) (provider : option string)
    : outcome Program :=
  let function :=
    if truthy provider then
      get_function_by_permission c user t provider (Some a) PLATFORM_PERMISSION_READ VIEW_PROGRAM_PERMISSION
    else get_user_function c user t in
  match function with Some f => Ok f | None => Raise (function_not_found t provider) end.

(** [api/use_cases/programs/get_jobs.py]: the jobs, and whether they are every author's. *)
Definition get_jobs (user : User) (a : FunctionAccessResult) (pk : nat) (js : list Job) : outcome (list Job * bool) :=
  match head (filter (fun f => program_id f = pk) (functions c)) with
  | None => Raise (function_not_found "" None)
  | Some f =>
      let rows := newest_first (filter (fun j => program_id <$> program j = Some pk) js) in
      let own := filter (fun j => is_author user j) rows in
      match program_provider f with
      | None => Ok (own, false)
      | Some p =>
          match can_list_jobs c user (Some p) (title f) (Some a) with
          | Raise e => Raise e
          | Ok true => Ok (rows, true)
          | Ok false => Ok (own, false)
          end
      end
  end.

(** ** Use cases on jobs *)

(** [api/use_cases/jobs/list.py]. *)
Definition jobs_list (user : User) (f : JobFilters) (js : list Job) : outcome (list Job * nat) :=
  if truthy (f_function f)
     && negb (bool_decide (is_Some (get_function (functions c) (default "" (f_function f)) (f_provider f))))
  then Raise (function_not_found (default "" (f_function f)) None)
  else Ok (user_jobs_page (Some user) (Some f) js).

(** [ProviderQuerySet.get_by_name]. *)
Definition get_by_name (name : option string) : option Provider :=
  head (filter (fun p => Some (provider_name p) = name) (providers c)).

(** [api/use_cases/jobs/provider_list.py]. *)
Definition owned_function_titles (user : User) (p : Provider) : gset string :=
  list_to_set (map title (filter (fun f =>
    (provider_id <$> program_provider f = Some (provider_id p)) /\ written_by user f = true) (functions c))).

Definition apply_access_scope (user : User) (p : Provider) (f : JobFilters) (a : FunctionAccessResult)
    : outcome (option (gset string)) :=
  if truthy (f_function f) then
    match can_list_jobs c user (Some p) (default "" (f_function f)) (Some a) with
    | Raise e => Raise e
    | Ok false => Raise (provider_not_found (f_provider f))
    | Ok true =>
        match get_function (functions c) (default "" (f_function f)) (f_provider f) with
        | None => Raise (function_not_found (default "" (f_function f)) (f_provider f))
        | Some _ => Ok None
        end
    end
  else
    let hide titles := if bool_decide (titles = ∅) then Raise (provider_not_found (f_provider f))
                       else Ok (Some titles) in
    if use_legacy_authorization a then
      match is_provider_admin c user (Some p) with
      | Raise e => Raise e
      | Ok true => Ok None
      | Ok false => hide (owned_function_titles user p)
      end
    else
      hide (default ∅ (get_functions_by_provider a PLATFORM_PERMISSION_JOBS_READ !! default "" (f_provider f))
            ∪ owned_function_titles user p).

Definition jobs_provider_list (user : User) (f : JobFilters) (a : FunctionAccessResult) (js : list Job)
    : outcome (list Job * nat) :=
  match get_by_name (f_provider f) with
  | None => Raise (provider_not_found (f_provider f))
  | Some p =>
      match apply_access_scope user p f a with
      | Raise e => Raise e
      | Ok titles =>
          let f := match titles with Some _ => set_functions titles f | None => f end in
          Ok (user_jobs_page None (Some f) js)
      end
  end.
End use_cases.
