(* ===== verification/AccessProps.v ===== *)
(** * Correctness of the access checks

    The lists of functions and jobs show exactly what the checks on one function or job
    grant, on the entitlements and on the legacy groups alike. *)

From S2P Require Import Prelude PyStr Domain Models World JobEvents Access Listings.

Local Open Scope string_scope.
Local Open Scope list_scope.

(** ** What the tables and the entitlements satisfy

    The unique constraints of [Provider] and [Program] and their foreign keys. *)
Record catalog_ok (c : Catalog) : Prop := {
  provider_name_unique p p' :
    p ∈ providers c -> p' ∈ providers c -> provider_name p = provider_name p' -> p = p';
  provider_id_unique p p' :
    p ∈ providers c -> p' ∈ providers c -> provider_id p = provider_id p' -> p = p';
  provider_exists f p : f ∈ functions c -> program_provider f = Some p -> p ∈ providers c;
  unique_provider_title f f' p :
    f ∈ functions c -> f' ∈ functions c -> program_provider f = Some p -> program_provider f' = Some p ->
    title f = title f' -> f = f';
  unique_author_title f f' :
    f ∈ functions c -> f' ∈ functions c -> program_provider f = None -> program_provider f' = None ->
    user_id (program_author f) = user_id (program_author f') -> title f = title f' -> f = f'
}.

(** An instance has one entry for a function. *)
Definition one_entry_each (a : FunctionAccessResult) : Prop :=
  NoDup (map (fun e => (e_provider_name e, e_function_title e)) (access_functions a)).

(** ** The entitlements *)

Definition granted (a : FunctionAccessResult) (provider t permission : string) : Prop :=
  exists e, e ∈ access_functions a /\ e_provider_name e = provider /\ e_function_title e = t
    /\ permission ∈ e_permissions e.

Lemma functions_by_provider_spec a permission provider t :
  t ∈ default (∅ : gset string) (get_functions_by_provider a permission !! provider) <-> granted a provider t permission.
Proof.
  unfold get_functions_by_provider, granted. set (step := fun _ _ => _). generalize (access_functions a) as es.
  intros es. induction es as [|e es IH] using rev_ind.
  { cbn. rewrite lookup_empty. cbn. split; [set_solver|]. intros (e & He & _). set_solver. }
  rewrite foldl_app. cbn [foldl]. set (m := foldl step ∅ es) in *. unfold step. case_bool_decide as Hp.
  - destruct (decide (e_provider_name e = provider)) as [<-|Hne].
    + rewrite lookup_insert_eq. simpl. rewrite elem_of_union, IH, elem_of_singleton. split.
      * intros [->|(e' & He' & H)]; [exists e|exists e']; set_solver.
      * intros (e' & [He'|He'%list_elem_of_singleton]%elem_of_app & H1 & H2 & H3); [right; by exists e'|left; by subst].
    + rewrite lookup_insert_ne, IH by done. split.
      * intros (e' & He' & H). exists e'. set_solver.
      * intros (e' & [He'|He'%list_elem_of_singleton]%elem_of_app & H); [by exists e'|destruct H; by subst].
  - rewrite IH. split.
    + intros (e' & He' & H). exists e'. set_solver.
    + intros (e' & [He'|He'%list_elem_of_singleton]%elem_of_app & H1 & H2 & H3); [by exists e'|by subst].
Qed.

(** With one entry for a function, its first entry is all there is. *)
Lemma has_permission_spec a provider t permission :
  one_entry_each a ->
  has_permission_for_function a provider t permission = true <-> granted a provider t permission.
Proof.
  intros Hone. unfold has_permission_for_function, access_get_function, granted.
  destruct (list_find _ (access_functions a)) as [[i e]|] eqn:E; cbn.
  - apply list_find_Some in E as (Hi & [Hp Ht] & _). rewrite bool_decide_eq_true. split.
    + intros H. exists e. split; [by eapply list_elem_of_lookup_2|done].
    + intros (e' & [j Hj]%list_elem_of_lookup & Hp' & Ht' & H). unfold one_entry_each in Hone.
      rewrite NoDup_alt in Hone. assert (i = j) as <-; [|congruence].
      eapply Hone; rewrite list_lookup_fmap; [by rewrite Hi|]. rewrite Hj. cbn. congruence.
  - apply list_find_None in E. split; [done|]. intros (e & He & H1 & H2 & _).
    rewrite Forall_forall in E. by destruct (E e He).
Qed.

(** ** Looking a function up *)

Section catalog.
Context (c : Catalog) (Hc : catalog_ok c).

Lemma head_filter_unique {A} (P : A -> Prop) `{forall x, Decision (P x)} (l : list A) x :
  (forall y, y ∈ l -> P y -> P x -> y = x) ->
  head (filter P l) = Some x <-> x ∈ l /\ P x.
Proof.
  intros Hu. split.
  - intros Hh. apply head_Some_elem_of, list_elem_of_filter in Hh. tauto.
  - intros [Hx HP]. destruct (filter P l) as [|y ys] eqn:E.
    + assert (x ∈ filter P l) as Hin by (by apply list_elem_of_filter). rewrite E in Hin. set_solver.
    + assert (y ∈ filter P l) as [HPy Hy]%list_elem_of_filter by (rewrite E; set_solver). cbn.
      by rewrite (Hu y Hy HPy HP).
Qed.

(** A function of a provider is found by its title and the provider's name, in any part of
    the table that holds it. *)
Lemma get_function_found (P : Program -> bool) f p :
  f ∈ functions c -> program_provider f = Some p -> provider_name p <> "" ->
  get_function (filter (fun f => P f) (functions c)) (title f) (Some (provider_name p)) = Some f <-> P f = true.
Proof.
  intros Hf Hp Hne. unfold get_function, provider_functions.
  assert (truthy (Some (provider_name p)) = true) as -> by (apply truthy_spec; by exists (provider_name p)).
  cbn [default]. rewrite list_filter_filter, list_filter_filter.
  rewrite head_filter_unique.
  - unfold of_provider. rewrite Hp, bool_decide_true by done. rewrite <- Is_true_true. naive_solver.
  - intros g Hg [[Hgp Hgt] _] _. unfold of_provider in Hgp. destruct (program_provider g) as [q|] eqn:Hq; [|done].
    apply Is_true_true, bool_decide_eq_true in Hgp.
    apply (unique_provider_title c Hc g f p); try done. rewrite Hq. f_equal.
    apply (provider_name_unique c Hc); [by apply (provider_exists c Hc g)|by apply (provider_exists c Hc f)|done].
Qed.

(** ** The functions shown are the functions found *)

Lemma permitted_runtime u a legacy_permission permission f :
  use_legacy_authorization a = false ->
  permitted c u legacy_permission (Some a) permission f = true <->
  (written_by u f = true /\ program_provider f = None)
  \/ exists p, program_provider f = Some p /\ granted a (provider_name p) (title f) permission.
Proof.
  intros Hl. unfold permitted. rewrite Hl, orb_true_iff, andb_true_iff. unfold is_custom at 1.
  rewrite bool_decide_eq_true. apply or_iff_compat_l.
  destruct (program_provider f) as [p|]; [|split; [done|by intros (p & ? & _)]].
  pose proof (functions_by_provider_spec a permission (provider_name p) (title f)) as Hs.
  destruct (get_functions_by_provider a permission !! provider_name p) as [titles|]; cbn in Hs.
  - rewrite bool_decide_eq_true, Hs. split; [intros H; by exists p|by intros (q & [= <-] & H)].
  - split; [done|]. intros (q & [= <-] & H). apply Hs in H. set_solver.
Qed.

Lemma elem_of_with_permission u a legacy_permission permission f :
  f ∈ functions c ->
  f ∈ with_permission c u legacy_permission a permission <-> permitted c u legacy_permission a permission f = true.
Proof. intros Hf. unfold with_permission. rewrite list_elem_of_filter, Is_true_true. tauto. Qed.

Lemma get_function_all f p :
  f ∈ functions c -> program_provider f = Some p -> provider_name p <> "" ->
  get_function (functions c) (title f) (Some (provider_name p)) = Some f.
Proof.
  intros Hf Hp Hne. pose proof (get_function_found (fun _ => true) f p Hf Hp Hne) as H.
  rewrite filter_true in H by (by apply Forall_true). by apply H.
Qed.

Lemma permitted_legacy u a legacy_permission permission f :
  use_legacy_authorization a = true ->
  permitted c u legacy_permission (Some a) permission f = permitted c u legacy_permission None "" f.
Proof. unfold permitted. by intros ->. Qed.

(** the list of functions a user sees and the functions found one by one are the same: a
    provider's function is in the list exactly when asking for it by its name returns it, for
    whatever permission, on the entitlements and on the legacy groups; a user's own functions
    are always in the list and found; another author's custom function is never found, and is
    in the list only through a legacy group that shares it. *)
Theorem listed_is_found u a legacy_permission permission f :
  one_entry_each a -> f ∈ functions c ->
  let listed := f ∈ with_permission c u legacy_permission (Some a) permission in
  let found provider := get_function_by_permission c u (title f) provider (Some a) permission legacy_permission = Some f in
  match program_provider f with
  | Some p => provider_name p <> "" -> listed <-> found (Some (provider_name p))
  | None =>
      (written_by u f = true -> listed /\ found None)
      /\ (written_by u f = false -> ~ found None
          /\ (listed -> use_legacy_authorization a = true
              /\ shares (instances c (program_id f)) (groups_of c u legacy_permission) = true))
  end.
Proof.
  intros Hone Hf. cbn zeta. pose proof (elem_of_with_permission u (Some a) legacy_permission permission f Hf) as Hw.
  destruct (program_provider f) as [p|] eqn:Hp; rewrite Hw; clear Hw.
  - intros Hne. unfold get_function_by_permission.
    assert (truthy (Some (provider_name p)) = true) as -> by (apply truthy_spec; by exists (provider_name p)).
    cbn [negb default]. destruct (use_legacy_authorization a) eqn:Hl.
    { rewrite permitted_legacy by done. unfold with_permission. by rewrite (get_function_found _ f p). }
    rewrite permitted_runtime by done. change (from_option Datatypes.id "" (Some (provider_name p))) with (provider_name p).
    pose proof (has_permission_spec a (provider_name p) (title f) permission Hone) as Hs.
    unfold has_permission_for_function in Hs.
    rewrite (get_function_all f p) by done.
    split.
    + intros [[_ ?]|(q & Hq & H)]; [congruence|]. assert (q = p) as -> by congruence. apply Hs in H.
      destruct (access_get_function _ _ _); [by rewrite H|done].
    + intros H. right. exists p. split; [done|]. apply Hs.
      destruct (access_get_function _ _ _); [by destruct (bool_decide _)|done].
  - unfold get_function_by_permission, get_function, user_functions. cbn [truthy negb].
    rewrite list_filter_filter, head_filter_unique.
    2:{ intros g Hg [Hgt Hgw%Is_true_true] [_ Hfw%Is_true_true].
        apply andb_true_iff in Hgw as [Hgw Hgc%bool_decide_eq_true], Hfw as [Hfw _].
        unfold written_by in *. rewrite bool_decide_eq_true in Hgw, Hfw.
        apply (unique_author_title c Hc g f); congruence. }
    assert (is_custom f = true) as Hcust by (by apply bool_decide_eq_true).
    rewrite Hcust, andb_true_r, Is_true_true. split.
    + intros Hw. rewrite Hw. split; [|done]. unfold permitted. rewrite Hw, Hcust. by destruct (use_legacy_authorization a).
    + intros Hw. rewrite Hw. split; [by intros (_ & _ & ?)|]. unfold permitted. rewrite Hw, Hp.
      by destruct (use_legacy_authorization a).
Qed.

(** ** The jobs listed are the jobs that can be retrieved *)

(** The user may retrieve the job as somebody who administers its function. *)
Definition retrievable (u : User) (a : FunctionAccessResult) (j : Job) : Prop :=
  exists f p, job_provider j = Some (f, p) /\ check c u p (title f) (Some a) PLATFORM_PERMISSION_JOBS_READ = true.

Lemma retrievable_can_access u a j : retrievable u a j -> can_access c (Some u) (Some j) (Some a) = Ok true.
Proof.
  intros (f & p & Hj & Hcheck). unfold can_access. destruct (is_author u j); [done|]. rewrite Hj.
  unfold can_retrieve_job, provider_policy. by rewrite Hcheck.
Qed.

Lemma owned_titles_spec u p t : t ∈ owned_function_titles c u p <-> is_author_of c u p t = true.
Proof.
  unfold owned_function_titles, is_author_of. rewrite elem_of_list_to_set, list_elem_of_fmap, existsb_exists. split.
  - intros (f & -> & [[Hp Hw] Hf]%list_elem_of_filter). exists f. rewrite <- list_elem_of_In. split; [done|].
    by rewrite !bool_decide_true, Hw by done.
  - intros (f & Hf%list_elem_of_In & H). apply andb_true_iff in H as [[Hp%bool_decide_eq_true Ht%bool_decide_eq_true]%andb_true_iff Hw].
    exists f. split; [done|]. by apply list_elem_of_filter.
Qed.

(** The titles a caller of the entitlements may list. *)
Lemma scope_titles_spec u p a t :
  one_entry_each a -> use_legacy_authorization a = false ->
  t ∈ default (∅ : gset string) (get_functions_by_provider a PLATFORM_PERMISSION_JOBS_READ !! provider_name p)
      ∪ owned_function_titles c u p
  <-> check c u p t (Some a) PLATFORM_PERMISSION_JOBS_READ = true.
Proof.
  intros Hone Hl. rewrite elem_of_union, functions_by_provider_spec, owned_titles_spec.
  unfold check, legacy. rewrite Hl, orb_true_iff, has_permission_spec by done. done.
Qed.

Lemma job_provider_inv j g p : job_provider j = Some (g, p) -> program j = Some g /\ program_provider g = Some p.
Proof.
  unfold job_provider. intros (g' & Hg & H)%bind_Some. apply bind_Some in H as (p' & Hp & H). by simplify_eq.
Qed.

(** A row that passes the provider filter belongs to that provider. *)
Lemma provided_by_spec p j :
  p ∈ providers c -> (forall f, program j = Some f -> f ∈ functions c) ->
  provided_by (provider_name p) j = true <-> exists f, job_provider j = Some (f, p) /\ program j = Some f.
Proof.
  intros Hp Hj. unfold provided_by, job_provider. destruct (program j) as [f|] eqn:Hf; cbn.
  - destruct (program_provider f) as [q|] eqn:Hq; cbn; [|by split; [|intros (? & ? & _)]].
    rewrite bool_decide_eq_true. split.
    + intros Hn. exists f. split; [|done]. do 2 f_equal.
      apply (provider_name_unique c Hc); [|done|done]. by apply (provider_exists c Hc f); [apply Hj|].
    + by intros (g & [= <- <-] & _).
  - split; [done|by intros (? & ? & _)].
Qed.

Lemma matches_scoped f titles j :
  titles <> ∅ -> truthy (f_function f) = false -> f_functions f = None ->
  matches_filters (set_functions (Some titles) f) j
  = matches_filters f j && titled (fun t => bool_decide (t ∈ titles)) j.
Proof.
  intros Ht Hf Hfs. unfold matches_filters, set_functions. cbn. rewrite Hf, Hfs, (bool_decide_false (titles = ∅)) by done.
  by rewrite andb_true_r.
Qed.
Lemma matches_provided f j :
  truthy (f_provider f) = true -> matches_filters f j = true -> provided_by (default "" (f_provider f)) j = true.
Proof. intros Hp H. unfold matches_filters in H. rewrite Hp in H. by repeat (apply andb_true_iff in H as [H ?]). Qed.
Lemma matches_function f j :
  truthy (f_function f) = true -> matches_filters f j = true -> exists g, program j = Some g /\ Some (title g) = f_function f.
Proof.
  intros Hp H. unfold matches_filters in H. rewrite Hp in H. apply andb_true_iff in H as [_ H]. unfold titled in H.
  destruct (program j) as [g|]; [|done]. exists g. split; [done|]. by apply bool_decide_eq_true in H.
Qed.

Context (u : User) (a : FunctionAccessResult) (js : list Job).
Hypothesis Hone : one_entry_each a.
Hypothesis Hjs : forall j f, j ∈ js -> program j = Some f -> f ∈ functions c.

Section scope.
Context (f : JobFilters) (p : Provider).
Hypothesis Hp : p ∈ providers c.
Hypothesis Hfp : f_provider f = Some (provider_name p).
Hypothesis Hne : provider_name p <> "".
Hypothesis Hfs : f_functions f = None.

Lemma scope_truthy : truthy (f_provider f) = true.
Proof. rewrite Hfp. apply truthy_spec. by exists (provider_name p). Qed.

Lemma matching_job j :
  j ∈ js -> matches_filters f j = true ->
  exists g, job_provider j = Some (g, p) /\ program j = Some g /\ program_provider g = Some p /\ g ∈ functions c
    /\ (retrievable u a j <-> check c u p (title g) (Some a) PLATFORM_PERMISSION_JOBS_READ = true).
Proof.
  intros Hj Hm. apply (matches_provided f j scope_truthy) in Hm. rewrite Hfp in Hm.
  apply (provided_by_spec p) in Hm as (g & Hg & Hpr); [|done|by intros g; apply Hjs].
  exists g. split; [done|]. split; [done|]. split; [|split; [by apply (Hjs j)|]].
  - by apply job_provider_inv in Hg as [_ ?].
  - split; [intros (g' & p' & Hg' & H); by simplify_eq|intros H; by exists g, p].
Qed.

(** What [apply_access_scope] promises of its answer. *)
Definition scope_ok (answer : outcome (option (gset string))) : Prop :=
  match answer with
  | Ok titles => forall j, j ∈ js ->
      matches_filters (match titles with Some _ => set_functions titles f | None => f end) j = true
      <-> matches_filters f j = true /\ retrievable u a j
  | Raise e => exn_class e ∈ [ProviderNotFoundException; FunctionNotFoundException]
      /\ forall j, j ∈ js -> matches_filters f j = true -> ~ retrievable u a j
  end.

Lemma hide_ok titles :
  truthy (f_function f) = false ->
  (forall t, t ∈ titles <-> check c u p t (Some a) PLATFORM_PERMISSION_JOBS_READ = true) ->
  scope_ok (if bool_decide (titles = ∅) then Raise (provider_not_found (f_provider f)) else Ok (Some titles)).
Proof.
  intros Hff Ht. case_bool_decide as He; cbn.
  - split; [set_solver|]. intros j Hj Hm. destruct (matching_job j Hj Hm) as (g & _ & _ & _ & _ & ->).
    rewrite <- Ht, He. set_solver.
  - intros j Hj. rewrite matches_scoped, andb_true_iff by done. split; intros [Hm H]; (split; [done|]);
      destruct (matching_job j Hj Hm) as (g & _ & Hpr & _ & _ & Hret).
    + apply Hret, Ht. unfold titled in H. rewrite Hpr in H. by apply bool_decide_eq_true in H.
    + unfold titled. rewrite Hpr. by apply bool_decide_eq_true, Ht, Hret.
Qed.

(** The scope leaves exactly the jobs that can be retrieved, and hides the provider when
    there are none. *)
Lemma access_scope_spec : scope_ok (apply_access_scope c u p f a).
Proof.
  unfold apply_access_scope. destruct (truthy (f_function f)) eqn:Hff.
  - unfold can_list_jobs, provider_policy. set (t := default "" (f_function f)).
    assert (forall j, j ∈ js -> matches_filters f j = true -> exists g, program j = Some g /\ title g = t) as Htitle.
    { intros j Hj Hm. destruct (matches_function f j Hff Hm) as (g & Hpr & Ht). exists g. split; [done|].
      unfold t. by rewrite <- Ht. }
    destruct (check c u p t (Some a) PLATFORM_PERMISSION_JOBS_READ) eqn:Hcheck; [destruct (get_function _ t _) eqn:Hget|];
      cbn; [|split; [set_solver|]..]; intros j Hj; [split; [|tauto]|..]; intros Hm; try (split; [done|]);
      destruct (matching_job j Hj Hm) as (g & _ & Hpr & Hgp & Hg & ->);
      destruct (Htitle j Hj Hm) as (g' & Hpr' & Ht); assert (g' = g) as -> by congruence; rewrite Ht.
    + done.
    + rewrite <- Ht, Hfp, (get_function_all g p) in Hget; done.
    + congruence.
  - destruct (use_legacy_authorization a) eqn:Hl.
    + unfold is_provider_admin. destruct (in_admin_groups c u p) eqn:Hadm.
      * intros j Hj. split; [|tauto]. intros Hm. split; [done|].
        destruct (matching_job j Hj Hm) as (g & _ & _ & _ & _ & ->). unfold check, legacy. by rewrite Hl, Hadm.
      * apply hide_ok; [done|]. intros t. rewrite owned_titles_spec. unfold check, legacy. by rewrite Hl, Hadm.
    + apply hide_ok; [done|]. intros t. rewrite Hfp. by apply scope_titles_spec.
Qed.
End scope.

Lemma elem_of_page {A} limit offset (rows : list A) x :
  x ∈ (paginate_queryset limit offset rows).1 -> x ∈ rows.
Proof.
  unfold paginate_queryset. cbn. case_bool_decide; [set_solver|].
  set (start := default 0%nat offset). intros Hx. rewrite <- (take_drop start rows). apply elem_of_app. right.
  destruct limit as [[|n]|]; [done| |done]. rewrite <- (take_drop (S n) (drop start rows)). apply elem_of_app. by left.
Qed.

(** the jobs a provider's listing shows are jobs the user may retrieve one by one, and
    without paging it shows every one of those the filters keep; a listing is refused only
    when it would have nothing to show. *)
Theorem provider_listing f name :
  f_provider f = Some name -> name <> "" -> f_functions f = None ->
  match jobs_provider_list c u f a js with
  | Ok (listed, _) =>
      (forall j, j ∈ listed -> j ∈ js /\ matches_filters f j = true
         /\ can_access c (Some u) (Some j) (Some a) = Ok true)
      /\ (f_limit f = None -> f_offset f = None ->
         forall j, j ∈ js -> matches_filters f j = true -> retrievable u a j -> j ∈ listed)
  | Raise e => exn_class e ∈ [ProviderNotFoundException; FunctionNotFoundException]
      /\ forall j, j ∈ js -> matches_filters f j = true -> ~ retrievable u a j
  end.
Proof.
  intros Hname Hne Hfs. unfold jobs_provider_list.
  destruct (get_by_name c (f_provider f)) as [p|] eqn:Hget; unfold get_by_name in Hget.
  - apply head_Some_elem_of, list_elem_of_filter in Hget as [Hpn Hp]. rewrite Hname in Hpn. injection Hpn as <-.
    pose proof (access_scope_spec f p Hp Hname Hne Hfs) as H. destruct (apply_access_scope c u p f a) as [titles|e]; [|done].
    set (f' := match titles with Some _ => _ | None => f end) in *. cbn in H. unfold user_jobs_page.
    destruct (paginate_queryset _ _ _) as [listed n] eqn:Hpage. split.
    + intros j Hj. assert (j ∈ (listed, n).1) as Hin by done. rewrite <- Hpage in Hin.
      apply elem_of_page, list_elem_of_filter in Hin as [Hm Hin]. apply elem_of_order_by in Hin.
      apply Is_true_true in Hm. pose proof (proj1 (H j Hin) Hm) as [? ?].
      split_and!; [done|done|by apply retrievable_can_access].
    + intros Hl Ho j Hj Hm Hr. assert (f_limit f' = None /\ f_offset f' = None) as [Hl' Ho'] by (unfold f'; by destruct titles).
      rewrite Hl', Ho' in Hpage. unfold paginate_queryset in Hpage. cbn in Hpage.
      assert (j ∈ apply_filters f' (newest_first js)) as Hin.
      { apply list_elem_of_filter. split; [by apply Is_true_true, (H j Hj)|by apply elem_of_order_by]. }
      case_bool_decide as Hz; [|by injection Hpage as <- _].
      destruct Hz as [Hz1 Hz2]. lia.
  - split; [set_solver|]. intros j Hj Hm (g & q & Hq & _).
    apply matches_provided in Hm; [|rewrite Hname; apply truthy_spec; by exists name]. unfold provided_by in Hm.
    rewrite Hq in Hm. apply bool_decide_eq_true in Hm. apply head_None in Hget.
    assert (q ∈ filter (fun p => Some (provider_name p) = f_provider f) (providers c)) as Hin; [|rewrite Hget in Hin; set_solver].
    apply list_elem_of_filter. rewrite Hm, Hname. split; [done|]. apply job_provider_inv in Hq as [Hpr Hgp].
    apply (provider_exists c Hc g); [by apply (Hjs j)|done].
Qed.
End catalog.

(** ** A catalog with one function *)
Module SampleCatalog.
Definition alice : User := mk_user 1 "alice".
Definition bob : User := mk_user 2 "bob".
Definition acme : Provider := mk_provider 7 "acme" None.
Definition sampler : Program :=
  mk_program 5 "sampler" (Some acme) alice RAY false None false None None "{}" None "GENERIC" None None "main.py" None None "[]".
Definition catalog : Catalog := mk_catalog [acme] [sampler] [] (fun _ => []) (fun _ => []) (fun _ => []) [] [] [].

Lemma ok : catalog_ok catalog.
Proof.
  assert (forall p, p ∈ [acme] -> p = acme) as Hp by (intros p; apply list_elem_of_singleton).
  assert (forall f, f ∈ [sampler] -> f = sampler) as Hf by (intros f; apply list_elem_of_singleton).
  split; cbn.
  - by intros p p' ->%Hp ->%Hp.
  - by intros p p' ->%Hp ->%Hp.
  - intros f p ->%Hf [= <-]. set_solver.
  - by intros f f' p ->%Hf ->%Hf.
  - by intros f f' ->%Hf ->%Hf.
Qed.

(** An instance that may read, run and list the jobs of the function. *)
Definition access : FunctionAccessResult :=
  mk_access false ""
    [mk_entry "acme" "sampler" "LICENSED" [PLATFORM_PERMISSION_READ; PLATFORM_PERMISSION_RUN; PLATFORM_PERMISSION_JOBS_READ]] [].
Lemma one_entry : one_entry_each access.
Proof. unfold one_entry_each. cbn. apply NoDup_singleton. Qed.

Definition job : Job :=
  {| id := "j"; created := 0; updated := None; env_vars := "{}"; gpu := false;
     filler := false; runner := RAY; ray_job_id := None; fleet_id := None;
     fleet_deleted_at := None; status := QUEUED; sub_status := None; trial := false;
     business_model := "LICENSED"; version := 0; author := alice;
     compute_resource := None; program := Some sampler;
     compute_profile_fk := None; size_source := SIZE_SOURCE_NONE;
     function_size := None; function_size_name := None;
     account_id := None; instance_crn := None; plan_id := None;
     subscription_id := None; ce_project_name := None; ce_region := None |}.
Definition filters : JobFilters := mk_filters None None (Some "acme") None None None None None.
End SampleCatalog.

Lemma listed_is_found_witness :
  get_function_by_permission SampleCatalog.catalog SampleCatalog.bob "sampler" (Some "acme")
    (Some SampleCatalog.access) PLATFORM_PERMISSION_RUN RUN_PROGRAM_PERMISSION = Some SampleCatalog.sampler.
Proof.
  apply (listed_is_found SampleCatalog.catalog SampleCatalog.ok SampleCatalog.bob SampleCatalog.access
           RUN_PROGRAM_PERMISSION PLATFORM_PERMISSION_RUN SampleCatalog.sampler SampleCatalog.one_entry).
  - apply list_elem_of_singleton. done.
  - done.
  - apply list_elem_of_filter. split; [vm_compute; exact I|]. apply list_elem_of_singleton. done.
Defined.

Lemma provider_listing_witness :
  can_access SampleCatalog.catalog (Some SampleCatalog.bob) (Some SampleCatalog.job) (Some SampleCatalog.access) = Ok true.
Proof.
  pose proof (provider_listing SampleCatalog.catalog SampleCatalog.ok SampleCatalog.bob SampleCatalog.access
    [SampleCatalog.job] SampleCatalog.one_entry) as H.
  specialize (H ltac:(intros j f ->%list_elem_of_singleton [= <-]; by apply list_elem_of_singleton)
    SampleCatalog.filters "acme" eq_refl ltac:(done) eq_refl).
  assert (jobs_provider_list SampleCatalog.catalog SampleCatalog.bob SampleCatalog.filters SampleCatalog.access [SampleCatalog.job]
          = Ok ([SampleCatalog.job], 1%nat)) as E by (vm_compute; reflexivity).
  rewrite E in H. destruct H as [H _]. apply (H SampleCatalog.job). by apply list_elem_of_singleton.
Defined.
