(* ===== verification/FunctionSizes.v ===== *)
(** * The catalog of sizes of a function ([api/domain/function_sizes.py])

    The shape and the naming rules of the mapping of size labels to compute profiles an
    upload declares. *)

From stdpp Require Import pretty.
From S2P Require Import Prelude PyStr Json.

Local Open Scope string_scope.
Local Open Scope list_scope.

Definition VALID_SIZES : list string := ["S"; "M"; "L"; "XL"].
Definition MAX_SIZES_PER_FUNCTION : nat := 32.
Definition MAX_SIZE_NAME_LENGTH : nat := 64.
Definition MAX_COMPUTE_PROFILE_ID_LENGTH : nat := 255.

Definition normalize_function_size (function_size : option string) : option string :=
  (fun s => upper (strip s)) <$> function_size.

Definition invalid_sizes (message : string) : exn := mk_exn InvalidFunctionSizesError message.

(** The loop: [parsed] is what was read so far, in order. *)
Fixpoint parse_entries (parsed : list (string * string)) (entries : list (string * Json))
    : outcome (list (string * string)) :=
  match entries with
  | [] => Ok parsed
  | (raw_name, raw) :: entries =>
      match raw with
      | JStr raw_profile =>
          let name := upper (strip raw_name) in
          let profile := strip raw_profile in
          if bool_decide (name = "") || bool_decide (profile = "")
          then Raise (invalid_sizes "'sizes' names and compute profiles should both be non-empty.")
          else if bool_decide (MAX_SIZE_NAME_LENGTH < String.length name)%nat
          then Raise (invalid_sizes ("Size name '" +:+ raw_name +:+ "' is longer than the maximum of 64 characters."))
          else if bool_decide (MAX_COMPUTE_PROFILE_ID_LENGTH < String.length profile)%nat
          then Raise (invalid_sizes ("Compute profile for size '" +:+ raw_name
                 +:+ "' is longer than the maximum of 255 characters."))
          else if negb (bool_decide (name ∈ VALID_SIZES))
          then Raise (invalid_sizes ("Invalid size '" +:+ raw_name +:+ "'. Valid sizes are: " +:+ join ", " VALID_SIZES +:+ "."))
          else if bool_decide (name ∈ parsed.*1)
          then Raise (invalid_sizes ("'sizes' declares '" +:+ name +:+ "' more than once; size names are case-insensitive."))
          else parse_entries (parsed ++ [(name, profile)]) entries
      | _ => Raise (invalid_sizes "'sizes' names and compute profiles should both be strings.")
      end
  end.

Definition parse_function_sizes (sizes : Json) : outcome (list (string * string)) :=
  match sizes with
  | JObj [] => Raise (invalid_sizes "'sizes' should declare at least one size.")
  | JObj entries =>
      if bool_decide (MAX_SIZES_PER_FUNCTION < length entries)%nat
      then Raise (invalid_sizes ("'sizes' declares " +:+ pretty (length entries) +:+ " sizes and the maximum is 32."))
      else parse_entries [] entries
  | _ => Raise (invalid_sizes "'sizes' should be an object mapping a size name to a compute profile.")
  end.

(** The mapping as the caller could write it again. *)
Definition as_json (sizes : list (string * string)) : Json := JObj (map (fun kv => (kv.1, JStr kv.2)) sizes).

(** ** Lemmas *)

(** A catalog in its canonical form. *)
Definition canonical (sizes : list (string * string)) : Prop :=
  NoDup sizes.*1 /\ Forall (fun kv => kv.1 ∈ VALID_SIZES /\ kv.2 <> "" /\ strip kv.2 = kv.2
                                     /\ (String.length kv.2 <= MAX_COMPUTE_PROFILE_ID_LENGTH)%nat) sizes.

Lemma parse_entries_spec parsed entries sizes :
  parse_entries parsed entries = Ok sizes -> canonical parsed ->
  canonical sizes /\ exists l, sizes = parsed ++ l /\ length l = length entries.
Proof.
  revert parsed. induction entries as [|[raw_name raw] entries IH]; intros parsed H Hc; cbn in H.
  { injection H as <-. split; [done|]. exists []. by rewrite app_nil_r. }
  destruct raw as [| | |raw_profile| |]; try done. revert H.
  set (name := upper (strip raw_name)). set (profile := strip raw_profile).
  destruct (bool_decide (name = "") || bool_decide (profile = "")) eqn:He; [by intros|].
  destruct (bool_decide (MAX_SIZE_NAME_LENGTH < _)%nat); [done|].
  destruct (bool_decide_reflect (MAX_COMPUTE_PROFILE_ID_LENGTH < String.length profile)%nat) as [|Hlen]; [done|].
  destruct (bool_decide_reflect (name ∈ VALID_SIZES)) as [Hv|]; [|done]. cbn [negb].
  destruct (bool_decide_reflect (name ∈ parsed.*1)) as [|Hin]; [done|].
  intros H. apply IH in H as (Hs & l & -> & Hl).
  - split; [done|]. exists ((name, profile) :: l). rewrite <- app_assoc. cbn. by rewrite Hl.
  - destruct Hc as [Hnd Hf]. split.
    + rewrite fmap_app. apply NoDup_app. split; [done|]. split; [set_solver|]. apply NoDup_singleton.
    + apply Forall_app. split; [done|]. apply Forall_singleton. cbn.
      apply orb_false_iff in He as [_ He%bool_decide_eq_false].
      split_and!; [done|done|apply strip_idem|lia].
Qed.

(** A canonical catalog is read back as it is. *)
Lemma valid_size_canonical name : name ∈ VALID_SIZES -> upper (strip name) = name /\ name <> "" /\ (String.length name <= MAX_SIZE_NAME_LENGTH)%nat.
Proof.
  intros H. unfold VALID_SIZES in H.
  repeat (apply elem_of_cons in H as [->|H]; [split_and!; [reflexivity|done|apply Nat.leb_le; reflexivity]|]). set_solver.
Qed.

Lemma parse_entries_canonical parsed sizes :
  canonical (parsed ++ sizes) ->
  parse_entries parsed (map (fun kv => (kv.1, JStr kv.2)) sizes) = Ok (parsed ++ sizes).
Proof.
  revert parsed. induction sizes as [|[name profile] sizes IH]; intros parsed Hc; cbn [map parse_entries fst snd]; [by rewrite app_nil_r|].
  destruct Hc as [Hnd Hf]. pose proof Hf as [_ Hf2]%Forall_app. apply Forall_cons in Hf2 as [(Hv & Hne & Hs & Hl) _].
  cbn [fst snd] in *. destruct (valid_size_canonical name Hv) as (Hu & Hn & Hlen). rewrite Hu, Hs.
  rewrite (bool_decide_false (name = "")), (bool_decide_false (profile = "")) by done.
  rewrite (bool_decide_false (_ < String.length name)%nat), (bool_decide_false (_ < String.length profile)%nat) by lia.
  rewrite (bool_decide_true (name ∈ VALID_SIZES)) by done. cbn [orb negb].
  rewrite bool_decide_false.
  - rewrite IH; rewrite <- app_assoc; done.
  - rewrite fmap_app in Hnd. apply NoDup_app in Hnd as (_ & Hnd & _). intros Hin. apply (Hnd name Hin). cbn. set_solver.
Qed.

(** a catalog that is accepted comes out canonical (valid labels, each once, profiles
    stripped and within their length), and is a fixed point: read again, as the use case does
    after the view, it is accepted and unchanged. *)
Theorem sizes_roundtrip raw sizes :
  parse_function_sizes raw = Ok sizes ->
  canonical sizes /\ sizes <> [] /\ parse_function_sizes (as_json sizes) = Ok sizes.
Proof.
  intros H. destruct raw as [| | | | |[|entry entries]]; try done. unfold parse_function_sizes in H.
  case_bool_decide as Hn; [done|]. apply parse_entries_spec in H as (Hc & l & E & Hl); [|by repeat constructor].
  cbn [app] in E. subst l. split; [done|]. destruct sizes as [|kv sizes]; [done|]. split; [done|].
  pose proof (parse_entries_canonical [] (kv :: sizes) Hc) as Hp. unfold as_json, parse_function_sizes.
  change (map _ (kv :: sizes)) with ((kv.1, JStr kv.2) :: map (fun kv => (kv.1, JStr kv.2)) sizes) in *.
  cbv iota. rewrite bool_decide_false; [exact Hp|]. cbn [length] in *. rewrite length_map. lia.
Qed.

Lemma sizes_roundtrip_witness :
  parse_function_sizes (as_json [("M", "16x128"); ("XL", "80x1280x8a100")])
  = Ok [("M", "16x128"); ("XL", "80x1280x8a100")].
Proof.
  apply (sizes_roundtrip (JObj [(" m ", JStr "16x128 "); ("xL", JStr "80x1280x8a100")])). vm_compute. reflexivity.
Defined.
