(* ===== verification/RunFunction.v ===== *)
(** * Running a function ([api/use_cases/programs/run.py])

    The whole of [RunFunctionUseCase.execute]: who may run what, the limits, the size, the
    environment, the saved arguments, and the job created and mirrored in one transaction. *)

From stdpp Require Import pretty.
From S2P Require Import Prelude PyStr Domain Models World JobEvents BillingEvents JobTransitions Json ArgumentsSchema ValidateArguments Access.

Local Open Scope string_scope.
Local Open Scope list_scope.

(** ** The input and what the use case calls *)

Inductive Channel := IBM_CLOUD | IBM_QUANTUM_PLATFORM | LOCAL.
Definition channel_value (c : Channel) : string :=
  match c with IBM_CLOUD => "ibm_cloud" | IBM_QUANTUM_PLATFORM => "ibm_quantum_platform" | LOCAL => "local" end.

Record RunFunctionInput := mk_run_input {
  r_title : string;
  r_provider_name : option string;
  r_arguments : string;
  r_has_config : bool;                     (* config_data is not empty *)
  r_function_size : option string;
  r_channel : Channel;
  r_token : string;
  r_instance : option string;
  r_account_id : option string;
  r_plan_id : option string;
  r_subscription_id : option string;
  r_carrier : list (string * string)
}.

Record Settings := mk_settings {
  QISKIT_IBM_URL : string;
  SITE_HOST : string;
  local_data_path : Job -> string;         (* the path of RAY_CLUSTER_MODE_LOCAL *)
  RAY_CLUSTER_MODE_LOCAL : bool;
  MEM_LIMIT : Z;
  CPU_LIMIT : Z;
  MAX_ARGUMENTS_LENGTH_MB : nat
}.

(** What reaches other systems: the object storage, the Runtime API, the cipher, the row of
    [JobConfig]. *)
Record Services := mk_services {
  encrypt_string : string -> outcome string;
  ray_directory : Job -> outcome unit;     (* the directory of [RayArgumentsStorage] *)
  storage_save : outcome unit;
  storage_delete : outcome unit;
  put_function : Payload -> outcome unit;
  create_config : outcome unit
}.

(** ** The state: the process and the stored arguments *)

Record Web := mk_web { process : World; arguments_stored : gmap JobId string }.

Definition in_process {A} (m : Py A) : M Web A :=
  fun s => let '(o, w) := m (process s) in (o, mk_web w (arguments_stored s)).
Definition set_arguments (f : gmap JobId string -> gmap JobId string) : M Web unit :=
  modify (fun s => mk_web (process s) (f (arguments_stored s))).

Section run.
Context (c : Catalog) (sys : System) (lib : Libraries) (settings : Settings) (services : Services).

(** ** Sizes ([core/model_managers/function_sizes.py]) *)

Definition function_sizes (f : Program) : list FunctionSize :=
  filter (fun s => size_function s = program_id f) (function_sizes_rows c).

Definition get_function_size (f : Program) (function_size : option string) : option FunctionSize :=
  if truthy function_size then
    head (filter (fun s => lower (size_function_size s) = lower (default "" function_size)) (function_sizes f))
  else None.

Definition resolve_compute_profile (f : Program) (function_size : option string) : option ComputeProfile :=
  size_compute_profile <$> get_function_size f function_size.

Record RunnerConfig := mk_runner_config {
  rc_gpu : bool;
  rc_compute_profile : option ComputeProfile;
  rc_size_source : SizeSource;
  rc_function_size : option FunctionSize
}.

Fixpoint insert_str (x : string) (l : list string) : list string :=
  match l with
  | [] => [x]
  | y :: l' => if String.leb x y then x :: l else y :: insert_str x l'
  end.
Definition sorted_set (l : list string) : list string := foldr insert_str [] (dedup l).

Definition configuration_error (message : string) : exn := mk_exn FunctionConfigurationException message.

Definition unknown_size (f : Program) (requested : string) : exn :=
  let available := sorted_set (map (fun s => upper (size_function_size s)) (function_sizes f)) in
  configuration_error ("Unknown function size '" +:+ requested +:+ "' for this function. Available sizes: "
    +:+ (if bool_decide (available = []) then "this function declares no sizes." else join ", " available)).

Definition get_runner_config (f : Program) (requested : option string) : outcome RunnerConfig :=
  if negb (bool_decide (program_runner f = FLEETS)) then
    Ok (mk_runner_config (negb (is_custom f) && program_gpu f) None SIZE_SOURCE_NONE None)
  else if truthy requested then
    match get_function_size f requested with
    | None => Raise (unknown_size f (default "" requested))
    | Some size => Ok (mk_runner_config false (Some (size_compute_profile size)) SIZE_SOURCE_REQUESTED (Some size))
    end
  else
    match default_size f with
    | None => Raise (configuration_error "This function has no size.")
    | Some size => Ok (mk_runner_config false (Some (size_compute_profile size)) SIZE_SOURCE_DEFAULT_SIZE (Some size))
    end.

(** ** The gates before the job exists *)

Definition custom_not_entitled (t : string) : exn :=
  mk_exn CustomFunctionNotEntitledException ("Your account is not entitled to run custom Qiskit Functions, so '"
    +:+ t +:+ "' could not be run.").
Definition not_found (data : RunFunctionInput) : exn :=
  mk_exn FunctionNotFoundException ("Qiskit Function " +:+
    (if truthy (r_provider_name data) then default "" (r_provider_name data) +:+ "/" else "") +:+ r_title data
    +:+ " doesn't exist.").

Definition find_function (user : User) (a : FunctionAccessResult) (data : RunFunctionInput) : outcome Program :=
  let found := if truthy (r_provider_name data)
    then Ok (get_function_by_permission c user (r_title data) (r_provider_name data) (Some a)
               PLATFORM_PERMISSION_RUN RUN_PROGRAM_PERMISSION)
    else if can_create_job (Some a) then Ok (get_user_function c user (r_title data))
    else Raise (custom_not_entitled (r_title data)) in
  match found with
  | Raise e => Raise e
  | Ok None => Raise (not_found data)
  | Ok (Some f) => Ok f
  end.

Definition DEFAULT_DISABLED_MESSAGE : string := "IBM has temporarily disabled access to this function".
Definition disabled_error (f : Program) : exn :=
  mk_exn FunctionDisabledException
    (if truthy (disabled_message f) then default "" (disabled_message f) else DEFAULT_DISABLED_MESSAGE).

Definition ACTIVE_JOBS_PER_USER : string := "gateway.limits.active_jobs_per_user".
Definition active_jobs (user : User) (d : DB) : nat :=
  length (filter (fun j => user_id (author j) = user_id user /\ status j ∈ ACTIVE_STATUSES) (map_to_list (jobs d)).*2).
Definition active_jobs_limit_reached (user : User) (limit : Z) (d : DB) : bool :=
  (limit <=? Z.of_nat (active_jobs user d))%Z.
Definition active_limit (limit : Z) : exn :=
  mk_exn ActiveJobLimitExceeded ("Active job limit reached. The maximum allowed is " +:+ pretty limit +:+ ".").

Definition project_error (f : Program) : option exn :=
  if bool_decide (program_runner f = FLEETS) then
    match program_code_engine_project f with
    | None => Some (configuration_error "Program has no Code Engine project assigned. Contact administrator.")
    | Some p =>
        if project_active p then None
        else Some (configuration_error ("Code Engine project '" +:+ project_name p +:+ "' assigned to this "
               +:+ "function is not active. Contact administrator."))
    end
  else None.

Definition arguments_error (f : Program) (arguments : string) : option exn :=
  match validate_arguments sys lib (MEM_LIMIT settings) (CPU_LIMIT settings) (MAX_ARGUMENTS_LENGTH_MB settings)
          (arguments_schema f) (Some arguments) with
  | None => None
  | Some (inl (message, _)) => Some (mk_exn InvalidArgumentsException message)
  | Some (inr e) => Some e
  end.

Definition is_trial (f : Program) (user : User) : bool :=
  shares (trial_instances c (program_id f)) (groups_of c user RUN_PROGRAM_PERMISSION).

(** The business model of the run, and whether it is a trial. *)
Definition business_model_of (user : User) (a : FunctionAccessResult) (f : Program) (data : RunFunctionInput)
    : outcome (string * bool) :=
  if truthy (r_provider_name data) && negb (use_legacy_authorization a) then
    match access_get_function a (default "" (r_provider_name data)) (r_title data) with
    | Some e => Ok (e_business_model e, bool_decide (e_business_model e = BusinessModel.TRIAL))
    | None => Raise (mk_exn AttributeError "'NoneType' object has no attribute 'business_model'")
    end
  else
    let trial := is_trial f user in
    Ok (if trial then BusinessModel.TRIAL else BusinessModel.LICENSED, trial).

(** ** The job *)

Definition new_job (user : User) (f : Program) (data : RunFunctionInput) (bm : string) (trial_ : bool)
    (rc : RunnerConfig) (job_id : JobId) (env : string) (t : Z) : Job :=
  {| id := job_id; created := t; updated := Some t; env_vars := env; gpu := rc_gpu rc; filler := false;
     runner := program_runner f; ray_job_id := None; fleet_id := None; fleet_deleted_at := None;
     status := QUEUED; sub_status := None; trial := trial_; business_model := bm; version := t;
     author := user; compute_resource := None; program := Some f;
     compute_profile_fk := compute_profile_id <$> rc_compute_profile rc;
     size_source := rc_size_source rc; function_size := rc_function_size rc;
     function_size_name := size_function_size <$> rc_function_size rc;
     account_id := r_account_id data; instance_crn := r_instance data; plan_id := r_plan_id data;
     subscription_id := r_subscription_id data;
     ce_project_name := project_name <$> program_code_engine_project f;
     ce_region := project_region <$> program_code_engine_project f |}.

(** [d.update(d')] and [d[k] = v] keep the place of a key that was there. *)
Fixpoint dict_set {V} (d : list (string * V)) (k : string) (v : V) : list (string * V) :=
  match d with
  | [] => [(k, v)]
  | (k', v') :: d' => if bool_decide (k' = k) then (k, v) :: d' else (k', v') :: dict_set d' k v
  end.
Definition dict_update {V} (d d' : list (string * V)) : list (string * V) :=
  foldl (fun d kv => dict_set d kv.1 kv.2) d d'.

(** [build_env_variables] of [api/utils.py], called without [args]. *)
Definition build_env_variables (data : RunFunctionInput) (job : Job) (trial_mode : bool) : list (string * string) :=
  let data_path := if RAY_CLUSTER_MODE_LOCAL settings then local_data_path settings job else "/data" in
  [ ("ENV_JOB_GATEWAY_TOKEN", r_token data);
    ("ENV_JOB_GATEWAY_HOST", SITE_HOST settings);
    ("ENV_JOB_ID_GATEWAY", id job);
    ("ENV_JOB_ARGUMENTS", "{}");
    ("ENV_JOB_COMPUTE_PROFILE", default "" (job_compute_profile_id job));
    ("ENV_JOB_FUNCTION_SIZE", default "" (size_label job));
    ("ENV_ACCESS_TRIAL", if trial_mode then "True" else "False");
    ("DATA_PATH", data_path);
    ("ARGUMENTS_PATH", data_path +:+ "/arguments/" +:+ id job +:+ ".json");
    ("RESULTS_PATH", data_path +:+ "/results/" +:+ id job +:+ ".json");
    ("QISKIT_IBM_TOKEN", r_token data);
    ("QISKIT_IBM_CHANNEL", channel_value (r_channel data));
    ("QISKIT_IBM_URL", QISKIT_IBM_URL settings) ]
  ++ (if truthy (r_instance data) then
        [("QISKIT_IBM_INSTANCE", default "" (r_instance data));
         ("ENV_JOB_GATEWAY_INSTANCE", default "" (r_instance data))]
      else []).

(** [p in s]. *)
Fixpoint contains_str (p s : string) : bool :=
  startswith p s || match s with EmptyString => false | String _ s' => contains_str p s' end.

(** [encrypt_env_vars] of [core/utils.py]. *)
Fixpoint encrypt_env_vars (env : list (string * string)) : outcome (list (string * string)) :=
  match env with
  | [] => Ok []
  | (k, v) :: env =>
      match (if contains_str "token" (lower k) then encrypt_string services v else Ok v) with
      | Raise e => Raise e
      | Ok v => match encrypt_env_vars env with Ok env => Ok ((k, v) :: env) | Raise e => Raise e end
      end
  end.

(** The environment the job is saved with. *)
Definition job_environment (f : Program) (data : RunFunctionInput) (job : Job) (trial_mode : bool) : outcome string :=
  match encrypt_env_vars (build_env_variables data job trial_mode) with
  | Raise e => Raise e
  | Ok env =>
      let env := map (fun kv => (kv.1, JStr kv.2)) env in
      let env := match list_find (fun kv => kv.1 = "traceparent") (r_carrier data) with
                 | Some (_, (_, v)) => dict_set env "traceparent" (JStr v)
                 | None => env
                 end in
      if bool_decide (program_env_vars f = "") then json_dumps lib (JObj env)
      else
        match json_loads lib (program_env_vars f) with
        | Raise e => Raise e
        | Ok (JObj vars) => json_dumps lib (JObj (dict_update env vars))
        | Ok _ => Raise (mk_exn TypeError "object is not iterable")
        end
  end.

(** ** The transaction *)

(** [get_arguments_storage(job)]. *)
Definition get_arguments_storage (job : Job) : outcome unit :=
  match runner job with
  | RAY => ray_directory services job
  | FLEETS =>
      match p ← program job; program_code_engine_project p with
      | None => Raise (mk_exn ValueError "Program has no CodeEngineProject assigned")
      | Some project =>
          if truthy (cos_bucket_user_data_name project) then Ok tt
          else Raise (mk_exn ValueError ("CodeEngineProject '" +:+ project_name project
                 +:+ "' has no cos_bucket_user_data_name configured"))
      end
  end.

Definition engine_unavailable (message : string) : exn := mk_exn EngineUnavailableException message.

(** [_fail_job], on the job in hand. *)
Definition fail_job (error : exn) : Py unit :=
  job <- get_self ;;
  add_error_event (id job) API RUN_PROGRAM "RUNTIME_API_UNAVAILABLE"
    "The job could not be created in the Runtime API" (class_name lib (exn_class error)) (exn_str error) ;;;
  to_failed API RUN_PROGRAM [] ;;;
  ret tt.

(** The PUT, and the error it leaves for the caller. *)
Definition mirror_put (payload : Payload) : Py (option (exn * exn)) :=
  try_except
    (of_outcome (put_function services payload) ;;;
     modify (fun w => set_puts (puts w ++ [payload]) w) ;;;
     ret None)
    (fun ex =>
       if isinstance ex RetryableError then
         Some (ret (Some (engine_unavailable "Job could not be created right now, please retry.", ex)))
       else if isinstance ex RuntimeApiError then
         Some (ret (Some (engine_unavailable "Job could not be created. Please contact support.", ex)))
       else None).

Definition mirror_new_job : Py (option exn) :=
  job <- get_self ;;
  enabled <- (if Workload.should_be_mirrored job then Workload.mirror_enabled_for job else ret false) ;;
  if enabled : bool then
    payload <- Workload.build_workload_payload job ;;
    error <- mirror_put payload ;;
    match error with
    | Some (error, cause) => fail_job cause ;;; ret (Some error)
    | None => modify_db (fun d => set_mirrors ({[id job]} ∪ mirrors d) d) ;;; ret None
    end
  else ret None.

(** [job.save()] on a new instance: two jobs cannot share an identifier. *)
Definition save_new_job (job : Job) : Py unit :=
  modify_db (fun d => set_jobs (<[id job := job]> (jobs d)) d) ;;; put_self job.

Definition create_job (has_config : bool) (job : Z -> Job) : Py (option exn) :=
  atomic
    (of_outcome (if has_config then create_config services else Ok tt) ;;;
     t <- now ;;
     save_new_job (job t) ;;;
     add_status_event (id (job t)) API RUN_PROGRAM (status (job t)) ;;;
     mirror_new_job).

(** [_delete_arguments]: a failure is logged. *)
Definition delete_arguments (job_id : JobId) : M Web unit :=
  match storage_delete services with
  | Ok _ => set_arguments (delete job_id)
  | Raise _ => ret tt
  end.

(** ** [RunFunctionUseCase.execute] *)

Context (uuid4 : JobId).

(** The part before anything is written: the function, the run's business model and size. *)
Definition prepare (user : User) (a : FunctionAccessResult) (data : RunFunctionInput)
    : Py (Program * (string * bool) * RunnerConfig) :=
  f <- of_outcome (find_function user a data) ;;
  (if disabled f then raise (disabled_error f) else ret tt) ;;;
  limit <- Config_get_int ACTIVE_JOBS_PER_USER 0 ;;
  d <- get_db ;;
  (if active_jobs_limit_reached user limit d then raise (active_limit limit) else ret tt) ;;;
  (match project_error f with Some e => raise e | None => ret tt end) ;;;
  (match arguments_error f (r_arguments data) with Some e => raise e | None => ret tt end) ;;;
  bm <- of_outcome (business_model_of user a f data) ;;
  rc <- of_outcome (get_runner_config f (r_function_size data)) ;;
  ret (f, bm, rc).

Definition execute (user : User) (a : FunctionAccessResult) (data : RunFunctionInput) : M Web Job :=
  prepared <- in_process (prepare user a data) ;;
  let '(f, (bm, trial_mode), rc) := prepared in
  let job := new_job user f data bm trial_mode rc uuid4 in
  env <- of_outcome (job_environment f data (job "{}" 0%Z) trial_mode) ;;
  of_outcome (get_arguments_storage (job env 0%Z)) ;;;
  of_outcome (storage_save services) ;;;
  set_arguments (<[uuid4 := r_arguments data]>) ;;;
  mirror_error <- try_except
    (in_process (create_job (r_has_config data) (job env)))
    (fun ex => Some (delete_arguments uuid4 ;;; raise ex)) ;;
  match mirror_error with
  | Some e => raise e
  | None => in_process get_self
  end.
End run.
