(* ===== verification/RunFunctionProps.v ===== *)
(** * Correctness of running a function

    A run creates its job once every check passed, or leaves nothing behind, or leaves a
    failed job when the Runtime API did not take it; the limit of active jobs holds. *)

From S2P Require Import Prelude PyStr Domain Models World JobEvents BillingEvents JobTransitions TransitionSpec Json ArgumentsSchema ValidateArguments Access RunFunction Samples AccessProps.

Local Open Scope string_scope.
Local Open Scope list_scope.

(** ** A terminal transition, run or rolled back *)

Lemma to_failed_run o c w row :
  jobs (db w) !! id (self w) = Some row -> FAILED ∈ VALID_TRANSITIONS (status row) ->
  match to_failed o c [] w with
  | (Ok _, w') => jobs (db w') = <[id (self w) := transition_row FAILED [] w row]> (jobs (db w))
      /\ events (db w') = events (db w) ++ [transition_event FAILED o c w]
  | (Raise _, w') => db w' = db w
  end.
Proof.
  intros Hrow Hv. unfold to_failed, to_stopped_or_failed, atomic.
  rewrite (bind_ok _ _ _ _ _ (change_status_ok FAILED o c [] w row Hrow Hv)).
  pose proof (adds_billing (fun t job => bool_decide (is_Some t) && is_fee_billable job) (transition_event FAILED o c w)
    (transitioned FAILED o c [] w row)) as (rows & Hj & He & _).
  cbn beta in Hj, He. destruct (bind get_self _ _) as [[e|e] w'] eqn:E; [|done]. cbn [snd] in Hj, He. by rewrite Hj, He.
Qed.

(** Neither a row, an event nor an outbox row mentions the identifier yet. *)
Definition fresh (j : JobId) (d : DB) : Prop :=
  jobs d !! j = None /\ Forall (fun e => event_job e <> j) (events d).

Lemma fresh_history j d : fresh j d -> Abs.history d j = [].
Proof.
  intros [_ H]. unfold Abs.history, status_history. induction H as [|e es He _ IH]; [done|].
  rewrite filter_cons, decide_False; [exact IH|]. unfold of_job. by rewrite bool_decide_spec.
Qed.

(** The reads of the mirroring. *)
Lemma same_db_mirror_enabled j : rel same_db (Workload.mirror_enabled_for j).
Proof. unfold Workload.mirror_enabled_for. rel_auto. Qed.
Lemma same_self_mirror_enabled j : rel same_self (Workload.mirror_enabled_for j).
Proof. unfold Workload.mirror_enabled_for. rel_auto. Qed.
Lemma same_self_workload j : rel same_self (Workload.build_workload_payload j).
Proof. unfold Workload.build_workload_payload. rel_auto. Qed.
#[local] Hint Resolve same_db_mirror_enabled same_self_mirror_enabled same_self_workload : pyrel.

Section run.
Context (c : Catalog) (sys : System) (lib : Libraries) (settings : Settings) (services : Services) (uuid4 : JobId).

(** ** The transaction *)

(** The job ends as failed, with the error before the failure in its log. *)
Definition failed_in (d : DB) (j : JobId) (d' : DB) : Prop :=
  (exists row, status row = FAILED /\ id row = j /\ jobs d' = <[j := row]> (jobs d))
  /\ exists e1 e2, events d' = events d ++ [e1; e2] /\ event_job e1 = j /\ event_job e2 = j
       /\ status_of_event e1 = None /\ status_of_event e2 = Some FAILED.

Lemma fail_job_run error w row :
  jobs (db w) !! id (self w) = Some row -> id row = id (self w) -> status row = QUEUED ->
  match fail_job lib error w with
  | (Ok _, w') => failed_in (db w) (id (self w)) (db w')
  | (Raise _, _) => True
  end.
Proof.
  intros Hrow Hid Hq. unfold fail_job. unfold bind at 1, get_self, gets.
  unfold bind at 1. unfold add_error_event. rewrite create_event_run. cbn zeta.
  set (e1 := mk_event _ _ _ _ _ _). set (w1 := set_db _ _).
  pose proof (to_failed_run API RUN_PROGRAM w1 row Hrow ltac:(rewrite Hq; set_solver)) as H.
  unfold bind. destruct (to_failed API RUN_PROGRAM [] w1) as [[e|e] w2]; [|done]. cbn. destruct H as [Hj He]. split.
  - exists (transition_row FAILED [] w1 row). split; [by apply transition_row_status|]. split; [|exact Hj].
    unfold transition_row, bump_version. cbn [id setattr]. by rewrite set_fields_id.
  - exists e1, (transition_event FAILED API RUN_PROGRAM w1). split; [|done].
    rewrite He. unfold w1. cbn. by rewrite <- app_assoc.
Qed.

(** What the mirroring of a job that was just saved does, seen from the database. *)
Lemma mirror_new_job_run w row :
  self w = row -> jobs (db w) !! id row = Some row -> status row = QUEUED ->
  match mirror_new_job lib services w with
  | (Ok None, w') => self w' = row /\ jobs (db w') = jobs (db w) /\ events (db w') = events (db w)
      /\ outbox (db w') = outbox (db w)
  | (Ok (Some e), w') => exn_class e = EngineUnavailableException /\ failed_in (db w) (id row) (db w')
  | (Raise _, _) => True
  end.
Proof.
  intros Hself Hrow Hq. unfold mirror_new_job. unfold bind at 1, get_self, gets. rewrite Hself.
  set (enabled := if Workload.should_be_mirrored row then _ else _).
  assert (rel same_db enabled /\ rel same_self enabled) as [Hd Hs] by (unfold enabled; split; rel_auto).
  specialize (Hd w). specialize (Hs w). unfold bind at 1. destruct (enabled w) as [[[]|e] w1]; cbn in Hd, Hs; [| |done].
  2:{ cbn. by rewrite Hs, Hd. }
  pose proof (same_db_workload row w1) as Hd2. pose proof (same_self_workload row w1) as Hs2.
  unfold bind at 1. destruct (Workload.build_workload_payload row w1) as [[payload|e] w2]; cbn in Hd2, Hs2; [|done].
  assert (self w2 = row /\ db w2 = db w) as [Hself2 Hdb2] by (unfold same_db, same_self in *; split; congruence).
  clear Hd Hs Hd2 Hs2. unfold bind at 1, mirror_put, try_except, of_outcome.
  assert (jobs (db w2) !! id (self w2) = Some row) as Hrow2 by congruence.
  destruct (put_function services payload) as [[]|ex]; [cbn; by rewrite Hself2, Hdb2|].
  assert (forall error : exn, match bind (fail_job lib ex) (fun _ => ret (Some error)) w2 with
          | (Ok (Some e), w') => e = error /\ failed_in (db w) (id row) (db w')
          | (Ok None, _) => False | (Raise _, _) => True end) as Hfail.
  { intros error. pose proof (fail_job_run ex w2 row Hrow2) as H. rewrite Hself2, Hdb2 in H. specialize (H eq_refl Hq).
    unfold bind. by destruct (fail_job lib ex w2) as [[[]|e] w3]. }
  unfold bind at 1, raise. destruct (isinstance ex RetryableError); [|destruct (isinstance ex RuntimeApiError); [|done]].
  all: change (ret ?r w2) with (@Ok (option (exn * exn)) r, w2); cbv beta iota.
  1: specialize (Hfail (engine_unavailable "Job could not be created right now, please retry.")).
  2: specialize (Hfail (engine_unavailable "Job could not be created. Please contact support.")).
  all: destruct (bind (fail_job lib ex) _ w2) as [[[e|]|e] w3]; [by destruct Hfail as [-> ?]|done|done].
Qed.

(** The job is there, queued and with its first event. *)
Definition created_in (d : DB) (row : Job) (d' : DB) : Prop :=
  jobs d' = <[id row := row]> (jobs d) /\ outbox d' = outbox d
  /\ exists e, events d' = events d ++ [e] /\ event_job e = id row /\ status_of_event e = Some QUEUED.

(** The job is there and failed: the Runtime API did not take it. *)
Definition refused_in (d : DB) (j : JobId) (d' : DB) : Prop :=
  (exists row, status row = FAILED /\ id row = j /\ jobs d' = <[j := row]> (jobs d))
  /\ exists e0 e1 e2, events d' = events d ++ [e0; e1; e2] /\ Forall (fun e => event_job e = j) [e0; e1; e2]
       /\ omap status_of_event [e0; e1; e2] = [QUEUED; FAILED].

Lemma create_job_run has_config job w :
  (forall t, id (job t) = uuid4 /\ status (job t) = QUEUED) ->
  match create_job lib services has_config job w with
  | (Ok None, w') => exists t, self w' = job t /\ created_in (db w) (job t) (db w')
  | (Ok (Some e), w') => exn_class e = EngineUnavailableException /\ refused_in (db w) uuid4 (db w')
  | (Raise e, w') => db w' = db w
  end.
Proof.
  intros Hjob. unfold create_job, atomic. unfold bind at 1.
  destruct (of_outcome _ w) as [[[]|e] w0] eqn:E0; [|done].
  assert (w0 = w) as -> by (unfold of_outcome, ret, raise in E0; repeat case_match; by simplify_eq). clear E0.
  unfold bind at 1, now. set (t := wall w (ticks w)). destruct (Hjob t) as [Hid Hq].
  unfold bind at 1, save_new_job, bind at 1, modify_db, modify, put_self, modify. cbv beta iota.
  unfold bind at 1, add_status_event. rewrite create_event_run. cbn zeta iota beta.
  set (e0 := mk_event _ _ _ _ _ _). set (w1 := set_db _ (set_ticks (S (ticks (set_self _ _))) _)).
  assert (self w1 = job t) as Hself by done.
  assert (jobs (db w1) = <[id (job t) := job t]> (jobs (db w)) /\ events (db w1) = events (db w) ++ [e0]
          /\ outbox (db w1) = outbox (db w)) as (Hj1 & He1 & Ho1) by done.
  pose proof (mirror_new_job_run w1 (job t) Hself ltac:(rewrite Hj1; apply lookup_insert_eq) Hq) as H.
  destruct (mirror_new_job lib services w1) as [[[e|]|e] w2]; [| |done].
  - destruct H as [Hc [(row & Hf & Hr & Hj) (e1 & e2 & He & Hf1 & Hf2 & Hs1 & Hs2)]]. split; [done|].
    rewrite Hid in *. split.
    + exists row. split; [done|]. split; [done|]. rewrite Hj, Hj1. apply insert_insert_eq.
    + exists e0, e1, e2. split; [by rewrite He, He1, <- app_assoc|]. split; [by repeat constructor|].
      cbn -[status_of_event]. rewrite Hs1, Hs2. unfold status_of_event. cbn. by rewrite Hq.
  - destruct H as (Hs & Hj & He & Ho). exists t. split; [done|]. split; [by rewrite Hj, Hj1|]. split; [by rewrite Ho, Ho1|].
    exists e0. split; [by rewrite He, He1|]. split; [done|]. unfold status_of_event. cbn. by rewrite Hq.
Qed.

(** ** The gates *)

Definition active_jobs_limit (w : World) : Z := default 0%Z (v ← config w !! ACTIVE_JOBS_PER_USER; py_int v).

(** What a run that goes ahead has passed. *)
Record cleared (w : World) (user : User) (a : FunctionAccessResult) (data : RunFunctionInput)
    (f : Program) (bm : string * bool) (rc : RunnerConfig) : Prop := {
  cleared_found : find_function c user a data = Ok f;
  cleared_enabled : disabled f = false;
  cleared_limit : (Z.of_nat (active_jobs user (db w)) < active_jobs_limit w)%Z;
  cleared_project : project_error f = None;
  cleared_arguments : arguments_error sys lib settings f (r_arguments data) = None;
  cleared_model : business_model_of c user a f data = Ok bm;
  cleared_size : get_runner_config c f (r_function_size data) = Ok rc
}.

Lemma same_db_prepare user a data : rel same_db (prepare c sys lib settings user a data).
Proof. unfold prepare. rel_auto. Qed.

Lemma if_raise (b : bool) e (w w' : World) : (if b then raise e else ret tt) w = (Ok tt, w') -> b = false /\ w' = w.
Proof. destruct b; [done|]. by intros [= <-]. Qed.
Lemma opt_raise (o : option exn) (w w' : World) :
  (match o with Some e => raise e | None => ret tt end) w = (Ok tt, w') -> o = None /\ w' = w.
Proof. destruct o; [done|]. by intros [= <-]. Qed.
Lemma outcome_inv {A} (o : outcome A) (w : World) x w' : of_outcome o w = (Ok x, w') -> o = Ok x /\ w' = w.
Proof. destruct o; [|done]. by intros [= <- <-]. Qed.

Lemma prepare_cleared user a data w f bm rc w' :
  prepare c sys lib settings user a data w = (Ok (f, bm, rc), w') -> cleared w user a data f bm rc.
Proof.
  unfold prepare. intros H.
  apply bind_ok_inv in H as (f' & w1 & [Hf ->]%outcome_inv & H).
  apply bind_ok_inv in H as ([] & w2 & [Hdis ->]%if_raise & H).
  apply bind_ok_inv in H as (limit & w3 & [-> Hlimit]%Config_get_int_inv & H).
  apply bind_ok_inv in H as (d & w4 & [= <- <-] & H).
  apply bind_ok_inv in H as ([] & w5 & [Hact ->]%if_raise & H).
  apply bind_ok_inv in H as ([] & w6 & [Hproj ->]%opt_raise & H).
  apply bind_ok_inv in H as ([] & w7 & [Harg ->]%opt_raise & H).
  apply bind_ok_inv in H as (bm' & w8 & [Hbm ->]%outcome_inv & H).
  apply bind_ok_inv in H as (rc' & w9 & [Hrc ->]%outcome_inv & [= -> -> -> _]).
  split; try done. unfold active_jobs_limit_reached in Hact. apply Z.leb_gt in Hact. unfold active_jobs_limit.
  by rewrite <- Hlimit.
Qed.

(** ** The whole run *)

Definition database (s : Web) : DB := db (process s).

(** How a run can end. *)
Inductive ended (user : User) (a : FunctionAccessResult) (data : RunFunctionInput) (s : Web) : outcome Job * Web -> Prop :=
  | ended_created f bm rc env t s' :
      cleared (process s) user a data f bm rc ->
      created_in (database s) (new_job user f data bm.1 bm.2 rc uuid4 env t) (database s') ->
      arguments_stored s' = <[uuid4 := r_arguments data]> (arguments_stored s) ->
      ended user a data s (Ok (new_job user f data bm.1 bm.2 rc uuid4 env t), s')
  | ended_unchanged e s' :
      database s' = database s ->
      (arguments_stored s' = arguments_stored s
       \/ (arguments_stored s' = <[uuid4 := r_arguments data]> (arguments_stored s)
           /\ exists ex, storage_delete services = Raise ex)) ->
      ended user a data s (Raise e, s')
  | ended_refused e s' :
      exn_class e = EngineUnavailableException ->
      refused_in (database s) uuid4 (database s') ->
      arguments_stored s' = <[uuid4 := r_arguments data]> (arguments_stored s) ->
      ended user a data s (Raise e, s').

Lemma execute_ends user a data s :
  fresh uuid4 (database s) -> arguments_stored s !! uuid4 = None ->
  ended user a data s (execute c sys lib settings services uuid4 user a data s).
Proof.
  intros [Hfresh _] Hargs. unfold execute. unfold bind at 1, in_process.
  pose proof (same_db_prepare user a data (process s)) as Hdb.
  destruct (prepare _ _ _ _ _ _ _ (process s)) as [[[[f [bm trial_mode]] rc]|e] w1] eqn:Hprep; cbn in Hdb; [|by apply ended_unchanged; [|left]].
  apply prepare_cleared in Hprep. set (job := new_job user f data bm trial_mode rc uuid4).
  set (s1 := mk_web w1 (arguments_stored s)).
  assert (forall {A} (o : outcome A) (k : A -> M Web Job), bind (of_outcome o) k s1
    = match o with Ok x => k x s1 | Raise e => (Raise e, s1) end) as Hstep by (intros A []; done).
  rewrite Hstep. destruct (job_environment _ _ _ _ _ _ _) as [env|e]; [|by apply ended_unchanged; [|left]].
  rewrite Hstep. destruct (get_arguments_storage _ _) as [[]|e]; [|by apply ended_unchanged; [|left]].
  rewrite Hstep. destruct (storage_save services) as [[]|e]; [|by apply ended_unchanged; [|left]]. clear Hstep.
  unfold bind at 1, set_arguments, modify. cbv beta iota. cbn [process arguments_stored s1].
  unfold bind at 1, try_except, in_process. cbn [process arguments_stored].
  pose proof (create_job_run (r_has_config data) (job env) w1 ltac:(done)) as H. rewrite Hdb in H.
  destruct (create_job lib services (r_has_config data) (job env) w1) as [[[e|]|e] w2]; cbn.
  - destruct H as [Hc Hr]. by apply ended_refused.
  - destruct H as (t & -> & Hc). by apply (ended_created _ _ _ _ f (bm, trial_mode) rc env t).
  - unfold delete_arguments. destruct (storage_delete services) as [[]|ex] eqn:Hdel; cbn; apply ended_unchanged; try done.
    + left. cbn. by rewrite delete_insert_id.
    + right. split; [done|]. by exists ex.
Qed.

(** C19: a run that returns has passed every check and leaves the job it returns queued, with
    its first event and its arguments and nothing else touched; one that raises leaves
    neither job nor event, nor arguments (unless the storage refuses to delete them), except
    when the Runtime API did not take the job, which then stays, failed, with the reason in
    its events. *)
Theorem run_creates_or_leaves user a data s :
  fresh uuid4 (database s) -> arguments_stored s !! uuid4 = None ->
  let stored := <[uuid4 := r_arguments data]> (arguments_stored s) in
  match execute c sys lib settings services uuid4 user a data s with
  | (Ok job, s') =>
      (exists f bm rc env t, cleared (process s) user a data f bm rc
         /\ job = new_job user f data bm.1 bm.2 rc uuid4 env t)
      /\ created_in (database s) job (database s') /\ arguments_stored s' = stored
  | (Raise e, s') =>
      (database s' = database s
       /\ (arguments_stored s' = arguments_stored s
           \/ (arguments_stored s' = stored /\ exists ex, storage_delete services = Raise ex)))
      \/ (exn_class e = EngineUnavailableException /\ refused_in (database s) uuid4 (database s')
          /\ arguments_stored s' = stored)
  end.
Proof.
  intros Hfresh Hargs stored. destruct (execute_ends user a data s Hfresh Hargs).
  - split; [by exists f, bm, rc, env, t|done].
  - by left.
  - by right.
Qed.

(** ** The limit of active jobs *)

Definition counts (u : User) (j : Job) : Prop := user_id (author j) = user_id u /\ status j ∈ ACTIVE_STATUSES.

Lemma active_jobs_insert u d d' j row :
  jobs d !! j = None -> jobs d' = <[j := row]> (jobs d) ->
  active_jobs u d' = ((if decide (counts u row) then 1 else 0) + active_jobs u d)%nat.
Proof.
  intros Hn Hj. unfold active_jobs. rewrite Hj, (map_to_list_insert _ _ _ Hn). cbn [fmap list_fmap snd].
  rewrite filter_cons. unfold counts. by repeat case_decide.
Qed.

(** no run takes its user above the limit of active jobs: one that returns adds one active
    job of that user and stays within the limit, one that raises adds none, and no other user
    is concerned. *)
Theorem run_limit user a data s u' :
  fresh uuid4 (database s) -> arguments_stored s !! uuid4 = None ->
  let before u := active_jobs u (database s) in
  match execute c sys lib settings services uuid4 user a data s with
  | (Ok _, s') => active_jobs user (database s') = S (before user)
      /\ (Z.of_nat (active_jobs user (database s')) <= active_jobs_limit (process s))%Z
      /\ (user_id u' <> user_id user -> active_jobs u' (database s') = before u')
  | (Raise _, s') => active_jobs u' (database s') = before u'
  end.
Proof.
  intros Hfresh Hargs before. destruct (execute_ends user a data s Hfresh Hargs)
    as [f bm rc env t s' Hcl [Hj _] _|e s' Hd _|e s' _ [(row & Hf & _ & Hj) _] _].
  - set (job := new_job _ _ _ _ _ _ _ _ _) in *.
    assert (forall u, active_jobs u (database s') = ((if decide (counts u job) then 1 else 0) + before u)%nat) as Hn
      by (intros u; by apply (active_jobs_insert u _ _ uuid4 job (proj1 Hfresh))).
    assert (active_jobs user (database s') = S (before user)) as Hs
      by (rewrite Hn, decide_True; [done|]; split; [done|set_solver]).
    split; [done|]. split; [rewrite Hs; pose proof (cleared_limit _ _ _ _ _ _ _ Hcl); unfold before, database; lia|].
    intros Hne. rewrite Hn, decide_False; [done|]. by intros [? _].
  - unfold before. by rewrite Hd.
  - rewrite (active_jobs_insert u' _ _ uuid4 row (proj1 Hfresh) Hj), decide_False; [done|].
    intros [_ Ha]. rewrite Hf in Ha. set_solver.
Qed.
End run.

(** ** A run of the sample function *)
Module SampleRun.
Definition lib : Libraries :=
  mk_libraries (fun _ => Ok "{}") (fun _ => Ok (JObj [])) (fun _ => "") (fun _ => "Error")
    (fun _ _ _ => Matches) (fun _ => Ok tt).
Definition sys : System :=
  mk_system (Ok tt) (Ok tt) (Ok tt) (fun w => Ok (mk_reading (default "" w) false Exited 0)).
Definition settings : Settings := mk_settings "https://ibm" "http://gateway" (fun _ => "/data") false 128 2 2.
Definition services : Services :=
  mk_services (fun s => Ok s) (fun _ => Ok tt) (Ok tt) (Ok tt) (fun _ => Ok tt) (Ok tt).
Definition input : RunFunctionInput :=
  mk_run_input "sampler" (Some "acme") "{}" false None IBM_CLOUD "token" None None None None [].
Definition web : Web :=
  mk_web (set_config {[ ACTIVE_JOBS_PER_USER := "1" ]} (world_of empty_db SampleCatalog.job)) ∅.

Definition run (s : Web) : outcome Job * Web :=
  execute SampleCatalog.catalog sys lib settings services "new" SampleCatalog.bob SampleCatalog.access input s.

Lemma fresh_web : fresh "new" (database web).
Proof. split; [done|constructor]. Qed.
End SampleRun.

Lemma run_creates_or_leaves_witness :
  match SampleRun.run SampleRun.web with
  | (Ok job, s') => created_in (database SampleRun.web) job (database s') /\ arguments_stored s' !! "new" = Some "{}"
  | (Raise _, _) => False
  end.
Proof.
  pose proof (run_creates_or_leaves SampleCatalog.catalog SampleRun.sys SampleRun.lib SampleRun.settings SampleRun.services
    "new" SampleCatalog.bob SampleCatalog.access SampleRun.input SampleRun.web SampleRun.fresh_web eq_refl) as H.
  unfold SampleRun.run. cbn zeta in H.
  destruct (execute _ _ _ _ _ _ _ _ _ _) as [[job|e] s'] eqn:E; [|by vm_compute in E].
  destruct H as (_ & Hc & ->). split; [exact Hc|reflexivity].
Defined.

Lemma run_limit_witness :
  match SampleRun.run SampleRun.web with
  | (Ok _, s') => active_jobs SampleCatalog.bob (database s') = 1%nat
  | (Raise _, _) => False
  end.
Proof.
  pose proof (run_limit SampleCatalog.catalog SampleRun.sys SampleRun.lib SampleRun.settings SampleRun.services
    "new" SampleCatalog.bob SampleCatalog.access SampleRun.input SampleRun.web SampleCatalog.alice
    SampleRun.fresh_web eq_refl) as H.
  unfold SampleRun.run. cbn zeta in H.
  destruct (execute _ _ _ _ _ _ _ _ _ _) as [[job|e] s'] eqn:E; [|by vm_compute in E]. by destruct H as [-> _].
Defined.
