(* ===== verification/UploadFunction.v ===== *)
(** * Uploading a function ([api/use_cases/programs/upload.py])

    Creating and updating a function with its catalog of sizes, over the tables of the
    catalog, with the assignment of a Code Engine project
    ([core/model_managers/code_engine_projects.py]). *)

From S2P Require Import Prelude PyStr Models Json FunctionSizes ValidateArguments Access RunFunction.

Local Open Scope string_scope.
Local Open Scope list_scope.

Record UploadFunctionInput := mk_upload_input {
  u_title : string;
  u_provider : option string;
  u_entrypoint : option string;
  u_artifact : option string;
  u_image : option string;
  u_env_vars : option string;
  u_dependencies : option string;
  u_runner : option Runner;
  u_description : option string;
  u_version : option string;
  u_type : option string;
  u_arguments_schema : option string;
  u_sizes : option Json;
  u_default_size : option string
}.

(** ** The tables, written *)

Definition set_functions_table v (c : Catalog) : Catalog :=
  mk_catalog (providers c) v (groups c) (admin_groups c) (instances c) (trial_instances c)
    (function_sizes_rows c) (compute_profiles c) (projects c).
Definition set_sizes_table v (c : Catalog) : Catalog :=
  mk_catalog (providers c) (functions c) (groups c) (admin_groups c) (instances c) (trial_instances c)
    v (compute_profiles c) (projects c).

(** A function as it is read: its default size is the row it points to, as it is now. *)
Definition size_row (c : Catalog) (pk : nat) : option FunctionSize :=
  head (filter (fun s => size_pk s = pk) (function_sizes_rows c)).
Definition read_function (c : Catalog) (f : Program) : Program :=
  set_program (P_default_size (s ← default_size f; size_row c (size_pk s))) f.

(** [function.save()]: an update of its row, or a new one, whose key comes last. *)
Fixpoint put_row (f : Program) (l : list Program) : list Program :=
  match l with
  | [] => [f]
  | g :: l' => if bool_decide (program_id g = program_id f) then f :: l' else g :: put_row f l'
  end.
Abbreviation Tables := (M Catalog).
Definition save_function (f : Program) : Tables unit := modify (fun c => set_functions_table (put_row f (functions c)) c).

(** [delete()] of some size rows: a function that points to one of them points to nothing
    ([on_delete=SET_NULL]). *)
Definition delete_sizes (gone : FunctionSize -> bool) (c : Catalog) : Catalog :=
  let pks := map size_pk (filter (fun s => gone s) (function_sizes_rows c)) in
  let clear f := match default_size f with
                 | Some s => if bool_decide (size_pk s ∈ pks) then set_program (P_default_size None) f else f
                 | None => f
                 end in
  set_functions_table (map clear (functions c))
    (set_sizes_table (filter (fun s => negb (gone s)) (function_sizes_rows c)) c).

Definition atomic_tables {A} (m : Tables A) : Tables A :=
  fun c => match m c with (Ok x, c') => (Ok x, c') | (Raise e, _) => (Raise e, c) end.

Section upload.
Context (lib : Libraries) (services : Services) (py_str : Json -> string).
Context (CE_DEFAULT_PROJECT_NAME DEFAULT_FUNCTION_SIZE DEFAULT_FUNCTION_SIZE_PROFILE : string).
Context (new_program_id : nat).

(** ** Dependencies and environment *)

Definition index_error : exn := mk_exn IndexError "index out of range".
Definition json_attribute_error : exn := mk_exn AttributeError "object has no attribute 'keys'".

Definition normalize_dependency (raw : Json) : outcome string :=
  match raw with
  | JStr s => Ok s
  | JObj ((name, v) :: _) =>
      let version := match v with JStr s => s | _ => py_str v end in
      match version with
      | EmptyString => Raise index_error
      | String c _ => Ok (name +:+ (if is_digit c then "==" +:+ version else version))
      end
  | JObj [] => Raise index_error
  | _ => Raise json_attribute_error
  end.

Fixpoint map_outcome {A B} (g : A -> outcome B) (l : list A) : outcome (list B) :=
  match l with
  | [] => Ok []
  | x :: l => match g x with
              | Raise e => Raise e
              | Ok y => match map_outcome g l with Ok ys => Ok (y :: ys) | Raise e => Raise e end
              end
  end.

(** What [for d in json.loads(text)] goes through: the items of a list, the keys of an object, the
    characters of a text. *)
Definition iterated (j : Json) : outcome (list Json) :=
  match j with
  | JArr l => Ok l
  | JObj m => Ok (map (fun kv => JStr kv.1) m)
  | JStr s => Ok (map (fun c => JStr (String c "")) (list_ascii_of_string s))
  | _ => Raise (mk_exn TypeError "object is not iterable")
  end.

(** [json.dumps([_normalize_dependency(d) for d in json.loads(text)])]. *)
Definition normalized_dependencies (text : string) : outcome string :=
  match json_loads lib text with
  | Raise e => Raise e
  | Ok data =>
      match iterated data with
      | Raise e => Raise e
      | Ok deps =>
          match map_outcome normalize_dependency deps with
          | Ok names => json_dumps lib (JArr (map JStr names))
          | Raise e => Raise e
          end
      end
  end.

(** [json.dumps(encrypt_env_vars(json.loads(text)))]. *)
Definition encrypted_env (text : string) : outcome string :=
  match json_loads lib text with
  | Raise e => Raise e
  | Ok (JObj vars) =>
      match map_outcome (fun '(k, v) =>
              if contains_str "token" (lower k) then
                match v with
                | JStr s => match encrypt_string services s with Ok s => Ok (k, JStr s) | Raise e => Raise e end
                | _ => Raise (mk_exn AttributeError "object has no attribute 'encode'")
                end
              else Ok (k, v)) vars with
      | Ok vars => json_dumps lib (JObj vars)
      | Raise e => Raise e
      end
  | Ok _ => Raise (mk_exn AttributeError "object has no attribute 'items'")
  end.

(** ** Code Engine projects *)

Definition select_default (c : Catalog) : outcome (option CodeEngineProject) :=
  if bool_decide (CE_DEFAULT_PROJECT_NAME = "") then Raise (mk_exn ValueError "CE_DEFAULT_PROJECT_NAME not configured")
  else Ok (head (filter (fun p => project_active p = true /\ project_name p = CE_DEFAULT_PROJECT_NAME
         /\ Forall (fun q => project_pk <$> provider_code_engine_project q <> Some (project_pk p)) (providers c))
         (projects c))).

Definition assign_to_program (c : Catalog) (f : Program) : outcome Program :=
  if negb (bool_decide (program_runner f = FLEETS)) then Ok f
  else
    match program_code_engine_project f with
    | Some _ => Ok f
    | None =>
        match program_provider f with
        | Some q =>
            Ok (set_program (P_project (p ← provider_code_engine_project q; if project_active p then Some p else None)) f)
        | None =>
            match select_default c with
            | Ok p => Ok (set_program (P_project p) f)
            | Raise e => Raise e
            end
        end
    end.

Definition no_ce_project_message (f : Program) : string :=
  match program_provider f with
  | Some q =>
      match provider_code_engine_project q with
      | Some p =>
          if project_active p then "No active Code Engine project for provider '" +:+ provider_name q +:+ "'. Contact administrator."
          else "Code Engine project '" +:+ project_name p +:+ "' assigned to provider '" +:+ provider_name q
               +:+ "' is not active. Contact administrator."
      | None => "No active Code Engine project for provider '" +:+ provider_name q +:+ "'. Contact administrator."
      end
  | None => "No active Code Engine project available. Contact administrator."
  end.

(** The assignment and the refusal that follows it, on create and on an update of the runner. *)
Definition with_project (c : Catalog) (f : Program) : outcome Program :=
  match assign_to_program c f with
  | Raise e => Raise e
  | Ok f =>
      if bool_decide (program_runner f = FLEETS) && bool_decide (program_code_engine_project f = None)
      then Raise (configuration_error (no_ce_project_message f)) else Ok f
  end.

(** ** Sizes *)

Definition drf_error (message : string) : exn := mk_exn DRFValidationError message.

Definition get_profile (c : Catalog) (compute_profile_id_ : string) : option ComputeProfile :=
  if bool_decide (compute_profile_id_ = "") then None
  else head (filter (fun p => compute_profile_id p = compute_profile_id_) (compute_profiles c)).

Definition validate_compute_profiles (c : Catalog) (sizes : list (string * string))
    : outcome (list (string * ComputeProfile)) :=
  map_outcome (fun '(name, id_) =>
    match get_profile c id_ with
    | None => Raise (drf_error ("Unknown compute profile '" +:+ id_ +:+ "' for size '" +:+ name +:+ "'. "))
    | Some p => Ok (name, p)
    end) sizes.

Definition validate_declared_sizes (c : Catalog) (sizes : Json) : outcome (list (string * ComputeProfile)) :=
  match parse_function_sizes sizes with
  | Raise e => Raise e
  | Ok parsed => validate_compute_profiles c parsed
  end.

Definition validate_declared_default (profiles : list (string * ComputeProfile)) (default_size_ : option string)
    : outcome (option string) :=
  match normalize_function_size default_size_ with
  | Some name =>
      if bool_decide (name ∈ profiles.*1) then Ok (Some name)
      else Raise (drf_error ("'default_size' is '" +:+ name +:+ "', which is not one of this function's sizes: "
             +:+ join ", " (sorted_set profiles.*1)))
  | None => Ok (match profiles with [(name, _)] => Some name | _ => None end)
  end.

(** [FunctionSize.objects.update_or_create]: the key of a new row is one that was not used. *)
Definition next_size_pk (c : Catalog) : nat := S (foldr Nat.max 0%nat (map size_pk (function_sizes_rows c))).
Definition is_size (f : Program) (name : string) (s : FunctionSize) : bool :=
  bool_decide (size_function s = program_id f) && bool_decide (size_function_size s = name).

Definition put_size (f : Program) (name : string) (profile : ComputeProfile) : Tables FunctionSize :=
  c <- get ;;
  match head (filter (fun s => is_size f name s) (function_sizes_rows c)) with
  | Some s =>
      let s' := mk_function_size (size_pk s) (size_function s) (size_function_size s) profile in
      modify (fun c => set_sizes_table
        (map (fun r => if bool_decide (size_pk r = size_pk s) then s' else r) (function_sizes_rows c)) c) ;;;
      ret s'
  | None =>
      let s' := mk_function_size (next_size_pk c) (program_id f) name profile in
      modify (fun c => set_sizes_table (function_sizes_rows c ++ [s']) c) ;;;
      ret s'
  end.

Fixpoint put_sizes (f : Program) (profiles : list (string * ComputeProfile)) : Tables (list (string * FunctionSize)) :=
  match profiles with
  | [] => ret []
  | (name, profile) :: profiles =>
      row <- put_size f name profile ;;
      rows <- put_sizes f profiles ;;
      ret ((name, row) :: rows)
  end.

(** [function.default_size]: the row the function in hand points to, as it is now. *)
Definition default_row (f : Program) : Tables (option FunctionSize) :=
  gets (fun c => s ← default_size f; size_row c (size_pk s)).

Definition save_default (f : Program) (size : option FunctionSize) : Tables Program :=
  let f := set_program (P_default_size size) f in
  save_function f ;;; ret f.

Definition persist_function_sizes (f : Program) (profiles : list (string * ComputeProfile))
    : Tables (Program * list (string * FunctionSize)) :=
  rows <- put_sizes f profiles ;;
  current <- default_row f ;;
  f <- (match current with
        | Some s => if bool_decide (size_function_size s ∈ rows.*1) then ret f else save_default f None
        | None => ret f
        end) ;;
  modify (delete_sizes (fun s => bool_decide (size_function s = program_id f)
                                 && negb (bool_decide (size_function_size s ∈ rows.*1)))) ;;;
  ret (f, rows).

(** The sizes of an upload that declares some. *)
Definition apply_declared_sizes (f : Program) (sizes : Json) (default_size_ : option string) : Tables Program :=
  c <- get ;;
  profiles <- of_outcome (validate_declared_sizes c sizes) ;;
  default_name <- of_outcome (validate_declared_default profiles default_size_) ;;
  if bool_decide (program_runner f = FLEETS) then
    persisted <- persist_function_sizes f profiles ;;
    let '(f, rows) := persisted in
    match default_name with
    | None => ret f
    | Some name =>
        match list_find (fun kv => kv.1 = name) rows with
        | Some (_, (_, row)) => save_default f (Some row)
        | None => raise (mk_exn KeyError name)
        end
    end
  else ret f.

Definition apply_default_size (f : Program) (default_size_ : string) : Tables Program :=
  c <- get ;;
  let name := upper (strip default_size_) in
  match get_function_size c f (Some name) with
  | Some row => save_default f (Some row)
  | None =>
      let available := sorted_set (map (fun s => upper (size_function_size s)) (function_sizes c f)) in
      raise (drf_error ("'default_size' is '" +:+ name +:+ "', which is not one of this function's sizes: "
        +:+ (if bool_decide (available = []) then "this function declares no sizes." else join ", " available)))
  end.

Definition seed_default_size (f : Program) : Tables Program :=
  c <- get ;;
  match get_profile c DEFAULT_FUNCTION_SIZE_PROFILE with
  | None => raise (configuration_error ("Default compute profile '" +:+ DEFAULT_FUNCTION_SIZE_PROFILE
              +:+ "' is not registered. Contact administrator."))
  | Some profile =>
      let row := mk_function_size (next_size_pk c) (program_id f) DEFAULT_FUNCTION_SIZE profile in
      modify (fun c => set_sizes_table (function_sizes_rows c ++ [row]) c) ;;;
      save_default f (Some row)
  end.

(** ** Creating *)

Definition or_default (o : option string) (d : string) : string := if truthy o then default d o else d.

Definition new_program (user : User) (provider : option Provider) (data : UploadFunctionInput)
    (env deps : string) : Program :=
  {| program_id := new_program_id; title := u_title data; program_provider := provider; program_author := user;
     program_runner := default FLEETS (u_runner data); disabled := false; disabled_message := Some DEFAULT_DISABLED_MESSAGE;
     program_gpu := false; default_size := None; program_code_engine_project := None;
     program_env_vars := env;
     arguments_schema := match u_arguments_schema data with Some s => Some s | None => Some "{}" end;
     program_type := default "GENERIC" (u_type data); description := u_description data;
     program_version := u_version data; entrypoint := or_default (u_entrypoint data) "main.py";
     artifact := u_artifact data; image := u_image data; dependencies := deps |}.

Definition create_function (user : User) (provider : option Provider) (data : UploadFunctionInput) : Tables Program :=
  (if bool_decide (u_entrypoint data = None) && bool_decide (u_image data = None)
   then raise (configuration_error "At least one of attributes (entrypoint, image) is required.") else ret tt) ;;;
  (match u_sizes data, u_default_size data with
   | Some _, None => raise (drf_error "'default_size' is required when 'sizes' is provided.")
   | None, Some _ => raise (drf_error "'sizes' is required when 'default_size' is provided.")
   | _, _ => ret tt
   end) ;;;
  env <- of_outcome (if truthy (u_env_vars data) then encrypted_env (default "" (u_env_vars data)) else Ok "{}") ;;
  deps <- of_outcome (normalized_dependencies (or_default (u_dependencies data) "[]")) ;;
  c <- get ;;
  f <- of_outcome (with_project c (new_program user provider data env deps)) ;;
  atomic_tables
    (save_function f ;;;
     match u_sizes data with
     | Some sizes => apply_declared_sizes f sizes (u_default_size data)
     | None => if bool_decide (program_runner f = FLEETS) then seed_default_size f else ret f
     end).

(** ** Updating *)

Definition set_if {A} (field : A -> ProgramField) (v : option A) (f : Program) : Program :=
  match v with Some v => set_program (field v) f | None => f end.
Definition apply_scalar_updates (data : UploadFunctionInput) (f : Program) : Program :=
  let some {A} (k : option A -> ProgramField) := fun v => k (Some v) in
  set_if (some P_arguments_schema) (u_arguments_schema data)
    (set_if (some P_version) (u_version data)
      (set_if (some P_description) (u_description data)
        (set_if (some P_image) (u_image data)
          (set_if (some P_artifact) (u_artifact data)
            (set_if P_entrypoint (u_entrypoint data) f))))).

Definition updated (field : string -> ProgramField) (transform : string -> outcome string)
    (v : option string) (f : Program) : outcome Program :=
  match v with
  | None => Ok f
  | Some text => match transform text with Ok text => Ok (set_program (field text) f) | Raise e => Raise e end
  end.

Definition update_function (f : Program) (data : UploadFunctionInput) : Tables Program :=
  let f := apply_scalar_updates data f in
  f <- of_outcome (updated P_dependencies normalized_dependencies (u_dependencies data) f) ;;
  f <- of_outcome (updated P_env_vars encrypted_env (u_env_vars data) f) ;;
  c <- get ;;
  f <- of_outcome (match u_runner data with
                   | Some r => with_project c (set_program (P_runner r) f)
                   | None => Ok f
                   end) ;;
  atomic_tables
    (save_function f ;;;
     c <- get ;;
     match u_sizes data with
     | Some sizes => apply_declared_sizes f sizes (u_default_size data)
     | None =>
         match u_default_size data with
         | Some name => apply_default_size f name
         | None =>
             if bool_decide (program_runner f = FLEETS) && bool_decide (function_sizes c f = [])
             then seed_default_size f else ret f
         end
     end).

(** ** [UploadFunctionUseCase.execute] *)

Definition upload_not_found (data : UploadFunctionInput) : exn :=
  mk_exn FunctionNotFoundException ("Qiskit Function " +:+ default "" (u_provider data) +:+ "/" +:+ u_title data
    +:+ " doesn't exist.").
Definition upload_not_entitled (data : UploadFunctionInput) : exn :=
  mk_exn CustomFunctionNotEntitledException ("Your account is not entitled to upload custom Qiskit Functions, so '"
    +:+ u_title data +:+ "' could not be uploaded.").

(** The function the upload names, if it exists, and its provider. *)
Definition upload_target (c : Catalog) (user : User) (a : FunctionAccessResult) (data : UploadFunctionInput)
    : outcome (option Provider * option Program) :=
  if truthy (u_provider data) then
    match head (filter (fun p => Some (provider_name p) = u_provider data) (providers c)) with
    | None => Raise (upload_not_found data)
    | Some p =>
        let existing := head (filter (fun f => title f = u_title data
                          /\ of_provider (default "" (u_provider data)) f = true) (functions c)) in
        match can_upload_function c user (Some p) (u_title data) (Some a) with
        | Raise e => Raise e
        | Ok false => Raise (upload_not_found data)
        | Ok true => Ok (Some p, existing)
        end
    end
  else if can_create_program (Some a) then
    Ok (None, head (filter (fun f => title f = u_title data /\ written_by user f = true) (functions c)))
  else Raise (upload_not_entitled data).

Definition upload (user : User) (a : FunctionAccessResult) (data : UploadFunctionInput) : Tables Program :=
  c <- get ;;
  target <- of_outcome (upload_target c user a data) ;;
  match target with
  | (provider, None) => create_function user provider data
  | (_, Some existing) => update_function (read_function c existing) data
  end.
End upload.
