(* ===== verification/UploadFunctionProps.v ===== *)
(** * Correctness of an upload

    An upload writes everything or nothing, keeps the catalog of sizes consistent, and leaves
    a Fleets function that can be run. *)

From S2P Require Import Prelude PyStr Models Json FunctionSizes ValidateArguments Access RunFunction UploadFunction.

Local Open Scope string_scope.
Local Open Scope list_scope.

(** ** The tables *)

(** What identifies a size: its key, its function, its label. *)
Definition ident (s : FunctionSize) : nat * (nat * string) := (size_pk s, (size_function s, size_function_size s)).
Definition idents (c : Catalog) : list (nat * (nat * string)) := map ident (function_sizes_rows c).
Definition program_ids (c : Catalog) : list nat := map program_id (functions c).

(** The default size of a function is one of its own. *)
Definition default_ok (c : Catalog) (f : Program) : Prop :=
  match default_size f with
  | Some s => exists name, (size_pk s, (program_id f, name)) ∈ idents c
  | None => True
  end.

(** The primary keys, [unique_function_size], the foreign keys and [Program.clean]. *)
Record tables_ok (c : Catalog) : Prop := {
  size_keys : NoDup (idents c).*1;
  size_unique : NoDup (idents c).*2;
  size_owned s : s ∈ function_sizes_rows c -> size_function s ∈ program_ids c;
  program_keys : NoDup (program_ids c);
  defaults_own f : f ∈ functions c -> default_ok c f
}.

Lemma elem_of_put_row f g l : g ∈ put_row f l -> g = f \/ g ∈ l.
Proof. induction l as [|h l IH]; cbn; [set_solver|]. case_bool_decide; set_solver. Qed.
Lemma put_row_here f l : f ∈ put_row f l.
Proof. induction l as [|h l IH]; cbn; [set_solver|]. case_bool_decide; set_solver. Qed.
Lemma put_row_ids f l :
  map program_id (put_row f l) = map program_id l \/ map program_id (put_row f l) = map program_id l ++ [program_id f]
    /\ program_id f ∉ map program_id l.
Proof.
  induction l as [|h l IH]; cbn; [right; set_solver|]. case_bool_decide as He; cbn; [left; by rewrite He|].
  destruct IH as [-> |[-> Hn]]; [by left|right]. split; [done|]. set_solver.
Qed.

Lemma idents_functions v c : idents (set_functions_table v c) = idents c. Proof. done. Qed.

Lemma save_ok c f :
  tables_ok c -> default_ok c f ->
  let c' := set_functions_table (put_row f (functions c)) c in
  tables_ok c' /\ f ∈ functions c' /\ idents c' = idents c /\ (forall n, n ∈ program_ids c -> n ∈ program_ids c').
Proof.
  intros [Hk Hu Ho Hp Hd] Hf c'.
  assert (forall n, n ∈ program_ids c -> n ∈ program_ids c') as Hids.
  { intros n Hn. unfold program_ids, c' in *. cbn. destruct (put_row_ids f (functions c)) as [-> |[-> _]]; set_solver. }
  split; [|split; [apply put_row_here|done]]. split; try done.
  - intros s Hs. apply Hids, Ho, Hs.
  - unfold program_ids, c'. cbn. destruct (put_row_ids f (functions c)) as [-> |[-> Hn]]; [done|].
    apply NoDup_app. split; [done|]. split; [set_solver|apply NoDup_singleton].
  - intros g [->|Hg]%elem_of_put_row; [exact Hf|by apply Hd].
Qed.

(** A new row of a size the function does not have. *)
Lemma next_size_pk_fresh c : next_size_pk c ∉ (idents c).*1.
Proof.
  unfold next_size_pk, idents. induction (function_sizes_rows c) as [|s l IH]; cbn; [set_solver|].
  intros [Hs|Hin]%elem_of_cons; [lia|]. clear IH.
  assert (forall k, k ∈ (map ident l).*1 -> (k <= foldr Nat.max 0 (map size_pk l))%nat) as Hle.
  { clear. induction l as [|r l IH]; cbn; [set_solver|]. intros k [->|Hk]%elem_of_cons; [lia|]. specialize (IH k Hk). lia. }
  apply Hle in Hin. lia.
Qed.

Lemma add_size_ok c s :
  tables_ok c -> size_pk s = next_size_pk c -> (size_function s, size_function_size s) ∉ (idents c).*2 ->
  size_function s ∈ program_ids c ->
  let c' := set_sizes_table (function_sizes_rows c ++ [s]) c in
  tables_ok c' /\ idents c' = idents c ++ [ident s].
Proof.
  intros [Hk Hu Ho Hp Hd] Hpk Hnew Hown c'. assert (idents c' = idents c ++ [ident s]) as Hi by (unfold idents, c'; cbn; by rewrite map_app).
  split; [|done]. split.
  - rewrite Hi, fmap_app. apply NoDup_app. split; [done|]. split; [|apply NoDup_singleton].
    intros n Hn Heq%list_elem_of_singleton. cbn in Heq. subst n. rewrite Hpk in Hn. by apply next_size_pk_fresh in Hn.
  - rewrite Hi, fmap_app. apply NoDup_app. split; [done|]. split; [|apply NoDup_singleton].
    intros n Hn Heq%list_elem_of_singleton. by subst n.
  - intros r [Hr|Hr%list_elem_of_singleton]%elem_of_app; [by apply Ho|by subst r].
  - done.
  - intros f Hf. specialize (Hd f Hf). unfold default_ok in *. destruct (default_size f); [|done].
    destruct Hd as [name Hn]. exists name. rewrite Hi. set_solver.
Qed.

Section upload.
Context (lib : Libraries) (services : Services) (py_str : Json -> string).
Context (CE_DEFAULT_PROJECT_NAME DEFAULT_FUNCTION_SIZE DEFAULT_FUNCTION_SIZE_PROFILE : string).
Context (new_program_id : nat).

(** ** Sizes *)

Lemma size_row_ident c pk : (exists n, (pk, n) ∈ idents c) <-> is_Some (size_row c pk).
Proof.
  unfold size_row, idents. split.
  - intros [n (s & [= -> ->] & Hs)%list_elem_of_fmap].
    destruct (filter (fun r => size_pk r = size_pk s) (function_sizes_rows c)) as [|r l] eqn:E; [|by eexists].
    assert (s ∈ filter (fun r => size_pk r = size_pk s) (function_sizes_rows c)) as H by (by apply list_elem_of_filter).
    rewrite E in H. set_solver.
  - intros [r [<- Hr]%head_Some_elem_of%list_elem_of_filter]. eexists. apply list_elem_of_fmap. by exists r.
Qed.

Lemma fst_functional {A B} (l : list (A * B)) k a b : NoDup l.*1 -> (k, a) ∈ l -> (k, b) ∈ l -> a = b.
Proof.
  induction l as [|[k' x] l IH]; cbn; [set_solver|]. intros [Hn Hnd]%NoDup_cons Ha Hb.
  assert (forall y, (k, y) ∈ l -> k ∈ l.*1) as Hin by (intros y Hy; apply list_elem_of_fmap; by exists (k, y)).
  apply elem_of_cons in Ha as [Ha|Ha]; apply elem_of_cons in Hb as [Hb|Hb]; simplify_eq; naive_solver.
Qed.

Lemma same_key c r s :
  tables_ok c -> r ∈ function_sizes_rows c -> s ∈ function_sizes_rows c -> size_pk r = size_pk s -> ident r = ident s.
Proof.
  intros Hok Hr Hs Hpk. unfold ident. rewrite Hpk. f_equal.
  eapply (fst_functional (idents c) (size_pk s)); [apply Hok|..]; apply list_elem_of_fmap.
  - exists r. by rewrite <- Hpk.
  - by exists s.
Qed.

Lemma tables_ok_idents c v :
  tables_ok c -> map ident v = idents c -> tables_ok (set_sizes_table v c).
Proof.
  intros [Hk Hu Ho Hp Hd] Hi. split; unfold idents in *; cbn; rewrite ?Hi; try done.
  - intros s Hs. assert (ident s ∈ map ident (function_sizes_rows c)) as (r & Hr & Hin)%list_elem_of_fmap.
    { rewrite <- Hi. by apply list_elem_of_fmap_2. }
    apply Ho in Hin. unfold ident in Hr. injection Hr as _ -> _. exact Hin.
  - intros f Hf. specialize (Hd f Hf). unfold default_ok, idents in *. cbn. by rewrite Hi.
Qed.

Lemma put_size_ok f name profile c :
  tables_ok c -> program_id f ∈ program_ids c ->
  exists row c', put_size f name profile c = (Ok row, c') /\ tables_ok c' /\ functions c' = functions c
    /\ ident row ∈ idents c' /\ size_function row = program_id f /\ size_function_size row = name
    /\ (forall i, i ∈ idents c -> i ∈ idents c').
Proof.
  intros Hok Hf. unfold put_size. unfold bind at 1, get.
  destruct (head _) as [s|] eqn:E.
  - apply head_Some_elem_of, list_elem_of_filter in E as [[Hsf Hsn]%andb_prop_elim Hs].
    rewrite !bool_decide_spec in Hsf, Hsn. cbn.
    set (s' := mk_function_size _ _ _ _). set (c' := set_sizes_table _ _).
    assert (idents c' = idents c) as Hi.
    { unfold idents, c'. cbn. rewrite map_map. apply map_ext_in. intros r Hr%list_elem_of_In.
      case_bool_decide as Hpk; [|done]. transitivity (ident s); [done|]. by apply same_key with c. }
    exists s', c'. rewrite Hi. split_and!; try done; [by apply tables_ok_idents|].
    change (ident s') with (ident s). by apply list_elem_of_fmap_2.
  - assert ((program_id f, name) ∉ (idents c).*2) as Hnew.
    { intros (i & Hi & (s & -> & Hs)%list_elem_of_fmap)%list_elem_of_fmap. cbn in Hi. injection Hi as Hsf Hsn.
      assert (s ∈ filter (fun s => is_size f name s) (function_sizes_rows c)) as Hin.
      { apply list_elem_of_filter. split; [|done]. unfold is_size. apply andb_prop_intro. by rewrite !bool_decide_spec. }
      destruct (filter _ _); [set_solver|done]. }
    cbn. set (s' := mk_function_size _ _ _ _).
    destruct (add_size_ok c s' Hok eq_refl Hnew Hf) as [Hok' Hi]. eexists s', _.
    split_and!; try done; rewrite Hi; set_solver.
Qed.

Definition row_ok (c : Catalog) (f : Program) (row : FunctionSize) : Prop :=
  ident row ∈ idents c /\ size_function row = program_id f.
Definition rows_ok (c : Catalog) (f : Program) (rows : list (string * FunctionSize)) : Prop :=
  Forall (fun kv => row_ok c f kv.2 /\ size_function_size kv.2 = kv.1) rows.

Lemma put_sizes_ok f profiles c :
  tables_ok c -> program_id f ∈ program_ids c ->
  exists rows c', put_sizes f profiles c = (Ok rows, c') /\ tables_ok c' /\ functions c' = functions c
    /\ rows.*1 = profiles.*1 /\ rows_ok c' f rows /\ (forall i, i ∈ idents c -> i ∈ idents c').
Proof.
  revert c. induction profiles as [|[name profile] profiles IH]; intros c Hok Hf; cbn.
  { exists [], c. split_and!; try done. by constructor. }
  destruct (put_size_ok f name profile c Hok Hf) as (row & c1 & Hrun & Hok1 & Hfs & Hi & Hsf & Hsn & Hmono).
  unfold bind at 1. rewrite Hrun.
  destruct (IH c1 Hok1) as (rows & c2 & Hrun2 & Hok2 & Hfs2 & Hnames & Hrows & Hmono2); [unfold program_ids; by rewrite Hfs|].
  unfold bind. rewrite Hrun2. exists ((name, row) :: rows), c2.
  split_and!; [done|done|congruence|cbn; by rewrite Hnames| |naive_solver].
  constructor; [|done]. cbn. split; [split; [by apply Hmono2|done]|done].
Qed.

(** Rows deleted, and the functions that pointed to them. *)
Lemma delete_sizes_ok gone c :
  tables_ok c ->
  let c' := delete_sizes gone c in
  tables_ok c' /\ program_ids c' = program_ids c
  /\ (forall s, s ∈ function_sizes_rows c -> gone s = false -> ident s ∈ idents c')
  /\ (forall f, f ∈ functions c ->
        (forall s r, default_size f = Some s -> r ∈ function_sizes_rows c -> size_pk r = size_pk s -> gone r = false) ->
        f ∈ functions c').
Proof.
  intros [Hk Hu Ho Hp Hd] c'.
  assert (program_ids c' = program_ids c) as Hids.
  { unfold program_ids, c'. cbn. rewrite map_map. apply map_ext. intros f.
    destruct (default_size f); [case_bool_decide|]; done. }
  assert (sublist (idents c') (idents c)) as Hsub.
  { unfold idents, c'. cbn. apply (fmap_sublist ident), sublist_filter. }
  assert (forall s, s ∈ function_sizes_rows c -> gone s = false -> s ∈ function_sizes_rows c') as Hkept.
  { intros s Hs Hg. cbn. apply list_elem_of_filter. by rewrite Hg. }
  split_and!; [|done| |].
  - split; rewrite ?Hids; try done.
    + eapply sublist_NoDup; [exact Hk|]. by apply (fmap_sublist fst).
    + eapply sublist_NoDup; [exact Hu|]. by apply (fmap_sublist snd).
    + intros s [_ Hs]%list_elem_of_filter. by apply Ho.
    + intros f' (f & -> & Hf)%list_elem_of_fmap. specialize (Hd f Hf). unfold default_ok in *.
      destruct (default_size f) as [s|] eqn:E; [|by rewrite E]. case_bool_decide as Hpk; cbn; [done|]. rewrite E.
      destruct Hd as [name (r & Hr & Hin)%list_elem_of_fmap]. exists name. rewrite Hr. apply list_elem_of_fmap_2.
      destruct (gone r) eqn:Hg; [|by apply Hkept]. destruct Hpk. injection Hr as -> _ _. apply list_elem_of_fmap_2.
      apply list_elem_of_filter. by rewrite Hg.
  - intros s Hs Hg. by apply list_elem_of_fmap_2, Hkept.
  - intros f Hf Hs. cbn. apply list_elem_of_fmap. exists f. split; [|done].
    destruct (default_size f) as [s|] eqn:E; [|done]. case_bool_decide as Hpk; [|done]. exfalso.
    apply list_elem_of_fmap in Hpk as (r & Hr & [Hg Hin]%list_elem_of_filter). by rewrite (Hs s r) in Hg.
Qed.

(** A default saved on a function of the table. *)
Lemma save_default_ok f size c :
  tables_ok c -> program_id f ∈ program_ids c -> (forall row, size = Some row -> row_ok c f row) ->
  exists f' c', save_default f size c = (Ok f', c') /\ f' = set_program (P_default_size size) f
    /\ tables_ok c' /\ f' ∈ functions c' /\ idents c' = idents c /\ function_sizes_rows c' = function_sizes_rows c
    /\ (forall n, n ∈ program_ids c -> n ∈ program_ids c').
Proof.
  intros Hok Hf Hrow. eexists _, _. split; [reflexivity|]. split; [done|].
  edestruct (save_ok c (set_program (P_default_size size) f) Hok) as (Hok' & Hin & Hi & Hids); [|by split_and!].
  unfold default_ok. cbn. destruct size as [row|]; [|done]. destruct (Hrow row eq_refl) as [Hr <-].
  by exists (size_function_size row).
Qed.
Lemma set_default_same f : set_program (P_default_size (default_size f)) f = f.
Proof. by destruct f. Qed.
Lemma in_ids c f : f ∈ functions c -> program_id f ∈ program_ids c.
Proof. intros Hf. by apply list_elem_of_fmap_2. Qed.

Definition gone_from (f : Program) (labels : list string) (s : FunctionSize) : bool :=
  bool_decide (size_function s = program_id f) && negb (bool_decide (size_function_size s ∈ labels)).

(** The default that does not survive is cleared before the sizes are deleted, and one that
    survives is not touched by the deletion. *)
Lemma clear_default_ok f labels c :
  tables_ok c -> f ∈ functions c ->
  exists current f' c',
    default_row f c = (Ok current, c)
    /\ (match current with
        | Some s => if bool_decide (size_function_size s ∈ labels) then ret f else save_default f None
        | None => ret f
        end) c = (Ok f', c')
    /\ tables_ok c' /\ f' ∈ functions c' /\ (exists s, f' = set_program (P_default_size s) f) /\ idents c' = idents c
    /\ (forall s r, default_size f' = Some s -> r ∈ function_sizes_rows c' -> size_pk r = size_pk s ->
        gone_from f labels r = false).
Proof.
  intros Hok Hf. unfold default_row, gets. exists (s ← default_size f; size_row c (size_pk s)).
  assert (exists s, f = set_program (P_default_size s) f) as Hself.
  { exists (default_size f). symmetry. apply set_default_same. }
  destruct (default_size f) as [s|] eqn:Hs; cbn.
  2:{ exists f, c. split_and!; try done. congruence. }
  destruct (size_row c (size_pk s)) as [cur|] eqn:Hcur.
  2:{ pose proof (defaults_own _ Hok f Hf) as Hd. unfold default_ok in Hd. rewrite Hs in Hd.
      destruct Hd as [name Hn]. destruct (proj1 (size_row_ident c (size_pk s))) as [x Hx]; [by eexists|congruence]. }
  apply head_Some_elem_of, list_elem_of_filter in Hcur as [Hpk Hcur]. case_bool_decide as Hlab.
  - exists f, c. split_and!; try done. intros s' r Hs' Hr Hpkr. rewrite Hs in Hs'. injection Hs' as <-.
    pose proof (same_key c r cur Hok Hr Hcur ltac:(congruence)) as [= _ _ Hl].
    unfold gone_from. rewrite Hl, (bool_decide_true _ Hlab). apply andb_false_r.
  - destruct (save_default_ok f None c Hok (in_ids c f Hf)) as (f' & c2 & -> & -> & Hok2 & Hin & Hi & _); [done|].
    eexists _, c2. split_and!; try done. by exists None.
Qed.

Lemma persist_ok f profiles c :
  tables_ok c -> f ∈ functions c ->
  exists f' rows c', persist_function_sizes f profiles c = (Ok (f', rows), c')
    /\ tables_ok c' /\ f' ∈ functions c' /\ (exists s, f' = set_program (P_default_size s) f)
    /\ rows.*1 = profiles.*1 /\ rows_ok c' f rows.
Proof.
  intros Hok Hf. unfold persist_function_sizes.
  destruct (put_sizes_ok f profiles c Hok (in_ids c f Hf)) as (rows & c1 & Hrun & Hok1 & Hfs & Hnames & Hrows & _).
  unfold bind at 1. rewrite Hrun. clear Hrun. rewrite <- Hfs in Hf.
  destruct (clear_default_ok f rows.*1 c1 Hok1 Hf) as (current & f' & c2 & Hdr & Hrun & Hok2 & Hf2 & [s ->] & Hi & Hstay).
  unfold bind at 1. rewrite Hdr. unfold bind at 1. rewrite Hrun.
  destruct (delete_sizes_ok (gone_from f rows.*1) c2 Hok2) as (Hok3 & _ & Hkept & Hf3).
  eexists _, rows, (delete_sizes (gone_from f rows.*1) c2).
  split_and!; [reflexivity|exact Hok3|by apply Hf3|by exists s|done|].
  apply Forall_forall. intros [name row] Hin. pose proof (proj1 (Forall_forall _ _) Hrows _ Hin) as [[Hr Hown] Hlab]. cbn in *.
  split; [|done]. split; [|done]. rewrite <- Hi in Hr. apply list_elem_of_fmap in Hr as (r & Heq & Hr). rewrite Heq.
  apply Hkept; [done|]. injection Heq as _ _ Hl. unfold gone_from. rewrite <- Hl, Hlab.
  rewrite (bool_decide_true (name ∈ rows.*1)); [apply andb_false_r|]. apply list_elem_of_fmap. by exists (name, row).
Qed.

(** ** What each way of giving sizes leaves *)

(** [f'], saved in [c'], is [f] with a default size, unless none was asked for. *)
Definition sized (f f' : Program) (c' : Catalog) (asked : option string) : Prop :=
  tables_ok c' /\ f' ∈ functions c' /\ (exists s, f' = set_program (P_default_size s) f)
  /\ (program_runner f = FLEETS -> default_size f' = None -> asked = None).

Lemma save_sized f row asked c :
  tables_ok c -> program_id f ∈ program_ids c -> row_ok c f row ->
  exists f' c', save_default f (Some row) c = (Ok f', c') /\ sized f f' c' asked.
Proof.
  intros Hok Hf Hrow. destruct (save_default_ok f (Some row) c Hok Hf) as (f' & c' & -> & -> & Hok' & Hin & _).
  { by intros r [= <-]. }
  eexists _, c'. split; [done|]. split_and!; [done|done|by eexists|done].
Qed.

Lemma sized_again f s f' c' asked : sized (set_program (P_default_size s) f) f' c' asked -> sized f f' c' asked.
Proof. intros (Hok & Hin & [s' ->] & Hd). split_and!; [done|done|by exists s'|done]. Qed.

Lemma declared_default_in profiles asked name :
  validate_declared_default profiles asked = Ok (Some name) -> name ∈ profiles.*1.
Proof.
  unfold validate_declared_default. destruct (normalize_function_size asked).
  - case_bool_decide; [|done]. by intros [= <-].
  - destruct profiles as [|[n p] [|]]; try done. intros [= <-]. cbn. set_solver.
Qed.
Lemma declared_default_none profiles asked : validate_declared_default profiles asked = Ok None -> asked = None.
Proof. unfold validate_declared_default. destruct asked; cbn; [case_bool_decide|]; done. Qed.

Lemma apply_declared_ok f sizes asked c f' c' :
  tables_ok c -> f ∈ functions c -> apply_declared_sizes f sizes asked c = (Ok f', c') -> sized f f' c' asked.
Proof.
  intros Hok Hf. unfold apply_declared_sizes, bind, get, of_outcome.
  destruct (validate_declared_sizes c sizes) as [profiles|]; [|done].
  cbv beta iota delta [ret].
  destruct (validate_declared_default profiles asked) as [name|] eqn:Hname; [|done].
  case_bool_decide as Hr.
  2:{ intros [= <- <-]. split_and!; [done|done|exists (default_size f); symmetry; apply set_default_same|done]. }
  destruct (persist_ok f profiles c Hok Hf) as (f1 & rows & c1 & Hrun & Hok1 & Hf1 & [s ->] & Hnames & Hrows).
  rewrite Hrun. destruct name as [name|].
  - apply declared_default_in in Hname. rewrite <- Hnames in Hname.
    destruct (list_find _ rows) as [[i [n row]]|] eqn:Hfind; [|done].
    apply list_find_Some in Hfind as (Hi & _). apply list_elem_of_lookup_2 in Hi.
    pose proof (proj1 (Forall_forall _ _) Hrows _ Hi) as [Hrow _].
    destruct (save_sized (set_program (P_default_size s) f) row asked c1 Hok1 (in_ids _ _ Hf1) Hrow) as (f2 & c2 & -> & Hs).
    intros [= <- <-]. by eapply sized_again.
  - intros [= <- <-]. apply declared_default_none in Hname. split_and!; [done|done|by eexists|done].
Qed.

Lemma apply_default_ok f asked c f' c' :
  tables_ok c -> f ∈ functions c -> apply_default_size f asked c = (Ok f', c') -> sized f f' c' (Some asked).
Proof.
  intros Hok Hf. unfold apply_default_size, bind, get.
  destruct (get_function_size _ _ _) as [row|] eqn:E; [|done].
  unfold get_function_size in E. destruct (truthy _); [|done].
  apply head_Some_elem_of, list_elem_of_filter in E as [_ [Hown Hrow]%list_elem_of_filter].
  destruct (save_sized f row (Some asked) c Hok (in_ids _ _ Hf)) as (f2 & c2 & -> & Hs).
  { split; [by apply list_elem_of_fmap_2|done]. }
  by intros [= <- <-].
Qed.

Lemma seed_ok f c f' c' :
  tables_ok c -> f ∈ functions c -> function_sizes c f = [] ->
  seed_default_size DEFAULT_FUNCTION_SIZE DEFAULT_FUNCTION_SIZE_PROFILE f c = (Ok f', c') ->
  sized f f' c' (Some DEFAULT_FUNCTION_SIZE).
Proof.
  intros Hok Hf Hnone. unfold seed_default_size, bind, get. destruct (get_profile c _) as [profile|]; [|done]. cbn.
  set (row := mk_function_size _ _ _ _).
  destruct (add_size_ok c row Hok eq_refl) as [Hok1 Hi]; [|by apply in_ids|].
  { intros (i & Hi & (s & -> & Hs)%list_elem_of_fmap)%list_elem_of_fmap. injection Hi as Hsf _.
    assert (s ∈ function_sizes c f) as Hin by (by apply list_elem_of_filter). rewrite Hnone in Hin. set_solver. }
  destruct (save_sized f row (Some DEFAULT_FUNCTION_SIZE) _ Hok1 (in_ids c f Hf)) as (f2 & c2 & Hrun & Hs).
  { split; [rewrite Hi; set_solver|done]. }
  cbn in Hrun. rewrite Hrun. by intros [= <- <-].
Qed.

(** ** All or nothing *)

Definition reads {A} (m : Tables A) : Prop := forall c, (m c).2 = c.
Definition quiet {A} (m : Tables A) : Prop := forall c e c', m c = (Raise e, c') -> c' = c.

Lemma reads_outcome {A} (o : outcome A) : reads (of_outcome o). Proof. by intros c; destruct o. Qed.
Lemma reads_get : reads get. Proof. done. Qed.
Lemma quiet_atomic {A} (m : Tables A) : quiet (atomic_tables m).
Proof. intros c e c'. unfold atomic_tables. destruct (m c) as [[]]; [done|]. by intros [= _ <-]. Qed.
Lemma quiet_reads {A B} (m : Tables A) (k : A -> Tables B) : reads m -> (forall x, quiet (k x)) -> quiet (bind m k).
Proof.
  intros Hm Hk c e c'. specialize (Hm c). unfold bind. destruct (m c) as [[x|e'] c1]; cbn in Hm; subst c1.
  - apply Hk.
  - by intros [= _ <-].
Qed.
Lemma atomic_tables_ok {A} (m : Tables A) c x c' : atomic_tables m c = (Ok x, c') -> m c = (Ok x, c').
Proof. unfold atomic_tables. by destruct (m c) as [[]]. Qed.

Abbreviation create_f := (create_function lib services py_str CE_DEFAULT_PROJECT_NAME DEFAULT_FUNCTION_SIZE
  DEFAULT_FUNCTION_SIZE_PROFILE new_program_id).
Abbreviation update_f := (update_function lib services py_str CE_DEFAULT_PROJECT_NAME DEFAULT_FUNCTION_SIZE
  DEFAULT_FUNCTION_SIZE_PROFILE).
Abbreviation upload_f := (upload lib services py_str CE_DEFAULT_PROJECT_NAME DEFAULT_FUNCTION_SIZE
  DEFAULT_FUNCTION_SIZE_PROFILE new_program_id).

Lemma create_quiet user provider data : quiet (create_f user provider data).
Proof.
  unfold create_function. apply quiet_reads; [by intros c; destruct (_ && _)|intros _].
  apply quiet_reads; [by intros c; destruct (u_sizes data), (u_default_size data)|intros _].
  do 2 (apply quiet_reads; [apply reads_outcome|intros ?]). apply quiet_reads; [done|intros c].
  apply quiet_reads; [apply reads_outcome|intros f]. apply quiet_atomic.
Qed.
Lemma update_quiet f data : quiet (update_f f data).
Proof.
  unfold update_function. do 2 (apply quiet_reads; [apply reads_outcome|intros ?]). apply quiet_reads; [done|intros c].
  apply quiet_reads; [apply reads_outcome|intros g]. apply quiet_atomic.
Qed.

(** ** The function that is saved *)

Lemma assign_ok c f f' :
  assign_to_program CE_DEFAULT_PROJECT_NAME c f = Ok f' -> exists p, f' = set_program (P_project p) f.
Proof.
  unfold assign_to_program. intros Ha. destruct (negb _); [|destruct (program_code_engine_project f) eqn:E].
  1,2: injection Ha as <-; exists (program_code_engine_project f); by destruct f.
  destruct (program_provider f); [by injection Ha as <-; eexists|].
  destruct (select_default _ c); [|done]. by injection Ha as <-; eexists.
Qed.

Lemma with_project_ok c f f' :
  with_project CE_DEFAULT_PROJECT_NAME c f = Ok f' ->
  (exists p, f' = set_program (P_project p) f)
  /\ (program_runner f' = FLEETS -> is_Some (program_code_engine_project f')).
Proof.
  unfold with_project. destruct (assign_to_program _ c f) as [g|] eqn:Ha; [|done]. apply assign_ok in Ha.
  destruct (bool_decide_reflect (program_runner g = FLEETS)) as [Hr|Hr]; cbn.
  - case_bool_decide as Hp; [done|]. intros [= <-]. split; [done|].
    intros _. destruct (program_code_engine_project g); [by eexists|done].
  - intros [= <-]. split; [done|]. intros Hf. by rewrite Hf in Hr.
Qed.

Lemma default_ok_set x f c :
  (match x with P_default_size _ => False | _ => True end) -> default_ok c f -> default_ok c (set_program x f).
Proof. by destruct x. Qed.

Lemma function_sizes_nil c f :
  (forall s, s ∈ function_sizes_rows c -> size_function s <> program_id f) -> function_sizes c f = [].
Proof.
  intros H. unfold function_sizes. destruct (filter _ _) as [|s l] eqn:E; [done|exfalso].
  assert (s ∈ filter (fun s => size_function s = program_id f) (function_sizes_rows c)) as [Hs Hin]%list_elem_of_filter.
  { rewrite E. set_solver. }
  by apply (H s).
Qed.

(** What is checked of a function that was uploaded: it is stored, in tables that are still
    consistent, and if it runs on Fleets it has a project (when the upload set the runner)
    and a size, unless it is an update that asked for none. *)
Lemma create_ok user provider data c f' c' :
  tables_ok c -> new_program_id ∉ program_ids c -> create_f user provider data c = (Ok f', c') ->
  tables_ok c' /\ f' ∈ functions c' /\ program_id f' = new_program_id
  /\ (program_runner f' = FLEETS -> is_Some (program_code_engine_project f') /\ is_Some (default_size f')).
Proof.
  intros Hok Hnew. unfold create_function. intros H. apply bind_ok_inv in H as ([] & c0 & Hg1 & H).
  destruct (_ && _); [done|]. injection Hg1 as <-. apply bind_ok_inv in H as ([] & c0 & Hg2 & H).
  assert (c0 = c /\ (u_sizes data <> None -> u_default_size data <> None)) as [-> Hboth].
  { destruct (u_sizes data), (u_default_size data); try done; by injection Hg2 as <-. }
  apply bind_ok_inv in H as (env & c1 & [_ ->]%of_outcome_ok & H).
  apply bind_ok_inv in H as (deps & c1 & [_ ->]%of_outcome_ok & H).
  unfold bind at 1, get in H. apply bind_ok_inv in H as (f & c1 & [Hf ->]%of_outcome_ok & H).
  apply with_project_ok in Hf as [[p ->] Hproj]. set (f := set_program _ _) in *.
  apply atomic_tables_ok in H. unfold bind, save_function, modify in H.
  destruct (save_ok c f Hok) as (Hok1 & Hin & Hi & _); [done|].
  assert (function_sizes (set_functions_table (put_row f (functions c)) c) f = []) as Hnone.
  { apply function_sizes_nil. intros s Hs Hof. apply Hnew. change new_program_id with (program_id f). rewrite <- Hof. by apply (size_owned _ Hok). }
  assert (sized f f' c' (Some "") \/ program_runner f <> FLEETS /\ sized f f' c' None) as Hs.
  { destruct (u_sizes data) as [sizes|].
    - left. apply apply_declared_ok in H as (?&?&?&Hd); [|done..]. split_and!; [done..|].
      intros Hr Hn. exfalso. by apply Hboth; [|apply Hd].
    - case_bool_decide as Hr; [left|right].
      + apply seed_ok in H as (?&?&?&Hd); [|done..]. split_and!; [done..|]. intros _ Hn. discriminate (Hd Hr Hn).
      + injection H as <- <-. split; [done|]. split_and!; try done. exists (default_size f). symmetry. apply set_default_same. }
  assert (tables_ok c' /\ f' ∈ functions c' /\ (exists s, f' = set_program (P_default_size s) f)
    /\ (program_runner f = FLEETS -> default_size f' = None -> False)) as (? & ? & [s ->] & Hd).
  { destruct Hs as [(?&?&?&Hd)|[Hr (?&?&?&Hd)]]; split_and!; try done. intros Hr Hn. discriminate (Hd Hr Hn). }
  split_and!; [done..|]. intros Hr. split; [by apply Hproj|]. destruct s; [by eexists|]. exfalso. by apply Hd.
Qed.

(** The scalar updates, the dependencies and the environment keep the key and the default. *)
Definition keeps (f f' : Program) : Prop := program_id f' = program_id f /\ default_size f' = default_size f.
Lemma updated_keeps field transform v f f' :
  (forall t, keeps f (set_program (field t) f)) -> updated field transform v f = Ok f' -> keeps f f'.
Proof.
  intros Hk. unfold updated. destruct v as [text|]; [|by intros [= <-]]. destruct (transform text); [|done]. by intros [= <-].
Qed.

Lemma update_ok g data c f' c' :
  tables_ok c -> program_id g ∈ program_ids c -> default_ok c g -> update_f g data c = (Ok f', c') ->
  tables_ok c' /\ f' ∈ functions c' /\ program_id f' = program_id g
  /\ (program_runner f' = FLEETS ->
        (u_runner data <> None -> is_Some (program_code_engine_project f'))
        /\ (default_size f' = None -> u_default_size data = None)).
Proof.
  intros Hok Hg Hd. unfold update_function. intros H.
  assert (keeps g (apply_scalar_updates data g)) as Hk.
  { unfold apply_scalar_updates. by destruct (u_arguments_schema data), (u_version data), (u_description data),
      (u_image data), (u_artifact data), (u_entrypoint data). }
  revert H Hk. generalize (apply_scalar_updates data g). intros g0 H Hk.
  apply bind_ok_inv in H as (g1 & c1 & [H1 ->]%of_outcome_ok & H). apply updated_keeps in H1; [|done].
  apply bind_ok_inv in H as (g2 & c1 & [H2 ->]%of_outcome_ok & H). apply updated_keeps in H2; [|done].
  unfold bind at 1, get in H. apply bind_ok_inv in H as (f & c1 & [Hf ->]%of_outcome_ok & H).
  assert (keeps g f /\ (u_runner data <> None -> program_runner f = FLEETS -> is_Some (program_code_engine_project f)))
    as [[Hid Hdf] Hproj].
  { unfold keeps in *. destruct (u_runner data); [apply with_project_ok in Hf as [[p ->] Hp]|injection Hf as <-].
    - split; [cbn; intuition congruence|by intros _].
    - split; [intuition congruence|done]. }
  apply atomic_tables_ok in H. unfold bind, save_function, modify in H.
  assert (default_ok c f) as Hdok by (unfold default_ok in *; rewrite Hdf, Hid; done).
  destruct (save_ok c f Hok Hdok) as (Hok1 & Hin & Hi & _).
  assert (sized f f' c' (u_default_size data)) as (Hok' & Hin' & [s ->] & Hs).
  { unfold get in H. destruct (u_sizes data); [by apply apply_declared_ok in H|].
    destruct (u_default_size data); [by apply apply_default_ok in H|].
    destruct (bool_decide_reflect (program_runner f = FLEETS)); cbn in H.
    - case_bool_decide as Hn; [|].
      + apply seed_ok in H as (?&?&?&?); [|done..]. by split_and!.
      + injection H as <- <-. split_and!; try done. exists (default_size f). symmetry. apply set_default_same.
    - injection H as <- <-. split_and!; try done. exists (default_size f). symmetry. apply set_default_same. }
  split_and!; [done..|]. intros Hr. split; [intros Hrun; by apply Hproj|by apply Hs].
Qed.

Lemma read_default_ok c g : default_ok c g -> default_ok c (read_function c g).
Proof.
  unfold default_ok, read_function. cbn. destruct (default_size g) as [s|]; [|done]. intros [name Hn]. cbn.
  destruct (size_row c (size_pk s)) as [r|] eqn:Hr; [|done].
  apply head_Some_elem_of, list_elem_of_filter in Hr as [-> _]. by exists name.
Qed.

(** A Fleets function with a default size of its own is run with it. *)
Lemma default_runs c f :
  tables_ok c -> f ∈ functions c -> program_runner f = FLEETS -> is_Some (default_size f) ->
  exists rc, get_runner_config c (read_function c f) None = Ok rc /\ rc_size_source rc = SIZE_SOURCE_DEFAULT_SIZE.
Proof.
  intros Hok Hf Hr [s Hs]. pose proof (defaults_own _ Hok f Hf) as Hd. unfold default_ok in Hd. rewrite Hs in Hd.
  destruct Hd as [name Hn]. destruct (proj1 (size_row_ident c (size_pk s))) as [row Hrow]; [by eexists|].
  unfold get_runner_config, read_function. cbn. rewrite Hr, Hs. cbn. rewrite Hrow. cbn. eexists. by split.
Qed.

(** C20: an upload that is refused writes nothing. One that is accepted leaves the tables
    consistent (keys and labels unique, every size of an existing function, every default
    size one of its function's own), with the function in them; and a Fleets function comes
    out of it with a size to run with, unless it existed before, no default size was sent and
    it had none: the run without a size that [run.py] refuses is reached in no other way. *)
Theorem upload_keeps_runnable user a data c o c' :
  tables_ok c -> new_program_id ∉ program_ids c ->
  upload_f user a data c = (o, c') ->
  match o with
  | Raise _ => c' = c
  | Ok f =>
      tables_ok c' /\ f ∈ functions c'
      /\ (program_runner f = FLEETS ->
            (exists rc, get_runner_config c' (read_function c' f) None = Ok rc
                        /\ rc_size_source rc = SIZE_SOURCE_DEFAULT_SIZE)
            \/ (program_id f ∈ program_ids c /\ u_default_size data = None /\ default_size f = None))
  end.
Proof.
  intros Hok Hnew. unfold upload, bind at 1, get.
  destruct (upload_target c user a data) as [[provider [g|]]|e] eqn:Ht; unfold bind; cbn; [| |by intros [= <- <-]].
  - assert (g ∈ functions c) as Hg.
    { unfold upload_target in Ht. repeat case_match; simplify_eq;
      match goal with H : head _ = Some g |- _ => by apply head_Some_elem_of, list_elem_of_filter in H as [_ ?] end. }
    intros H. destruct o as [f|e]; [|by eapply update_quiet].
    apply update_ok in H as (Hok' & Hin & Hid & Hf); [|done|exact (in_ids c g Hg)|by apply read_default_ok, (defaults_own _ Hok)].
    split_and!; [done..|]. intros Hr. destruct (Hf Hr) as [_ Hd]. destruct (default_size f) eqn:Hs.
    + left. apply default_runs; [done..|]. rewrite Hs. by eexists.
    + right. split_and!; [rewrite Hid; exact (in_ids c g Hg)|by apply Hd|done].
  - intros H. destruct o as [f|e]; [|by eapply create_quiet].
    apply create_ok in H as (Hok' & Hin & _ & Hf); [|done..].
    split_and!; [done..|]. intros Hr. left. by apply default_runs; [..|apply Hf].
Qed.
End upload.

(** ** A first upload and an update *)
Module SampleUpload.
Definition lib : Libraries :=
  mk_libraries (fun _ => Ok "[]") (fun _ => Ok (JArr [])) (fun _ => "") (fun _ => "Error")
    (fun _ _ _ => Matches) (fun _ => Ok tt).
Definition services : Services :=
  mk_services (fun s => Ok s) (fun _ => Ok tt) (Ok tt) (Ok tt) (fun _ => Ok tt) (Ok tt).
Definition profile : ComputeProfile := mk_profile "16x128" "16" None "128".
Definition project : CodeEngineProject := mk_project 1 "default" "us-east" None true None "ce-uuid" "pool" "state" "users-pds" "providers-pds" (Some "tasks") (Some "cos") (Some "key").
Definition alice : User := mk_user 1 "alice".
Definition catalog : Catalog := mk_catalog [] [] [] (fun _ => []) (fun _ => []) (fun _ => []) [] [profile] [project].
Definition access : FunctionAccessResult := mk_access true "" [] [].
Definition input : UploadFunctionInput :=
  mk_upload_input "hello" None (Some "main.py") None None None None None None None None None None None.
Definition run (data : UploadFunctionInput) (c : Catalog) : outcome Program * Catalog :=
  upload lib services (fun _ => "") "default" "M" "16x128" 3 alice access data c.
End SampleUpload.

Lemma upload_keeps_runnable_witness :
  match SampleUpload.run SampleUpload.input SampleUpload.catalog with
  | (Ok f, c') =>
      tables_ok c' /\ exists rc, get_runner_config c' (read_function c' f) None = Ok rc
        /\ rc_size_source rc = SIZE_SOURCE_DEFAULT_SIZE
  | _ => False
  end.
Proof.
  destruct (SampleUpload.run SampleUpload.input SampleUpload.catalog) as [o c'] eqn:E.
  assert (tables_ok SampleUpload.catalog) as Hok.
  { split; cbn; try apply NoDup_nil_2; intros x Hx; set_solver. }
  pose proof (upload_keeps_runnable SampleUpload.lib SampleUpload.services (fun _ => "") "default" "M" "16x128" 3
    SampleUpload.alice SampleUpload.access SampleUpload.input SampleUpload.catalog o c' Hok ltac:(cbn; set_solver) E) as H.
  destruct o as [f|e]; [|by vm_compute in E]. destruct H as (Hok' & _ & H). split; [exact Hok'|].
  assert (program_runner f = FLEETS) as Hr by (vm_compute in E; injection E as <- _; reflexivity).
  destruct (H Hr) as [Hrc|[Hin _]]; [exact Hrc|]. cbn in Hin. set_solver.
Defined.
