(* ===== verification/Paths.v ===== *)
(** * Names and paths ([core/utils.py], [api/utils.py], [core/services/storage/path_builder.py])

    The sanitizers a name or a path goes through before it reaches a store, the lexical path
    operations of [os.path], and the paths of the Object Storage mount. *)

From Stdlib Require Import Btauto.
From S2P Require Import Prelude PyStr Models.

Local Open Scope string_scope.
Local Open Scope list_scope.

(** ** [os.path] *)

Definition slash : ascii := "/"%char.

Fixpoint last_part (ws : list string) : string :=
  match ws with [] => "" | [w] => w | _ :: ws => last_part ws end.
Definition basename (p : string) : string := last_part (split_on slash p).

Fixpoint endswith_char (c : ascii) (s : string) : bool :=
  match s with
  | EmptyString => false
  | String a EmptyString => bool_decide (a = c)
  | String _ s => endswith_char c s
  end.

(** [os.path.join(a, b)]. *)
Definition path_join (a b : string) : string :=
  if startswith "/" b then b
  else if bool_decide (a = "") || endswith_char slash a then a +:+ b
  else a +:+ "/" +:+ b.

(** [os.path.normpath]: the parts kept so far, the last first. *)
Definition norm_step (rooted : bool) (kept : list string) (comp : string) : list string :=
  if bool_decide (comp = "") || bool_decide (comp = ".") then kept
  else if bool_decide (comp = "..") then
    match kept with
    | [] => if rooted then [] else [".."]
    | last :: kept' => if bool_decide (last = "..") then ".." :: kept else kept'
    end
  else comp :: kept.
Definition norm_parts (rooted : bool) (comps : list string) : list string := rev (foldl (norm_step rooted) [] comps).
Definition root_of (path : string) : string :=
  if startswith "//" path && negb (startswith "///" path) then "//" else if startswith "/" path then "/" else "".
Definition normpath (path : string) : string :=
  let root := root_of path in
  let path := root +:+ join "/" (norm_parts (negb (bool_decide (root = ""))) (split_on slash path)) in
  if bool_decide (path = "") then "." else path.

Example normpath_ex :
  map normpath ["a//b/./c"; "a/../../b"; "/../x"; "//x/y/.."; ""; "a/.."] = ["a/b/c"; "../b"; "/x"; "//x"; "."; "."].
Proof. reflexivity. Qed.

(** ** The sanitizers *)

Definition is_alnum (c : ascii) : bool := is_digit c || is_lower c || is_upper c.
(** The character classes of the patterns, without their negation. *)
Definition path_char (c : ascii) : bool := is_alnum c || bool_decide (c ∈ ["-"; "_"; "."; "/"]%char).
Definition file_char (c : ascii) : bool := is_alnum c || bool_decide (c ∈ ["_"; "."; "-"]%char).
Definition name_char (c : ascii) : bool := is_alnum c || bool_decide (c ∈ ["_"; "-"; "/"]%char).

(** [re.sub("[^...]+", "_", s)]: a run of other characters becomes one [_]; [in_run] says
    that the run the character belongs to was replaced already. *)
Fixpoint sub_runs (ok : ascii -> bool) (in_run : bool) (s : string) : string :=
  match s with
  | EmptyString => EmptyString
  | String c s =>
      if ok c then String c (sub_runs ok false s)
      else if in_run then sub_runs ok true s
      else String "_"%char (sub_runs ok true s)
  end.

(** [re.sub("[^...]", "", s)]. *)
Fixpoint keep_chars (ok : ascii -> bool) (s : string) : string :=
  match s with
  | EmptyString => EmptyString
  | String c s => if ok c then String c (keep_chars ok s) else keep_chars ok s
  end.

Definition sanitize_file_path (path : string) : string := sub_runs path_char false (replace ".." "_" path).

Definition sanitize_sub_path (sub_path : option string) : string :=
  if truthy sub_path then
    let sub_path := sub_runs path_char false (replace ".." "_" (default "" sub_path)) in
    join "/" (filter (fun part => part <> "") (split_on slash sub_path))
  else "".

Definition sanitize_name (name : option string) : option string :=
  if truthy name then Some (keep_chars name_char (default "" name)) else name.

Definition sanitize_file_name (name : option string) : option string :=
  if truthy name then Some (sub_runs file_char false (replace ".." "_" (default "" name))) else name.

Definition parse_title_and_provider (t : string) (provider : option string)
    : outcome (option string * option string) :=
  if truthy provider then
    if contains_char slash t
    then Raise (mk_exn DRFValidationError "Provider defined in title and in provider fields.")
    else Ok (sanitize_name (Some t), sanitize_name provider)
  else
    match split_on slash t with
    | [_] => Ok (sanitize_name (Some t), None)
    | [p; t] => Ok (sanitize_name (Some t), sanitize_name (Some p))
    | _ => Raise (mk_exn DRFValidationError "Qiskit Function title is malformed. It can only contain one slash.")
    end.

(** ** [PathBuilder] *)

Inductive WorkingDir := USER_STORAGE | PROVIDER_STORAGE.

Definition with_extra (path : string) (extra_sub_path : option string) : string :=
  match extra_sub_path with Some e => path_join path e | None => path end.

Definition get_user_sub_path (username function_title : string) (provider_name extra_sub_path : option string) : string :=
  let path := match provider_name with
              | None => username
              | Some p => path_join (path_join username p) function_title
              end in
  sanitize_file_path (with_extra path extra_sub_path).

Definition get_provider_sub_path (function_title provider_name : string) (extra_sub_path : option string) : string :=
  sanitize_file_path (with_extra (path_join provider_name function_title) extra_sub_path).

(** A provider's directory is only asked for with its name ([os.path.join(None, ...)] raises). *)
Definition sub_path (working_dir : WorkingDir) (username function_title : string)
    (provider_name extra_sub_path : option string) : outcome string :=
  match working_dir with
  | USER_STORAGE => Ok (get_user_sub_path username function_title provider_name extra_sub_path)
  | PROVIDER_STORAGE =>
      match provider_name with
      | Some p => Ok (get_provider_sub_path function_title p extra_sub_path)
      | None => Raise (mk_exn TypeError "expected str, bytes or os.PathLike object, not NoneType")
      end
  end.

(** The path [absolute_path] makes a directory of. *)
Definition absolute_path_of (MEDIA_ROOT sub : string) : string := sanitize_file_path (path_join MEDIA_ROOT sub).

Example sanitize_ex :
  (sanitize_file_path "../a//b c+.txt", sanitize_sub_path (Some "/wheels//x/"), sanitize_sub_path (Some "../../x"),
   sanitize_file_name (Some "a++b.whl"), sanitize_file_path "...")
  = ("_/a//b_c_.txt", "wheels/x", "_/_/x", Some "a_b.whl", "_.").
Proof. reflexivity. Qed.

(** ** Lemmas *)

(** [replace(s, "..", "_")], by structure. *)
Fixpoint dots (s : string) : string :=
  match s with
  | EmptyString => EmptyString
  | String c s' =>
      match s' with
      | String d s'' =>
          if bool_decide (c = "."%char) && bool_decide (d = "."%char) then String "_"%char (dots s'') else String c (dots s')
      | EmptyString => s
      end
  end.

Lemma str_ind2 (P : string -> Prop) :
  P "" -> (forall c, P (String c "")) -> (forall c d s, P s -> P (String d s) -> P (String c (String d s))) -> forall s, P s.
Proof.
  intros H0 H1 H2 s. enough (P s /\ forall c, P (String c s)) by tauto.
  induction s as [|c s [IH1 IH2]]; split; auto.
Qed.

Lemma replace_dots s : replace ".." "_" s = dots s.
Proof.
  unfold replace. induction s as [|c|c d s IH1 IH2] using str_ind2; [done| |].
  - cbn. by case_bool_decide.
  - change (dots (String c (String d s))) with
      (if bool_decide (c = "."%char) && bool_decide (d = "."%char) then String "_"%char (dots s) else String c (dots (String d s))).
    change (replace_from 0 ".." "_" (String c (String d s))) with
      (if bool_decide ("."%char = c) && (bool_decide ("."%char = d) && true)
       then String "_"%char (replace_from 0 ".." "_" s) else String c (replace_from 0 ".." "_" (String d s))).
    rewrite IH1, IH2, andb_true_r.
    by rewrite (bool_decide_ext ("."%char = c) (c = "."%char)), (bool_decide_ext ("."%char = d) (d = "."%char)) by done.
Qed.

(** No two dots in a row. *)
Fixpoint nodots (s : string) : bool :=
  match s with
  | EmptyString => true
  | String c s' =>
      negb (bool_decide (c = "."%char) && match s' with String d _ => bool_decide (d = "."%char) | _ => false end) && nodots s'
  end.

Definition head_char (s : string) : option ascii := match s with String c _ => Some c | _ => None end.

Lemma nodots_dots s : nodots (dots s) = true.
Proof.
  enough (nodots (dots s) = true /\ (head_char (dots s) = Some "."%char -> head_char s = Some "."%char)) by tauto.
  induction s as [|c|c d s [IH1 Hh1] [IH2 Hh2]] using str_ind2; [done|by cbn; rewrite andb_false_r|].
  change (dots (String c (String d s))) with
    (if bool_decide (c = "."%char) && bool_decide (d = "."%char) then String "_"%char (dots s) else String c (dots (String d s))).
  destruct (bool_decide_reflect (c = "."%char)) as [->|Hc]; [destruct (bool_decide_reflect (d = "."%char)) as [->|Hd]|]; cbn [andb].
  - split; [|done]. cbn. exact IH1.
  - split; [|done]. cbn [nodots]. rewrite IH2, andb_true_r. apply negb_true_iff, andb_false_iff. right.
    destruct (dots (String d s)) as [|e t]; [done|]. apply bool_decide_false. intros ->. by injection (Hh2 eq_refl) as ->.
  - split; [|done]. cbn [nodots]. rewrite IH2, bool_decide_false by done. done.
Qed.

Lemma nodots_sub_runs ok b s : ok "."%char = true -> nodots s = true -> nodots (sub_runs ok b s) = true.
Proof.
  intros Hok. enough (nodots s = true -> nodots (sub_runs ok b s) = true
    /\ (b = false -> head_char (sub_runs ok b s) = Some "."%char -> head_char s = Some "."%char)) by tauto.
  revert b. induction s as [|c s IH]; intros b H; [done|]. cbn in H. apply andb_prop in H as [Hc Hs].
  cbn. destruct (ok c) eqn:Hokc.
  - split; [|done]. cbn. destruct (IH false Hs) as [-> Hh]. rewrite andb_true_r. apply negb_true_iff, andb_false_iff.
    apply negb_true_iff, andb_false_iff in Hc as [Hc|Hc]; [by left|right].
    destruct (sub_runs ok false s) as [|d t]; [done|]. apply bool_decide_false. intros ->. specialize (Hh eq_refl eq_refl).
    destruct s; [done|]. injection Hh as ->. by rewrite bool_decide_true in Hc.
  - destruct (IH true Hs) as [Ht _]. destruct b; [done|]. split; [cbn; by rewrite Ht|done].
Qed.

Lemma sub_runs_chars ok b s : ok "_"%char = true -> forallb_str ok (sub_runs ok b s) = true.
Proof.
  intros Hok. revert b. induction s as [|c s IH]; intros b; cbn; [done|]. destruct (ok c) eqn:Hc; cbn; [by rewrite Hc, IH|].
  destruct b; cbn; rewrite ?Hok; apply IH.
Qed.
Lemma sub_runs_id ok s : forallb_str ok s = true -> sub_runs ok false s = s.
Proof. induction s as [|c s IH]; cbn; [done|]. intros [-> Hs]%andb_prop. by rewrite (IH Hs). Qed.
Lemma dots_id s : nodots s = true -> dots s = s.
Proof.
  induction s as [|c|c d s IH1 IH2] using str_ind2; [done..|]. intros H.
  change (nodots (String c (String d s))) with
    (negb (bool_decide (c = "."%char) && bool_decide (d = "."%char)) && nodots (String d s)) in H.
  apply andb_prop in H as [Hc%negb_true_iff Hs].
  change (dots (String c (String d s))) with
    (if bool_decide (c = "."%char) && bool_decide (d = "."%char) then String "_"%char (dots s) else String c (dots (String d s))).
  by rewrite Hc, (IH2 Hs).
Qed.

(** What the sanitizers promise of a path: its characters, and no [..]. *)
Definition clean (p : string) : bool := nodots p && forallb_str path_char p.

Lemma sanitize_clean p : clean (sanitize_file_path p) = true.
Proof.
  unfold clean, sanitize_file_path. rewrite replace_dots, sub_runs_chars by done.
  by rewrite nodots_sub_runs; [|done|apply nodots_dots].
Qed.
Lemma sanitize_id p : clean p = true -> sanitize_file_path p = p.
Proof. intros [Hd Hc]%andb_prop. unfold sanitize_file_path. by rewrite replace_dots, dots_id, sub_runs_id. Qed.
Lemma sanitize_idem p : sanitize_file_path (sanitize_file_path p) = sanitize_file_path p.
Proof. apply sanitize_id, sanitize_clean. Qed.

(** *** Parts *)

Lemma split_cons_eq s : split_on slash (String slash s) = "" :: split_on slash s.
Proof. reflexivity. Qed.
Lemma split_cons_ne c s : c <> slash ->
  split_on slash (String c s) = match split_on slash s with [] => [String c ""] | w :: ws => String c w :: ws end.
Proof. intros H. cbn. by rewrite bool_decide_false. Qed.
Lemma split_on_cons s : exists w ws, split_on slash s = w :: ws.
Proof. pose proof (split_on_nonempty slash s). destruct (split_on slash s); [done|by eexists _, _]. Qed.

Lemma split_sub_runs ok b s :
  ok slash = true ->
  split_on slash (sub_runs ok b s)
  = match split_on slash s with w :: ws => sub_runs ok b w :: map (sub_runs ok false) ws | [] => [] end.
Proof.
  intros Hok. revert b. induction s as [|c s IH]; intros b; [done|].
  destruct (decide (c = slash)) as [->|Hc].
  - cbn [sub_runs]. rewrite Hok, !split_cons_eq, IH. destruct (split_on_cons s) as (w & ws & ->). done.
  - rewrite (split_cons_ne c s) by done. destruct (split_on_cons s) as (w & ws & Hs). rewrite Hs in *.
    cbn [sub_runs]. destruct (ok c) eqn:Hokc; [|destruct b].
    + by rewrite split_cons_ne, IH.
    + by rewrite IH.
    + by rewrite split_cons_ne, IH.
Qed.

Lemma split_dots s : split_on slash (dots s) = map dots (split_on slash s).
Proof.
  induction s as [|c|c d s IH1 IH2] using str_ind2; [done|by cbn; case_bool_decide|].
  change (dots (String c (String d s))) with
    (if bool_decide (c = "."%char) && bool_decide (d = "."%char) then String "_"%char (dots s) else String c (dots (String d s))).
  destruct (bool_decide (c = "."%char) && bool_decide (d = "."%char)) eqn:E.
  - apply andb_prop in E as [->%bool_decide_eq_true ->%bool_decide_eq_true].
    rewrite !split_cons_ne, IH1 by done. by destruct (split_on_cons s) as (w & ws & ->).
  - destruct (decide (c = slash)) as [->|Hc]; [rewrite !split_cons_eq, IH2; done|].
    rewrite (split_cons_ne c) by done. rewrite IH2. rewrite (split_cons_ne c (String d s)) by done.
    destruct (decide (d = slash)) as [->|Hd]; [rewrite !split_cons_eq; done|].
    rewrite (split_cons_ne d s) by done. destruct (split_on_cons s) as (w & ws & ->). cbn [map].
    change (dots (String c (String d w))) with
      (if bool_decide (c = "."%char) && bool_decide (d = "."%char) then String "_"%char (dots w) else String c (dots (String d w))).
    by rewrite E.
Qed.

Lemma split_sanitize p : split_on slash (sanitize_file_path p) = map sanitize_file_path (split_on slash p).
Proof.
  unfold sanitize_file_path. rewrite replace_dots, split_sub_runs, split_dots by done.
  destruct (split_on_cons p) as (w & ws & ->). cbn. rewrite map_map, replace_dots. f_equal.
  apply map_ext. intros v. by rewrite replace_dots.
Qed.

Lemma last_part_map f ws : ws <> [] -> last_part (map f ws) = f (last_part ws).
Proof. induction ws as [|w [|v ws] IH]; intros H; [done|done|]. apply IH. done. Qed.
Lemma basename_sanitize p : basename (sanitize_file_path p) = sanitize_file_path (basename p).
Proof. unfold basename. rewrite split_sanitize. apply last_part_map, split_on_nonempty. Qed.

Lemma last_part_in ws : ws <> [] -> last_part ws ∈ ws.
Proof. induction ws as [|w [|v ws] IH]; intros H; [done|set_solver|]. apply elem_of_cons. right. by apply IH. Qed.
Lemma basename_no_slash p : contains_char slash (basename p) = false.
Proof. apply (split_on_parts slash p), last_part_in, split_on_nonempty. Qed.
Lemma basename_id p : contains_char slash p = false -> basename p = p.
Proof. intros H. unfold basename. by rewrite split_on_whole. Qed.

Lemma forallb_split ok s w : forallb_str ok s = true -> w ∈ split_on slash s -> forallb_str ok w = true.
Proof.
  revert w. induction s as [|c s IH]; intros w H Hw; [cbn in Hw; by apply list_elem_of_singleton in Hw as ->|].
  cbn in H. apply andb_prop in H as [Hc Hs]. destruct (decide (c = slash)) as [->|Hn].
  - rewrite split_cons_eq in Hw. apply elem_of_cons in Hw as [->|Hw]; [done|by apply IH].
  - rewrite split_cons_ne in Hw by done. destruct (split_on_cons s) as (v & vs & Hv). rewrite Hv in *.
    apply elem_of_cons in Hw as [->|Hw]; [|apply IH; set_solver]. cbn. rewrite Hc. apply IH; set_solver.
Qed.
Lemma nodots_split s w : nodots s = true -> w ∈ split_on slash s -> nodots w = true.
Proof.
  revert w. induction s as [|c s IH]; intros w H Hw; [cbn in Hw; by apply list_elem_of_singleton in Hw as ->|].
  cbn in H. apply andb_prop in H as [Hc Hs]. destruct (decide (c = slash)) as [->|Hn].
  - rewrite split_cons_eq in Hw. apply elem_of_cons in Hw as [->|Hw]; [done|by apply IH].
  - rewrite split_cons_ne in Hw by done. destruct (split_on_cons s) as (v & vs & Hv). rewrite Hv in Hw, IH.
    apply elem_of_cons in Hw as [->|Hw]; [|apply IH; set_solver]. cbn. rewrite (IH v) by set_solver. rewrite andb_true_r.
    apply negb_true_iff, andb_false_iff. apply negb_true_iff, andb_false_iff in Hc as [Hc|Hc]; [by left|right].
    destruct v as [|d v]; [done|]. destruct s as [|e s]; [done|].
    destruct (decide (e = slash)) as [->|He]; [rewrite split_cons_eq in Hv; discriminate Hv|].
    rewrite split_cons_ne in Hv by done. destruct (split_on slash s); injection Hv as -> _; exact Hc.
Qed.

(** A part of a clean path is a clean name, and no [..]. *)
Lemma clean_part p w : clean p = true -> w ∈ split_on slash p -> clean w = true /\ w <> ".." /\ contains_char slash w = false.
Proof.
  intros [Hd Hc]%andb_prop Hw. unfold clean. rewrite (nodots_split p), (forallb_split _ p) by done.
  split; [done|]. split; [|by apply (split_on_parts slash p)]. intros ->. by apply (nodots_split p) in Hw.
Qed.

(** *** File names *)

Lemma dots_no_slash s : contains_char slash s = false -> contains_char slash (dots s) = false.
Proof.
  intros H. pose proof (split_dots s) as E. rewrite (split_on_whole slash s H) in E. cbn in E.
  apply (split_on_parts slash (dots s)). rewrite E. set_solver.
Qed.

Lemma sub_runs_ext ok ok' b s :
  (forall c, contains_char c s = true -> ok c = ok' c) -> sub_runs ok b s = sub_runs ok' b s.
Proof.
  revert b. induction s as [|c s IH]; intros b H; [done|]. cbn.
  assert (ok c = ok' c) as -> by (apply H; cbn; by rewrite bool_decide_true).
  rewrite !IH; [done|..]; intros d Hd; apply H; cbn; rewrite Hd; apply orb_true_r.
Qed.

(** A name without a delimiter is stored under the name it is looked up by. *)
Lemma sanitize_file_name_path n : contains_char slash n = false -> sanitize_file_name (Some n) = Some (sanitize_file_path n).
Proof.
  intros H. unfold sanitize_file_name, sanitize_file_path. destruct n as [|c n]; [done|].
  rewrite !replace_dots. cbn [truthy default from_option Datatypes.id]. f_equal. apply sub_runs_ext.
  intros d Hd. unfold file_char, path_char. f_equal. apply bool_decide_ext.
  assert (d <> slash) as Hn by (intros ->; by rewrite dots_no_slash in Hd). unfold slash in Hn. set_solver.
Qed.

(** *** Sub-paths *)

(** A clean relative path: its parts are clean, not empty, and there is no [..]. *)
Definition relative_parts (ws : list string) : Prop :=
  Forall (fun w => w <> "" /\ w <> ".." /\ clean w = true /\ contains_char slash w = false) ws.

Lemma sanitize_sub_path_parts s :
  exists ws, sanitize_sub_path s = join "/" ws /\ relative_parts ws.
Proof.
  unfold sanitize_sub_path. destruct (truthy s); [|exists []; split; [done|constructor]].
  eexists. split; [reflexivity|]. apply Forall_forall. intros w [Hne Hw]%list_elem_of_filter.
  apply clean_part in Hw as (Hc & Hd & Hs); [done|]. apply sanitize_clean.
Qed.

Lemma split_relative ws : relative_parts ws -> ws <> [] -> split_on slash (join "/" ws) = ws.
Proof. intros H Hne. apply (split_join slash); [done|]. eapply Forall_impl; [exact H|]. by intros w (?&?&?&?). Qed.

(** *** Joining *)

Lemma split_on_app_slash a b : split_on slash (a +:+ String slash b) = split_on slash a ++ split_on slash b.
Proof.
  induction a as [|c a IH]; [done|]. change (String c a +:+ String slash b) with (String c (a +:+ String slash b)).
  destruct (decide (c = slash)) as [->|Hc]; [by rewrite !split_cons_eq, IH|].
  rewrite !split_cons_ne, IH by done. by destruct (split_on_cons a) as (w & ws & ->).
Qed.

Lemma endswith_app c a b : b <> "" -> endswith_char c (a +:+ b) = endswith_char c b.
Proof.
  intros Hb. induction a as [|d a IH]; [done|]. change (String d a +:+ b) with (String d (a +:+ b)). rewrite <- IH.
  destruct (a +:+ b) eqn:E; [|done]. by destruct a, b.
Qed.
Lemma forallb_str_app ok a b : forallb_str ok (a +:+ b) = forallb_str ok a && forallb_str ok b.
Proof.
  induction a as [|c a IH]; [done|]. change (String c a +:+ b) with (String c (a +:+ b)). cbn. by rewrite IH, andb_assoc.
Qed.
Lemma nodots_slash a b : nodots (a +:+ String slash b) = nodots a && nodots b.
Proof.
  induction a as [|c a IH]; [done|]. change (String c a +:+ String slash b) with (String c (a +:+ String slash b)).
  cbn [nodots]. rewrite IH, andb_assoc. do 3 f_equal. destruct a as [|d a]; [|done].
  f_equal.
Qed.
Lemma clean_slash a b : clean (a +:+ String slash b) = clean a && clean b.
Proof.
  unfold clean. rewrite nodots_slash, forallb_str_app.
  change (forallb_str path_char (String slash b)) with (forallb_str path_char b). btauto.
Qed.

Lemma endswith_slash a : endswith_char slash a = true -> exists x, a = x +:+ "/".
Proof.
  induction a as [|c a IH]; [done|]. destruct a as [|d a].
  - cbn. intros ->%bool_decide_eq_true. by exists "".
  - intros H. destruct (IH H) as [x Hx]. exists (String c x). by rewrite Hx.
Qed.

(** Joining a relative name: the parts of both, and clean if both are. *)
Lemma path_join_spec a b :
  startswith "/" b = false ->
  (a = "" /\ path_join a b = b) \/ (exists x, (a = x \/ a = x +:+ "/") /\ path_join a b = x +:+ String slash b).
Proof.
  intros Hb. unfold path_join. rewrite Hb. destruct (bool_decide_reflect (a = "")) as [->|Ha]; cbn; [by left|right].
  destruct (endswith_char slash a) eqn:E; [|by exists a; split; [left|]].
  apply endswith_slash in E as [x ->]. exists x. split; [by right|].
  assert (forall s, (s +:+ "/") +:+ b = s +:+ String slash b) as H; [|apply H].
  induction s as [|c s IH]; [done|].
  change ((String c s +:+ "/") +:+ b) with (String c ((s +:+ "/") +:+ b)). by rewrite IH.
Qed.
Lemma clean_join a b : startswith "/" b = false -> clean a = true -> clean b = true -> clean (path_join a b) = true.
Proof.
  intros Hb Ha Hcb. destruct (path_join_spec a b Hb) as [[_ ->]|(x & Hx & ->)]; [done|].
  rewrite clean_slash, Hcb, andb_true_r. destruct Hx as [<-|Hx]; [done|].
  rewrite Hx in Ha. change (x +:+ "/") with (x +:+ String slash "") in Ha. rewrite clean_slash in Ha. by apply andb_prop in Ha as [].
Qed.

Lemma no_slash_start b : contains_char slash b = false -> startswith "/" b = false.
Proof. destruct b as [|c b]; [done|]. cbn. intros [Hc _]%orb_false_iff. rewrite andb_true_r.
  apply bool_decide_eq_false in Hc. rewrite bool_decide_false; [done|]. by intros <-.
Qed.
Lemma relative_start ws : relative_parts ws -> startswith "/" (join "/" ws) = false.
Proof.
  intros H. destruct H as [|w ws (Hne & _ & _ & Hs) _]; [done|].
  destruct w as [|c w]; [done|]. destruct ws; cbn [join].
  - by apply no_slash_start.
  - change (String c w +:+ "/" +:+ join "/" (s :: ws)) with (String c (w +:+ "/" +:+ join "/" (s :: ws))).
    pose proof (no_slash_start _ Hs) as Hc. exact Hc.
Qed.
Lemma clean_relative ws : relative_parts ws -> clean (join "/" ws) = true.
Proof.
  intros H. induction H as [|w ws (_ & _ & Hc & _) Hws IH]; [done|]. destruct ws as [|v ws]; [done|].
  change (join "/" (w :: v :: ws)) with (w +:+ String slash (join "/" (v :: ws))). by rewrite clean_slash, Hc, IH.
Qed.
