(* ===== verification/Stores.v ===== *)
(** * Where files are kept

    The file system the Ray storages write to, as the [os] calls see it, and the object
    storage behind the Fleets ones, as [JobCOS] ([core/ibm_cloud/code_engine/fleets/cos.py])
    and [COSClient] ([core/ibm_cloud/cos/cos_client.py]) use it. *)

From S2P Require Import Prelude PyStr Paths.

Local Open Scope string_scope.
Local Open Scope list_scope.

(** ** The state *)

Inductive Node := Dir | Data (content : string).
#[export] Instance Node_eq_dec : EqDecision Node.
Proof. solve_decision. Defined.

(** A path of the file system is its parts from the root, which is always a directory. A
    bucket is the keys in it. *)
Abbreviation FS := (gmap (list string) Node).
Abbreviation Buckets := (gmap (string * string) string).
Record Store := mk_store { disk : FS; buckets : Buckets }.
Definition set_disk (d : FS) (st : Store) : Store := mk_store d (buckets st).
Definition set_buckets (b : Buckets) (st : Store) : Store := mk_store (disk st) b.

(** ** The file system

    A path without [..] is followed part by part; empty parts and [.] stay where they are. *)

Definition resolve (p : string) : list string := filter (fun w => w <> "" /\ w <> ".") (split_on slash p).

Definition node_at (d : FS) (path : list string) : option Node :=
  match path with [] => Some Dir | _ => d !! path end.

Definition os_error (class : exn_type) : exn :=
  mk_exn class (match class with
                | FileNotFoundError => "No such file or directory"
                | FileExistsError => "File exists"
                | IsADirectoryError => "Is a directory"
                | NotADirectoryError => "Not a directory"
                | _ => "" end).

(** The directories before the last part. *)
Fixpoint parents_error (d : FS) (here path : list string) : option exn :=
  match path with
  | [] | [_] => None
  | w :: path =>
      match d !! (here ++ [w]) with
      | Some Dir => parents_error d (here ++ [w]) path
      | Some (Data _) => Some (os_error NotADirectoryError)
      | None => Some (os_error FileNotFoundError)
      end
  end.

Definition path_exists (d : FS) (p : string) : bool :=
  bool_decide (parents_error d [] (resolve p) = None) && bool_decide (node_at d (resolve p) <> None).

(** [os.makedirs(p, exist_ok=True)]. *)
Fixpoint make_dirs (d : FS) (here path : list string) : outcome FS :=
  match path with
  | [] => Ok d
  | w :: path =>
      match d !! (here ++ [w]) with
      | Some Dir => make_dirs d (here ++ [w]) path
      | Some (Data _) => Raise (os_error (if bool_decide (path = []) then FileExistsError else NotADirectoryError))
      | None => make_dirs (<[here ++ [w] := Dir]> d) (here ++ [w]) path
      end
  end.
Definition os_makedirs (p : string) : M Store unit :=
  fun st => match make_dirs (disk st) [] (resolve p) with
            | Ok d => (Ok tt, set_disk d st)
            | Raise e => (Raise e, st)
            end.

(** [open(p, "wb+")], the chunks written and the file closed. *)
Definition write_file (p content : string) : M Store unit :=
  fun st => match parents_error (disk st) [] (resolve p) with
            | Some e => (Raise e, st)
            | None => match node_at (disk st) (resolve p) with
                      | Some Dir => (Raise (os_error IsADirectoryError), st)
                      | _ => (Ok tt, set_disk (<[resolve p := Data content]> (disk st)) st)
                      end
            end.

(** [open(p, "rb")], read to its end. *)
Definition read_file (p : string) : M Store string :=
  fun st => match parents_error (disk st) [] (resolve p) with
            | Some e => (Raise e, st)
            | None => match node_at (disk st) (resolve p) with
                      | Some (Data content) => (Ok content, st)
                      | Some Dir => (Raise (os_error IsADirectoryError), st)
                      | None => (Raise (os_error FileNotFoundError), st)
                      end
            end.

(** [os.path.getsize(p)]; a directory has a size too, which nothing depends on. *)
Definition path_size (d : FS) (p : string) : nat :=
  match node_at d (resolve p) with Some (Data content) => String.length content | _ => 4096%nat end.

Definition os_remove (p : string) : M Store unit :=
  fun st => match parents_error (disk st) [] (resolve p) with
            | Some e => (Raise e, st)
            | None => match node_at (disk st) (resolve p) with
                      | Some (Data _) => (Ok tt, set_disk (delete (resolve p) (disk st)) st)
                      | Some Dir => (Raise (os_error IsADirectoryError), st)
                      | None => (Raise (os_error FileNotFoundError), st)
                      end
            end.

(** The names [glob.glob(f"{p}/*")] finds that are files: a name that starts with a dot is
    not matched by the star. *)
Definition child_name (folder path : list string) : option string :=
  match drop (length folder) path with
  | [w] => if bool_decide (path = folder ++ [w]) then Some w else None
  | _ => None
  end.
Definition glob_files (d : FS) (p : string) : list string :=
  omap (fun '(path, node) =>
      match node with
      | Data _ => w ← child_name (resolve p) path; if startswith "." w then None else Some w
      | Dir => None
      end) (map_to_list d).

(** ** Object storage

    [cos_fault] says whether a call fails, with what, and whether it had its effect by then. *)

Inductive CosOp := PutObject | GetObject | HeadObject | DeleteObject | ListObjects.

Section cos.
Context (cos_fault : CosOp -> string -> string -> option (exn * bool)).

Definition required (name value : string) : M Store unit :=
  if bool_decide (value = "") then raise (mk_exn ValueError (name +:+ " is required.")) else ret tt.
Definition bucket_and_key (bucket_name key : string) : M Store unit :=
  required "bucket_name" bucket_name ;;; required "key" key.

Definition cos_call {A} (op : CosOp) (bucket key : string) (effect : Buckets -> outcome A * Buckets) : M Store A :=
  fun st =>
    let '(o, b) := effect (buckets st) in
    match cos_fault op bucket key with
    | Some (e, done) => (Raise e, if done : bool then set_buckets b st else st)
    | None => (o, set_buckets b st)
    end.

Definition upload_fileobj (content bucket_name key : string) : M Store unit :=
  bucket_and_key bucket_name key ;;;
  cos_call PutObject bucket_name key (fun b => (Ok tt, <[(bucket_name, key) := content]> b)).

Definition get_object_bytes (bucket_name key : string) : M Store string :=
  bucket_and_key bucket_name key ;;;
  cos_call GetObject bucket_name key (fun b =>
    (match b !! (bucket_name, key) with Some content => Ok content | None => Raise (mk_exn ClientError "NoSuchKey") end, b)).

(** Deleting an object that is not there succeeds: [delete_object] answers so, and a service
    that reports it missing is taken as done. *)
Definition delete_object (bucket_name key : string) : M Store unit :=
  bucket_and_key bucket_name key ;;;
  try_except (cos_call DeleteObject bucket_name key (fun b => (Ok tt, delete (bucket_name, key) b)))
    (fun e => if bool_decide (exn_class e = ClientError) && bool_decide (exn_str e ∈ ["404"; "NoSuchKey"; "NotFound"])
              then Some (ret tt) else None).

(** An object that is not there is a [404] without a body. *)
Definition head_object (bucket_name key : string) : M Store unit :=
  bucket_and_key bucket_name key ;;;
  cos_call HeadObject bucket_name key (fun b =>
    (if bool_decide (is_Some (b !! (bucket_name, key))) then Ok tt else Raise (mk_exn ClientError "404"), b)).

Definition list_keys (bucket_name prefix : string) : M Store (list string) :=
  cos_call ListObjects bucket_name prefix (fun b =>
    (Ok (omap (fun '((bucket, key), _) =>
           if bool_decide (bucket = bucket_name) && startswith prefix key then Some key else None) (map_to_list b)), b)).
End cos.

(** ** Reading in chunks: [while chunk := handle.read(chunk_size)] *)

Fixpoint chunks_fuel (fuel chunk_size : nat) (s : string) : list string :=
  match fuel with
  | O => []
  | S fuel =>
      match take_str chunk_size s with
      | EmptyString => []
      | chunk => chunk :: chunks_fuel fuel chunk_size (drop_str chunk_size s)
      end
  end.
Definition chunks (chunk_size : nat) (s : string) : list string := chunks_fuel (S (String.length s)) chunk_size s.

(** ** Lemmas *)

(** *** Paths *)

Lemma resolve_app_slash a b : resolve (a +:+ String slash b) = resolve a ++ resolve b.
Proof. unfold resolve. by rewrite split_on_app_slash, filter_app. Qed.

Lemma resolve_join a b : startswith "/" b = false -> resolve (path_join a b) = resolve a ++ resolve b.
Proof.
  intros Hb. destruct (path_join_spec a b Hb) as [[Ha Hj]|(x & Hx & Hj)]; rewrite Hj; [by subst a|].
  rewrite resolve_app_slash. f_equal. destruct Hx as [Hx|Hx]; rewrite Hx; [done|].
  change (x +:+ "/") with (x +:+ String slash ""). by rewrite resolve_app_slash, app_nil_r.
Qed.

Lemma resolve_name n : contains_char slash n = false -> n <> "" -> n <> "." -> resolve n = [n].
Proof. intros Hs Hn Hd. unfold resolve. rewrite split_on_whole by done. by rewrite filter_cons_True. Qed.

(** *** The file system is a tree *)

Definition fs_ok (d : FS) : Prop := forall p w, is_Some (d !! (p ++ [w])) -> node_at d p = Some Dir.

Lemma fs_ok_prefix d p q : fs_ok d -> is_Some (d !! (p ++ q)) -> q <> [] -> node_at d p = Some Dir.
Proof.
  intros Hok. induction q as [|w q IH] using rev_ind; intros H Hq; [done|].
  rewrite app_assoc in H. apply Hok in H. destruct q as [|v q]; [by rewrite app_nil_r in H|].
  apply IH; [|done]. destruct (p ++ v :: q) eqn:E; [by destruct p|]. by eexists.
Qed.

Lemma parents_fine d here path :
  fs_ok d -> (path <> [] -> is_Some (d !! (here ++ path))) -> parents_error d here path = None.
Proof.
  intros Hok. revert here. induction path as [|w path IH]; intros here H; [done|]. destruct path as [|v path]; [done|].
  cbn [parents_error].
  assert (d !! (here ++ [w]) = Some Dir) as ->.
  { pose proof (fs_ok_prefix d (here ++ [w]) (v :: path) Hok) as Hp. rewrite <- app_assoc in Hp.
    specialize (Hp (H ltac:(done)) ltac:(done)). by destruct here. }
  apply IH. intros _. rewrite <- app_assoc. by apply H.
Qed.

Lemma parents_fine_at d p : fs_ok d -> is_Some (node_at d p) -> parents_error d [] p = None.
Proof. intros Hok H. apply parents_fine; [done|]. intros Hp. by destruct p. Qed.

Lemma parents_fine_in d p w : fs_ok d -> node_at d p = Some Dir -> parents_error d [] (p ++ [w]) = None.
Proof.
  intros Hok Hd. assert (forall here, node_at d (here ++ p) = Some Dir -> parents_error d here (p ++ [w]) = None) as H.
  { clear Hd. induction p as [|v p IH]; intros here Hd; [done|]. cbn [app].
    assert (d !! (here ++ [v]) = Some Dir) as Hv.
    { destruct p as [|u p]; [by destruct here|]. pose proof (fs_ok_prefix d (here ++ [v]) (u :: p) Hok) as Hp.
      rewrite <- app_assoc in Hp. assert (is_Some (d !! (here ++ v :: u :: p))) as Hs by (destruct here; by eexists).
      specialize (Hp Hs ltac:(done)). by destruct here. }
    specialize (IH (here ++ [v])). rewrite <- app_assoc in IH. specialize (IH Hd).
    destruct (p ++ [w]) as [|u q]; [done|]. cbn [parents_error]. by rewrite Hv. }
  by apply (H []).
Qed.

Lemma node_at_insert d p q n : p <> [] -> node_at (<[p := n]> d) q = if decide (q = p) then Some n else node_at d q.
Proof.
  intros Hp. destruct q as [|w q]; cbn; [by rewrite decide_False by done|].
  destruct (decide (w :: q = p)) as [<-|Hn]; [by rewrite lookup_insert, decide_True|by rewrite lookup_insert_ne].
Qed.

Lemma fs_ok_insert d p n :
  fs_ok d -> p <> [] -> d !! p <> Some Dir -> node_at d (removelast p) = Some Dir ->
  fs_ok (<[p := n]> d).
Proof.
  intros Hok Hp Hd Hparent q w [m Hm]. rewrite node_at_insert by done. rewrite lookup_insert_Some in Hm.
  destruct Hm as [[Heq <-]|[Hne Hm]].
  - assert (q = removelast p) as -> by (rewrite Heq; by rewrite removelast_last). rewrite decide_False; [done|].
    intros E. pose proof (app_removelast_last "" Hp) as Hl. rewrite E in Hl.
    apply (f_equal length) in Hl. rewrite length_app in Hl. cbn in Hl. lia.
  - pose proof (Hok q w (ex_intro _ m Hm)) as Hq. destruct (decide (q = p)) as [->|]; [|done].
    by destruct p.
Qed.

Lemma parents_fine_parent d here path :
  parents_error d here path = None -> node_at d here = Some Dir -> path <> [] -> node_at d (here ++ removelast path) = Some Dir.
Proof.
  revert here. induction path as [|w path IH]; intros here H Hh Hp; [done|]. destruct path as [|v path].
  - by rewrite app_nil_r.
  - cbn [parents_error] in H. destruct (d !! (here ++ [w])) as [[]|] eqn:E; [|done..].
    specialize (IH (here ++ [w]) H). rewrite <- app_assoc in IH. apply IH; [|done]. by destruct here.
Qed.

Lemma parents_error_os d here path e : parents_error d here path = Some e -> isinstance e OSError = true.
Proof.
  revert here. induction path as [|w path IH]; intros here E; [done|]. destruct path as [|v path]; [done|].
  cbn [parents_error] in E. destruct (d !! (here ++ [w])) as [[]|]; [by eapply IH|by injection E as <-..].
Qed.

(** *** What the operations do to the files *)

Inductive Place := OnDisk (path : list string) | InBucket (bucket key : string).
#[export] Instance Place_eq_dec : EqDecision Place.
Proof. solve_decision. Defined.

Definition data (d : FS) (path : list string) : option string :=
  match node_at d path with Some (Data c) => Some c | _ => None end.
Definition file_at (st : Store) (pl : Place) : option string :=
  match pl with OnDisk path => data (disk st) path | InBucket b k => buckets st !! (b, k) end.

Definition same_files (st st' : Store) : Prop := forall pl, file_at st' pl = file_at st pl.
(** One place now holds [c], the rest is as it was. *)
Definition put_at (pl : Place) (c : option string) (st st' : Store) : Prop :=
  forall q, file_at st' q = if decide (q = pl) then c else file_at st q.

Lemma data_insert d p q c : p <> [] -> data (<[p := Data c]> d) q = if decide (q = p) then Some c else data d q.
Proof. intros Hp. unfold data. rewrite node_at_insert by done. by destruct (decide _). Qed.

Lemma make_dirs_ok d here path d' :
  fs_ok d -> node_at d here = Some Dir -> make_dirs d here path = Ok d' ->
  fs_ok d' /\ node_at d' (here ++ path) = Some Dir /\ (forall p, data d' p = data d p).
Proof.
  revert d here. induction path as [|w path IH]; intros d here Hok Hh H; cbn in H.
  { injection H as <-. by rewrite app_nil_r. }
  destruct (d !! (here ++ [w])) as [[|c]|] eqn:E; [|done|].
  - apply IH in H as (Hok' & Hn & Hd); [|done|by destruct here]. by rewrite <- app_assoc in Hn.
  - apply IH in H as (Hok' & Hn & Hd).
    + rewrite <- app_assoc in Hn. split_and!; [done|done|]. intros p. rewrite Hd. unfold data.
      rewrite node_at_insert by (by destruct here). destruct (decide (p = here ++ [w])) as [->|]; [|done].
      destruct here; cbn in *; by rewrite E.
    + apply fs_ok_insert; [done|by destruct here|by rewrite E|by rewrite removelast_last].
    + rewrite node_at_insert, decide_True; [done..|by destruct here].
Qed.

Lemma os_makedirs_ok p st o st' :
  fs_ok (disk st) -> os_makedirs p st = (o, st') ->
  fs_ok (disk st') /\ same_files st st' /\ (o = Ok tt -> node_at (disk st') (resolve p) = Some Dir).
Proof.
  intros Hok. unfold os_makedirs. destruct (make_dirs (disk st) [] (resolve p)) as [d|e] eqn:E; intros [= <- <-].
  - apply make_dirs_ok in E as (Hok' & Hn & Hd); [|done..]. split_and!; [done| |done]. intros [p0|]; cbn; [apply Hd|done].
  - by split_and!.
Qed.

Lemma write_file_ok p c st o st' :
  fs_ok (disk st) -> write_file p c st = (o, st') ->
  fs_ok (disk st')
  /\ match o with
     | Ok _ => put_at (OnDisk (resolve p)) (Some c) st st'
     | Raise e => st' = st /\ isinstance e OSError = true
     end.
Proof.
  intros Hok. unfold write_file. destruct (parents_error (disk st) [] (resolve p)) as [e|] eqn:E.
  { intros [= <- <-]. split; [done|]. split; [done|]. by eapply parents_error_os. }
  destruct (node_at (disk st) (resolve p)) as [[|c0]|] eqn:Hn; intros [= <- <-].
  { by split. }
  all: assert (resolve p <> []) as Hp by (intros Hp; by rewrite Hp in Hn).
  all: split; [apply fs_ok_insert; [done|done| |by apply (parents_fine_parent _ [])]; cbn; intros Hd; destruct (resolve p); [done|cbn in Hn; congruence]|].
  all: intros [q|b k]; cbn; [|by rewrite decide_False].
  all: rewrite data_insert by done.
  all: by apply decide_ext; split; [intros ->|intros [= ->]].
Qed.

Lemma data_delete d p q : p <> [] -> data (delete p d) q = if decide (q = p) then None else data d q.
Proof.
  intros Hp. unfold data. destruct q as [|w q]; cbn; [by rewrite decide_False by done|].
  destruct (decide (w :: q = p)) as [<-|Hn]; [by rewrite lookup_delete_eq|by rewrite lookup_delete_ne].
Qed.

Lemma os_remove_ok p st o st' :
  fs_ok (disk st) -> os_remove p st = (o, st') ->
  fs_ok (disk st') /\ put_at (OnDisk (resolve p)) None st st'
  /\ match o with
     | Ok _ => is_Some (file_at st (OnDisk (resolve p)))
     | Raise e => file_at st (OnDisk (resolve p)) = None /\ isinstance e OSError = true
     end.
Proof.
  intros Hok. unfold os_remove. cbn.
  assert (forall e, data (disk st) (resolve p) = None ->
    fs_ok (disk st) /\ put_at (OnDisk (resolve p)) None st st
    /\ (isinstance e OSError = true -> data (disk st) (resolve p) = None /\ isinstance e OSError = true)) as Hstay.
  { intros e Hn. split_and!; [done| |done]. intros q. destruct (decide (q = _)) as [->|]; [exact Hn|done]. }
  destruct (parents_error (disk st) [] (resolve p)) as [e|] eqn:E.
  { intros [= <- <-]. destruct (Hstay e) as (Hs1&Hs2&H); [|split; [exact Hs1|split; [exact Hs2|apply H; by eapply parents_error_os]]].
    unfold data. destruct (node_at (disk st) (resolve p)) as [[]|] eqn:Hn; [done| |done].
    by rewrite parents_fine_at in E by first [done | rewrite Hn; by eexists]. }
  destruct (node_at (disk st) (resolve p)) as [[|c0]|] eqn:Hn; intros [= <- <-].
  { destruct (Hstay (os_error OSError)) as (Hs1&Hs2&_); [unfold data; by rewrite Hn|].
    split; [exact Hs1|split; [exact Hs2|]]. unfold data. by rewrite Hn. }
  2:{ destruct (Hstay (os_error OSError)) as (Hs1&Hs2&_); [unfold data; by rewrite Hn|].
    split; [exact Hs1|split; [exact Hs2|]]. unfold data. by rewrite Hn. }
  assert (resolve p <> []) as Hp by (intros Hp; by rewrite Hp in Hn). unfold data. rewrite Hn. split_and!; [| |by eexists].
  - cbn. intros q w [m [Hne Hm]%lookup_delete_Some]. pose proof (Hok q w (ex_intro _ m Hm)) as Hq.
    destruct q as [|v q]; [done|]. cbn in *. rewrite lookup_delete_ne; [done|]. intros Heq. rewrite Heq in Hn. cbn in Hn. congruence.
  - intros [q|b k]; cbn; [|by rewrite decide_False]. rewrite data_delete by done.
    apply decide_ext; split; [intros ->|intros [= ->]]; done.
Qed.

Lemma read_file_ok p st :
  fs_ok (disk st) ->
  match file_at st (OnDisk (resolve p)) with
  | Some c => read_file p st = (Ok c, st)
  | None => exists e, read_file p st = (Raise e, st) /\ isinstance e OSError = true
  end.
Proof.
  intros Hok. unfold read_file, file_at, data. destruct (node_at (disk st) (resolve p)) as [[|c]|] eqn:Hn.
  2: by rewrite parents_fine_at by first [done | rewrite Hn; by eexists].
  all: destruct (parents_error (disk st) [] (resolve p)) as [e|] eqn:E; eexists; split; try done; by eapply parents_error_os.
Qed.

Lemma path_exists_file d p : fs_ok d -> is_Some (data d (resolve p)) -> path_exists d p = true.
Proof.
  intros Hok [c Hc]. unfold path_exists, data in *. destruct (node_at d (resolve p)) eqn:Hn; [|done].
  rewrite parents_fine_at by first [done | rewrite Hn; by eexists]. done.
Qed.

Lemma child_name_spec folder path w : child_name folder path = Some w <-> path = folder ++ [w].
Proof.
  unfold child_name. split.
  - destruct (drop _ path) as [|v [|]]; [done| |done]. case_bool_decide; [|done]. by intros [= <-].
  - intros ->. rewrite drop_app_length. by rewrite bool_decide_true.
Qed.

Lemma glob_files_spec d p w :
  w ∈ glob_files d p <-> is_Some (data d (resolve p ++ [w])) /\ startswith "." w = false.
Proof.
  unfold glob_files, data. rewrite list_elem_of_omap.
  assert (node_at d (resolve p ++ [w]) = d !! (resolve p ++ [w])) as -> by (by destruct (resolve p)).
  split.
  - intros ([path node] & Hin%elem_of_map_to_list & Hx). destruct node as [|c]; [done|].
    destruct (child_name _ path) as [v|] eqn:Hc; [|done]. apply child_name_spec in Hc as ->. change ((if startswith "." v then None else Some v) = Some w) in Hx.
    destruct (startswith "." v) eqn:Hs; [done|]. injection Hx as ->. rewrite Hin. by split; [eexists|].
  - intros [[c Hc] Hs]. exists (resolve p ++ [w], Data c).
    destruct (d !! (resolve p ++ [w])) as [[|c']|] eqn:Hn; simplify_eq.
    split; [by apply elem_of_map_to_list|]. rewrite (proj2 (child_name_spec _ _ w)) by done. change ((if startswith "." w then None else Some w) = Some w). by rewrite Hs.
Qed.

(** *** Object storage, when the calls get through *)

Lemma chunks_fuel_concat fuel n s :
  (0 < n)%nat -> (String.length s < fuel)%nat -> foldr String.append "" (chunks_fuel fuel n s) = s.
Proof.
  intros Hn. revert s. induction fuel as [|fuel IH]; intros s Hl; [lia|]. cbn.
  destruct s as [|c s]; [by destruct n|]. destruct n as [|n]; [lia|]. cbn in *.
  assert (String.length (drop_str n s) <= String.length s)%nat as Hd.
  { clear. revert s. induction n as [|n IH]; intros [|c s]; cbn; try lia. specialize (IH s). lia. }
  rewrite IH by lia. change (String.append (String c (take_str n s)) (drop_str n s)) with (String c (take_str n s +:+ drop_str n s)).
  f_equal. clear. revert s. induction n as [|n IH]; intros [|c s]; try done. change (String c (take_str n s +:+ drop_str n s) = String c s). by rewrite IH.
Qed.

(** The chunks of a file are the file, and none is longer than asked. *)
Lemma chunks_concat n s : (0 < n)%nat -> foldr String.append "" (chunks n s) = s.
Proof. intros Hn. apply chunks_fuel_concat; [done|lia]. Qed.

(** *** What exists stays *)

Definition kept (st st' : Store) : Prop :=
  fs_ok (disk st) -> fs_ok (disk st') /\ forall p, node_at (disk st) p <> None -> node_at (disk st') p <> None.
#[export] Instance kept_preorder : PreOrder kept.
Proof.
  split; [intros st H; by split|]. intros a b d Hab Hbd H. destruct (Hab H) as [Hb Hs]. destruct (Hbd Hb) as [Hd Hs'].
  split; [done|]. intros p Hp. by apply Hs', Hs.
Qed.

Lemma insert_kept d path n p : node_at d p <> None -> node_at (<[path := n]> d) p <> None.
Proof.
  destruct p as [|w p]; [done|]. cbn. destruct (decide (path = w :: p)) as [->|]; [by rewrite lookup_insert, decide_True|].
  by rewrite lookup_insert_ne.
Qed.
Lemma make_dirs_kept d here path d' : make_dirs d here path = Ok d' -> forall p, node_at d p <> None -> node_at d' p <> None.
Proof.
  revert d here. induction path as [|w path IH]; intros d here H p Hp; cbn in H; [by injection H as <-|].
  destruct (d !! (here ++ [w])) as [[|]|]; [by eapply IH|done|]. eapply IH; [done|]. by apply insert_kept.
Qed.
Lemma makedirs_kept p : rel kept (os_makedirs p).
Proof.
  intros st Hok. destruct (os_makedirs p st) as [o st'] eqn:E. pose proof E as E'. apply os_makedirs_ok in E as [Hok' _]; [|done].
  split; [done|]. unfold os_makedirs in E'. destruct (make_dirs _ _ _) eqn:Hd; injection E' as _ <-; [|done].
  by eapply make_dirs_kept.
Qed.
Lemma write_file_kept p c : rel kept (write_file p c).
Proof.
  intros st Hok. destruct (write_file p c st) as [o st'] eqn:E. pose proof E as E'. apply write_file_ok in E as [Hok' _]; [|done].
  split; [done|]. unfold write_file in E'. destruct (parents_error _ _ _); [by injection E' as _ <-|].
  destruct (node_at _ _) as [[]|]; injection E' as _ <-; [done|..]; cbn; by apply insert_kept.
Qed.

Lemma path_exists_node d p : fs_ok d -> path_exists d p = true <-> node_at d (resolve p) <> None.
Proof.
  intros Hok. unfold path_exists. destruct (node_at d (resolve p)) eqn:Hn.
  - rewrite parents_fine_at by first [done | rewrite Hn; by eexists]. done.
  - rewrite (bool_decide_false (None <> None)) by (intros H; by apply H). by rewrite andb_false_r.
Qed.
