(* ===== verification/FileStorage.v ===== *)
(** * The storage of files ([core/services/storage/file_storage*.py])

    The interface [FileStorage] and its two implementations: the file system of the Ray
    clusters and the object storage of the Fleets. *)

From S2P Require Import Prelude PyStr Models Paths Stores.

Local Open Scope string_scope.
Local Open Scope list_scope.

(** An uploaded file: its name and what [chunks()] gives in total. *)
Record File := mk_file { file_name : string; file_content : string }.

(** What is read later from a file that was found, its type and its size. *)
Record Found := mk_found { found_stream : M Store (list string); found_type : option string; found_size : nat }.

(** The abstract class. *)
Class FileStorage (T : Type) := {
  get_public_files : T -> string -> M Store (list string);
  get_private_files : T -> M Store (option (list string));
  get_public_file : T -> string -> M Store (option Found);
  get_private_file : T -> string -> M Store (option Found);
  get_public_file_stream : T -> string -> nat -> M Store (option Found);
  get_private_file_stream : T -> string -> nat -> M Store (option Found);
  upload_public_file : T -> File -> string -> M Store string;
  upload_private_file : T -> File -> M Store string;
  remove_public_file : T -> string -> string -> M Store bool;
  remove_private_file : T -> string -> M Store bool
}.

(** ** Ray: the file system *)

Record FileStorageRay := mk_file_storage_ray {
  public_path : string;
  public_sub_path : string;
  private_path : option string;
  private_sub_path : option string
}.

Section ray.
Context (guess_type : string -> option string).    (* [mimetypes.guess_type(path)[0]] *)
Context (MEDIA_ROOT : string).

(** [PathBuilder.absolute_path]: the path, and the directory it makes sure of. *)
Definition absolute_path (working_dir : WorkingDir) (username function_title : string)
    (provider_name extra_sub_path : option string) : M Store string :=
  sub <- of_outcome (sub_path working_dir username function_title provider_name extra_sub_path) ;;
  let path := absolute_path_of MEDIA_ROOT sub in
  (fun st => (if path_exists (disk st) path then ret tt else os_makedirs path) st) ;;;
  ret path.

Definition ray_storage (username : string) (function : Program) : M Store FileStorageRay :=
  let function_title := title function in
  let provider_name_ := provider_name <$> program_provider function in
  public <- absolute_path USER_STORAGE username function_title provider_name_ None ;;
  public_sub <- of_outcome (sub_path USER_STORAGE username function_title provider_name_ None) ;;
  if truthy provider_name_ then
    private <- absolute_path PROVIDER_STORAGE username function_title provider_name_ None ;;
    private_sub <- of_outcome (sub_path PROVIDER_STORAGE username function_title provider_name_ None) ;;
    ret (mk_file_storage_ray public public_sub (Some private) (Some private_sub))
  else ret (mk_file_storage_ray public public_sub None None).

Definition in_sub_path (folder_path sub_path_ : string) : string :=
  let safe_sub_path := sanitize_sub_path (Some sub_path_) in
  if bool_decide (safe_sub_path = "") then folder_path else path_join folder_path safe_sub_path.

Definition get_files_in_path (folder_path sub_path_ : string) : M Store (list string) :=
  gets (fun st => glob_files (disk st) (in_sub_path folder_path sub_path_)).

Definition path_to_file (folder_path name : string) : string := sanitize_file_path (path_join folder_path (basename name)).

(** [FileWrapper(open(path, "rb"))]: opened when it is found; the handle then holds the file. *)
Definition get_file_in_folder (folder_path name : string) : M Store (option Found) :=
  let path := path_to_file folder_path name in
  exists_ <- gets (fun st => path_exists (disk st) path) ;;
  if exists_ : bool then
    content <- read_file path ;;
    size <- gets (fun st => path_size (disk st) path) ;;
    ret (Some (mk_found (ret [content]) (guess_type path) size))
  else ret None.

(** The generator opens the file when it is first read. *)
Definition get_file_stream_in_folder (folder_path name : string) (chunk_size : nat) : M Store (option Found) :=
  let path := path_to_file folder_path name in
  exists_ <- gets (fun st => path_exists (disk st) path) ;;
  if exists_ : bool then
    size <- gets (fun st => path_size (disk st) path) ;;
    ret (Some (mk_found (content <- read_file path ;; ret (chunks chunk_size content)) (guess_type path) size))
  else ret None.

Definition upload_file_to_folder (folder_path : string) (file : File) (sub_path_ : string) : M Store string :=
  let name := basename (sanitize_file_path (file_name file)) in
  let destination_folder := in_sub_path folder_path sub_path_ in
  os_makedirs destination_folder ;;;
  let path := sanitize_file_path (path_join destination_folder name) in
  write_file path (file_content file) ;;;
  ret path.

Definition remove_file_from_folder (folder_path name sub_path_ : string) : M Store bool :=
  let path := path_to_file (in_sub_path folder_path sub_path_) name in
  try_except (os_remove path ;;; ret true)
    (fun e => if isinstance e OSError then Some (ret false) else None).

(** The private operations of a function without a provider meet [None]. *)
Definition with_private {A} (t : FileStorageRay) (k : string -> M Store A) : M Store A :=
  match private_path t with
  | Some p => k p
  | None => raise (mk_exn TypeError "expected str, bytes or os.PathLike object, not NoneType")
  end.

(** [glob] of ["None/*"], the text of the missing path. *)
Definition ray_private_files (t : FileStorageRay) : M Store (option (list string)) :=
  files <- get_files_in_path (default "None" (private_path t)) "" ;; ret (Some files).

#[export] Instance file_storage_ray : FileStorage FileStorageRay := {
  get_public_files t sub_path_ := get_files_in_path (public_path t) sub_path_;
  get_private_files := ray_private_files;
  get_public_file t name := get_file_in_folder (public_path t) name;
  get_private_file t name := with_private t (fun p => get_file_in_folder p name);
  get_public_file_stream t name chunk_size := get_file_stream_in_folder (public_path t) name chunk_size;
  get_private_file_stream t name chunk_size := with_private t (fun p => get_file_stream_in_folder p name chunk_size);
  upload_public_file t file sub_path_ := upload_file_to_folder (public_path t) file sub_path_;
  upload_private_file t file := with_private t (fun p => upload_file_to_folder p file "");
  remove_public_file t name sub_path_ := remove_file_from_folder (public_path t) name sub_path_;
  remove_private_file t name := with_private t (fun p => remove_file_from_folder p name "")
}.
End ray.

(** ** Fleets: object storage *)

Record FleetFunctionPaths := mk_fleet_function_paths {
  cos_user_files_prefix : string;
  cos_provider_files_prefix : option string
}.

Record FileStorageFleets := mk_file_storage_fleets {
  public_folder_key : string;
  private_folder_key : option string;
  user_bucket : string;
  provider_bucket : option string
}.

Definition CUSTOM_JOB_WRAPPER_NAME : string := "fleet_custom_job_wrapper.py".
Definition PROVIDER_JOB_WRAPPER_NAME : string := "fleet_provider_job_wrapper.py".
Definition INTERNAL_FUNCTION_FILES : list string := [CUSTOM_JOB_WRAPPER_NAME; PROVIDER_JOB_WRAPPER_NAME].

Definition build_function_paths (function : Program) (username : string) : FleetFunctionPaths :=
  match program_provider function with
  | Some p =>
      mk_fleet_function_paths
        ("users/" +:+ username +:+ "/provider_functions/" +:+ provider_name p +:+ "/" +:+ title function +:+ "/data")
        (Some ("providers/" +:+ provider_name p +:+ "/" +:+ title function +:+ "/data"))
  | None => mk_fleet_function_paths ("users/" +:+ username +:+ "/custom_functions/" +:+ title function +:+ "/data") None
  end.

Definition load_user_bucket (program_name : string) (function : Program) : outcome string :=
  match program_code_engine_project function with
  | None => Raise (mk_exn ValueError ("Program '" +:+ program_name +:+ "' has no CodeEngineProject assigned"))
  | Some project =>
      if truthy (cos_bucket_user_data_name project) then Ok (default "" (cos_bucket_user_data_name project))
      else Raise (mk_exn ValueError ("CodeEngineProject '" +:+ project_name project +:+ "' has no cos_bucket_user_data_name configured"))
  end.
Definition load_provider_bucket (program_name : string) (function : Program) : outcome (option string) :=
  match program_code_engine_project function with
  | None => Raise (mk_exn ValueError ("Program '" +:+ program_name +:+ "' has no CodeEngineProject assigned"))
  | Some project =>
      match program_provider function with
      | None => Ok None
      | Some _ =>
          if truthy (cos_bucket_provider_data_name project) then Ok (cos_bucket_provider_data_name project)
          else Raise (mk_exn ValueError ("CodeEngineProject '" +:+ project_name project +:+ "' has no cos_bucket_provider_data_name configured"))
      end
  end.

Definition fleets_storage (program_name username : string) (function : Program) : outcome FileStorageFleets :=
  let paths := build_function_paths function username in
  match load_user_bucket program_name function, load_provider_bucket program_name function with
  | Ok user, Ok provider =>
      Ok (mk_file_storage_fleets (cos_user_files_prefix paths) (cos_provider_files_prefix paths) user provider)
  | Raise e, _ | _, Raise e => Raise e
  end.

Section fleets.
Context (cos_fault : CosOp -> string -> string -> option (exn * bool)).

(** [except ClientError]: the error is logged and [answer] is given. *)
Definition answering {A} (answer : A) (m : M Store A) : M Store A :=
  try_except m (fun e => if isinstance e ClientError then Some (ret answer) else None).

Fixpoint rstrip_slash (s : string) : string :=
  match s with
  | EmptyString => EmptyString
  | String c s =>
      match rstrip_slash s with
      | EmptyString => if bool_decide (c = slash) then EmptyString else String c EmptyString
      | s => String c s
      end
  end.

Definition fleets_folder (folder sub_path_ : string) : string :=
  let safe_sub_path := sanitize_sub_path (Some sub_path_) in
  if bool_decide (safe_sub_path = "") then folder else folder +:+ "/" +:+ safe_sub_path.

Definition fleets_public_files (t : FileStorageFleets) (sub_path_ : string) : M Store (list string) :=
  let prefix := rstrip_slash (fleets_folder (public_folder_key t) sub_path_) +:+ "/" in
  answering [] (keys <- list_keys cos_fault (user_bucket t) prefix ;;
    let relative := map (drop_str (String.length prefix)) keys in
    ret (filter (fun r => r <> "" /\ contains_char slash r = false /\ r ∉ INTERNAL_FUNCTION_FILES) relative)).

Definition fleets_private_files (t : FileStorageFleets) : M Store (option (list string)) :=
  match private_folder_key t with
  | None => ret None
  | Some folder =>
      answering None (keys <- list_keys cos_fault (default "" (provider_bucket t)) folder ;; ret (Some (map basename keys)))
  end.

Definition octet_stream : option string := Some "application/octet-stream".

(** [FileWrapper] is given the bytes, which have no [read]. *)
Definition wrapped_bytes : M Store (list string) := raise (mk_exn AttributeError "'bytes' object has no attribute 'read'").

Definition fleets_get_file (bucket folder name : string) : M Store (option Found) :=
  answering None (content <- get_object_bytes cos_fault bucket (folder +:+ "/" +:+ name) ;;
    ret (Some (mk_found wrapped_bytes octet_stream (String.length content)))).
Definition fleets_get_file_stream (bucket folder name : string) (chunk_size : nat) : M Store (option Found) :=
  answering None (content <- get_object_bytes cos_fault bucket (folder +:+ "/" +:+ name) ;;
    ret (Some (mk_found (ret (chunks chunk_size content)) octet_stream (String.length content)))).

(** The operations on the provider's folder, which a custom function does not have. *)
Definition in_private {A} (t : FileStorageFleets) (missing : M Store A) (k : string -> string -> M Store A) : M Store A :=
  match private_folder_key t with
  | None => missing
  | Some folder => k (default "" (provider_bucket t)) folder
  end.

Definition relative_path (name sub_path_ : string) : string :=
  let name := basename (sanitize_file_path name) in
  let safe_sub_path := sanitize_sub_path (Some sub_path_) in
  if bool_decide (safe_sub_path = "") then name else safe_sub_path +:+ "/" +:+ name.

Definition fleets_upload_public (t : FileStorageFleets) (file : File) (sub_path_ : string) : M Store string :=
  let path := relative_path (file_name file) sub_path_ in
  upload_fileobj cos_fault (file_content file) (user_bucket t) (public_folder_key t +:+ "/" +:+ path) ;;;
  ret path.
Definition fleets_upload_private (t : FileStorageFleets) (file : File) : M Store string :=
  in_private t (raise (mk_exn ValueError "Private folder key is not configured")) (fun bucket folder =>
    upload_fileobj cos_fault (file_content file) bucket (folder +:+ "/" +:+ file_name file) ;;;
    ret (file_name file)).

Definition fleets_remove_public (t : FileStorageFleets) (name sub_path_ : string) : M Store bool :=
  answering false (delete_object cos_fault (user_bucket t) (public_folder_key t +:+ "/" +:+ relative_path name sub_path_) ;;;
    ret true).
Definition fleets_remove_private (t : FileStorageFleets) (name : string) : M Store bool :=
  in_private t (ret false) (fun bucket folder =>
    answering false (delete_object cos_fault bucket (folder +:+ "/" +:+ name) ;;; ret true)).

#[export] Instance file_storage_fleets : FileStorage FileStorageFleets := {
  get_public_files := fleets_public_files;
  get_private_files := fleets_private_files;
  get_public_file t name := fleets_get_file (user_bucket t) (public_folder_key t) name;
  get_private_file t name := in_private t (ret None) (fun bucket folder => fleets_get_file bucket folder name);
  get_public_file_stream t name chunk_size := fleets_get_file_stream (user_bucket t) (public_folder_key t) name chunk_size;
  get_private_file_stream t name chunk_size :=
    in_private t (ret None) (fun bucket folder => fleets_get_file_stream bucket folder name chunk_size);
  upload_public_file := fleets_upload_public;
  upload_private_file := fleets_upload_private;
  remove_public_file := fleets_remove_public;
  remove_private_file := fleets_remove_private
}.
End fleets.
