(* ===== verification/FileStorageProps.v ===== *)
(** * What the storages of files promise

    The contract of [FileStorage] as laws over where a file is, and both implementations
    discharging it: the file system for any tree of directories, the object storage as long
    as its calls get through. *)

From S2P Require Import Prelude PyStr Models Paths Stores FileStorage.

Local Open Scope string_scope.
Local Open Scope list_scope.

(** ** The contract *)

(** A name as the views hand it on. *)
Definition plain (n : string) : Prop := clean n = true /\ contains_char slash n = false /\ n <> "" /\ n <> ".".
Definition named (n : string) : Prop := clean n = true /\ contains_char slash n = false.
(** The name a file is stored under. *)
Definition stored_name (file : File) : string := basename (sanitize_file_path (file_name file)).
Definition store_ok (st : Store) : Prop := fs_ok (disk st).

(** [place_of t sub n] is where the public file [n] of the directory [sub] is. *)
Class FileStorageLaws (T : Type) `{FileStorage T} := {
  usable : T -> Prop;
  place_of : T -> string -> string -> Place;
  hidden : T -> string -> bool;
  upload_law t file sub st o st' :
    usable t -> store_ok st -> upload_public_file t file sub st = (o, st') ->
    store_ok st'
    /\ match o with
       | Ok _ => put_at (place_of t sub (stored_name file)) (Some (file_content file)) st st'
       | Raise _ => same_files st st'
       end;
  stream_law t n k st :
    usable t -> store_ok st -> named n ->
    match file_at st (place_of t "" n) with
    | Some c => exists found, get_public_file_stream t n k st = (Ok (Some found), st)
                  /\ found_stream found st = (Ok (chunks k c), st) /\ found_size found = String.length c
    | None => get_public_file_stream t n k st = (Ok None, st)
              \/ exists found e, get_public_file_stream t n k st = (Ok (Some found), st)
                   /\ found_stream found st = (Raise e, st)
    end;
  remove_law t n sub st :
    usable t -> store_ok st -> named n ->
    exists b st', remove_public_file t n sub st = (Ok b, st')
      /\ store_ok st' /\ put_at (place_of t sub n) None st st'
      /\ (is_Some (file_at st (place_of t sub n)) -> b = true);
  list_law t sub st :
    usable t -> store_ok st ->
    exists l, get_public_files t sub st = (Ok l, st)
      /\ forall n, plain n -> n ∈ l <-> is_Some (file_at st (place_of t sub n)) /\ hidden t n = false
}.

(** ** Ray *)

Lemma stored_name_clean file : clean (stored_name file) = true /\ contains_char slash (stored_name file) = false.
Proof.
  unfold stored_name. split; [|apply basename_no_slash]. rewrite basename_sanitize. apply sanitize_clean.
Qed.
Lemma plain_basename n : contains_char slash n = false -> clean n = true -> basename (sanitize_file_path n) = n.
Proof. intros Hs Hc. rewrite basename_sanitize, basename_id by done. by apply sanitize_id. Qed.

Lemma sub_path_clean sub : let s := sanitize_sub_path (Some sub) in clean s = true /\ startswith "/" s = false.
Proof.
  destruct (sanitize_sub_path_parts (Some sub)) as (ws & Heq & Hws). cbn zeta. rewrite Heq.
  split; [by apply clean_relative|by apply relative_start].
Qed.
Lemma in_sub_path_clean folder sub : clean folder = true -> clean (in_sub_path folder sub) = true.
Proof.
  intros Hf. unfold in_sub_path. destruct (sub_path_clean sub) as [Hc Hs]. cbn zeta in *.
  case_bool_decide; [done|]. by apply clean_join.
Qed.

(** The path the operations build for a file of a folder is inside the folder. *)
Lemma file_path_eq folder n :
  clean folder = true -> clean n = true -> contains_char slash n = false ->
  resolve (sanitize_file_path (path_join folder n)) = resolve folder ++ resolve n.
Proof.
  intros Hf Hn Hs. pose proof (no_slash_start n Hs) as Hst. rewrite sanitize_id by (by apply clean_join).
  by apply resolve_join.
Qed.

Section ray.
Context (guess_type : string -> option string).

Definition ray_place (t : FileStorageRay) (sub n : string) : Place :=
  OnDisk (resolve (in_sub_path (public_path t) sub) ++ resolve n).
Definition ray_usable (t : FileStorageRay) : Prop := clean (public_path t) = true.

Lemma ray_upload t file sub st o st' :
  ray_usable t -> store_ok st -> upload_file_to_folder (public_path t) file sub st = (o, st') ->
  store_ok st'
  /\ match o with
     | Ok _ => put_at (ray_place t sub (stored_name file)) (Some (file_content file)) st st'
     | Raise _ => same_files st st'
     end.
Proof.
  intros Ht Hok. unfold upload_file_to_folder, bind. fold (stored_name file).
  destruct (os_makedirs _ st) as [o1 st1] eqn:H1. apply os_makedirs_ok in H1 as (Hok1 & Hsame & _); [|done].
  destruct o1 as [[]|e]; [|by intros [= <- <-]].
  destruct (write_file _ _ st1) as [o2 st2] eqn:H2. apply write_file_ok in H2 as [Hok2 H2]; [|done].
  destruct (stored_name_clean file) as [Hc Hs].
  rewrite file_path_eq in H2 by (try done; by apply in_sub_path_clean).
  destruct o2 as [[]|e]; intros [= <- <-]; split; try done.
  - intros q. rewrite (H2 q). by rewrite Hsame.
  - destruct H2 as [-> _]. exact Hsame.
Qed.

Lemma ray_stream t n k st :
  ray_usable t -> store_ok st -> named n ->
  match file_at st (ray_place t "" n) with
  | Some c => exists found, get_file_stream_in_folder guess_type (public_path t) n k st = (Ok (Some found), st)
                /\ found_stream found st = (Ok (chunks k c), st) /\ found_size found = String.length c
  | None => get_file_stream_in_folder guess_type (public_path t) n k st = (Ok None, st)
            \/ exists found e, get_file_stream_in_folder guess_type (public_path t) n k st = (Ok (Some found), st)
                 /\ found_stream found st = (Raise e, st)
  end.
Proof.
  intros Ht Hok [Hc Hs]. unfold get_file_stream_in_folder, bind, gets.
  unfold path_to_file. rewrite basename_id by done. set (path := sanitize_file_path _).
  assert (OnDisk (resolve path) = ray_place t "" n) as Hp by (unfold path, ray_place; by rewrite file_path_eq).
  pose proof (read_file_ok path st Hok) as Hread. pose proof (path_exists_file (disk st) path Hok) as Hex.
  rewrite <- Hp. cbn [file_at] in *. destruct (data (disk st) (resolve path)) as [c|] eqn:Hd.
  - rewrite Hex by (by eexists). eexists. split; [reflexivity|]. cbn [found_stream found_size].
    split; [by rewrite Hread|]. unfold path_size. unfold data in Hd.
    by destruct (node_at (disk st) (resolve path)) as [[]|]; simplify_eq.
  - destruct (path_exists (disk st) path); [right|by left]. destruct Hread as (e & Hr & _).
    eexists _, e. split; [reflexivity|]. cbn [found_stream]. by rewrite Hr.
Qed.

Lemma ray_remove t n sub st :
  ray_usable t -> store_ok st -> named n ->
  exists b st', remove_file_from_folder (public_path t) n sub st = (Ok b, st')
    /\ store_ok st' /\ put_at (ray_place t sub n) None st st'
    /\ (is_Some (file_at st (ray_place t sub n)) -> b = true).
Proof.
  intros Ht Hok [Hc Hs]. unfold remove_file_from_folder, path_to_file. rewrite basename_id by done.
  set (path := sanitize_file_path _).
  assert (OnDisk (resolve path) = ray_place t sub n) as Hp.
  { unfold path, ray_place. by rewrite file_path_eq; [|apply in_sub_path_clean|..]. }
  destruct (os_remove path st) as [o st'] eqn:H. pose proof H as Hr.
  apply os_remove_ok in H as (Hok' & Hput & Ho); [|done]. rewrite Hp in *.
  unfold try_except, bind. rewrite Hr. destruct o as [[]|e].
  - exists true, st'. by split_and!.
  - destruct Ho as [Hn ->]. exists false, st'. split_and!; try done. rewrite Hn. by intros [].
Qed.

Lemma ray_list t sub st :
  ray_usable t -> store_ok st ->
  exists l, get_files_in_path (public_path t) sub st = (Ok l, st)
    /\ forall n, plain n -> n ∈ l <-> is_Some (file_at st (ray_place t sub n)) /\ startswith "." n = false.
Proof.
  intros Ht Hok. eexists. split; [reflexivity|]. intros n (_ & Hs & Hn & Hd). rewrite glob_files_spec.
  unfold ray_place. by rewrite (resolve_name n).
Qed.

#[export] Instance ray_laws : @FileStorageLaws FileStorageRay (file_storage_ray guess_type) := {
  usable := ray_usable;
  place_of := ray_place;
  hidden _ := startswith ".";
  upload_law := ray_upload;
  stream_law := ray_stream;
  remove_law := ray_remove;
  list_law := ray_list
}.
End ray.

(** ** Fleets *)

Lemma rstrip_slash_id s : endswith_char slash s = false -> rstrip_slash s = s.
Proof.
  induction s as [|c s IH]; [done|]. destruct s as [|d s].
  - cbn. intros H. by rewrite H.
  - intros H. change (endswith_char slash (String c (String d s))) with (endswith_char slash (String d s)) in H.
    change (rstrip_slash (String c (String d s))) with
      (match rstrip_slash (String d s) with
       | EmptyString => if bool_decide (c = slash) then EmptyString else String c EmptyString
       | s => String c s
       end). by rewrite (IH H).
Qed.
Lemma endswith_contains c s : contains_char c s = false -> endswith_char c s = false.
Proof.
  induction s as [|d s IH]; [done|]. cbn. intros [Hd Hs]%orb_false_iff. destruct s; [done|]. by apply IH.
Qed.
Lemma relative_end ws : relative_parts ws -> endswith_char slash (join "/" ws) = false.
Proof.
  intros H. induction H as [|w ws (Hne & _ & _ & Hs) Hws IH]; [done|]. destruct ws as [|v ws]; [by apply endswith_contains|].
  change (join "/" (w :: v :: ws)) with (w +:+ String slash (join "/" (v :: ws))). rewrite endswith_app by done.
  cbn [endswith_char]. destruct (join "/" (v :: ws)) eqn:E; [|done].
  exfalso. apply Forall_inv in Hws as (Hv & _). destruct v; [done|]. by destruct ws.
Qed.

Lemma startswith_inv p s : startswith p s = true -> exists r, s = p +:+ r.
Proof.
  revert s. induction p as [|a p IH]; intros s H; [by exists s|]. destruct s as [|b s]; [done|]. cbn in H.
  apply andb_prop in H as [->%bool_decide_eq_true H]. destruct (IH s H) as [r ->]. by exists r.
Qed.

Section fleets.
Context (cos_fault : CosOp -> string -> string -> option (exn * bool)).
Context (reliable : forall op bucket key, cos_fault op bucket key = None).

(** The key of a file of a directory. *)
Definition fleets_key (t : FileStorageFleets) (sub n : string) : string :=
  fleets_folder (public_folder_key t) sub +:+ "/" +:+ n.
Definition fleets_place (t : FileStorageFleets) (sub n : string) : Place :=
  InBucket (user_bucket t) (fleets_key t sub n).
Definition fleets_usable (t : FileStorageFleets) : Prop :=
  user_bucket t <> "" /\ endswith_char slash (public_folder_key t) = false.

Lemma key_eq t sub n : public_folder_key t +:+ "/" +:+ relative_path n sub = fleets_key t sub (basename (sanitize_file_path n)).
Proof.
  unfold fleets_key, relative_path, fleets_folder. case_bool_decide; [done|]. by rewrite !str_app_assoc.
Qed.
Lemma key_nonempty t sub n : fleets_key t sub n <> "".
Proof. unfold fleets_key. by destruct (fleets_folder _ _). Qed.

Lemma bucket_and_key_ok bucket key st : bucket <> "" -> key <> "" -> bucket_and_key bucket key st = (Ok tt, st).
Proof. intros Hb Hk. unfold bucket_and_key, bind, required. by rewrite !bool_decide_false. Qed.

Lemma cos_call_ok {A} (op : CosOp) (bucket key : string) (effect : Buckets -> outcome A * Buckets) (st : Store) :
  cos_call cos_fault op bucket key effect st = (let '(o, b) := effect (buckets st) in (o, set_buckets b st)).
Proof. unfold cos_call. rewrite reliable. by destruct (effect _). Qed.

Lemma put_bucket (b k c : string) (st : Store) : put_at (InBucket b k) (Some c) st (set_buckets (<[(b, k) := c]> (buckets st)) st).
Proof.
  intros [p|b' k']; cbn; [by rewrite decide_False|].
  destruct (decide (InBucket b' k' = InBucket b k)) as [[= -> ->]|Hn]; [by rewrite lookup_insert, decide_True|].
  rewrite lookup_insert_ne; [done|]. intros [= -> ->]. done.
Qed.
Lemma delete_bucket (b k : string) (st : Store) : put_at (InBucket b k) None st (set_buckets (delete (b, k) (buckets st)) st).
Proof.
  intros [p|b' k']; cbn; [by rewrite decide_False|].
  destruct (decide (InBucket b' k' = InBucket b k)) as [[= -> ->]|Hn]; [by rewrite lookup_delete_eq|].
  rewrite lookup_delete_ne; [done|]. intros [= -> ->]. done.
Qed.

Lemma fleets_upload t file sub st o st' :
  fleets_usable t -> store_ok st -> fleets_upload_public cos_fault t file sub st = (o, st') ->
  store_ok st'
  /\ match o with
     | Ok _ => put_at (fleets_place t sub (stored_name file)) (Some (file_content file)) st st'
     | Raise _ => same_files st st'
     end.
Proof.
  intros [Hb _] Hok. unfold fleets_upload_public. rewrite key_eq. fold (stored_name file).
  unfold upload_fileobj, bind. rewrite bucket_and_key_ok by (done || apply key_nonempty). rewrite cos_call_ok.
  intros [= <- <-]. split; [done|]. apply put_bucket.
Qed.

Lemma fleets_stream t n k st :
  fleets_usable t -> store_ok st -> named n ->
  match file_at st (fleets_place t "" n) with
  | Some c => exists found, fleets_get_file_stream cos_fault (user_bucket t) (public_folder_key t) n k st = (Ok (Some found), st)
                /\ found_stream found st = (Ok (chunks k c), st) /\ found_size found = String.length c
  | None => fleets_get_file_stream cos_fault (user_bucket t) (public_folder_key t) n k st = (Ok None, st)
            \/ exists found e, fleets_get_file_stream cos_fault (user_bucket t) (public_folder_key t) n k st = (Ok (Some found), st)
                 /\ found_stream found st = (Raise e, st)
  end.
Proof.
  intros [Hb _] _ _. unfold fleets_get_file_stream, answering, try_except, get_object_bytes, bind.
  change (public_folder_key t +:+ "/" +:+ n) with (fleets_key t "" n). rewrite bucket_and_key_ok by (done || apply key_nonempty).
  rewrite cos_call_ok. cbn [file_at fleets_place]. destruct st as [d b]. cbn. destruct (b !! _) as [c|]; cbn.
  - by eexists.
  - by left.
Qed.

Lemma fleets_remove t n sub st :
  fleets_usable t -> store_ok st -> named n ->
  exists b st', fleets_remove_public cos_fault t n sub st = (Ok b, st')
    /\ store_ok st' /\ put_at (fleets_place t sub n) None st st'
    /\ (is_Some (file_at st (fleets_place t sub n)) -> b = true).
Proof.
  intros [Hb _] Hok [Hc Hs]. unfold fleets_remove_public, answering. rewrite key_eq, plain_basename by done.
  exists true, (set_buckets (delete (user_bucket t, fleets_key t sub n) (buckets st)) st).
  split_and!; [|done|apply delete_bucket|done]. unfold try_except at 1, bind at 1, delete_object, bind at 1.
  rewrite bucket_and_key_ok by (done || apply key_nonempty). unfold try_except. by rewrite cos_call_ok.
Qed.

Lemma fleets_prefix t sub : fleets_usable t -> rstrip_slash (fleets_folder (public_folder_key t) sub) = fleets_folder (public_folder_key t) sub.
Proof.
  intros [_ He]. apply rstrip_slash_id. unfold fleets_folder. case_bool_decide as Hs; [done|].
  destruct (sanitize_sub_path_parts (Some sub)) as (ws & Heq & Hws). rewrite Heq in *.
  rewrite endswith_app by done. change ("/" +:+ join "/" ws) with (String slash (join "/" ws)). cbn [endswith_char].
  destruct (join "/" ws) eqn:E; [done|]. rewrite <- E. by apply relative_end.
Qed.

Lemma fleets_list t sub st :
  fleets_usable t -> store_ok st ->
  exists l, fleets_public_files cos_fault t sub st = (Ok l, st)
    /\ forall n, plain n -> n ∈ l <-> is_Some (file_at st (fleets_place t sub n)) /\ bool_decide (n ∈ INTERNAL_FUNCTION_FILES) = false.
Proof.
  intros Ht Hok. unfold fleets_public_files. rewrite fleets_prefix by done. set (prefix := _ +:+ "/").
  unfold answering, try_except, bind, list_keys. rewrite cos_call_ok. cbn. destruct st as [d b]. cbn.
  eexists. split; [reflexivity|]. intros n (_ & Hs & Hn & _). rewrite bool_decide_eq_false.
  assert (fleets_key t sub n = prefix +:+ n) as -> by (unfold prefix, fleets_key; by rewrite str_app_assoc).
  rewrite list_elem_of_filter, list_elem_of_fmap. split.
  - intros [(_ & _ & Hi) (key & -> & ([[bucket key'] c] & Hin%elem_of_map_to_list & Hx)%list_elem_of_omap)]. cbn in Hx.
    destruct (bool_decide_reflect (bucket = user_bucket t)) as [->|]; [|done]. cbn in Hx.
    destruct (startswith prefix key') eqn:Hp; [|done]. injection Hx as ->.
    apply startswith_inv in Hp as [r ->]. rewrite drop_str_app in Hi |- *. split; [by eexists|done].
  - intros [[c Hc] Hi]. split; [done|]. exists (prefix +:+ n). rewrite drop_str_app. split; [done|].
    apply list_elem_of_omap. exists (user_bucket t, prefix +:+ n, c). split; [by apply elem_of_map_to_list|].
    by rewrite bool_decide_true, startswith_app.
Qed.

#[export] Instance fleets_laws : @FileStorageLaws FileStorageFleets (file_storage_fleets cos_fault) := {
  usable := fleets_usable;
  place_of := fleets_place;
  hidden _ n := bool_decide (n ∈ INTERNAL_FUNCTION_FILES);
  upload_law := fleets_upload;
  stream_law := fleets_stream;
  remove_law := fleets_remove;
  list_law := fleets_list
}.
End fleets.
