(* ===== verification/FilesUseCases.v ===== *)
(** * Files: the use cases ([api/use_cases/files/])

    Listing, downloading, uploading and deleting the files of a function, a user's own and
    the provider's, over the storage its runner has ([core/services/storage/__init__.py]), with the
    sanitizing the views ([api/v1/views/files/]) do first. *)

From S2P Require Import Prelude PyStr Models Access Listings Paths Stores FileStorage.

Local Open Scope string_scope.
Local Open Scope list_scope.

(** ** [get_file_storage] *)

Inductive AnyStorage := RayStorage (t : FileStorageRay) | FleetsStorage (t : FileStorageFleets).

Section use_cases.
Context (guess_type : string -> option string) (MEDIA_ROOT : string).
Context (cos_fault : CosOp -> string -> string -> option (exn * bool)).
Context (id_str : nat -> string).         (* [str(function.id)] *)

#[export] Instance any_storage : FileStorage AnyStorage :=
  let ray := file_storage_ray guess_type in
  let fleets := file_storage_fleets cos_fault in
  {| get_public_files t := match t with RayStorage t => @get_public_files _ ray t | FleetsStorage t => @get_public_files _ fleets t end;
     get_private_files t := match t with RayStorage t => @get_private_files _ ray t | FleetsStorage t => @get_private_files _ fleets t end;
     get_public_file t := match t with RayStorage t => @get_public_file _ ray t | FleetsStorage t => @get_public_file _ fleets t end;
     get_private_file t := match t with RayStorage t => @get_private_file _ ray t | FleetsStorage t => @get_private_file _ fleets t end;
     get_public_file_stream t :=
       match t with RayStorage t => @get_public_file_stream _ ray t | FleetsStorage t => @get_public_file_stream _ fleets t end;
     get_private_file_stream t :=
       match t with RayStorage t => @get_private_file_stream _ ray t | FleetsStorage t => @get_private_file_stream _ fleets t end;
     upload_public_file t :=
       match t with RayStorage t => @upload_public_file _ ray t | FleetsStorage t => @upload_public_file _ fleets t end;
     upload_private_file t :=
       match t with RayStorage t => @upload_private_file _ ray t | FleetsStorage t => @upload_private_file _ fleets t end;
     remove_public_file t :=
       match t with RayStorage t => @remove_public_file _ ray t | FleetsStorage t => @remove_public_file _ fleets t end;
     remove_private_file t :=
       match t with RayStorage t => @remove_private_file _ ray t | FleetsStorage t => @remove_private_file _ fleets t end |}.

Definition get_file_storage (username_ : string) (function : Program) : M Store AnyStorage :=
  match program_runner function with
  | RAY => t <- ray_storage MEDIA_ROOT username_ function ;; ret (RayStorage t)
  | FLEETS => t <- of_outcome (fleets_storage (id_str (program_id function)) username_ function) ;; ret (FleetsStorage t)
  end.

Definition DEFAULT_CHUNK_SIZE : nat := 65536%nat.

(** ** The use cases *)

Definition file_not_found : exn := mk_exn FileNotFoundException "Requested file was not found.".

Section catalog.
Context (c : Catalog) (user : User) (accessible : FunctionAccessResult).

(** The function of the user's files. *)
Definition user_function (provider_name_ : option string) (function_title permission : string) : outcome Program :=
  match get_function_by_permission c user function_title provider_name_ (Some accessible) permission RUN_PROGRAM_PERMISSION with
  | Some f => Ok f
  | None => Raise (function_not_found function_title None)
  end.

Definition files_list (provider_name_ : option string) (function_title sub : string) : M Store (list string) :=
  f <- of_outcome (user_function provider_name_ function_title PLATFORM_PERMISSION_USER_FILES_READ) ;;
  t <- get_file_storage (username user) f ;;
  get_public_files t sub.

Definition files_download (provider_name_ : option string) (function_title requested_file_name : string) : M Store Found :=
  f <- of_outcome (user_function provider_name_ function_title PLATFORM_PERMISSION_USER_FILES_READ) ;;
  t <- get_file_storage (username user) f ;;
  found <- get_public_file_stream t requested_file_name DEFAULT_CHUNK_SIZE ;;
  match found with Some found => ret found | None => raise file_not_found end.

Definition files_upload (provider_name_ : option string) (function_title : string) (uploaded_file : File) (sub : string)
    : M Store string :=
  f <- of_outcome (user_function provider_name_ function_title PLATFORM_PERMISSION_USER_FILES_WRITE) ;;
  t <- get_file_storage (username user) f ;;
  upload_public_file t uploaded_file sub.

Definition files_delete (provider_name_ : option string) (function_title name sub : string) : M Store unit :=
  f <- of_outcome (user_function provider_name_ function_title PLATFORM_PERMISSION_USER_FILES_WRITE) ;;
  t <- get_file_storage (username user) f ;;
  removed <- remove_public_file t name sub ;;
  if removed : bool then ret tt else raise file_not_found.

(** The function of a provider's files, for who may [permission] on it. *)
Definition provider_function (may : User -> option Provider -> string -> option FunctionAccessResult -> outcome bool)
    (provider_name_ function_title : string) : outcome Program :=
  match get_by_name c (Some provider_name_) with
  | None => Raise (provider_not_found (Some provider_name_))
  | Some p =>
      match may user (Some p) function_title (Some accessible) with
      | Raise e => Raise e
      | Ok false => Raise (provider_not_found (Some provider_name_))
      | Ok true =>
          match get_function (functions c) function_title (Some provider_name_) with
          | Some f => Ok f
          | None => Raise (function_not_found function_title (Some provider_name_))
          end
      end
  end.

Definition files_provider_list (provider_name_ function_title : string) : M Store (option (list string)) :=
  f <- of_outcome (provider_function (can_read_files c) provider_name_ function_title) ;;
  t <- get_file_storage (username user) f ;;
  get_private_files t.

Definition files_provider_download (provider_name_ function_title requested_file_name : string) : M Store Found :=
  f <- of_outcome (provider_function (can_read_files c) provider_name_ function_title) ;;
  t <- get_file_storage (username user) f ;;
  found <- get_private_file_stream t requested_file_name DEFAULT_CHUNK_SIZE ;;
  match found with Some found => ret found | None => raise file_not_found end.

Definition files_provider_upload (provider_name_ function_title : string) (uploaded_file : File) : M Store string :=
  f <- of_outcome (provider_function (can_write_files c) provider_name_ function_title) ;;
  t <- get_file_storage (username user) f ;;
  upload_private_file t uploaded_file.

Definition files_provider_delete (provider_name_ function_title name : string) : M Store unit :=
  f <- of_outcome (provider_function (can_write_files c) provider_name_ function_title) ;;
  t <- get_file_storage (username user) f ;;
  removed <- remove_private_file t name ;;
  if removed : bool then ret tt else raise file_not_found.

(** ** The views

    The values are those the serializer's fields hand on; [valid_mime_types] is the list of
    the dynamic configuration, and the type of a content is [magic]'s. *)

Context (magic_from_buffer : string -> string) (valid_mime_types : list string).

Definition validate_uploaded_file (file : option File) : outcome File :=
  match file with
  | None => Raise (mk_exn DRFValidationError "A file should be uploaded.")
  | Some file =>
      if bool_decide (file_name file = "") then Raise (mk_exn DRFValidationError "A file should be uploaded.")
      else if bool_decide (magic_from_buffer (take_str 2048 (file_content file)) ∈ valid_mime_types) then Ok file
      else Raise (mk_exn DRFValidationError "Uploaded file is not a valid type.")
  end.

Definition name_of (value : string) : string := default "" (sanitize_name (Some value)).
Definition file_name_of (value : string) : string := default "" (sanitize_file_name (Some value)).

Definition files_list_view (provider : option string) (function sub : string) : M Store (list string) :=
  files_list (sanitize_name provider) (name_of function) (sanitize_sub_path (Some sub)).
Definition files_download_view (provider : option string) (function file : string) : M Store Found :=
  files_download (sanitize_name provider) (name_of function) (file_name_of file).
Definition files_upload_view (provider : option string) (function : string) (file : option File) (sub : string) : M Store string :=
  uploaded_file <- of_outcome (validate_uploaded_file file) ;;
  files_upload (sanitize_name provider) (name_of function) uploaded_file (sanitize_sub_path (Some sub)).
Definition files_delete_view (provider : option string) (function file sub : string) : M Store unit :=
  files_delete (sanitize_name provider) (name_of function) (file_name_of file) (sanitize_sub_path (Some sub)).
Definition files_provider_list_view (provider function : string) : M Store (option (list string)) :=
  files_provider_list (name_of provider) (name_of function).
Definition files_provider_download_view (provider function file : string) : M Store Found :=
  files_provider_download (name_of provider) (name_of function) (file_name_of file).
Definition files_provider_upload_view (provider function : string) (file : option File) : M Store string :=
  uploaded_file <- of_outcome (validate_uploaded_file file) ;;
  files_provider_upload (name_of provider) (name_of function) uploaded_file.
Definition files_provider_delete_view (provider function file : string) : M Store unit :=
  files_provider_delete (name_of provider) (name_of function) (file_name_of file).

(** A request for files: the user's own of a function, or the provider's. *)
Inductive FilesRequest :=
  | ListFiles (provider : option string) (function sub : string)
  | DownloadFile (provider : option string) (function file : string)
  | UploadFile (provider : option string) (function : string) (file : option File) (sub : string)
  | DeleteFile (provider : option string) (function file sub : string)
  | ListProviderFiles (provider function : string)
  | DownloadProviderFile (provider function file : string)
  | UploadProviderFile (provider function : string) (file : option File)
  | DeleteProviderFile (provider function file : string).

Definition serve (r : FilesRequest) : M Store unit :=
  match r with
  | ListFiles provider function sub => files_list_view provider function sub ;;; ret tt
  | DownloadFile provider function file => files_download_view provider function file ;;; ret tt
  | UploadFile provider function file sub => files_upload_view provider function file sub ;;; ret tt
  | DeleteFile provider function file sub => files_delete_view provider function file sub
  | ListProviderFiles provider function => files_provider_list_view provider function ;;; ret tt
  | DownloadProviderFile provider function file => files_provider_download_view provider function file ;;; ret tt
  | UploadProviderFile provider function file => files_provider_upload_view provider function file ;;; ret tt
  | DeleteProviderFile provider function file => files_provider_delete_view provider function file
  end.
End catalog.
End use_cases.
