(* ===== verification/FilesProps.v ===== *)
(** * Correctness of the files of the users

    What a user uploads is what the user downloads, whichever runner the function has, and no
    request of another user changes it. *)

From S2P Require Import Prelude PyStr Models Access Listings Paths Stores FileStorage FileStorageProps FilesUseCases.

Local Open Scope string_scope.
Local Open Scope list_scope.

(** ** Names *)

(** A name that is one part of a path, also after the sanitizer. *)
Definition safe_name (u : string) : Prop := contains_char slash u = false /\ u <> "" /\ sanitize_file_path u <> ".".
Definition function_ok (f : Program) : Prop :=
  contains_char slash (title f) = false
  /\ match program_provider f with Some p => contains_char slash (provider_name p) = false | None => True end.

Lemma sanitize_nonempty u : u <> "" -> sanitize_file_path u <> "".
Proof.
  unfold sanitize_file_path. rewrite replace_dots. intros Hu.
  assert (forall s, s <> "" -> sub_runs path_char false s <> "") as Hr by (intros [|c s] H; [done|]; cbn; by destruct (path_char c)).
  apply Hr. destruct u as [|c [|d u]]; [done|done|]. cbn. by destruct (_ && _).
Qed.

Lemma resolve_sanitized u : safe_name u -> resolve (sanitize_file_path u) = [sanitize_file_path u].
Proof.
  intros (Hs & Hn & Hd). apply resolve_name; [|by apply sanitize_nonempty|done].
  pose proof (split_sanitize u) as H. rewrite (split_on_whole slash u Hs) in H. cbn in H.
  apply (split_on_parts slash (sanitize_file_path u)). rewrite H. set_solver.
Qed.

Lemma split_first_safe u r : contains_char slash u = false -> split_on slash (u +:+ String slash r) = u :: split_on slash r.
Proof. intros H. by rewrite split_on_app_slash, (split_on_whole slash u H). Qed.

Lemma resolve_sanitize p : resolve (sanitize_file_path p) = filter (fun w => w <> "" /\ w <> ".") (map sanitize_file_path (split_on slash p)).
Proof. unfold resolve. by rewrite split_sanitize. Qed.

Lemma resolve_sanitize_join a b :
  startswith "/" b = false ->
  resolve (sanitize_file_path (path_join a b)) = resolve (sanitize_file_path a) ++ resolve (sanitize_file_path b).
Proof.
  intros Hb. rewrite !resolve_sanitize. destruct (path_join_spec a b Hb) as [[Ha Hj]|(x & Hx & Hj)]; rewrite Hj.
  - by subst a.
  - rewrite split_on_app_slash, map_app, filter_app. f_equal. destruct Hx as [Hx|Hx]; rewrite Hx; [done|].
    change (x +:+ "/") with (x +:+ String slash ""). by rewrite split_on_app_slash, map_app, filter_app, app_nil_r.
Qed.

Lemma start_sanitize p : startswith "/" p = false -> startswith "/" (sanitize_file_path p) = false.
Proof.
  unfold sanitize_file_path. rewrite replace_dots. destruct p as [|c p]; [done|]. intros Hc.
  assert (startswith "/" (dots (String c p)) = false) as Hd.
  { destruct p as [|d p]; [done|]. cbn. destruct (_ && _); [done|]. exact Hc. }
  destruct (dots (String c p)) as [|d q]; [done|]. cbn in Hd |- *. destruct (path_char d); [exact Hd|done].
Qed.

Section files.
Context (guess_type : string -> option string) (MEDIA_ROOT : string).
Context (cos_fault : CosOp -> string -> string -> option (exn * bool)).
Context (id_str : nat -> string) (magic_from_buffer : string -> string) (valid_mime_types : list string).

(** ** The directory of a user *)

Definition media : list string := resolve (sanitize_file_path MEDIA_ROOT).

(** What is in the places of a user's public files. *)
Definition owned (u : string) (pl : Place) : Prop :=
  match pl with
  | OnDisk path => exists rest, path = media ++ sanitize_file_path u :: rest
  | InBucket _ key => exists rest, key = "users/" +:+ u +:+ String slash rest
  end.

Lemma owned_apart u u' pl :
  safe_name u -> safe_name u' -> sanitize_file_path u <> sanitize_file_path u' -> owned u pl -> ~ owned u' pl.
Proof.
  intros (Hu & _) (Hu' & _) Hne. destruct pl as [path|b key]; cbn.
  - intros [r ->] [r' H]. apply app_inv_head in H. by injection H as H _.
  - intros [r ->] [r' H]. apply str_app_inj in H. apply (f_equal (split_on slash)) in H.
    rewrite !split_first_safe in H by done. by injection H as -> _.
Qed.

Lemma user_directory u function st t st' :
  safe_name u -> function_ok function -> fs_ok (disk st) -> ray_storage MEDIA_ROOT u function st = (Ok t, st') ->
  clean (public_path t) = true /\ exists rest, resolve (public_path t) = media ++ sanitize_file_path u :: rest.
Proof.
  intros Hu [Ht Hp] Hok. unfold ray_storage. intros H. apply bind_ok_inv in H as (path & st1 & H1 & H).
  apply bind_ok_inv in H as (sub & st2 & H2 & H).
  assert (public_path t = path) as ->.
  { destruct (truthy _); [|by injection H as <- _]. apply bind_ok_inv in H as (a & ? & _ & H).
    apply bind_ok_inv in H as (b & ? & _ & H). by injection H as <- _. }
  clear H H2. unfold absolute_path in H1. apply bind_ok_inv in H1 as (s & st3 & Hs & H1).
  apply bind_ok_inv in H1 as (_ & st4 & _ & H1). injection H1 as <- _. injection Hs as <- _.
  split; [apply sanitize_clean|]. unfold absolute_path_of.
  set (sub0 := match provider_name <$> program_provider function with
               | None => u
               | Some p => path_join (path_join u p) (title function) end).
  assert (startswith "/" sub0 = false /\ exists rest, resolve (sanitize_file_path sub0) = sanitize_file_path u :: rest) as [Hst [rest Hr]].
  { unfold sub0. destruct (program_provider function) as [p|]; cbn [fmap option_fmap option_map].
    - assert (forall a b, a <> "" -> startswith "/" a = false -> contains_char slash b = false ->
        path_join a b <> "" /\ startswith "/" (path_join a b) = false) as Hj.
      { intros a b Ha Has Hb. destruct (path_join_spec a b (no_slash_start b Hb)) as [[? _]|(x & Hx & ->)]; [done|].
        destruct x as [|c x]; [by destruct Hx as [Hx|Hx]; rewrite Hx in *|].
        split; [done|]. destruct Hx as [Hx|Hx]; rewrite Hx in Has; exact Has. }
      destruct Hu as (Hus & Hun & Hud). destruct (Hj u (provider_name p)) as [Hn1 Hs1]; [done|by apply no_slash_start|done|].
      split; [by apply Hj|]. eexists. rewrite !resolve_sanitize_join by (by apply no_slash_start).
      rewrite resolve_sanitized by done. reflexivity.
    - split; [by apply no_slash_start; destruct Hu|]. rewrite resolve_sanitized by done. by exists []. }
  exists rest. change (get_user_sub_path u (title function) (provider_name <$> program_provider function) None)
    with (sanitize_file_path sub0).
  rewrite resolve_sanitize_join by (by apply start_sanitize). by rewrite sanitize_idem, Hr.
Qed.

(** Directories may be made, files stay as they are. *)
Definition quiet (st st' : Store) : Prop := fs_ok (disk st) -> fs_ok (disk st') /\ same_files st st'.
#[local] Instance quiet_preorder : PreOrder quiet.
Proof.
  split; [intros st H; by split|]. intros a b d Hab Hbd H. destruct (Hab H) as [Hb Hs]. destruct (Hbd Hb) as [Hd Hs'].
  split; [done|]. intros pl. by rewrite Hs', Hs.
Qed.

Lemma quiet_makedirs p : rel quiet (os_makedirs p).
Proof. intros st Hok. destruct (os_makedirs p st) as [o st'] eqn:E. by apply os_makedirs_ok in E as (? & ? & _). Qed.
Lemma quiet_absolute_path d u t p e : rel quiet (absolute_path MEDIA_ROOT d u t p e).
Proof.
  unfold absolute_path. rel_auto. intros st. destruct (path_exists _ _); [apply rel_ret; exact _|apply quiet_makedirs].
Qed.

Lemma storage_quiet u function : rel quiet (get_file_storage MEDIA_ROOT id_str u function).
Proof.
  unfold get_file_storage, ray_storage. rel_auto; apply quiet_absolute_path.
Qed.

(** ** The laws, whichever the runner *)

Context (reliable : forall op bucket key, cos_fault op bucket key = None).
#[local] Existing Instances ray_laws fleets_laws.
#[local] Instance any : FileStorage AnyStorage := any_storage guess_type cos_fault.

#[local] Instance any_laws : FileStorageLaws AnyStorage.
Proof.
  refine (@Build_FileStorageLaws AnyStorage any
    (fun t => match t with RayStorage t => ray_usable t | FleetsStorage t => fleets_usable t end)
    (fun t => match t with RayStorage t => ray_place t | FleetsStorage t => fleets_place t end)
    (fun t => match t with RayStorage t => startswith "." | FleetsStorage t => fun n => bool_decide (n ∈ INTERNAL_FUNCTION_FILES) end)
    _ _ _ _).
  - intros [t|t]; [apply (ray_upload t)|apply (fleets_upload cos_fault reliable t)].
  - intros [t|t]; [apply (ray_stream guess_type t)|apply (fleets_stream cos_fault reliable t)].
  - intros [t|t]; [apply (ray_remove t)|apply (fleets_remove cos_fault reliable t)].
  - intros [t|t]; [apply (ray_list t)|apply (fleets_list cos_fault reliable t)].
Defined.

Lemma app_nonempty a b : b <> "" -> a +:+ b <> "".
Proof. by destruct a. Qed.

Lemma cos_prefix u function :
  exists rest, cos_user_files_prefix (build_function_paths function u) = "users/" +:+ u +:+ String slash rest
    /\ endswith_char slash rest = false /\ rest <> "".
Proof.
  unfold build_function_paths. destruct (program_provider function) as [p|]; cbn [cos_user_files_prefix].
  - exists ("provider_functions/" +:+ provider_name p +:+ "/" +:+ title function +:+ "/data"). split; [done|].
    split; [|done]. by rewrite !endswith_app by (repeat apply app_nonempty; done).
  - exists ("custom_functions/" +:+ title function +:+ "/data"). split; [done|].
    split; [|done]. by rewrite !endswith_app by (repeat apply app_nonempty; done).
Qed.

(** A storage that was opened can be used, and all of it belongs to its user. *)
Lemma storage_opened u function st t st' :
  safe_name u -> function_ok function -> fs_ok (disk st) -> get_file_storage MEDIA_ROOT id_str u function st = (Ok t, st') ->
  usable t /\ forall sub n, owned u (place_of t sub n).
Proof.
  intros Hu Hf Hok. unfold get_file_storage. destruct (program_runner function); intros H.
  - apply bind_ok_inv in H as (t' & st1 & H & Ht). injection Ht as <- _.
    apply user_directory in H as (Hc & rest & Hr); [|done..]. split; [exact Hc|]. intros sub n. cbn.
    unfold ray_place, in_sub_path. destruct (sub_path_clean sub) as [_ Hs]. cbn zeta in Hs.
    destruct (bool_decide _); cbn; rewrite ?resolve_join, Hr by done; eexists; by rewrite <- ?app_assoc.
  - apply bind_ok_inv in H as (t' & st1 & H & Ht). injection Ht as <- _.
    destruct (fleets_storage _ u function) as [t|] eqn:E; [|done]. injection H as <- _.
    unfold fleets_storage in E. destruct (load_user_bucket _ function) as [bucket|] eqn:Hb; [|done].
    destruct (load_provider_bucket _ function) as [pb|]; [|done]. injection E as <-.
    assert (bucket <> "") as Hne.
    { unfold load_user_bucket in Hb. destruct (program_code_engine_project function) as [p|]; [|done].
      destruct (cos_bucket_user_data_name p) as [[|]|]; try done. by injection Hb as <-. }
    destruct (cos_prefix u function) as (rest & Hkey & Hend & Hrest).
    split; [split; [done|]|].
    + cbn [public_folder_key]. rewrite Hkey, !endswith_app by (try apply app_nonempty; done).
      destruct rest; [done|exact Hend].
    + intros sub n. cbn [place_of any_laws fleets_place owned]. unfold fleets_key, fleets_folder. cbn [public_folder_key].
      rewrite Hkey. case_bool_decide.
      * exists (rest +:+ "/" +:+ n). by rewrite !str_app_assoc.
      * exists (rest +:+ "/" +:+ sanitize_sub_path (Some sub) +:+ "/" +:+ n). by rewrite !str_app_assoc.
Qed.

(** The function of a request is one of the table. *)
Lemma get_function_in fs t p f : get_function fs t p = Some f -> f ∈ fs.
Proof.
  unfold get_function, provider_functions. intros H. repeat case_match; apply head_Some_elem_of in H.
  all: repeat (apply list_elem_of_filter in H as [_ H]); done.
Qed.
Lemma user_function_in c u a p t permission f : user_function c u a p t permission = Ok f -> f ∈ functions c.
Proof.
  unfold user_function. destruct (get_function_by_permission _ _ _ _ _ _ _) as [g|] eqn:E; [|done]. intros [= ->].
  unfold get_function_by_permission, user_functions, with_permission in E.
  repeat case_match; try done; apply get_function_in in E; try done; by apply list_elem_of_filter in E as [_ E].
Qed.

(** ** Isolation *)

(** Only places of the user change. *)
Definition within (u : string) (st st' : Store) : Prop :=
  fs_ok (disk st) -> fs_ok (disk st') /\ forall pl, ~ owned u pl -> file_at st' pl = file_at st pl.
#[local] Instance within_preorder u : PreOrder (within u).
Proof.
  split; [intros st H; by split|]. intros a b d Hab Hbd H. destruct (Hab H) as [Hb Hs]. destruct (Hbd Hb) as [Hd Hs'].
  split; [done|]. intros pl Hpl. by rewrite Hs', Hs.
Qed.
Lemma put_within u pl c st st' : fs_ok (disk st') -> owned u pl -> put_at pl c st st' -> within u st st'.
Proof. intros Hok Ho Hput _. split; [done|]. intros q Hq. rewrite Hput, decide_False; [done|]. by intros ->. Qed.

Lemma with_storage u function {A} (k : AnyStorage -> M Store A) :
  safe_name u -> function_ok function ->
  (forall t st, usable t -> (forall sub n, owned u (place_of t sub n)) -> fs_ok (disk st) -> within u st (snd (k t st))) ->
  rel (within u) (bind (get_file_storage MEDIA_ROOT id_str u function) k).
Proof.
  intros Hu Hf Hk st Hok. unfold bind. pose proof (storage_quiet u function st Hok) as [Hok1 Hs].
  destruct (get_file_storage _ _ _ _ st) as [[t|e] st1] eqn:E; cbn in *; [|by split].
  apply storage_opened in E as [Ht Ho]; [|done..]. destruct (Hk t st1 Ht Ho Hok1 Hok1) as [Hok2 Hs2].
  split; [done|]. intros pl Hpl. by rewrite Hs2.
Qed.

Lemma reading_within {A} (m : M Store A) u st o : m st = (o, st) -> within u st (snd (m st)).
Proof. intros ->. by intros H. Qed.

Lemma file_name_of_named n : clean (file_name_of n) = true /\ contains_char slash (file_name_of n) = false.
Proof.
  unfold file_name_of, sanitize_file_name. destruct n as [|a n]; [done|]. unfold truthy. rewrite bool_decide_false by done. cbn [negb].
  rewrite replace_dots. set (s := sub_runs file_char false _). change (default "" (Some s)) with s.
  assert (forallb_str file_char s = true) as Hs by (by apply sub_runs_chars).
  assert (nodots s = true) as Hd by (apply nodots_sub_runs; [done|apply nodots_dots]).
  unfold clean. rewrite Hd. clearbody s. clear Hd. induction s as [|d s IH]; [done|].
  cbn in Hs. apply andb_prop in Hs as [Hc Hs]. destruct (IH Hs) as [IH1 IH2]. cbn in IH1 |- *. rewrite IH1, IH2.
  unfold file_char in Hc. unfold path_char. split.
  - rewrite andb_true_r. apply orb_true_iff in Hc as [->|Hc]; [done|]. apply orb_true_iff. right.
    apply bool_decide_eq_true in Hc. apply bool_decide_eq_true. set_solver.
  - rewrite orb_false_r. apply bool_decide_false. intros ->. done.
Qed.

Section served.
Context (c : Catalog) (tables : Forall function_ok (functions c)).

Lemma of_user_function {B} u a p t permission (k : Program -> M Store B) (R : Store -> Store -> Prop) `{!PreOrder R} :
  (forall f, function_ok f -> rel R (k f)) -> rel R (bind (of_outcome (user_function c u a p t permission)) k).
Proof.
  intros Hk. apply rel_bind_outcome; [exact _|]. intros f Hf%user_function_in. apply Hk.
  by apply (proj1 (Forall_forall _ _) tables).
Qed.

(** A request for the user's own files. *)
Definition own_files (r : FilesRequest) : Prop :=
  match r with ListFiles _ _ _ | DownloadFile _ _ _ | UploadFile _ _ _ _ | DeleteFile _ _ _ _ => True | _ => False end.

Lemma serve_within user a r :
  safe_name (username user) -> own_files r ->
  rel (within (username user))
    (serve guess_type MEDIA_ROOT cos_fault id_str c user a magic_from_buffer valid_mime_types r).
Proof.
  intros Hu Hown. destruct r as [p t sub|p t n|p t file sub|p t n sub| | | |]; try done; cbn [serve].
  - apply rel_bind; [exact _| |intros ?; apply rel_ret; exact _].
    apply of_user_function; [exact _|]. intros f Hf. apply with_storage; [done..|]. intros s st Hs Ho Hok.
    destruct (list_law s (sanitize_sub_path (Some sub)) st Hs Hok) as (l & E & _). by eapply reading_within.
  - apply rel_bind; [exact _| |intros ?; apply rel_ret; exact _].
    apply of_user_function; [exact _|]. intros f Hf. apply with_storage; [done..|]. intros s st Hs Ho Hok.
    pose proof (stream_law s (file_name_of n) DEFAULT_CHUNK_SIZE st Hs Hok (file_name_of_named n)) as H. unfold bind.
    destruct (file_at st _); [destruct H as (found & E & _)|destruct H as [E|(found & e & E & _)]].
    all: change (@get_public_file_stream _ _ s) with (@get_public_file_stream AnyStorage any s); rewrite E; by intros ?.
  - apply rel_bind; [exact _| |intros ?; apply rel_ret; exact _].
    apply rel_bind_outcome; [exact _|]. intros uploaded _.
    apply of_user_function; [exact _|]. intros f Hf. apply with_storage; [done..|]. intros s st Hs Ho Hok.
    destruct (upload_public_file s uploaded (sanitize_sub_path (Some sub)) st) as [o st'] eqn:E.
    apply upload_law in E as [Hok' E]; [|done..]. destruct o; cbn; [by eapply put_within|].
    intros _. by split.
  - apply of_user_function; [exact _|]. intros f Hf. apply with_storage; [done..|]. intros s st Hs Ho Hok.
    destruct (remove_law s (file_name_of n) (sanitize_sub_path (Some sub)) st Hs Hok (file_name_of_named n))
      as (b & st' & E & Hok' & Hput & _). unfold bind.
    change (@remove_public_file _ _ s) with (@remove_public_file AnyStorage any s). rewrite E.
    by destruct b; eapply put_within.
Qed.

(** *** The provider's files *)

Lemma bucket_and_key_reads bucket key st : snd (bucket_and_key bucket key st) = st.
Proof. unfold bucket_and_key, bind, required. by destruct (bool_decide (bucket = "")), (bool_decide (key = "")). Qed.

Section spares.
Context (u : string).

(** No place of the user changes. *)
Definition spares (st st' : Store) : Prop :=
  fs_ok (disk st) -> fs_ok (disk st') /\ forall pl, owned u pl -> file_at st' pl = file_at st pl.
#[global] Instance spares_preorder : PreOrder spares.
Proof.
  split; [intros st H; by split|]. intros a b d Hab Hbd H. destruct (Hab H) as [Hb Hs]. destruct (Hbd Hb) as [Hd Hs'].
  split; [done|]. intros pl Hpl. by rewrite Hs', Hs.
Qed.

Lemma within_spares u' st st' :
  safe_name u -> safe_name u' -> sanitize_file_path u' <> sanitize_file_path u -> within u' st st' -> spares st st'.
Proof.
  intros Hu Hu' Hne H Hok. destruct (H Hok) as [Hok' Hs]. split; [done|]. intros pl Hpl. apply Hs. intros Hin.
  by apply (owned_apart _ _ _ Hu' Hu Hne Hin).
Qed.
Lemma put_spares pl content st st' : fs_ok (disk st') -> ~ owned u pl -> put_at pl content st st' -> spares st st'.
Proof. intros Hok Ho Hput _. split; [done|]. intros q Hq. rewrite Hput, decide_False; [done|]. by intros ->. Qed.

(** On Ray the provider's directory is beside the user's, when their names make two. *)
Definition provider_apart (f : Program) : Prop :=
  match program_runner f, program_provider f with
  | RAY, Some p => safe_name (provider_name p) /\ sanitize_file_path (provider_name p) <> sanitize_file_path u
  | _, _ => True
  end.

(** Where a storage keeps the provider's files: beside the user's. *)
Definition private_apart (t : AnyStorage) : Prop :=
  match t with
  | RayStorage t => forall p, private_path t = Some p -> clean p = true /\ forall rest, ~ owned u (OnDisk (resolve p ++ rest))
  | FleetsStorage t => forall k, private_folder_key t = Some k -> exists rest, k = "providers/" +:+ rest
  end.

Lemma provider_directory name function_title :
  safe_name name -> contains_char slash function_title = false -> sanitize_file_path name <> sanitize_file_path u ->
  let p := absolute_path_of MEDIA_ROOT (get_provider_sub_path function_title name None) in
  clean p = true /\ forall rest, ~ owned u (OnDisk (resolve p ++ rest)).
Proof.
  intros Hn Ht Hne. cbn zeta. split; [apply sanitize_clean|]. unfold absolute_path_of, get_provider_sub_path. cbn [with_extra].
  assert (startswith "/" (path_join name function_title) = false) as Hst.
  { destruct Hn as (Hs & Hne' & _). destruct (path_join_spec name function_title (no_slash_start _ Ht)) as [[? _]|(x & Hx & ->)]; [done|].
    pose proof (no_slash_start name Hs) as H. destruct x as [|d x]; [by destruct Hx as [Hx|Hx]; rewrite Hx in *|].
    destruct Hx as [Hx|Hx]; rewrite Hx in H; exact H. }
  rewrite resolve_sanitize_join by (by apply start_sanitize). rewrite sanitize_idem, resolve_sanitize_join by (by apply no_slash_start).
  rewrite (resolve_sanitized name) by done. intros rest [r H]. unfold media in H; rewrite <- !app_assoc in H. apply app_inv_head in H. by injection H as H _.
Qed.

Lemma storage_apart user f st t st' :
  function_ok f -> provider_apart f -> get_file_storage MEDIA_ROOT id_str user f st = (Ok t, st') -> private_apart t.
Proof.
  intros [Htitle Hslash] Hap. unfold get_file_storage, provider_apart in *. destruct (program_runner f); intros H.
  - apply bind_ok_inv in H as (t' & st1 & H & Ht). injection Ht as <- _. unfold ray_storage in H.
    apply bind_ok_inv in H as (path & sa & _ & H). apply bind_ok_inv in H as (sub & sb & _ & H). intros p Hp.
    destruct (program_provider f) as [pr|]; cbn [fmap option_fmap option_map] in H; [|by injection H as <- _].
    destruct (truthy (Some (provider_name pr))) eqn:Etr; [|by injection H as <- _].
    apply bind_ok_inv in H as (q & sc & Hq & H). apply bind_ok_inv in H as (ps & sd & _ & H). injection H as <- _. injection Hp as <-.
    unfold absolute_path in Hq. apply bind_ok_inv in Hq as (s & se & Hs & Hq). injection Hs as <- _.
    apply bind_ok_inv in Hq as (_ & sf & _ & Hq). injection Hq as <- _. destruct Hap. by apply provider_directory.
  - apply bind_ok_inv in H as (t' & st1 & H & Ht). injection Ht as <- _.
    destruct (fleets_storage _ user f) as [t0|] eqn:E; [|done]. injection H as <- _. unfold fleets_storage in E.
    destruct (load_user_bucket _ f); [|done]. destruct (load_provider_bucket _ f); [|done]. injection E as <-. cbn.
    unfold build_function_paths. destruct (program_provider f); cbn; intros k [= <-]. by eexists.
Qed.

Lemma with_private_storage user f {A} (k : AnyStorage -> M Store A) :
  function_ok f -> provider_apart f -> (forall t st, private_apart t -> spares st (snd (k t st))) ->
  rel spares (bind (get_file_storage MEDIA_ROOT id_str user f) k).
Proof.
  intros Hf Ha Hk st Hok. unfold bind. pose proof (storage_quiet user f st Hok) as [Hok1 Hs].
  destruct (get_file_storage _ _ _ _ st) as [[t|e] st1] eqn:E; cbn in *; [|by split].
  destruct (Hk t st1 (storage_apart _ _ _ _ _ Hf Ha E) Hok1) as [Hok2 Hs2]. split; [done|]. intros pl Hpl. by rewrite Hs2.
Qed.

Lemma not_of_providers b k rest : k = "providers/" +:+ rest -> ~ owned u (InBucket b k).
Proof. by intros -> [r H]. Qed.

Lemma upload_private_spares t file st : private_apart t -> spares st (snd (upload_private_file t file st)).
Proof.
  intros Ht Hok. destruct t as [t|t]; cbn in *.
  - unfold with_private. destruct (private_path t) as [p|]; [|by split]. destruct (Ht p eq_refl) as [Hc Ho].
    destruct (upload_file_to_folder p file "" st) as [o st'] eqn:E.
    pose proof (ray_upload (mk_file_storage_ray p "" None None) file "" st o st' Hc Hok E) as [Hok' H].
    destruct o; cbn; [|by split]. exact (put_spares (OnDisk (resolve p ++ resolve (stored_name file))) _ _ _ Hok' (Ho _) H Hok).
  - unfold fleets_upload_private, in_private. destruct (private_folder_key t) as [k|]; [|by split]. destruct (Ht k eq_refl) as [rest ->].
    unfold upload_fileobj, bind. set (key := _ +:+ "/" +:+ file_name file). set (bucket := default "" (provider_bucket t)).
    pose proof (bucket_and_key_reads bucket key st) as E. destruct (bucket_and_key bucket key st) as [[[]|e] st1]; cbn in E; subst st1; [|by split].
    rewrite (cos_call_ok cos_fault reliable). refine (put_spares (InBucket bucket key) _ _ _ _ _ (put_bucket bucket key (file_content file) st) Hok); [exact Hok|].
    apply (not_of_providers _ _ (rest +:+ "/" +:+ file_name file)). unfold key. by rewrite str_app_assoc.
Qed.

Lemma remove_private_spares t n st : private_apart t -> named n -> spares st (snd (remove_private_file t n st)).
Proof.
  intros Ht Hn Hok. destruct t as [t|t]; cbn in *.
  - unfold with_private. destruct (private_path t) as [p|]; [|by split]. destruct (Ht p eq_refl) as [Hc Ho].
    destruct (ray_remove (mk_file_storage_ray p "" None None) n "" st Hc Hok Hn) as (b & st' & E & Hok' & Hput & _).
    cbn [public_path] in E. rewrite E. cbn. exact (put_spares (OnDisk (resolve p ++ resolve n)) _ _ _ Hok' (Ho _) Hput Hok).
  - unfold fleets_remove_private, in_private. destruct (private_folder_key t) as [k|]; [|by split]. destruct (Ht k eq_refl) as [rest ->].
    unfold answering, delete_object, try_except, bind. set (key := _ +:+ "/" +:+ n). set (bucket := default "" (provider_bucket t)).
    pose proof (bucket_and_key_reads bucket key st) as E. destruct (bucket_and_key bucket key st) as [[[]|e] st1]; cbn in E; subst st1.
    + rewrite (cos_call_ok cos_fault reliable). refine (put_spares (InBucket bucket key) _ _ _ _ _ (delete_bucket bucket key st) Hok); [exact Hok|].
      apply (not_of_providers _ _ (rest +:+ "/" +:+ n)). unfold key. by rewrite str_app_assoc.
    + by destruct (isinstance e ClientError).
Qed.

Lemma reading_spares {A} (m : M Store A) st : snd (m st) = st -> spares st (snd (m st)).
Proof. intros -> Hok. by split. Qed.

Lemma private_files_read t st : snd (get_private_files t st) = st.
Proof.
  destruct t as [t|t]; cbn; [done|]. unfold fleets_private_files. destruct (private_folder_key t); [|done].
  unfold answering, try_except, bind, list_keys. rewrite (cos_call_ok cos_fault reliable). by destruct st.
Qed.
Lemma private_stream_reads t n k st : snd (get_private_file_stream t n k st) = st.
Proof.
  destruct t as [t|t]; cbn.
  - unfold with_private. destruct (private_path t) as [p|]; [|done]. unfold get_file_stream_in_folder, bind, gets. by destruct (path_exists _ _).
  - unfold in_private. destruct (private_folder_key t) as [f|]; [|done]. unfold fleets_get_file_stream, answering, try_except, get_object_bytes, bind.
    set (key := f +:+ "/" +:+ n). set (bucket := default "" (provider_bucket t)).
    pose proof (bucket_and_key_reads bucket key st) as E. destruct (bucket_and_key bucket key st) as [[[]|e] st1]; cbn in E; subst st1.
    + rewrite (cos_call_ok cos_fault reliable). destruct st as [d b]. cbn. by destruct (b !! _).
    + by destruct (isinstance e ClientError).
Qed.

Context (providers : Forall provider_apart (functions c)).

Lemma of_provider_function {B} user a may p t (k : Program -> M Store B) :
  (forall f, function_ok f -> provider_apart f -> rel spares (k f)) ->
  rel spares (bind (of_outcome (provider_function c user a may p t)) k).
Proof.
  intros Hk. apply rel_bind_outcome; [exact _|]. intros f Hf. assert (f ∈ functions c) as Hin.
  { unfold provider_function in Hf. destruct (get_by_name _ _); [|done]. destruct (may _ _ _ _) as [[]|]; try done.
    destruct (get_function _ _ _) as [g|] eqn:E; [|done]. injection Hf as ->. by eapply get_function_in. }
  apply Hk; [by apply (proj1 (Forall_forall _ _) tables)|by apply (proj1 (Forall_forall _ _) providers)].
Qed.

Lemma serve_spares user a r :
  safe_name u ->
  (own_files r -> safe_name (username user) /\ sanitize_file_path (username user) <> sanitize_file_path u) ->
  rel spares (serve guess_type MEDIA_ROOT cos_fault id_str c user a magic_from_buffer valid_mime_types r).
Proof.
  intros Hu Hap. destruct r as [p t sub|p t n|p t file sub|p t n sub|p t|p t n|p t file|p t n].
  1-4: destruct (Hap I) as [Hs Hne]; intros st; by apply (within_spares (username user)), serve_within.
  all: cbn [serve].
  - apply rel_bind; [exact _| |intros ?; apply rel_ret; exact _]. apply of_provider_function. intros f Hf Ha.
    apply with_private_storage; [done..|]. intros s st _. apply reading_spares, private_files_read.
  - apply rel_bind; [exact _| |intros ?; apply rel_ret; exact _]. apply of_provider_function. intros f Hf Ha.
    apply with_private_storage; [done..|]. intros s st _. apply reading_spares. unfold bind.
    pose proof (private_stream_reads s (file_name_of n) DEFAULT_CHUNK_SIZE st) as E.
    change (@get_private_file_stream _ _ s) with (@get_private_file_stream AnyStorage any s).
    destruct (get_private_file_stream s _ _ st) as [[[found|]|e] st']; exact E.
  - apply rel_bind; [exact _| |intros ?; apply rel_ret; exact _]. apply rel_bind_outcome; [exact _|]. intros uploaded _.
    apply of_provider_function. intros f Hf Ha. apply with_private_storage; [done..|]. intros s st. apply upload_private_spares.
  - apply of_provider_function. intros f Hf Ha. apply with_private_storage; [done..|]. intros s st Hs.
    pose proof (remove_private_spares s (file_name_of n) st Hs (file_name_of_named n)) as H. unfold bind.
    change (@remove_private_file _ _ s) with (@remove_private_file AnyStorage any s).
    destruct (remove_private_file s _ st) as [[[]|e] st']; exact H.
Qed.
End spares.

Abbreviation Served := (User * FunctionAccessResult * FilesRequest)%type.
Definition serve_all (requests : list Served) (st : Store) : Store :=
  foldl (fun st '(user, a, r) =>
    snd (serve guess_type MEDIA_ROOT cos_fault id_str c user a magic_from_buffer valid_mime_types r st)) st requests.

(** What a download gives, read to its end. *)
Definition reads (t : AnyStorage) (n : string) (k : nat) (content : string) (st : Store) : Prop :=
  exists found parts, get_public_file_stream t n k st = (Ok (Some found), st)
    /\ found_stream found st = (Ok parts, st) /\ foldr String.append "" parts = content.

Lemma reads_spec t n k content st :
  usable t -> fs_ok (disk st) -> named n -> (0 < k)%nat -> reads t n k content st <-> file_at st (place_of t "" n) = Some content.
Proof.
  intros Ht Hok Hn Hk. pose proof (stream_law t n k st Ht Hok Hn) as H. split.
  - intros (found & parts & E & Hp & Hc). destruct (file_at st _) as [c0|].
    + destruct H as (found' & E' & Hs & _). rewrite E' in E. injection E as <-. rewrite Hs in Hp. injection Hp as <-.
      rewrite <- Hc. by rewrite chunks_concat.
    + destruct H as [E'|(found' & e & E' & Hs)]; rewrite E' in E; [done|]. injection E as <-. by rewrite Hs in Hp.
  - intros Hf. rewrite Hf in H. destruct H as (found & E & Hs & _). eexists found, _. split_and!; [done..|].
    by apply chunks_concat.
Qed.

(** C21: whatever others ask for, in any order, with any names and sub-paths, a user downloads the same contents
    and sees the same listings as before: other users listing, downloading, uploading and deleting files of their own, and anyone
    those of the providers. It takes names that make different directories, those of the users and, on Ray, those
    of the providers (two that only differ in characters the sanitizer replaces do not), and an object storage whose calls get through. *)
Theorem files_isolated (requests : list Served) u function st0 t st0' st :
  function_ok function -> safe_name u -> Forall (provider_apart u) (functions c) ->
  Forall (fun '(user, _, r) => own_files r -> safe_name (username user)
            /\ sanitize_file_path (username user) <> sanitize_file_path u) requests ->
  fs_ok (disk st0) -> get_file_storage MEDIA_ROOT id_str u function st0 = (Ok t, st0') -> fs_ok (disk st) ->
  let st' := serve_all requests st in
  (forall n k content, named n -> (0 < k)%nat -> reads t n k content st' <-> reads t n k content st)
  /\ forall sub, exists l l', get_public_files t sub st = (Ok l, st) /\ get_public_files t sub st' = (Ok l', st')
       /\ forall n, plain n -> n ∈ l' <-> n ∈ l.
Proof.
  intros Hf Hu Hprov Hreq Hok0 Ht Hok. apply storage_opened in Ht as [Ht Ho]; [|done..].
  assert (forall st, spares u st (serve_all requests st)) as H.
  { clear st Hok. induction Hreq as [|[[user a] r] requests Hr _ IH]; intros st; [by intros Hok; split|].
    cbn. etransitivity; [|apply IH]. by apply (serve_spares u Hprov user a r). }
  destruct (H st Hok) as [Hok' Hs]. cbn zeta. split.
  - intros n k content Hn Hk. by rewrite !reads_spec, Hs.
  - intros sub. destruct (list_law t sub st Ht Hok) as (l & E & Hl). destruct (list_law t sub _ Ht Hok') as (l' & E' & Hl').
    exists l, l'. split_and!; [done..|]. intros n Hn. by rewrite Hl, Hl', Hs.
Qed.

(** ** Opening a storage again *)

Lemma absolute_path_again d u t p e st path st1 :
  fs_ok (disk st) -> absolute_path MEDIA_ROOT d u t p e st = (Ok path, st1) ->
  fs_ok (disk st1)
  /\ forall st2, kept st1 st2 -> fs_ok (disk st2) -> absolute_path MEDIA_ROOT d u t p e st2 = (Ok path, st2).
Proof.
  intros Hok. unfold absolute_path. destruct (sub_path d u t p e) as [sub|]; [|done]. cbn [of_outcome].
  set (q := absolute_path_of MEDIA_ROOT sub). intros H.
  apply bind_ok_inv in H as (s & st0 & Hs & H). injection Hs as <- <-.
  apply bind_ok_inv in H as ([] & st0 & Hmk & H). injection H as <- <-.
  assert (fs_ok (disk st0) /\ node_at (disk st0) (resolve q) <> None) as [Hok0 Hn].
  { fold q in Hmk. destruct (path_exists (disk st) q) eqn:E.
    - injection Hmk as <-. split; [done|]. by apply path_exists_node.
    - apply os_makedirs_ok in Hmk as (Hok0 & _ & Hd); [|done]. split; [done|]. by rewrite Hd. }
  split; [done|]. intros st2 Hk Hok2. destruct (Hk Hok0) as [_ Hn2]. unfold bind, ret. fold q.
  by rewrite (proj2 (path_exists_node (disk st2) q Hok2) (Hn2 _ Hn)).
Qed.

Lemma kept_absolute_path d u t p e : rel kept (absolute_path MEDIA_ROOT d u t p e).
Proof.
  unfold absolute_path. rel_auto. intros st. destruct (path_exists _ _); [apply rel_ret; exact _|apply makedirs_kept].
Qed.

Lemma ray_again u function st t st1 :
  fs_ok (disk st) -> ray_storage MEDIA_ROOT u function st = (Ok t, st1) ->
  forall st2, kept st1 st2 -> fs_ok (disk st2) -> ray_storage MEDIA_ROOT u function st2 = (Ok t, st2).
Proof.
  intros Hok H st2 Hk Hok2. unfold ray_storage in *.
  apply bind_ok_inv in H as (path & sa & H1 & H). apply absolute_path_again in H1 as [Hoka H1]; [|done].
  apply bind_ok_inv in H as (sub & sb & Hsub & H). unfold bind at 1.
  destruct (sub_path USER_STORAGE _ _ _ _) as [s|] eqn:Es; [|done]. injection Hsub as <- <-.
  destruct (truthy (provider_name <$> program_provider function)) eqn:Ep.
  - apply bind_ok_inv in H as (private & sc & H2 & H). pose proof (kept_absolute_path PROVIDER_STORAGE u (title function)
      (provider_name <$> program_provider function) None sa) as Hkab. rewrite H2 in Hkab. cbn in Hkab.
    apply absolute_path_again in H2 as [Hokc H2]; [|done]. apply bind_ok_inv in H as (psub & sd & Hpsub & H).
    destruct (sub_path PROVIDER_STORAGE _ _ _ _) as [ps|] eqn:Eps; [|done]. injection Hpsub as <- <-. injection H as <- <-.
    rewrite H1 by (first [done | by transitivity sc]). unfold bind, of_outcome, ret. by rewrite H2.
  - injection H as <- <-. by rewrite H1.
Qed.

Lemma storage_again u function st t st1 :
  fs_ok (disk st) -> get_file_storage MEDIA_ROOT id_str u function st = (Ok t, st1) ->
  forall st2, kept st1 st2 -> fs_ok (disk st2) -> get_file_storage MEDIA_ROOT id_str u function st2 = (Ok t, st2).
Proof.
  intros Hok H st2 Hk Hok2. unfold get_file_storage in *. destruct (program_runner function).
  - apply bind_ok_inv in H as (r & sa & H1 & H). injection H as <- <-. unfold bind.
    by rewrite (ray_again _ _ _ _ _ Hok H1 st2 Hk Hok2).
  - apply bind_ok_inv in H as (r & sa & H1 & H). injection H as <- <-. unfold bind.
    destruct (fleets_storage _ _ _); [|done]. by injection H1 as -> ->.
Qed.


Lemma upload_kept t file sub : rel kept (upload_public_file t file sub).
Proof.
  destruct t as [t|t]; cbn.
  - unfold upload_file_to_folder. rel_auto; [apply makedirs_kept|apply write_file_kept].
  - unfold fleets_upload_public, upload_fileobj. intros st Hok. unfold bind.
    pose proof (bucket_and_key_reads (user_bucket t) (public_folder_key t +:+ "/" +:+ relative_path (file_name file) sub) st) as E.
    destruct (bucket_and_key _ _ st) as [[[]|e] st1]; cbn in E; subst st1; [|by split].
    rewrite (cos_call_ok cos_fault reliable). by split.
Qed.

Lemma sanitized_sub_empty : sanitize_sub_path (Some "") = "". Proof. done. Qed.

End served.
End files.

(** ** Two users of the same cluster *)
Module SampleFiles.
Definition alice : User := mk_user 1 "alice".
Definition bob : User := mk_user 2 "bob".
Definition custom (pk : nat) (u : User) : Program :=
  mk_program pk "hello" None u RAY false None false None None "{}" None "GENERIC" None None "main.py" None None "[]".
Definition catalog : Catalog :=
  mk_catalog [] [custom 1 alice; custom 2 bob] [] (fun _ => []) (fun _ => []) (fun _ => []) [] [] [].
Definition access : FunctionAccessResult := mk_access true "" [] [].
Definition never (op : CosOp) (bucket key : string) : option (exn * bool) := None.
Definition text (_ : string) : string := "text/plain".
Definition file : File := mk_file "my data.txt" "content".
Definition empty : Store := mk_store ∅ ∅.

Definition upload (u : User) (st : Store) : outcome string * Store :=
  files_upload_view (fun _ => None) "/data" never (fun _ => "") catalog u access text ["text/plain"] None "hello" (Some file) "" st.

Lemma tables : Forall function_ok (functions catalog).
Proof. by repeat constructor. Qed.
Lemma fs_empty : fs_ok (disk empty).
Proof. intros p w [n H]. change ((∅ : FS) !! (p ++ [w]) = Some n) in H. by rewrite lookup_empty in H. Qed.
End SampleFiles.


Lemma files_isolated_witness :
  exists t st, get_file_storage "/data" (fun _ => "") "alice" (SampleFiles.custom 1 SampleFiles.alice) SampleFiles.empty = (Ok t, st)
    /\ forall n k content, named n -> (0 < k)%nat ->
         reads (fun _ => None) SampleFiles.never t n k content
           (serve_all (fun _ => None) "/data" SampleFiles.never (fun _ => "") SampleFiles.text ["text/plain"] SampleFiles.catalog
              [(SampleFiles.bob, SampleFiles.access, UploadFile None "hello" (Some SampleFiles.file) "../alice");
               (SampleFiles.bob, SampleFiles.access, UploadProviderFile "alice" "hello" (Some SampleFiles.file));
               (SampleFiles.bob, SampleFiles.access, DeleteFile None "hello" "my data.txt" "../alice")] st)
         <-> reads (fun _ => None) SampleFiles.never t n k content st.
Proof.
  destruct (get_file_storage "/data" (fun _ => "") "alice" (SampleFiles.custom 1 SampleFiles.alice) SampleFiles.empty)
    as [[t|e] st] eqn:E; [|vm_compute in E; discriminate].
  exists t, st. split; [reflexivity|].
  destruct (files_isolated (fun _ => None) "/data" SampleFiles.never (fun _ => "") SampleFiles.text ["text/plain"]
    (fun _ _ _ => eq_refl) SampleFiles.catalog SampleFiles.tables
    [(SampleFiles.bob, SampleFiles.access, UploadFile None "hello" (Some SampleFiles.file) "../alice");
     (SampleFiles.bob, SampleFiles.access, UploadProviderFile "alice" "hello" (Some SampleFiles.file));
     (SampleFiles.bob, SampleFiles.access, DeleteFile None "hello" "my data.txt" "../alice")]
    "alice" (SampleFiles.custom 1 SampleFiles.alice) SampleFiles.empty t st st) as [H _].
  - split; exact eq_refl || exact I.
  - split; [reflexivity|split; [discriminate|vm_compute; discriminate]].
  - repeat constructor.
  - repeat constructor; try reflexivity; vm_compute; discriminate.
  - exact SampleFiles.fs_empty.
  - exact E.
  - pose proof (storage_quiet "/data" (fun _ => "") "alice" (SampleFiles.custom 1 SampleFiles.alice) SampleFiles.empty SampleFiles.fs_empty) as Hq.
    rewrite E in Hq. exact (proj1 Hq).
  - exact H.
Defined.

(** ** Two places where the names do not meet *)
Module SampleProviderFiles.
Definition acme : Provider := mk_provider 7 "acme" None.
Definition project : CodeEngineProject := mk_project 1 "project" "us-east" (Some "users") true (Some "providers") "ce-uuid" "pool" "state" "users-pds" "providers-pds" (Some "tasks") (Some "cos") (Some "key").
Definition sampler (r : Runner) : Program :=
  mk_program 5 "sampler" (Some acme) SampleFiles.alice r false None false None (Some project) "{}" None "GENERIC" None None
    "main.py" None None "[]".
(** A user with a provider's name, and a custom function of theirs. *)
Definition user_acme : User := mk_user 3 "acme".
Definition catalog (r : Runner) : Catalog :=
  mk_catalog [acme] [sampler r; SampleFiles.custom 2 user_acme] [] (fun _ => []) (fun _ => []) (fun _ => []) [] [] [].
Definition access : FunctionAccessResult :=
  mk_access false "" [mk_entry "acme" "sampler" "LICENSED"
    [PLATFORM_PERMISSION_PROVIDER_FILES_READ; PLATFORM_PERMISSION_PROVIDER_FILES_WRITE]] [].
Definition wheel : File := mk_file "torch-2.1+cu121.whl" "wheel".
End SampleProviderFiles.

(** On Fleets the provider's upload keeps the name as it was sent, and its download looks for
    the sanitized one. *)
Example provider_upload_lost :
  let '(uploaded, st) :=
    files_provider_upload_view (fun _ => None) "/data" SampleFiles.never (fun _ => "") (SampleProviderFiles.catalog FLEETS)
      SampleFiles.alice SampleProviderFiles.access SampleFiles.text ["text/plain"] "acme" "sampler" (Some SampleProviderFiles.wheel)
      SampleFiles.empty in
  uploaded = Ok "torch-2.1+cu121.whl"
  /\ fst (files_provider_download_view (fun _ => None) "/data" SampleFiles.never (fun _ => "") (SampleProviderFiles.catalog FLEETS)
       SampleFiles.alice SampleProviderFiles.access "acme" "sampler" "torch-2.1+cu121.whl" st) = Raise file_not_found.
Proof. vm_compute. split; reflexivity. Qed.

(** On Ray the users and the providers share one directory: a user named like a provider
    writes into the provider's files through a sub-path. *)
Example user_reaches_provider_files :
  let '(uploaded, st) :=
    files_upload_view (fun _ => None) "/data" SampleFiles.never (fun _ => "") (SampleProviderFiles.catalog RAY)
      SampleProviderFiles.user_acme SampleFiles.access SampleFiles.text ["text/plain"] None "hello"
      (Some (mk_file "model.bin" "planted")) "sampler" SampleFiles.empty in
  uploaded = Ok "/data/acme/sampler/model.bin"
  /\ fst (files_provider_list_view (fun _ => None) "/data" SampleFiles.never (fun _ => "") (SampleProviderFiles.catalog RAY)
       SampleFiles.alice SampleProviderFiles.access "acme" "sampler" st) = Ok (Some ["model.bin"]).
Proof. vm_compute. split; reflexivity. Qed.
