(* ===== verification/JobEnvironment.v ===== *)
(** * The environment of a job, from the upload to its container

    The variables a function is uploaded with are stored with their tokens encrypted, the
    request's are added and encrypted when the job is created, and the runner decrypts what it
    gives to Ray: the job runs with the variables in clear. *)

From S2P Require Import Prelude PyStr Models Json ValidateArguments RunFunction UploadFunction.

Local Open Scope string_scope.
Local Open Scope list_scope.

(** [decrypt_env_vars] of [core/utils.py]: what cannot be decrypted stays as it is. *)
Definition decrypt_env_vars (decrypt_string : string -> outcome string) (env : list (string * Json)) : list (string * Json) :=
  map (fun '(key, value) =>
         (key, if contains_str "token" (lower key) then
                 match value with
                 | JStr s => match decrypt_string s with Ok plain => JStr plain | Raise _ => value end
                 | _ => value
                 end
               else value)) env.

(** ** Dictionaries *)

Definition lookup_key {V} (d : list (string * V)) (k : string) : option V :=
  snd <$> (snd <$> list_find (fun kv => kv.1 = k) d).

Lemma lookup_key_cons {V} (d : list (string * V)) k v k' :
  lookup_key ((k, v) :: d) k' = if bool_decide (k = k') then Some v else lookup_key d k'.
Proof.
  unfold lookup_key. cbn. unfold decide, bool_decide. destruct (decide_rel _ _ _); [done|].
  by destruct (list_find _ d) as [[? ?]|].
Qed.

Lemma lookup_dict_set {V} (d : list (string * V)) k v k' :
  lookup_key (dict_set d k v) k' = if bool_decide (k = k') then Some v else lookup_key d k'.
Proof.
  induction d as [|[k0 v0] d IH]; cbn [dict_set]; [by rewrite lookup_key_cons|].
  destruct (bool_decide (k0 = k)) eqn:Hk.
  - apply bool_decide_eq_true in Hk as ->. rewrite !lookup_key_cons. by destruct (bool_decide _).
  - apply bool_decide_eq_false in Hk. rewrite !lookup_key_cons, IH.
    destruct (decide (k0 = k')) as [->|]; [|by rewrite !(bool_decide_false (k0 = k'))].
    rewrite (bool_decide_true (k' = k')), bool_decide_false by done. done.
Qed.

Lemma elem_of_keys_set {V} (d : list (string * V)) k v k' : k' ∈ (dict_set d k v).*1 <-> k' = k \/ k' ∈ d.*1.
Proof.
  induction d as [|[k0 v0] d IH]; cbn [dict_set fmap list_fmap fst]; [set_solver|].
  destruct (bool_decide (k0 = k)) eqn:Hk; [apply bool_decide_eq_true in Hk as ->|]; set_solver.
Qed.

Lemma dict_set_NoDup {V} (d : list (string * V)) k v : NoDup d.*1 -> NoDup (dict_set d k v).*1.
Proof.
  induction d as [|[k0 v0] d IH]; cbn [dict_set fmap list_fmap fst]; [intros _; apply NoDup_singleton|].
  intros [Hk0 Hd]%NoDup_cons. destruct (bool_decide (k0 = k)) eqn:Hk.
  - apply bool_decide_eq_true in Hk as ->. by apply NoDup_cons.
  - apply bool_decide_eq_false in Hk. apply NoDup_cons. split; [|by apply IH]. by intros [?|?]%elem_of_keys_set.
Qed.

Lemma dict_update_NoDup {V} (d d' : list (string * V)) : NoDup d.*1 -> NoDup (dict_update d d').*1.
Proof. revert d. induction d' as [|[k v] d' IH]; intros d Hd; [done|]. cbn. by apply IH, dict_set_NoDup. Qed.

Lemma lookup_key_None {V} (d : list (string * V)) k : k ∉ d.*1 -> lookup_key d k = None.
Proof.
  induction d as [|[k0 v0] d IH]; [done|]. cbn [fmap list_fmap fst]. intros Hk. rewrite lookup_key_cons, bool_decide_false by set_solver.
  apply IH. set_solver.
Qed.

(** What the second dictionary holds wins. *)
Lemma lookup_dict_update {V} (d d' : list (string * V)) k : NoDup d'.*1 ->
  lookup_key (dict_update d d') k = match lookup_key d' k with Some v => Some v | None => lookup_key d k end.
Proof.
  revert d. induction d' as [|[k0 v0] d' IH]; intros d; [done|]. cbn [fmap list_fmap fst]. intros [Hk0 Hd']%NoDup_cons.
  change (dict_update d ((k0, v0) :: d')) with (dict_update (dict_set d k0 v0) d'). rewrite IH by done.
  rewrite lookup_key_cons, lookup_dict_set. destruct (decide (k0 = k)) as [->|].
  - rewrite !bool_decide_true by done. by rewrite lookup_key_None.
  - by rewrite !bool_decide_false by done.
Qed.

Lemma lookup_key_map {V W} (f : string -> V -> W) (d : list (string * V)) k :
  lookup_key (map (fun kv => (kv.1, f kv.1 kv.2)) d) k = f k <$> lookup_key d k.
Proof.
  induction d as [|[k0 v0] d IH]; [done|]. cbn [map fst snd]. rewrite !lookup_key_cons.
  destruct (decide (k0 = k)) as [->|]; [by rewrite !bool_decide_true|by rewrite !bool_decide_false].
Qed.

Lemma dict_set_Forall {V} (P : string * V -> Prop) (d : list (string * V)) k v : P (k, v) -> Forall P d -> Forall P (dict_set d k v).
Proof.
  intros Hk. induction 1 as [|[k0 v0] d H0 Hd IH]; cbn [dict_set]; [by repeat constructor|].
  destruct (bool_decide (k0 = k)); by constructor.
Qed.
Lemma dict_update_Forall {V} (P : string * V -> Prop) (d d' : list (string * V)) : Forall P d -> Forall P d' -> Forall P (dict_update d d').
Proof. intros Hd Hd'. revert d Hd. induction Hd' as [|[k v] d' Hk Hd' IH]; intros d Hd; [done|]. cbn. by apply IH, dict_set_Forall. Qed.

(** ** What the standard library's [json] does: a value is read back as it was written, and
    what is read is a value whose dictionaries have distinct keys. *)
Class JsonLaws (lib : Libraries) := {
  loads_dumps v text : wf v -> json_dumps lib v = Ok text -> json_loads lib text = Ok v;
  loads_wf text v : json_loads lib text = Ok v -> wf v
}.

(** ** Encrypted and decrypted dictionaries *)

Section environment.
Context (decrypt_string : string -> outcome string) (services : Services) (settings : Settings) (lib : Libraries) `{!JsonLaws lib}.
Hypothesis decrypts : forall s hidden, encrypt_string services s = Ok hidden -> decrypt_string hidden = Ok s.

Definition is_token (k : string) : bool := contains_str "token" (lower k).
Definition decrypted (k : string) (v : Json) : Json :=
  if is_token k then
    match v with
    | JStr s => match decrypt_string s with Ok plain => JStr plain | Raise _ => v end
    | _ => v
    end
  else v.

Lemma lookup_decrypted env k : lookup_key (decrypt_env_vars decrypt_string env) k = decrypted k <$> lookup_key env k.
Proof.
  rewrite <- (lookup_key_map decrypted). unfold decrypt_env_vars. f_equal. apply map_ext. by intros [k0 v0].
Qed.

Lemma encrypted_lookup env env' k : encrypt_env_vars services env = Ok env' ->
  decrypted k <$> (JStr <$> lookup_key env' k) = JStr <$> lookup_key env k.
Proof.
  revert env'. induction env as [|[k0 v0] env IH]; intros env'; cbn [encrypt_env_vars]; [by intros [= <-]|].
  destruct (if contains_str _ _ then _ else _) as [v|e] eqn:Hv; [|done].
  destruct (encrypt_env_vars services env) as [env1|e]; [|done]. intros [= <-]. rewrite !lookup_key_cons.
  case_bool_decide as Hk; [subst k0|by apply IH]. cbn. f_equal. unfold decrypted, is_token.
  destruct (contains_str _ _); [by rewrite (decrypts _ _ Hv)|by injection Hv as ->].
Qed.

Lemma encrypted_keys env env' : encrypt_env_vars services env = Ok env' -> env'.*1 = env.*1.
Proof.
  revert env'. induction env as [|[k0 v0] env IH]; intros env'; cbn [encrypt_env_vars]; [by intros [= <-]|].
  destruct (if contains_str _ _ then _ else _) as [v|e]; [|done].
  destruct (encrypt_env_vars services env) as [env1|e]; [|done]. intros [= <-]. cbn. f_equal. by apply IH.
Qed.

(** What an upload stores. *)
Definition encrypt_value (kv : string * Json) : outcome (string * Json) :=
  let '(k, v) := kv in
  if contains_str "token" (lower k) then
    match v with
    | JStr s => match encrypt_string services s with Ok s => Ok (k, JStr s) | Raise e => Raise e end
    | _ => Raise (mk_exn AttributeError "object has no attribute 'encode'")
    end
  else Ok (k, v).

Lemma encrypt_value_inv k v kv' : encrypt_value (k, v) = Ok kv' ->
  kv'.1 = k /\ decrypted k kv'.2 = v /\ (wf v -> wf kv'.2) /\ (is_token k = true -> exists s, v = JStr s).
Proof.
  unfold encrypt_value, decrypted, is_token. destruct (contains_str _ _).
  - destruct v; try done. destruct (encrypt_string services s) as [c|] eqn:Hc; [|done]. intros [= <-]. cbn.
    rewrite (decrypts _ _ Hc). repeat split; [by constructor|by eexists].
  - by intros [= <-].
Qed.

Lemma stored_lookup vars vars' : map_outcome encrypt_value vars = Ok vars' ->
  vars'.*1 = vars.*1 /\ (Forall (fun kv => wf kv.2) vars -> Forall (fun kv => wf kv.2) vars')
  /\ (forall k, decrypted k <$> lookup_key vars' k = lookup_key vars k)
  /\ (forall k v, is_token k = true -> lookup_key vars k = Some v -> exists s, v = JStr s).
Proof.
  revert vars'. induction vars as [|[k0 v0] vars IH]; intros vars'; cbn [map_outcome]; [intros [= <-]; by repeat split|].
  destruct (encrypt_value (k0, v0)) as [[k1 v1]|e] eqn:Hv; [|done].
  apply encrypt_value_inv in Hv as (Hk & Hd & Hw & Ht). cbn in Hk, Hd, Hw. subst k1.
  destruct (map_outcome encrypt_value vars) as [vars1|e]; [|done]. intros [= <-].
  destruct (IH _ eq_refl) as (Hkeys & Hwf & Hlook & Htok). cbn [fmap list_fmap fst]. split; [by rewrite Hkeys|]. split; [|split].
  - intros [? ?]%Forall_cons. constructor; auto.
  - intros k. rewrite !lookup_key_cons. case_bool_decide as Hk; [subst k0; cbn; by rewrite Hd|by apply Hlook].
  - intros k v Hk. rewrite lookup_key_cons. case_bool_decide as Hk'; [subst k0; intros [= <-]; auto|by apply Htok].
Qed.

(** The names a request's own variables have are all different. *)
Lemma build_keys data job trial_mode : NoDup (build_env_variables settings data job trial_mode).*1.
Proof.
  unfold build_env_variables. rewrite fmap_app.
  assert (forall b : bool, NoDup ((if b then ["QISKIT_IBM_INSTANCE"; "ENV_JOB_GATEWAY_INSTANCE"] else [])
     ++ ["ENV_JOB_GATEWAY_TOKEN"; "ENV_JOB_GATEWAY_HOST"; "ENV_JOB_ID_GATEWAY"; "ENV_JOB_ARGUMENTS"; "ENV_JOB_COMPUTE_PROFILE";
         "ENV_JOB_FUNCTION_SIZE"; "ENV_ACCESS_TRIAL"; "DATA_PATH"; "ARGUMENTS_PATH"; "RESULTS_PATH"; "QISKIT_IBM_TOKEN";
         "QISKIT_IBM_CHANNEL"; "QISKIT_IBM_URL"])) as Hb by (intros []; apply (bool_decide_unpack _); by vm_compute).
  rewrite (Permutation_app_comm (_ <$> _)). specialize (Hb (truthy (r_instance data))). by destruct (truthy _).
Qed.

(** The dictionary the job is saved with. *)
Definition saved_env (data : RunFunctionInput) (env' : list (string * string)) (vars' : list (string * Json)) : list (string * Json) :=
  let env := map (fun kv => (kv.1, JStr kv.2)) env' in
  dict_update
    match list_find (fun kv => kv.1 = "traceparent") (r_carrier data) with
    | Some (_, (_, v)) => dict_set env "traceparent" (JStr v)
    | None => env
    end vars'.

Lemma saved_wf data job trial_mode env' vars' :
  encrypt_env_vars services (build_env_variables settings data job trial_mode) = Ok env' ->
  Forall (fun kv => wf kv.2) vars' -> wf (JObj (saved_env data env' vars')).
Proof.
  intros He Hv. assert (NoDup (map (fun kv : string * string => (kv.1, JStr kv.2)) env').*1) as Hn.
  { replace (map _ env').*1 with (env'.*1); [rewrite (encrypted_keys _ _ He); apply build_keys|].
    clear. induction env' as [|[k v] env' IH]; [done|]. cbn. by f_equal. }
  assert (Forall (fun kv : string * Json => wf kv.2) (map (fun kv : string * string => (kv.1, JStr kv.2)) env')) as Hw
    by (clear; induction env'; constructor; [by constructor|done]).
  unfold saved_env. apply wf_obj.
  - apply dict_update_NoDup. destruct (list_find _ _) as [[? [? ?]]|]; [by apply dict_set_NoDup|done].
  - apply dict_update_Forall; [|done]. destruct (list_find _ _) as [[? [? ?]]|]; [|done]. apply dict_set_Forall; [by constructor|done].
Qed.

Lemma saved_lookup data job trial_mode env' vars vars' k :
  encrypt_env_vars services (build_env_variables settings data job trial_mode) = Ok env' ->
  map_outcome encrypt_value vars = Ok vars' -> NoDup vars.*1 -> k <> "traceparent" ->
  decrypted k <$> lookup_key (saved_env data env' vars') k
  = match lookup_key vars k with
    | Some v => Some v
    | None => JStr <$> lookup_key (build_env_variables settings data job trial_mode) k
    end.
Proof.
  intros He Hv Hn Hk. destruct (stored_lookup _ _ Hv) as (Hkeys & _ & Hlook & _).
  unfold saved_env. rewrite lookup_dict_update by by rewrite Hkeys.
  rewrite <- (Hlook k), <- (encrypted_lookup _ _ k He). destruct (lookup_key vars' k) as [v|]; [done|]. cbn. f_equal.
  rewrite <- (lookup_key_map (fun _ => JStr)). destruct (list_find _ _) as [[? [? v]]|]; [|done].
  rewrite lookup_dict_set. by rewrite bool_decide_false.
Qed.

(** The text the job is saved with is the dictionary's. *)
Lemma job_environment_text f data job trial_mode text vars stored env_text :
  json_loads lib text = Ok (JObj vars) -> encrypted_env lib services text = Ok stored ->
  program_env_vars f = stored -> stored <> "" ->
  job_environment lib settings services f data job trial_mode = Ok env_text ->
  exists env' vars', encrypt_env_vars services (build_env_variables settings data job trial_mode) = Ok env'
    /\ map_outcome encrypt_value vars = Ok vars' /\ json_loads lib env_text = Ok (JObj (saved_env data env' vars')).
Proof.
  intros Hl He Hf Hs. pose proof (loads_wf _ _ Hl) as Hw. inversion Hw as [| |m Hn Hall]; subst; [done|].
  unfold encrypted_env in He. rewrite Hl in He. change (map_outcome _ vars) with (map_outcome encrypt_value vars) in He.
  destruct (map_outcome encrypt_value vars) as [vars'|e] eqn:Hv; [|done].
  destruct (stored_lookup _ _ Hv) as (Hkeys & Hwf & _).
  assert (wf (JObj vars')) as Hw' by (apply wf_obj; [by rewrite Hkeys|auto]).
  unfold job_environment. destruct (encrypt_env_vars _ _) as [env'|e] eqn:Hb; [|done]. cbv zeta.
  rewrite bool_decide_false by done. rewrite (loads_dumps _ _ Hw' He). intros Hd. exists env', vars'. split; [done|]. split; [done|].
  apply loads_dumps; [|exact Hd]. eapply saved_wf; eauto.
Qed.


(** What the function was uploaded with, then what the request gave. *)
Definition in_clear (vars : list (string * Json)) (request : list (string * string)) (k : string) : option Json :=
  match lookup_key vars k with Some v => Some v | None => JStr <$> lookup_key request k end.

(** A job is saved with a dictionary that, decrypted, is in clear but for the carrier of the
    span; it has a gateway token. *)
Lemma saved_in_clear f data job trial_mode text vars stored env_text :
  json_loads lib text = Ok (JObj vars) -> encrypted_env lib services text = Ok stored ->
  program_env_vars f = stored -> stored <> "" ->
  job_environment lib settings services f data job trial_mode = Ok env_text ->
  let variable := in_clear vars (build_env_variables settings data job trial_mode) in
  exists saved, json_loads lib env_text = Ok (JObj saved)
    /\ (forall k, k <> "traceparent" -> decrypted k <$> lookup_key saved k = variable k)
    /\ exists token, variable "ENV_JOB_GATEWAY_TOKEN" = Some (JStr token).
Proof.
  intros Hl He Hf Hs Hj variable. pose proof (loads_wf _ _ Hl) as Hw. inversion Hw as [| |m Hn Hall]; subst; [done|].
  destruct (job_environment_text _ _ _ _ _ _ _ _ Hl He eq_refl Hs Hj) as (env' & vars' & Hb & Hv & Hload).
  eexists. split; [exact Hload|]. split; [intros k Hk; by apply saved_lookup|].
  unfold variable, in_clear. destruct (lookup_key vars _) as [v|] eqn:Hlk; [|by eexists].
  destruct (stored_lookup _ _ Hv) as (_ & _ & _ & Ht). destruct (Ht "ENV_JOB_GATEWAY_TOKEN" v eq_refl Hlk) as [s ->]. by exists s.
Qed.
End environment.

(** ** A [json] of flat dictionaries of strings, and a cipher *)

Module Flat.
Definition QUOTE : ascii := "'"%char.
Definition STOP : ascii := "."%char.

Fixpoint quoted (s rest : string) : string :=
  match s with EmptyString => String STOP rest | String c s' => String QUOTE (String c (quoted s' rest)) end.
Fixpoint written (m : list (string * string)) : string :=
  match m with [] => EmptyString | (k, v) :: m' => quoted k (quoted v (written m')) end.

Fixpoint read (acc s : string) : option (list string) :=
  match s with
  | EmptyString => Some []
  | String c s' =>
      if bool_decide (c = STOP) then cons acc <$> read "" s'
      else match s' with String c' s'' => read (acc +:+ String c' "") s'' | EmptyString => None end
  end.
Fixpoint paired (l : list string) : list (string * string) :=
  match l with k :: v :: l' => (k, v) :: paired l' | _ => [] end.

Lemma read_quoted s acc rest : read acc (quoted s rest) = cons (acc +:+ s) <$> read "" rest.
Proof.
  revert acc. induction s as [|c s IH]; intros acc; cbn [quoted read].
  - rewrite bool_decide_true by done. by rewrite app_empty_r.
  - rewrite bool_decide_false by done. rewrite IH. by rewrite str_app_assoc.
Qed.

Lemma read_written m : paired <$> read "" (written m) = Some m.
Proof.
  induction m as [|[k v] m IH]; [done|]. cbn [written]. rewrite !read_quoted. destruct (read "" (written m)) as [l|]; [|done].
  cbn in *. by injection IH as ->.
Qed.

Definition strings (m : list (string * Json)) : option (list (string * string)) :=
  mapM (fun kv => match kv.2 with JStr s => Some (kv.1, s) | _ => None end) m.
Definition json_of (m : list (string * string)) : list (string * Json) := map (fun kv => (kv.1, JStr kv.2)) m.

Definition dumps (v : Json) : outcome string :=
  match v with
  | JObj m => match strings m with Some l => Ok (String "{" (written l)) | None => Raise (mk_exn TypeError "not serializable") end
  | _ => Raise (mk_exn TypeError "not serializable")
  end.
Definition loads (text : string) : outcome Json :=
  match text with
  | String _ text =>
      match paired <$> read "" text with
      | Some l => if decide (NoDup (json_of l).*1) then Ok (JObj (json_of l)) else Raise (mk_exn ValueError "duplicate")
      | None => Raise (mk_exn ValueError "malformed")
      end
  | EmptyString => Raise (mk_exn ValueError "empty")
  end.

Lemma strings_json m l : strings m = Some l -> json_of l = m.
Proof.
  unfold strings. rewrite mapM_Some. unfold json_of. induction 1 as [|[k []] [k' s'] m l H Hm IH]; try done. cbn in *. by simplify_eq/=; f_equal.
Qed.

Definition lib : Libraries :=
  mk_libraries dumps loads (fun _ => "") (fun _ => "Error") (fun _ _ _ => Matches) (fun _ => Ok tt).

#[global] Instance lib_laws : JsonLaws lib.
Proof.
  split; cbn.
  - intros v text Hv. destruct v as [| | | | |m]; try done. cbn. inversion Hv as [| |? Hn _]; subst; [done|].
    destruct (strings m) as [l|] eqn:Hl; [|done]. intros [= <-]. unfold loads. rewrite read_written.
    rewrite (strings_json _ _ Hl). by rewrite decide_True.
  - intros text v. unfold loads. destruct text as [|c text]; [done|]. destruct (paired <$> read "" text) as [l|]; [|done].
    destruct (decide _) as [Hn|]; [|done]. intros [= <-]. apply wf_obj; [done|]. unfold json_of.
    clear. induction l; constructor; [by constructor|done].
Qed.

Definition cipher (s : string) : string := String "#" s.
Definition services : Services :=
  mk_services (fun s => Ok (cipher s)) (fun _ => Ok tt) (Ok tt) (Ok tt) (fun _ => Ok tt) (Ok tt).
Definition decipher (s : string) : outcome string :=
  match s with String _ s => Ok s | EmptyString => Raise (mk_exn ValueError "invalid token") end.
End Flat.

