(* ===== verification/RayLogs.v ===== *)
(** * The logs of a Ray job ([core/services/runners/ray_runner.py])

    The Ray dashboard answers one JSON object whose only string is the whole log. The runner
    streams it: it looks for the opening of the value, cuts the lines at the escaped newlines
    as the chunks arrive, decodes each and keeps the last of them, public and private apart.

    A byte is a number below 256, a [str] the list of its code points. *)

From stdpp Require Import pretty.
From S2P Require Import Prelude PyStr Domain Models.

Local Open Scope list_scope.
Local Open Scope Z_scope.

Abbreviation Bytes := (list Z).
Abbreviation Line := (list Z).

(** The code points of an ASCII literal. *)
Fixpoint text (s : string) : list Z :=
  match s with
  | EmptyString => []
  | String c s' => Z.of_nat (Ascii.nat_of_ascii c) :: text s'
  end.

Definition QUOTE : Z := 34.
Definition BACKSLASH : Z := 92.

(** ** [bytes.find], [bytes.rstrip], [bytes.endswith] *)

Fixpoint is_prefix (p b : list Z) : bool :=
  match p, b with
  | [], _ => true
  | x :: p', y :: b' => (x =? y) && is_prefix p' b'
  | _ :: _, [] => false
  end.

Fixpoint find (p b : list Z) : option nat :=
  if is_prefix p b then Some 0%nat
  else match b with
       | [] => None
       | _ :: b' => S <$> find p b'
       end.

Definition rstrip_bytes (cut : list Z) (b : Bytes) : Bytes :=
  rev ((fix strip (r : Bytes) : Bytes :=
          match r with
          | x :: r' => if bool_decide (x ∈ cut) then strip r' else r
          | [] => []
          end) (rev b)).

Definition endswith (suffix b : Bytes) : bool := is_prefix (rev suffix) (rev b).
Definition removesuffix (n : nat) (b : Bytes) : Bytes := take (length b - n) b.

(** ** [bytes.decode("utf-8")] *)

Definition continuation (b : Z) : option Z := if (128 <=? b) && (b <? 192) then Some (b - 128) else None.

(** With the error handler [surrogatepass], the one [json.loads] uses. *)
Fixpoint utf8_decode (b : Bytes) : option (list Z) :=
  match b with
  | [] => Some []
  | b0 :: rest =>
      if (0 <=? b0) && (b0 <? 128) then cons b0 <$> utf8_decode rest
      else match rest with
           | b1 :: rest1 =>
               c1 ← continuation b1;
               if (194 <=? b0) && (b0 <? 224) then cons ((b0 - 192) * 64 + c1) <$> utf8_decode rest1
               else match rest1 with
                    | b2 :: rest2 =>
                        c2 ← continuation b2;
                        if (224 <=? b0) && (b0 <? 240) then
                          let c := (b0 - 224) * 4096 + c1 * 64 + c2 in
                          if 2048 <=? c then cons c <$> utf8_decode rest2 else None
                        else match rest2 with
                             | b3 :: rest3 =>
                                 c3 ← continuation b3;
                                 let c := (b0 - 240) * 262144 + c1 * 4096 + c2 * 64 + c3 in
                                 if (240 <=? b0) && (b0 <? 245) && (65536 <=? c) && (c <? 1114112)
                                 then cons c <$> utf8_decode rest3 else None
                             | [] => None
                             end
                    | [] => None
                    end
           | [] => None
           end
  end.

Definition high_surrogate (c : Z) : bool := (55296 <=? c) && (c <? 56320).
Definition low_surrogate (c : Z) : bool := (56320 <=? c) && (c <? 57344).

(** [errors="replace"]: of the bytes [utf8_decode] accepts, the three of a surrogate are the
    ones that are not valid, each replaced. *)
Definition utf8_replace (cs : list Z) : list Z :=
  cs ≫= (fun c => if high_surrogate c || low_surrogate c then [65533; 65533; 65533] else [c]).

(** ** [json.loads] of a string *)

Definition hex_value (c : Z) : option Z :=
  if (48 <=? c) && (c <=? 57) then Some (c - 48)
  else if (65 <=? c) && (c <=? 70) then Some (c - 55)
  else if (97 <=? c) && (c <=? 102) then Some (c - 87)
  else None.
Definition hex4 (a b c d : Z) : option Z :=
  a ← hex_value a; b ← hex_value b; c ← hex_value c; d ← hex_value d;
  Some (a * 4096 + b * 256 + c * 16 + d).

Definition simple_escape (c : Z) : option Z :=
  match c with
  | 34 => Some 34     (* quote *)
  | 92 => Some 92     (* backslash *)
  | 47 => Some 47     (* slash *)
  | 98 => Some 8
  | 102 => Some 12
  | 110 => Some 10
  | 114 => Some 13
  | 116 => Some 9
  | _ => None
  end.

Definition push (x : Z) (r : option (list Z * list Z)) : option (list Z * list Z) := prod_map (cons x) Datatypes.id <$> r.

(** The characters up to the closing quote, and what follows it. Two escapes that make a
    surrogate pair are one character. *)
Fixpoint scan_string (cs : list Z) : option (list Z * list Z) :=
  match cs with
  | [] => None
  | x :: rest =>
      if x =? QUOTE then Some ([], rest)
      else if x =? BACKSLASH then
        match rest with
        | [] => None
        | e :: rest1 =>
            if e =? 117 then
              match rest1 with
              | a :: b :: c :: d :: rest2 =>
                  u ← hex4 a b c d;
                  match rest2 with
                  | y :: z :: a' :: b' :: c' :: d' :: rest3 =>
                      if high_surrogate u && (y =? BACKSLASH) && (z =? 117) then
                        v ← hex4 a' b' c' d';
                        if low_surrogate v then push (65536 + (u - 55296) * 1024 + (v - 56320)) (scan_string rest3)
                        else push u (scan_string rest2)
                      else push u (scan_string rest2)
                  | _ => push u (scan_string rest2)
                  end
              | _ => None
              end
            else v ← simple_escape e; push v (scan_string rest1)
        end
      else if x <? 32 then None
      else push x (scan_string rest)
  end.

Definition unicode_error : exn := mk_exn UnicodeDecodeError "'utf-8' codec can't decode bytes".

(** [_decode_json_string]: only a [JSONDecodeError] falls back on the plain decoding. Of a segment
    that begins with a raw NUL [json.detect_encoding] thinks it is UTF-16, which is left out: a JSON text has no raw
    NUL, Ray writes it as an escape. *)
Definition _decode_json_string (data : Bytes) : outcome Line :=
  match utf8_decode data with
  | None => Raise unicode_error
  | Some cs =>
      match scan_string (cs ++ [QUOTE]) with
      | Some (line, []) => Ok line
      | _ => Ok (utf8_replace cs)
      end
  end.

(** ** The buffer *)

Definition _LOG_VALUE_MARKER : Bytes := QUOTE :: text "logs" ++ [QUOTE; 58; 32; QUOTE].
Definition _JSON_ENCODED_NL : Bytes := [BACKSLASH; 110].

Definition _seek_log_marker (buffer : Bytes) : bool * Bytes :=
  match find _LOG_VALUE_MARKER buffer with
  | None =>
      let keep := (length _LOG_VALUE_MARKER - 1)%nat in
      (false, if (keep <? length buffer)%nat then drop (length buffer - keep) buffer else buffer)
  | Some idx => (true, drop (idx + length _LOG_VALUE_MARKER) buffer)
  end.

Section consume.
Context {S : Type} (on_line : Line -> S -> S).

(** [_consume_logs]: the callback works on the state [s]. *)
Fixpoint consume (fuel : nat) (buffer : Bytes) (s : S) : outcome (Bytes * S) :=
  match fuel with
  | O => Ok (buffer, s)
  | Datatypes.S fuel =>
      match find _JSON_ENCODED_NL buffer with
      | None => Ok (buffer, s)
      | Some nl =>
          match _decode_json_string (take nl buffer) with
          | Raise e => Raise e
          | Ok line => consume fuel (drop (nl + 2) buffer) (on_line line s)
          end
      end
  end.
Definition _consume_logs (buffer : Bytes) (s : S) : outcome (Bytes * S) := consume (length buffer) buffer s.
End consume.

(** ** The two streams *)

(** The [while] that drops the oldest lines. *)
Fixpoint shrink (max_chars : Z) (lines : list Line) (chars : Z) : list Line * Z * bool :=
  match lines with
  | line :: rest =>
      if max_chars <? chars then
        let '(kept, chars', _) := shrink max_chars rest (chars - Z.of_nat (length line)) in (kept, chars', true)
      else (lines, chars, false)
  | [] => ([], chars, false)
  end.

Definition _append_bounded (line : Line) (lines : list Line) (chars max_chars : Z) : list Line * Z * bool :=
  shrink max_chars (lines ++ [line]) (chars + Z.of_nat (length line)).

Record LogStream := mk_stream { s_lines : list Line; s_chars : Z; s_truncated : bool }.

Definition append (max_chars : Z) (line : Line) (s : LogStream) : LogStream :=
  let '(lines, chars, t) := _append_bounded line (s_lines s) (s_chars s) max_chars in
  mk_stream lines chars (s_truncated s || t).

(** [re.IGNORECASE] on a capital letter of the two prefixes: an I also matches the dotted
    capital and the dotless small one. *)
Definition matches_letter (pattern c : Z) : bool :=
  (c =? pattern) || ((65 <=? pattern) && (pattern <=? 90) && (c =? pattern + 32))
  || ((pattern =? 73) && ((c =? 304) || (c =? 305))).
Fixpoint matches_prefix (pattern line : Line) : bool :=
  match pattern, line with
  | [], _ => true
  | p :: pattern', c :: line' => matches_letter p c && matches_prefix pattern' line'
  | _ :: _, [] => false
  end.

Definition is_pub : Line -> bool := matches_prefix (text "[PUBLIC]").
Definition is_priv : Line -> bool := matches_prefix (text "[PRIVATE]").

Section stream.
Context (is_provider : bool) (max_chars : Z).

(** [dispatch]: the public stream and the private one. *)
Definition dispatch (raw_line : Line) (st : LogStream * LogStream) : LogStream * LogStream :=
  let '(public, private) := st in
  if is_provider then
    if is_pub raw_line then (append max_chars (drop 9 raw_line) public, private)
    else (public, append max_chars (if is_priv raw_line then drop 10 raw_line else raw_line) private)
  else
    (append max_chars (if is_pub raw_line then drop 9 raw_line
                       else if is_priv raw_line then drop 10 raw_line else raw_line) public, private).

(** The chunks, with what the loop keeps: the buffer, whether the value has begun, the
    streams. *)
Fixpoint stream_chunks (chunks : list Bytes) (buffer : Bytes) (in_logs_value : bool)
    (st : LogStream * LogStream) : outcome (Bytes * bool * (LogStream * LogStream)) :=
  match chunks with
  | [] => Ok (buffer, in_logs_value, st)
  | [] :: chunks => stream_chunks chunks buffer in_logs_value st
  | chunk :: chunks =>
      let buffer := buffer ++ chunk in
      let '(in_logs_value, buffer) := if in_logs_value then (true, buffer) else _seek_log_marker buffer in
      if in_logs_value then
        match _consume_logs dispatch buffer st with
        | Raise e => Raise e
        | Ok (buffer, st) => stream_chunks chunks buffer true st
        end
      else stream_chunks chunks buffer false st
  end.

(** What is left once the body ended: the last line and the end of the JSON. *)
Definition trim_tail (buffer : Bytes) : Bytes :=
  let tail := rstrip_bytes [13; 10; 32] buffer in
  if endswith [QUOTE; 125] tail then removesuffix 2 tail
  else if endswith [QUOTE] tail then removesuffix 1 tail
  else tail.

Definition last_line (buffer : Bytes) (st : LogStream * LogStream) : outcome (LogStream * LogStream) :=
  match trim_tail buffer with
  | [] => Ok st
  | tail =>
      match _decode_json_string tail with
      | Raise e => Raise e
      | Ok [] => Ok st
      | Ok raw_line => Ok (dispatch raw_line st)
      end
  end.

(** [f"{max_chars / (1024 ** 2):.0f}"]: to the nearest, a half to the even one. *)
Definition megabytes (n : Z) : Z :=
  let q := n / 1048576 in
  let r := n mod 1048576 in
  if (r <? 524288) || ((r =? 524288) && Z.even q) then q else q + 1.

Definition truncation_msg : Line :=
  text "[Logs exceeded maximum allowed size (" ++ text (pretty (megabytes max_chars))
  ++ text " MB). Logs have been truncated, discarding the oldest entries first.]".

Definition with_notice (s : LogStream) : list Line := if s_truncated s then truncation_msg :: s_lines s else s_lines s.

Record FilteredLogs := mk_logs { public_logs : list Line; private_logs : option (list Line) }.

Definition empty_stream : LogStream := mk_stream [] 0 false.

Definition stream_logs (chunks : list Bytes) : outcome FilteredLogs :=
  match stream_chunks chunks [] false (empty_stream, empty_stream) with
  | Raise e => Raise e
  | Ok (buffer, _, st) =>
      match last_line buffer st with
      | Raise e => Raise e
      | Ok (public, private) =>
          Ok (mk_logs (with_notice public) (if is_provider then Some (with_notice private) else None))
      end
  end.
End stream.
