(* ===== verification/KafkaConsumer.v ===== *)
(** * Consuming events ([core/ibm_cloud/event_streams/{regions,kafka_consumer}.py],
    [scheduler/tasks/consume_blocked_account_events.py])

    One consumer per region, drained within a tick: each message is handed to the handler,
    what is finished is committed, what failed is rewound. The [Consumer] of confluent_kafka
    is a parameter: its calls are computations over a state of its own. *)

From S2P Require Import Prelude PyStr Domain Models World Blocked Json RayLogs.

Local Open Scope string_scope.
Local Open Scope list_scope.
Local Open Scope Z_scope.

(** ** Regions *)

Record RegionConfig := mk_region_config { bootstrap_servers : string; api_key : string; kafka_user : string }.
Record EventStreamsSettings := mk_event_streams {
  EVENT_STREAMS_ENABLED : bool;
  EVENT_STREAMS_MAIN_REGION : string;
  EVENT_STREAMS_BOOTSTRAP_SERVERS : string;
  EVENT_STREAMS_API_KEY : string;
  EVENT_STREAMS_USER : string;
  EVENT_STREAMS_REGIONS : list (string * RegionConfig);
  ENVIRONMENT : string
}.

(** The main region first; a region declared again keeps its place and takes the new value. *)
Definition region_configs (settings : EventStreamsSettings) : list (string * RegionConfig) :=
  foldl (fun d kv => d_set kv.1 kv.2 d)
    [(EVENT_STREAMS_MAIN_REGION settings,
      mk_region_config (EVENT_STREAMS_BOOTSTRAP_SERVERS settings) (EVENT_STREAMS_API_KEY settings) (EVENT_STREAMS_USER settings))]
    (EVENT_STREAMS_REGIONS settings).

Definition sasl_config (config : RegionConfig) : list (string * Json) :=
  [("bootstrap.servers", JStr (bootstrap_servers config));
   ("security.protocol", JStr "SASL_SSL");
   ("sasl.mechanisms", JStr "PLAIN");
   ("sasl.username", JStr (kafka_user config));
   ("sasl.password", JStr (api_key config))].

(** ** What confluent_kafka hands out *)

Record KafkaError := mk_kafka_error { fatal : bool; kafka_code : string }.
Definition TopicPartition : Type := string * Z.
Record Message := mk_message {
  msg_error : option KafkaError;
  msg_topic : string;
  msg_partition : Z;
  msg_offset : Z;
  msg_value : option Bytes
}.
Definition msg_tp (m : Message) : TopicPartition := (msg_topic m, msg_partition m).

(** The callbacks served inside [consume]: [error_cb], and [on_commit] with its error and
    whether a partition of it failed. *)
Inductive Callback :=
  | ErrorCb (error : KafkaError)
  | CommitCb (error : option KafkaError) (some_failed : bool).

(** [consume] serves callbacks, then raises [KafkaException(error)], raises something else or
    answers messages; the other calls raise or answer. *)
Record Confluent (B H : Type) := mk_confluent {
  Consumer : list (string * Json) -> M B H;
  subscribe : H -> list string -> M B unit;
  consume : H -> nat -> B -> list Callback * outcome (KafkaError + list Message) * B;
  seek : H -> TopicPartition -> Z -> M B unit;
  commit : H -> list (TopicPartition * Z) -> M B unit;
  position_of_assignment : H -> M B (list (TopicPartition * Z));
  get_watermark_offsets : H -> TopicPartition -> M B Z;           (* the high one *)
  close_consumer : H -> M B unit
}.
Arguments Consumer {B H}. Arguments subscribe {B H}. Arguments consume {B H}. Arguments seek {B H}. Arguments commit {B H}.
Arguments position_of_assignment {B H}. Arguments get_watermark_offsets {B H}. Arguments close_consumer {B H}.

Definition MAX_MESSAGES_PER_REGION_PER_TICK : nat := 100.
Definition HANDLED : string := "handled".
Definition INVALID : string := "invalid".
Definition RETRY : string := "retry".
Definition CONSUMER_ERROR : string := "consumer_error".
Definition COMMIT_ERROR : string := "commit_error".
Definition FATAL : string := "fatal".

(** Two counters, keyed by region and outcome, and by region and topic. *)
Record DrainStats := mk_stats { counts : list ((string * string) * Z); lag : list ((string * string) * Z) }.
Definition no_stats : DrainStats := mk_stats [] [].
Definition counter_add (k : string * string) (n : Z) (c : list ((string * string) * Z)) : list ((string * string) * Z) :=
  d_set k (default 0 (d_get k c) + n) c.

Definition is_kafka_exception (e : exn) : bool := isinstance e KafkaException.

Section consumer.
Context {B H : Type} (bus : Confluent B H) (settings : EventStreamsSettings).
Context (json_loads : Bytes -> outcome Json).
Context (topics : list string) (group_id : string).
(** The handler; the key it is also given only reaches the texts it logs and raises. *)
Context (handler : list (string * Json) -> string -> string -> Py unit).

(** The process, the broker client and the fields of the object. *)
Record Regional := mk_regional {
  kc_world : World;
  kc_bus : B;
  _consumers : list (string * H);
  _fatal_regions : gset string;
  _failing_regions : gset string;
  _stats : DrainStats
}.
Abbreviation Kc := (M Regional).

Definition in_process {A} (m : Py A) : Kc A :=
  fun k => let '(o, w) := m (kc_world k) in (o, mk_regional w (kc_bus k) (_consumers k) (_fatal_regions k) (_failing_regions k) (_stats k)).
Definition on_bus {A} (m : M B A) : Kc A :=
  fun k => let '(o, b) := m (kc_bus k) in (o, mk_regional (kc_world k) b (_consumers k) (_fatal_regions k) (_failing_regions k) (_stats k)).
Definition set_consumers (v : list (string * H)) (k : Regional) : Regional :=
  mk_regional (kc_world k) (kc_bus k) v (_fatal_regions k) (_failing_regions k) (_stats k).
Definition set_fatal (v : gset string) (k : Regional) : Regional :=
  mk_regional (kc_world k) (kc_bus k) (_consumers k) v (_failing_regions k) (_stats k).
Definition set_failing (v : gset string) (k : Regional) : Regional :=
  mk_regional (kc_world k) (kc_bus k) (_consumers k) (_fatal_regions k) v (_stats k).
Definition set_stats (v : DrainStats) (k : Regional) : Regional :=
  mk_regional (kc_world k) (kc_bus k) (_consumers k) (_fatal_regions k) (_failing_regions k) v.

Definition stats_add (region outcome : string) : Kc unit :=
  modify (fun k => set_stats (mk_stats (counter_add (region, outcome) 1 (counts (_stats k))) (lag (_stats k))) k).
Definition lag_add (region topic : string) (n : Z) : Kc unit :=
  modify (fun k => set_stats (mk_stats (counts (_stats k)) (counter_add (region, topic) n (lag (_stats k)))) k).

(** ** The consumers of the regions *)

Definition _on_kafka_error (region : string) (error : KafkaError) : Kc unit :=
  if fatal error then stats_add region FATAL ;;; modify (fun k => set_fatal (_fatal_regions k ∪ {[region]}) k)
  else stats_add region CONSUMER_ERROR.
Definition _on_commit (region : string) (error : option KafkaError) (some_failed : bool) : Kc unit :=
  match error, some_failed with
  | None, false => ret tt
  | _, _ => stats_add region COMMIT_ERROR
  end.
Definition serve (region : string) (callback : Callback) : Kc bool :=
  match callback with
  | ErrorCb error => _on_kafka_error region error
  | CommitCb error some_failed => _on_commit region error some_failed
  end ;;; ret true.

Definition _close_quietly (consumer : H) : Kc unit := try_except (on_bus (close_consumer bus consumer)) (fun _ => Some (ret tt)).
Definition _discard_consumer (region : string) : Kc unit :=
  k <- get ;;
  match d_get region (_consumers k) with
  | Some consumer => modify (fun k => set_consumers (d_del region (_consumers k)) k) ;;; _close_quietly consumer
  | None => ret tt
  end.

Definition _consumer_config (region : string) : outcome (list (string * Json)) :=
  match d_get region (region_configs settings) with
  | None => Raise (mk_exn KeyError region)
  | Some config =>
      Ok (sasl_config config
          ++ [("group.id", JStr group_id); ("enable.auto.commit", JBool false);
              ("enable.auto.offset.store", JBool false); ("auto.offset.reset", JStr "earliest")])
  end.

Definition _get_or_create_consumer (region : string) : Kc (option H) :=
  k <- get ;;
  match d_get region (_consumers k) with
  | Some consumer => ret (Some consumer)
  | None =>
      let failed := stats_add region CONSUMER_ERROR ;;; modify (fun k => set_failing (_failing_regions k ∪ {[region]}) k) in
      consumer <- try_except (config <- of_outcome (_consumer_config region) ;; c <- on_bus (Consumer bus config) ;; ret (Some c))
                    (fun _ => Some (failed ;;; ret None)) ;;
      match consumer with
      | None => ret None
      | Some consumer =>
          try_except
            (on_bus (subscribe bus consumer topics) ;;;
             modify (fun k => set_failing (_failing_regions k ∖ {[region]}) k) ;;;
             modify (fun k => set_consumers (d_set region consumer (_consumers k)) k) ;;;
             ret (Some consumer))
            (fun _ => Some (failed ;;; _close_quietly consumer ;;; ret None))
      end
  end.

(** ** One message *)

Definition _deserialize (value : option Bytes) : outcome (list (string * Json)) :=
  match value with
  | None => Raise (invalid_event "payload is empty")
  | Some value =>
      match json_loads value with
      | Raise e => if isinstance e ValueError then Raise (invalid_event ("payload is not valid JSON: " +:+ exn_str e)) else Raise e
      | Ok (JObj payload) => Ok payload
      | Ok _ => Raise (invalid_event "payload is not an object")
      end
  end.

(** What the handler's failure is, when trying again may help. *)
Definition _handle (msg : Message) (region : string) : Kc (option exn) :=
  try_except
    (payload <- of_outcome (_deserialize (msg_value msg)) ;;
     in_process (handler payload region (msg_topic msg)) ;;;
     stats_add region HANDLED ;;;
     ret None)
    (fun e => if isinstance e InvalidEventError then Some (stats_add region INVALID ;;; ret None)
              else Some (stats_add region RETRY ;;; ret (Some e))).

(** The first offset of each partition among the messages. *)
Fixpoint first_offsets (messages : list Message) (d : list (TopicPartition * Z)) : list (TopicPartition * Z) :=
  match messages with
  | [] => d
  | msg :: rest =>
      first_offsets rest
        (match msg_error msg, d_get (msg_tp msg) d with
         | None, None => d_set (msg_tp msg) (msg_offset msg) d
         | _, _ => d
         end)
  end.
Definition _rewind (consumer : H) (remaining : list Message) : Kc unit :=
  for_each (first_offsets remaining [])
    (fun '(tp, offset) =>
       try_except (on_bus (seek bus consumer tp offset)) (fun e => if is_kafka_exception e then Some (ret tt) else None) ;;;
       ret true).

Definition _commit (consumer : H) (region : string) (done : list (TopicPartition * Z)) : Kc unit :=
  match done with
  | [] => ret tt
  | _ =>
      try_except (on_bus (commit bus consumer done))
        (fun e => if is_kafka_exception e then Some (stats_add region COMMIT_ERROR) else None)
  end.

Definition _measure_lag (consumer : H) (region : string) : Kc unit :=
  for_each topics (fun topic => lag_add region topic 0 ;;; ret true) ;;;
  partitions <- try_except (p <- on_bus (position_of_assignment bus consumer) ;; ret (Some p))
                  (fun e => if is_kafka_exception e then Some (ret None) else None) ;;
  for_each (default [] partitions)
    (fun '(tp, offset) =>
       (if offset <? 0 then ret tt
        else
          high <- try_except (h <- on_bus (get_watermark_offsets bus consumer tp) ;; ret (Some h))
                    (fun e => if is_kafka_exception e then Some (ret None) else None) ;;
          match high with
          | Some high => if 0 <=? high then lag_add region tp.1 (Z.max (high - offset) 0) else ret tt
          | None => ret tt
          end) ;;;
       ret true).

(** ** One region *)

Fixpoint handle_batch (consumer : H) (region : string) (messages : list Message) (done : list (TopicPartition * Z))
    : Kc (list (TopicPartition * Z) * option exn) :=
  match messages with
  | [] => ret (done, None)
  | msg :: rest =>
      stopping <- in_process kill_received ;;
      if stopping : bool then ret (done, None)
      else
        match msg_error msg with
        | Some error =>
            _on_kafka_error region error ;;;
            if fatal error then ret (done, None) else handle_batch consumer region rest done
        | None =>
            failure <- _handle msg region ;;
            match failure with
            | Some e => _rewind consumer (msg :: rest) ;;; ret (done, Some e)
            | None => handle_batch consumer region rest (d_set (msg_tp msg) (msg_offset msg + 1) done)
            end
        end
  end.

(** [consume], with the callbacks it serves. *)
Definition consume_now (consumer : H) (region : string) : Kc (KafkaError + list Message) :=
  fun k =>
    let '(callbacks, answer, b) := consume bus consumer MAX_MESSAGES_PER_REGION_PER_TICK (kc_bus k) in
    (for_each callbacks (serve region) ;;; of_outcome answer)
      (mk_regional (kc_world k) b (_consumers k) (_fatal_regions k) (_failing_regions k) (_stats k)).

Definition _drain_region (region : string) : Kc (option exn) :=
  k <- get ;;
  (if bool_decide (region ∈ _fatal_regions k) then
     modify (fun k => set_fatal (_fatal_regions k ∖ {[region]}) k) ;;; _discard_consumer region
   else ret tt) ;;;
  consumer <- _get_or_create_consumer region ;;
  match consumer with
  | None => ret None
  | Some consumer =>
      answer <- consume_now consumer region ;;
      match answer with
      | inl error => _on_kafka_error region error ;;; ret None
      | inr messages =>
          result <- handle_batch consumer region messages [] ;;
          _commit consumer region result.1 ;;;
          _measure_lag consumer region ;;;
          ret result.2
      end
  end.

(** ** All of them *)

Fixpoint drain_regions (regions : list string) (failure : option exn) : Kc (option exn) :=
  match regions with
  | [] => ret failure
  | region :: regions =>
      stopping <- in_process kill_received ;;
      if stopping : bool then ret failure
      else
        region_failure <- _drain_region region ;;
        drain_regions regions (match failure with Some _ => failure | None => region_failure end)
  end.

(** The caller's statistics are the object's during the drain: what they hold at its end is
    answered with its outcome. *)
Definition drain (stats : DrainStats) : Regional -> (outcome unit * DrainStats) * Regional :=
  fun k =>
    let '(o, k') := (failure <- drain_regions (fst <$> region_configs settings) None ;;
                     match failure with Some e => raise e | None => ret tt end) (set_stats stats k) in
    ((o, _stats k'), set_stats no_stats k').

Definition close_all : Kc unit :=
  k <- get ;;
  for_each (fst <$> _consumers k) (fun region => _discard_consumer region ;;; ret true).
End consumer.
Arguments mk_regional {B H}. Arguments kc_world {B H}. Arguments kc_bus {B H}. Arguments _consumers {B H}.
Arguments _fatal_regions {B H}. Arguments _failing_regions {B H}. Arguments _stats {B H}.

(** ** The task *)

Section task.
Context {B H : Type} (bus : Confluent B H) (settings : EventStreamsSettings).
Context (json_loads : Bytes -> outcome Json).

(** [payload.get(field)]. *)
Definition event_payload (payload : list (string * Json)) : EventPayload := fun field =>
  match d_get field payload with
  | None | Some JNull => FieldNone
  | Some (JStr s) => FieldStr s
  | Some (JBool b) => FieldBool b
  | Some _ => FieldOther
  end.

Definition topic_reasons : list (string * BlockReason) := blocked_accounts_topics (ENVIRONMENT settings).
Definition blocked_events_handler (payload : list (string * Json)) (region topic : string) : Py unit :=
  handle topic_reasons (event_payload payload) region topic.
Definition blocked_events_group : string := "qiskit-serverless-scheduler-blocked-accounts-" +:+ ENVIRONMENT settings.

Definition _EVENT_OUTCOMES : list (string * string) := [(HANDLED, "handled"); (INVALID, "invalid"); (RETRY, "retry")].
Definition _ERROR_KINDS : list (string * string) := [(CONSUMER_ERROR, "consumer"); (COMMIT_ERROR, "commit"); (FATAL, "fatal")].

Definition report_count (c : (string * string) * Z) : list Metric :=
  let '((region, outcome), count) := c in
  match d_get outcome _EVENT_OUTCOMES, d_get outcome _ERROR_KINDS with
  | Some name, _ => [BlockedAccountEvent region name count]
  | None, Some kind => [BlockedAccountConsumerError region kind count]
  | None, None => []
  end.
Definition _report (stats : DrainStats) : Py unit :=
  for_each ((counts stats ≫= report_count) ++ ((fun '((region, topic), n) => BlockedAccountConsumerLag region topic n) <$> lag stats))
    (fun m => count_metric m ;;; ret true).

Definition consume_blocked_run : M (Regional (B := B) (H := H)) unit :=
  if negb (EVENT_STREAMS_ENABLED settings) then ret tt
  else fun k =>
    let '((o, stats), k') :=
      drain bus settings json_loads (fst <$> topic_reasons) blocked_events_group blocked_events_handler no_stats k in
    let '(o', w) := _report stats (kc_world k') in
    (match o' with Ok _ => o | Raise e => Raise e end,
     mk_regional w (kc_bus k') (_consumers k') (_fatal_regions k') (_failing_regions k') (_stats k')).
End task.
