(* ===== verification/KafkaConsumerProps.v ===== *)
(** * Correctness of the consumer

    Delivery is at least once: nothing is committed, or passed over by the position of a
    consumer, that was not finished; and a mirror that is fed its events more than once ends
    as if each had come once. *)

From S2P Require Import Prelude PyStr Domain Models World Blocked Schedule Json RayLogs KafkaConsumer Samples.

Local Open Scope string_scope.
Local Open Scope list_scope.
Local Open Scope Z_scope.

(** ** What the broker client documents *)

(** The messages of a batch on a partition. *)
Definition on_tp (tp : TopicPartition) (ms : list Message) : list Message := filter (fun m => msg_error m = None /\ msg_tp m = tp) ms.

(** A view of the client: the cluster a configuration or a consumer belongs to, the record of
    a partition at an offset, the offsets a consumer of the group may be started from, the
    next offset a consumer fetches from a partition it holds, and the consumers that exist. *)
Record View (B H C : Type) := mk_view {
  cluster_of : list (string * Json) -> C;
  cluster : H -> C;
  record_at : C -> TopicPartition -> Z -> option Message;
  resume : B -> C -> TopicPartition -> Z -> Prop;
  fetch : B -> H -> TopicPartition -> option Z;
  opened : B -> H -> Prop
}.
Arguments cluster_of {B H C}. Arguments cluster {B H C}. Arguments record_at {B H C}. Arguments resume {B H C}.
Arguments fetch {B H C}. Arguments opened {B H C}.

Section laws.
Context {B H C : Type} (bus : Confluent B H) (v : View B H C).

(** What the batch holds of a partition, from [s] up to [q]: every record there is, in order. *)
Record delivered (c : C) (tp : TopicPartition) (s q : Z) (ms : list Message) : Prop := {
  in_order : StronglySorted (fun m m' => msg_offset m < msg_offset m') (on_tp tp ms);
  in_range : Forall (fun m => s <= msg_offset m < q) (on_tp tp ms);
  complete o m : s <= o < q -> record_at v c tp o = Some m -> m ∈ on_tp tp ms
}.

(** Nothing is started from a new offset and no position moves, though partitions may be lost. *)
Record calm (b b' : B) : Prop := {
  calm_resume c tp q : resume v b' c tp q -> resume v b c tp q;
  calm_fetch h tp q : fetch v b' h tp = Some q -> fetch v b h tp = Some q;
  calm_opened h : opened v b h -> opened v b' h
}.
(** The same, but for the positions of [h]. *)
Record calm_but (h : H) (b b' : B) : Prop := {
  but_resume c tp q : resume v b' c tp q -> resume v b c tp q;
  but_fetch h' tp q : h' <> h -> fetch v b' h' tp = Some q -> fetch v b h' tp = Some q;
  but_opened h' : opened v b h' -> opened v b' h'
}.

Definition starts (b : B) (h : H) (tp : TopicPartition) (s : Z) : Prop := fetch v b h tp = Some s \/ resume v b (cluster v h) tp s.
Definition batch (a : outcome (KafkaError + list Message)) : list Message := match a with Ok (inr ms) => ms | _ => [] end.

(** [consume] answers each partition from where its consumer is, or from an offset the group
    may start at when the partition was just assigned; [commit] may take effect at any time,
    failing or not; [seek] raises [KafkaException] for a partition that is not held. *)
Class BrokerLaws : Prop := {
  record_offset c tp o m : record_at v c tp o = Some m -> msg_offset m = o;
  consumer_law config b : match Consumer bus config b with
    | (Ok h, b') => calm_but h b b' /\ ~ opened v b h /\ opened v b' h /\ cluster v h = cluster_of v config /\ forall tp, fetch v b' h tp = None
    | (Raise _, b') => calm b b'
    end;
  subscribe_law h ts b : calm b (snd (subscribe bus h ts b));
  close_law h b : calm b (snd (close_consumer bus h b));
  position_law h b : calm b (snd (position_of_assignment bus h b));
  watermark_law h tp b : calm b (snd (get_watermark_offsets bus h tp b));
  consume_law h n b cbs a b' : consume bus h n b = (cbs, a, b') ->
    calm_but h b b'
    /\ (forall tp q, fetch v b' h tp = Some q ->
          resume v b (cluster v h) tp q \/ exists s, starts b h tp s /\ delivered (cluster v h) tp s q (batch a))
    /\ (forall tp, on_tp tp (batch a) <> [] -> exists s q, starts b h tp s /\ delivered (cluster v h) tp s q (batch a));
  seek_law h tp o b : match seek bus h tp o b with
    | (Ok _, b') => calm_but h b b' /\ forall tp' q, fetch v b' h tp' = Some q -> if bool_decide (tp' = tp) then q = o else fetch v b h tp' = Some q
    | (Raise e, b') => is_kafka_exception e = true /\ calm b b' /\ fetch v b' h tp = None
    end;
  commit_law h offsets b : let b' := snd (commit bus h offsets b) in
    (forall c tp q, resume v b' c tp q -> resume v b c tp q \/ c = cluster v h /\ (tp, q) ∈ offsets)
    /\ (forall h' tp q, fetch v b' h' tp = Some q -> fetch v b h' tp = Some q)
    /\ (forall h', opened v b h' -> opened v b' h')
}.
End laws.

#[export] Instance calm_preorder {B H C} (v : View B H C) : PreOrder (calm v).
Proof. split; [by split|]. intros x y z [] []. split; auto. Qed.
#[export] Instance calm_but_preorder {B H C} (v : View B H C) h : PreOrder (calm_but v h).
Proof. split; [by split|]. intros x y z [] []. split; auto. Qed.

(** ** At least once *)

Section at_least_once.
Context {B H C : Type} (bus : Confluent B H) (v : View B H C) `{!BrokerLaws bus v}.
Context (settings : EventStreamsSettings) (json_loads : Bytes -> outcome Json).
Context (topics : list string) (group_id : string).
Context (handler : list (string * Json) -> string -> string -> Py unit).

(** What finishing a message leaves true of the process for good. *)
Context (Fin : C -> Message -> World -> Prop).

(** [msg] was handled in [region], or can never be. *)
Definition settled (region : string) (msg : Message) (w w' : World) : Prop :=
  match _deserialize json_loads (msg_value msg) with
  | Ok payload => exists o, handler payload region (msg_topic msg) w = (o, w')
                  /\ match o with Ok _ => True | Raise e => isinstance e InvalidEventError = true end
  | Raise e => isinstance e InvalidEventError = true /\ w' = w
  end.

Definition goes_on (w w' : World) : Prop :=
  (forall c m, Fin c m w -> Fin c m w') /\ killed w' = killed w /\ (ticks w <= ticks w')%nat.
#[local] Instance goes_on_preorder : PreOrder goes_on.
Proof. split; [by intros w|]. intros x y z (?&?&?) (?&?&?). split; [auto|]. split; [congruence|lia]. Qed.

Class HandlerLaws : Prop := {
  handler_goes_on payload region topic : rel goes_on (handler payload region topic);
  ticks_go_on w n : (ticks w <= n)%nat -> goes_on w (set_ticks n w);
  settled_fin region config msg w w' :
    _consumer_config settings group_id region = Ok config -> settled region msg w w' -> Fin (cluster_of v config) msg w'
}.
Context `{!HandlerLaws}.

(** Every record of the partition before [q] is finished. *)
Definition finished (c : C) (tp : TopicPartition) (q : Z) (w : World) : Prop :=
  forall o m, o < q -> record_at v c tp o = Some m -> Fin c m w.
Lemma finished_on c tp q w w' : goes_on w w' -> finished c tp q w -> finished c tp q w'.
Proof. intros [H' _] Hf o m Ho Hm. eapply H', Hf; done. Qed.

(** No shutdown was read yet; a shutdown is for good. *)
Definition alive (w : World) : Prop := forall n, (n < ticks w)%nat -> killed w n = false.
Definition sticky (w : World) : Prop := forall n m, (n <= m)%nat -> killed w n = true -> killed w m = true.
Lemma alive_before w w' : goes_on w w' -> alive w' -> alive w.
Proof. intros (_ & Hk & Ht) Ha n Hn. rewrite <- Hk. apply Ha. lia. Qed.
Lemma sticky_on w w' : goes_on w w' -> sticky w -> sticky w'.
Proof. intros (_ & Hk & _). unfold sticky. by rewrite Hk. Qed.

(** The invariant: wherever a consumer of the group may be started, everything before is
    finished; and until the shutdown the same holds of the positions of the consumers that
    will be used again. *)
Record safe (k : Regional (B := B) (H := H)) : Prop := {
  safe_sticky : sticky (kc_world k);
  safe_open r h : d_get r (_consumers k) = Some h -> opened v (kc_bus k) h;
  safe_distinct r r' h : d_get r (_consumers k) = Some h -> d_get r' (_consumers k) = Some h -> r = r';
  safe_cluster r h : d_get r (_consumers k) = Some h ->
    exists config, _consumer_config settings group_id r = Ok config /\ cluster v h = cluster_of v config;
  safe_resume c tp q : resume v (kc_bus k) c tp q -> finished c tp q (kc_world k);
  safe_fetch r h tp q : alive (kc_world k) -> d_get r (_consumers k) = Some h -> r ∉ _fatal_regions k ->
    fetch v (kc_bus k) h tp = Some q -> finished (cluster v h) tp q (kc_world k)
}.

(** Steps that leave the consumers alone. *)
Record calm_step (k k' : Regional (B := B) (H := H)) : Prop := {
  step_world : goes_on (kc_world k) (kc_world k');
  step_bus : calm v (kc_bus k) (kc_bus k');
  step_consumers : _consumers k' = _consumers k;
  step_fatal : _fatal_regions k ⊆ _fatal_regions k'
}.
#[local] Instance calm_step_preorder : PreOrder calm_step.
Proof.
  split; [by intros k; split|]. intros x y z [] []. split; [by etransitivity..|congruence|set_solver].
Qed.

Lemma safe_calm k k' : calm_step k k' -> safe k -> safe k'.
Proof.
  intros [Hw [Hr Hf Ho] Hc Hfat] []. split; rewrite ?Hc; auto.
  - by eapply sticky_on.
  - eauto.
  - intros c tp q Hq. eapply finished_on; eauto.
  - intros r h tp q Ha Hh Hnf Hq. eapply finished_on; [done|]. eapply safe_fetch0; eauto using alive_before.
Qed.

Lemma calm_bus {A} (m : M B A) : (forall b, calm v b (snd (m b))) -> rel calm_step (on_bus m).
Proof. intros Hm k. specialize (Hm (kc_bus k)). unfold on_bus. destruct (m _) as [o b]. by split. Qed.
Lemma calm_process {A} (m : Py A) : rel goes_on m -> rel calm_step (in_process m).
Proof. intros Hm k. specialize (Hm (kc_world k)). unfold in_process. destruct (m _) as [o w]. by split. Qed.
Lemma calm_kill : rel calm_step (in_process kill_received).
Proof. apply calm_process. intros w. apply ticks_go_on. cbn. lia. Qed.
Lemma calm_stats r o : rel calm_step (stats_add (B := B) (H := H) r o). Proof. by split. Qed.
Lemma calm_lag r t n : rel calm_step (lag_add (B := B) (H := H) r t n). Proof. by split. Qed.
Lemma calm_failing f : rel calm_step (modify (fun k : Regional (B := B) (H := H) => set_failing (f k) k)). Proof. by split. Qed.
Lemma calm_fatal r : rel calm_step (modify (fun k : Regional (B := B) (H := H) => set_fatal (_fatal_regions k ∪ {[r]}) k)).
Proof. split; [done..|]. cbn. set_solver. Qed.
Lemma calm_get : rel calm_step (get (S := Regional (B := B) (H := H))). Proof. by split. Qed.
Hint Resolve calm_kill calm_stats calm_lag calm_failing calm_fatal calm_get : pyrel.

Lemma calm_close h : rel calm_step (_close_quietly bus h).
Proof.
  assert (rel calm_step (on_bus (close_consumer bus h))) by (apply calm_bus; intros b; eapply close_law; exact _).
  unfold _close_quietly. rel_auto.
Qed.
Lemma calm_error r e : rel calm_step (_on_kafka_error (B := B) (H := H) r e).
Proof. unfold _on_kafka_error. rel_auto. Qed.
Hint Resolve calm_close calm_error : pyrel.
Lemma calm_serve r cb : rel calm_step (serve (B := B) (H := H) r cb).
Proof. unfold serve, _on_commit. rel_auto. Qed.
Hint Resolve calm_serve : pyrel.
Lemma calm_measure h r : rel calm_step (_measure_lag bus topics h r).
Proof.
  assert (rel calm_step (on_bus (position_of_assignment bus h))) by (apply calm_bus; intros b; eapply position_law; exact _).
  assert (forall tp, rel calm_step (on_bus (get_watermark_offsets bus h tp))) by (intros tp; apply calm_bus; intros b; eapply watermark_law; exact _).
  unfold _measure_lag. rel_auto.
Qed.
Hint Resolve calm_measure : pyrel.

(** *** A batch *)

Lemma on_tp_app tp l l' : on_tp tp (l ++ l') = on_tp tp l ++ on_tp tp l'.
Proof. unfold on_tp. by rewrite filter_app. Qed.
Lemma elem_on_tp tp m l : m ∈ on_tp tp l <-> msg_error m = None /\ msg_tp m = tp /\ m ∈ l.
Proof. unfold on_tp. rewrite list_elem_of_filter. tauto. Qed.

(** The records before [o] are finished once those of the batch before it are. *)
Lemma delivered_done c tp s q o pre rest w :
  delivered v c tp s q (pre ++ rest) -> finished c tp s w ->
  (forall m, m ∈ pre -> msg_error m = None -> Fin c m w) ->
  o <= q -> Forall (fun m => o <= msg_offset m) (on_tp tp rest) -> finished c tp o w.
Proof.
  intros [_ _ Hcomp] Hs Hpre Hoq Hrest o' m Ho' Hm. destruct (decide (o' < s)) as [Hlt|Hge]; [by eapply Hs|].
  assert (m ∈ on_tp tp (pre ++ rest)) as Hin by (eapply (Hcomp o'); [lia|done]).
  rewrite on_tp_app in Hin. apply elem_of_app in Hin as [Hin|Hin]; [apply elem_on_tp in Hin as (? & _ & ?); by apply Hpre|].
  rewrite Forall_forall in Hrest. specialize (Hrest m Hin). assert (msg_offset m = o') by exact (record_offset bus v _ _ _ _ Hm). lia.
Qed.

Lemma sorted_app_lt {A} (R : A -> A -> Prop) l l' x : StronglySorted R (l ++ l') -> x ∈ l -> Forall (R x) l'.
Proof.
  induction l as [|y l IH]; cbn; [set_solver|]. inversion 1 as [|?? Hs Hy]; subst. intros [->|Hx]%elem_of_cons; [|by apply IH].
  by apply Forall_app in Hy as [_ ?].
Qed.

(** What [consume] left: where the positions of [h] are, given the batch. *)
Record batch_left (h : H) (w : World) (b : B) (ms : list Message) : Prop := {
  left_fetch tp q : fetch v b h tp = Some q ->
    finished (cluster v h) tp q w \/ exists s, finished (cluster v h) tp s w /\ delivered v (cluster v h) tp s q ms;
  left_batch tp : on_tp tp ms <> [] -> exists s q, finished (cluster v h) tp s w /\ delivered v (cluster v h) tp s q ms
}.

Section batch.
Context (h : H) (w : World) (b : B) (pre rest : list Message) (left : batch_left h w b (pre ++ rest)).
Context (w' : World) (later : goes_on w w') (pre_done : forall m, m ∈ pre -> msg_error m = None -> Fin (cluster v h) m w').

Lemma done_before tp m : m ∈ on_tp tp pre -> finished (cluster v h) tp (msg_offset m + 1) w'.
Proof.
  intros Hm. destruct (left_batch _ _ _ _ left tp) as (s & q & Hs & Hd); [rewrite on_tp_app; intros [Hn _]%app_eq_nil; rewrite Hn in Hm; set_solver|].
  eapply delivered_done; [exact Hd|by eapply finished_on|done| |].
  - destruct Hd as [_ Hr _]. rewrite on_tp_app in Hr. apply Forall_app in Hr as [Hr _]. rewrite Forall_forall in Hr. specialize (Hr m Hm). lia.
  - destruct Hd as [Hsort _ _]. rewrite on_tp_app in Hsort. pose proof (sorted_app_lt _ _ _ _ Hsort Hm) as Hl.
    eapply Forall_impl; [exact Hl|]. cbn. lia.
Qed.
Lemma next_before tp m : head (on_tp tp rest) = Some m -> finished (cluster v h) tp (msg_offset m) w'.
Proof.
  intros Hm. destruct (on_tp tp rest) as [|m0 l] eqn:E; [done|]. injection Hm as ->.
  destruct (left_batch _ _ _ _ left tp) as (s & q & Hs & Hd); [rewrite on_tp_app, E; by destruct (on_tp tp pre)|].
  eapply delivered_done; [exact Hd|by eapply finished_on|done| |].
  - destruct Hd as [_ Hr _]. rewrite on_tp_app, E in Hr. apply Forall_app in Hr as [_ Hr]. inversion Hr; subst. lia.
  - rewrite E. destruct Hd as [Hsort _ _]. rewrite on_tp_app, E in Hsort. constructor; [lia|].
    assert (StronglySorted (fun m m' => msg_offset m < msg_offset m') (m :: l)) as Hs'.
    { clear -Hsort. induction (on_tp tp pre); [done|]. cbn in Hsort. inversion Hsort; subst. auto. }
    inversion Hs' as [|?? _ Hl]; subst. eapply Forall_impl; [exact Hl|]. cbn. lia.
Qed.
Lemma all_before tp q : on_tp tp rest = [] -> fetch v b h tp = Some q -> finished (cluster v h) tp q w'.
Proof.
  intros E Hq. destruct (left_fetch _ _ _ _ left tp q Hq) as [Hf|(s & Hs & Hd)]; [by eapply finished_on|].
  eapply delivered_done; [exact Hd|by eapply finished_on|done|lia|]. rewrite E. constructor.
Qed.
End batch.

(** *** Rewinding *)

Lemma d_set_elem {K V} `{EqDecision K} (k k' : K) (x x' : V) d : (k, x) ∈ d_set k' x' d -> k = k' /\ x = x' \/ (k, x) ∈ d.
Proof.
  induction d as [|[k0 x0] d IH]; cbn [d_set]; [set_solver|]. case_bool_decide as E; rewrite !elem_of_cons.
  - intros [[= -> ->]|?]; [by left|by right; right].
  - intros [[= -> ->]|Hin]; [by right; left|]. destruct (IH Hin); auto.
Qed.

Lemma first_offsets_elem ms d tp o :
  (tp, o) ∈ first_offsets ms d -> (tp, o) ∈ d \/ (d_get tp d = None /\ exists m, head (on_tp tp ms) = Some m /\ msg_offset m = o).
Proof.
  revert d. induction ms as [|m ms IH]; intros d; cbn [first_offsets]; [by left|]. intros Hin.
  unfold on_tp. rewrite filter_cons. apply IH in Hin. destruct (msg_error m) eqn:Ee; cbn.
  - rewrite decide_False by naive_solver. exact Hin.
  - destruct (d_get (msg_tp m) d) eqn:Ed.
    + destruct Hin as [Hin|(Hn & Hh)]; [by left|]. right. split; [done|]. rewrite decide_False by naive_solver. exact Hh.
    + destruct Hin as [Hin|(Hn & Hh)].
      * apply d_set_elem in Hin as [[-> ->]|Hin]; [|by left]. right. split; [done|]. rewrite decide_True by done. by exists m.
      * rewrite d_get_set in Hn. case_bool_decide as Et; [done|]. right. split; [done|]. rewrite decide_False by naive_solver. exact Hh.
Qed.
Lemma first_offsets_all ms d tp : tp ∉ (first_offsets ms d).*1 -> on_tp tp ms = [] /\ tp ∉ d.*1.
Proof.
  assert (forall (k : TopicPartition) (x : Z) d, k ∈ (d_set k x d).*1 /\ forall k', k' ∈ d.*1 -> k' ∈ (d_set k x d).*1) as Hset.
  { intros k x d0. induction d0 as [|[k0 x0] d0 [IH1 IH2]]; cbn [d_set]; [set_solver|]. case_bool_decide; cbn; [subst; set_solver|].
    split; [set_solver|]. intros k' [->|?]%elem_of_cons; [left|right; auto]. }
  revert d. induction ms as [|m ms IH]; intros d; cbn [first_offsets]; [done|]. intros Hn. apply IH in Hn as [Hms Hd].
  unfold on_tp in *. rewrite filter_cons. destruct (msg_error m) eqn:Ee; cbn; [rewrite decide_False by naive_solver; done|].
  destruct (d_get (msg_tp m) d) eqn:Ed.
  - rewrite decide_False; [done|]. intros [_ <-]. apply d_get_elem in Ed. apply Hd, list_elem_of_fmap. by exists (msg_tp m, z).
  - destruct (Hset (msg_tp m) (msg_offset m) d) as [H1 H2]. rewrite decide_False; [|intros [_ <-]; by apply Hd]. split; [done|].
    intros Hin. by apply Hd, H2.
Qed.

(** Only the bus changes, and of it only the positions of [h]. *)
Record bus_step (h : H) (k k' : Regional (B := B) (H := H)) : Prop := {
  bs_world : kc_world k' = kc_world k;
  bs_consumers : _consumers k' = _consumers k;
  bs_fatal : _fatal_regions k' = _fatal_regions k;
  bs_bus : calm_but v h (kc_bus k) (kc_bus k')
}.
#[local] Instance bus_step_preorder h : PreOrder (bus_step h).
Proof. split; [by intros k; split|]. intros x y z [] []. split; [congruence..|by etransitivity]. Qed.

Lemma seek_all_wp h l k :
  wp (for_each l (fun '(tp, offset) =>
        try_except (on_bus (seek bus h tp offset)) (fun e => if is_kafka_exception e then Some (ret tt) else None) ;;; ret true))
    (fun _ k' => bus_step h k k' /\ forall tp q, fetch v (kc_bus k') h tp = Some q ->
       (tp, q) ∈ l \/ tp ∉ l.*1 /\ fetch v (kc_bus k) h tp = Some q)
    (fun _ _ => False) k.
Proof.
  revert k. induction l as [|[tp o] l IH]; intros k; [split; [done|]; intros tp q Hq; right; split; [set_solver|done]|].
  cbn [for_each]. apply wp_bind, wp_bind, wp_try_except. unfold wp at 1, on_bus. pose proof (seek_law bus v h tp o (kc_bus k)) as Hseek.
  destruct (seek bus h tp o (kc_bus k)) as [[u|e] b'].
  - destruct Hseek as [Hcalm Hf]. unfold wp at 1, ret at 1. cbv beta iota. eapply wp_mono; [apply IH| |done]. intros _ k' [Hk' Hf']. split.
    + etransitivity; [|exact Hk']. by split.
    + intros tp' q Hq. destruct (Hf' tp' q Hq) as [Hin|[Hnin Hq']]; [left; by right|]. cbn in Hq'. apply Hf in Hq'. case_bool_decide as E; subst.
      * left. left.
      * right. split; [|done]. cbn. set_solver.
  - destruct Hseek as (-> & Hcalm & Hnone). unfold wp at 1, ret at 1. cbv beta iota. unfold wp at 1, ret at 1. cbv beta iota. eapply wp_mono; [apply IH| |done]. intros _ k' [Hk' Hf']. split.
    + etransitivity; [|exact Hk']. split; try done. destruct Hcalm. split; auto.
    + intros tp' q Hq. destruct (Hf' tp' q Hq) as [Hin|[Hnin Hq']]; [left; by right|]. cbn in Hq'. right. split; [|by eapply calm_fetch].
      cbn. intros [->|?]%elem_of_cons; [congruence|done].
Qed.

(** *** One message *)

Lemma handle_wp msg region config k :
  _consumer_config settings group_id region = Ok config ->
  wp (_handle json_loads handler msg region)
    (fun failure k' => calm_step k k' /\ kc_bus k' = kc_bus k
       /\ (failure = None -> Fin (cluster_of v config) msg (kc_world k')))
    (fun _ _ => False) k.
Proof.
  intros Hconf. pose proof (fun w w' => settled_fin region config msg w w' Hconf) as Hfin. unfold settled in Hfin. unfold _handle. apply wp_try_except.
  destruct (_deserialize json_loads (msg_value msg)) as [payload|e] eqn:Ed.
  - apply wp_bind. unfold wp at 1, of_outcome. apply wp_bind. unfold wp at 1, in_process.
    pose proof (handler_goes_on payload region (msg_topic msg) (kc_world k)) as Hgo.
    destruct (handler payload region (msg_topic msg) (kc_world k)) as [o w'] eqn:Eh. cbn in Hgo.
    pose proof (Hfin (kc_world k) w') as Hf. rewrite Eh in Hf.
    destruct o as [u|e]; [|destruct (isinstance e InvalidEventError) eqn:Ei]; cbn; (split; [by split|]); (split; [done|]); intros Hn; try done;
      apply Hf; eexists; split; try done.
  - pose proof (Hfin (kc_world k) (kc_world k)) as Hf. unfold wp, bind, of_outcome. cbn -[stats_add] in Hf |- *.
    destruct (bool_decide _); cbn; (split; [by split|]); (split; [done|]); [|done]. intros _. by apply Hf.
Qed.

(** *** A batch, message by message *)

(** What was done of it: everything before the place it stopped at, and the offsets to commit. *)
Definition done_until (h : H) (pre : list Message) (done : list (TopicPartition * Z)) (w : World) : Prop :=
  (forall m, m ∈ pre -> msg_error m = None -> Fin (cluster v h) m w)
  /\ forall tp o, (tp, o) ∈ done -> exists m, m ∈ on_tp tp pre /\ o = msg_offset m + 1.
Lemma done_until_on h pre done w w' : goes_on w w' -> done_until h pre done w -> done_until h pre done w'.
Proof. intros [Hg _] [H1 H2]. split; [|done]. intros m Hm He. by apply Hg, H1. Qed.
Lemma done_until_skip h pre done w m : msg_error m <> None -> done_until h pre done w -> done_until h (pre ++ [m]) done w.
Proof.
  intros He [H1 H2]. split.
  - intros m' [Hm'| ->%list_elem_of_singleton]%elem_of_app He'; [by apply H1|done].
  - intros tp o Hin. destruct (H2 _ _ Hin) as (m' & Hm' & ->). exists m'. split; [|done]. rewrite on_tp_app. apply elem_of_app. by left.
Qed.
Lemma done_until_next h pre done w m :
  msg_error m = None -> Fin (cluster v h) m w -> done_until h pre done w ->
  done_until h (pre ++ [m]) (d_set (msg_tp m) (msg_offset m + 1) done) w.
Proof.
  intros He Hf [H1 H2]. split.
  - intros m' [Hm'| ->%list_elem_of_singleton]%elem_of_app He'; [by apply H1|done].
  - intros tp o [[-> ->]|Hin]%d_set_elem.
    + exists m. split; [|done]. rewrite on_tp_app. apply elem_of_app. right. apply elem_on_tp. split_and!; [done..|by left].
    + destruct (H2 _ _ Hin) as (m' & Hm' & ->). exists m'. split; [|done]. rewrite on_tp_app. apply elem_of_app. by left.
Qed.

(** How it ended: at the end of the batch, at the shutdown, at a fatal error, or at a failure
    whose partitions were rewound. *)
Definition ended (h : H) (region : string) (rest : list Message) (b : B) (failure : option exn) (k' : Regional (B := B) (H := H)) : Prop :=
  match failure with
  | None => kc_bus k' = b /\ (rest = [] \/ ~ alive (kc_world k') \/ region ∈ _fatal_regions k')
  | Some _ => calm_but v h b (kc_bus k') /\ forall tp q, fetch v (kc_bus k') h tp = Some q ->
      (exists m, head (on_tp tp rest) = Some m /\ msg_offset m = q) \/ on_tp tp rest = [] /\ fetch v b h tp = Some q
  end.

Record batch_step (k k' : Regional (B := B) (H := H)) : Prop := {
  bt_world : goes_on (kc_world k) (kc_world k');
  bt_consumers : _consumers k' = _consumers k;
  bt_fatal : _fatal_regions k ⊆ _fatal_regions k'
}.
#[local] Instance batch_step_preorder : PreOrder batch_step.
Proof. split; [by intros k; split|]. intros x y z [] []. split; [by etransitivity|congruence|set_solver]. Qed.
Lemma batch_step_calm k k' : calm_step k k' -> batch_step k k'.
Proof. intros []. by split. Qed.

Lemma rewind_wp h ms k :
  wp (_rewind bus h ms) (fun _ k' => bus_step h k k' /\ forall tp q, fetch v (kc_bus k') h tp = Some q ->
      (exists m, head (on_tp tp ms) = Some m /\ msg_offset m = q) \/ on_tp tp ms = [] /\ fetch v (kc_bus k) h tp = Some q)
    (fun _ _ => False) k.
Proof.
  unfold _rewind. eapply wp_mono; [apply seek_all_wp| |done]. intros u k' [Hk Hf]. split; [done|]. intros tp q Hq.
  destruct (Hf tp q Hq) as [Hin|[Hnin Hq']].
  - left. apply first_offsets_elem in Hin as [Hin|(_ & Hh)]; [set_solver|done].
  - right. apply first_offsets_all in Hnin as [? _]. done.
Qed.

Lemma batch_wp h region config pre rest done k :
  _consumer_config settings group_id region = Ok config -> cluster v h = cluster_of v config ->
  sticky (kc_world k) -> done_until h pre done (kc_world k) ->
  wp (handle_batch bus json_loads handler h region rest done)
    (fun '(done', failure) k' => exists pre' rest', pre ++ rest = pre' ++ rest' /\ done_until h pre' done' (kc_world k')
       /\ batch_step k k' /\ ended h region rest' (kc_bus k) failure k')
    (fun _ _ => False) k.
Proof.
  intros Hconf Hcl. revert pre done k. induction rest as [|m rest IH]; intros pre done k Hst Hdone; cbn [handle_batch].
  { exists pre, []. split_and!; try done. split; [done|by left]. }
  apply wp_bind. unfold wp at 1, in_process, kill_received. set (w1 := set_ticks _ _). set (k1 := mk_regional w1 _ _ _ _ _).
  assert (goes_on (kc_world k) w1) as Hg1 by (apply ticks_go_on; lia). assert (batch_step k k1) as Hk1 by by split.
  pose proof (done_until_on _ _ _ _ _ Hg1 Hdone) as Hdone1. pose proof (sticky_on _ _ Hg1 Hst) as Hst1.
  destruct (killed (kc_world k) (ticks (kc_world k))) eqn:Ekill.
  { exists pre, (m :: rest). split_and!; try done. split; [done|]. right. left. intros Ha. specialize (Ha (ticks (kc_world k))). cbn in Ha. rewrite Ekill in Ha. by apply Bool.diff_true_false, Ha; lia. }
  assert (forall k2, batch_step k1 k2 -> kc_bus k2 = kc_bus k -> forall done2, done_until h (pre ++ [m]) done2 (kc_world k2) ->
    wp (handle_batch bus json_loads handler h region rest done2)
      (fun '(done', failure) k' => exists pre' rest', pre ++ m :: rest = pre' ++ rest' /\ done_until h pre' done' (kc_world k')
        /\ batch_step k k' /\ ended h region rest' (kc_bus k) failure k') (fun _ _ => False) k2) as Hgo.
  { intros k2 Hk2 Hbus done2 Hd2. eapply wp_mono; [apply (IH (pre ++ [m]) done2); [by eapply sticky_on; [apply Hk2|]|done]| |done].
    intros [done' failure] k' (pre' & rest' & Heq & Hd' & Hk' & Hend). exists pre', rest'. rewrite <- app_assoc in Heq. split_and!; try done.
    - etransitivity; [exact Hk1|]. by etransitivity.
    - by rewrite <- Hbus. }
  destruct (msg_error m) as [error|] eqn:Eerr.
  - apply wp_bind. assert (wp (_on_kafka_error region error) (fun _ k' => calm_step k1 k' /\ kc_bus k' = kc_bus k /\ (fatal error = true -> region ∈ _fatal_regions k'))
      (fun _ _ => False) k1) as Herr.
    { pose proof (calm_error region error k1) as Hc. unfold _on_kafka_error, wp in *. destruct (fatal error); cbn in *; split_and!; try done. intros _. set_solver. }
    eapply wp_mono; [exact Herr| |done]. intros _ k2 (Hk2 & Hbus & Hfat).
    assert (done_until h (pre ++ [m]) done (kc_world k2)) as Hd2.
    { apply done_until_skip; [congruence|]. eapply done_until_on; [apply Hk2|done]. }
    destruct (fatal error).
    + exists (pre ++ [m]), rest. split_and!; [by rewrite <- app_assoc|done|etransitivity; [exact Hk1|by apply batch_step_calm]|].
      split; [done|]. right. right. by apply Hfat.
    + apply Hgo; [by apply batch_step_calm|done..].
  - apply wp_bind. eapply wp_mono; [apply (handle_wp m region config k1 Hconf)| |done]. intros failure k2 (Hk2 & Hbus & Hf).
    destruct failure as [e|].
    + apply wp_bind. eapply wp_mono; [apply rewind_wp| |done]. intros _ k3 [Hk3 Hpos].
      exists pre, (m :: rest). destruct Hk3 as [Hw3 Hc3 Hf3 Hb3]. split_and!; try done.
      * rewrite Hw3. eapply done_until_on; [apply Hk2|done].
      * etransitivity; [exact Hk1|]. etransitivity; [by apply batch_step_calm|]. split; rewrite ?Hw3, ?Hc3, ?Hf3; done.
      * rewrite Hbus in Hb3, Hpos. done.
    + apply Hgo; [by apply batch_step_calm|done|]. apply done_until_next; [done| |].
      * rewrite Hcl. by apply Hf.
      * eapply done_until_on; [apply Hk2|done].
Qed.

(** *** A region *)

(** Only the client moves, and no position. *)
Record quiet_step (k k' : Regional (B := B) (H := H)) : Prop := {
  qs_world : kc_world k' = kc_world k;
  qs_bus : calm v (kc_bus k) (kc_bus k');
  qs_consumers : _consumers k' = _consumers k;
  qs_fatal : _fatal_regions k' = _fatal_regions k
}.
#[local] Instance quiet_step_preorder : PreOrder quiet_step.
Proof. split; [by intros k; split|]. intros x y z [] []. split; [congruence|by etransitivity|congruence..]. Qed.
Lemma quiet_calm k k' : quiet_step k k' -> calm_step k k'.
Proof. intros [Hw Hb Hc Hf]. split; [by rewrite Hw|done..|by rewrite Hf]. Qed.

Lemma quiet_bus {A} (m : M B A) : (forall b, calm v b (snd (m b))) -> rel quiet_step (on_bus m).
Proof. intros Hm k. specialize (Hm (kc_bus k)). unfold on_bus. destruct (m _) as [o b]. by split. Qed.
Lemma quiet_stats r o : rel quiet_step (stats_add (B := B) (H := H) r o). Proof. by split. Qed.
Lemma quiet_failing f : rel quiet_step (modify (fun k : Regional (B := B) (H := H) => set_failing (f k) k)). Proof. by split. Qed.
Hint Resolve quiet_stats quiet_failing : pyrel.
Lemma quiet_close h : rel quiet_step (_close_quietly bus h).
Proof.
  assert (rel quiet_step (on_bus (close_consumer bus h))) by (apply quiet_bus; intros b; eapply close_law; exact _).
  unfold _close_quietly. rel_auto.
Qed.
Hint Resolve quiet_close : pyrel.

(** The state a step may leave, whatever it answers. *)
Definition ready (region : string) (w : World) (k : Regional (B := B) (H := H)) : Prop :=
  safe k /\ kc_world k = w /\ region ∉ _fatal_regions k.
Lemma ready_quiet region w k k' : quiet_step k k' -> ready region w k -> ready region w k'.
Proof.
  intros Hq (Hs & Hw & Hf). split; [by eapply safe_calm; [apply quiet_calm|]|]. destruct Hq as [Hw' _ _ Hf']. by rewrite Hw', Hf'.
Qed.

Lemma forget_safe region k :
  safe k -> safe (set_consumers (d_del region (_consumers k)) (set_fatal (_fatal_regions k ∖ {[region]}) k)).
Proof.
  intros []. split; cbn; auto.
  - intros r h. rewrite d_get_del. case_bool_decide; [done|]. apply safe_open0.
  - intros r r' h. rewrite !d_get_del. do 2 case_bool_decide; try done. apply safe_distinct0.
  - intros r h. rewrite d_get_del. case_bool_decide; [done|]. apply safe_cluster0.
  - intros r h tp q Ha. rewrite d_get_del. case_bool_decide as E; [done|]. intros Hh Hn. eapply safe_fetch0; [done..|set_solver].
Qed.

Lemma rebuild_wp region k :
  safe k ->
  wp (if bool_decide (region ∈ _fatal_regions k) then
        modify (fun k => set_fatal (_fatal_regions k ∖ {[region]}) k) ;;; _discard_consumer bus region
      else ret tt)
    (fun _ => ready region (kc_world k)) (fun _ => ready region (kc_world k)) k.
Proof.
  intros Hs. case_bool_decide as Hin; [|done]. apply wp_bind. unfold wp at 1, modify. set (k1 := set_fatal _ k).
  unfold _discard_consumer. apply wp_bind. unfold wp at 1, get. pose proof (forget_safe region k Hs) as Hf.
  destruct (d_get region (_consumers k1)) as [h|] eqn:E; cbn in E.
  - apply wp_bind. unfold wp at 1, modify. set (k2 := set_consumers _ _).
    assert (ready region (kc_world k) k2) as Hr by (split; [exact Hf|]; split; [done|]; cbn; set_solver).
    eapply wp_mono; [apply (wp_rel _ _ k2 (quiet_close h))| |]; intros ? k' Hk'; exact (ready_quiet _ _ _ _ Hk' Hr).
  - assert (d_del region (_consumers k) = _consumers k) as Hdel.
    { unfold d_del. apply filter_true, Forall_forall. intros [r h] Hin' Heq. cbn in Heq. subst.
      assert (is_Some (d_get region (_consumers k))) as [h' Hh']; [|by rewrite Hh' in E].
      clear -Hin'. induction (_consumers k) as [|[r' h'] l IH]; [set_solver|]. cbn. case_bool_decide; [by eexists|].
      apply elem_of_cons in Hin' as [[= -> ->]|Hin']; [done|auto]. }
    rewrite Hdel in Hf. split; [exact Hf|]. split; [done|]. cbn. set_solver.
Qed.

(** A consumer that was just created. *)
Record fresh (region : string) (h : H) (k k' : Regional (B := B) (H := H)) : Prop := {
  fr_world : kc_world k' = kc_world k;
  fr_fatal : _fatal_regions k' = _fatal_regions k;
  fr_bus : calm_but v h (kc_bus k) (kc_bus k');
  fr_new : ~ opened v (kc_bus k) h;
  fr_open : opened v (kc_bus k') h;
  fr_fetch tp : fetch v (kc_bus k') h tp = None;
  fr_cluster : exists config, _consumer_config settings group_id region = Ok config /\ cluster v h = cluster_of v config
}.
Lemma fresh_quiet region h k k1 k2 : fresh region h k k1 -> quiet_step k1 k2 -> fresh region h k k2.
Proof.
  intros [] [Hw [Hr Hf Ho] Hc Hfat]. split; try done; try congruence.
  - destruct fr_bus0. split; auto.
  - auto.
  - intros tp. destruct (fetch v (kc_bus k2) h tp) eqn:E; [|done]. apply Hf in E. by rewrite fr_fetch0 in E.
Qed.
Lemma fresh_safe region h k k' :
  safe k -> fresh region h k k' -> d_get region (_consumers k) = None ->
  _consumers k' = _consumers k \/ _consumers k' = d_set region h (_consumers k) -> safe k'.
Proof.
  intros [] [Hw Hfat [Hr Hf Ho] Hnew Hopen Hnone Hcl] Hmiss Hc.
  assert (forall r h', d_get r (_consumers k') = Some h' -> r = region /\ h' = h \/ d_get r (_consumers k) = Some h' /\ h' <> h) as Hget.
  { intros r h' Hg. assert (d_get r (_consumers k) = Some h' -> h' <> h) by (intros Hg' ->; by eapply Hnew, safe_open0).
    destruct Hc as [Hc|Hc]; rewrite Hc in Hg; [by auto|]. rewrite d_get_set in Hg. case_bool_decide; [left|right]; naive_solver. }
  split; rewrite ?Hw, ?Hfat; auto.
  - intros r h' [[-> ->]|[Hg _]]%Hget; [done|]. eauto.
  - intros r r' h' [[-> ->]|[Hg Hne]]%Hget [[-> ?]|[Hg' ?]]%Hget; try congruence. eauto.
  - intros r h' [[-> ->]|[Hg _]]%Hget; [done|]. eauto.
  - intros r h' tp q Ha [[-> ->]|[Hg Hne]]%Hget Hnf Hq; [by rewrite Hnone in Hq|]. eauto.
Qed.

Lemma consumer_create_wp region w k :
  ready region w k ->
  wp (_get_or_create_consumer bus settings topics group_id region)
    (fun o k' => ready region w k' /\ forall h, o = Some h -> d_get region (_consumers k') = Some h)
    (fun _ => ready region w) k.
Proof.
  intros Hr. unfold _get_or_create_consumer. apply wp_bind. unfold wp at 1, get.
  destruct (d_get region (_consumers k)) as [h|] eqn:Eg; [split; [done|]; by intros h' [= <-]|].
  assert (rel quiet_step (stats_add (B := B) (H := H) region CONSUMER_ERROR ;;; modify (fun k => set_failing (_failing_regions k ∪ {[region]}) k))) as Hfailed by rel_auto.
  set (failed := stats_add _ _ ;;; _) in *. cbv zeta.
  assert (forall A (m : M (Regional (B := B) (H := H)) A) k1, rel quiet_step m -> ready region w k1 -> wp m (fun _ => ready region w) (fun _ => ready region w) k1) as Hq.
  { intros A m k1 Hm H1. eapply wp_mono; [apply (wp_rel _ _ k1 Hm)| |]; intros ? k' Hk'; exact (ready_quiet _ _ _ _ Hk' H1). }
  apply wp_bind, wp_try_except, wp_bind, wp_of_outcome.
  2:{ intros e _. apply wp_bind. eapply wp_mono; [apply Hq; [exact Hfailed|exact Hr]| |done]. intros u k1 H1. split; [exact H1|done]. }
  intros config Hconf. apply wp_bind. unfold wp at 1, on_bus. pose proof (consumer_law bus v config (kc_bus k)) as Hlaw.
  destruct (Consumer bus config (kc_bus k)) as [[h|e] b1].
  2:{ apply wp_bind. eapply wp_mono; [apply Hq; [exact Hfailed|]| |done]; [|intros u k1 H1; split; [exact H1|done]].
      eapply ready_quiet; [|exact Hr]. by split. }
  destruct Hlaw as (Hb1 & Hnew & Hopen & Hcl & Hnone). set (k1 := mk_regional _ b1 _ _ _ _).
  assert (fresh region h k k1) as H1 by (split; try done; by exists config). unfold wp at 1, ret at 1. cbv beta iota.
  apply wp_try_except, wp_bind.
  assert (rel quiet_step (on_bus (subscribe bus h topics))) as Hsub by (apply quiet_bus; intros b; eapply subscribe_law; exact _).
  eapply wp_mono; [apply (wp_rel _ _ k1 Hsub)| |].
  - intros u k2 Hk2. pose proof (qs_consumers _ _ Hk2) as Hc2. pose proof (fresh_quiet _ _ _ _ _ H1 Hk2) as H2. split.
    + split; [|destruct H2, Hr as (_ & Hw & Hf); cbn; rewrite fr_world0, fr_fatal0; done].
      eapply (fresh_safe region h k); [apply Hr| |done|right; cbn; by rewrite Hc2].
      destruct H2. by split.
    + cbn. intros h' [= <-]. rewrite d_get_set. by rewrite bool_decide_eq_true_2.
  - intros e k2 Hk2. pose proof (qs_consumers _ _ Hk2) as Hc2. pose proof (fresh_quiet _ _ _ _ _ H1 Hk2) as H2.
    assert (ready region w k2) as Hr2.
    { split; [|destruct H2, Hr as (_ & Hw & Hf); rewrite fr_world0, fr_fatal0; done]. eapply (fresh_safe region h k); [apply Hr|done|done|by left; rewrite Hc2]. }
    apply wp_bind. eapply wp_mono; [apply Hq; [exact Hfailed|exact Hr2]| |done]. intros u k3 H3.
    apply wp_bind. eapply wp_mono; [apply Hq; [apply quiet_close|exact H3]| |done]. intros u' k4 H4. by split.
Qed.

(** Everything but the positions of one consumer, and those. *)
Definition safe_but (h : H) (k : Regional (B := B) (H := H)) : Prop :=
  (alive (kc_world k) -> forall r tp q, d_get r (_consumers k) = Some h -> r ∉ _fatal_regions k ->
     fetch v (kc_bus k) h tp = Some q -> finished (cluster v h) tp q (kc_world k)) -> safe k.

Lemma safe_but_step region h k k' :
  safe k -> d_get region (_consumers k) = Some h -> batch_step k k' -> calm_but v h (kc_bus k) (kc_bus k') -> safe_but h k'.
Proof.
  intros [] Hget [Hw Hc Hf] [Hr Hfe Ho] Hpos. split; rewrite ?Hc; auto.
  - by eapply sticky_on.
  - eauto.
  - intros c tp q Hq. eapply finished_on; eauto.
  - intros r h' tp q Ha Hg Hnf Hq. destruct (decide (r = region)) as [->|Hne].
    { rewrite Hget in Hg. injection Hg as <-. eapply Hpos; rewrite ?Hc; eauto. }
    eapply finished_on; [done|]. eapply safe_fetch0; [by eapply alive_before|done|set_solver|eapply Hfe; [|done]]. intros ->. by eapply Hne, safe_distinct0.
Qed.

(** Serving callbacks. *)
Record served (k k' : Regional (B := B) (H := H)) : Prop := {
  sv_world : kc_world k' = kc_world k;
  sv_bus : kc_bus k' = kc_bus k;
  sv_consumers : _consumers k' = _consumers k;
  sv_fatal : _fatal_regions k ⊆ _fatal_regions k'
}.
#[local] Instance served_preorder : PreOrder served.
Proof. split; [by intros k; split|]. intros x y z [] []. split; [congruence..|set_solver]. Qed.
Lemma served_stats r o : rel served (stats_add (B := B) (H := H) r o). Proof. by split. Qed.
Lemma served_fatal r : rel served (modify (fun k : Regional (B := B) (H := H) => set_fatal (_fatal_regions k ∪ {[r]}) k)).
Proof. split; cbn; try done. set_solver. Qed.
Hint Resolve served_stats served_fatal : pyrel.
Lemma served_error r e : rel served (_on_kafka_error (B := B) (H := H) r e).
Proof. unfold _on_kafka_error. rel_auto. Qed.
Hint Resolve served_error : pyrel.
Lemma served_callback r cb : rel served (serve (B := B) (H := H) r cb).
Proof. unfold serve, _on_commit. rel_auto. Qed.
Hint Resolve served_callback : pyrel.
Lemma served_batch k k' : served k k' -> batch_step k k'.
Proof. intros [Hw _ Hc Hf]. split; [by rewrite Hw|done..]. Qed.

Lemma serve_all_ok region cbs : raising (fun _ => False) (for_each cbs (serve (B := B) (H := H) region)).
Proof.
  induction cbs as [|cb cbs IH]; cbn [for_each]; [apply raising_ret|]. apply raising_bind; [|intros []; [exact IH|apply raising_ret]].
  unfold serve, _on_commit, _on_kafka_error, stats_add. raising_auto.
Qed.

(** After [consume]: only what it answered is not accounted for. *)
Definition consumed (h : H) (region : string) (w : World) (ms : list Message) (k : Regional (B := B) (H := H)) : Prop :=
  kc_world k = w /\ d_get region (_consumers k) = Some h
  /\ (alive w -> batch_left h w (kc_bus k) ms)
  /\ (forall k', batch_step k k' -> calm_but v h (kc_bus k) (kc_bus k') -> safe_but h k')
  /\ forall r, d_get r (_consumers k) = Some h -> r = region.

Lemma consume_wp h region w k :
  ready region w k -> alive w -> d_get region (_consumers k) = Some h ->
  wp (consume_now bus h region)
    (fun answer k' => consumed h region w (match answer with inr ms => ms | inl _ => [] end) k')
    (fun _ k' => consumed h region w [] k') k.
Proof.
  intros (Hs & Hw & Hnf) Ha Hget. destruct (consume bus h MAX_MESSAGES_PER_REGION_PER_TICK (kc_bus k)) as [[cbs a] b'] eqn:E.
  destruct (consume_law bus v _ _ _ _ _ _ E) as (Hbut & Hfetch & Hbatch). set (k1 := mk_regional (kc_world k) b' (_consumers k) (_fatal_regions k) (_failing_regions k) (_stats k)).
  enough (wp (for_each cbs (serve (B := B) (H := H) region) ;;; of_outcome a)
    (fun answer k' => consumed h region w (match answer with inr ms => ms | inl _ => [] end) k') (fun _ k' => consumed h region w [] k') k1)
    as Hrun by (unfold wp, consume_now in *; rewrite E; exact Hrun).
  assert (batch_left h w b' (batch a)) as Hleft.
  { assert (forall tp s, starts v (kc_bus k) h tp s -> finished (cluster v h) tp s w) as Hstart.
    { intros tp s [Hf|Hr]; rewrite <- Hw; [eapply (safe_fetch k Hs); rewrite ?Hw; done|by eapply (safe_resume k Hs)]. }
    split.
    - intros tp q Hq. destruct (Hfetch tp q Hq) as [Hr|(s & Hst & Hd)]; [left; rewrite <- Hw; by eapply (safe_resume k Hs)|].
      right. exists s. split; [by apply Hstart|done].
    - intros tp Hne. destruct (Hbatch tp Hne) as (s & q & Hst & Hd). exists s, q. split; [by apply Hstart|done]. }
  assert (forall k2, served k1 k2 -> consumed h region w (batch a) k2) as Hcons.
  { intros k2 [Hw2 Hb2 Hc2 Hf2]. split; [by rewrite Hw2|]. split; [by rewrite Hc2|]. split; [by rewrite Hb2|].
    split; [|intros r; rewrite Hc2; intros Hr; by eapply (safe_distinct k Hs)]. intros k' Hk' Hbut'. apply (safe_but_step region h k k' Hs Hget).
    - etransitivity; [|exact Hk']. split; [by rewrite Hw2|done..].
    - etransitivity; [exact Hbut|]. rewrite Hb2 in Hbut'. exact Hbut'. }
  assert (rel served (for_each cbs (serve (B := B) (H := H) region))) as Hserve by rel_auto.
  apply wp_bind. eapply wp_mono; [apply (wp_and _ _ _ _ _ _ (wp_rel _ _ k1 Hserve) (serve_all_ok region cbs k1))| |by intros e k2 []].
  intros u k2 [Hk2 _]. apply wp_of_outcome; [intros answer ->|intros e ->]; [destruct answer|]; exact (Hcons k2 Hk2).
Qed.

Lemma commit_wp h region done k :
  safe k -> (forall tp o, (tp, o) ∈ done -> finished (cluster v h) tp o (kc_world k)) ->
  wp (_commit bus h region done) (fun _ => safe) (fun _ => safe) k.
Proof.
  intros Hs Hdone. unfold _commit. destruct done as [|d done]; [exact Hs|]. set (offsets := d :: done) in *. apply wp_try_except. unfold wp at 1, on_bus.
  destruct (commit_law bus v h offsets (kc_bus k)) as (Hr & Hf & Ho).
  destruct (commit bus h offsets (kc_bus k)) as [o b']. cbn in Hr, Hf, Ho. set (k1 := mk_regional _ b' _ _ _ _).
  assert (safe k1) as H1.
  { destruct Hs. split; cbn; eauto. intros c tp q [Hq|[-> Hin]]%Hr; eauto. }
  destruct o as [u|e]; [exact H1|]. destruct (is_kafka_exception e); [|exact H1].
  eapply safe_calm; [apply (calm_stats region COMMIT_ERROR k1)|exact H1].
Qed.

Lemma batch_safe h region w ms k k' done failure pre rest :
  consumed h region w ms k -> alive w -> ms = pre ++ rest -> done_until h pre done (kc_world k') -> batch_step k k' ->
  ended h region rest (kc_bus k) failure k' ->
  safe k' /\ forall tp o, (tp, o) ∈ done -> finished (cluster v h) tp o (kc_world k').
Proof.
  intros (Hw & Hget & Hleft & Hsafe & Hdist) Ha -> [Hpre Hd] Hk Hend. specialize (Hleft Ha). pose proof (bt_world _ _ Hk) as Hg. rewrite Hw in Hg.
  split.
  - assert (calm_but v h (kc_bus k) (kc_bus k')) as Hbut by (destruct failure; [apply Hend|destruct Hend as [-> _]; done]).
    apply (Hsafe k' Hk Hbut). intros Ha' r tp q Hr Hnf Hq. rewrite (bt_consumers _ _ Hk) in Hr. apply Hdist in Hr as ->.
    destruct failure as [e|].
    + destruct Hend as [_ Hpos]. destruct (Hpos tp q Hq) as [(m & Hm & <-)|[Hno Hq']]; [by eapply next_before|by eapply all_before].
    + destruct Hend as [Hb [->|[Hn|Hfat]]]; [|done..]. rewrite Hb in Hq. by eapply all_before.
  - intros tp o Hin. destruct (Hd tp o Hin) as (m & Hm & ->). by eapply done_before.
Qed.

Lemma nothing_safe h region w k : consumed h region w [] k -> alive w -> safe k.
Proof.
  intros Hk Ha. apply (batch_safe h region w [] k k [] None [] [] Hk Ha); [done|split; set_solver|done|split; [done|by left]].
Qed.

Lemma region_wp region k : safe k -> alive (kc_world k) -> wp (_drain_region bus settings json_loads topics group_id handler region) (fun _ => safe) (fun _ => safe) k.
Proof.
  intros Hs Ha. unfold _drain_region. apply wp_bind. unfold wp at 1, get. apply wp_bind.
  eapply wp_mono; [by apply rebuild_wp| |intros e k' He; apply He]. intros u1 k1 H1. apply wp_bind.
  eapply wp_mono; [apply (consumer_create_wp region (kc_world k)); exact H1| |intros e k' He; apply He]. intros [h|] k2 [H2 Hget]; [|apply H2]. specialize (Hget h eq_refl).
  assert (exists config, _consumer_config settings group_id region = Ok config /\ cluster v h = cluster_of v config) as (config & Hconf & Hcl) by (by eapply safe_cluster; [apply H2|]).
  apply wp_bind. eapply wp_mono; [apply (consume_wp h region (kc_world k)); done| |intros e k3 Hk3; exact (nothing_safe _ _ _ _ Hk3 Ha)].
  intros [error|ms] k3 Hk3.
  - apply wp_bind. pose proof (nothing_safe _ _ _ _ Hk3 Ha) as H3.
    eapply wp_mono; [apply (wp_rel _ _ k3 (calm_error region error))| |]; intros ? k4 Hk4; exact (safe_calm _ _ Hk4 H3).
  - apply wp_bind. assert (sticky (kc_world k3)) as Hst by (destruct Hk3 as [-> _]; destruct H2 as ([] & <- & _); done).
    eapply wp_mono; [apply (batch_wp h region config [] ms [] k3 Hconf Hcl Hst); split; [set_solver|set_solver]| |done].
    intros [done failure] k4 (pre & rest & Hms & Hd & Hk4 & Hend).
    destruct (batch_safe _ _ _ _ _ _ _ _ _ _ Hk3 Ha Hms Hd Hk4 Hend) as [H4 Hdone].
    apply wp_bind. eapply wp_mono; [by apply commit_wp| |done]. intros u5 k5 H5.
    apply wp_bind. eapply wp_mono; [apply (wp_rel _ _ k5 (calm_measure h region))| |]; intros ? k6 Hk6; exact (safe_calm _ _ Hk6 H5).
Qed.

Lemma drain_regions_wp regions failure k :
  safe k -> wp (drain_regions bus settings json_loads topics group_id handler regions failure) (fun _ => safe) (fun _ => safe) k.
Proof.
  revert failure k. induction regions as [|region regions IH]; intros failure k Hs; [exact Hs|]. cbn [drain_regions].
  apply wp_bind. pose proof (calm_kill k) as Hk. unfold in_process, kill_received in Hk |- *. unfold wp at 1. cbn in Hk. set (k1 := mk_regional _ _ _ _ _ _) in *.
  assert (safe k1) as H1 by (by eapply safe_calm). destruct (killed (kc_world k) (ticks (kc_world k))) eqn:E; [exact H1|].
  apply wp_bind. eapply wp_mono; [apply region_wp; [exact H1|]| |done].
  - intros n Hn. cbn in Hn |- *. destruct (killed (kc_world k) n) eqn:En; [|done]. rewrite (safe_sticky k Hs n (ticks (kc_world k))) in E; [done|lia|done].
  - intros f k2 H2. by apply IH.
Qed.

(** C30: delivery is at least once: a drain, however it ends, leaves no offset a consumer of the
    group may be started from, and until the shutdown no position of a consumer that will be used
    again, with an unfinished event before it. *)
Theorem drain_at_least_once stats k :
  safe k -> safe (snd (drain bus settings json_loads topics group_id handler stats k)).
Proof.
  intros Hs. unfold drain. assert (safe (set_stats stats k)) as H1 by (eapply safe_calm; [|exact Hs]; by split).
  pose proof (drain_regions_wp (fst <$> region_configs settings) None _ H1) as Hw.
  assert (wp (failure <- drain_regions bus settings json_loads topics group_id handler (fst <$> region_configs settings) None ;;
              match failure with Some e => raise e | None => ret tt end) (fun _ => safe) (fun _ => safe) (set_stats stats k)) as Hr.
  { apply wp_bind. eapply wp_mono; [exact Hw| |done]. by intros [e|] k' Hk'. }
  unfold wp in Hr. destruct (bind _ _ _) as [o k']. cbn. eapply safe_calm; [|by destruct o; exact Hr]. by split.
Qed.
End at_least_once.

(** ** A broker *)

(** One cluster, one partition; the group's committed offset, and who holds the partition and
    where it is. A consumer that reads takes the partition. *)
Module broker.
Record Bus := mk_bus { held : option (nat * Z); committed : Z; next_handle : nat }.
Definition part : TopicPartition := ("quantum.production.blocked-account-plans.v1", 0).
Definition log : list Message :=
  imap (fun i value => mk_message None part.1 part.2 (Z.of_nat i) value) [Some [65]; Some []; Some [66]; Some [67]].

Definition held_by (b : Bus) (h : nat) : option Z := match held b with Some (h', p) => if bool_decide (h = h') then Some p else None | None => None end.
Definition read_from (b : Bus) (h : nat) : Z := Z.max 0 (default (committed b) (held_by b h)).
Definition client : Confluent Bus nat := {|
  Consumer _ := fun b => (Ok (next_handle b), mk_bus None (committed b) (S (next_handle b)));
  subscribe _ _ := ret tt;
  consume h n b :=
    let ms := take n (drop (Z.to_nat (read_from b h)) log) in
    ([], Ok (inr ms), mk_bus (Some (h, read_from b h + Z.of_nat (length ms))) (committed b) (next_handle b));
  seek h tp o := modify (fun b => if bool_decide (tp = part) then mk_bus (Some (h, o)) (committed b) (next_handle b) else b);
  commit h offsets := modify (fun b => mk_bus (held b) (default (committed b) (d_get part offsets)) (next_handle b));
  position_of_assignment h := b <- get ;; ret (match held_by b h with Some p => [(part, p)] | None => [] end);
  get_watermark_offsets _ _ := ret (Z.of_nat (length log));
  close_consumer _ := ret tt
|}.
Definition view : View Bus nat unit := {|
  cluster_of _ := tt;
  cluster _ := tt;
  record_at _ tp o := if bool_decide (tp = part /\ 0 <= o) then log !! Z.to_nat o else None;
  resume b _ tp q := tp = part /\ q = committed b;
  fetch b h tp := if bool_decide (tp = part) then held_by b h else None;
  opened b h := (h < next_handle b)%nat
|}.

Lemma log_at i m : log !! i = Some m -> msg_error m = None /\ msg_tp m = part /\ msg_offset m = Z.of_nat i.
Proof. unfold log. rewrite list_lookup_imap. intros (value & _ & ->)%fmap_Some. done. Qed.
Lemma log_sorted i n : StronglySorted (fun m m' => msg_offset m < msg_offset m') (take n (drop i log)).
Proof.
  apply StronglySorted_take. assert (StronglySorted (fun m m' => msg_offset m < msg_offset m') log) as H by (repeat constructor).
  revert H. generalize log. induction i as [|i IH]; intros [|m l] Hl; try done. cbn. apply IH. by inversion Hl.
Qed.
Lemma on_part ms : (forall m, m ∈ ms -> m ∈ log) -> on_tp part ms = ms.
Proof. intros H. apply filter_true, Forall_forall. intros m Hm. apply H, list_elem_of_lookup in Hm as [i Hi]. by destruct (log_at _ _ Hi) as (? & ? & _). Qed.
Lemma on_other tp ms : tp <> part -> (forall m, m ∈ ms -> m ∈ log) -> on_tp tp ms = [].
Proof.
  intros Hne H. destruct (on_tp tp ms) as [|m l] eqn:E; [done|]. assert (m ∈ on_tp tp ms) as Hm by (rewrite E; left).
  apply elem_on_tp in Hm as (_ & Htp & Hm). apply H, list_elem_of_lookup in Hm as [i Hi]. destruct (log_at _ _ Hi) as (_ & ? & _). congruence.
Qed.

Lemma read_delivered n b h :
  let s := read_from b h in let ms := take n (drop (Z.to_nat s) log) in
  delivered view tt part (default (committed b) (held_by b h)) (s + Z.of_nat (length ms)) ms.
Proof.
  intros s ms. assert (default (committed b) (held_by b h) <= s) as Hle by (unfold s, read_from; lia). assert (0 <= s) as Hs by (unfold s, read_from; lia).
  assert (forall j m, ms !! j = Some m -> log !! (Z.to_nat s + j)%nat = Some m /\ (j < length ms)%nat) as Hj.
  { intros j m Hm. split; [|by eapply lookup_lt_Some]. unfold ms in Hm. apply lookup_take_Some in Hm as [Hm _]. by rewrite lookup_drop in Hm. }
  assert (forall m, m ∈ ms -> m ∈ log) as Hin.
  { intros m [j Hm]%list_elem_of_lookup. destruct (Hj _ _ Hm) as [Hm' _]. by eapply list_elem_of_lookup_2. }
  split; rewrite (on_part ms Hin).
  - apply log_sorted.
  - apply Forall_forall. intros m [j Hm]%list_elem_of_lookup. destruct (Hj _ _ Hm) as [Hm' Hlt]. destruct (log_at _ _ Hm') as (_ & _ & ->). lia.
  - intros o m Ho. cbn. case_bool_decide as E; [|done]. intros Hm. assert (s <= o) as Hso by (unfold s, read_from in *; lia).
    apply (list_elem_of_lookup_2 _ (Z.to_nat o - Z.to_nat s)). assert (Z.to_nat o - Z.to_nat s < length ms)%nat as Hlt by lia.
    unfold ms in Hlt |- *. rewrite length_take in Hlt. rewrite lookup_take_lt by lia. rewrite lookup_drop. by replace (Z.to_nat s + (Z.to_nat o - Z.to_nat s))%nat with (Z.to_nat o) by lia.
Qed.

Lemma starts_there b h : starts view b h part (default (committed b) (held_by b h)).
Proof. unfold starts. cbn. rewrite bool_decide_eq_true_2 by done. destruct (held_by b h); cbn; [by left|by right]. Qed.

#[export] Instance laws : BrokerLaws client view.
Proof.
  split.
  - intros c tp o m. cbn. case_bool_decide as E; [|done]. destruct E as [-> Ho]. intros Hm. destruct (log_at _ _ Hm) as (_ & _ & ->). lia.
  - intros config b. cbn. split; [|split; [lia|split; [lia|split; [done|]]]].
    + split; cbn; [done| |intros h'; lia]. intros h' tp q _. case_bool_decide; done.
    + intros tp. by case_bool_decide.
  - done.
  - done.
  - done.
  - done.
  - intros h n b cbs a b' [= <- <- <-]. cbn [batch]. set (ms := take n _). pose proof (read_delivered n b h) as Hd. cbv zeta in Hd. fold ms in Hd.
    assert (forall m, m ∈ ms -> m ∈ log) as Hin.
    { intros m Hm. apply elem_of_take in Hm as (i & Hm & _). rewrite lookup_drop in Hm. by eapply list_elem_of_lookup_2. }
    split; [split; cbn; [done| |done]|split].
    + intros h' tp q Hne. case_bool_decide; [|done]. unfold held_by. cbn. by rewrite bool_decide_eq_false_2.
    + intros tp q. cbn. case_bool_decide as E; [subst|done]. unfold held_by. cbn. rewrite bool_decide_eq_true_2 by done. intros [= <-].
      right. eexists. split; [apply starts_there|exact Hd].
    + intros tp Hne. destruct (decide (tp = part)) as [->|Hne']; [|exfalso; apply Hne, (on_other tp ms Hne' Hin)].
      eexists _, _. split; [apply starts_there|exact Hd].
  - intros h tp o b. cbn. destruct (bool_decide (tp = part)) eqn:E; (split; [split; cbn; try done|]).
    + intros h' tp' q Hne. unfold held_by. cbn. repeat case_bool_decide; done.
    + apply bool_decide_eq_true in E as ->. intros tp' q. case_bool_decide; [|done]. unfold held_by. cbn. rewrite bool_decide_eq_true_2 by done. by intros [= <-].
    + intros tp' q. apply bool_decide_eq_false in E. repeat case_bool_decide; subst; done.
  - intros h offsets b. cbn. split; [|split; done]. intros c tp q [-> ->]. destruct (d_get part offsets) as [o|] eqn:E; cbn; [|by left].
    right. destruct c. split; [done|]. by apply d_get_elem.
Qed.
End broker.

(** A handler that notes what it is handed, and cannot take the letter B yet. *)
Module noting.
Definition name_of (value : Bytes) : option string := match value with [] => None | b :: _ => Some (String (ascii_of_nat (Z.to_nat b)) "") end.
Definition json_loads (value : Bytes) : outcome Json :=
  match name_of value with None => Raise (mk_exn ValueError "Expecting value") | Some name => Ok (JObj [("name", JStr name)]) end.
Definition handler (payload : list (string * Json)) (region topic : string) : Py unit :=
  match d_get "name" payload with
  | Some (JStr name) =>
      if bool_decide (name = "B") then raise (mk_exn OperationalError "the database is down")
      else modify (fun w => set_config (<[name := region]> (config w)) w)
  | _ => raise (invalid_event "no name")
  end.
Definition noted (c : unit) (m : Message) (w : World) : Prop :=
  match msg_value m with Some value => match name_of value with Some name => is_Some (config w !! name) | None => True end | None => True end.
Definition event_streams : EventStreamsSettings := mk_event_streams true "us-east" "broker:9093" "key" "token" [] "production".

#[export] Instance handler_laws : HandlerLaws broker.view event_streams json_loads "group" handler noted.
Proof.
  split.
  - intros payload region topic w. unfold handler. destruct (d_get _ _) as [[]|]; try (by split).
    destruct (bool_decide (s = "B")); [by split|]. split; [|by split]. intros c m. unfold noted. destruct (msg_value m) as [value|]; [|done].
    destruct (name_of value); [|done]. cbn. intros H. apply lookup_insert_is_Some. destruct (decide (s = s0)); auto.
  - intros w n Hn. by split.
  - intros region cfg msg w w' _. unfold settled, _deserialize, noted, json_loads. destruct (msg_value msg) as [value|]; [|done].
    destruct (name_of value) as [name|]; [|done]. intros (o & Hrun & Ho). unfold handler in Hrun. change (d_get "name" [("name", JStr name)]) with (Some (JStr name)) in Hrun. cbv iota in Hrun.
    destruct (bool_decide (name = "B")); unfold raise, modify in Hrun; simplify_eq. cbn. by rewrite lookup_insert_eq.
Qed.

(** A new object, of a group that starts at the beginning. *)
Definition start : Regional (B := broker.Bus) (H := nat) := mk_regional running_world (broker.mk_bus None 0 0) [] ∅ ∅ no_stats.
Lemma start_safe : safe broker.view event_streams "group" noted start.
Proof.
  split; try done.
  - intros c tp q [-> ->] o m Ho. cbn in Ho. cbn. rewrite bool_decide_eq_false_2; [done|lia].
Qed.
End noting.

(** The letters A and the empty event are committed; B, and C after it, will come again. *)
Lemma drain_at_least_once_witness :
  let '((o, stats), k') := drain broker.client noting.event_streams noting.json_loads ["quantum.production.blocked-account-plans.v1"] "group" noting.handler no_stats noting.start in
  o = Raise (mk_exn OperationalError "the database is down")
  /\ counts stats = [(("us-east", HANDLED), 1); (("us-east", INVALID), 1); (("us-east", RETRY), 1)]
  /\ kc_bus k' = broker.mk_bus (Some (0%nat, 2)) 2 1
  /\ safe broker.view noting.event_streams "group" noting.noted k'.
Proof.
  pose proof (drain_at_least_once broker.client broker.view noting.event_streams noting.json_loads
    (BrokerLaws0 := broker.laws) ["quantum.production.blocked-account-plans.v1"] "group" noting.handler noting.noted (H0 := noting.handler_laws)
    no_stats noting.start noting.start_safe) as H.
  revert H. destruct (drain _ _ _ _ _ _ _ _) as [[o stats] k'] eqn:E. intros H. split; [|split; [|split; [|exact H]]];
    vm_compute in E; by injection E as <- <- <-.
Defined.

(** * The mirror under redelivery

    The blocked set, fed with a log of events by a consumer that may go back and read again,
    ends as if the log had been read once. *)

Close Scope Z_scope.


Record Event := mk_blocked_event { ev_payload : EventPayload; ev_region : string; ev_topic : string }.

(** What the consumer is handed of a log, and where it is: it starts at the beginning, takes
    the next event, or goes back. *)
Inductive deliveries (log : list Event) : nat -> list Event -> Prop :=
  | deliveries_start : deliveries log 0 []
  | deliveries_next n d e : deliveries log n d -> log !! n = Some e -> deliveries log (S n) (d ++ [e])
  | deliveries_back n m d : deliveries log n d -> (m <= n)%nat -> deliveries log m d.

Section mirror.
Context (topic_reasons : list (string * BlockReason)).

(** Handling a sequence; an event that is refused for good is passed over. *)
Definition apply_event (w : World) (e : Event) : World := snd (handle topic_reasons (ev_payload e) (ev_region e) (ev_topic e) w).
Definition deliver (d : list Event) (w : World) : World := foldl apply_event w d.

Context (r : BlockedCloudResource).

(** What an event does to the presence of one row. *)
Definition verdict (e : Event) : option bool :=
  match event_row topic_reasons (ev_payload e) (ev_region e) (ev_topic e) with
  | Some (row, deleted) => if bool_decide (row = r) then Some (negb deleted) else None
  | None => None
  end.
Definition outcome_of (d : list Event) (b : bool) : bool := foldl (fun b e => default b (verdict e)) b d.
Definition present (w : World) : bool := bool_decide (r ∈ blocked (db w)).

Lemma apply_event_spec w e :
  NoDup (blocked (db w)) -> NoDup (blocked (db (apply_event w e))) /\ present (apply_event w e) = default (present w) (verdict e).
Proof.
  intros Hnd. pose proof (handle_spec topic_reasons (ev_payload e) (ev_region e) (ev_topic e) w Hnd) as H. unfold apply_event, verdict.
  destruct (event_row _ _ _ _) as [[row deleted]|].
  - destruct H as (w' & -> & Hnd' & Hin & _). cbn. split; [done|]. unfold present. specialize (Hin r).
    destruct deleted; destruct (bool_decide (row = r)) eqn:E; cbn; [apply bool_decide_eq_true in E as ->|apply bool_decide_eq_false in E|apply bool_decide_eq_true in E as ->|apply bool_decide_eq_false in E].
    + apply bool_decide_eq_false. rewrite Hin. tauto.
    + apply bool_decide_ext. rewrite Hin. naive_solver.
    + apply bool_decide_eq_true. rewrite Hin. tauto.
    + apply bool_decide_ext. rewrite Hin. naive_solver.
  - destruct H as (ex & -> & _). done.
Qed.

Lemma deliver_spec d w : NoDup (blocked (db w)) -> present (deliver d w) = outcome_of d (present w).
Proof.
  revert w. induction d as [|e d IH]; intros w Hnd; [done|]. destruct (apply_event_spec w e Hnd) as [Hnd' Hp].
  cbn. unfold deliver in IH. rewrite (IH _ Hnd'), Hp. done.
Qed.

Lemma outcome_of_app d d' b : outcome_of (d ++ d') b = outcome_of d' (outcome_of d b).
Proof. apply foldl_app. Qed.
Lemma outcome_of_silent d b : Forall (fun e => verdict e = None) d -> outcome_of d b = b.
Proof. revert b. induction d as [|e d IH]; intros b; [done|]. inversion 1 as [|?? He Hd]; subst. cbn. rewrite He. by apply IH. Qed.

(** Once the row has no event between the consumer and the farthest it has been, it is as
    the log up to there makes it. *)
Lemma deliveries_converge log n d b :
  deliveries log n d ->
  exists far, (n <= far <= length log)%nat
    /\ (Forall (fun e => verdict e = None) (drop n (take far log)) -> outcome_of d b = outcome_of (take far log) b).
Proof.
  induction 1 as [|n d e _ (far & Hfar & IH) He|n m d _ (far & Hfar & IH) Hm].
  - exists 0%nat. split; [lia|done].
  - pose proof (lookup_lt_Some _ _ _ He) as Hlt. assert (take (S n) log = take n log ++ [e]) as HS by by apply take_S_r.
    destruct (decide (n = far)) as [->|Hne].
    + exists (S far). split; [lia|]. intros _. rewrite HS, !outcome_of_app. f_equal. apply IH. rewrite drop_ge; [constructor|]. rewrite length_take. lia.
    + exists far. split; [lia|]. intros Hs. assert (drop n (take far log) = e :: drop (S n) (take far log)) as Hd.
      { apply drop_S. rewrite lookup_take_lt by lia. done. }
      rewrite outcome_of_app. cbn. destruct (verdict e) as [x|] eqn:Ev; cbn.
      * replace (take far log) with (take (S n) log ++ drop (S n) (take far log)).
        2:{ rewrite <- (take_drop (S n) (take far log)) at 2. by rewrite take_take, Nat.min_l by lia. }
        rewrite HS, !outcome_of_app, (outcome_of_silent _ _ Hs). cbn. by rewrite Ev.
      * apply IH. rewrite Hd. by constructor.
  - exists far. split; [lia|]. intros Hs. apply IH. replace n with (m + (n - m))%nat by lia. rewrite <- drop_drop. by apply Forall_drop.
Qed.
End mirror.

(** C31: However often the consumer went back, once it has reached the end of the log the mirror
    holds the rows it would hold had every event come once. *)
Theorem mirror_converges topic_reasons log d w r :
  NoDup (blocked (db w)) -> deliveries log (length log) d ->
  r ∈ blocked (db (deliver topic_reasons d w)) <-> r ∈ blocked (db (deliver topic_reasons log w)).
Proof.
  intros Hnd Hd. destruct (deliveries_converge topic_reasons r log (length log) d (present r w) Hd) as (far & Hfar & Hout).
  assert (far = length log) as -> by lia. rewrite firstn_all in Hout. specialize (Hout ltac:(rewrite drop_all; constructor)).
  rewrite <- !(deliver_spec topic_reasons r _ w Hnd) in Hout. unfold present in Hout.
  destruct (bool_decide (r ∈ blocked (db (deliver topic_reasons d w)))) eqn:E1, (bool_decide (r ∈ blocked (db (deliver topic_reasons log w)))) eqn:E2; try done;
    first [apply bool_decide_eq_true in E1, E2; tauto | apply bool_decide_eq_false in E1, E2; tauto].
Qed.

(** Blocked, recovered; the second event is read, then both again. *)
Definition block_event : EventPayload := fun field => if bool_decide (field = "deleted") then FieldBool false else unblock_event field.
Definition two_events : list Event :=
  [mk_blocked_event block_event "us-east" "quantum.prod.blocked-account-plans.v1";
   mk_blocked_event unblock_event "us-east" "quantum.prod.blocked-account-plans.v1"].

Lemma mirror_converges_witness :
  let reasons := blocked_accounts_topics "prod" in
  blocked_row ∈ blocked (db (deliver reasons (take 1 two_events) running_world))
  /\ (blocked_row ∈ blocked (db (deliver reasons (two_events ++ two_events) running_world))
      <-> blocked_row ∈ blocked (db (deliver reasons two_events running_world))).
Proof.
  intros reasons. split; [apply (bool_decide_unpack _); by vm_compute|].
  apply (mirror_converges reasons two_events (two_events ++ two_events) running_world blocked_row); [constructor|].
  assert (deliveries two_events 2 two_events) as H2.
  { apply (deliveries_next _ 1 [mk_blocked_event block_event "us-east" "quantum.prod.blocked-account-plans.v1"]); [|done].
    apply (deliveries_next _ 0 []); [constructor|done]. }
  apply (deliveries_next two_events 1 (two_events ++ take 1 two_events)); [|done].
  apply (deliveries_next two_events 0 two_events); [|done]. by apply (deliveries_back _ 2); [|lia].
Defined.
