(* ===== verification/KafkaSender.v ===== *)
(** * Publishing events ([core/ibm_cloud/event_streams/{kafka_producers,kafka_sender}.py])

    One producer per region, chosen by the CRN in the payload. The producer of librdkafka only
    queues a message; what became of it is told to a callback, served inside a later [poll] or
    [flush], possibly of another call. So the callbacks keep references to cells that outlive
    the call that made them. [Producer] and [json.dumps] are parameters. *)

From S2P Require Import Prelude PyStr Domain Models World Json KafkaConsumer.

Local Open Scope string_scope.
Local Open Scope list_scope.
Local Open Scope Z_scope.

(** ** Callbacks and what they refer to *)

(** The three closures handed to [produce], with what they captured. *)
Inductive DeliveryCallback :=
  | OnDelivery (cell : nat)
  | BestEffort
  | OnBatchDelivery (key cell : nat).

(** [delivery_error] of one [_send_with_ack], [delivered] of one [send_batch]. *)
Inductive Cell :=
  | DeliveryError (error : option KafkaError)
  | Delivered (keys : gset nat).

Definition Report : Type := DeliveryCallback * option KafkaError.

(** [poll] and [flush] serve reports, then raise or answer a number of messages. *)
Record Librdkafka (B P : Type) := mk_librdkafka {
  Producer : list (string * Json) -> M B P;
  produce : P -> string -> string -> string -> DeliveryCallback -> M B unit;
  poll : P -> B -> list Report * outcome Z * B;
  flush : P -> Z -> B -> list Report * outcome Z * B
}.
Arguments Producer {B P}. Arguments produce {B P}. Arguments poll {B P}. Arguments flush {B P}.

(** ** The producers *)

Record KafkaProducers (P : Type) := mk_producers { _producers : list (string * P); kafka_topic : string }.
Arguments mk_producers {P}. Arguments _producers {P}. Arguments kafka_topic {P}.

Definition producer_config (config : RegionConfig) : list (string * Json) :=
  sasl_config config ++
  [("enable.idempotence", JBool true);
   ("acks", JStr "all");
   ("message.timeout.ms", JNum (IntNum 4000))].

Section producers.
Context {B P : Type} (bus : Librdkafka B P) (settings : EventStreamsSettings).

Fixpoint create_producers (configs : list (string * RegionConfig)) (producers : list (string * P)) : M B (list (string * P)) :=
  match configs with
  | [] => ret producers
  | (region, config) :: configs =>
      producer <- Producer bus (producer_config config) ;;
      create_producers configs (d_set region producer producers)
  end.

Definition new_kafka_producers : M B (KafkaProducers P) :=
  producers <- create_producers (region_configs settings) [] ;;
  ret (mk_producers producers ("quantum." +:+ ENVIRONMENT settings +:+ ".function-usage.v1")).

Definition producer_for (producers : KafkaProducers P) (instance_crn : option string) : outcome P :=
  match Crn.parse instance_crn with
  | None => Raise (mk_exn UnroutableRegionError
              ("KafkaProducers: Cannot determine region from CRN (crn=" +:+ default "None" instance_crn +:+ ")"))
  | Some crn =>
      match d_get (Crn.region crn) (_producers producers) with
      | None => Raise (mk_exn UnroutableRegionError ("KafkaProducers: No producer configured for region " +:+ Crn.region crn))
      | Some producer => Ok producer
      end
  end.
End producers.

(** ** The sender *)

Record PendingMessage := mk_pending { pending_key : nat; pending_payload : Json }.

(** The process, whose monotonic clock is the sender's, the broker client, the fields of the
    object, the cells the closures refer to and the warnings logged: how many messages each
    told of, and when. *)
Record Sending (B : Type) := mk_sending {
  ks_world : World;
  ks_bus : B;
  _dropped : Z;
  _last_drop_warning : option Z;                (* [None] is [float("-inf")] *)
  cells : gmap nat Cell;
  next_cell : nat;
  warnings : list (Z * Z)
}.
Arguments mk_sending {B}. Arguments ks_world {B}. Arguments ks_bus {B}. Arguments _dropped {B}.
Arguments _last_drop_warning {B}. Arguments cells {B}. Arguments next_cell {B}. Arguments warnings {B}.

Definition WARN_EVERY : Z := 30 * 1000000.

(** The payload's fields, for a value that may not be a dict. *)
Definition instance_crn_of (payload : Json) : option string :=
  match payload with
  | JObj fields =>
      match d_get "data" fields with
      | Some (JObj data) => match d_get "instance_crn" data with Some (JStr crn) => Some crn | _ => None end
      | _ => None
      end
  | _ => None
  end.

Section sender.
Context {B P : Type} `{EqDecision P} (bus : Librdkafka B P) (json_dumps : Json -> outcome string).
Context (producers : KafkaProducers P).
Abbreviation Ks := (M (Sending B)).

Definition sender_process {A} (m : Py A) : Ks A :=
  fun k => let '(o, w) := m (ks_world k) in
           (o, mk_sending w (ks_bus k) (_dropped k) (_last_drop_warning k) (cells k) (next_cell k) (warnings k)).
Definition set_ks_bus (b : B) (k : Sending B) : Sending B :=
  mk_sending (ks_world k) b (_dropped k) (_last_drop_warning k) (cells k) (next_cell k) (warnings k).
Definition sender_bus {A} (m : M B A) : Ks A := fun k => let '(o, b) := m (ks_bus k) in (o, set_ks_bus b k).
Definition set_cell (cell : nat) (c : Cell) : Ks unit :=
  modify (fun k => mk_sending (ks_world k) (ks_bus k) (_dropped k) (_last_drop_warning k) (<[cell := c]> (cells k)) (next_cell k) (warnings k)).
Definition new_cell (c : Cell) : Ks nat :=
  fun k => (Ok (next_cell k),
            mk_sending (ks_world k) (ks_bus k) (_dropped k) (_last_drop_warning k) (<[next_cell k := c]> (cells k)) (S (next_cell k)) (warnings k)).
Definition read_cell (cell : nat) : Ks (option Cell) := gets (fun k => cells k !! cell).
Definition set_drops (dropped : Z) (last : option Z) (told : list (Z * Z)) : Ks unit :=
  modify (fun k => mk_sending (ks_world k) (ks_bus k) dropped last (cells k) (next_cell k) told).

Definition _drop : Ks unit :=
  k <- get ;;
  let dropped := _dropped k + 1 in
  t <- sender_process monotonic ;;
  if match _last_drop_warning k with None => true | Some last => WARN_EVERY <=? t - last end
  then set_drops 0 (Some t) (warnings k ++ [(dropped, t)])
  else set_drops dropped (_last_drop_warning k) (warnings k).

Definition delivery_report (report : Report) : Ks unit :=
  match report with
  | (OnDelivery cell, Some error) => set_cell cell (DeliveryError (Some error))
  | (OnDelivery _, None) => ret tt
  | (BestEffort, Some _) => _drop
  | (BestEffort, None) => ret tt
  | (OnBatchDelivery key cell, None) =>
      c <- read_cell cell ;;
      match c with Some (Delivered keys) => set_cell cell (Delivered ({[key]} ∪ keys)) | _ => ret tt end
  | (OnBatchDelivery _ _, Some _) => ret tt
  end.

(** A call that serves reports. *)
Definition serving (call : B -> list Report * outcome Z * B) : Ks Z :=
  fun k =>
    let '(reports, answer, b) := call (ks_bus k) in
    (for_each reports (fun r => delivery_report r ;;; ret true) ;;; of_outcome answer) (set_ks_bus b k).

Definition _produce (payload : Json) (callback : DeliveryCallback) : Ks P :=
  match payload with
  | JObj fields =>
      let message := d_set "type" (JStr (kafka_topic producers)) fields in
      producer <- of_outcome (producer_for producers (instance_crn_of (JObj message))) ;;
      try_except
        (key <- of_outcome (match d_get "subject" message with
                            | None => Raise (mk_exn KeyError "'subject'")
                            | Some (JStr subject) => Ok subject
                            | Some _ => Raise (mk_exn AttributeError "object has no attribute 'encode'")
                            end) ;;
         value <- of_outcome (json_dumps (JObj message)) ;;
         sender_bus (produce bus producer (kafka_topic producers) key value callback))
        (fun e =>
           if isinstance e BufferError then Some (serving (poll bus producer) ;;; raise e) else None) ;;;
      ret producer
  | _ => raise (mk_exn TypeError "object is not a mapping")
  end.

Definition _send_with_ack (payload : Json) (timeout : Z) : Ks unit :=
  cell <- new_cell (DeliveryError None) ;;
  try_except
    (producer <- _produce payload (OnDelivery cell) ;;
     remaining <- serving (flush bus producer timeout) ;;
     if 0 <? remaining then raise (mk_exn RuntimeError "KafkaSender: message(s) not delivered after flush timeout")
     else
       c <- read_cell cell ;;
       match c with
       | Some (DeliveryError (Some _)) => raise (mk_exn RuntimeError "KafkaSender: message delivery failed")
       | _ => ret tt
       end)
    (fun e =>
       if isinstance e UnroutableRegionError then None
       else Some (raise (mk_exn RuntimeError ("KafkaSender: Failed to publish event: " +:+ exn_str e)))).

Definition _send_without_waiting (payload : Json) : Ks unit :=
  try_except
    (producer <- _produce payload BestEffort ;; serving (poll bus producer) ;;; ret tt)
    (fun _ => Some _drop).

Definition kafka_send (payload : Json) (timeout : Z) : Ks unit :=
  if timeout =? 0 then _send_without_waiting payload else _send_with_ack payload timeout.

(** The producers used, each once, in the order of their first use. *)
Fixpoint produce_all (cell : nat) (messages : list PendingMessage) (used : list P) : Ks (list P) :=
  match messages with
  | [] => ret used
  | pending :: messages =>
      producer <- try_except
        (producer <- _produce (pending_payload pending) (OnBatchDelivery (pending_key pending) cell) ;;
         ret (Some producer))
        (fun _ => Some (ret None)) ;;
      produce_all cell messages
        (match producer with
         | Some producer => if bool_decide (producer ∈ used) then used else used ++ [producer]
         | None => used
         end)
  end.

Definition send_batch (messages : list PendingMessage) (timeout : Z) : Ks (gset nat) :=
  cell <- new_cell (Delivered ∅) ;;
  used <- produce_all cell messages [] ;;
  for_each used (fun producer =>
    try_except (serving (flush bus producer timeout) ;;; ret true) (fun _ => Some (ret true))) ;;;
  c <- read_cell cell ;;
  ret (match c with Some (Delivered keys) => keys | _ => ∅ end).
End sender.

(** ** Without a broker *)

Definition noop_send (payload : Json) : outcome unit := Ok tt.
Definition noop_send_batch (messages : list PendingMessage) : gset nat := list_to_set (pending_key <$> messages).

(** [None] is the [NoOpSender]. *)
Definition build_kafka_sender {B P} (bus : Librdkafka B P) (settings : EventStreamsSettings) : M B (option (KafkaProducers P)) :=
  if EVENT_STREAMS_ENABLED settings then (producers <- new_kafka_producers bus settings ;; ret (Some producers)) else ret None.
