(* ===== verification/KafkaSenderProps.v ===== *)
(** * What the Kafka sender promises

    A key is reported as delivered only when the broker of its message's region stored that
    very message; [send] returns only when it did. Both hold although callbacks of earlier
    calls are served inside later ones. *)

From S2P Require Import Prelude PyStr Domain Models World Json KafkaConsumer KafkaSender Samples.

Local Open Scope string_scope.
Local Open Scope list_scope.
Local Open Scope Z_scope.

(** ** What librdkafka documents *)

(** A topic, a key and a value. *)
Definition Record_ : Type := string * string * string.

(** A view of the client: the cluster of a configuration and of a producer, the records a
    cluster has stored, and the messages of a producer whose report was not served yet. *)
Record SenderView (B P C : Type) := mk_sender_view {
  config_cluster : list (string * Json) -> C;
  producer_cluster : P -> C;
  stored : B -> C -> Record_ -> Prop;
  unserved : B -> P -> DeliveryCallback -> Record_ -> Prop
}.
Arguments config_cluster {B P C}. Arguments producer_cluster {B P C}. Arguments stored {B P C}. Arguments unserved {B P C}.

Section delivery_laws.
Context {B P C : Type} (bus : Librdkafka B P) (v : SenderView B P C).

(** Records are never lost; [b'] has no message [b] had not. *)
Record keeps (b b' : B) : Prop := {
  keeps_stored c m : stored v b c m -> stored v b' c m;
  keeps_unserved p cb m : unserved v b' p cb m -> unserved v b p cb m
}.

(** What [poll] and [flush] do: they serve reports of messages that had none yet, each message
    has one, and a report without an error means that the record is stored. *)
Record serves (b : B) (rs : list Report) (b' : B) : Prop := {
  serves_keeps : keeps b b';
  serves_all p cb m : unserved v b p cb m -> unserved v b' p cb m \/ exists err, (cb, err) ∈ rs;
  serves_reports cb err : (cb, err) ∈ rs ->
    exists p m, unserved v b p cb m /\ (err = None -> stored v b' (producer_cluster v p) m)
}.

Class DeliveryLaws : Prop := {
  producer_law config b : match Producer bus config b with
    | (Ok p, b') => keeps b b' /\ producer_cluster v p = config_cluster v config
    | (Raise _, b') => keeps b b'
    end;
  (** [produce] queues the message, or raises and does not *)
  produce_law p t key value cb b : match produce bus p t key value cb b with
    | (Ok _, b') => (forall c m, stored v b c m -> stored v b' c m)
                    /\ forall p' cb' m, unserved v b' p' cb' m <-> unserved v b p' cb' m \/ (p', cb', m) = (p, cb, (t, key, value))
    | (Raise _, b') => serves b [] b'
    end;
  poll_law p b rs a b' : poll bus p b = (rs, a, b') -> serves b rs b';
  (** an answer of zero: every message of the producer had its report *)
  flush_law p timeout b rs a b' : flush bus p timeout b = (rs, a, b') ->
    serves b rs b' /\ forall n cb m, a = Ok n -> n <= 0 -> ~ unserved v b' p cb m
}.

(** A broker that takes everything. *)
Class Healthy : Prop := {
  healthy_produce p t key value cb b : fst (produce bus p t key value cb b) = Ok tt;
  healthy_poll p b rs a b' : poll bus p b = (rs, a, b') -> forall cb err, (cb, err) ∈ rs -> err = None;
  healthy_flush p timeout b rs a b' : flush bus p timeout b = (rs, a, b') -> a = Ok 0 /\ forall cb err, (cb, err) ∈ rs -> err = None
}.
End delivery_laws.

#[export] Instance keeps_preorder {B P C} (v : SenderView B P C) : PreOrder (keeps v).
Proof. split; [by split|]. intros x y z [] []. split; auto. Qed.

(** ** The producers are those of the configured regions *)

Section producers_of.
Context {B P C : Type} `{EqDecision P} (bus : Librdkafka B P) (v : SenderView B P C) `{!DeliveryLaws bus v}.

Definition made_from (configs : list (string * RegionConfig)) (ps : list (string * P)) : Prop :=
  forall region p, d_get region ps = Some p ->
    exists config, (region, config) ∈ configs /\ producer_cluster v p = config_cluster v (producer_config config).

Lemma create_producers_made configs :
  forall made ps b, made_from made ps ->
    wp (create_producers bus configs ps) (fun ps' _ => made_from (made ++ configs) ps') (fun _ _ => True) b.
Proof.
  induction configs as [|[region config] configs IH]; intros made ps b Hps; cbn [create_producers]; [by rewrite app_nil_r|].
  apply wp_bind. unfold wp at 1. pose proof (producer_law bus v (producer_config config) b) as Hl.
  destruct (Producer _ _ b) as [[p|e] b'] eqn:E; [|done]. destruct Hl as [_ Hc].
  rewrite (cons_middle (region, config)), (assoc_L app). apply IH. intros r p'. rewrite d_get_set.
  case_bool_decide as Hr; [intros [= <-]; subst; exists config; split; [set_solver|done]|].
  intros (c & Hin & Hcl)%Hps. exists c. split; [set_solver|done].
Qed.

Lemma new_producers_made settings b producers b' :
  new_kafka_producers bus settings b = (Ok producers, b') ->
  made_from (region_configs settings) (_producers producers).
Proof.
  unfold new_kafka_producers. intros H. apply bind_ok_inv in H as (ps & b1 & Hc & [= <- <-]).
  pose proof (create_producers_made (region_configs settings) [] [] b ltac:(done)) as Hw. unfold wp in Hw. by rewrite Hc in Hw.
Qed.
End producers_of.

(** ** Reports only write the cells *)

Section reports.
Context {B : Type}.
Implicit Type k : Sending B.

(** The write a report makes, if any. *)
Definition write_of (r : Report) (cs : gmap nat Cell) : gmap nat Cell :=
  match r with
  | (OnDelivery cell, Some error) => <[cell := DeliveryError (Some error)]> cs
  | (OnBatchDelivery key cell, None) =>
      match cs !! cell with Some (Delivered keys) => <[cell := Delivered ({[key]} ∪ keys)]> cs | _ => cs end
  | _ => cs
  end.

(** The process may have read its clock and warned. *)
Record only_cells (cs : gmap nat Cell) (k k' : Sending B) : Prop := {
  only_bus : ks_bus k' = ks_bus k;
  only_next : next_cell k' = next_cell k;
  only_written : cells k' = cs
}.

Lemma drop_runs k : exists k', _drop k = (Ok tt, k') /\ only_cells (cells k) k k'.
Proof.
  unfold _drop, sender_process, monotonic, set_drops, bind, get. cbn.
  match goal with |- context [if ?b then _ else _] => destruct b end; eexists; (split; [reflexivity|by split]).
Qed.

Lemma delivery_report_runs r k : exists k', delivery_report r k = (Ok tt, k') /\ only_cells (write_of r (cells k)) k k'.
Proof.
  destruct r as [[cell| |key cell] [error|]]; cbn [delivery_report write_of]; try (eexists; split; [reflexivity|by split]).
  - apply drop_runs.
  - unfold read_cell, bind, gets. cbn. destruct (cells k !! cell) as [[]|]; (eexists; split; [reflexivity|by split]).
Qed.

Lemma delivery_reports_run rs : forall k, exists k',
  for_each rs (fun r => delivery_report r ;;; ret true) k = (Ok tt, k') /\ only_cells (foldl (fun cs r => write_of r cs) (cells k) rs) k k'.
Proof.
  induction rs as [|r rs IH]; intros k; cbn [for_each foldl]; [eexists; split; [reflexivity|by split]|].
  destruct (delivery_report_runs r k) as (k1 & Hr & [Hb1 Hn1 Hc1]). unfold bind at 1 2. rewrite Hr. cbn.
  destruct (IH k1) as (k' & Hrs & [Hb Hn Hc]). exists k'. split; [exact Hrs|]. rewrite Hc1 in Hc. split; congruence.
Qed.

Lemma serving_runs call k rs a b' :
  call (ks_bus k) = (rs, a, b') ->
  exists k', serving call k = (a, k') /\ ks_bus k' = b' /\ next_cell k' = next_cell k
    /\ cells k' = foldl (fun cs r => write_of r cs) (cells k) rs.
Proof.
  intros Hc. unfold serving. rewrite Hc. destruct (delivery_reports_run rs (set_ks_bus b' k)) as (k' & Hr & [Hb Hn Hcs]).
  exists k'. rewrite (bind_ok _ _ _ _ _ Hr). by destruct a.
Qed.

(** ** What a set of delivered keys holds *)

Lemma writes_delivered cell rs : forall cs keys,
  cs !! cell = Some (Delivered keys) -> (forall err, (OnDelivery cell, err) ∉ rs) ->
  exists keys', foldl (fun cs r => write_of r cs) cs rs !! cell = Some (Delivered keys')
    /\ forall key, key ∈ keys' <-> key ∈ keys \/ (OnBatchDelivery key cell, None) ∈ rs.
Proof.
  induction rs as [|r rs IH]; intros cs keys Hc Hno; cbn [foldl]; [exists keys; set_solver|].
  assert (exists keys1, write_of r cs !! cell = Some (Delivered keys1)
            /\ forall key, key ∈ keys1 <-> key ∈ keys \/ r = (OnBatchDelivery key cell, None)) as (keys1 & Hc1 & Hk1).
  { destruct r as [[c0| |key c0] [error|]]; cbn [write_of];
      try (exists keys; split; [done|]; intros key'; split; [by left|by intros [?|?]]).
    - exists keys. split; [|intros key'; split; [by left|by intros [?|?]]].
      rewrite lookup_insert_ne; [done|]. intros ->. eapply Hno. by left.
    - destruct (decide (c0 = cell)) as [->|Hne].
      + rewrite Hc. exists ({[key]} ∪ keys). split; [by rewrite lookup_insert_eq|]. intros key'. rewrite elem_of_union, elem_of_singleton.
        split; [intros [->|?]; auto|intros [?|[= ->]]; auto].
      + exists keys. split; [destruct (cs !! c0) as [[]|]; [done|by rewrite lookup_insert_ne|done]|].
        intros key'. split; [by left|]. intros [?|[= ? ?]]; [done|congruence]. }
  destruct (IH (write_of r cs) keys1 Hc1) as (keys' & Hc' & Hk'); [intros err Hin; eapply Hno; by right|].
  exists keys'. split; [done|]. intros key. rewrite Hk', Hk1, elem_of_cons. naive_solver.
Qed.

Lemma writes_error cell rs : forall cs error,
  cs !! cell = Some (DeliveryError error) ->
  exists error', foldl (fun cs r => write_of r cs) cs rs !! cell = Some (DeliveryError error')
    /\ (error' = None -> error = None /\ forall err, (OnDelivery cell, err) ∈ rs -> err = None).
Proof.
  induction rs as [|r rs IH]; intros cs error Hc; cbn [foldl]; [exists error; set_solver|].
  assert (exists error1, write_of r cs !! cell = Some (DeliveryError error1)
            /\ (error1 = None -> error = None /\ forall err, r = (OnDelivery cell, err) -> err = None)) as (error1 & Hc1 & He1).
  { destruct r as [[c0| |key c0] [err|]]; cbn [write_of]; try (exists error; split; [done|]; intros ->; split; [done|by intros ? [=]]).
    - destruct (decide (c0 = cell)) as [->|Hne]; [exists (Some err); split; [by rewrite lookup_insert_eq|done]|].
      exists error. split; [by rewrite lookup_insert_ne|]. intros ->. split; [done|]. intros ? [=]; congruence.
    - exists error. split; [|intros ->; split; [done|by intros ? [=]]].
      destruct (decide (c0 = cell)) as [->|Hne]; [by rewrite Hc|]. destruct (cs !! c0) as [[]|]; [done|by rewrite lookup_insert_ne|done]. }
  destruct (IH _ _ Hc1) as (error' & Hc' & He'). exists error'. split; [done|]. intros H0. destruct (He' H0) as [-> Hrs].
  destruct (He1 eq_refl) as [-> Hr]. split; [done|]. intros err [<-|Hin]%elem_of_cons; auto.
Qed.
End reports.

(** ** The calls of the sender *)

Section sending.
Context {B P C : Type} `{EqDecision P} (bus : Librdkafka B P) (v : SenderView B P C) `{!DeliveryLaws bus v}.
Context (json_dumps : Json -> outcome string) (producers : KafkaProducers P).
Implicit Type k : Sending B.

(** The record of a payload, and the producer it goes to. *)
Definition encoded (payload : Json) (m : Record_) : Prop :=
  exists fields subject value, payload = JObj fields
    /\ let message := d_set "type" (JStr (kafka_topic producers)) fields in
       d_get "subject" message = Some (JStr subject) /\ json_dumps (JObj message) = Ok value
       /\ m = (kafka_topic producers, subject, value).
Definition routed (payload : Json) (p : P) : Prop := producer_for producers (instance_crn_of payload) = Ok p.

Lemma crn_with_type x fields : instance_crn_of (JObj (d_set "type" x fields)) = instance_crn_of (JObj fields).
Proof. unfold instance_crn_of. by rewrite d_get_set. Qed.

(** Reports were served, and nothing was queued. *)
Record progressed (rs : list Report) (k k' : Sending B) : Prop := {
  progress_bus : serves v (ks_bus k) rs (ks_bus k');
  progress_cells : cells k' = foldl (fun cs r => write_of r cs) (cells k) rs;
  progress_next : next_cell k' = next_cell k
}.
(** One message was queued. *)
Record queued (p : P) (cb : DeliveryCallback) (m : Record_) (k k' : Sending B) : Prop := {
  queued_stored c r : stored v (ks_bus k) c r -> stored v (ks_bus k') c r;
  queued_unserved p' cb' m' : unserved v (ks_bus k') p' cb' m' <-> unserved v (ks_bus k) p' cb' m' \/ (p', cb', m') = (p, cb, m);
  queued_cells : cells k' = cells k;
  queued_next : next_cell k' = next_cell k
}.

Lemma serves_refl b : serves v b [] b.
Proof. split; [done|auto|]. intros cb err H. by apply not_elem_of_nil in H. Qed.
Lemma serves_after b b1 rs b' : serves v b [] b1 -> serves v b1 rs b' -> serves v b rs b'.
Proof.
  intros [K A _] [K1 A1 R1]. split; [by etransitivity| |].
  - intros p cb m [Hu|[err H%not_elem_of_nil]]%A; [by apply A1|done].
  - intros cb err (p & m & Hu & Hs)%R1. exists p, m. split; [by apply K|done].
Qed.
Lemma progressed_refl k : progressed [] k k. Proof. split; [apply serves_refl|done..]. Qed.

Lemma serving_wp call k :
  (forall rs a b', call (ks_bus k) = (rs, a, b') -> serves v (ks_bus k) rs b') ->
  wp (serving call) (fun n k' => exists rs b', call (ks_bus k) = (rs, Ok n, b') /\ ks_bus k' = b' /\ progressed rs k k')
     (fun _ k' => exists rs e b', call (ks_bus k) = (rs, Raise e, b') /\ ks_bus k' = b' /\ progressed rs k k') k.
Proof.
  intros Hl. destruct (call (ks_bus k)) as [[rs a] b'] eqn:E. specialize (Hl _ _ _ eq_refl).
  destruct (serving_runs _ _ _ _ _ E) as (k' & Hr & Hb & Hn & Hc). unfold wp. rewrite Hr.
  destruct a as [n|e]; exists rs; [exists b'|exists e, b']; (split_and!; [done..|split; [by rewrite Hb|done..]]).
Qed.

(** What a failure to produce leaves: the reports a poll served. *)
Definition failed (k k' : Sending B) : Prop :=
  exists rs, progressed rs k k' /\ (Healthy bus -> forall cb err, (cb, err) ∈ rs -> err = None).
Lemma failed_at k k' : progressed [] k k' -> failed k k'.
Proof. intros H. exists []. split; [done|]. by intros _ cb err H'%not_elem_of_nil. Qed.

Lemma progressed_after k k1 rs k' : progressed [] k k1 -> progressed rs k1 k' -> progressed rs k k'.
Proof. intros [B1 C1 N1] [B2 C2 N2]. split; [by eapply serves_after|by rewrite C2, C1|congruence]. Qed.

(** The handler of a full queue polls, and raises again. *)
Lemma full_queue_wp p e (Q : unit -> Sending B -> Prop) (why : Prop) k k1 :
  progressed [] k k1 -> why ->
  match (if isinstance e BufferError then Some (serving (poll bus p) ;;; raise e) else None) with
  | Some h => wp h Q (fun _ k' => failed k k' /\ why) k1
  | None => failed k k1 /\ why
  end.
Proof.
  intros Hk Hw. destruct (isinstance e BufferError); [|split; [by apply failed_at|done]]. apply wp_bind.
  eapply wp_mono; [apply serving_wp; intros; eapply poll_law, H; exact _| |].
  - intros n k' (rs & b' & Hp & _ & Hk'). split; [|done]. exists rs. split; [by eapply progressed_after|]. intros Hh. by eapply healthy_poll.
  - intros e' k' (rs & e0 & b' & Hp & _ & Hk'). split; [|done]. exists rs. split; [by eapply progressed_after|]. intros Hh. by eapply healthy_poll.
Qed.

Lemma produce_wp payload cb k :
  wp (_produce bus json_dumps producers payload cb)
     (fun p k' => exists m, routed payload p /\ encoded payload m /\ queued p cb m k k')
     (fun _ k' => failed k k' /\ (Healthy bus -> forall p m, routed payload p -> ~ encoded payload m)) k.
Proof.
  destruct payload as [| | | | |fields]; try (split; [by apply failed_at, progressed_refl|by intros _ ? ? ? (?&?&?&?&?)]).
  unfold _produce. rewrite crn_with_type. set (message := d_set "type" _ fields).
  apply wp_bind, wp_of_outcome; [intros p Hp|intros e He; split; [apply failed_at, progressed_refl|intros _ p m Hr; unfold routed in Hr; congruence]].
  apply wp_bind, wp_try_except, wp_bind, wp_of_outcome.
  2:{ intros e He. apply full_queue_wp; [apply progressed_refl|]. intros _ p' m _ (fs & subject & value & [= <-] & Hs & _).
      fold message in Hs. by rewrite Hs in He. }
  intros subject Hs. apply wp_bind, wp_of_outcome.
  2:{ intros e He. apply full_queue_wp; [apply progressed_refl|]. intros _ p' m _ (fs & ? & value & [= <-] & _ & Hv & _).
      fold message in Hv. congruence. }
  intros value Hv. unfold sender_bus, wp at 1.
  pose proof (produce_law bus v p (kafka_topic producers) subject value cb (ks_bus k)) as Hl.
  destruct (produce bus p _ _ _ _ _) as [[[]|e] b'] eqn:E.
  - unfold wp, ret. exists (kafka_topic producers, subject, value). split; [done|]. split.
    + exists fields, subject, value. split; [done|]. split; [|done]. fold message.
      destruct (d_get "subject" message) as [[]|]; by simplify_eq.
    + destruct Hl as [Hst Hu]. by split.
  - apply full_queue_wp; [by split|]. intros Hh.
    pose proof (healthy_produce bus p (kafka_topic producers) subject value cb (ks_bus k)) as Ho. by rewrite E in Ho.
Qed.

(** ** Cells belong to one call *)

Definition cell_of (cb : DeliveryCallback) : option nat :=
  match cb with OnDelivery c | OnBatchDelivery _ c => Some c | BestEffort => None end.

(** Every closure in the client refers to a cell that was made. *)
Definition owned (k : Sending B) : Prop :=
  forall p cb m c, unserved v (ks_bus k) p cb m -> cell_of cb = Some c -> (c < next_cell k)%nat.
(** The closures over the cell [c0] are those of this call. *)
Record sane (c0 : nat) (mine : DeliveryCallback -> P -> Record_ -> Prop) (k : Sending B) : Prop := {
  sane_owned : owned k;
  sane_cell : (c0 < next_cell k)%nat;
  sane_mine p cb m : unserved v (ks_bus k) p cb m -> cell_of cb = Some c0 -> mine cb p m
}.

Lemma owned_progress rs k k' : progressed rs k k' -> owned k -> owned k'.
Proof. intros [[[_ Hk] _ _] _ Hn] Ho p cb m c Hu. rewrite Hn. eauto. Qed.
Lemma owned_queued p cb m k k' : queued p cb m k k' -> (forall c, cell_of cb = Some c -> (c < next_cell k)%nat) -> owned k -> owned k'.
Proof. intros [_ Hq _ Hn] Hc Ho p' cb' m' c [Hu|[= -> -> ->]]%Hq; rewrite Hn; eauto. Qed.
Lemma sane_progress c0 mine rs k k' : progressed rs k k' -> sane c0 mine k -> sane c0 mine k'.
Proof.
  intros Hp [Ho Hc Hm]. split; [by eapply owned_progress|by rewrite (progress_next _ _ _ Hp)|].
  intros p cb m Hu. apply Hm. by apply (serves_keeps _ _ _ _ (progress_bus _ _ _ Hp)).
Qed.
Lemma sane_queued c0 mine p cb m k k' :
  queued p cb m k k' -> cell_of cb = Some c0 -> mine cb p m -> sane c0 mine k -> sane c0 mine k'.
Proof.
  intros Hq Hcb Hm [Ho Hc Hs]. split.
  - eapply owned_queued; [exact Hq| |done]. rewrite Hcb. by intros c [= <-].
  - by rewrite (queued_next _ _ _ _ _ Hq).
  - intros p' cb' m' [Hu|[= -> -> ->]]%(queued_unserved _ _ _ _ _ Hq); eauto.
Qed.
(** A new cell is in no closure. *)
Lemma new_cell_sane c mine k : owned k -> sane (next_cell k) mine (snd (new_cell c k)).
Proof.
  intros Ho. split; [intros p cb m c' Hu Hc; specialize (Ho p cb m c' Hu Hc); cbn; lia|cbn; lia|].
  intros p cb m Hu Hc. specialize (Ho p cb m _ Hu Hc). lia.
Qed.

(** ** A batch *)

Definition deliverable (payload : Json) : Prop := exists p m, routed payload p /\ encoded payload m.
(** The record of a message with this key is stored where it belongs. *)
Definition confirmed (messages : list PendingMessage) (key : nat) (b : B) : Prop :=
  exists payload p m, mk_pending key payload ∈ messages /\ routed payload p /\ encoded payload m
    /\ stored v b (producer_cluster v p) m.
Definition batch_of (messages : list PendingMessage) (c0 : nat) (cb : DeliveryCallback) (p : P) (m : Record_) : Prop :=
  exists key payload, cb = OnBatchDelivery key c0 /\ mk_pending key payload ∈ messages /\ routed payload p /\ encoded payload m.

Record batch_safe (messages : list PendingMessage) (c0 : nat) (k : Sending B) : Prop := {
  batch_sane : sane c0 (batch_of messages c0) k;
  batch_cell : exists keys, cells k !! c0 = Some (Delivered keys) /\ forall key, key ∈ keys -> confirmed messages key (ks_bus k)
}.
(** Every message that can be delivered is, or waits in one of these producers. *)
Definition covered (messages : list PendingMessage) (c0 : nat) (used : list P) (k : Sending B) : Prop :=
  forall pending, pending ∈ messages -> deliverable (pending_payload pending) ->
    (exists keys, cells k !! c0 = Some (Delivered keys) /\ pending_key pending ∈ keys)
    \/ exists p m, p ∈ used /\ unserved v (ks_bus k) p (OnBatchDelivery (pending_key pending) c0) m.

Lemma no_error_callback messages c0 rs k k' err :
  batch_safe messages c0 k -> progressed rs k k' -> (OnDelivery c0, err) ∉ rs.
Proof.
  intros [Hs _] Hp Hin. destruct (serves_reports _ _ _ _ (progress_bus _ _ _ Hp) _ _ Hin) as (p & m & Hu & _).
  by destruct (sane_mine _ _ _ Hs _ _ _ Hu eq_refl) as (? & ? & ? & _).
Qed.

Lemma batch_progress messages c0 rs k k' : progressed rs k k' -> batch_safe messages c0 k -> batch_safe messages c0 k'.
Proof.
  intros Hp Hb. split; [eapply sane_progress, Hb; exact Hp|]. pose proof (fun err => no_error_callback _ _ _ _ _ err Hb Hp) as Hno.
  destruct Hb as [Hs (keys & Hc & Hkeys)]. destruct (writes_delivered c0 rs _ _ Hc Hno) as (keys' & Hc' & Hk').
  exists keys'. split; [by rewrite (progress_cells _ _ _ Hp)|]. pose proof (progress_bus _ _ _ Hp) as Hbus.
  intros key [Hk|Hr]%Hk'.
  - destruct (Hkeys key Hk) as (payload & p & m & ? & ? & ? & Hst). exists payload, p, m. split_and!; try done.
    by apply (serves_keeps _ _ _ _ Hbus).
  - destruct (serves_reports _ _ _ _ Hbus _ _ Hr) as (p & m & Hu & Hst).
    destruct (sane_mine _ _ _ Hs _ _ _ Hu eq_refl) as (? & payload & [= <-] & ? & ? & ?). exists payload, p, m. auto.
Qed.

Lemma covered_progress messages0 messages c0 used rs k k' :
  batch_safe messages0 c0 k -> progressed rs k k' -> (forall cb err, (cb, err) ∈ rs -> err = None) ->
  covered messages c0 used k -> covered messages c0 used k'.
Proof.
  intros Hb Hp Hnone Hcov pending Hin Hd. pose proof (fun err => no_error_callback _ _ _ _ _ err Hb Hp) as Hno.
  destruct Hb as [_ (keys & Hc & _)]. destruct (writes_delivered c0 rs _ _ Hc Hno) as (keys' & Hc' & Hk').
  rewrite <- (progress_cells _ _ _ Hp) in Hc'. destruct (Hcov _ Hin Hd) as [(ks & Hks & Hk)|(p & m & Hpu & Hu)].
  - left. exists keys'. split; [done|]. apply Hk'. left. congruence.
  - destruct (serves_all _ _ _ _ (progress_bus _ _ _ Hp) _ _ _ Hu) as [Hu'|[err Hr]]; [right; by exists p, m|].
    left. exists keys'. split; [done|]. apply Hk'. right. by rewrite (Hnone _ _ Hr) in Hr.
Qed.

Lemma batch_queued messages c0 key payload p m k k' :
  queued p (OnBatchDelivery key c0) m k k' -> mk_pending key payload ∈ messages -> routed payload p -> encoded payload m ->
  batch_safe messages c0 k -> batch_safe messages c0 k'.
Proof.
  intros Hq Hin Hr He [Hs (keys & Hc & Hk)]. split.
  - eapply sane_queued; [exact Hq|done| |done]. by exists key, payload.
  - exists keys. rewrite (queued_cells _ _ _ _ _ Hq). split; [done|]. intros key' (pl & p' & m' & ? & ? & ? & Hst)%Hk.
    exists pl, p', m'. split_and!; try done. by apply (queued_stored _ _ _ _ _ Hq).
Qed.

Lemma covered_queued messages c0 used key payload p m k k' :
  queued p (OnBatchDelivery key c0) m k k' -> covered messages c0 used k ->
  covered (messages ++ [mk_pending key payload]) c0 (if bool_decide (p ∈ used) then used else used ++ [p]) k'.
Proof.
  intros Hq Hcov. assert (p ∈ (if bool_decide (p ∈ used) then used else used ++ [p])) as Hp by (case_bool_decide; set_solver).
  assert (used ⊆ if bool_decide (p ∈ used) then used else used ++ [p]) as Hu by (case_bool_decide; set_solver).
  intros pending [Hin| ->%list_elem_of_singleton]%elem_of_app Hd.
  - rewrite (queued_cells _ _ _ _ _ Hq). destruct (Hcov _ Hin Hd) as [?|(p' & m' & ? & ?)]; [by left|].
    right. exists p', m'. split; [by apply Hu|]. apply (queued_unserved _ _ _ _ _ Hq). by left.
  - right. exists p, m. split; [done|]. apply (queued_unserved _ _ _ _ _ Hq). by right.
Qed.

Lemma produce_all_wp c0 rest : forall sofar used k,
  batch_safe (sofar ++ rest) c0 k -> (Healthy bus -> covered sofar c0 used k) ->
  wp (produce_all bus json_dumps producers c0 rest used)
     (fun used' k' => batch_safe (sofar ++ rest) c0 k' /\ (Healthy bus -> covered (sofar ++ rest) c0 used' k')) (fun _ _ => False) k.
Proof.
  induction rest as [|[key payload] rest IH]; intros sofar used k Hb Hcov; cbn [produce_all pending_payload pending_key].
  { rewrite app_nil_r in *. done. }
  rewrite (cons_middle (mk_pending key payload)), (assoc_L app) in *.
  apply wp_bind, wp_try_except, wp_bind. eapply wp_mono; [apply produce_wp| |].
  - intros p k1 (m & Hr & He & Hq). unfold wp at 1, ret. apply IH; [|intros Hh; by apply (covered_queued _ _ _ _ _ _ _ _ _ Hq), Hcov].
    eapply batch_queued; [exact Hq| |done..]. set_solver.
  - intros e k1 [(rs & Hp & Hnone) Hnot]. unfold wp at 1, ret. apply IH; [by eapply batch_progress|]. intros Hh.
    pose proof (covered_progress _ _ _ _ _ _ _ Hb Hp (Hnone Hh) (Hcov Hh)) as Hc.
    intros pending [Hin| ->%list_elem_of_singleton]%elem_of_app Hd; [by apply Hc|]. destruct Hd as (p & m & Hr & He). by destruct (Hnot Hh p m Hr).
Qed.

Lemma flush_all_wp messages c0 timeout used : forall k,
  batch_safe messages c0 k -> (Healthy bus -> covered messages c0 used k) ->
  wp (for_each used (fun p => try_except (serving (flush bus p timeout) ;;; ret true) (fun _ => Some (ret true))))
     (fun _ k' => batch_safe messages c0 k' /\ (Healthy bus -> covered messages c0 [] k')) (fun _ _ => False) k.
Proof.
  induction used as [|p used IH]; intros k Hb Hcov; cbn [for_each]; [done|].
  apply wp_bind, wp_try_except, wp_bind. eapply wp_mono; [apply serving_wp; intros rs a b' Hf; eapply flush_law, Hf; exact _| |].
  - intros n k1 (rs & b' & Hf & Hb' & Hp). unfold wp at 1, ret. apply IH; [by eapply batch_progress|]. intros Hh.
    destruct (healthy_flush bus _ _ _ _ _ _ Hf) as [[= ->] Hnone]. destruct (flush_law bus v _ _ _ _ _ _ Hf) as [_ Hempty].
    intros pending Hin Hd. destruct (covered_progress _ _ _ _ _ _ _ Hb Hp Hnone (Hcov Hh) _ Hin Hd) as [?|(p' & m & [->|Hp']%elem_of_cons & Hu)]; [by left| |right; by exists p', m].
    destruct (Hempty 0 (OnBatchDelivery (pending_key pending) c0) m eq_refl ltac:(done)). by rewrite <- Hb'.
  - intros e k1 (rs & e0 & b' & Hf & Hb' & Hp). unfold wp at 1, ret. apply IH; [by eapply batch_progress|]. intros Hh.
    by destruct (healthy_flush bus _ _ _ _ _ _ Hf).
Qed.

Lemma send_batch_wp messages timeout k : owned k ->
  wp (send_batch bus json_dumps producers messages timeout)
     (fun keys k' => owned k' /\ (forall key, key ∈ keys -> confirmed messages key (ks_bus k'))
        /\ (Healthy bus -> forall pending, pending ∈ messages -> deliverable (pending_payload pending) -> pending_key pending ∈ keys))
     (fun _ _ => False) k.
Proof.
  intros Ho. unfold send_batch. apply wp_bind. unfold wp at 1, new_cell. set (c0 := next_cell k).
  assert (batch_safe messages c0 (snd (new_cell (Delivered ∅) k))) as Hb.
  { split; [by apply new_cell_sane|]. exists ∅. split; [apply lookup_insert_eq|set_solver]. }
  apply wp_bind. eapply wp_mono; [apply (produce_all_wp c0 messages [] [] _ Hb); intros _ ? H%not_elem_of_nil; done| |done].
  cbn [app]. intros used k1 [Hb1 Hc1]. apply wp_bind. eapply wp_mono; [by apply flush_all_wp| |done].
  intros _ k2 [[Hs (keys & Hc & Hk)] Hcov]. apply wp_bind. unfold wp at 1, read_cell, gets. rewrite Hc. unfold wp, ret.
  split; [apply Hs|]. split; [done|]. intros Hh pending Hin Hd.
  destruct (Hcov Hh _ Hin Hd) as [(ks & ? & ?)|(? & ? & ?%not_elem_of_nil & _)]; [congruence|done].
Qed.

(** ** One message *)

Definition acknowledged (payload : Json) (k : Sending B) : Prop :=
  exists p m, routed payload p /\ encoded payload m /\ stored v (ks_bus k) (producer_cluster v p) m.
Definition ack_of (payload : Json) (c0 : nat) (cb : DeliveryCallback) (p : P) (m : Record_) : Prop :=
  cb = OnDelivery c0 /\ routed payload p /\ encoded payload m.

(** A flush that leaves nothing and a cell without an error: the record is stored. *)
Lemma ack_stored payload c0 p m timeout rs n k k1 :
  sane c0 (ack_of payload c0) k -> unserved v (ks_bus k) p (OnDelivery c0) m ->
  flush bus p timeout (ks_bus k) = (rs, Ok n, ks_bus k1) -> n <= 0 -> progressed rs k k1 ->
  (forall err, (OnDelivery c0, err) ∈ rs -> err = None) -> acknowledged payload k1.
Proof.
  intros Hs Hu Hf Hn Hp Hnone. destruct (flush_law bus v _ _ _ _ _ _ Hf) as [_ Hempty].
  destruct (serves_all _ _ _ _ (progress_bus _ _ _ Hp) _ _ _ Hu) as [Hu'|[err Hr]]; [by destruct (Hempty n _ _ eq_refl Hn Hu')|].
  destruct (serves_reports _ _ _ _ (progress_bus _ _ _ Hp) _ _ Hr) as (p' & m' & Hu' & Hst).
  destruct (sane_mine _ _ _ Hs _ _ _ Hu' eq_refl) as (_ & Hro & He). exists p', m'. split; [done|]. split; [done|].
  apply Hst. by apply Hnone in Hr.
Qed.

Lemma send_with_ack_wp payload timeout k : owned k ->
  wp (_send_with_ack bus json_dumps producers payload timeout) (fun _ k' => owned k' /\ acknowledged payload k')
     (fun e k' => owned k' /\ isinstance e RuntimeError = true) k.
Proof.
  intros Ho. unfold _send_with_ack. apply wp_bind. unfold wp at 1, new_cell. set (c0 := next_cell k).
  pose proof (new_cell_sane (DeliveryError None) (ack_of payload c0) k Ho) as Hs. fold c0 in Hs.
  assert (cells (snd (new_cell (DeliveryError None) k)) !! c0 = Some (DeliveryError None)) as Hc by apply lookup_insert_eq.
  change (mk_sending _ _ _ _ _ _ _) with (snd (new_cell (DeliveryError None) k)). generalize dependent (snd (new_cell (DeliveryError None) k)).
  intros k0 Hs Hc. apply wp_try_except.
  apply (wp_mono _ (fun _ k' => owned k' /\ acknowledged payload k') _ (fun _ k' => owned k')); [|done|].
  2:{ intros e k' Ho'. destruct (isinstance e UnroutableRegionError) eqn:E; [|by split].
      split; [done|]. apply bool_decide_eq_true in E. cbn. by rewrite E. }
  apply wp_bind. eapply wp_mono; [apply produce_wp| |by intros e k' [(rs & Hp & _) _]; eapply owned_progress, Hs].
  intros p k1 (m & Hr & He & Hq). assert (sane c0 (ack_of payload c0) k1) as Hs1 by by eapply sane_queued; [exact Hq| | |exact Hs].
  apply wp_bind. eapply wp_mono; [apply serving_wp; intros rs a b' Hf; eapply flush_law, Hf; exact _| |].
  2:{ intros e k' (rs & e0 & b' & _ & _ & Hp). eapply owned_progress, Hs1; exact Hp. }
  intros n k2 (rs & b' & Hf & <- & Hp). pose proof (sane_progress _ _ _ _ _ Hp Hs1) as Hs2. cbv beta.
  destruct (Z.ltb_spec 0 n); [apply Hs2|]. apply wp_bind. unfold wp at 1, read_cell, gets.
  rewrite <- (queued_cells _ _ _ _ _ Hq) in Hc. destruct (writes_error c0 rs _ _ Hc) as (error & Hc' & Hnone).
  rewrite (progress_cells _ _ _ Hp), Hc'. destruct error as [error|]; [apply Hs2|]. split; [apply Hs2|].
  eapply ack_stored; [exact Hs1| |exact Hf|lia|exact Hp|by apply Hnone]. apply (queued_unserved _ _ _ _ _ Hq). by right.
Qed.

Lemma owned_drop k : owned k -> wp _drop (fun _ => owned) (fun _ _ => False) k.
Proof. intros Ho. destruct (drop_runs k) as (k' & Hr & [Hb Hn _]). unfold wp. rewrite Hr. intros p cb m c. rewrite Hb, Hn. apply Ho. Qed.

Lemma send_without_waiting_wp payload k : owned k ->
  wp (_send_without_waiting bus json_dumps producers payload) (fun _ => owned) (fun _ _ => False) k.
Proof.
  intros Ho. apply wp_try_except. apply (wp_mono _ (fun _ => owned) _ (fun _ => owned)); [|done|intros e k' Ho'; by apply owned_drop].
  apply wp_bind. eapply wp_mono; [apply produce_wp| |by intros e k' [(rs & Hp & _) _]; eapply owned_progress, Ho].
  intros p k1 (m & _ & _ & Hq). assert (owned k1) as Ho1 by by eapply owned_queued; [exact Hq| |exact Ho].
  apply wp_bind. eapply wp_mono; [apply serving_wp; intros rs a b' Hf; eapply poll_law, Hf; exact _| |].
  - intros n k2 (rs & b' & _ & _ & Hp). unfold wp, ret. by eapply owned_progress.
  - intros e k2 (rs & e0 & b' & _ & _ & Hp). by eapply owned_progress.
Qed.

(** ** The life of a sender *)

(** Between its calls time passes and the client works in the background. *)
Inductive reachable : Sending B -> Prop :=
  | reach_new w b : (forall p cb m, ~ unserved v b p cb m) -> reachable (mk_sending w b 0 None ∅ 0 [])
  | reach_meanwhile k w b : reachable k -> keeps v (ks_bus k) b ->
      reachable (mk_sending w b (_dropped k) (_last_drop_warning k) (cells k) (next_cell k) (warnings k))
  | reach_send k payload timeout : reachable k -> reachable (snd (kafka_send bus json_dumps producers payload timeout k))
  | reach_batch k messages timeout : reachable k -> reachable (snd (send_batch bus json_dumps producers messages timeout k)).

Lemma wp_snd {S A} (m : M S A) (I : S -> Prop) s : wp m (fun _ => I) (fun _ => I) s -> I (snd (m s)).
Proof. unfold wp. by destruct (m s) as [[]]. Qed.

Lemma reachable_owned k : reachable k -> owned k.
Proof.
  induction 1 as [w b Hnone|k w b _ IH Hk|k payload timeout _ IH|k messages timeout _ IH].
  - intros p cb m c Hu. by destruct (Hnone p cb m).
  - intros p cb m c Hu. apply (IH p cb m), Hk, Hu.
  - apply wp_snd. unfold kafka_send. destruct (timeout =? 0).
    + eapply wp_mono; [by apply send_without_waiting_wp|done|done].
    + eapply wp_mono; [by apply send_with_ack_wp|by intros _ ? []|by intros ? ? []].
  - apply wp_snd. eapply wp_mono; [by apply send_batch_wp|by intros ? ? []|done].
Qed.
End sending.

(** ** The contract of the sender *)

Section contract.
Context {B P C : Type} `{EqDecision P} (bus : Librdkafka B P) (v : SenderView B P C) `{!DeliveryLaws bus v}.
Context (settings : EventStreamsSettings) (json_dumps : Json -> outcome string).

(** The record of [payload], in the cluster of the region its CRN names. *)
Definition stored_in_region (topic : string) (payload : Json) (b : B) : Prop :=
  exists fields crn config subject value,
    payload = JObj fields /\ Crn.parse (instance_crn_of payload) = Some crn
    /\ (Crn.region crn, config) ∈ region_configs settings
    /\ let message := d_set "type" (JStr topic) fields in
       d_get "subject" message = Some (JStr subject) /\ json_dumps (JObj message) = Ok value
       /\ stored v b (config_cluster v (producer_config config)) (topic, subject, value).

Lemma in_region b0 b1 producers payload p m b :
  new_kafka_producers bus settings b0 = (Ok producers, b1) -> routed producers payload p -> encoded json_dumps producers payload m ->
  stored v b (producer_cluster v p) m -> stored_in_region (kafka_topic producers) payload b.
Proof.
  intros Hnew Hr (fields & subject & value & -> & Hs & Hv & ->) Hst. unfold routed, producer_for in Hr.
  destruct (Crn.parse _) as [crn|] eqn:Hcrn; [|done]. destruct (d_get _ (_producers producers)) as [p'|] eqn:Hp; [|done]. simplify_eq.
  destruct (new_producers_made bus v _ _ _ _ Hnew _ _ Hp) as (config & Hin & Hcl).
  exists fields, crn, config, subject, value. rewrite <- Hcl. done.
Qed.

(** C32: of a batch, only the keys of messages that the broker of their CRN's region stored are
    answered, whatever earlier calls left behind in the client; a healthy broker gets them all;
    and the call never raises. *)
Theorem batch_confirmed b0 b1 producers messages timeout k :
  new_kafka_producers bus settings b0 = (Ok producers, b1) -> reachable bus v json_dumps producers k ->
  match send_batch bus json_dumps producers messages timeout k with
  | (Ok keys, k') =>
      (forall key, key ∈ keys -> exists payload, mk_pending key payload ∈ messages
         /\ stored_in_region (kafka_topic producers) payload (ks_bus k'))
      /\ (Healthy bus -> forall pending, pending ∈ messages -> deliverable json_dumps producers (pending_payload pending) ->
           pending_key pending ∈ keys)
  | (Raise _, _) => False
  end.
Proof.
  intros Hnew Hk. pose proof (send_batch_wp bus v json_dumps producers messages timeout k (reachable_owned _ _ _ _ _ Hk)) as Hw.
  unfold wp in Hw. destruct (send_batch _ _ _ _ _ k) as [[keys|e] k']; [|done]. destruct Hw as (_ & Hkeys & Hall). split; [|done].
  intros key (payload & p & m & Hin & Hr & He & Hst)%Hkeys. exists payload. split; [done|]. by eapply in_region.
Qed.

(** [send] with a timeout returns only when the broker of the region stored the message,
    and raises nothing but [RuntimeError]; without one it never raises. *)
Theorem send_confirmed b0 b1 producers payload timeout k :
  new_kafka_producers bus settings b0 = (Ok producers, b1) -> reachable bus v json_dumps producers k ->
  match kafka_send bus json_dumps producers payload timeout k with
  | (Ok _, k') => timeout = 0 \/ stored_in_region (kafka_topic producers) payload (ks_bus k')
  | (Raise e, _) => timeout <> 0 /\ isinstance e RuntimeError = true
  end.
Proof.
  intros Hnew Hr. pose proof (reachable_owned _ _ _ _ _ Hr) as Hk. clear Hr. unfold kafka_send. destruct (Z.eqb_spec timeout 0) as [H0|H0].
  - pose proof (send_without_waiting_wp bus v json_dumps producers payload k Hk) as Hw. unfold wp in Hw.
    destruct (_send_without_waiting _ _ _ _ k) as [[[]|e] k']; [by left|done].
  - pose proof (send_with_ack_wp bus v json_dumps producers payload timeout k Hk) as Hw. unfold wp in Hw.
    destruct (_send_with_ack _ _ _ _ _ k) as [[[]|e] k']; [|by destruct Hw].
    destruct Hw as (_ & p & m & Hr & He & Hst). right. by eapply in_region.
Qed.
End contract.

(** ** A client *)

(** It stores a message when it is flushed, unless the broker rejects its key. *)
Module queueing.
Section queueing.
Context (rejects : string -> bool).

Record Client := mk_client { waiting : list (string * DeliveryCallback * Record_); kept : list (string * Record_) }.
Definition server (config : list (string * Json)) : string :=
  match d_get "bootstrap.servers" config with Some (JStr s) => s | _ => "" end.
Definition of_producer (p : string) (b : Client) : list (string * DeliveryCallback * Record_) := filter (fun e => e.1.1 = p) (waiting b).
Definition accepted (e : string * DeliveryCallback * Record_) : bool := negb (rejects e.2.1.2).

Definition client : Librdkafka Client string := {|
  Producer config := ret (server config);
  produce p t key value cb := modify (fun b => mk_client (waiting b ++ [(p, cb, (t, key, value))]) (kept b));
  poll p b := ([], Ok 0, b);
  flush p timeout b :=
    ((fun e => (e.1.2, if accepted e then None else Some (mk_kafka_error false "TOPIC_AUTHORIZATION_FAILED"))) <$> of_producer p b,
     Ok 0,
     mk_client (filter (fun e => e.1.1 <> p) (waiting b)) (kept b ++ ((fun e => (p, e.2)) <$> filter (fun e => accepted e) (of_producer p b))))
|}.
Definition view : SenderView Client string string := {|
  config_cluster := server;
  producer_cluster p := p;
  stored b c m := (c, m) ∈ kept b;
  unserved b p cb m := (p, cb, m) ∈ waiting b
|}.

#[export] Instance laws : DeliveryLaws client view.
Proof.
  split.
  - intros config b. by split.
  - intros p t key value cb b. cbn. split; [done|]. intros p' cb' m. rewrite elem_of_app, list_elem_of_singleton. done.
  - intros p b rs a b' [= <- <- <-]. split; [done|auto|]. intros cb err H. by apply not_elem_of_nil in H.
  - intros p timeout b rs a b' [= <- <- <-]. unfold of_producer. split; [split; [split|..]|]; cbn.
    + intros c m H. apply elem_of_app. by left.
    + intros p' cb m. rewrite list_elem_of_filter. tauto.
    + intros p' cb m H. destruct (decide (p' = p)) as [->|Hne]; [right|left; rewrite list_elem_of_filter; by split].
      eexists. apply list_elem_of_fmap. exists (p, cb, m). split; [reflexivity|]. apply list_elem_of_filter. by split.
    + intros cb err ([[p' cb'] m] & [= -> ->] & [Hp Hin]%list_elem_of_filter)%list_elem_of_fmap. cbn in Hp. subst p'.
      exists p, m. split; [done|]. intros Hacc. apply elem_of_app. right. apply list_elem_of_fmap. exists (p, cb', m). split; [done|].
      apply list_elem_of_filter. split; [|by apply list_elem_of_filter]. by destruct (accepted _).
    + intros n cb m _ _. rewrite list_elem_of_filter. by intros [Hne _].
Qed.
End queueing.

#[export] Instance healthy : Healthy (client (fun _ => false)).
Proof.
  split; [done| |].
  - intros p b rs a b' [= <- _ _] cb err H. by apply not_elem_of_nil in H.
  - intros p timeout b rs a b' [= <- <- _]. split; [done|]. by intros cb err (e & [= _ ->] & _)%list_elem_of_fmap.
Qed.

Definition settings : EventStreamsSettings :=
  mk_event_streams true "us-east" "main:9093" "key" "token" [("eu-de", mk_region_config "eu:9093" "key" "token")] "staging".
Definition json_dumps (v : Json) : outcome string := Ok "{}".
Definition crn_in (region : string) : string := "crn:v1:bluemix:public:quantum-computing:" +:+ region +:+ ":a/account:instance::".
Definition payload (subject region : string) : Json :=
  JObj [("subject", JStr subject); ("data", JObj [("instance_crn", JStr (crn_in region))])].
Definition producers : KafkaProducers string := mk_producers [("us-east", "main:9093"); ("eu-de", "eu:9093")] "quantum.staging.function-usage.v1".
Definition rejects (key : string) : bool := bool_decide (key = "refused").
Definition start : Sending Client := mk_sending running_world (mk_client [] []) 0 None ∅ 0 [].
(** A best effort message that will be refused waits in the client. *)
Definition later : Sending Client := snd (kafka_send (client rejects) json_dumps producers (payload "refused" "eu-de") 0 start).
Lemma later_reachable : reachable (client rejects) view json_dumps producers later.
Proof. apply reach_send, reach_new. intros p cb m. apply not_elem_of_nil. Qed.
Definition batch : list PendingMessage :=
  [mk_pending 1 (payload "one" "us-east"); mk_pending 2 (payload "two" "eu-de"); mk_pending 3 (payload "three" "au-syd"); mk_pending 4 (payload "refused" "eu-de")].
End queueing.

Lemma batch_confirmed_witness :
  match send_batch (queueing.client queueing.rejects) queueing.json_dumps queueing.producers queueing.batch 5 queueing.later with
  | (Ok keys, k') =>
      elements keys = [2; 1]%nat /\ warnings k' = [(1, mono running_world 0)]
      /\ forall key, key ∈ keys -> exists payload, mk_pending key payload ∈ queueing.batch
           /\ stored_in_region queueing.view queueing.settings queueing.json_dumps "quantum.staging.function-usage.v1" payload (ks_bus k')
  | (Raise _, _) => False
  end.
Proof.
  pose proof (batch_confirmed (queueing.client queueing.rejects) queueing.view (DeliveryLaws0 := queueing.laws queueing.rejects)
    queueing.settings queueing.json_dumps (queueing.mk_client [] []) (queueing.mk_client [] []) queueing.producers queueing.batch 5 queueing.later eq_refl
    queueing.later_reachable) as H.
  destruct (send_batch _ _ _ _ _ _) as [[keys|e] k'] eqn:E; [|exact H]. destruct H as [H _].
  split; [|split; [|exact H]]; clear H; vm_compute in E; injection E as <- <-; vm_compute; reflexivity.
Defined.

Lemma send_confirmed_witness :
  match kafka_send (queueing.client queueing.rejects) queueing.json_dumps queueing.producers (queueing.payload "one" "us-east") 5 queueing.later with
  | (Ok _, k') => stored_in_region queueing.view queueing.settings queueing.json_dumps "quantum.staging.function-usage.v1" (queueing.payload "one" "us-east") (ks_bus k')
  | (Raise _, _) => False
  end.
Proof.
  pose proof (send_confirmed (queueing.client queueing.rejects) queueing.view (DeliveryLaws0 := queueing.laws queueing.rejects)
    queueing.settings queueing.json_dumps (queueing.mk_client [] []) (queueing.mk_client [] []) queueing.producers (queueing.payload "one" "us-east") 5
    queueing.later eq_refl queueing.later_reachable) as H.
  destruct (kafka_send _ _ _ _ _ _) as [[[]|e] k'] eqn:E; [by destruct H|]. vm_compute in E. by injection E.
Defined.

(** A message that is refused: [send] raises, and says so only after its callback was served. *)
Example send_refused :
  fst (kafka_send (queueing.client queueing.rejects) queueing.json_dumps queueing.producers (queueing.payload "refused" "us-east") 5 queueing.start)
  = Raise (mk_exn RuntimeError "KafkaSender: Failed to publish event: KafkaSender: message delivery failed").
Proof. reflexivity. Qed.
