(* ===== verification/TextFiles.v ===== *)
(** * Text files

    [open(path, "r", encoding="utf-8")] and its writing half, over the bytes of the file
    system: strict UTF-8, and the newlines Python translates when it reads.

    As in [RayLogs], a [str] is the list of its code points and a byte a number below 256. *)

From S2P Require Import Prelude PyStr Domain Models Paths Stores RayLogs.

Local Open Scope list_scope.
Local Open Scope Z_scope.

Abbreviation Text := (list Z).

(** ** UTF-8, strict *)

Definition surrogate (c : Z) : bool := high_surrogate c || low_surrogate c.
Definition decode_utf8 (b : Bytes) : outcome Text :=
  match utf8_decode b with
  | Some cs => if existsb surrogate cs then Raise unicode_error else Ok cs
  | None => Raise unicode_error
  end.

Definition encode_char (c : Z) : Bytes :=
  if c <? 128 then [c]
  else if c <? 2048 then [192 + c / 64; 128 + c mod 64]
  else if c <? 65536 then [224 + c / 4096; 128 + c / 64 mod 64; 128 + c mod 64]
  else [240 + c / 262144; 128 + c / 4096 mod 64; 128 + c / 64 mod 64; 128 + c mod 64].
Definition encode_error : exn := mk_exn UnicodeEncodeError "'utf-8' codec can't encode characters: surrogates not allowed".
Definition encode_utf8 (cs : Text) : outcome Bytes :=
  if existsb surrogate cs then Raise encode_error else Ok (cs ≫= encode_char).

(** The contents of a file, as its bytes. *)
Fixpoint of_bytes (b : Bytes) : string :=
  match b with [] => EmptyString | x :: b => String (Ascii.ascii_of_nat (Z.to_nat x)) (of_bytes b) end.

(** ** Newlines: [\r\n] and [\r] are read as [\n] *)

Definition CR : Z := 13.
Definition LF : Z := 10.
Fixpoint newlines (after_cr : bool) (cs : Text) : Text :=
  match cs with
  | [] => []
  | c :: cs =>
      if c =? CR then LF :: newlines true cs
      else if (c =? LF) && after_cr then newlines false cs
      else c :: newlines false cs
  end.

(** ** Reading and writing *)

Definition read_text (p : string) : M Store Text :=
  content <- read_file p ;;
  cs <- of_outcome (decode_utf8 (text content)) ;;
  ret (newlines false cs).

(** The file is opened, and emptied, before the text is encoded. *)
Definition write_text (p : string) (cs : Text) : M Store unit :=
  write_file p "" ;;;
  b <- of_outcome (encode_utf8 cs) ;;
  write_file p (of_bytes b).

Example newlines_ex : newlines false [65; 13; 10; 66; 13; 67; 10; 13; 13; 10] = [65; 10; 66; 10; 67; 10; 10; 10].
Proof. reflexivity. Qed.

(** ** Lemmas *)

(** A [str] Python can hold: code points. *)
Definition code_point (c : Z) : Prop := 0 <= c < 1114112.

Lemma continuation_of x : 0 <= x < 64 -> continuation (128 + x) = Some x.
Proof.
  intros Hx. unfold continuation. rewrite (proj2 (Z.leb_le 128 (128 + x))), (proj2 (Z.ltb_lt (128 + x) 192)) by lia. cbn [andb].
  f_equal. lia.
Qed.

Lemma decode_char c rest : code_point c -> utf8_decode (encode_char c ++ rest) = cons c <$> utf8_decode rest.
Proof.
  intros [H0 H1]. unfold encode_char. destruct (c <? 128) eqn:E1.
  { cbn [app utf8_decode]. apply Z.ltb_lt in E1. by rewrite (proj2 (Z.leb_le 0 c)), (proj2 (Z.ltb_lt c 128)) by lia. }
  apply Z.ltb_ge in E1. pose proof (Z.mod_pos_bound c 64 ltac:(lia)) as Hm0. pose proof (Z.mod_pos_bound (c / 64) 64 ltac:(lia)) as Hm1.
  pose proof (Z.mod_pos_bound (c / 4096) 64 ltac:(lia)) as Hm2. pose proof (Z.div_mod c 64 ltac:(lia)) as Hd0.
  assert (c / 64 / 64 = c / 4096) as Hq1 by (rewrite Z.div_div by lia; done). pose proof (Z.div_mod (c / 64) 64 ltac:(lia)) as Hd1. rewrite Hq1 in Hd1.
  assert (c / 4096 / 64 = c / 262144) as Hq2 by (rewrite Z.div_div by lia; done). pose proof (Z.div_mod (c / 4096) 64 ltac:(lia)) as Hd2. rewrite Hq2 in Hd2.
  destruct (c <? 2048) eqn:E2; [apply Z.ltb_lt in E2|apply Z.ltb_ge in E2; destruct (c <? 65536) eqn:E3; [apply Z.ltb_lt in E3|apply Z.ltb_ge in E3]];
    cbn [app utf8_decode]; rewrite ?continuation_of by done; cbn [mbind option_bind].
  - assert (2 <= c / 64 < 32) by lia.
    rewrite (proj2 (Z.ltb_ge (192 + c / 64) 128)), andb_false_r, (proj2 (Z.leb_le 194 (192 + c / 64))), (proj2 (Z.ltb_lt (192 + c / 64) 224)) by lia.
    cbn [andb]. f_equal. f_equal. lia.
  - assert (0 <= c / 4096 < 16) by lia.
    rewrite (proj2 (Z.ltb_ge (224 + c / 4096) 128)), andb_false_r, (proj2 (Z.ltb_ge (224 + c / 4096) 224)), andb_false_r by lia.
    rewrite (proj2 (Z.leb_le 224 (224 + c / 4096))), (proj2 (Z.ltb_lt (224 + c / 4096) 240)) by lia. cbn [andb]. cbv zeta.
    replace ((224 + c / 4096 - 224) * 4096 + c / 64 mod 64 * 64 + c mod 64) with c by lia. by rewrite (proj2 (Z.leb_le 2048 c)) by lia.
  - assert (0 <= c / 262144 < 5) by lia.
    rewrite (proj2 (Z.ltb_ge (240 + c / 262144) 128)), andb_false_r, (proj2 (Z.ltb_ge (240 + c / 262144) 224)), andb_false_r by lia.
    rewrite (proj2 (Z.ltb_ge (240 + c / 262144) 240)), andb_false_r by lia. cbv zeta.
    replace ((240 + c / 262144 - 240) * 262144 + c / 4096 mod 64 * 4096 + c / 64 mod 64 * 64 + c mod 64) with c by lia.
    by rewrite (proj2 (Z.leb_le 240 (240 + c / 262144))), (proj2 (Z.ltb_lt (240 + c / 262144) 245)), (proj2 (Z.leb_le 65536 c)), (proj2 (Z.ltb_lt c 1114112)) by lia.
Qed.

Lemma decode_encode cs b : Forall code_point cs -> encode_utf8 cs = Ok b -> decode_utf8 b = Ok cs.
Proof.
  intros Hcs. unfold encode_utf8, decode_utf8. destruct (existsb surrogate cs) eqn:Hs; [done|]. intros [= <-].
  assert (utf8_decode (cs ≫= encode_char) = Some cs) as ->; [|by rewrite Hs]. clear Hs.
  induction Hcs as [|c cs Hc Hcs IH]; [done|]. cbn [mbind list_bind]. rewrite decode_char by done. change (list_bind _ _ encode_char cs) with (cs ≫= encode_char).
  by rewrite IH.
Qed.

Lemma encode_bytes cs b : Forall code_point cs -> encode_utf8 cs = Ok b -> Forall (fun x => 0 <= x < 256) b.
Proof.
  intros Hcs. unfold encode_utf8. destruct (existsb surrogate cs); [done|]. intros [= <-]. apply Forall_bind. eapply Forall_impl; [exact Hcs|].
  intros c [H0 H1]. cbn. unfold encode_char.
  assert (0 <= c / 64 mod 64 < 64 /\ 0 <= c mod 64 < 64 /\ 0 <= c / 4096 mod 64 < 64) as (? & ? & ?) by (split_and!; apply Z.mod_pos_bound; lia).
  destruct (c <? 128) eqn:E1; [apply Z.ltb_lt in E1; repeat constructor; lia|]. apply Z.ltb_ge in E1.
  destruct (c <? 2048) eqn:E2; [apply Z.ltb_lt in E2|]. { assert (0 <= c / 64 < 32) by (split; [apply Z.div_pos; lia|apply Z.div_lt_upper_bound; lia]). repeat constructor; lia. }
  destruct (c <? 65536) eqn:E3; [apply Z.ltb_lt in E3|]. { assert (0 <= c / 4096 < 16) by (split; [apply Z.div_pos; lia|apply Z.div_lt_upper_bound; lia]). repeat constructor; lia. }
  assert (0 <= c / 262144 < 5) by (split; [apply Z.div_pos; lia|apply Z.div_lt_upper_bound; lia]). repeat constructor; lia.
Qed.

Lemma text_of_bytes b : Forall (fun x => 0 <= x < 256) b -> text (of_bytes b) = b.
Proof.
  induction 1 as [|x b Hx Hb IH]; [done|]. cbn [of_bytes text]. rewrite IH, Ascii.nat_ascii_embedding by lia. by rewrite Z2Nat.id by lia.
Qed.

(** Newlines once translated stay, and a text without [\r] is as it was. *)
Lemma newlines_no_cr cs b : CR ∉ newlines b cs.
Proof.
  revert b. induction cs as [|c cs IH]; intros b; [apply not_elem_of_nil|]. cbn. destruct (c =? CR) eqn:Ec.
  - apply not_elem_of_cons. split; [done|apply IH].
  - destruct (_ && b); [apply IH|]. apply not_elem_of_cons. split; [intros <-; by rewrite Z.eqb_refl in Ec|apply IH].
Qed.
Lemma newlines_id cs : CR ∉ cs -> newlines false cs = cs.
Proof.
  induction cs as [|c cs IH]; [done|]. intros [Hc Hcs]%not_elem_of_cons. cbn. destruct (c =? CR) eqn:Ec; [apply Z.eqb_eq in Ec; congruence|].
  rewrite andb_false_r. f_equal. by apply IH.
Qed.
