(* ===== verification/FleetPaths.v ===== *)
(** * What a fleet is given ([core/ibm_cloud/code_engine/fleets/utils.py])

    The keys of a job's objects in the buckets, the paths its container sees them at, the
    volumes mounted and the environment of the container. *)

From stdpp Require Import pretty.
From S2P Require Import Prelude PyStr Models Json RunFunction JobEnvironment FileStorage.

Local Open Scope string_scope.
Local Open Scope list_scope.

(** ** Paths *)

Definition FUNCTION_USER_DATA_PATH : string := "/function_user_data".
Definition JOB_USER_DATA_PATH : string := "/job_user_data".
Definition FUNCTION_PROVIDER_DATA_PATH : string := "/function_provider_data".
Definition JOB_PROVIDER_DATA_PATH : string := "/job_provider_data".

Record FleetJobPaths := mk_fleet_job_paths {
  cos_user_function_prefix : string;
  cos_user_job_prefix : string;
  cos_provider_function_prefix : option string;
  cos_provider_job_prefix : option string;
  cos_user_log_key : string;
  cos_results_key : string;
  cos_provider_log_key : option string;
  cos_function_entrypoint : string;
  cos_docker_entrypoint : string;
  container_function_entrypoint : string;
  container_docker_entrypoint : string;
  container_public_log_path : string;
  container_private_log_path : option string;
  container_arguments_path : string;
  container_result_path : string
}.

Definition build_custom_job_paths (job : Job) (p : Program) : FleetJobPaths :=
  let function_data := "users/" +:+ username (author job) +:+ "/custom_functions/" +:+ title p +:+ "/data" in
  let job_prefix := "users/" +:+ username (author job) +:+ "/custom_functions/" +:+ title p +:+ "/jobs/" +:+ id job in
  {| cos_user_function_prefix := function_data;
     cos_user_job_prefix := job_prefix;
     cos_provider_function_prefix := None;
     cos_provider_job_prefix := None;
     cos_user_log_key := job_prefix +:+ "/logs.log";
     cos_results_key := job_prefix +:+ "/results.json";
     cos_provider_log_key := None;
     cos_function_entrypoint := function_data +:+ "/" +:+ entrypoint p;
     cos_docker_entrypoint := function_data +:+ "/" +:+ CUSTOM_JOB_WRAPPER_NAME;
     container_function_entrypoint := FUNCTION_USER_DATA_PATH +:+ "/" +:+ entrypoint p;
     container_docker_entrypoint := FUNCTION_USER_DATA_PATH +:+ "/" +:+ CUSTOM_JOB_WRAPPER_NAME;
     container_public_log_path := JOB_USER_DATA_PATH +:+ "/logs.log";
     container_private_log_path := None;
     container_arguments_path := JOB_USER_DATA_PATH +:+ "/arguments.json";
     container_result_path := JOB_USER_DATA_PATH +:+ "/results.json" |}.

Definition build_provider_job_paths (job : Job) (p : Program) (provider : Provider) : FleetJobPaths :=
  let function := provider_name provider +:+ "/" +:+ title p in
  let user_function_data := "users/" +:+ username (author job) +:+ "/provider_functions/" +:+ function +:+ "/data" in
  let user_job_prefix := "users/" +:+ username (author job) +:+ "/provider_functions/" +:+ function +:+ "/jobs/" +:+ id job in
  let provider_function_data := "providers/" +:+ function +:+ "/data" in
  let provider_job_prefix := "providers/" +:+ function +:+ "/jobs/" +:+ id job in
  {| cos_user_function_prefix := user_function_data;
     cos_user_job_prefix := user_job_prefix;
     cos_provider_function_prefix := Some provider_function_data;
     cos_provider_job_prefix := Some provider_job_prefix;
     cos_user_log_key := user_job_prefix +:+ "/logs.log";
     cos_results_key := user_job_prefix +:+ "/results.json";
     cos_provider_log_key := Some (provider_job_prefix +:+ "/logs.log");
     cos_function_entrypoint := provider_function_data +:+ "/" +:+ entrypoint p;
     cos_docker_entrypoint := provider_function_data +:+ "/" +:+ PROVIDER_JOB_WRAPPER_NAME;
     container_function_entrypoint := FUNCTION_PROVIDER_DATA_PATH +:+ "/" +:+ entrypoint p;
     container_docker_entrypoint := FUNCTION_PROVIDER_DATA_PATH +:+ "/" +:+ PROVIDER_JOB_WRAPPER_NAME;
     container_public_log_path := JOB_USER_DATA_PATH +:+ "/logs.log";
     container_private_log_path := Some (JOB_PROVIDER_DATA_PATH +:+ "/logs.log");
     container_arguments_path := JOB_USER_DATA_PATH +:+ "/arguments.json";
     container_result_path := JOB_USER_DATA_PATH +:+ "/results.json" |}.

Definition build_job_paths (job : Job) (p : Program) : FleetJobPaths :=
  match program_provider p with
  | Some provider => build_provider_job_paths job p provider
  | None => build_custom_job_paths job p
  end.

(** ** Volumes *)

Record Mount := mk_mount { mount_path : string; mount_reference : string; mount_sub_path : option string }.

Definition required_text (name value : string) : outcome unit :=
  if bool_decide (value = "") then Raise (mk_exn ValueError (name +:+ " is required.")) else Ok tt.

Definition build_mount (m : string * string * option string) : outcome Mount :=
  let '(path, reference, sub) := m in
  match required_text "mount_path" path, required_text "reference" reference with
  | Raise e, _ => Raise e
  | _, Raise e => Raise e
  | Ok _, Ok _ => Ok (mk_mount path reference (if truthy sub then sub else None))
  end.

Fixpoint build_mounts (mounts : list (string * string * option string)) : outcome (list Mount) :=
  match mounts with
  | [] => Ok []
  | m :: mounts =>
      match build_mount m with
      | Raise e => Raise e
      | Ok m => match build_mounts mounts with Ok ms => Ok (m :: ms) | Raise e => Raise e end
      end
  end.
Definition build_run_volume_mounts (mounts : list (string * string * option string)) : outcome (list Mount) :=
  match mounts with [] => Raise (mk_exn ValueError "mounts is required.") | _ => build_mounts mounts end.

Definition build_run_volume_mounts_for_job (paths : FleetJobPaths) (project : CodeEngineProject) : outcome (list Mount) :=
  build_run_volume_mounts
    ([(FUNCTION_USER_DATA_PATH, pds_name_users project, Some (cos_user_function_prefix paths));
      (JOB_USER_DATA_PATH, pds_name_users project, Some (cos_user_job_prefix paths))]
     ++ (if truthy (cos_provider_function_prefix paths) then
           [(FUNCTION_PROVIDER_DATA_PATH, pds_name_providers project, cos_provider_function_prefix paths);
            (JOB_PROVIDER_DATA_PATH, pds_name_providers project, cos_provider_job_prefix paths)]
         else [])).

(** ** The environment of the container *)

Record FleetsSettings := mk_fleets_settings {
  IBM_CLOUD_API_KEY : option string;
  CE_ICR_PULL_SECRET : option string;
  FLEETS_DEFAULT_IMAGE : string;
  DEFAULT_COMPUTE_PROFILE : string;
  FLEETS_DEFAULT_MAX_INSTANCES : Z;
  FLEETS_GATEWAY_HOST : option string;
  FLEETS_RUNTIME_IAM_URL : string;
  FLEETS_RUNTIME_GLOBAL_SEARCH_URL : string;
  FLEETS_RUNTIME_GLOBAL_CATALOG_URL : string;
  FLEETS_RUNTIME_EXPERIMENTAL : bool;
  FLEETS_LOG_FLUSH_INTERVAL_SECONDS : Z;
  LOGS_SIZE_LIMIT : Z;                        (* [FUNCTIONS_LOGS_SIZE_LIMIT] *)
  QISKIT_SETTINGS_CONTAINER_PATH : string;
  QISKIT_USER_CONFIG : string;
  CUSTOM_IMAGE_PACKAGE_PATH : string;
  CUSTOM_IMAGE_PACKAGE_NAME : string
}.

Definition dict_pop {V} (d : list (string * V)) (k : string) : list (string * V) := filter (fun kv => kv.1 <> k) d.
(** [if v: env[k] = v]. *)
Definition set_given (k : string) (v : option string) (env : list (string * Json)) : list (string * Json) :=
  if truthy v then dict_set env k (JStr (default "" v)) else env.

Section env.
Context (settings : FleetsSettings).

(** What describes the container's files. *)
Definition layout (paths : FleetJobPaths) : list (string * Json) :=
  [ ("PUBLIC_LOG_PATH", JStr (container_public_log_path paths));
    ("ARGUMENTS_PATH", JStr (container_arguments_path paths));
    ("RESULTS_PATH", JStr (container_result_path paths));
    ("LOG_FLUSH_INTERVAL_SECONDS", JStr (pretty (FLEETS_LOG_FLUSH_INTERVAL_SECONDS settings)));
    ("LOG_SIZE_LIMIT_BYTES", JStr (pretty (LOGS_SIZE_LIMIT settings)));
    ("QISKIT_IBM_PRIVATE_ENDPOINT", JStr "true");
    ("QISKIT_SETTINGS", JStr (QISKIT_SETTINGS_CONTAINER_PATH settings)) ].

Definition build_run_env_variables (paths : FleetJobPaths) (stored_env_vars : list (string * Json)) (job_id : option string)
    : list (string * Json) :=
  let env := dict_pop stored_env_vars "ENV_JOB_ARGUMENTS" in
  let env := set_given "ENV_JOB_GATEWAY_HOST" (FLEETS_GATEWAY_HOST settings) env in
  let env := set_given "IAM_URL" (Some (FLEETS_RUNTIME_IAM_URL settings)) env in
  let env := set_given "GLOBAL_SEARCH_URL" (Some (FLEETS_RUNTIME_GLOBAL_SEARCH_URL settings)) env in
  let env := set_given "GLOBAL_CATALOG_URL" (Some (FLEETS_RUNTIME_GLOBAL_CATALOG_URL settings)) env in
  let env := if FLEETS_RUNTIME_EXPERIMENTAL settings then dict_set env "QISKIT_FUNCTIONS_EXPERIMENTAL" (JStr "true") else env in
  let env := dict_update env (layout paths) in
  let env := set_given "QISKIT_FUNCTIONS_IDENTIFIER" job_id env in
  let env := match container_private_log_path paths with
             | Some p => dict_set env "PRIVATE_LOG_PATH" (JStr p)
             | None => env
             end in
  filter (fun kv => json_truthy kv.2 = true) env.

(** ** What the container finds *)

(** The variables the gateway decides, when it gives them a value. *)
Definition decided (paths : FleetJobPaths) (job_id : option string) (k : string) : option Json :=
  let given (v : option string) := if truthy v then Some (JStr (default "" v)) else None in
  default None (lookup_key
    [ ("ENV_JOB_GATEWAY_HOST", given (FLEETS_GATEWAY_HOST settings));
      ("IAM_URL", given (Some (FLEETS_RUNTIME_IAM_URL settings)));
      ("GLOBAL_SEARCH_URL", given (Some (FLEETS_RUNTIME_GLOBAL_SEARCH_URL settings)));
      ("GLOBAL_CATALOG_URL", given (Some (FLEETS_RUNTIME_GLOBAL_CATALOG_URL settings)));
      ("QISKIT_FUNCTIONS_EXPERIMENTAL", if FLEETS_RUNTIME_EXPERIMENTAL settings then Some (JStr "true") else None);
      ("PUBLIC_LOG_PATH", Some (JStr (container_public_log_path paths)));
      ("ARGUMENTS_PATH", Some (JStr (container_arguments_path paths)));
      ("RESULTS_PATH", Some (JStr (container_result_path paths)));
      ("LOG_FLUSH_INTERVAL_SECONDS", Some (JStr (pretty (FLEETS_LOG_FLUSH_INTERVAL_SECONDS settings))));
      ("LOG_SIZE_LIMIT_BYTES", Some (JStr (pretty (LOGS_SIZE_LIMIT settings))));
      ("QISKIT_IBM_PRIVATE_ENDPOINT", Some (JStr "true"));
      ("QISKIT_SETTINGS", Some (JStr (QISKIT_SETTINGS_CONTAINER_PATH settings)));
      ("QISKIT_FUNCTIONS_IDENTIFIER", given job_id);
      ("PRIVATE_LOG_PATH", JStr <$> container_private_log_path paths) ] k).
End env.

(** ** Lemmas *)

Lemma lookup_dict_pop {V} (d : list (string * V)) k k' :
  lookup_key (dict_pop d k) k' = if bool_decide (k' = k) then None else lookup_key d k'.
Proof.
  induction d as [|[k0 v0] d IH]; cbn [dict_pop]; [by case_bool_decide|]. unfold dict_pop in *. rewrite filter_cons.
  destruct (decide _) as [Hk|Hk]; cbn [fst] in Hk; rewrite ?lookup_key_cons, IH.
  - destruct (decide (k0 = k')) as [->|]; [by rewrite !(bool_decide_false (k' = k)), bool_decide_true|by rewrite (bool_decide_false (k0 = k'))].
  - apply dec_stable in Hk as ->. destruct (decide (k' = k)) as [->|]; [by rewrite bool_decide_true|].
    by rewrite !bool_decide_false.
Qed.

Lemma lookup_set_given k v env k' :
  lookup_key (set_given k v env) k'
  = if bool_decide (k = k') && truthy v then Some (JStr (default "" v)) else lookup_key env k'.
Proof.
  unfold set_given. destruct (truthy v); [|by rewrite andb_false_r]. rewrite lookup_dict_set, andb_true_r. done.
Qed.

(** A filter on the values keeps what is found, when the keys differ. *)
Lemma lookup_filter_value {V} (f : V -> bool) (d : list (string * V)) k : NoDup d.*1 ->
  lookup_key (filter (fun kv => f kv.2 = true) d) k
  = match lookup_key d k with Some v => if f v then Some v else None | None => None end.
Proof.
  induction d as [|[k0 v0] d IH]; [done|]. cbn [fmap list_fmap fst]. intros [Hk0 Hd]%NoDup_cons. rewrite filter_cons, lookup_key_cons.
  cbn [snd]. destruct (f v0) eqn:Hf; [rewrite decide_True, lookup_key_cons by done|rewrite decide_False by done];
    rewrite IH by done; case_bool_decide as Hk; subst; rewrite ?Hf; try done.
  by rewrite lookup_key_None.
Qed.

Lemma dict_pop_NoDup {V} (d : list (string * V)) k : NoDup d.*1 -> NoDup (dict_pop d k).*1.
Proof. intros H. eapply sublist_NoDup; [exact H|apply fmap_sublist, sublist_filter]. Qed.
Lemma set_given_NoDup k v env : NoDup env.*1 -> NoDup (set_given k v env).*1.
Proof. intros H. unfold set_given. destruct (truthy v); [by apply dict_set_NoDup|done]. Qed.

Definition decided_keys : list string :=
  ["ENV_JOB_GATEWAY_HOST"; "IAM_URL"; "GLOBAL_SEARCH_URL"; "GLOBAL_CATALOG_URL"; "QISKIT_FUNCTIONS_EXPERIMENTAL";
   "PUBLIC_LOG_PATH"; "ARGUMENTS_PATH"; "RESULTS_PATH"; "LOG_FLUSH_INTERVAL_SECONDS"; "LOG_SIZE_LIMIT_BYTES";
   "QISKIT_IBM_PRIVATE_ENDPOINT"; "QISKIT_SETTINGS"; "QISKIT_FUNCTIONS_IDENTIFIER"; "PRIVATE_LOG_PATH"].

(** Comparisons of names that are given. *)
Ltac closed_names :=
  repeat match goal with
  | |- context [bool_decide (@eq string ?a ?b)] =>
      let c := eval vm_compute in (bool_decide (a = b)) in change (bool_decide (a = b)) with c
  end.

(** the container finds the variables that describe it with the gateway's values, whatever
    the function or the request gave under those names; the arguments of the call are never
    among the rest; every other variable is as it was stored; none is empty and no name is
    given twice. *)
Theorem container_environment settings paths stored job_id :
  NoDup stored.*1 ->
  let env := build_run_env_variables settings paths stored job_id in
  NoDup env.*1
  /\ (forall k v, (k, v) ∈ env -> json_truthy v = true)
  /\ forall k, lookup_key env k =
       match match decided settings paths job_id k with
             | Some v => Some v
             | None => if bool_decide (k = "ENV_JOB_ARGUMENTS") then None else lookup_key stored k
             end with
       | Some v => if json_truthy v then Some v else None
       | None => None
       end.
Proof.
  intros Hn env. unfold env, build_run_env_variables. cbv zeta. set (full := match container_private_log_path paths with Some _ => _ | None => _ end).
  assert (NoDup full.*1) as Hfull.
  { unfold full. assert (forall e : list (string * Json), NoDup e.*1 -> NoDup (if FLEETS_RUNTIME_EXPERIMENTAL settings
      then dict_set e "QISKIT_FUNCTIONS_EXPERIMENTAL" (JStr "true") else e).*1) as Hexp
      by (intros e He; destruct (FLEETS_RUNTIME_EXPERIMENTAL settings); [by apply dict_set_NoDup|done]).
    destruct (container_private_log_path paths); [apply dict_set_NoDup|];
      by apply set_given_NoDup, dict_update_NoDup, Hexp, set_given_NoDup, set_given_NoDup, set_given_NoDup, set_given_NoDup, dict_pop_NoDup. }
  split; [eapply sublist_NoDup; [exact Hfull|apply fmap_sublist, sublist_filter]|].
  split; [by intros k v [H _]%list_elem_of_filter|]. intros k. rewrite lookup_filter_value by done. clear Hfull.
  enough (lookup_key full k = match decided settings paths job_id k with
                              | Some v => Some v
                              | None => if bool_decide (k = "ENV_JOB_ARGUMENTS") then None else lookup_key stored k
                              end) as -> by done.
  assert (forall e, lookup_key (if FLEETS_RUNTIME_EXPERIMENTAL settings then dict_set e "QISKIT_FUNCTIONS_EXPERIMENTAL" (JStr "true") else e) k
      = if bool_decide ("QISKIT_FUNCTIONS_EXPERIMENTAL" = k) && FLEETS_RUNTIME_EXPERIMENTAL settings then Some (JStr "true") else lookup_key e k)
    as Hexp by (intros e; destruct (FLEETS_RUNTIME_EXPERIMENTAL settings); [by rewrite lookup_dict_set, andb_true_r|by rewrite andb_false_r]).
  assert (NoDup (layout settings paths).*1) as Hlay by (apply (bool_decide_unpack _); by vm_compute).
  assert (lookup_key full k =
    if bool_decide ("PRIVATE_LOG_PATH" = k) && bool_decide (is_Some (container_private_log_path paths))
    then JStr <$> container_private_log_path paths
    else if bool_decide ("QISKIT_FUNCTIONS_IDENTIFIER" = k) && truthy job_id then Some (JStr (default "" job_id))
    else match lookup_key (layout settings paths) k with
         | Some v => Some v
         | None =>
             if bool_decide ("QISKIT_FUNCTIONS_EXPERIMENTAL" = k) && FLEETS_RUNTIME_EXPERIMENTAL settings then Some (JStr "true")
             else lookup_key (set_given "GLOBAL_CATALOG_URL" (Some (FLEETS_RUNTIME_GLOBAL_CATALOG_URL settings))
                   (set_given "GLOBAL_SEARCH_URL" (Some (FLEETS_RUNTIME_GLOBAL_SEARCH_URL settings))
                   (set_given "IAM_URL" (Some (FLEETS_RUNTIME_IAM_URL settings))
                   (set_given "ENV_JOB_GATEWAY_HOST" (FLEETS_GATEWAY_HOST settings) (dict_pop stored "ENV_JOB_ARGUMENTS"))))) k
         end) as ->.
  { unfold full. destruct (container_private_log_path paths) as [p|];
      rewrite ?lookup_dict_set, lookup_set_given, lookup_dict_update, Hexp by done.
    - rewrite (bool_decide_true (is_Some _)) by by eexists. by rewrite andb_true_r.
    - rewrite (bool_decide_false (is_Some _)) by by intros []. by rewrite andb_false_r. }
  rewrite !lookup_set_given, lookup_dict_pop. unfold decided, layout. rewrite !lookup_key_cons.
  destruct (decide (k ∈ decided_keys)) as [Hk|Hk].
  - unfold decided_keys in Hk. repeat (apply elem_of_cons in Hk as [->|Hk]; [closed_names; cbn; first [by destruct (container_private_log_path paths)|by repeat case_match]|]).
    by apply not_elem_of_nil in Hk.
  - unfold decided_keys in Hk. rewrite !not_elem_of_cons in Hk. destruct_and! Hk.
    rewrite !(bool_decide_false (_ = k)) by congruence. done.
Qed.
