(* ===== verification/JobStorages.v ===== *)
(** * What a job reads and leaves ([core/services/storage/{arguments,logs,result}_storage*.py])

    The arguments, the logs and the result of a job: a file of a user's folder for Ray, an
    object for the Fleets. The three interfaces and their implementations. *)

From S2P Require Import Prelude PyStr Models Paths Stores FileStorage RayLogs TextFiles FleetPaths.

Local Open Scope string_scope.
Local Open Scope list_scope.

(** The abstract classes. *)
Class ArgumentsStorage (T : Type) := {
  get_arguments : T -> M Store (option Text);
  save_arguments : T -> Text -> M Store unit;
  delete_arguments : T -> M Store unit
}.
Class LogsStorage (T : Type) := {
  get_public_logs : T -> M Store (option Text);
  get_private_logs : T -> M Store (option Text);
  save_public_logs : T -> Text -> M Store unit;
  save_private_logs : T -> Text -> M Store unit;
  get_public_logs_url : T -> M Store (option string);
  get_private_logs_url : T -> M Store (option string)
}.
Class ResultStorage (T : Type) := {
  get_result : T -> M Store (option Text);
  save_result : T -> Text -> M Store unit
}.

(** [job.program], where an attribute of it is read. *)
Definition the_program (job : Job) : outcome Program :=
  match program job with
  | Some p => Ok p
  | None => Raise (mk_exn AttributeError "'NoneType' object has no attribute 'title'")
  end.
Definition not_implemented : exn := mk_exn NotImplementedError "".
Definition not_provider_job : exn := mk_exn RuntimeError "Private logs are only available for provider jobs".

(** [except (UnicodeDecodeError, IOError)]: nothing is answered. *)
Definition unreadable (e : exn) : bool := isinstance e OSError || isinstance e UnicodeDecodeError.
Definition or_none {A} (m : M Store (option A)) : M Store (option A) :=
  try_except m (fun e => if unreadable e then Some (ret None) else None).

(** ** Ray: files *)

Record RayArgumentsStorage := mk_ray_arguments { ra_job_id : string; ra_sub_path : string; ra_absolute_path : string }.
Record RayLogsStorage := mk_ray_logs_storage { rl_job_id : string; rl_public_path : string; rl_private_path : option string }.
Record RayResultStorage := mk_ray_result { rr_job_id : string; results_directory : string }.

Section ray.
Context (MEDIA_ROOT : string).

(** The folder of a job's function under [extra]. *)
Definition job_directory (working_dir : WorkingDir) (job : Job) (p : Program) (extra : string) : M Store string :=
  absolute_path MEDIA_ROOT working_dir (username (author job)) (title p) (provider_name <$> program_provider p) (Some extra).

Definition ray_arguments_storage (job : Job) : M Store RayArgumentsStorage :=
  p <- of_outcome (the_program job) ;;
  sub <- of_outcome (sub_path USER_STORAGE (username (author job)) (title p) (provider_name <$> program_provider p) (Some "arguments")) ;;
  path <- job_directory USER_STORAGE job p "arguments" ;;
  ret (mk_ray_arguments (id job) sub path).

Definition _get_arguments_path (t : RayArgumentsStorage) : string := path_join (ra_absolute_path t) (ra_job_id t +:+ ".json").

Definition exists_on_disk (path : string) : M Store bool := gets (fun st => path_exists (disk st) path).
(** [get] of the arguments and of the result. *)
Definition read_if_exists (path : string) : M Store (option Text) :=
  there <- exists_on_disk path ;;
  if there : bool then or_none (content <- read_text path ;; ret (Some content)) else ret None.

#[export] Instance ray_arguments : ArgumentsStorage RayArgumentsStorage := {
  get_arguments t := read_if_exists (_get_arguments_path t);
  save_arguments t arguments := write_text (_get_arguments_path t) arguments;
  delete_arguments t :=
    there <- exists_on_disk (_get_arguments_path t) ;;
    if there : bool then os_remove (_get_arguments_path t) else ret tt
}.

Definition ray_logs_storage (job : Job) : M Store RayLogsStorage :=
  p <- of_outcome (the_program job) ;;
  public <- job_directory USER_STORAGE job p "logs" ;;
  private <- (if truthy (provider_name <$> program_provider p)
              then path <- job_directory PROVIDER_STORAGE job p "logs" ;; ret (Some path)
              else ret None) ;;
  ret (mk_ray_logs_storage (id job) public private).

Definition _get_file_path (t : RayLogsStorage) (base_path : string) : string := path_join base_path (rl_job_id t +:+ ".log").

(** [os.listdir(path)], whose names nobody reads. *)
Definition os_listdir (path : string) : M Store unit :=
  fun st => match parents_error (disk st) [] (resolve path) with
            | Some e => (Raise e, st)
            | None => match node_at (disk st) (resolve path) with
                      | Some Dir => (Ok tt, st)
                      | Some (Data _) => (Raise (os_error NotADirectoryError), st)
                      | None => (Raise (os_error FileNotFoundError), st)
                      end
            end.

Definition _read_logs (t : RayLogsStorage) (base_path : string) : M Store (option Text) :=
  or_none (os_listdir base_path ;;; content <- read_text (_get_file_path t base_path) ;; ret (Some content)).
(** A log that cannot be written is left out. *)
Definition _write_logs (t : RayLogsStorage) (base_path : string) (logs : Text) : M Store unit :=
  try_except (write_text (_get_file_path t base_path) logs) (fun e => if unreadable e then Some (ret tt) else None).
Definition in_private_path {A} (t : RayLogsStorage) (k : string -> M Store A) : M Store A :=
  match rl_private_path t with Some path => k path | None => raise not_provider_job end.
Definition no_presigned : exn := mk_exn NotImplementedError "Presigned URLs are not supported for Ray jobs".

#[export] Instance ray_logs_files : LogsStorage RayLogsStorage := {
  get_public_logs t := _read_logs t (rl_public_path t);
  get_private_logs t := in_private_path t (_read_logs t);
  save_public_logs t logs := _write_logs t (rl_public_path t) logs;
  save_private_logs t logs := in_private_path t (fun path => _write_logs t path logs);
  get_public_logs_url _ := raise no_presigned;
  get_private_logs_url _ := raise no_presigned
}.

Definition ray_result_storage (job : Job) : M Store RayResultStorage :=
  p <- of_outcome (the_program job) ;;
  directory <- job_directory USER_STORAGE job p "results" ;;
  ret (mk_ray_result (id job) directory).

Definition result_file_path (t : RayResultStorage) : string := path_join (results_directory t) (rr_job_id t +:+ ".json").

#[export] Instance ray_result : ResultStorage RayResultStorage := {
  get_result t := read_if_exists (result_file_path t);
  save_result t result := write_text (result_file_path t) result
}.
End ray.

(** ** Fleets: objects *)

Record FleetsArgumentsStorage := mk_fleets_arguments { fa_bucket : string; _arguments_key : string }.
Record FleetsLogsStorage := mk_fleets_logs_storage {
  fl_public_key : string;
  fl_private_key : option string;
  fl_user_bucket : string;
  fl_provider_bucket : option string
}.
Record FleetsResultStorage := mk_fleets_result { _results_key : string; fr_user_bucket : string }.

Definition fleets_arguments_storage (job : Job) : outcome FleetsArgumentsStorage :=
  match the_program job with
  | Raise e => Raise e
  | Ok p =>
      match load_user_bucket (title p) p with
      | Raise e => Raise e
      | Ok bucket => Ok (mk_fleets_arguments bucket (cos_user_job_prefix (build_job_paths job p) +:+ "/" +:+ "arguments.json"))
      end
  end.

Definition fleets_logs_storage (job : Job) : outcome FleetsLogsStorage :=
  match the_program job with
  | Raise e => Raise e
  | Ok p =>
      let paths := build_job_paths job p in
      match load_user_bucket (title p) p, load_provider_bucket (title p) p with
      | Raise e, _ => Raise e
      | _, Raise e => Raise e
      | Ok user, Ok provider => Ok (mk_fleets_logs_storage (cos_user_log_key paths) (cos_provider_log_key paths) user provider)
      end
  end.

(** Without a project, an attribute of [None] is read. *)
Definition fleets_result_storage (job : Job) : outcome FleetsResultStorage :=
  match the_program job with
  | Raise e => Raise e
  | Ok p =>
      match program_code_engine_project p with
      | None => Raise (mk_exn AttributeError "'NoneType' object has no attribute 'cos_bucket_user_data_name'")
      | Some _ =>
          match load_user_bucket (title p) p with
          | Raise e => Raise e
          | Ok bucket => Ok (mk_fleets_result (cos_results_key (build_job_paths job p)) bucket)
          end
      end
  end.

Section fleets.
Context (cos_fault : CosOp -> string -> string -> option (exn * bool)).
Context (presigned : string -> string -> outcome string).       (* the signed URL of an object *)

(** The code of a [ClientError]. *)
Definition NOT_FOUND_CODES : list string := ["404"; "NoSuchKey"; "NotFound"].

(** A download, decoded: an object that is missing or cannot be read is no text. *)
Definition download_text (bucket key : string) : M Store (option Text) :=
  answering None
    (content <- get_object_bytes cos_fault bucket key ;;
     cs <- of_outcome (decode_utf8 (text content)) ;;
     ret (Some cs)).

Definition _object_exists (bucket key : string) : M Store bool :=
  try_except (head_object cos_fault bucket key ;;; ret true) (fun e =>
    if isinstance e ClientError then Some (if bool_decide (exn_str e ∈ NOT_FOUND_CODES) then ret false else raise e) else None).
Definition url_if_exists (bucket key : string) : M Store (option string) :=
  there <- _object_exists bucket key ;;
  if negb there then ret None
  else bucket_and_key bucket key ;;; url <- of_outcome (presigned bucket key) ;; ret (Some url).

#[export] Instance fleets_arguments : ArgumentsStorage FleetsArgumentsStorage := {
  get_arguments _ := raise not_implemented;
  save_arguments t arguments :=
    b <- of_outcome (encode_utf8 arguments) ;;
    upload_fileobj cos_fault (of_bytes b) (fa_bucket t) (_arguments_key t);
  delete_arguments t := delete_object cos_fault (fa_bucket t) (_arguments_key t)
}.

Definition in_provider_bucket {A} (t : FleetsLogsStorage) (k : string -> string -> M Store A) : M Store A :=
  match fl_provider_bucket t with
  | Some bucket => k bucket (default "" (fl_private_key t))
  | None => raise not_provider_job
  end.

#[export] Instance fleets_logs : LogsStorage FleetsLogsStorage := {
  get_public_logs t := download_text (fl_user_bucket t) (fl_public_key t);
  get_private_logs t := in_provider_bucket t download_text;
  save_public_logs _ _ := raise not_implemented;
  save_private_logs _ _ := raise not_implemented;
  get_public_logs_url t := url_if_exists (fl_user_bucket t) (fl_public_key t);
  get_private_logs_url t := in_provider_bucket t url_if_exists
}.

(** [except UnicodeDecodeError] too. *)
#[export] Instance fleets_result : ResultStorage FleetsResultStorage := {
  get_result t := try_except (download_text (fr_user_bucket t) (_results_key t))
                    (fun e => if isinstance e UnicodeDecodeError then Some (ret None) else None);
  save_result _ _ := raise (mk_exn NotImplementedError "Fleets results are written by the SDK via RESULTS_PATH")
}.
Definition get_url (t : FleetsResultStorage) : M Store (option string) := url_if_exists (fr_user_bucket t) (_results_key t).
End fleets.
