(* ===== verification/FleetHandler.v ===== *)
(** * Code Engine's fleets ([core/ibm_cloud/code_engine/fleets/handler.py])

    Creating, finding, counting, cancelling and deleting fleets through the generated client,
    whose calls are parameters: each answers or raises, and changes the cloud. *)

From S2P Require Import Prelude PyStr Domain Models World Json RunFunction FleetPaths Stores.

Local Open Scope string_scope.
Local Open Scope list_scope.

(** ** The client *)

(** What a create asks for: [FleetPrototype]. *)
Record FleetBody := mk_fleet_body {
  body_name : string;
  image_reference : string;
  image_secret : option string;
  subnet_pool : string;                          (* [network_placements] *)
  scale_cpu_limit : string;
  scale_memory_limit : string;
  scale_gpu : option (string * string);          (* family, allocation *)
  scale_max_instances : Z;
  scale_retry_limit : Z;
  tasks_indices : string;
  tasks_state_store : string;
  run_volume_mounts : list Mount;
  run_env_variables : list (string * Json);
  run_commands : list string
}.

Record FleetItem := mk_fleet_item { item_name : option string; item_id : option string }.
Record Page (A : Type) := mk_page { page_items : list A; page_next : option string }.
Arguments mk_page {A}. Arguments page_items {A}. Arguments page_next {A}.
Record SubnetPool := mk_subnet_pool { pool_id : string; pool_name : string }.

(** The project a handler is for, and the region of its client. *)
Record Handler := mk_handler { h_region : string; h_project : string }.

(** [get_ce_auth(api_key, region)] and the calls of the generated client. *)
Record CodeEngine (Cloud : Type) := mk_code_engine {
  get_ce_auth : string -> string -> bool -> M Cloud unit;
  create_fleet : Handler -> FleetBody -> M Cloud (option string);       (* the answer's [id] *)
  list_fleets : Handler -> option string -> bool -> M Cloud (Page FleetItem);
  cancel_fleet : Handler -> string -> M Cloud unit;
  delete_fleet : Handler -> string -> M Cloud unit;
  list_subnet_pools : Handler -> option string -> M Cloud (Page SubnetPool)
}.
Arguments get_ce_auth {Cloud}. Arguments create_fleet {Cloud}. Arguments list_fleets {Cloud}.
Arguments cancel_fleet {Cloud}. Arguments delete_fleet {Cloud}. Arguments list_subnet_pools {Cloud}.

(** What the exceptions of the clients carry: [ApiException]'s [status], [reason] and [body],
    [ClientError]'s response, whether a [MaxRetryError] is a name that does not resolve. *)
Record Attributes := mk_attributes {
  api_status : exn -> option Z;
  api_reason : exn -> string;
  api_body : exn -> string;
  error_code : exn -> string;
  http_status : exn -> Z;
  name_resolution : exn -> bool
}.

(** ** The state of a runner: the process, the objects, the cloud and what the instance keeps *)

Record Fleets (Cloud : Type) := mk_fleets {
  fl_world : World;
  fl_store : Store;
  fl_cloud : Cloud;
  fl_project : option CodeEngineProject;
  fl_handler : option Handler;
  fl_connected : bool
}.
Arguments mk_fleets {Cloud}. Arguments fl_world {Cloud}. Arguments fl_store {Cloud}. Arguments fl_cloud {Cloud}.
Arguments fl_project {Cloud}. Arguments fl_handler {Cloud}. Arguments fl_connected {Cloud}.

Section state.
Context {Cloud : Type}.
Definition on_process {A} (m : Py A) : M (Fleets Cloud) A :=
  fun s => let '(o, w) := m (fl_world s) in
           (o, mk_fleets w (fl_store s) (fl_cloud s) (fl_project s) (fl_handler s) (fl_connected s)).
Definition on_store {A} (m : M Store A) : M (Fleets Cloud) A :=
  fun s => let '(o, st) := m (fl_store s) in
           (o, mk_fleets (fl_world s) st (fl_cloud s) (fl_project s) (fl_handler s) (fl_connected s)).
Definition on_cloud {A} (m : M Cloud A) : M (Fleets Cloud) A :=
  fun s => let '(o, c) := m (fl_cloud s) in
           (o, mk_fleets (fl_world s) (fl_store s) c (fl_project s) (fl_handler s) (fl_connected s)).
Definition set_project (p : CodeEngineProject) : M (Fleets Cloud) unit :=
  modify (fun s => mk_fleets (fl_world s) (fl_store s) (fl_cloud s) (Some p) (fl_handler s) (fl_connected s)).
Definition set_handler (h : Handler) : M (Fleets Cloud) unit :=
  modify (fun s => mk_fleets (fl_world s) (fl_store s) (fl_cloud s) (fl_project s) (Some h) (fl_connected s)).
Definition set_connected : M (Fleets Cloud) unit :=
  modify (fun s => mk_fleets (fl_world s) (fl_store s) (fl_cloud s) (fl_project s) (fl_handler s) true).
End state.

(** [needle in text]. *)
Definition in_text (needle text : string) : bool := contains_str needle text.

(** ** [_UUID_RE] *)

Definition is_hex (c : ascii) : bool :=
  is_digit c || (bool_decide (97 <= code c <= 102)%nat) || (bool_decide (65 <= code c <= 70)%nat).
(** As many characters of each group, with a hyphen between them. *)
Fixpoint hex_groups (groups : list nat) (s : string) : bool :=
  match groups with
  | [] => ComputeProfile.at_end s
  | n :: groups =>
      bool_decide (String.length (take_str n s) = n) && forallb_str is_hex (take_str n s)
      && match groups with
         | [] => ComputeProfile.at_end (drop_str n s)
         | _ => match drop_str n s with
                | String c s => bool_decide (c = "-"%char) && hex_groups groups s
                | EmptyString => false
                end
         end
  end.
Definition is_uuid (s : string) : bool := hex_groups [8; 4; 4; 4; 12]%nat s.

Example is_uuid_ex :
  (is_uuid "15314cc3-85b4-4338-903f-c28cdee6d005", is_uuid "15314cc3-85b4-4338-903f-c28cdee6d00", is_uuid "acme-sampler-1")
  = (true, false, false).
Proof. reflexivity. Qed.

Section handler.
Context {Cloud : Type} (ce : CodeEngine Cloud) (attributes : Attributes).
Context (fuel : nat).                              (* pages read from a list *)

Definition _is_already_canceled (e : exn) : bool := in_text "fleet_already_canceled" (api_body attributes e).
Definition _is_name_conflict (e : exn) : bool :=
  bool_decide (api_status attributes e = Some 409%Z) && in_text "fleet_resource_name_conflict" (api_body attributes e).

(** ** The pages *)

Definition out_of_fuel : exn := mk_exn OtherException "fuel".
Definition too_long (h : Handler) : exn := mk_exn TimeoutError ("Listing the fleets of project " +:+ h_project h +:+ " took too long").
Definition went_back (h : Handler) (start : string) : exn :=
  mk_exn RuntimeError ("The fleet list of project " +:+ h_project h +:+ " went back to start " +:+ start).

(** [for fleets in self._fleet_pages(deadline)]: [step] is the body of the loop and says
    whether it goes on. *)
Fixpoint pages {B} (fuel : nat) (h : Handler) (deadline : option Z) (seen : list string) (start : option string)
    (step : B -> list FleetItem -> B * bool) (acc : B) : M (Fleets Cloud) B :=
  match fuel with
  | O => raise out_of_fuel
  | S fuel =>
      (match deadline with
       | Some d => t <- on_process monotonic ;; if (d <? t)%Z then raise (too_long h) else ret tt
       | None => ret tt
       end) ;;;
      page <- on_cloud (list_fleets ce h start (bool_decide (is_Some deadline))) ;;
      let '(acc, go_on) := step acc (page_items page) in
      if go_on : bool then
        match page_next page with
        | Some next =>
            if bool_decide (next = "") then ret acc
            else if bool_decide (next ∈ seen) then raise (went_back h next)
            else pages fuel h deadline (next :: seen) (Some next) step acc
        | None => ret acc
        end
      else ret acc
  end.
Definition _fleet_pages {B} (h : Handler) (deadline : option Z) (step : B -> list FleetItem -> B * bool) (acc : B)
    : M (Fleets Cloud) B := pages fuel h deadline [] None step acc.

Definition named (name : string) (fleets : list FleetItem) : option FleetItem :=
  snd <$> list_find (fun f => item_name f = Some name) fleets.
Definition find_fleet_id (h : Handler) (name : string) : M (Fleets Cloud) (option string) :=
  _fleet_pages h None (fun _ fleets =>
    match named name fleets with Some f => (item_id f, false) | None => (None, true) end) None.

Definition handler_count_fleets (h : Handler) (deadline : Z) : M (Fleets Cloud) nat :=
  _fleet_pages h (Some deadline) (fun n fleets => ((n + length fleets)%nat, true)) 0%nat.

(** ** Operations *)

Definition is_api_error (e : exn) : bool := isinstance e ApiException.

Definition submit_job (h : Handler) (body : FleetBody) : M (Fleets Cloud) (option string) :=
  try_except (on_cloud (create_fleet ce h body)) (fun exc =>
    if is_api_error exc then
      Some (if _is_name_conflict exc then
              fleet_id <- find_fleet_id h (body_name body) ;;
              if truthy fleet_id then ret fleet_id else raise exc
            else raise exc)
    else None).

Definition not_found (h : Handler) (identifier : string) : exn :=
  mk_exn ValueError ("Fleet named '" +:+ identifier +:+ "' was not found in project " +:+ h_project h +:+ ".").
Definition _resolve_fleet_id (h : Handler) (identifier : string) : M (Fleets Cloud) string :=
  if is_uuid identifier then ret identifier
  else
    fleet_id <- find_fleet_id h identifier ;;
    if truthy fleet_id then ret (default "" fleet_id) else raise (not_found h identifier).

Definition delete_job (h : Handler) (identifier : string) : M (Fleets Cloud) bool :=
  fleet_id <- _resolve_fleet_id h identifier ;;
  try_except (on_cloud (delete_fleet ce h fleet_id) ;;; ret true)
    (fun exc => if is_api_error exc then
                  Some (if bool_decide (api_status attributes exc = Some 404%Z) then ret false else raise exc)
                else None).

(** [cancel_job(identifier, wait=False, delete=...)]. *)
Definition cancel_job (h : Handler) (identifier : string) (delete : bool) : M (Fleets Cloud) bool :=
  fleet_id <- _resolve_fleet_id h identifier ;;
  cancel_sent <- try_except (on_cloud (cancel_fleet ce h fleet_id) ;;; ret true) (fun exc =>
    if is_api_error exc then
      Some (if bool_decide (api_status attributes exc = Some 409%Z) && _is_already_canceled exc then ret true
            else if bool_decide (api_status attributes exc = Some 404%Z) then ret false
            else raise exc)
    else if isinstance exc ValueError then
      Some (if in_text "Invalid value for" (exn_str exc) then ret true else raise exc)
    else None) ;;
  (if delete then delete_job h fleet_id ;;; ret tt else ret tt) ;;;
  ret cancel_sent.

(** ** Subnet pools *)

Fixpoint list_pools (fuel : nat) (h : Handler) (start : option string) (pools : list SubnetPool)
    : M (Fleets Cloud) (list SubnetPool) :=
  match fuel with
  | O => raise out_of_fuel
  | S fuel =>
      page <- on_cloud (list_subnet_pools ce h start) ;;
      let pools := pools ++ page_items page in
      if truthy (page_next page) then list_pools fuel h (page_next page) pools else ret pools
  end.

Definition resolve_subnet_pool_id (h : Handler) (name : string) : M (Fleets Cloud) string :=
  pools <- list_pools fuel h None [] ;;
  match filter (fun p => pool_name p = name) pools with
  | [p] => ret (pool_id p)
  | [] => raise (mk_exn ValueError ("No subnet pool named '" +:+ name +:+ "' in project [" +:+ h_project h +:+ "]"))
  | _ => raise (mk_exn ValueError ("Subnet pool name '" +:+ name +:+ "' is ambiguous in project [" +:+ h_project h +:+ "]"))
  end.
End handler.
