(* ===== verification/FleetsRunner.v ===== *)
(** * The Fleets runner ([core/services/runners/fleets_runner.py])

    Uploading a job's program, creating its fleet, reading the task store for its status,
    cancelling and deleting the fleet. *)

From stdpp Require Import pretty.
From S2P Require Import Prelude PyStr Domain Models World BillingEvents JobTransitions Json ValidateArguments RunFunction JobEnvironment Paths Stores FileStorage FleetPaths FleetHandler.

Local Open Scope string_scope.
Local Open Scope list_scope.

Definition fleets_error (class : exn_type) (message : string) : exn := mk_exn class message.
(** [RunnerError(message, ex)], as its text shows it. *)
Definition caused (class : exn_type) (message : string) (ex : exn) : exn := mk_exn class (message +:+ ": " +:+ exn_str ex).

(** ** The name of a fleet *)

Definition _FLEET_NAME_SEGMENT_MAX : nat := 12.
Definition slug_char (c : ascii) : bool := is_lower c || is_digit c.
Definition hyphen : ascii := "-"%char.

(** [re.sub("[^a-z0-9]+", "-", value)]. *)
Fixpoint hyphenate (in_run : bool) (s : string) : string :=
  match s with
  | EmptyString => EmptyString
  | String c s =>
      if slug_char c then String c (hyphenate false s)
      else if in_run then hyphenate true s else String hyphen (hyphenate true s)
  end.
(** [s.strip("-")]. *)
Fixpoint lstrip_hyphen (s : string) : string :=
  match s with
  | String c s' => if bool_decide (c = hyphen) then lstrip_hyphen s' else s
  | EmptyString => EmptyString
  end.
Fixpoint rstrip_hyphen (s : string) : string :=
  match s with
  | EmptyString => EmptyString
  | String c s' =>
      match rstrip_hyphen s' with
      | EmptyString => if bool_decide (c = hyphen) then EmptyString else String c EmptyString
      | r => String c r
      end
  end.
Definition strip_hyphen (s : string) : string := rstrip_hyphen (lstrip_hyphen s).

Definition _fleet_name_segment (value : string) : string :=
  let slug := strip_hyphen (hyphenate false (lower value)) in
  let segment := strip_hyphen (take_str _FLEET_NAME_SEGMENT_MAX slug) in
  if bool_decide (segment = "") then "unknown" else segment.

Definition fleet_name (job : Job) (p : Program) : string :=
  _fleet_name_segment (match program_provider p with Some prov => provider_name prov | None => "custom" end)
  +:+ "-" +:+ _fleet_name_segment (title p) +:+ "-" +:+ id job.

Example fleet_name_ex :
  map _fleet_name_segment ["Acme Corp."; "--My  function (v2)!--"; "???"] = ["acme-corp"; "my-function"; "unknown"].
Proof. reflexivity. Qed.

(** ** Compute profiles *)

(** [r"^(\d+)x(\d+)(?:x(\d+)([a-z]\w*))?$"]: cpu, memory and, of a GPU, how many and which. *)
Definition word_char (c : ascii) : bool := is_digit c || is_lower c || is_upper c || bool_decide (c = "_"%char).
Definition after_x (s : string) : option string :=
  match s with String c s => if bool_decide (c = "x"%char) then Some s else None | EmptyString => None end.
Definition digits (s : string) : option (string * string) :=
  let '(d, rest) := ComputeProfile.span is_digit s in if bool_decide (d = "") then None else Some (d, rest).

Definition profile_re (s : string) : option (string * string * option (string * string)) :=
  '(cpu, s) ← digits s;
  s ← after_x s;
  '(memory, s) ← digits s;
  if ComputeProfile.at_end s then Some (cpu, memory, None)
  else
    s ← after_x s;
    '(count, s) ← digits s;
    let '(model, rest) := ComputeProfile.span word_char s in
    match model with
    | String c _ => if is_lower c && ComputeProfile.at_end rest then Some (cpu, memory, Some (count, model)) else None
    | EmptyString => None
    end.

(** ** The artifact of a function: the members of its archive *)

Record Member := mk_member { member_name : string; member_isfile : bool; extracted : outcome (option string) }.

(** The scripts rendered from templates. *)
Record Templates := mk_templates {
  custom_wrapper : string -> string -> string;         (* [app_cmd]'s script, the user's settings *)
  provider_wrapper : string -> string -> string;
  main_template : string -> string -> string
}.

Section runner.
Context {Cloud : Type} (ce : CodeEngine Cloud) (attributes : Attributes) (fuel : nat).
Context (settings : FleetsSettings) (lib : Libraries) (templates : Templates).
Context (decrypt_string : string -> outcome string).
Context (open_artifact : string -> outcome (list Member)).           (* [tarfile.open(path)] *)
Context (cos_fault : CosOp -> string -> string -> option (exn * bool)).
Context (projects : list CodeEngineProject).                          (* the table, as it was filled *)
Context (config_workers : Job -> option Z).                           (* [job.config.workers] *)

Abbreviation FleetsM := (M (Fleets Cloud)).

(** ** The project, the handler *)

Definition job_ : FleetsM Job := on_process get_self.
Definition no_program (job : Job) : exn := fleets_error RunnerError ("Program for job '" +:+ id job +:+ "' has been deleted").

Definition get_project (job : Job) : outcome CodeEngineProject :=
  match program job with
  | None => Raise (no_program job)
  | Some p =>
      match program_code_engine_project p with
      | None => Raise (fleets_error RunnerError ("No Code Engine project assigned to program '" +:+ title p +:+ "'"))
      | Some project =>
          if project_active project then Ok project
          else Raise (fleets_error RunnerError ("Code Engine project '" +:+ project_name project +:+ "' is not active"))
      end
  end.
Definition _get_project : FleetsM CodeEngineProject := job <- job_ ;; of_outcome (get_project job).

(** [if not self._project: self._project = self._get_project()]. *)
Definition ensure_project : FleetsM CodeEngineProject :=
  cached <- gets fl_project ;;
  match cached with
  | Some p => ret p
  | None => p <- _get_project ;; set_project p ;;; ret p
  end.

Definition _get_api_key : outcome string :=
  if truthy (IBM_CLOUD_API_KEY settings) then Ok (default "" (IBM_CLOUD_API_KEY settings))
  else Raise (fleets_error RunnerError "IBM_CLOUD_API_KEY not configured in settings").

Definition _get_handler : FleetsM Handler :=
  project <- ensure_project ;;
  cached <- gets fl_handler ;;
  match cached with
  | Some h => ret h
  | None =>
      try_except
        (key <- of_outcome _get_api_key ;;
         on_cloud (get_ce_auth ce key (project_region project) true) ;;;
         let h := mk_handler (project_region project) (project_id project) in
         set_handler h ;;; ret h)
        (fun ex => Some (raise (caused RunnerError ("Failed to initialize FleetHandler for project [" +:+ project_name project +:+ "]") ex)))
  end.

Definition connect : FleetsM unit :=
  done <- gets fl_connected ;;
  if done : bool then ret tt
  else
    try_except (_get_handler ;;; set_connected) (fun ex => Some
      (project <- gets fl_project ;;
       let region := match project with Some p => project_region p | None => "unknown" end in
       raise (caused RunnerError ("Unable to connect to Code Engine Fleets in region [" +:+ region +:+ "]") ex))).
Definition _ensure_connected : FleetsM unit := done <- gets fl_connected ;; if done : bool then ret tt else connect.

Definition fleets_is_active : FleetsM bool := job <- job_ ;; ret (bool_decide (is_Some (fleet_id job))).

(** ** Uploading the program *)

Definition _is_cos_configured (project : CodeEngineProject) (p : Program) : bool :=
  (if bool_decide (is_Some (program_provider p)) then truthy (cos_bucket_provider_data_name project) else true)
  && truthy (cos_bucket_user_data_name project) && truthy (cos_instance_name project) && truthy (cos_key_name project).

Definition put (bucket key content : string) : FleetsM unit := on_store (upload_fileobj cos_fault content bucket key).

(** Whether a normalized name leaves the folder it is put in. *)
Definition escapes (normalized_name : string) : bool :=
  startswith "/" normalized_name || bool_decide (normalized_name = "..") || startswith "../" normalized_name.

(** [for member in tar.getmembers()]: whether the entrypoint was among them. *)
Fixpoint upload_members (bucket prefix entry : string) (members : list Member) (entrypoint_found : bool) : FleetsM bool :=
  match members with
  | [] => ret entrypoint_found
  | m :: members =>
      if negb (member_isfile m) then upload_members bucket prefix entry members entrypoint_found
      else
        let normalized_name := normpath (member_name m) in
        if escapes normalized_name then upload_members bucket prefix entry members entrypoint_found
        else
          content <- of_outcome (extracted m) ;;
          match content with
          | None => upload_members bucket prefix entry members entrypoint_found
          | Some content =>
              put bucket (prefix +:+ "/" +:+ normalized_name) content ;;;
              upload_members bucket prefix entry members (entrypoint_found || bool_decide (normalized_name = entry))
          end
  end.

Definition is_tar_error (e : exn) : bool := isinstance e TarError.

Definition _upload_custom_image_entrypoint (project : CodeEngineProject) (job : Job) (p : Program) (paths : FleetJobPaths) : FleetsM unit :=
  let user_bucket := default "" (cos_bucket_user_data_name project) in
  put user_bucket (cos_docker_entrypoint paths) (custom_wrapper templates (container_function_entrypoint paths) (QISKIT_USER_CONFIG settings)) ;;;
  entrypoint_found <- try_except
    (members <- of_outcome (open_artifact (default "" (artifact p))) ;;
     upload_members user_bucket (cos_user_function_prefix paths) (entrypoint p) members false)
    (fun ex => if is_tar_error ex then Some (raise (caused RunnerError ("Failed to read artifact for job_id=[" +:+ id job +:+ "]") ex)) else None) ;;
  if entrypoint_found : bool then ret tt
  else raise (fleets_error RunnerError ("Entrypoint '" +:+ entrypoint p +:+ "' not found in artifact for job_id=[" +:+ id job +:+ "]")).

Definition _upload_provider_image_entrypoint (project : CodeEngineProject) (p : Program) (paths : FleetJobPaths) : FleetsM unit :=
  match program_provider p with
  | None => raise (fleets_error RunnerError "_upload_provider_image_entrypoint called on non-provider job")
  | Some _ =>
      let provider_bucket := default "" (cos_bucket_provider_data_name project) in
      put provider_bucket (cos_docker_entrypoint paths)
        (provider_wrapper templates (container_function_entrypoint paths) (QISKIT_USER_CONFIG settings)) ;;;
      put provider_bucket (cos_function_entrypoint paths)
        (main_template templates (CUSTOM_IMAGE_PACKAGE_PATH settings) (CUSTOM_IMAGE_PACKAGE_NAME settings))
  end.

Definition _upload_program_to_cos (project : CodeEngineProject) (job : Job) (p : Program) (paths : FleetJobPaths) : FleetsM unit :=
  if truthy (artifact p) then _upload_custom_image_entrypoint project job p paths
  else if truthy (image p) then _upload_provider_image_entrypoint project p paths
  else ret tt.

(** The clauses that [_upload_to_cos] and [_create_fleet] share. *)
Definition status_of (ex : exn) : Z := default 0%Z (api_status attributes ex).
Definition transient (status : Z) : bool := bool_decide (status ∈ [0; 429]%Z) || (500 <=? status)%Z.
Definition api_error (ex : exn) : exn :=
  caused (if transient (status_of ex) then RunnerRetryableError else RunnerError) ("Code Engine API error: " +:+ api_reason attributes ex) ex.
Definition unreachable (ex : exn) : exn :=
  if name_resolution attributes ex
  then caused RunnerError "Unable to resolve the Code Engine host, check the CE project region" ex
  else caused RunnerRetryableError "Unable to reach Code Engine" ex.
Definition cos_error (ex : exn) : exn :=
  caused (if bool_decide (http_status attributes ex ∈ [429; 500; 502; 503; 504]%Z)
             || bool_decide (error_code attributes ex ∈ ["SlowDown"; "RequestTimeout"; "Throttling"])
          then CosRetryableError else RunnerError) ("COS error: " +:+ error_code attributes ex) ex.
Definition submit_error (job : Job) (ex : exn) : exn :=
  caused RunnerError ("Failed to submit job_id=[" +:+ id job +:+ "] to Code Engine Fleets") ex.
Definition is_any (e : exn) (classes : list exn_type) : bool := existsb (isinstance e) classes.

(** What [_upload_to_cos] raises for what it caught. *)
Definition upload_error (job : Job) (ex : exn) : exn :=
  if isinstance ex RunnerError then ex
  else if isinstance ex ClientError then cos_error ex
  else if isinstance ex ApiException then api_error ex
  else if isinstance ex MaxRetryError then unreachable ex
  else if is_any ex [BotoConnectionError; BotoHTTPClientError; ReadTimeoutError; ProtocolError]
  then caused CosRetryableError "Unable to reach COS" ex
  else if isinstance ex RetryableError then caused RunnerRetryableError (exn_str ex) ex
  else submit_error job ex.

(** What [_create_fleet] raises for what it caught. *)
Definition create_error (job : Job) (ex : exn) : exn :=
  if isinstance ex RunnerError then ex
  else if isinstance ex ApiException then api_error ex
  else if isinstance ex MaxRetryError then unreachable ex
  else if is_any ex [ReadTimeoutError; ProtocolError] then caused RunnerRetryableError "Unable to reach Code Engine" ex
  else if isinstance ex RetryableError then caused RunnerRetryableError "Unable to reach IBM Cloud IAM" ex
  else submit_error job ex.

(** [try: m except ...]: every exception is caught, and what [f] makes of it is raised. *)
Definition raising_as {A} (f : exn -> exn) (m : FleetsM A) : FleetsM A := try_except m (fun ex => Some (raise (f ex))).

(** The function of the job, where the code reads an attribute of it. *)
Definition program_ (job : Job) : FleetsM Program := on_process (attr (program job)).

Definition _upload_to_cos : FleetsM FleetJobPaths :=
  job <- job_ ;;
  raising_as (upload_error job)
    (project <- ensure_project ;;
     p <- program_ job ;;
     (if _is_cos_configured project p then ret tt
      else raise (fleets_error RunnerError ("COS is not configured for job_id=[" +:+ id job +:+ "] — cannot submit Fleets job"))) ;;;
     let paths := build_job_paths job p in
     _upload_program_to_cos project job p paths ;;;
     ret paths).

(** ** Creating the fleet *)

Definition _get_image (p : Program) : string :=
  if truthy (artifact p) then FLEETS_DEFAULT_IMAGE settings
  else if truthy (image p) then default "" (image p) else FLEETS_DEFAULT_IMAGE settings.

Definition _get_max_instances (job : Job) : Z :=
  match config_workers job with
  | Some n => if bool_decide (n = 0%Z) then FLEETS_DEFAULT_MAX_INSTANCES settings else n
  | None => FLEETS_DEFAULT_MAX_INSTANCES settings
  end.

Definition _parse_compute_profile (job : Job) : outcome (string * string * option (string * string)) :=
  let profile := if truthy (job_compute_profile_id job) then default "" (job_compute_profile_id job)
                 else DEFAULT_COMPUTE_PROFILE settings in
  match ComputeProfile.normalize (Some profile) with
  | None => Raise (mk_exn TypeError "expected string or bytes-like object, got 'NoneType'")
  | Some resources =>
      match profile_re resources with
      | Some (cpu, memory, gpu) => Ok (cpu, memory +:+ "G", (fun '(count, model) => (model, count)) <$> gpu)
      | None => Raise (fleets_error RunnerError ("Could not parse compute_profile [" +:+ profile
                         +:+ "]: expected format '{cpu}x{memory}[x{count}{model}]'"))
      end
  end.

(** [decrypt_env_vars(json.loads(job.env_vars))]. *)
Definition stored_env_vars (job : Job) : outcome (list (string * Json)) :=
  match json_loads lib (env_vars job) with
  | Raise e => Raise e
  | Ok (JObj env) => Ok (decrypt_env_vars decrypt_string env)
  | Ok _ => Raise (mk_exn AttributeError "object has no attribute 'items'")
  end.

Definition fleet_body (project : CodeEngineProject) (job : Job) (p : Program) (paths : FleetJobPaths)
    (profile : string * string * option (string * string)) (env : list (string * Json)) (mounts : list Mount)
    (functions_identifier : option string) : FleetBody :=
  {| body_name := fleet_name job p;
     image_reference := _get_image p;
     image_secret := if truthy (CE_ICR_PULL_SECRET settings) then CE_ICR_PULL_SECRET settings else None;
     subnet_pool := subnet_pool_id project;
     scale_cpu_limit := profile.1.1;
     scale_memory_limit := profile.1.2;
     scale_gpu := profile.2;
     scale_max_instances := _get_max_instances job;
     scale_retry_limit := 0%Z;
     tasks_indices := "0";
     tasks_state_store := pds_name_state project;
     run_volume_mounts := mounts;
     run_env_variables := build_run_env_variables settings paths env functions_identifier;
     run_commands := ["python"; container_docker_entrypoint paths] |}.

Definition _create_fleet (paths : FleetJobPaths) : FleetsM unit :=
  job <- job_ ;;
  mirrored <- on_process (Workload.is_mirrored job) ;;
  let functions_identifier := if mirrored : bool then Some (id job) else None in
  raising_as (create_error job)
    (h <- _get_handler ;;
     project <- ensure_project ;;
     p <- program_ job ;;
     profile <- of_outcome (_parse_compute_profile job) ;;
     env <- of_outcome (stored_env_vars job) ;;
     mounts <- of_outcome (build_run_volume_mounts_for_job paths project) ;;
     fleet <- submit_job ce attributes fuel h (fleet_body project job p paths profile env mounts functions_identifier) ;;
     if truthy fleet then on_process (modify_self (setattr (F_fleet_id fleet)))
     else raise (fleets_error RunnerError "Fleet submission succeeded but no fleet ID returned")).

Definition fleets_submit : FleetsM unit := paths <- _upload_to_cos ;; _create_fleet paths.

(** ** The task store *)

Definition TASK_STORE_VERSIONS : list string := ["v3"; "v2"].
Definition queue_prefix (project fleet version : string) : string :=
  "ce/" +:+ project +:+ "/" +:+ fleet +:+ "/" +:+ version +:+ "/queue/".

Definition task_state_from_key (prefix key : string) : option string :=
  if startswith prefix key then
    match split_on slash (removeprefix prefix key) with
    | state :: _ => let state := lower (strip state) in if bool_decide (state = "") then None else Some state
    | [] => None
    end
  else None.

Definition _STATE_TO_JOB_STATUS : list (string * JobStatus) :=
  [("succeeded", SUCCEEDED); ("failed", FAILED); ("canceled", STOPPED); ("running", RUNNING); ("pending", PENDING)].

(** [None] when the call failed. *)
Definition _list_task_state_keys (bucket prefix : string) : FleetsM (option (list string)) :=
  try_except (keys <- on_store (list_keys cos_fault bucket prefix) ;; ret (Some keys)) (fun exc =>
    if isinstance exc ClientError then Some (ret None)
    else if isinstance exc ValueError then Some (raise exc)
    else Some (ret None)).

Fixpoint resolve_versions (versions : list string) (bucket project fleet prefix : string) : FleetsM (string * list string) :=
  match versions with
  | [] => ret (prefix, [])
  | version :: versions =>
      let prefix := queue_prefix project fleet version in
      keys <- _list_task_state_keys bucket prefix ;;
      match keys with
      | None => ret (prefix, [])
      | Some [] => resolve_versions versions bucket project fleet prefix
      | Some keys => ret (prefix, keys)
      end
  end.
Definition _resolve_task_state_keys (bucket project fleet : string) : FleetsM (string * list string) :=
  resolve_versions TASK_STORE_VERSIONS bucket project fleet "".

Definition no_fleet : exn := fleets_error RunnerError "Job has no fleet_id assigned".

Definition fleets_status : FleetsM (option JobStatus) :=
  job <- job_ ;;
  (if truthy (fleet_id job) then ret tt else raise no_fleet) ;;;
  project <- ensure_project ;;
  (if truthy (cos_bucket_task_store_name project) then ret tt
   else raise (fleets_error RunnerError ("CodeEngineProject '" +:+ project_name project +:+ "' has no cos_bucket_task_store_name configured"))) ;;;
  found <- _resolve_task_state_keys (default "" (cos_bucket_task_store_name project)) (project_id project) (default "" (fleet_id job)) ;;
  let '(prefix, keys) := found in
  let states := omap (task_state_from_key prefix) keys in
  ret (snd <$> (snd <$> list_find (fun st => st.1 ∈ states) _STATE_TO_JOB_STATUS)).

(** ** Stopping *)

(** [stop]'s clauses around the cancel. *)
Definition stop_error (job : Job) (ex : exn) : exn :=
  if isinstance ex ApiException then
    caused RunnerRetryableError ("Code Engine API error " +:+ default "None" (pretty <$> api_status attributes ex) +:+ ": " +:+ api_reason attributes ex) ex
  else if is_any ex [MaxRetryError; ReadTimeoutError; ProtocolError] then caused RunnerRetryableError "Unable to reach Code Engine" ex
  else if isinstance ex RetryableError then caused RunnerRetryableError "Unable to reach IBM Cloud IAM" ex
  else caused RunnerError ("Unable to stop fleet [" +:+ default "None" (fleet_id job) +:+ "]") ex.

Definition fleets_stop : FleetsM bool :=
  job <- job_ ;;
  if negb (truthy (fleet_id job)) then raise no_fleet
  else if bool_decide (program job = None) then ret false
  else
    project <- _get_project ;;
    set_project project ;;;
    h <- try_except (_ensure_connected ;;; _get_handler) (fun ex =>
           if isinstance ex RunnerError then Some (raise (caused RunnerRetryableError "Unable to reach Code Engine" ex)) else None) ;;
    raising_as (stop_error job) (cancel_job ce attributes fuel h (default "" (fleet_id job)) false).

(** ** Deleting *)

Definition _may_delete_fleet (job : Job) : bool := truthy (fleet_id job) && bool_decide (status job ∈ TERMINAL_STATUSES).

(** [CodeEngineProject.objects.select_by_name]: active rows first, then the oldest. *)
Definition select_by_name (name : string) (region : option string) : option CodeEngineProject :=
  let rows := filter (fun p => project_name p = name) projects in
  let rows := if truthy region then filter (fun p => Some (project_region p) = region) rows else rows in
  head (order_by (fun p => if project_active p then 0%Z else 1%Z) rows).

Definition _execution_project (job : Job) : outcome CodeEngineProject :=
  if truthy (ce_project_name job) then
    match select_by_name (default "" (ce_project_name job)) (ce_region job) with
    | Some p => Ok p
    | None => Raise (fleets_error RunnerError ("No Code Engine project '" +:+ default "" (ce_project_name job) +:+ "' for job '" +:+ id job +:+ "'"))
    end
  else
    match program job with
    | None => Raise (no_program job)
    | Some p =>
        match program_code_engine_project p with
        | Some project => Ok project
        | None => Raise (fleets_error RunnerError ("No Code Engine project assigned to job '" +:+ id job +:+ "'"))
        end
    end.

(** [free_resources]'s clauses: what is answered or raised for what was caught. *)
Definition delete_failed (ex : exn) : FleetsM bool :=
  if isinstance ex RunnerError then raise (caused RunnerRetryableError ("Unable to reach Code Engine: " +:+ exn_str ex) ex)
  else if isinstance ex ApiException then
    if transient (status_of ex) then raise (caused RunnerRetryableError ("Code Engine API error: " +:+ api_reason attributes ex) ex) else ret false
  else if isinstance ex MaxRetryError then
    if name_resolution attributes ex then ret false
    else raise (caused RunnerRetryableError ("Code Engine request failed: " +:+ exn_str ex) ex)
  else if is_any ex [ReadTimeoutError; ProtocolError] then raise (caused RunnerRetryableError ("Code Engine request failed: " +:+ exn_str ex) ex)
  else if isinstance ex RetryableError then raise (caused RunnerRetryableError "Unable to reach IBM Cloud IAM" ex)
  else ret false.

Definition fleets_free_resources : FleetsM bool :=
  job <- job_ ;;
  if negb (_may_delete_fleet job) then ret false
  else
    match _execution_project job with
    | Raise e => if isinstance e RunnerError then ret false else raise e
    | Ok project =>
        set_project project ;;;
        try_except
          (_ensure_connected ;;;
           h <- _get_handler ;;
           delete_job ce attributes fuel h (default "" (fleet_id job)) ;;;
           ret true)
          (fun ex => Some (delete_failed ex))
    end.

(** ** Counting: [count_fleets] of a project, outside any runner *)

Definition count_fleets (project : CodeEngineProject) (deadline : Z) : FleetsM nat :=
  if negb (truthy (IBM_CLOUD_API_KEY settings)) then raise (fleets_error RunnerError "IBM_CLOUD_API_KEY not configured in settings")
  else
    raising_as (caused RunnerError ("Unable to count the fleets of project " +:+ project_name project))
      (on_cloud (get_ce_auth ce (default "" (IBM_CLOUD_API_KEY settings)) (project_region project) false) ;;;
       t <- on_process monotonic ;;
       handler_count_fleets ce fuel (mk_handler (project_region project) (project_id project)) (t + deadline)%Z).
End runner.
