(* ===== verification/FleetsRunnerProps.v ===== *)
(** * Correctness of the Fleets runner

    The names of fleets; a submit that is tried again finds the fleet it made; what a submit
    writes; what a status, a stop and a deletion answer. *)

From S2P Require Import Prelude PyStr Domain Models World BillingEvents JobTransitions Json ValidateArguments RunFunction JobEnvironment Paths Stores FileStorage FleetPaths FleetHandler FleetsRunner Samples.

Local Open Scope string_scope.
Local Open Scope list_scope.

(** ** Names *)

(** What Code Engine accepts in the name of a fleet. *)
Definition name_ok (c : ascii) : bool := slug_char c || bool_decide (c = hyphen).
Definition ends_ok (s : string) : Prop := startswith "-" s = false /\ endswith_char hyphen s = false.

Lemma forallb_str_mono (p q : ascii -> bool) s : (forall c, p c = true -> q c = true) -> forallb_str p s = true -> forallb_str q s = true.
Proof.
  intros H. induction s as [|c s IH]; [done|]. cbn. intros [Hc Hs]%andb_prop. apply andb_true_intro. auto.
Qed.
Lemma forallb_take p n s : forallb_str p s = true -> forallb_str p (take_str n s) = true.
Proof. revert s. induction n as [|n IH]; intros [|c s]; try done. cbn. intros [Hc Hs]%andb_prop. rewrite Hc. by apply IH. Qed.

Lemma hyphenate_ok b s : forallb_str name_ok (hyphenate b s) = true.
Proof.
  revert b. induction s as [|c s IH]; intros b; [done|]. cbn. destruct (slug_char c) eqn:Hc; [|destruct b; [done|]]; cbn; rewrite IH;
    unfold name_ok; by rewrite ?Hc.
Qed.
Lemma lstrip_ok p s : forallb_str p s = true -> forallb_str p (lstrip_hyphen s) = true.
Proof. induction s as [|c s IH]; [done|]. cbn. intros [Hc Hs]%andb_prop. case_bool_decide; [by apply IH|]. cbn. by rewrite Hc. Qed.
Lemma rstrip_cons c s : rstrip_hyphen (String c s) = (if bool_decide (rstrip_hyphen s = "") && bool_decide (c = hyphen) then "" else String c (rstrip_hyphen s)).
Proof. cbn. destruct (rstrip_hyphen s); [|done]. by case_bool_decide. Qed.
Lemma rstrip_ok p s : forallb_str p s = true -> forallb_str p (rstrip_hyphen s) = true.
Proof.
  induction s as [|c s IH]; [done|]. rewrite rstrip_cons. cbn. intros [Hc Hs]%andb_prop. destruct (_ && _); [done|]. cbn. rewrite Hc. by apply IH.
Qed.
Lemma lstrip_length s : (String.length (lstrip_hyphen s) <= String.length s)%nat.
Proof. induction s as [|c s IH]; [done|]. cbn. case_bool_decide; cbn; lia. Qed.
Lemma rstrip_length s : (String.length (rstrip_hyphen s) <= String.length s)%nat.
Proof. induction s as [|c s IH]; [done|]. rewrite rstrip_cons. destruct (_ && _); cbn; lia. Qed.

Lemma lstrip_head s : startswith "-" (lstrip_hyphen s) = false.
Proof. induction s as [|c s IH]; [done|]. cbn [lstrip_hyphen]. case_bool_decide as Hc; [done|]. cbn. rewrite bool_decide_false; [done|]. by intros <-. Qed.
Lemma rstrip_head s : startswith "-" s = false -> startswith "-" (rstrip_hyphen s) = false.
Proof.
  destruct s as [|c s]; [done|]. rewrite rstrip_cons. destruct (_ && _); [done|]. cbn. by destruct (bool_decide _).
Qed.
Lemma rstrip_end s : endswith_char hyphen (rstrip_hyphen s) = false.
Proof.
  induction s as [|c s IH]; [done|]. rewrite rstrip_cons. destruct (bool_decide (rstrip_hyphen s = "")) eqn:He.
  - apply bool_decide_eq_true in He. rewrite He. cbn [andb]. destruct (bool_decide (c = hyphen)) eqn:Hc; [done|]. cbn. exact Hc.
  - cbn [andb]. destruct (rstrip_hyphen s) as [|d r]; [done|exact IH].
Qed.

Lemma segment_ok v :
  let s := _fleet_name_segment v in
  forallb_str name_ok s = true /\ (1 <= String.length s <= 12)%nat /\ ends_ok s.
Proof.
  unfold _fleet_name_segment. cbv zeta. set (slug := strip_hyphen (hyphenate false (lower v))).
  case_bool_decide as He; [by repeat split; cbn; lia|]. unfold strip_hyphen in *.
  assert (forallb_str name_ok slug = true) as Hs by apply rstrip_ok, lstrip_ok, hyphenate_ok.
  split; [by apply rstrip_ok, lstrip_ok, forallb_take|]. split; [|split; [apply rstrip_head, lstrip_head|apply rstrip_end]].
  split; [by destruct (rstrip_hyphen (lstrip_hyphen (take_str _ slug))); [|cbn; lia]|].
  etransitivity; [apply rstrip_length|]. etransitivity; [apply lstrip_length|]. apply length_take_str.
Qed.

(** A job's id: an UUID. *)
Definition id_ok (s : string) : Prop := forallb_str name_ok s = true /\ String.length s = 36%nat /\ ends_ok s.

Lemma starts_app a b : a <> "" -> startswith "-" (a +:+ b) = startswith "-" a.
Proof. destruct a as [|c a]; [done|]. intros _. change (String c a +:+ b) with (String c (a +:+ b)). cbn. by destruct (bool_decide _). Qed.

Lemma str_app_tail a b x y : String.length x = String.length y -> a +:+ x = b +:+ y -> x = y.
Proof.
  revert b. induction a as [|c a IH]; intros b Hl E.
  - apply (f_equal String.length) in E as Hn. rewrite !length_str_app in Hn. destruct b as [|d b]; [done|]. cbn in Hn. lia.
  - destruct b as [|d b].
    + apply (f_equal String.length) in E. rewrite !length_str_app in E. cbn in E. lia.
    + change (String c (a +:+ x) = String d (b +:+ y)) in E. injection E as -> E. by apply (IH b).
Qed.

(** the name of a job's fleet is one Code Engine accepts: at most 62 characters, lowercase
    letters, digits and hyphens, none at an end; and the names of two jobs differ. *)
Theorem fleet_name_accepted job p :
  id_ok (id job) ->
  (String.length (fleet_name job p) <= 62)%nat
  /\ forallb_str (fun c => is_lower c || is_digit c || bool_decide (c = "-"%char)) (fleet_name job p) = true
  /\ startswith "-" (fleet_name job p) = false /\ endswith_char "-"%char (fleet_name job p) = false
  /\ forall job' p', id_ok (id job') -> fleet_name job' p' = fleet_name job p -> id job' = id job.
Proof.
  intros (Hid & Hl & Hs & He). unfold fleet_name. set (vendor := match program_provider p with Some _ => _ | None => _ end).
  destruct (segment_ok vendor) as (Hv & [Hv1 Hv12] & Hvs & Hve). destruct (segment_ok (title p)) as (Ht & [Ht1 Ht12] & Hts & Hte).
  split_and!.
  - rewrite !length_str_app, Hl. cbn. lia.
  - change (forallb_str name_ok (_fleet_name_segment vendor +:+ "-" +:+ _fleet_name_segment (title p) +:+ "-" +:+ id job) = true).
    rewrite !forallb_str_app. by rewrite Hv, Ht, Hid.
  - rewrite starts_app; [done|]. intros E. rewrite E in Hv1. cbn in Hv1. lia.
  - rewrite !endswith_app; [done|..]; intros E; apply (f_equal String.length) in E; rewrite ?length_str_app, Hl in E; cbn in E; lia.
  - intros job' p' (_ & Hl' & _) E. rewrite <- !str_app_assoc in E. eapply str_app_tail; [|exact E]. by rewrite Hl, Hl'.
Qed.

(** ** Errors *)

Definition runner_error (e : exn) : Prop := isinstance e RunnerError = true.

Lemma caused_error class message ex : runner_error (mk_exn class "") -> runner_error (caused class message ex).
Proof. done. Qed.

Section errors.
Context {Cloud : Type} (ce : CodeEngine Cloud) (attributes : Attributes) (fuel : nat).
Context (settings : FleetsSettings) (lib : Libraries) (templates : Templates) (decrypt_string : string -> outcome string).
Context (open_artifact : string -> outcome (list Member)) (cos_fault : CosOp -> string -> string -> option (exn * bool)).
Context (config_workers : Job -> option Z).

Abbreviation FleetsM := (M (Fleets Cloud)).
Abbreviation submit := (fleets_submit ce attributes fuel settings lib templates decrypt_string open_artifact cos_fault config_workers).

Lemma raising_as_wp {A} (f : exn -> exn) (m : FleetsM A) P : (forall ex, P (f ex)) -> raising P (raising_as f m).
Proof. intros Hf s. apply wp_try_except. eapply wp_mono; [by apply (wp_rel (fun _ _ => True))|done|]. intros ex s' _. apply Hf. Qed.

Lemma raising_process {A} P (m : Py A) : raising P m -> raising P (on_process (Cloud := Cloud) m).
Proof. intros Hm s. specialize (Hm (fl_world s)). unfold wp, on_process in *. by destruct (m (fl_world s)) as [[a|e] w]. Qed.

Lemma upload_error_runner job ex : runner_error (upload_error attributes job ex).
Proof.
  unfold upload_error. destruct (isinstance ex RunnerError) eqn:?; [done|].
  destruct (isinstance ex ClientError); [by unfold cos_error; case_match|].
  destruct (isinstance ex ApiException); [by unfold api_error; case_match|].
  destruct (isinstance ex MaxRetryError); [by unfold unreachable; case_match|].
  by repeat case_match.
Qed.
Lemma create_error_runner job ex : runner_error (create_error attributes job ex).
Proof.
  unfold create_error. destruct (isinstance ex RunnerError) eqn:?; [done|].
  destruct (isinstance ex ApiException); [by unfold api_error; case_match|].
  destruct (isinstance ex MaxRetryError); [by unfold unreachable; case_match|].
  by repeat case_match.
Qed.

Lemma submit_raises : raising runner_error submit.
Proof.
  unfold fleets_submit, _upload_to_cos, _create_fleet, job_.
  raising_step; [|intros paths]; (apply raising_bind; [by apply raising_process|intros job]).
  - apply raising_as_wp. intros ex. apply upload_error_runner.
  - apply raising_bind; [by apply raising_process|intros mirrored]. apply raising_as_wp. intros ex. apply create_error_runner.
Qed.
End errors.

(** ** Fleets are made once *)

Lemma unique_value {A B} (l : list (A * B)) x y y' : NoDup l.*1 -> (x, y) ∈ l -> (x, y') ∈ l -> y = y'.
Proof.
  induction l as [|[a b] l IH]; [by intros _ H%not_elem_of_nil|]. cbn. intros [Ha Hn]%NoDup_cons [[= -> ->]|H]%elem_of_cons [[= <-]|H']%elem_of_cons;
    [done| | |by apply IH]; destruct Ha; apply list_elem_of_fmap; by eexists (_, _).
Qed.

(** The fleets of a project, by name, and what Code Engine documents of its calls: a create
    makes one fleet, whose name no fleet of the project had, or none; its answer is the id of
    the fleet it made; the list shows fleets that are there and changes none. *)
Class CodeEngineLaws {Cloud} (ce : CodeEngine Cloud) (fleets_of : Cloud -> string -> list (string * string)) := {
  create_law h body c :
    let '(o, c') := create_fleet ce h body c in
    ((forall q, fleets_of c' q = fleets_of c q) /\ forall i, o <> Ok (Some i))
    \/ exists i, body_name body ∉ (fleets_of c (h_project h)).*1
         /\ fleets_of c' (h_project h) = fleets_of c (h_project h) ++ [(body_name body, i)]
         /\ (forall q, q <> h_project h -> fleets_of c' q = fleets_of c q)
         /\ (forall i', o = Ok (Some i') -> i' = i);
  list_law h start timed c :
    let '(o, c') := list_fleets ce h start timed c in
    (forall q, fleets_of c' q = fleets_of c q)
    /\ forall page f n i, o = Ok page -> f ∈ page_items page -> item_name f = Some n -> item_id f = Some i ->
         (n, i) ∈ fleets_of c (h_project h);
  auth_law key region timed c q : fleets_of (snd (get_ce_auth ce key region timed c)) q = fleets_of c q
}.

Section submit.
Context {Cloud : Type} (ce : CodeEngine Cloud) (attributes : Attributes) (fuel : nat).
Context (settings : FleetsSettings) (lib : Libraries) (templates : Templates) (decrypt_string : string -> outcome string).
Context (open_artifact : string -> outcome (list Member)) (cos_fault : CosOp -> string -> string -> option (exn * bool)).
Context (config_workers : Job -> option Z).
Context (fleets_of : Cloud -> string -> list (string * string)) `{!CodeEngineLaws ce fleets_of}.

Abbreviation FleetsM := (M (Fleets Cloud)).
Abbreviation submit := (fleets_submit ce attributes fuel settings lib templates decrypt_string open_artifact cos_fault config_workers).

Abbreviation upload := (_upload_to_cos attributes settings templates open_artifact cos_fault).

(** Fleets are only added, under names that were free. *)
Definition grows (c c' : Cloud) : Prop :=
  (forall q, NoDup (fleets_of c q).*1 -> NoDup (fleets_of c' q).*1) /\ (forall q f, f ∈ fleets_of c q -> f ∈ fleets_of c' q).
#[local] Instance grows_preorder : PreOrder grows.
Proof. split; [by split|]. intros x y z [Hn Hf] [Hn' Hf']. split; auto. Qed.
Lemma grows_same c c' : (forall q, fleets_of c' q = fleets_of c q) -> grows c c'.
Proof. intros H. split; intros q; by rewrite H. Qed.

Definition keeps_fleets (s s' : Fleets Cloud) : Prop := grows (fl_cloud s) (fl_cloud s').
#[local] Instance keeps_preorder : PreOrder keeps_fleets.
Proof. split; [by intros s|]. intros x y z. unfold keeps_fleets. apply transitivity. Qed.

Lemma keeps_process {A} (m : Py A) : rel keeps_fleets (on_process m).
Proof. intros s. unfold on_process. by destruct (m (fl_world s)). Qed.
Lemma keeps_store {A} (m : M Store A) : rel keeps_fleets (on_store m).
Proof. intros s. unfold on_store. by destruct (m (fl_store s)). Qed.
Lemma keeps_cloud {A} (m : M Cloud A) : rel grows m -> rel keeps_fleets (on_cloud m).
Proof. intros H s. specialize (H (fl_cloud s)). unfold on_cloud, keeps_fleets. by destruct (m (fl_cloud s)). Qed.
Lemma keeps_set_project p : rel keeps_fleets (set_project p). Proof. by intros s. Qed.
Lemma keeps_set_handler h : rel keeps_fleets (set_handler h). Proof. by intros s. Qed.
Lemma grows_list h start timed : rel grows (list_fleets ce h start timed).
Proof.
  intros c. pose proof (list_law h start timed c) as H. destruct (list_fleets ce h start timed c) as [o c'].
  by apply grows_same, H.
Qed.
Lemma grows_auth key region timed : rel grows (get_ce_auth ce key region timed).
Proof. intros c. apply grows_same. intros q. by apply auth_law. Qed.
Lemma grows_create h body : rel grows (create_fleet ce h body).
Proof.
  intros c. pose proof (create_law h body c) as H. destruct (create_fleet ce h body c) as [o c']. cbn.
  destruct H as [[H _]|(i & Hfree & Hmade & Hothers & _)]; [by apply grows_same|].
  split; intros q; destruct (decide (q = h_project h)) as [->|Hq]; rewrite ?Hmade, ?Hothers by done; [| done| |done].
  - intros Hn. rewrite fmap_app. apply NoDup_app. split; [done|]. split; [|apply NoDup_singleton].
    intros n Hn'. cbn. by intros ->%list_elem_of_singleton.
  - intros f Hf. apply elem_of_app. by left.
Qed.
#[local] Hint Resolve keeps_process keeps_store keeps_cloud keeps_set_project keeps_set_handler grows_list grows_auth grows_create : pyrel.

Lemma keeps_pages {B} n h deadline seen start (step : B -> list FleetItem -> B * bool) acc :
  rel keeps_fleets (pages ce n h deadline seen start step acc).
Proof. revert seen start acc. induction n as [|n IH]; intros; cbn [pages]; rel_auto. Qed.
#[local] Hint Resolve keeps_pages : pyrel.
Lemma keeps_submit_job h body : rel keeps_fleets (submit_job ce attributes fuel h body).
Proof. unfold submit_job, find_fleet_id, _fleet_pages. rel_auto. Qed.
#[local] Hint Resolve keeps_submit_job : pyrel.
Lemma keeps_members bucket prefix entry members found : rel keeps_fleets (upload_members cos_fault bucket prefix entry members found).
Proof. revert found. induction members as [|m members IH]; intros; cbn [upload_members]; unfold put; rel_auto. Qed.
#[local] Hint Resolve keeps_members : pyrel.
Lemma keeps_get_handler : rel keeps_fleets (_get_handler ce settings).
Proof. unfold _get_handler, ensure_project, _get_project, job_. cbv zeta. rel_auto. Qed.
#[local] Hint Resolve keeps_get_handler : pyrel.
Lemma keeps_submit : rel keeps_fleets submit.
Proof.
  unfold fleets_submit, _upload_to_cos, _create_fleet, raising_as, program_, job_, ensure_project, _get_project, _upload_program_to_cos,
    _upload_custom_image_entrypoint, _upload_provider_image_entrypoint, put, job_. cbv zeta. rel_auto.
Qed.

(** What the instance holds belongs to its job. *)
Definition of_project (job : Job) (h : Handler) : Prop :=
  exists project, get_project job = Ok project /\ h = mk_handler (project_region project) (project_id project).
Record serves (job : Job) (s : Fleets Cloud) : Prop := {
  serves_job : self (fl_world s) = job;
  serves_project : forall project, fl_project s = Some project -> get_project job = Ok project;
  serves_handler : forall h, fl_handler s = Some h -> of_project job h
}.

Abbreviation serving job m := (rel (fun s s' : Fleets Cloud => serves job s -> serves job s') m).

Lemma serves_process job {A} (m : Py A) : rel (fun w w' => self w' = self w) m -> serving job (on_process m).
Proof.
  intros Hm s [Hj Hp Hh]. specialize (Hm (fl_world s)). unfold on_process. destruct (m (fl_world s)) as [o w']. cbn in *.
  split; cbn; [by rewrite Hm|done..].
Qed.
Lemma serves_store job {A} (m : M Store A) : serving job (on_store m).
Proof. intros s [Hj Hp Hh]. unfold on_store. by destruct (m (fl_store s)). Qed.
Lemma serves_cloud job {A} (m : M Cloud A) : serving job (on_cloud m).
Proof. intros s [Hj Hp Hh]. unfold on_cloud. by destruct (m (fl_cloud s)). Qed.
#[local] Hint Resolve serves_process serves_store serves_cloud : pyrel.
Lemma job_kept_attr {A} (o : option A) : rel (fun w w' : World => self w' = self w) (attr o).
Proof. by destruct o. Qed.
Lemma job_kept_get : rel (fun w w' : World => self w' = self w) get_self. Proof. done. Qed.
Lemma job_kept_mirrored j : rel (fun w w' : World => self w' = self w) (Workload.is_mirrored j). Proof. done. Qed.
Lemma job_kept_monotonic : rel (fun w w' : World => self w' = self w) monotonic. Proof. done. Qed.
#[local] Hint Resolve job_kept_attr job_kept_get job_kept_mirrored job_kept_monotonic : pyrel.

Lemma serves_pages job {B} n h deadline seen start (step : B -> list FleetItem -> B * bool) acc :
  serving job (pages ce n h deadline seen start step acc).
Proof. revert seen start acc. induction n as [|n IH]; intros; cbn [pages]; rel_auto. Qed.
#[local] Hint Resolve serves_pages : pyrel.
Lemma serves_submit_job job h body : serving job (submit_job ce attributes fuel h body).
Proof. unfold submit_job, find_fleet_id, _fleet_pages. rel_auto. Qed.
Lemma serves_members job bucket prefix entry members found : serving job (upload_members cos_fault bucket prefix entry members found).
Proof. revert found. induction members as [|m members IH]; intros; cbn [upload_members]; unfold put; rel_auto. Qed.
#[local] Hint Resolve serves_submit_job serves_members : pyrel.

Lemma job_wp job s Q E : serves job s -> (forall s', serves job s' -> fl_cloud s' = fl_cloud s -> Q job s') -> wp job_ Q E s.
Proof. intros [Hj Hp Hh] HQ. unfold wp, job_, on_process, get_self, gets. cbn. rewrite Hj. by apply HQ. Qed.

Lemma project_wp job s : serves job s ->
  wp ensure_project (fun project s' => serves job s' /\ get_project job = Ok project) (fun _ s' => serves job s') s.
Proof.
  intros Hs. unfold ensure_project. apply wp_bind. unfold wp at 1, gets. destruct (fl_project s) as [project|] eqn:Hp.
  - unfold wp, ret. split; [done|by apply Hs].
  - apply wp_bind. unfold _get_project. apply wp_bind. apply (job_wp job); [done|]. intros s1 Hs1 _.
    apply wp_of_outcome; [|done]. intros project Hpr. apply wp_bind. unfold wp, set_project, modify, ret. split; [|done].
    destruct Hs1 as [Hj Hp1 Hh]. split; cbn; [done| |done]. by intros ? [= <-].
Qed.

Lemma handler_wp job s : serves job s ->
  wp (_get_handler ce settings) (fun h s' => serves job s' /\ of_project job h) (fun _ s' => serves job s') s.
Proof.
  intros Hs. unfold _get_handler. apply wp_bind. eapply wp_mono; [by apply project_wp| |done].
  intros project s1 [Hs1 Hp]. apply wp_bind. unfold wp at 1, gets. destruct (fl_handler s1) as [h|] eqn:Hh.
  { unfold wp, ret. split; [done|]. by apply Hs1. }
  apply wp_try_except, wp_bind, wp_of_outcome; [|done]. intros key _. apply wp_bind.
  eapply wp_mono; [apply (wp_rel (fun s s' => serves job s -> serves job s') _ _ (serves_cloud job _))| |intros e s2 H2; by apply H2].
  intros u s2 H2. specialize (H2 Hs1). cbv zeta. unfold wp, bind, set_handler, modify, ret.
  assert (of_project job (mk_handler (project_region project) (project_id project))) as Ho by by exists project.
  split; [|done]. destruct H2 as [Hj Hpr Hh2]. split; cbn; [done|done|]. by intros ? [= <-].
Qed.

Lemma find_wp n h name seen start s :
  wp (pages ce n h None seen start (fun _ fleets => match named name fleets with Some f => (item_id f, false) | None => (None, true) end) None)
    (fun found s' => forall i, found = Some i -> (name, i) ∈ fleets_of (fl_cloud s') (h_project h)) (fun _ _ => True) s.
Proof.
  revert seen start s. induction n as [|n IH]; intros seen start s; [done|]. cbn [pages].
  apply wp_bind. unfold wp at 1, ret. apply wp_bind. unfold wp at 1, on_cloud.
  pose proof (list_law h start (bool_decide (is_Some (@None Z))) (fl_cloud s)) as Hl.
  destruct (list_fleets ce h start _ (fl_cloud s)) as [[page|e] c']; [|done]. destruct Hl as [Hsame Htells].
  unfold named. destruct (list_find _ (page_items page)) as [[k f]|] eqn:Hf; cbn [fmap option_fmap option_map snd].
  - unfold wp, ret. cbn. intros i Hi. rewrite Hsame. apply list_find_Some in Hf as (Hk & Hn & _).
    eapply Htells; [done|by eapply list_elem_of_lookup_2|done|done].
  - destruct (page_next page) as [next|]; [|done]. destruct (bool_decide (next = "")); [done|].
    destruct (bool_decide (next ∈ seen)); [done|]. apply IH.
Qed.

Lemma submit_job_wp h body s :
  wp (submit_job ce attributes fuel h body)
    (fun fleet s' => truthy fleet = true -> exists i, fleet = Some i /\ (body_name body, i) ∈ fleets_of (fl_cloud s') (h_project h))
    (fun _ _ => True) s.
Proof.
  unfold submit_job. apply wp_try_except. unfold wp at 1, on_cloud.
  pose proof (create_law h body (fl_cloud s)) as Hc. destruct (create_fleet ce h body (fl_cloud s)) as [[fleet|e] c'] eqn:Ec.
  - intros Hfleet. apply truthy_spec in Hfleet as (i & -> & _). exists i. split; [done|]. cbn.
    destruct Hc as [[_ Hno]|(i' & _ & Hmade & _ & Hi)]; [by destruct (Hno i)|]. rewrite Hmade, (Hi i eq_refl). set_solver.
  - destruct (is_api_error e); [|done]. destruct (_is_name_conflict attributes e); [|done].
    apply wp_bind. unfold find_fleet_id, _fleet_pages. eapply wp_mono; [apply find_wp| |done].
    intros found s' Hfound. destruct (truthy found) eqn:Ht; [|done]. unfold wp, ret. intros _.
    apply truthy_spec in Ht as (i & -> & _). exists i. split; [done|by apply Hfound].
Qed.

Lemma program_wp job s Q E : serves job s ->
  (forall p, program job = Some p -> serves job s -> Q p s) -> (forall e, serves job s -> E e s) -> wp (program_ job) Q E s.
Proof.
  intros Hs HQ HE. unfold wp, program_, on_process, attr. destruct s as [w st c pr h co]. cbn.
  destruct (program job) as [p|] eqn:Hp; [by apply HQ|by apply HE].
Qed.

Lemma upload_serves job s : serves job s -> wp upload (fun _ => serves job) (fun _ => serves job) s.
Proof.
  intros Hs. unfold _upload_to_cos. apply wp_bind, (job_wp job); [done|]. intros s1 Hs1 _. apply wp_try_except.
  apply wp_bind. eapply wp_mono; [by apply project_wp| |done]. intros project s2 [Hs2 _]. apply wp_bind, program_wp; [done| |done].
  intros p _ _. cbv zeta. set (rest := bind _ _). assert (serving job rest) as Hrest.
  { unfold rest, _upload_program_to_cos, _upload_custom_image_entrypoint, _upload_provider_image_entrypoint, put. cbv zeta. rel_auto. }
  eapply wp_mono; [apply (wp_rel _ _ s2 Hrest)|auto|]. intros e s3 H3. by apply H3.
Qed.

(** A submit that answers made, or found, the fleet of its job's name, and the job knows it. *)
Definition submitted_as (job : Job) (s' : Fleets Cloud) : Prop :=
  exists p project i, program job = Some p /\ get_project job = Ok project /\ fleet_id (self (fl_world s')) = Some i
    /\ (fleet_name job p, i) ∈ fleets_of (fl_cloud s') (project_id project).

Lemma create_fleet_wp job paths s : serves job s ->
  wp (_create_fleet ce attributes fuel settings lib decrypt_string config_workers paths) (fun _ => submitted_as job) (fun _ => serves job) s.
Proof.
  intros Hs. unfold _create_fleet. apply wp_bind, (job_wp job); [done|]. intros s0 Hs0 _. clear s Hs.
  apply wp_bind. unfold wp at 1, on_process, Workload.is_mirrored, gets. set (mirrored := bool_decide _). cbn beta iota zeta.
  set (s1 := mk_fleets _ _ _ _ _ _). assert (serves job s1) as Hs1 by (destruct Hs0; by split). clearbody s1 mirrored. clear s0 Hs0.
  apply wp_try_except, wp_bind. eapply wp_mono; [by apply handler_wp| |done]. intros h s2 [Hs2 (project & Hp & ->)].
  apply wp_bind. eapply wp_mono; [by apply project_wp| |done]. intros project' s3 [Hs3 Hp']. assert (project' = project) as -> by congruence.
  apply wp_bind, program_wp; [done| |done]. intros p Hprog _. apply wp_bind, wp_of_outcome; [|done]. intros profile _.
  apply wp_bind, wp_of_outcome; [|done]. intros env _. apply wp_bind, wp_of_outcome; [|done]. intros mounts _. apply wp_bind.
  eapply wp_mono; [apply (wp_and _ _ _ _ _ _ (submit_job_wp _ _ s3) (wp_rel _ _ s3 (serves_submit_job job _ _)))| |].
  2:{ intros e s4 [_ H4]. by apply H4. }
  intros fleet s4 [Hfleet H4]. specialize (H4 Hs3). destruct (truthy fleet) eqn:Ht; [|done].
  destruct (Hfleet eq_refl) as (i & -> & Hi). unfold wp, on_process, modify_self, modify. cbn. exists p, project, i. by split_and!.
Qed.

Lemma submit_wp job s : serves job s -> wp submit (fun _ => submitted_as job) (fun _ => serves job) s.
Proof.
  intros Hs. unfold fleets_submit. apply wp_bind.
  eapply wp_mono; [by apply upload_serves| |done]. intros paths s1 H1. by apply create_fleet_wp.
Qed.

(** Attempts to submit jobs, each by a new runner, in some state of the process and of the
    objects, on the cloud the last one left. *)
Fixpoint resubmit (attempts : list (World * Store)) (c : Cloud) : list (Job * outcome unit * Job) * Cloud :=
  match attempts with
  | [] => ([], c)
  | (w, st) :: attempts =>
      let '(o, s) := submit (mk_fleets w st c None None false) in
      let '(results, c') := resubmit attempts (fl_cloud s) in
      ((self w, o, self (fl_world s)) :: results, c')
  end.

Lemma resubmit_spec attempts : forall c results c', resubmit attempts c = (results, c') ->
  grows c c' /\ (forall job e left_, (job, Raise e, left_) ∈ results -> runner_error e /\ left_ = job)
  /\ forall job left_, (job, Ok tt, left_) ∈ results ->
    exists p project i, program job = Some p /\ get_project job = Ok project /\ fleet_id left_ = Some i
      /\ (fleet_name job p, i) ∈ fleets_of c' (project_id project).
Proof.
  induction attempts as [|[w st] attempts IH]; intros c results c'; cbn [resubmit].
  - intros [= <- <-]. split; [done|]. split; [intros job e left_|intros job left_]; by intros H%not_elem_of_nil.
  - pose proof (submit_wp (self w) (mk_fleets w st c None None false)) as Hw. pose proof (keeps_submit (mk_fleets w st c None None false)) as Hk.
    pose proof (submit_raises ce attributes fuel settings lib templates decrypt_string open_artifact cos_fault config_workers
      (mk_fleets w st c None None false)) as He.
    unfold wp in Hw, He. unfold keeps_fleets in Hk. destruct (submit _) as [o s]. cbn [snd fl_cloud] in Hk.
    destruct (resubmit attempts (fl_cloud s)) as [rest c1] eqn:Hr. intros [= <- <-]. destruct (IH _ _ _ Hr) as (Hg & Hraise & Hrest).
    split; [by etransitivity|]. split.
    { intros job e left_ [Heq|Hin]%elem_of_cons; [|by eapply Hraise]. injection Heq as -> <- ->. split; [exact He|]. by apply Hw. }
    intros job left_ [Heq|Hin]%elem_of_cons; [|by apply Hrest].
    injection Heq as -> <- ->. destruct Hw as (p & project & i & H1 & H2 & H3 & H4); [by split|].
    exists p, project, i. split_and!; [done..|]. by apply Hg.
Qed.

(** C26: whatever goes wrong between the gateway and Code Engine, however often and in whatever
    order jobs are submitted again, no two fleets of a project get one name; a submit that
    answers leaves its job with the id of the fleet of the job's name, which is there; so two
    that answered for one job gave it the same fleet; and one that raises raises a
    [RunnerError] and leaves the job as it was. *)
Theorem one_fleet_per_job attempts c results c' :
  (forall q, NoDup (fleets_of c q).*1) -> resubmit attempts c = (results, c') ->
  (forall q, NoDup (fleets_of c' q).*1)
  /\ (forall job left_, (job, Ok tt, left_) ∈ results ->
        exists p project i, program job = Some p /\ get_project job = Ok project /\ fleet_id left_ = Some i
          /\ (fleet_name job p, i) ∈ fleets_of c' (project_id project))
  /\ (forall job left1 left2, (job, Ok tt, left1) ∈ results -> (job, Ok tt, left2) ∈ results -> fleet_id left1 = fleet_id left2)
  /\ (forall job e left_, (job, Raise e, left_) ∈ results -> isinstance e RunnerError = true /\ left_ = job).
Proof.
  intros Hn Hr. destruct (resubmit_spec _ _ _ _ Hr) as (Hg & Hraise & Hok). assert (forall q, NoDup (fleets_of c' q).*1) as Hn' by (intros q; by apply Hg).
  split; [done|]. split; [done|]. split; [|exact Hraise]. intros job left1 left2 H1 H2.
  destruct (Hok _ _ H1) as (p & project & i & Hp & Hpr & -> & Hi). destruct (Hok _ _ H2) as (p' & project' & i' & Hp' & Hpr' & -> & Hi').
  assert (p' = p) as -> by congruence. assert (project' = project) as -> by congruence. f_equal.
  exact (unique_value _ _ _ _ (Hn' _) Hi Hi').
Qed.
End submit.
