(* ===== verification/FleetsAnswersProps.v ===== *)
(** * What the Fleets runner answers

    The errors of a submit, and what the answers of a status, a stop and a deletion say of
    Code Engine and of the objects. *)

From S2P Require Import Prelude PyStr Domain Models World BillingEvents JobTransitions Json ValidateArguments RunFunction JobEnvironment Paths Stores FileStorage FleetPaths FleetHandler FleetsRunner FleetsRunnerProps Samples FileStorageProps.

Local Open Scope string_scope.
Local Open Scope list_scope.

Section answers.
Context {Cloud : Type} (ce : CodeEngine Cloud) (attributes : Attributes) (fuel : nat).
Context (settings : FleetsSettings) (cos_fault : CosOp -> string -> string -> option (exn * bool)).
Context (projects : list CodeEngineProject).

Abbreviation FleetsM := (M (Fleets Cloud)).

Lemma handler_raises : raising runner_error (_get_handler (Cloud := Cloud) ce settings).
Proof.
  unfold _get_handler, ensure_project, _get_project, job_, get_project, no_program. cbv zeta.
  raising_step.
  - apply raising_bind; [done|]. intros []; [done|]. apply raising_bind; [|done]. apply raising_bind; [by apply raising_process|].
    intros j s'. apply wp_of_outcome; [done|]. intros e. repeat case_match; by intros [= <-].
  - apply raising_bind; [done|]. intros []; [done|]. by apply raising_as_wp.
Qed.

Lemma handler_any job s : serves job s ->
  wp (_get_handler ce settings) (fun h s' => serves job s' /\ of_project job h) (fun e s' => serves job s' /\ runner_error e) s.
Proof.
  intros Hs. eapply wp_mono; [apply (wp_and _ _ _ _ _ _ (handler_wp ce settings job s Hs) (handler_raises s))| |].
  - by intros h s' [? _].
  - done.
Qed.

Lemma connected_wp job s : serves job s ->
  wp (_ensure_connected ce settings) (fun _ => serves job) (fun e s' => serves job s' /\ runner_error e) s.
Proof.
  intros Hs. unfold _ensure_connected, connect. apply wp_bind. unfold wp at 1, gets. destruct (fl_connected s); [done|].
  apply wp_bind. unfold wp at 1, gets. destruct (fl_connected s); [done|]. apply wp_try_except, wp_bind.
  eapply wp_mono; [by apply handler_any| |].
  - intros h s' [[Hj Hp Hh] _]. unfold wp, set_connected, modify. by split.
  - intros e s' [H' _]. apply wp_bind. unfold wp, gets, raise. by destruct (fl_project s').
Qed.

Lemma resolve_uuid h f : is_uuid f = true -> _resolve_fleet_id (Cloud := Cloud) ce fuel h f = ret f.
Proof. intros Hf. unfold _resolve_fleet_id. by rewrite Hf. Qed.

(** ** Stopping *)

(** What a cancel's answer says: whether one is in flight. *)
Definition cancel_says (o : outcome unit) (sent : bool) : Prop :=
  match o with
  | Ok _ => sent = true
  | Raise e =>
      if isinstance e ApiException then
        (sent = true /\ api_status attributes e = Some 409%Z /\ contains_str "fleet_already_canceled" (api_body attributes e) = true)
        \/ (sent = false /\ api_status attributes e = Some 404%Z)
      else sent = true /\ isinstance e ValueError = true /\ contains_str "Invalid value for" (exn_str e) = true
  end.

Lemma cancel_job_wp h f s : is_uuid f = true ->
  wp (cancel_job ce attributes fuel h f false)
    (fun sent s' => cancel_says (fst (cancel_fleet ce h f (fl_cloud s))) sent /\ fl_world s' = fl_world s
       /\ fl_cloud s' = snd (cancel_fleet ce h f (fl_cloud s)))
    (fun e s' => fl_world s' = fl_world s) s.
Proof.
  intros Hf. unfold cancel_job. rewrite resolve_uuid by done. apply wp_bind. unfold wp at 1, ret. apply wp_bind, wp_try_except, wp_bind.
  unfold wp at 1, on_cloud. unfold cancel_says. destruct (cancel_fleet ce h f (fl_cloud s)) as [[u|e] c'] eqn:Hc; cbn [fst snd]; [done|].
  unfold is_api_error, _is_already_canceled, in_text. destruct (isinstance e ApiException).
  - destruct (bool_decide (api_status attributes e = Some 409%Z)) eqn:H409; cbn [andb].
    + apply bool_decide_eq_true in H409. destruct (contains_str "fleet_already_canceled" _) eqn:Hb.
      * unfold wp, ret, bind. split; [by left|done].
      * rewrite bool_decide_false by (rewrite H409; by intros [=]). done.
    + destruct (bool_decide (api_status attributes e = Some 404%Z)) eqn:H404; [|done]. apply bool_decide_eq_true in H404.
      unfold wp, ret, bind. split; [by right|done].
  - destruct (isinstance e ValueError) eqn:Hv; [|done]. destruct (contains_str "Invalid value for" _) eqn:Hb; [|done].
    unfold wp, ret, bind. by split_and!.
Qed.

(** a stop answers that the fleet will report its end only when Code Engine took the cancel
    or has one in flight, and that nothing will only when Code Engine does not know the fleet or
    its function was deleted; anything else raises, a [RunnerError], with the job as it was. *)
Theorem fleet_stop_answers job f s :
  serves job s -> fleet_id job = Some f -> is_uuid f = true ->
  match fleets_stop ce attributes fuel settings s with
  | (Ok sent, s') =>
      self (fl_world s') = job
      /\ match program job with
         | None => sent = false /\ s' = s
         | Some _ => exists h c, of_project job h /\ cancel_says (fst (cancel_fleet ce h f c)) sent
                       /\ fl_cloud s' = snd (cancel_fleet ce h f c)
         end
  | (Raise e, s') => isinstance e RunnerError = true /\ self (fl_world s') = job
  end.
Proof.
  intros Hs Hf Hu. assert (f <> "") as Hne by by intros ->.
  enough (wp (fleets_stop ce attributes fuel settings)
    (fun sent s' => self (fl_world s') = job /\ match program job with
       | None => sent = false /\ s' = s
       | Some _ => exists h c, of_project job h /\ cancel_says (fst (cancel_fleet ce h f c)) sent /\ fl_cloud s' = snd (cancel_fleet ce h f c)
       end)
    (fun e s' => runner_error e /\ self (fl_world s') = job) s) as H
    by (unfold wp in H; by destruct (fleets_stop _ _ _ _ s) as [[]]).
  unfold fleets_stop. apply wp_bind. unfold wp at 1, job_, on_process, get_self, gets. destruct s as [w st c pr hd co].
  cbn [fl_world fl_store fl_cloud fl_project fl_handler fl_connected]. set (s := mk_fleets w st c pr hd co) in *.
  pose proof (serves_job _ _ Hs) as Hj. cbn in Hj. rewrite Hj, Hf. cbn [truthy]. rewrite bool_decide_false by done. cbn [negb].
  destruct (program job) as [p|] eqn:Hp; [rewrite bool_decide_false by done|by rewrite bool_decide_true].
  apply wp_bind. unfold _get_project. apply wp_bind, (job_wp job); [done|]. intros s1 Hs1 _. apply wp_of_outcome.
  2:{ intros e He. split; [|by destruct Hs1]. unfold get_project in He. rewrite Hp in He. by repeat case_match; simplify_eq. }
  intros project Hproject. apply wp_bind. unfold wp at 1, set_project, modify. set (s2 := mk_fleets _ _ _ _ _ _).
  assert (serves job s2) as Hs2 by (destruct Hs1 as [H1 H2 H3]; split; cbn; [done| |done]; by intros ? [= <-]). clearbody s2.
  apply wp_bind, wp_try_except, wp_bind. eapply wp_mono; [by apply (connected_wp job)| |].
  2:{ intros e s3 [[Hj3 _ _] He]. unfold runner_error in He. by rewrite He. }
  intros u s3 Hs3. eapply wp_mono; [by apply (handler_any job)| |].
  2:{ intros e s4 [[Hj4 _ _] He]. unfold runner_error in He. by rewrite He. }
  intros h s4 [Hs4 Hh]. apply wp_try_except. eapply wp_mono; [by apply cancel_job_wp| |].
  - intros sent s5 (Hsays & Hw & Hcl). split; [rewrite Hw; by destruct Hs4|]. by exists h, (fl_cloud s4).
  - intros e s5 Hw. unfold wp, raise. split; [|rewrite Hw; by destruct Hs4]. unfold stop_error. by repeat case_match.
Qed.

(** ** Deleting *)

Definition handler_of (project : CodeEngineProject) : Handler := mk_handler (project_region project) (project_id project).
(** A runner that works on a project. *)
Definition works_on (job : Job) (project : CodeEngineProject) (s : Fleets Cloud) : Prop :=
  self (fl_world s) = job /\ fl_project s = Some project /\ forall h, fl_handler s = Some h -> h = handler_of project.

Lemma handler_held job project s : works_on job project s ->
  wp (_get_handler ce settings) (fun h s' => works_on job project s' /\ h = handler_of project) (fun e s' => works_on job project s' /\ runner_error e) s.
Proof.
  intros Hs. pose proof Hs as (Hj & Hp & Hh). unfold _get_handler, ensure_project. apply wp_bind, wp_bind. unfold wp at 1, gets. rewrite Hp.
  unfold wp at 1, ret. apply wp_bind. unfold wp at 1, gets. destruct (fl_handler s) as [h|] eqn:Eh; [unfold wp, ret; split; [exact Hs|by apply Hh]|].
  apply wp_try_except, wp_bind, wp_of_outcome; [|intros e _; split; [exact Hs|done]]. intros key _. apply wp_bind. unfold wp at 1, on_cloud.
  destruct (get_ce_auth ce key (project_region project) true (fl_cloud s)) as [[u|e] c']; cbv zeta; unfold wp, bind, set_handler, modify, ret, raise.
  - split; [|done]. split; [done|]. split; [done|]. by intros ? [= <-].
  - split; [|done]. split; [done|]. split; [done|]. cbn. rewrite Eh. done.
Qed.

Lemma connected_held job project s : works_on job project s ->
  wp (_ensure_connected ce settings) (fun _ => works_on job project) (fun e s' => works_on job project s' /\ runner_error e) s.
Proof.
  intros Hs. unfold _ensure_connected, connect. apply wp_bind. unfold wp at 1, gets. destruct (fl_connected s); [done|].
  apply wp_bind. unfold wp at 1, gets. destruct (fl_connected s); [done|]. apply wp_try_except, wp_bind.
  eapply wp_mono; [by apply handler_held| |].
  - intros h s' [[Hj Hp] _]. unfold wp, set_connected, modify. by split.
  - intros e s' [H' _]. apply wp_bind. unfold wp, gets, raise. destruct (fl_project s'); done.
Qed.

(** Whether the answer of a deletion says that the fleet is gone. *)
Definition gone (o : outcome unit) : Prop :=
  match o with Ok _ => True | Raise e => isinstance e ApiException = true /\ api_status attributes e = Some 404%Z end.

Lemma delete_job_wp h f s : is_uuid f = true ->
  wp (delete_job ce attributes fuel h f)
    (fun _ s' => gone (fst (delete_fleet ce h f (fl_cloud s))) /\ fl_world s' = fl_world s /\ fl_cloud s' = snd (delete_fleet ce h f (fl_cloud s)))
    (fun e s' => fl_world s' = fl_world s) s.
Proof.
  intros Hf. unfold delete_job. rewrite resolve_uuid by done. apply wp_bind. unfold wp at 1, ret. apply wp_try_except, wp_bind.
  unfold wp at 1, on_cloud, gone. destruct (delete_fleet ce h f (fl_cloud s)) as [[u|e] c'] eqn:Hc; cbn [fst snd]; [done|].
  unfold is_api_error. destruct (isinstance e ApiException); [|done].
  destruct (bool_decide (api_status attributes e = Some 404%Z)) eqn:H404; [|done]. by apply bool_decide_eq_true in H404.
Qed.

Lemma delete_failed_wp (e : exn) (s : Fleets Cloud) :
  wp (delete_failed attributes e) (fun deleted s' => deleted = false /\ s' = s) (fun e' s' => isinstance e' RunnerRetryableError = true /\ s' = s) s.
Proof. unfold delete_failed. by repeat case_match. Qed.

(** a fleet is only deleted for a job that has ended; [true] says that Code Engine deleted
    it, or does not have it, in the project the job ran in; what a later try cannot fix is
    [false], and only the rest raises, a [RunnerRetryableError]; the job stays as it was. *)
Theorem fleet_free_answers w st c f :
  let job := self w in
  fleet_id job = Some f -> is_uuid f = true ->
  let '(o, s') := fleets_free_resources ce attributes fuel settings projects (mk_fleets w st c None None false) in
  self (fl_world s') = job
  /\ (status job ∉ TERMINAL_STATUSES -> o = Ok false /\ fl_cloud s' = c)
  /\ match o with
     | Ok true => exists project c', _execution_project projects job = Ok project
                    /\ gone (fst (delete_fleet ce (handler_of project) f c'))
                    /\ fl_cloud s' = snd (delete_fleet ce (handler_of project) f c')
     | Ok false => True
     | Raise e => isinstance e RunnerRetryableError = true
     end.
Proof.
  intros job Hf Hu. assert (f <> "") as Hne by by intros ->. unfold fleets_free_resources. unfold bind at 1, job_ at 1, on_process at 1, get_self, gets.
  cbn [fl_world fl_store fl_cloud fl_project fl_handler fl_connected]. change (self w) with job.
  unfold _may_delete_fleet. rewrite Hf. cbn [truthy]. rewrite (bool_decide_false (f = "")) by done. cbn [negb andb].
  destruct (bool_decide (status job ∈ TERMINAL_STATUSES)) eqn:Hst; cbn [negb]; [|done].
  apply bool_decide_eq_true in Hst. destruct (_execution_project projects job) as [project|e] eqn:Hproject.
  2:{ assert (isinstance e RunnerError = true) as ->; [|done].
      unfold _execution_project, no_program in Hproject. by repeat case_match; simplify_eq. }
  assert (wp (set_project project ;;;
      try_except (_ensure_connected ce settings ;;; h <- _get_handler ce settings ;; delete_job ce attributes fuel h f ;;; ret true)
        (fun ex => Some (delete_failed attributes ex)))
    (fun deleted s' => self (fl_world s') = job /\ (deleted = true -> exists c', gone (fst (delete_fleet ce (handler_of project) f c'))
       /\ fl_cloud s' = snd (delete_fleet ce (handler_of project) f c')))
    (fun e s' => self (fl_world s') = job /\ isinstance e RunnerRetryableError = true) (mk_fleets w st c None None false)) as H.
  { apply wp_bind. unfold wp at 1, set_project, modify. set (s := mk_fleets _ _ _ _ _ _). assert (works_on job project s) as Hs by by split.
    clearbody s. apply wp_try_except, wp_bind. eapply wp_mono; [by apply connected_held| |].
    2:{ intros e s' [[Hj _] _]. eapply wp_mono; [apply delete_failed_wp|by intros b s1 [-> ->]|by intros e' s1 [? ->]]. }
    intros u s1 Hs1. apply wp_bind. eapply wp_mono; [exact (handler_held job project s1 Hs1)| |].
    2:{ intros e s' [[Hj _] _]. eapply wp_mono; [apply delete_failed_wp|by intros b s2 [-> ->]|by intros e' s2 [? ->]]. }
    intros h s2 [[Hj2 Hs2] ->]. apply wp_bind. eapply wp_mono; [by apply delete_job_wp| |].
    - intros b s3 (Hg & Hw & Hc). unfold wp, ret. split; [by rewrite Hw|]. intros _. by exists (fl_cloud s2).
    - intros e s3 Hw. eapply wp_mono; [apply delete_failed_wp|intros b s4 [-> ->]; split; [by rewrite Hw|done]|intros e' s4 [? ->]; split; [by rewrite Hw|done]]. }
  unfold wp in H. destruct (bind _ _ _) as [[[]|e] s']; destruct H as [Hj H]; (split; [done|]; split; [done|]).
  - destruct (H eq_refl) as (c' & Hg & Hc). by exists project, c'.
  - done.
  - done.
Qed.

(** ** Statuses *)

Definition stored_under (b : Buckets) (bucket prefix key : string) : Prop :=
  is_Some (b !! (bucket, key)) /\ startswith prefix key = true.

Lemma listed_keys bucket prefix (s : Fleets Cloud) : (forall p, cos_fault ListObjects bucket p = None) ->
  exists keys, _list_task_state_keys cos_fault bucket prefix s = (Ok (Some keys), s)
    /\ forall key, key ∈ keys <-> stored_under (buckets (fl_store s)) bucket prefix key.
Proof.
  intros Hno. unfold _list_task_state_keys, try_except, bind, on_store, list_keys, cos_call. destruct s as [w [d b] c p h co].
  cbn [fl_store fl_world fl_cloud fl_project fl_handler fl_connected buckets]. rewrite Hno. eexists. split; [reflexivity|]. intros key.
  rewrite list_elem_of_omap. unfold stored_under. split.
  - intros ([[bucket' key'] v] & Hin%elem_of_map_to_list & Hx).
    destruct (bool_decide_reflect (bucket' = bucket)) as [->|]; [|done]. cbn in Hx. destruct (startswith prefix key') eqn:Hp; [|done].
    injection Hx as ->. split; [by eexists|done].
  - intros [[v Hv] Hp]. exists ((bucket, key), v). split; [by apply elem_of_map_to_list|]. by rewrite bool_decide_true, Hp.
Qed.

(** The newest version of the layout that holds anything, or the last. *)
Lemma resolved_keys versions bucket project fleet prefix (s : Fleets Cloud) : (forall p, cos_fault ListObjects bucket p = None) ->
  exists prefix' keys, resolve_versions cos_fault versions bucket project fleet prefix s = (Ok (prefix', keys), s)
    /\ (keys = [] -> forall v key, v ∈ versions -> ~ stored_under (buckets (fl_store s)) bucket (queue_prefix project fleet v) key)
    /\ (keys <> [] -> exists i v, versions !! i = Some v /\ prefix' = queue_prefix project fleet v
         /\ (forall key, key ∈ keys <-> stored_under (buckets (fl_store s)) bucket (queue_prefix project fleet v) key)
         /\ forall j u key, (j < i)%nat -> versions !! j = Some u -> ~ stored_under (buckets (fl_store s)) bucket (queue_prefix project fleet u) key).
Proof.
  intros Hno. revert prefix. induction versions as [|v versions IH]; intros prefix; cbn [resolve_versions].
  { exists prefix, []. split; [done|]. split; [|done]. by intros _ v key H%not_elem_of_nil. }
  destruct (listed_keys bucket (queue_prefix project fleet v) s Hno) as (keys & Hl & Hkeys).
  unfold bind. rewrite Hl. destruct keys as [|key0 keys].
  - destruct (IH (queue_prefix project fleet v)) as (prefix' & keys & Hr & Hnone & Hsome). exists prefix', keys. split; [exact Hr|].
    assert (forall key, ~ stored_under (buckets (fl_store s)) bucket (queue_prefix project fleet v) key) as Hv
      by (intros key H; apply Hkeys in H; by apply not_elem_of_nil in H).
    split; [intros E u key [->|Hu]%elem_of_cons; [apply Hv|by apply Hnone]|]. intros Hne. destruct (Hsome Hne) as (i & u & Hi & Hp & Hk & Hbefore).
    exists (S i), u. split_and!; [done..|]. intros [|j] u' key Hj Hu'; [cbn in Hu'; injection Hu' as <-; apply Hv|].
    apply (Hbefore j); [lia|done].
  - exists (queue_prefix project fleet v), (key0 :: keys). split; [done|]. split; [done|]. intros _. exists 0%nat, v.
    split_and!; [done|done|exact Hkeys|intros; lia].
Qed.

Section first_state.
Context (under : string -> string -> Prop) (prefix_of : string -> string).
Definition says (v state : string) : Prop := exists key, under v key /\ task_state_from_key (prefix_of v) key = Some state.
Definition read_from (v : string) : Prop := (exists key, under v key) /\ (v = "v3" \/ v = "v2" /\ forall key, ~ under "v3" key).

(** The first state of the table that the keys of the layout that is read say. *)
Lemma first_state prefix keys :
  (keys = [] -> forall v key, v ∈ TASK_STORE_VERSIONS -> ~ under v key) ->
  (keys <> [] -> exists i v, TASK_STORE_VERSIONS !! i = Some v /\ prefix = prefix_of v /\ (forall key, key ∈ keys <-> under v key)
     /\ forall j u key, (j < i)%nat -> TASK_STORE_VERSIONS !! j = Some u -> ~ under u key) ->
  forall status, snd <$> (snd <$> list_find (fun st => st.1 ∈ omap (task_state_from_key prefix) keys) _STATE_TO_JOB_STATUS) = Some status <->
    exists v i state, read_from v /\ _STATE_TO_JOB_STATUS !! i = Some (state, status) /\ says v state
      /\ forall j other, (j < i)%nat -> fst <$> _STATE_TO_JOB_STATUS !! j = Some other -> ~ says v other.
Proof.
  intros Hnone Hsome status. destruct keys as [|key0 keys0].
  { replace (list_find _ _) with (@None (nat * (string * JobStatus))) by done. split; [done|].
    intros (v & i & state & [[key Hkey] [->|[-> _]]] & _); exfalso; refine (Hnone eq_refl _ key _ Hkey); unfold TASK_STORE_VERSIONS; set_solver. }
  destruct (Hsome ltac:(done)) as (k & v & Hk & -> & Hkeys & Hbefore). clear Hnone Hsome. set (keys := key0 :: keys0) in *.
  assert (forall state, state ∈ omap (task_state_from_key (prefix_of v)) keys <-> says v state) as Hsays.
  { intros state. rewrite list_elem_of_omap. unfold says. split; intros (key & Hkey & Hst); exists key; (split; [by apply Hkeys|done]). }
  assert (forall u, read_from u <-> u = v) as Hread.
  { assert (exists key, under v key) as Hex by (exists key0; apply Hkeys; set_solver). unfold read_from.
    destruct k as [|[|k]]; [| |by destruct k]; cbn in Hk; injection Hk as <-; intros u; split.
    - intros [_ [->|[-> H]]]; [done|]. destruct Hex as [key Hkey]. by destruct (H key).
    - intros ->. split; [done|by left].
    - intros [[key Hkey] [->|[-> _]]]; [|done]. destruct (Hbefore 0%nat "v3" key ltac:(lia) eq_refl Hkey).
    - intros ->. split; [done|]. right. split; [done|]. intros key. apply (Hbefore 0%nat "v3"); [lia|done]. }
  split.
  - destruct (list_find _ _) as [[i [state st]]|] eqn:Hf; [|done]. intros [= <-]. apply list_find_Some in Hf as (Hi & Hin & Hfirst).
    exists v, i, state. split; [by apply Hread|]. split; [done|]. split; [by apply Hsays|]. intros j other Hj Ho Hsay.
    destruct (_STATE_TO_JOB_STATUS !! j) as [[other' st']|] eqn:Ej; [|done]. injection Ho as <-. apply (Hfirst j _ Ej Hj). by apply Hsays.
  - intros (u & i & state & Hu%Hread & Hi & Hsay & Hfirst). subst u.
    assert (list_find (fun st => st.1 ∈ omap (task_state_from_key (prefix_of v)) keys) _STATE_TO_JOB_STATUS = Some (i, (state, status))) as ->; [|done].
    apply list_find_Some. split; [done|]. split; [by apply Hsays|]. intros j [other st'] Ej Hj Hin. apply (Hfirst j other Hj); [by rewrite Ej|by apply Hsays].
Qed.
End first_state.

(** with the object storage at hand, a fleet's status is read from the newest layout of the
    task store that holds anything: it is the first of succeeded, failed, canceled, running and
    pending that some key says, so a task that ended is never reported as running; and no status
    when no key says one. *)
Theorem fleet_status_priority job f project bucket (s : Fleets Cloud) :
  serves job s -> fleet_id job = Some f -> f <> "" -> get_project job = Ok project ->
  cos_bucket_task_store_name project = Some bucket -> bucket <> "" -> (forall p, cos_fault ListObjects bucket p = None) ->
  exists answer, fst (fleets_status cos_fault s) = Ok answer
    /\ let under v := stored_under (buckets (fl_store s)) bucket (queue_prefix (project_id project) f v) in
       let says := says under (queue_prefix (project_id project) f) in
       forall status, answer = Some status <->
         exists v i state, read_from under v /\ _STATE_TO_JOB_STATUS !! i = Some (state, status) /\ says v state
           /\ forall j other, (j < i)%nat -> fst <$> _STATE_TO_JOB_STATUS !! j = Some other -> ~ says v other.
Proof.
  intros Hs Hf Hne Hp Hb Hbne Hno.
  assert (exists s1 : Fleets Cloud, fl_store s1 = fl_store s /\ exists prefix keys, fleets_status cos_fault s
    = (Ok (snd <$> (snd <$> list_find (fun st => st.1 ∈ omap (task_state_from_key prefix) keys) _STATE_TO_JOB_STATUS)), s1)
    /\ _resolve_task_state_keys cos_fault bucket (project_id project) f s1 = (Ok (prefix, keys), s1)) as (s1 & Hst & prefix & keys & Hrun & Hres).
  { unfold fleets_status, job_, on_process, get_self, gets. destruct s as [w st c pr h co]. pose proof Hs as [Hj Hpr Hh]. cbn in Hj, Hpr.
    unfold bind at 1. cbn [fl_world fl_store fl_cloud fl_project fl_handler fl_connected]. rewrite Hj, Hf. cbn [truthy]. rewrite bool_decide_false by done. cbn [negb].
    unfold bind at 1, ret at 1. set (s0 := mk_fleets w st c pr h co). assert (ensure_project s0 = (Ok project, mk_fleets w st c (Some project) h co)) as He.
    { unfold ensure_project, bind, gets, s0. cbn [fl_project]. destruct pr as [project'|]; [by assert (project' = project) as -> by (specialize (Hpr _ eq_refl); congruence)|].
      unfold _get_project, job_, on_process, get_self, gets, bind. cbn [fl_world]. rewrite Hj, Hp. done. }
    unfold bind at 1. rewrite He. set (s1 := mk_fleets w st c (Some project) h co). unfold bind at 1. rewrite Hb. cbn [truthy default]. rewrite bool_decide_false by done.
    unfold ret at 1. destruct (resolved_keys TASK_STORE_VERSIONS bucket (project_id project) f "" s1 Hno) as (prefix & keys & Hr & _).
    exists s1. split; [done|]. exists prefix, keys. unfold _resolve_task_state_keys in *. split; [|exact Hr].
    unfold bind. cbn [negb]. change (Datatypes.id bucket) with bucket. change (Datatypes.id f) with f. by rewrite Hr. }
  rewrite Hrun. eexists. split; [done|]. cbv zeta.
  destruct (resolved_keys TASK_STORE_VERSIONS bucket (project_id project) f "" s1 Hno) as (prefix' & keys' & Hr & Hnone & Hsome).
  unfold _resolve_task_state_keys in Hres. rewrite Hr in Hres. injection Hres as -> ->. rewrite Hst in Hnone, Hsome. clear Hrun Hr Hs.
  exact (first_state _ _ _ _ Hnone Hsome).
Qed.
End answers.

(** * What a submit writes to the object storage

    The archive of a function is the user's, and so are the names in it: whatever they are, a
    submit writes into the folder of the function and nowhere else. *)

(** ** Normalized names *)

(** A part of a path that stays where it is or goes down. *)
Definition clean_part_ok (w : string) : Prop := w <> "" /\ w <> ".." /\ contains_char slash w = false.

Lemma norm_step_spec kept k comp :
  Forall clean_part_ok kept -> contains_char slash comp = false ->
  exists kept' k', norm_step false (kept ++ replicate k "..") comp = kept' ++ replicate k' ".." /\ Forall clean_part_ok kept'.
Proof.
  intros Hk Hc. unfold norm_step. destruct (bool_decide (comp = "") || bool_decide (comp = ".")) eqn:He; [by exists kept, k|].
  apply orb_false_iff in He as [He%bool_decide_eq_false _]. destruct (bool_decide (comp = "..")) eqn:Hdd.
  - destruct Hk as [|w kept [Hw [Hw' _]] Hk]; cbn [app].
    + destruct k as [|k]; [by exists [], 1%nat|]. cbn [replicate]. rewrite bool_decide_true by done. by exists [], (S (S k)).
    + rewrite bool_decide_false by done. by exists kept, k.
  - apply bool_decide_eq_false in Hdd. exists (comp :: kept), k. split; [done|]. by constructor.
Qed.

Lemma norm_parts_spec comps : Forall (fun w => contains_char slash w = false) comps ->
  exists kept k, norm_parts false comps = replicate k ".." ++ kept /\ Forall clean_part_ok kept.
Proof.
  intros Hc. unfold norm_parts.
  enough (forall kept k, Forall clean_part_ok kept ->
    exists kept' k', foldl (norm_step false) (kept ++ replicate k "..") comps = kept' ++ replicate k' ".." /\ Forall clean_part_ok kept') as H.
  { destruct (H [] 0%nat ltac:(constructor)) as (kept & k & E & Hk). cbn [app replicate] in E. exists (rev kept), k.
    split; [|by apply Forall_rev]. rewrite E, rev_app_distr. f_equal. clear. induction k as [|k IH]; [done|]. cbn [replicate rev]. rewrite IH.
    by rewrite <- replicate_cons_app. }
  induction Hc as [|comp comps Hcomp Hc IH]; intros kept k Hk; [by exists kept, k|]. cbn [foldl].
  destruct (norm_step_spec kept k comp Hk Hcomp) as (kept' & k' & -> & Hk'). by apply IH.
Qed.

(** A name that is not refused goes down, part by part. *)
Lemma normpath_kept n : escapes (normpath n) = false ->
  exists ws, normpath n = join "/" ws /\ ws <> [] /\ Forall clean_part_ok ws.
Proof.
  unfold normpath. cbv zeta. destruct (bool_decide (root_of n = "")) eqn:Hroot.
  2:{ apply bool_decide_eq_false in Hroot. unfold root_of in *. rewrite bool_decide_false by by case_match; [|case_match].
      unfold escapes. by case_match; [|case_match]. }
  apply bool_decide_eq_true in Hroot. rewrite Hroot. cbn [negb].
  change ("" +:+ join "/" (norm_parts false (split_on slash n))) with (join "/" (norm_parts false (split_on slash n))).
  destruct (norm_parts_spec (split_on slash n)) as (kept & k & -> & Hk); [apply Forall_forall; intros w; apply split_on_parts|].
  case_bool_decide as Hempty.
  { intros _. exists ["."]. split; [done|]. split; [done|]. constructor; [by split_and!|constructor]. }
  intros Hesc. destruct k as [|k].
  - exists kept. split; [done|]. split; [by intros ->|done].
  - exfalso. unfold escapes in Hesc. cbn [replicate app] in Hesc. destruct (replicate k ".." ++ kept) as [|w ws]; [done|].
    by rewrite !orb_true_r in Hesc.
Qed.

(** ** What a submit writes *)

(** The objects the submit of a function may write: the scripts of the runner and, for a
    function with an archive, the members of it, in the folder of the function. *)
Definition writes (job : Job) (p : Program) (project : CodeEngineProject) (bucket key : string) : Prop :=
  let paths := build_job_paths job p in
  (truthy (artifact p) = true /\ Some bucket = cos_bucket_user_data_name project
   /\ (key = cos_docker_entrypoint paths
       \/ exists ws, ws <> [] /\ Forall clean_part_ok ws /\ key = cos_user_function_prefix paths +:+ "/" +:+ join "/" ws))
  \/ (truthy (artifact p) = false /\ Some bucket = cos_bucket_provider_data_name project
      /\ key ∈ [cos_docker_entrypoint paths; cos_function_entrypoint paths] /\ is_Some (program_provider p)).

(** No submit writes in the folder of a job. *)
Lemma starts_common x a b : startswith (x +:+ a) (x +:+ b) = startswith a b.
Proof.
  induction x as [|c x IH]; [done|].
  change (String c x +:+ a) with (String c (x +:+ a)). change (String c x +:+ b) with (String c (x +:+ b)). cbn. by rewrite bool_decide_true, IH.
Qed.
Ltac apart := rewrite ?str_app_assoc, ?starts_common; reflexivity.

Lemma writes_no_job job job' p project bucket key : author job' = author job ->
  writes job p project bucket key ->
  let paths := build_job_paths job' p in
  startswith (cos_user_job_prefix paths) key = false
  /\ forall prefix, cos_provider_job_prefix paths = Some prefix -> startswith prefix key = false.
Proof.
  intros Ha Hw. unfold writes, build_job_paths in *. cbv zeta in *. destruct (program_provider p) as [provider|].
  - cbn [build_provider_job_paths cos_user_job_prefix cos_provider_job_prefix cos_docker_entrypoint cos_user_function_prefix cos_function_entrypoint] in *. rewrite Ha.
    split; [|intros prefix [= <-]]; (destruct Hw as [(_ & _ & [->|(ws & _ & _ & ->)])|(_ & _ & [->|[->|[]%not_elem_of_nil]%elem_of_cons]%elem_of_cons & _)]; apart).
  - cbn [build_custom_job_paths cos_user_job_prefix cos_provider_job_prefix cos_docker_entrypoint cos_user_function_prefix cos_function_entrypoint] in *. rewrite Ha.
    split; [|done]. destruct Hw as [(_ & _ & [->|(ws & _ & _ & ->)])|(_ & _ & _ & [? [=]])]; apart.
Qed.

(** Names without a slash, of which each is one part of a key. *)
Definition plain_names (job : Job) (p : Program) : Prop :=
  contains_char slash (username (author job)) = false /\ contains_char slash (title p) = false
  /\ match program_provider p with Some provider => contains_char slash (provider_name provider) = false | None => True end.

Lemma split_part a rest : contains_char slash a = false -> split_on slash (a +:+ "/" +:+ rest) = a :: split_on slash rest.
Proof. intros H. change (a +:+ "/" +:+ rest) with (a +:+ String slash rest). by rewrite split_on_app_slash, (split_on_whole slash a H). Qed.

Lemma split_custom u t x : contains_char slash u = false -> contains_char slash t = false ->
  split_on slash ("users/" +:+ u +:+ "/custom_functions/" +:+ t +:+ "/" +:+ x) = ["users"; u; "custom_functions"; t] ++ split_on slash x.
Proof.
  intros. change ("users/" +:+ u +:+ "/custom_functions/" +:+ t +:+ "/" +:+ x)
    with ("users" +:+ "/" +:+ u +:+ "/" +:+ "custom_functions" +:+ "/" +:+ t +:+ "/" +:+ x). by rewrite !split_part.
Qed.
Lemma split_user_provider u n t x : contains_char slash u = false -> contains_char slash n = false -> contains_char slash t = false ->
  split_on slash ("users/" +:+ u +:+ "/provider_functions/" +:+ n +:+ "/" +:+ t +:+ "/" +:+ x)
  = ["users"; u; "provider_functions"; n; t] ++ split_on slash x.
Proof.
  intros. change ("users/" +:+ u +:+ "/provider_functions/" +:+ n +:+ "/" +:+ t +:+ "/" +:+ x)
    with ("users" +:+ "/" +:+ u +:+ "/" +:+ "provider_functions" +:+ "/" +:+ n +:+ "/" +:+ t +:+ "/" +:+ x). by rewrite !split_part.
Qed.
Lemma split_provider n t x : contains_char slash n = false -> contains_char slash t = false ->
  split_on slash ("providers/" +:+ n +:+ "/" +:+ t +:+ "/" +:+ x) = ["providers"; n; t] ++ split_on slash x.
Proof. intros. change ("providers/" +:+ n +:+ "/" +:+ t +:+ "/" +:+ x) with ("providers" +:+ "/" +:+ n +:+ "/" +:+ t +:+ "/" +:+ x). by rewrite !split_part. Qed.

(** The folders of a function and of a job, as the parts of the keys in them: [what] is [data] or [jobs]. *)
Definition in_folder (what : string) (job : Job) (p : Program) (parts : list string) : Prop :=
  match program_provider p with
  | None => exists rest, parts = ["users"; username (author job); "custom_functions"; title p] ++ what :: rest
  | Some provider =>
      (exists rest, parts = ["users"; username (author job); "provider_functions"; provider_name provider; title p] ++ what :: rest)
      \/ exists rest, parts = ["providers"; provider_name provider; title p] ++ what :: rest
  end.

Lemma folders_apart job p job' p' parts : in_folder "data" job p parts -> in_folder "jobs" job' p' parts -> False.
Proof.
  unfold in_folder. destruct (program_provider p), (program_provider p'); intros; destruct_or?; destruct_or?;
    repeat match goal with H : exists _, _ |- _ => destruct H as [? H] end; simplify_eq.
Qed.

Lemma data_folder job p project bucket key : plain_names job p -> writes job p project bucket key -> in_folder "data" job p (split_on slash key).
Proof.
  intros (Hu & Ht & Hp) Hw. unfold writes, build_job_paths, in_folder in *. cbv zeta in *. destruct (program_provider p) as [provider|].
  - cbn [build_provider_job_paths cos_docker_entrypoint cos_user_function_prefix cos_function_entrypoint] in *.
    destruct Hw as [(_ & _ & [->|(ws & _ & _ & ->)])|(_ & _ & [->|[->|[]%not_elem_of_nil]%elem_of_cons]%elem_of_cons & _)].
    2:{ left. rewrite !str_app_assoc. eexists. exact (split_user_provider _ _ _ ("data/" +:+ join "/" ws) Hu Hp Ht). }
    all: right; rewrite !str_app_assoc; eexists; exact (split_provider _ _ ("data/" +:+ _) Hp Ht).
  - cbn [build_custom_job_paths cos_docker_entrypoint cos_user_function_prefix cos_function_entrypoint] in *.
    destruct Hw as [(_ & _ & [->|(ws & _ & _ & ->)])|(_ & _ & _ & [? [=]])]; rewrite !str_app_assoc; eexists;
      exact (split_custom _ _ ("data/" +:+ _) Hu Ht).
Qed.

Lemma job_folder job p key : plain_names job p ->
  let paths := build_job_paths job p in
  startswith (cos_user_job_prefix paths) key = true
  \/ (exists prefix, cos_provider_job_prefix paths = Some prefix /\ startswith prefix key = true) ->
  in_folder "jobs" job p (split_on slash key).
Proof.
  intros (Hu & Ht & Hp). unfold build_job_paths, in_folder. cbv zeta. destruct (program_provider p) as [provider|].
  - cbn [build_provider_job_paths cos_user_job_prefix cos_provider_job_prefix].
    intros [[r ->]%startswith_inv|(prefix & [= <-] & [r ->]%startswith_inv)]; [left|right]; rewrite !str_app_assoc; eexists.
    + exact (split_user_provider _ _ _ ("jobs/" +:+ _) Hu Hp Ht).
    + exact (split_provider _ _ ("jobs/" +:+ _) Hp Ht).
  - cbn [build_custom_job_paths cos_user_job_prefix cos_provider_job_prefix].
    intros [[r ->]%startswith_inv|(prefix & [=] & _)]. rewrite !str_app_assoc. eexists. exact (split_custom _ _ ("jobs/" +:+ _) Hu Ht).
Qed.

Section confined.
Context {Cloud : Type} (ce : CodeEngine Cloud) (attributes : Attributes) (fuel : nat).
Context (settings : FleetsSettings) (lib : Libraries) (templates : Templates) (decrypt_string : string -> outcome string).
Context (open_artifact : string -> outcome (list Member)) (cos_fault : CosOp -> string -> string -> option (exn * bool)).
Context (config_workers : Job -> option Z).

Abbreviation FleetsM := (M (Fleets Cloud)).
Abbreviation submit := (fleets_submit ce attributes fuel settings lib templates decrypt_string open_artifact cos_fault config_workers).

(** The disk stays, and so do the objects that are not [ok]. *)
Definition only (ok : string -> string -> Prop) (s s' : Fleets Cloud) : Prop :=
  disk (fl_store s') = disk (fl_store s)
  /\ forall bucket key, ~ ok bucket key -> buckets (fl_store s') !! (bucket, key) = buckets (fl_store s) !! (bucket, key).
#[local] Instance only_preorder ok : PreOrder (only ok).
Proof. split; [done|]. intros x y z [Hd Hb] [Hd' Hb']. split; [congruence|]. intros bucket key H. rewrite Hb', Hb; done. Qed.

Lemma only_process ok {A} (m : Py A) : rel (fun s s' => only ok s s') (on_process m).
Proof. intros s. unfold on_process. by destruct (m (fl_world s)). Qed.
Lemma only_cloud ok {A} (m : M Cloud A) : rel (fun s s' => only ok s s') (on_cloud m).
Proof. intros s. unfold on_cloud. by destruct (m (fl_cloud s)). Qed.
Lemma only_set_project ok p : rel (fun s s' => only ok s s') (set_project p). Proof. done. Qed.
Lemma only_set_handler ok h : rel (fun s s' => only ok s s') (set_handler h). Proof. done. Qed.
Lemma only_put (ok : string -> string -> Prop) bucket key content : ok bucket key ->
  rel (fun s s' => only ok s s') (put (Cloud := Cloud) cos_fault bucket key content).
Proof.
  intros Hok s. unfold put, on_store, upload_fileobj, bucket_and_key, required, cos_call, bind.
  repeat case_bool_decide; cbn; try done. destruct (cos_fault PutObject bucket key) as [[e []]|]; cbn; try done;
    (split; [done|]; intros b k Hn; cbn; rewrite lookup_insert_ne; [done|by intros [= -> ->]]).
Qed.
#[local] Hint Resolve only_process only_cloud only_set_project only_set_handler : pyrel.

Lemma only_members (ok : string -> string -> Prop) bucket prefix entry members found :
  (forall ws, ws <> [] -> Forall clean_part_ok ws -> ok bucket (prefix +:+ "/" +:+ join "/" ws)) ->
  rel (fun s s' => only ok s s') (upload_members (Cloud := Cloud) cos_fault bucket prefix entry members found).
Proof.
  intros Hok. revert found. induction members as [|m members IH]; intros found; cbn [upload_members]; [rel_auto|].
  destruct (negb (member_isfile m)); [apply IH|]. cbv zeta. destruct (escapes (normpath (member_name m))) eqn:Hesc; [apply IH|].
  destruct (normpath_kept _ Hesc) as (ws & -> & Hne & Hws).
  apply rel_bind; [typeclasses eauto|apply rel_of_outcome; typeclasses eauto|]. intros [content|]; [|apply IH].
  apply rel_bind; [typeclasses eauto|by apply only_put, Hok|]. intros []. apply IH.
Qed.

Lemma only_upload job p project : is_Some (cos_bucket_user_data_name project) ->
  (is_Some (program_provider p) -> is_Some (cos_bucket_provider_data_name project)) ->
  rel (fun s s' => only (writes job p project) s s')
    (_upload_program_to_cos (Cloud := Cloud) settings templates open_artifact cos_fault project job p (build_job_paths job p)).
Proof.
  intros [user Hu] Hprov. unfold _upload_program_to_cos. destruct (truthy (artifact p)) eqn:Ha.
  - unfold _upload_custom_image_entrypoint. rewrite Hu. cbv zeta. cbn [default Datatypes.id].
    assert (forall key, key = cos_docker_entrypoint (build_job_paths job p)
        \/ (exists ws, ws <> [] /\ Forall clean_part_ok ws /\ key = cos_user_function_prefix (build_job_paths job p) +:+ "/" +:+ join "/" ws)
      -> writes job p project user key) as Hw by (intros key Hkey; left; by rewrite Hu).
    apply rel_bind; [typeclasses eauto|apply only_put, Hw; by left|]. intros [].
    apply rel_bind; [typeclasses eauto| |].
    + apply rel_try_except; [typeclasses eauto| |].
      * apply rel_bind; [typeclasses eauto|apply rel_of_outcome; typeclasses eauto|]. intros members. apply only_members. intros ws Hne Hws.
        apply Hw. right. by exists ws.
      * intros e m. case_match; [|done]. intros [= <-]. rel_auto.
    + intros []; rel_auto.
  - destruct (truthy (image p)); [|rel_auto]. unfold _upload_provider_image_entrypoint. destruct (program_provider p) as [provider|] eqn:Hp; [|rel_auto].
    destruct (Hprov ltac:(by eexists)) as [data Hd]. rewrite Hd. cbv zeta. cbn [default Datatypes.id].
    assert (forall key, key ∈ [cos_docker_entrypoint (build_job_paths job p); cos_function_entrypoint (build_job_paths job p)] ->
      writes job p project data key) as Hw by (intros key Hkey; right; rewrite Hd, Hp; by split_and!; [..|by eexists]).
    apply rel_bind; [typeclasses eauto|apply only_put, Hw; set_solver|]. intros []. apply only_put, Hw; set_solver.
Qed.

Lemma only_pages ok {B} n h deadline seen start (step : B -> list FleetItem -> B * bool) acc :
  rel (fun s s' => only ok s s') (pages ce n h deadline seen start step acc).
Proof. revert seen start acc. induction n as [|n IH]; intros; cbn [pages]; rel_auto. Qed.
#[local] Hint Resolve only_pages : pyrel.
Lemma only_submit_job ok h body : rel (fun s s' => only ok s s') (submit_job ce attributes fuel h body).
Proof. unfold submit_job, find_fleet_id, _fleet_pages. rel_auto. Qed.
#[local] Hint Resolve only_submit_job : pyrel.
Lemma only_project ok : rel (fun s s' => only ok s s') (ensure_project (Cloud := Cloud)).
Proof. unfold ensure_project, _get_project, job_. cbv zeta. rel_auto. Qed.
#[local] Hint Resolve only_project : pyrel.
Lemma only_create ok paths : rel (fun s s' => only ok s s') (_create_fleet ce attributes fuel settings lib decrypt_string config_workers paths).
Proof. unfold _create_fleet, raising_as, program_, job_, _get_handler. cbv zeta. rel_auto. Qed.

(** What the check of the configuration promises. *)
Lemma configured project p : _is_cos_configured project p = true ->
  is_Some (cos_bucket_user_data_name project) /\ (is_Some (program_provider p) -> is_Some (cos_bucket_provider_data_name project)).
Proof.
  unfold _is_cos_configured. intros H. apply andb_prop in H as [[[H1 H2]%andb_prop _]%andb_prop _].
  apply truthy_spec in H2 as (user & -> & _). split; [by eexists|]. intros Hp. rewrite bool_decide_true in H1 by done.
  apply truthy_spec in H1 as (data & -> & _). by eexists.
Qed.

(** *** What a submit leaves in the bucket *)

Abbreviation stored s := (buckets (fl_store s)).

Lemma object_put bucket key content (s : Fleets Cloud) s' :
  put cos_fault bucket key content s = (Ok tt, s') -> stored s' = <[(bucket, key) := content]> (stored s).
Proof.
  unfold put, on_store, upload_fileobj, bucket_and_key, required, cos_call, bind. repeat case_bool_decide; cbn; try done.
  destruct (cos_fault PutObject bucket key) as [[e []]|]; cbn; [done|done|]. by intros [= <-].
Qed.

(** A file of the archive that is put under [name], with its content. *)
Definition member_of (members : list Member) (name content : string) : Prop :=
  exists m, m ∈ members /\ member_isfile m = true /\ escapes (normpath (member_name m)) = false /\ normpath (member_name m) = name
    /\ extracted m = Ok (Some content).

Lemma in_folder_inj x a b : x +:+ "/" +:+ a = x +:+ "/" +:+ b -> a = b.
Proof. intros E%str_app_inj. by injection E. Qed.

Lemma members_stored bucket prefix entry (all members : list Member) found (s s' : Fleets Cloud) b :
  upload_members cos_fault bucket prefix entry members found s = (Ok b, s') ->
  (forall m, m ∈ members -> m ∈ all) ->
  (found = true -> exists content, member_of all entry content /\ stored s !! (bucket, prefix +:+ "/" +:+ entry) = Some content) ->
  (b = true -> exists content, member_of all entry content /\ stored s' !! (bucket, prefix +:+ "/" +:+ entry) = Some content)
  /\ forall name, (forall content, ~ member_of all name content) ->
       stored s' !! (bucket, prefix +:+ "/" +:+ name) = stored s !! (bucket, prefix +:+ "/" +:+ name).
Proof.
  revert found s. induction members as [|m members IH]; intros found s H Hall Hfound; cbn [upload_members] in H.
  { injection H as <- <-. by split. }
  assert (forall m, m ∈ members -> m ∈ all) as Hrest by (intros ? ?; apply Hall; by right).
  destruct (member_isfile m) eqn:Hfile; cbn [negb] in H; [|by apply (IH found s)]. cbv zeta in H.
  destruct (escapes (normpath (member_name m))) eqn:Hesc; [by apply (IH found s)|].
  apply bind_ok_inv in H as (content & s1 & [Hx ->]%of_outcome_ok & H). destruct content as [content|]; [|by apply (IH found s)].
  apply bind_ok_inv in H as ([] & s2 & Hput%object_put & H).
  assert (member_of all (normpath (member_name m)) content) as Hm by (exists m; split_and!; [apply Hall; by left|done..]).
  apply IH in H as [H1 H2]; [split; [exact H1|]|done|].
  - intros name Hname. rewrite (H2 name Hname), Hput, lookup_insert_ne; [done|]. intros [= E%in_folder_inj]. subst name. by destruct (Hname content).
  - intros Hor. rewrite Hput. destruct (decide (normpath (member_name m) = entry)) as [<-|Hne].
    + exists content. split; [exact Hm|]. by rewrite lookup_insert_eq.
    + rewrite bool_decide_false, orb_false_r in Hor by done. destruct (Hfound Hor) as (c & Hc & Hl). exists c. split; [exact Hc|].
      rewrite lookup_insert_ne; [done|]. intros [= E%in_folder_inj]. done.
Qed.

(** What the submit leaves for the container: the code of the function under the key of its entrypoint, and the wrapper under its own,
    where the function does not have a file of that name. *)
Definition program_stored (job : Job) (p : Program) (b : Buckets) (bucket : string) : Prop :=
  let paths := build_job_paths job p in
  if truthy (artifact p) then
    exists members, open_artifact (default "" (artifact p)) = Ok members
      /\ (exists content, member_of members (entrypoint p) content
            /\ b !! (bucket, cos_user_function_prefix paths +:+ "/" +:+ entrypoint p) = Some content)
      /\ ((forall content, ~ member_of members CUSTOM_JOB_WRAPPER_NAME content) -> program_provider p = None ->
            b !! (bucket, cos_docker_entrypoint paths)
            = Some (custom_wrapper templates (container_function_entrypoint paths) (QISKIT_USER_CONFIG settings)))
  else
    b !! (bucket, cos_function_entrypoint paths)
      = Some (main_template templates (CUSTOM_IMAGE_PACKAGE_PATH settings) (CUSTOM_IMAGE_PACKAGE_NAME settings))
    /\ (entrypoint p <> PROVIDER_JOB_WRAPPER_NAME ->
          b !! (bucket, cos_docker_entrypoint paths)
          = Some (provider_wrapper templates (container_function_entrypoint paths) (QISKIT_USER_CONFIG settings))).

Lemma uploaded_program project job p (s s' : Fleets Cloud) :
  _upload_program_to_cos settings templates open_artifact cos_fault project job p (build_job_paths job p) s = (Ok tt, s') ->
  truthy (artifact p) || truthy (image p) = true ->
  program_stored job p (stored s')
    (default "" (if truthy (artifact p) then cos_bucket_user_data_name project else cos_bucket_provider_data_name project))
  /\ (truthy (artifact p) = false -> is_Some (program_provider p)).
Proof.
  unfold _upload_program_to_cos, program_stored. destruct (truthy (artifact p)) eqn:Ha; cbn [orb]; cbv zeta.
  - intros H _. split; [|done]. unfold _upload_custom_image_entrypoint in H. cbv zeta in H.
    apply bind_ok_inv in H as ([] & s1 & Hput%object_put & H). apply bind_ok_inv in H as (b & s2 & Hm & H).
    destruct b; [injection H as <-|done]. apply try_except_ok_inv in Hm as [Hm|(e & s3 & m' & _ & Hh & Hm)].
    2:{ destruct (is_tar_error e); [|done]. by injection Hh as <-. }
    apply bind_ok_inv in Hm as (members & s3 & [Ho ->]%of_outcome_ok & Hm). exists members. split; [done|].
    destruct (members_stored _ _ _ members _ _ _ _ _ Hm (fun _ H => H) ltac:(done)) as [H1 H2]. split; [by apply H1|].
    intros Hno Hp. specialize (H2 _ Hno). unfold build_job_paths in *. rewrite Hp in *.
    cbn [build_custom_job_paths cos_user_function_prefix cos_docker_entrypoint] in *. by rewrite H2, Hput, lookup_insert_eq.
  - intros H Hi. rewrite Hi in H. unfold _upload_provider_image_entrypoint in H. destruct (program_provider p) as [provider|] eqn:Hp; [|done].
    split; [|by eexists]. cbv zeta in H. apply bind_ok_inv in H as ([] & s1 & H1%object_put & H2%object_put). rewrite H2, H1. split; [by rewrite lookup_insert_eq|].
    intros Hne. rewrite lookup_insert_ne, lookup_insert_eq; [done|]. intros [= E]. unfold build_job_paths in E. rewrite Hp in E.
    cbn [build_provider_job_paths cos_function_entrypoint cos_docker_entrypoint] in E. by apply in_folder_inj in E.
Qed.

Lemma submit_stores job p project (s s' : Fleets Cloud) :
  serves job s -> program job = Some p -> get_project job = Ok project -> submit s = (Ok tt, s') ->
  truthy (artifact p) || truthy (image p) = true ->
  program_stored job p (stored s')
    (default "" (if truthy (artifact p) then cos_bucket_user_data_name project else cos_bucket_provider_data_name project))
  /\ _is_cos_configured project p = true /\ (truthy (artifact p) = false -> is_Some (program_provider p)).
Proof.
  intros Hs Hp Hproject H Hcode. unfold fleets_submit in H. apply bind_ok_inv in H as (paths & s1 & Hup & Hcreate).
  pose proof (only_create (fun _ _ => False) paths s1) as Hkeep. rewrite Hcreate in Hkeep. cbn in Hkeep. destruct Hkeep as [_ Hkeep].
  assert (stored s' = stored s1) as -> by (apply map_eq; intros [b k]; apply Hkeep; by intros []).
  unfold _upload_to_cos in Hup. apply bind_ok_inv in Hup as (job0 & s2 & Hj & Hup).
  assert (job0 = job /\ serves job s2) as [-> Hs2].
  { destruct s as [w st c pr h co]. destruct Hs as [H1 H2 H3]. unfold job_, on_process, get_self, gets in Hj. cbn in Hj.
    injection Hj as <- <-. by split. }
  unfold raising_as in Hup. apply try_except_ok_inv in Hup as [Hup|(e & s3 & m' & _ & [= <-] & Hm)]; [|done].
  apply bind_ok_inv in Hup as (project0 & s3 & Hpr & Hup). pose proof (project_wp job s2 Hs2) as Hw. unfold wp in Hw. rewrite Hpr in Hw.
  destruct Hw as [Hs3 Hp0]. assert (project0 = project) as -> by congruence.
  apply bind_ok_inv in Hup as (p0 & s4 & Hp1 & Hup).
  assert (p0 = p) as ->. { unfold program_, on_process, attr in Hp1. rewrite Hp in Hp1. cbn in Hp1. congruence. }
  apply bind_ok_inv in Hup as ([] & s5 & Hc & Hup). destruct (_is_cos_configured project p) eqn:Hconf; [|done]. injection Hc as <-.
  cbv zeta in Hup. apply bind_ok_inv in Hup as ([] & s6 & Hprog & Hret). injection Hret as _ <-.
  destruct (uploaded_program _ _ _ _ _ Hprog Hcode) as [H1 H2]. split; [exact H1|]. split; [done|exact H2].
Qed.

(** C27: a submit of a job writes, of all that is stored, the scripts of its runner and the
    members of the archive that stay inside the folder of the function, in the buckets of its
    project, whatever the names in the archive are; so no object of a job, its arguments,
    its results or its logs, is touched: of a job of the same author and function, and of any job when the names of users,
    functions and providers have no slash. *)
Theorem submit_confined job p project s :
  serves job s -> program job = Some p -> get_project job = Ok project ->
  let '(_, s') := submit s in
  disk (fl_store s') = disk (fl_store s)
  /\ (forall bucket key, ~ writes job p project bucket key -> buckets (fl_store s') !! (bucket, key) = buckets (fl_store s) !! (bucket, key))
  /\ forall job' p' bucket key, (author job' = author job /\ p' = p) \/ (plain_names job p /\ plain_names job' p') ->
       let paths := build_job_paths job' p' in
       startswith (cos_user_job_prefix paths) key = true
       \/ (exists prefix, cos_provider_job_prefix paths = Some prefix /\ startswith prefix key = true) ->
       buckets (fl_store s') !! (bucket, key) = buckets (fl_store s) !! (bucket, key).
Proof.
  intros Hs Hp Hproject. enough (only (writes job p project) s (snd (submit s))) as H.
  { destruct (submit s) as [o s']. destruct H as [Hd Hb]. split; [done|]. split; [done|].
    intros job' p' bucket key [[Ha ->]|[Hn Hn']] paths Hkey; apply Hb; intros Hw.
    - destruct (writes_no_job _ job' _ _ _ _ Ha Hw) as [H1 H2]. fold paths in H1, H2.
      destruct Hkey as [Hkey|(prefix & Hprefix & Hkey)]; [by rewrite H1 in Hkey|by rewrite (H2 _ Hprefix) in Hkey].
    - exact (folders_apart job p job' p' _ (data_folder _ _ _ _ _ Hn Hw) (job_folder _ _ _ Hn' Hkey)). }
  unfold fleets_submit. apply rel_bind_at; [typeclasses eauto| |].
  2:{ intros paths s' _ _. apply only_create. }
  unfold _upload_to_cos. apply rel_bind_at; [typeclasses eauto|apply only_process|].
  intros job0 s0 Hj _. assert (job0 = job /\ serves job s0) as [-> Hs0].
  { destruct s as [w st c pr h co]. destruct Hs as [H1 H2 H3]. unfold job_, on_process, get_self, gets in Hj. cbn in Hj.
    injection Hj as <- <-. by split. }
  unfold raising_as. set (body := bind ensure_project _).
  enough (only (writes job p project) s0 (snd (body s0))) as Hbody.
  { unfold try_except. destruct (body s0) as [[a|e] s1]; exact Hbody. }
  unfold body. apply rel_bind_at; [typeclasses eauto|apply only_project|]. intros project0 s1 He _.
  pose proof (project_wp job s0 Hs0) as Hw. unfold wp in Hw. rewrite He in Hw. destruct Hw as [Hs1 Hp0].
  assert (project0 = project) as -> by congruence.
  apply rel_bind_at; [typeclasses eauto|apply only_process|]. intros p0 s2 Hp1 _.
  assert (p0 = p) as ->. { unfold program_, on_process, attr in Hp1. rewrite Hp in Hp1. cbn in Hp1. congruence. }
  apply rel_bind_at; [typeclasses eauto|by destruct (_is_cos_configured project p)|]. intros [] s3 Hc _.
  destruct (_is_cos_configured project p) eqn:Hconf; [|done]. destruct (configured _ _ Hconf) as [Hu Hprov].
  cbv zeta. apply rel_bind; [typeclasses eauto|by apply only_upload|]. intros []. rel_auto.
Qed.
End confined.

(** * The Fleets runner on concrete inputs

    A small Code Engine, whose first create loses its answer, and the theorems of the runner
    applied to it. *)

(** ** A Code Engine *)

Module SampleCloud.
(** The fleets, a project, a name and an id each, and how many creates were asked for. *)
Record Cloud := mk_cloud { fleets : list (string * (string * string)); creates : nat }.
Definition fleets_of (c : Cloud) (q : string) : list (string * string) := snd <$> filter (fun f => f.1 = q) (fleets c).

Definition uuid : string := "15314cc3-85b4-4338-903f-c28cdee6d005".
Definition conflict : exn := mk_exn ApiException "409 fleet_resource_name_conflict".
Definition absent : exn := mk_exn ApiException "404".
Definition lost : exn := mk_exn ProtocolError "Connection aborted".

Definition create (h : Handler) (body : FleetBody) : M Cloud (option string) :=
  fun c =>
    if bool_decide (body_name body ∈ (fleets_of c (h_project h)).*1) then (Raise conflict, mk_cloud (fleets c) (S (creates c)))
    else (if bool_decide (creates c = 0%nat) then Raise lost else Ok (Some uuid),
          mk_cloud (fleets c ++ [(h_project h, (body_name body, uuid))]) (S (creates c))).
Definition list_ (h : Handler) (start : option string) (timed : bool) : M Cloud (Page FleetItem) :=
  fun c => (Ok (mk_page ((fun f => mk_fleet_item (Some f.1) (Some f.2)) <$> fleets_of c (h_project h)) None), c).
Definition known (c : Cloud) (h : Handler) (i : string) : bool := bool_decide (i ∈ (fleets_of c (h_project h)).*2).
Definition cancel (h : Handler) (i : string) : M Cloud unit := fun c => (if known c h i then Ok tt else Raise absent, c).
Definition remove (h : Handler) (i : string) : M Cloud unit :=
  fun c => if known c h i
           then (Ok tt, mk_cloud (filter (fun f => ~ (f.1 = h_project h /\ f.2.2 = i)) (fleets c)) (creates c))
           else (Raise absent, c).

Definition engine : CodeEngine Cloud :=
  mk_code_engine Cloud (fun _ _ _ => ret tt) create list_ cancel remove (fun _ _ => ret (mk_page [] None)).

Definition attributes : Attributes :=
  mk_attributes (fun e => if startswith "409" (exn_str e) then Some 409%Z else if startswith "404" (exn_str e) then Some 404%Z else None)
    exn_str exn_str (fun _ => "") (fun _ => 0%Z) (fun _ => false).

#[export] Instance engine_laws : CodeEngineLaws engine fleets_of.
Proof.
  split.
  - intros h body c. cbn. unfold create. destruct (bool_decide (body_name body ∈ _)) eqn:Hb; [by left|]. apply bool_decide_eq_false in Hb.
    right. exists uuid. split; [done|]. unfold fleets_of. cbn. split.
    + rewrite filter_app, fmap_app. cbn. by case_decide.
    + split; [|by case_bool_decide; intros i' [= <-]]. intros q Hq. rewrite filter_app, fmap_app. cbn. case_decide as Hd; [by destruct Hq|by rewrite app_nil_r].
  - intros h start timed c. cbn. split; [done|]. intros page f n i [= <-]. cbn. intros ([n' i'] & -> & Hin)%list_elem_of_fmap. cbn. by intros [= <-] [= <-].
  - done.
Qed.
End SampleCloud.

(** ** A runner *)

Module SampleRunner.
Definition settings : FleetsSettings :=
  mk_fleets_settings (Some "api-key") None "icr.io/image" "cx3d-4x16" 1 (Some "https://gateway") "" "" "" false 5 1024 "/settings" "config" "pkg" "main".
Definition templates : Templates := mk_templates (fun a b => a +:+ b) (fun a b => a +:+ b) (fun a b => a +:+ b).
(** An archive with names that climb, and one that means the wrapper's. *)
Definition archive : list Member :=
  [mk_member "main.py" true (Ok (Some "print(1)")); mk_member "../../bob/data/main.py" true (Ok (Some "evil"));
   mk_member "/etc/passwd" true (Ok (Some "evil")); mk_member "lib/../util.py" true (Ok (Some "def f(): pass")); mk_member "lib" false (Ok None)].
Definition open_artifact (_ : string) : outcome (list Member) := Ok archive.
Definition no_fault (_ : CosOp) (_ _ : string) : option (exn * bool) := None.
Definition custom : Program :=
  mk_program 6 "estimator" None sample_author FLEETS false None false
    (Some sample_size) (Some sample_project) "{}" (Some "{}") "GENERIC" None None "main.py" (Some "artifact.tar") None "[]".
Definition job_id : string := "0b0e0f52-1a0c-4d8e-9f0e-3f6d1c2b4a59".
Definition job_of (s : JobStatus) (fleet : option string) : Job :=
  let j := sample_job job_id s fleet in set_fields [F_env_vars "{"] j.
Definition world_for (j : Job) : World := world_of empty_db j.

Definition none_yet : SampleCloud.Cloud := SampleCloud.mk_cloud [] 0.
Definition one_fleet : SampleCloud.Cloud := SampleCloud.mk_cloud [("ce-uuid", ("fleet", SampleCloud.uuid))] 1.
Definition nothing_stored : Store := mk_store ∅ ∅.
End SampleRunner.
Import SampleCloud SampleRunner.

Abbreviation sample_submit := (fleets_submit engine attributes 5 settings Flat.lib templates (fun s => Ok s) open_artifact no_fault (fun _ => None)).
Abbreviation sample_resubmit := (resubmit engine attributes 5 settings Flat.lib templates (fun s => Ok s) open_artifact no_fault (fun _ => None)).

(** The create of the first attempt makes the fleet and loses its answer; the second finds the
    fleet, by its name. *)
Definition two_attempts : list (World * Store) := replicate 2 (world_for (job_of QUEUED None), nothing_stored).

Definition answered {A} (o : outcome A) : bool := match o with Ok _ => true | Raise _ => false end.
Definition the_fleet : string * string := ("acme-sampler-0b0e0f52-1a0c-4d8e-9f0e-3f6d1c2b4a59", uuid).
Definition two_results : list (Job * outcome unit * Job) := fst (sample_resubmit two_attempts none_yet).

Lemma second_attempt_finds :
  (fun r => (answered (snd (fst r)), fleet_id (snd r))) <$> two_results = [(false, None); (true, Some uuid)]
  /\ fleets (snd (sample_resubmit two_attempts none_yet)) = [("ce-uuid", the_fleet)].
Proof. split; vm_compute; reflexivity. Qed.

Lemma one_fleet_per_job_witness :
  exists c', sample_resubmit two_attempts none_yet = (two_results, c') /\ NoDup (fleets_of c' "ce-uuid").*1
    /\ forall job left1 left2, (job, Ok tt, left1) ∈ two_results -> (job, Ok tt, left2) ∈ two_results -> fleet_id left1 = fleet_id left2.
Proof.
  exists (snd (sample_resubmit two_attempts none_yet)). split; [by unfold two_results; destruct (sample_resubmit _ _)|].
  destruct (one_fleet_per_job engine attributes 5 settings Flat.lib templates (fun s => Ok s) open_artifact no_fault (fun _ => None) fleets_of
    two_attempts none_yet two_results (snd (sample_resubmit two_attempts none_yet))) as (Hn & _ & H & _).
  - intros q. apply NoDup_nil_2.
  - unfold two_results. by destruct (sample_resubmit _ _).
  - split; [apply Hn|exact H].
Defined.

Lemma fleet_name_accepted_witness :
  (String.length (fleet_name (job_of QUEUED None) sample_program) <= 62)%nat.
Proof.
  apply (fleet_name_accepted (job_of QUEUED None) sample_program). by vm_compute.
Defined.

(** ** Stopping and deleting *)

Definition runner_of (j : Job) (st : Store) (c : Cloud) : Fleets Cloud := mk_fleets (world_for j) st c None None false.
Lemma runner_serves j st c : serves j (runner_of j st c).
Proof. by split. Qed.

Lemma stopping_answers : fst (fleets_stop engine attributes 5 settings (runner_of (job_of RUNNING (Some uuid)) nothing_stored one_fleet)) = Ok true.
Proof. vm_compute. reflexivity. Qed.
Lemma fleet_stop_answers_witness :
  exists h c, of_project (job_of RUNNING (Some uuid)) h /\ cancel_says attributes (fst (cancel_fleet engine h uuid c)) true.
Proof.
  pose proof (fleet_stop_answers engine attributes 5 settings (job_of RUNNING (Some uuid)) uuid
    (runner_of (job_of RUNNING (Some uuid)) nothing_stored one_fleet) (runner_serves _ _ _) ltac:(by vm_compute) ltac:(by vm_compute)) as H.
  pose proof stopping_answers as Ha. destruct (fleets_stop _ _ _ _ _) as [o s']. cbn [fst] in Ha. subst o.
  destruct H as [_ (h & c & Hh & Hsays & _)]. by exists h, c.
Defined.

Definition ended (fleet : string) : World := world_for (job_of SUCCEEDED (Some fleet)).
Lemma deleting_answers :
  fst (fleets_free_resources engine attributes 5 settings [sample_project] (mk_fleets (ended uuid) nothing_stored one_fleet None None false)) = Ok true.
Proof. vm_compute. reflexivity. Qed.
Lemma fleet_free_answers_witness :
  exists project c, gone attributes (fst (delete_fleet engine (handler_of project) uuid c)).
Proof.
  pose proof (fleet_free_answers engine attributes 5 settings [sample_project] (ended uuid) nothing_stored one_fleet uuid
    ltac:(by vm_compute) ltac:(by vm_compute)) as H.
  pose proof deleting_answers as Ha. destruct (fleets_free_resources _ _ _ _ _ _) as [o s']. cbn [fst] in Ha. subst o.
  destruct H as (_ & _ & project & c & _ & Hg & _). by exists project, c.
Defined.

(** ** Statuses *)

(** One task of the fleet ended and another runs still. *)
Definition task_keys : Buckets :=
  {[ ("tasks", "ce/ce-uuid/" +:+ uuid +:+ "/v3/queue/running/1") := ""; ("tasks", "ce/ce-uuid/" +:+ uuid +:+ "/v3/queue/Succeeded/0") := "" ]}.
Definition with_tasks : Store := mk_store ∅ task_keys.
Lemma reading_says : fst (fleets_status no_fault (runner_of (job_of RUNNING (Some uuid)) with_tasks one_fleet)) = Ok (Some SUCCEEDED).
Proof. vm_compute. reflexivity. Qed.
Lemma fleet_status_priority_witness :
  let under v := stored_under task_keys "tasks" (queue_prefix "ce-uuid" uuid v) in
  exists v state, read_from under v /\ says under (queue_prefix "ce-uuid" uuid) v state /\ (state, SUCCEEDED) ∈ _STATE_TO_JOB_STATUS.
Proof.
  destruct (fleet_status_priority no_fault (job_of RUNNING (Some uuid)) uuid sample_project "tasks"
    (runner_of (job_of RUNNING (Some uuid)) with_tasks one_fleet) (runner_serves _ _ _) ltac:(by vm_compute) ltac:(done) ltac:(by vm_compute)
    ltac:(done) ltac:(done) ltac:(done)) as (answer & Ha & H).
  pose proof reading_says as Hr. rewrite Ha in Hr. injection Hr as ->. cbv zeta.
  destruct (proj1 (H SUCCEEDED) eq_refl) as (v & i & state & Hread & Hi & Hsays & _). exists v, state.
  split; [exact Hread|]. split; [exact Hsays|by eapply list_elem_of_lookup_2].
Defined.

(** ** Submitting an archive *)

Definition custom_job : Job := with_function FLEETS (Some custom) (job_of QUEUED None).
Definition bob : string * string := ("bucket", "users/bob/custom_functions/estimator/data/main.py").
Definition bobs : Store := mk_store ∅ {[ bob := "bob's" ]}.

(** What is left of the names in the archive: the one that climbs, the absolute one and the
    folder are passed over. *)
Lemma archive_lands :
  map fst (map_to_list (buckets (fl_store (snd (sample_submit (runner_of custom_job bobs one_fleet)))))) ≡ₚ
    [bob; ("bucket", "users/alice/custom_functions/estimator/data/main.py");
     ("bucket", "users/alice/custom_functions/estimator/data/util.py");
     ("bucket", "users/alice/custom_functions/estimator/data/fleet_custom_job_wrapper.py")].
Proof. apply (bool_decide_unpack _). vm_compute. exact I. Qed.

Lemma bobs_is_not_written : ~ writes custom_job custom sample_project bob.1 bob.2.
Proof. intros [(_ & _ & [[=]|(ws & _ & _ & [=])])|([=] & _)]. Qed.

Lemma submit_confined_witness :
  let st := fl_store (snd (sample_submit (runner_of custom_job bobs one_fleet))) in
  disk st = ∅ /\ buckets st !! bob = Some "bob's".
Proof.
  pose proof (submit_confined engine attributes 5 settings Flat.lib templates (fun s => Ok s) open_artifact no_fault (fun _ => None)
    custom_job custom sample_project (runner_of custom_job bobs one_fleet) (runner_serves _ _ _) ltac:(done) ltac:(done)) as H.
  destruct (sample_submit _) as [o s']. destruct H as (Hd & Hb & _). split; [exact Hd|].
  exact (eq_trans (Hb _ _ bobs_is_not_written) (lookup_insert_eq ∅ bob "bob's")).
Defined.

(** The environment of a container: a function may store a variable of the gateway's, which
    does not survive. *)
Definition stored_vars : list (string * Json) :=
  [("ENV_JOB_ARGUMENTS", JStr "{}"); ("RESULTS_PATH", JStr "/elsewhere"); ("MODE", JStr "fast"); ("EMPTY", JStr "")].
Lemma container_environment_witness :
  let env := build_run_env_variables settings (build_job_paths custom_job custom) stored_vars None in
  lookup_key env "RESULTS_PATH" = Some (JStr "/job_user_data/results.json") /\ lookup_key env "MODE" = Some (JStr "fast")
  /\ lookup_key env "ENV_JOB_ARGUMENTS" = None /\ lookup_key env "EMPTY" = None.
Proof.
  destruct (container_environment settings (build_job_paths custom_job custom) stored_vars None) as (_ & _ & H);
    [by apply (bool_decide_unpack _)|]. cbv zeta. rewrite !H. split_and!; by vm_compute.
Defined.
