(* ===== verification/Retry.v ===== *)
(** * Retries ([retry_function] of [core/utils.py])

    A bounded number of attempts, some errors not retried, and no attempt once the budget of
    time is spent. *)

From S2P Require Import Prelude PyStr Domain Models World.

Local Open Scope string_scope.
Local Open Scope list_scope.

Section retry.
Context {A : Type} (retried : exn -> bool) (retry_budget : option Z) (callback : Py A).

(** The attempts remaining; [started] is the time of the first. *)
Fixpoint attempts (started : Z) (remaining : nat) : Py (option A) :=
  match remaining with
  | O => ret None
  | S remaining =>
      try_except (x <- callback ;; ret (Some x))
        (fun e => Some (
           if negb (retried e) then raise e
           else match remaining with
                | O => raise e
                | S _ =>
                    over <- (match retry_budget with
                             | Some budget => t <- monotonic ;; ret (bool_decide (budget < t - started)%Z)
                             | None => ret false
                             end) ;;
                    if over : bool then raise e else attempts started remaining
                end))
  end.
Definition retry_function (num_retries : nat) : Py (option A) :=
  started <- monotonic ;;
  attempts started num_retries.
End retry.


(** ** What the attempts do *)

Section retry.
Context {A : Type} (retried : exn -> bool) (retry_budget : option Z) (callback : Py A).

Lemma rel_retry (R : World -> World -> Prop) `{!PreOrder R} n :
  rel R monotonic -> rel R callback -> rel R (retry_function retried retry_budget callback n).
Proof.
  intros Hclock Hc. unfold retry_function. apply rel_bind; [exact _|exact Hclock|].
  intros started. induction n as [|n IH]; [apply rel_ret; exact _|]. cbn [attempts].
  apply rel_try_except; [exact _|rel_auto|]. intros e k [= <-]. destruct (negb _); [rel_auto|].
  destruct n; [rel_auto|]. apply rel_bind; [exact _|rel_auto|].
  intros []; [rel_auto|done].
Qed.

Lemma attempts_S started n w :
  attempts retried retry_budget callback started (S n) w =
    match callback w with
    | (Ok x, w') => (Ok (Some x), w')
    | (Raise e, w') =>
        if negb (retried e) then (Raise e, w')
        else match n with
             | O => (Raise e, w')
             | S _ =>
                 match retry_budget with
                 | None => attempts retried retry_budget callback started n w'
                 | Some budget =>
                     let w1 := set_ticks (S (ticks w')) w' in
                     if bool_decide (budget < mono w' (ticks w') - started)%Z then (Raise e, w1)
                     else attempts retried retry_budget callback started n w1
                 end
             end
    end.
Proof.
  cbn [attempts]. unfold try_except. unfold bind at 1. destruct (callback w) as [[x|e] w']; [done|].
  destruct (negb _); [done|]. destruct n; [done|]. destruct retry_budget; [|done].
  unfold bind at 1 2, monotonic. cbn. by destruct (bool_decide _).
Qed.

Lemma attempts_wp (I : World -> Prop) (Q : A -> World -> Prop) (E : exn -> World -> Prop) :
  (forall w, I w -> wp callback Q E w) ->
  (forall e w, E e w -> I w) -> (forall e w, E e w -> forall n, E e (set_ticks n w)) ->
  forall started n w, I w ->
  wp (attempts retried retry_budget callback started (S n)) (fun o w' => exists x, o = Some x /\ Q x w') E w.
Proof.
  intros Hc HI Htick started n. induction n as [|n IH]; intros w Hw; specialize (Hc w Hw).
  all: unfold wp in *; rewrite attempts_S; destruct (callback w) as [[x|e] w'] eqn:Hrun; [by exists x|].
  all: destruct (retried e); cbn [negb]; [|done]; try done.
  destruct retry_budget as [budget|]; [|by apply IH, (HI e)]. cbv zeta.
  destruct (bool_decide _); [by apply Htick|]. by apply IH, (HI e), Htick.
Qed.

Lemma retry_wp (I : World -> Prop) (Q : A -> World -> Prop) (E : exn -> World -> Prop) n w :
  (forall w, I w -> wp callback Q E w) ->
  (forall e w, E e w -> I w) -> (forall e w, E e w -> forall n, E e (set_ticks n w)) ->
  I (set_ticks (S (ticks w)) w) ->
  wp (retry_function retried retry_budget callback (S n)) (fun o w' => exists x, o = Some x /\ Q x w') E w.
Proof. intros Hc HI Ht Hw. apply wp_bind. by apply (attempts_wp I). Qed.

(** What [n] allowed attempts do from [w]: the outcome of each, in order, and the state left.
    The last one is the first success, or the first error that is not retried, whether of
    another kind, of the last attempt or too late. *)
Inductive tried (started : Z) : nat -> World -> list (outcome A) -> outcome (option A) -> World -> Prop :=
  | tried_ok n w x w' : callback w = (Ok x, w') -> tried started (S n) w [Ok x] (Ok (Some x)) w'
  | tried_other n w e w' : callback w = (Raise e, w') -> retried e = false ->
      tried started (S n) w [Raise e] (Raise e) w'
  | tried_last w e w' : callback w = (Raise e, w') -> tried started 1 w [Raise e] (Raise e) w'
  | tried_late n w e w' t budget w'' : callback w = (Raise e, w') -> retried e = true ->
      retry_budget = Some budget -> monotonic w' = (Ok t, w'') -> (budget < t - started)%Z ->
      tried started (S (S n)) w [Raise e] (Raise e) w''
  | tried_again n w e w' w1 os o w'' : callback w = (Raise e, w') -> retried e = true ->
      match retry_budget with
      | None => w1 = w'
      | Some budget => exists t, monotonic w' = (Ok t, w1) /\ (t - started <= budget)%Z
      end ->
      tried started (S n) w1 os o w'' -> tried started (S (S n)) w (Raise e :: os) o w''.

Lemma tried_length started n w os o w' : tried started n w os o w' -> (length os <= n)%nat.
Proof. induction 1; cbn; lia. Qed.

Lemma attempts_tried started n w :
  let r := attempts retried retry_budget callback started (S n) w in exists os, tried started (S n) w os r.1 r.2.
Proof.
  revert w. induction n as [|n IH]; intros w; cbv zeta; rewrite attempts_S;
    (destruct (callback w) as [[x|e] w'] eqn:Hc; [exists [Ok x]; by constructor|]);
    (destruct (retried e) eqn:Hr; cbn [negb]; [|exists [Raise e]; by constructor]).
  - exists [Raise e]. by constructor.
  - destruct retry_budget as [budget|] eqn:Hb.
    + cbv zeta. case_bool_decide as Hlate.
      * exists [Raise e]. by eapply tried_late.
      * destruct (IH (set_ticks (S (ticks w')) w')) as [os Hos]. exists (Raise e :: os).
        eapply tried_again; [done|done| |exact Hos]. rewrite Hb. eexists. split; [done|lia].
    + destruct (IH w') as [os Hos]. exists (Raise e :: os). eapply tried_again; [done|done| |exact Hos]. by rewrite Hb.
Qed.
End retry.

