(* ===== verification/JobUseCases.v ===== *)
(** * Jobs: the use cases that change them ([api/use_cases/jobs/])

    Stopping a job, setting its sub-status, logging an event of it and associating a Qiskit
    Runtime job with it, with the mirror the gateway sends inline ([core/services/workload_best_effort_mirror.py]). *)

From S2P Require Import Prelude PyStr Domain Models World JobEvents BillingEvents JobTransitions Json ValidateArguments Access RunFunction Retry.

Local Open Scope string_scope.
Local Open Scope list_scope.

(** A Qiskit Runtime job a job started, and its session. *)
Record RuntimeJob := mk_runtime_job {
  rj_job : JobId;
  rj_runtime_job : string;
  rj_runtime_session : option string
}.

Definition job_not_found (job_id : JobId) : exn := mk_exn JobNotFoundException ("Job [" +:+ job_id +:+ "] not found").
Definition invalid_access (message : string) : exn := mk_exn InvalidAccessException message.

(** [Job.objects.filter(id=job_id).first()], and the policy every one of these asks: without
    the job, or for who may not, there is no such job. *)
Definition find_job (may : User -> Job -> bool) (user : User) (job_id : JobId) : Py Job :=
  d <- get_db ;;
  match jobs d !! job_id with
  | None => raise (job_not_found job_id)
  | Some job => put_self job ;;; (if may user job then ret job else raise (job_not_found job_id))
  end.

(** ** [WorkloadInlineMirror] *)

Section mirror.
Context (put_workload : Payload -> outcome unit).    (* [put_function] of the Runtime API client *)

Definition inline_mirror : Py unit :=
  job <- get_self ;;
  if Workload.should_be_mirrored job then
    try_except
      (mirrored <- Workload.is_mirrored job ;;
       if mirrored : bool then
         payload <- Workload.build_workload_payload job ;;
         of_outcome (put_workload payload) ;;;
         modify (fun w => set_puts (puts w ++ [payload]) w)
       else ret tt)
      (fun _ => Some (ret tt))
  else ret tt.

(** The service of a stop: no billing message leaves the gateway. *)
Definition gateway_service : JobTransitionService := mk_service (fun _ => ret tt) inline_mirror.
End mirror.

(** ** Stopping a job *)

(** The Qiskit Runtime service: what each call answers or raises. *)
Record QiskitRuntime := mk_qiskit {
  open_service : Json -> outcome unit;             (* [QiskitRuntimeService] of the configuration, and its client *)
  runtime_job_found : string -> outcome bool;      (* [service.job(id)] *)
  cancel_session : string -> outcome unit;
  cancel_runtime_job : string -> outcome unit
}.

Record StopState := mk_stop { stopped_world : World; status_messages : list string; stopped_sessions : list string }.
Abbreviation Stop := (M StopState).

Definition on_world {A} (m : Py A) : Stop A :=
  fun s => let '(o, w) := m (stopped_world s) in (o, mk_stop w (status_messages s) (stopped_sessions s)).
Definition say (message : string) : Stop unit :=
  modify (fun s => mk_stop (stopped_world s) (status_messages s ++ [message]) (stopped_sessions s)).
Definition session_stopped (session : string) : Stop unit :=
  modify (fun s => mk_stop (stopped_world s) (status_messages s) (stopped_sessions s ++ [session])).

Section stop.
Context (lib : Libraries) (qiskit : QiskitRuntime) (runtime_jobs : list RuntimeJob).
Context (svc : JobTransitionService) (get_runner : Job -> outcome AbstractRunner) (is_active : AbstractRunner -> Py bool).

Definition CANCEL_ATTEMPTS : nat := 2.
Definition CANCEL_RETRY_BUDGET : Z := 5000000.

Definition cancel_one_session (session : string) : Stop unit :=
  done <- gets stopped_sessions ;;
  if bool_decide (session ∈ done) then ret tt
  else
    match cancel_session qiskit session with
    | Ok _ =>
        say ("Canceled runtime session: " +:+ session +:+ " and associated runtime jobs.") ;;;
        session_stopped session
    | Raise e => say ("Runtime session " +:+ session +:+ " could not be canceled. Exception: " +:+ exn_str e)
    end.

Definition cancel_one_job (runtime_job : string) : Stop unit :=
  match cancel_runtime_job qiskit runtime_job with
  | Ok _ => say ("Canceled runtime job [" +:+ runtime_job +:+ "].")
  | Raise e =>
      if isinstance e RuntimeInvalidStateError
      then say ("Runtime job " +:+ runtime_job +:+ " could not be canceled (invalid state).")
      else raise e
  end.

Definition cancel_entry (entry : RuntimeJob) : Stop unit :=
  found <- of_outcome (runtime_job_found qiskit (rj_runtime_job entry)) ;;
  if negb found then
    say ("Runtime job " +:+ rj_runtime_job entry +:+ " not found in runtime service. "
         +:+ "Check that credentials used to authenticate match.")
  else if truthy (rj_runtime_session entry) then cancel_one_session (default "" (rj_runtime_session entry))
  else cancel_one_job (rj_runtime_job entry).

Definition get_item (service : Json) (key : string) : outcome Json :=
  match service with
  | JObj fields =>
      match snd <$> list_find (fun kv => kv.1 = key) fields with
      | Some (_, v) => Ok v
      | None => Raise (mk_exn KeyError key)
      end
  | _ => Raise (mk_exn TypeError "object is not subscriptable")
  end.

Definition cancel_runtime_jobs (job_id : JobId) (service_str : option string) : Stop unit :=
  service <- (if truthy service_str then of_outcome (json_loads lib (default "" service_str)) else ret JNull) ;;
  let entries := filter (fun r => rj_job r = job_id) runtime_jobs in
  if negb (json_truthy service) then say "QiskitRuntimeService not found, cannot stop runtime jobs."
  else if bool_decide (length entries = 0%nat) then say "No active runtime job ID associated with this serverless job ID."
  else
    service_config <- of_outcome (get_item service "__value__") ;;
    of_outcome (open_service qiskit service_config) ;;;
    for_each entries (fun entry => cancel_entry entry ;;; ret true).

(** One attempt of [transitions.stop]: the runner made beforehand, or else one of the
    instance in hand, which may have adopted a fleet since. *)
Definition stop_attempt (made : option AbstractRunner) : Py JobStatus :=
  job <- get_self ;;
  stop svc (match made with Some r => r | None => lazy_runner (get_runner job) end) API STOP_JOB.

Definition try_stop_with_retries : Py unit :=
  job <- get_self ;;
  made <- (if truthy (fleet_id job) then r <- of_outcome (get_runner job) ;; ret (Some r) else ret None) ;;
  retry_function (fun e => isinstance e RunnerError) (Some CANCEL_RETRY_BUDGET) (stop_attempt made) CANCEL_ATTEMPTS ;;;
  ret tt.

(** [job.refresh_from_db(fields=["status"])]. *)
Definition refresh_status : Py unit :=
  w <- get ;;
  match jobs (db w) !! id (self w) with
  | Some row => modify_self (setattr (F_status (status row)))
  | None => raise DoesNotExist_error
  end.

(** The transition, and whether the answer goes on to the runtime jobs. *)
Definition stop_transition : Stop bool :=
  job <- on_world get_self ;;
  try_except
    (on_world (match runner job with
               | RAY => to_stopped API STOP_JOB [] ;;; ret tt
               | FLEETS => try_stop_with_retries
               end) ;;;
     ret true)
    (fun ex =>
       if isinstance ex RunnerRetryableError then
         Some (raise (engine_unavailable "Job could not be stopped right now, please retry."))
       else if isinstance ex RunnerError then
         Some (raise (engine_unavailable "Job could not be stopped. Please contact support."))
       else if isinstance ex InvalidJobTransitionException then
         Some (on_world refresh_status ;;;
               job <- on_world get_self ;;
               if bool_decide (status job ∈ [STOPPING; STOPPED]) then ret true
               else say "Job already in terminal state." ;;; ret false)
       else None).

Definition stop_ray_job_if_active : Stop unit :=
  job <- on_world get_self ;;
  r <- of_outcome (get_runner job) ;;
  active <- on_world (is_active r) ;;
  if active : bool then
    try_except
      (accepted <- on_world (runner_stop r) ;;
       say (if accepted : bool then "Serverless job stop has been requested."
            else "Serverless job was already stopping or no longer running."))
      (fun ex => if isinstance ex RunnerError then Some (say "Serverless job was not accessible.") else None)
  else ret tt.

(** The messages, joined by spaces: [" ".join(self.status_messages)]. *)
Definition answer : Stop string := messages <- gets status_messages ;; ret (join " " messages).

Definition stop_execute (job_id : JobId) (service_str : option string) (user : User) : Stop string :=
  job <- on_world (find_job can_stop user job_id) ;;
  modify (fun s => mk_stop (stopped_world s) [] []) ;;;
  if bool_decide (status job = STOPPING) then
    say "Job is already stopping." ;;;
    cancel_runtime_jobs (id job) service_str ;;;
    answer
  else if in_terminal_state job then
    say "Job already in terminal state." ;;;
    answer
  else
    go_on <- stop_transition ;;
    if negb go_on then answer
    else
      job <- on_world get_self ;;
      say (if bool_decide (status job = STOPPING) then "Job is stopping." else "Job has been stopped.") ;;;
      cancel_runtime_jobs (id job) service_str ;;;
      (if bool_decide (runner job = RAY) then stop_ray_job_if_active else ret tt) ;;;
      answer.

Definition stop_job (job_id : JobId) (service_str : option string) (user : User) : Py string :=
  fun w => let '(o, s) := stop_execute job_id service_str user (mk_stop w [] []) in (o, stopped_world s).
End stop.

(** ** The sub-status *)

(** The value of a status, as the row and the messages have it. *)
Definition status_str (s : JobStatus) : string :=
  match s with
  | PENDING => "PENDING"
  | RUNNING => "RUNNING"
  | STOPPING => "STOPPING"
  | STOPPED => "STOPPED"
  | SUCCEEDED => "SUCCEEDED"
  | FAILED => "FAILED"
  | QUEUED => "QUEUED"
  end.

Definition SetJobSubStatus (job_id : JobId) (user : User) (new : SubStatus) : Py Job :=
  job <- find_job can_update_sub_status user job_id ;;
  t <- now ;;
  d <- get_db ;;
  let active := match jobs d !! id job with Some row => bool_decide (status row ∈ ACTIVE_STATUSES) | None => false end in
  if active then
    modify_db (update_row (id job) (set_fields [F_sub_status (Some new); F_updated (Some t)])) ;;;
    (if bool_decide (sub_status job = Some new) then ret tt
     else
       modify_self (setattr (F_sub_status (Some new))) ;;;
       add_sub_status_event (id job) API SET_SUB_STATUS (Some new) ;;;
       ret tt) ;;;
    get_self
  else raise (invalid_access ("Cannot update 'sub_status' when is not in active status. (Currently "
                              +:+ status_str (status job) +:+ ")")).

(** ** Events *)

Record EventData := mk_event_data {
  ed_event_type : JobEventType;
  ed_exception : string;
  ed_code : string;
  ed_message : string;
  ed_args : string
}.

Definition CreateJobEvent (job_id : JobId) (user : User) (data : EventData) : Py unit :=
  job <- find_job can_create_events user job_id ;;
  if negb (bool_decide (status job ∈ ACTIVE_STATUSES)) then raise (invalid_access "You can create events on active jobs only")
  else if bool_decide (ed_event_type data = ERROR) then
    add_error_event job_id API SEND_ERROR (ed_code data) (ed_message data) (ed_exception data) (ed_args data) ;;; ret tt
  else ret tt.

Definition ListJobEvents (job_id : JobId) (user : User) (type_filter : option JobEventType) : Py (list JobEvent) :=
  find_job can_read_events user job_id ;;;
  d <- get_db ;;
  ret (get_job_events job_id type_filter d).

(** ** Qiskit Runtime jobs *)

Section runtime_jobs.
(** What the database answers to an insert it refuses: a primary key it has, or any other
    of its constraints. *)
Context (insert_error : RuntimeJob -> list RuntimeJob -> option string).

Definition AssociateRuntimeJobs (job_id : JobId) (runtime_job : string) (runtime_session : option string) (user : User)
    (rows : list RuntimeJob) : Py (string * list RuntimeJob) :=
  job <- find_job can_manage_runtime_jobs user job_id ;;
  let row := mk_runtime_job (id job) runtime_job runtime_session in
  match insert_error row rows with
  | Some error =>
      ret ("Failed to create RuntimeJob object [" +:+ runtime_job +:+ "] for job id [" +:+ job_id
           +:+ "]. Error: " +:+ error, rows)
  | None =>
      ret ("RuntimeJob object [" +:+ runtime_job +:+ "] created for serverless job id [" +:+ job_id +:+ "].",
           rows ++ [row])
  end.
End runtime_jobs.

Definition GetRuntimeJobs (job_id : JobId) (user : User) (rows : list RuntimeJob) : Py (list RuntimeJob) :=
  job <- find_job can_manage_runtime_jobs user job_id ;;
  ret (filter (fun r => rj_job r = id job) rows).
