(* ===== verification/JobUseCasesProps.v ===== *)
(** * Correctness of the gateway

    Whatever the gateway is asked, the database goes through the lifecycle of a job and
    nothing else; what a stop answers is true of the row it leaves. *)

From S2P Require Import Prelude PyStr Domain Models World JobEvents BillingEvents JobTransitions TransitionSpec Json ArgumentsSchema ValidateArguments Access RunFunction Retry Samples AccessProps RunFunctionProps JobUseCases.

Local Open Scope string_scope.
Local Open Scope list_scope.

(** ** Steps that leave every lifecycle alone *)

(** Rows change in other fields than the status, events are logged that say no status, the
    outbox is the same. *)
Definition quiet (d d' : DB) : Prop :=
  (forall j, Abs.job_status d' j = Abs.job_status d j)
  /\ (forall j, Abs.history d' j = Abs.history d j)
  /\ outbox d' = outbox d.

Lemma quiet_refines w w' : quiet (db w) (db w') -> refines w w'.
Proof.
  intros (Hs & Hh & Ho). exists []. apply Abs.exec_one, Abs.step_other; [by split|].
  unfold Abs.facts. by rewrite Ho.
Qed.

Lemma history_app_quiet d d' e :
  events d' = events d ++ [e] -> status_of_event e = None -> forall j, Abs.history d' j = Abs.history d j.
Proof.
  intros He Hs j. unfold Abs.history. rewrite He, status_history_app, status_history_one, Hs.
  destruct (of_job j e); apply app_nil_r.
Qed.

Lemma rel_refines_error_event j o c code message exception args :
  rel refines (add_error_event j o c code message exception args).
Proof.
  intros w. apply quiet_refines. unfold add_error_event. rewrite create_event_run. cbn [snd].
  split; [done|]. split; [|done]. by eapply history_app_quiet.
Qed.
Lemma rel_refines_sub_status_event j o c s : rel refines (add_sub_status_event j o c s).
Proof.
  intros w. apply quiet_refines. unfold add_sub_status_event. rewrite create_event_run. cbn [snd].
  split; [done|]. split; [|done]. by eapply history_app_quiet.
Qed.
Lemma rel_refines_update_row j fs :
  no_status fs = true -> rel refines (modify_db (update_row j (set_fields fs))).
Proof.
  intros Hfs w. apply quiet_refines. cbn. split; [|done]. intros i. unfold Abs.job_status, update_row. cbn.
  destruct (decide (i = j)) as [->|Hne]; [|by rewrite lookup_alter_ne].
  rewrite lookup_alter_eq. destruct (jobs (db w) !! j) as [row|]; [|done]. cbn. f_equal. by apply set_fields_status_other.
Qed.
#[export] Hint Resolve rel_refines_error_event rel_refines_sub_status_event rel_refines_update_row : pyrel.

Lemma rel_refines_find_job may user j : rel refines (find_job may user j).
Proof. apply rel_refines_same_db. unfold find_job. rel_auto. Qed.
Lemma rel_refines_get_self : rel refines get_self.
Proof. apply rel_gets. exact _. Qed.
Lemma rel_refines_get_db : rel refines get_db.
Proof. apply rel_gets. exact _. Qed.
Lemma rel_refines_put_self j : rel refines (put_self j).
Proof. by apply rel_refines_same_db. Qed.
Lemma rel_refines_modify_self f : rel refines (modify_self f).
Proof. by apply rel_refines_same_db. Qed.
Lemma rel_refines_now : rel refines now.
Proof. by apply rel_refines_same_db. Qed.
#[export] Hint Resolve rel_refines_find_job rel_refines_get_self rel_refines_get_db rel_refines_put_self
  rel_refines_modify_self rel_refines_now : pyrel.

(** ** Stopping *)

(** What the parts of a stop do: the database goes on, and messages are added to those there
    are. *)
Definition stop_later (s s' : StopState) : Prop :=
  refines (stopped_world s) (stopped_world s') /\ status_messages s `prefix_of` status_messages s'.
#[export] Instance stop_later_preorder : PreOrder stop_later.
Proof. split; [intros s; unfold stop_later; split; reflexivity|]. intros x y z [] []. split; by etransitivity. Qed.

Lemma rel_on_world {A} (m : Py A) : rel refines m -> rel stop_later (on_world m).
Proof.
  intros Hm s. unfold on_world, stop_later. specialize (Hm (stopped_world s)). by destruct (m (stopped_world s)).
Qed.
Lemma rel_say message : rel stop_later (say message).
Proof. intros s. split; [reflexivity|]. by eexists. Qed.
Lemma rel_session_stopped session : rel stop_later (session_stopped session).
Proof. intros s. split; reflexivity. Qed.
#[export] Hint Resolve rel_say rel_session_stopped : pyrel.

Lemma rel_refines_to_stopped o c : rel refines (to_stopped o c []).
Proof. apply to_stopped_or_failed_refines; [set_solver|done]. Qed.
Lemma rel_refines_to_failed o c : rel refines (to_failed o c []).
Proof. apply to_stopped_or_failed_refines; [set_solver|done]. Qed.
#[export] Hint Resolve rel_refines_to_stopped rel_refines_to_failed : pyrel.

Section stop.
Context (lib : Libraries) (qiskit : QiskitRuntime) (runtime_jobs : list RuntimeJob).
Context (svc : JobTransitionService) `{!ServiceLaws svc}.
Context (get_runner : Job -> outcome AbstractRunner) (is_active : AbstractRunner -> Py bool).
Hypothesis runner_laws : forall job r, get_runner job = Ok r -> RunnerLaws r.
Hypothesis is_active_reads : forall r, rel same_db (is_active r).

Lemma rel_cancel_runtime_jobs job_id service_str :
  rel stop_later (cancel_runtime_jobs lib qiskit runtime_jobs job_id service_str).
Proof.
  unfold cancel_runtime_jobs. rel_step; [rel_auto|]. rel_auto.
  all: unfold cancel_entry, cancel_one_session, cancel_one_job; rel_auto.
Qed.

Lemma rel_stop_attempt made :
  (forall r, made = Some r -> RunnerLaws r) -> rel refines (stop_attempt svc get_runner made).
Proof.
  intros Hm. unfold stop_attempt. rel_step; [rel_auto|]. apply stop_refines'; [done|].
  destruct made as [r|]; [by apply Hm|apply lazy_runner_laws, runner_laws].
Qed.

Lemma rel_try_stop : rel refines (try_stop_with_retries svc get_runner).
Proof.
  unfold try_stop_with_retries. rel_step; [rel_auto|]. rename a into job. intros w.
  set (made_by := if truthy _ then _ else _).
  assert (rel refines made_by) as Hrel by (unfold made_by; rel_auto).
  apply (rel_bind_at refines); [apply Hrel|]. intros made w' Hmade _.
  assert (forall r, made = Some r -> RunnerLaws r) as Hlaws.
  { intros r ->. unfold made_by in Hmade. destruct (truthy _); [|done].
    apply bind_ok_inv in Hmade as (r' & w1 & Hr & [= -> _]).
    apply (runner_laws job). by destruct (get_runner job); [injection Hr as ->|]. }
  apply (rel_bind refines); [|intros; rel_auto].
  apply (rel_retry _ _ _ refines); [apply rel_refines_same_db; rel_auto|by apply rel_stop_attempt].
Qed.

Lemma same_db_refresh_status : rel same_db refresh_status.
Proof. unfold refresh_status. rel_auto. Qed.

Hint Resolve rel_try_stop rel_on_world rel_cancel_runtime_jobs : pyrel.

Lemma rel_stop_transition : rel stop_later (stop_transition svc get_runner).
Proof.
  unfold stop_transition. rel_auto; apply rel_on_world; [rel_auto|]. apply rel_refines_same_db, same_db_refresh_status.
Qed.

Lemma rel_stop_ray : rel stop_later (stop_ray_job_if_active get_runner is_active).
Proof.
  unfold stop_ray_job_if_active. rel_step; [auto with pyrel|]. rel_step. pose proof (runner_laws a a0 H) as Hr.
  rel_step; [apply rel_on_world, rel_refines_same_db, is_active_reads|]. rel_auto. apply rel_on_world, stop_refines.
Qed.

Definition stop_refined (s s' : StopState) : Prop := refines (stopped_world s) (stopped_world s').
#[local] Instance stop_refined_preorder : PreOrder stop_refined.
Proof. split; [intros s; unfold stop_refined; reflexivity|]. intros x y z Hxy Hyz. unfold stop_refined. by etransitivity. Qed.

Lemma rel_stop_execute job_id service_str user :
  rel stop_refined (stop_execute lib qiskit runtime_jobs svc get_runner is_active job_id service_str user).
Proof.
  assert (forall A (m : Stop A), rel stop_later m -> rel stop_refined m) as Hmono
    by (intros A m; apply rel_mono; by intros ? ? []).
  unfold stop_execute. apply (rel_bind stop_refined); [apply Hmono, rel_on_world; auto with pyrel|]. intros job.
  apply (rel_bind stop_refined); [intros s; unfold stop_refined; reflexivity|]. intros _. apply Hmono.
  pose proof rel_stop_transition. pose proof rel_stop_ray. rel_auto; unfold answer; rel_auto.
Qed.

Lemma rel_stop_job job_id service_str user :
  rel refines (stop_job lib qiskit runtime_jobs svc get_runner is_active job_id service_str user).
Proof.
  intros w. unfold stop_job. pose proof (rel_stop_execute job_id service_str user (mk_stop w [] [])) as H.
  by destruct (stop_execute _ _ _ _ _ _ _ _ _ _).
Qed.
End stop.

(** ** The other requests *)

Lemma rel_set_sub_status job_id user new : rel refines (SetJobSubStatus job_id user new).
Proof. unfold SetJobSubStatus. rel_auto. Qed.

Lemma rel_create_job_event job_id user data : rel refines (CreateJobEvent job_id user data).
Proof. unfold CreateJobEvent. rel_auto. Qed.

Section run.
Context (c : Catalog) (sys : System) (lib : Libraries) (settings : Settings) (services : Services) (uuid4 : JobId).

Lemma rel_fail_job e : rel refines (fail_job lib e).
Proof. unfold fail_job.  rel_auto. Qed.

Lemma rel_mirror_new_job : rel refines (mirror_new_job lib services).
Proof.
  assert (forall j, rel refines (Workload.build_workload_payload j)) as Hpay
    by (intros; apply rel_refines_same_db; unfold Workload.build_workload_payload; rel_auto).
  assert (forall j, rel refines (Workload.mirror_enabled_for j)) as Hen
    by (intros; apply rel_refines_same_db; unfold Workload.mirror_enabled_for; rel_auto).
  assert (forall f, rel refines (modify (fun w => set_puts (f w) w))) as Hputs by (intros; by apply rel_refines_same_db).
  assert (forall f, rel refines (modify_db (fun d => set_mirrors (f d) d))) as Hmirrors by (intros f w; by apply quiet_refines).
  pose proof rel_fail_job. unfold mirror_new_job, mirror_put. rel_auto.
Qed.

(** The transaction of a run starts the lifecycle of its job. *)
Lemma create_job_refines has_config job w :
  fresh uuid4 (db w) -> (forall t, id (job t) = uuid4 /\ status (job t) = QUEUED) ->
  refines w (snd (create_job lib services has_config job w)).
Proof.
  intros Hfresh Hjob. unfold create_job.
  enough (forall m : Py (option exn), refines w (snd (m w)) -> refines w (snd (atomic m w))) as Hatomic.
  2:{ intros m Hm. unfold atomic. destruct (m w) as [[a|e] w'] eqn:E; [done|]. by apply refines_same_db. }
  apply Hatomic, (rel_bind_from refines); [by destruct (if has_config then _ else _)|]. intros [] w0 Hw0 _.
  apply outcome_inv in Hw0 as [_ ->]. unfold bind at 1, now. set (t := wall w (ticks w)).
  unfold bind at 1, save_new_job, bind at 1, modify_db, modify, put_self, modify. cbv beta iota.
  unfold bind at 1, add_status_event. rewrite create_event_run. cbn zeta iota beta.
  etransitivity; [|apply rel_mirror_new_job]. destruct (Hjob t) as [Hid Hq].
  exists []. apply Abs.exec_one. pose proof (fresh_history _ _ Hfresh) as Hh. destruct Hfresh as [Hno _].
  unfold Abs.history in Hh.
  eapply (Abs.step_create _ _ uuid4); unfold Abs.job_status, Abs.history; cbn [db set_db set_ticks set_self jobs events set_jobs set_events].
  - by rewrite Hno.
  - exact Hh.
  - by rewrite Hid, lookup_insert_eq, <- Hq.
  - rewrite status_history_app, status_history_one, Hh.
    unfold of_job, status_of_event. cbn. rewrite Hid, bool_decide_eq_true_2 by done. cbn. by rewrite Hq.
  - intros j Hj. split; unfold Abs.job_status, Abs.history; cbn [db set_db set_ticks set_self jobs events set_jobs set_events]; [by rewrite Hid, lookup_insert_ne|].
    rewrite status_history_app, status_history_one. unfold of_job. cbn.
    rewrite Hid, bool_decide_eq_false_2 by done. apply app_nil_r.
  - done.
Qed.

Lemma execute_refines user a data s :
  fresh uuid4 (database s) ->
  refines (process s) (process (snd (execute c sys lib settings services uuid4 user a data s))).
Proof.
  intros Hfresh. unfold execute. unfold bind at 1, in_process.
  pose proof (same_db_prepare c sys lib settings user a data (process s)) as Hdb.
  destruct (prepare _ _ _ _ _ _ _ (process s)) as [[[[f [bm trial_mode]] rc]|e] w1]; cbn in Hdb;
    (assert (refines (process s) w1) as Href by by apply refines_same_db); [|done].
  set (job := new_job _ _ _ _ _ _ _).
  assert (forall {A} (o : outcome A) (k : A -> M Web Job) s1,
    process s1 = w1 -> (forall x, refines (process s) (process (snd (k x s1)))) ->
    refines (process s) (process (snd (bind (of_outcome o) k s1)))) as Hstep
    by (intros A [x|e] k s1 Hs Hk; [apply Hk|cbn; by rewrite Hs]).
  do 3 (apply Hstep; [done|]; intros ?). clear Hstep.
  unfold bind at 1, set_arguments, modify. cbv beta iota. cbn [process arguments_stored].
  unfold bind at 1, try_except, in_process. cbn [process arguments_stored].
  pose proof (create_job_refines (r_has_config data) (job x) w1) as H.
  rewrite Hdb in H. specialize (H Hfresh ltac:(done)).
  assert (refines (process s) (snd (create_job lib services (r_has_config data) (job x) w1))) as Hend by by etransitivity.
  destruct (create_job lib services (r_has_config data) (job x) w1) as [[[e|]|e] w2]; cbn; try done.
  unfold delete_arguments. by destruct (storage_delete services).
Qed.
End run.

(** ** The gateway *)

#[export] Instance gateway_service_laws put : ServiceLaws (gateway_service put).
Proof.
  split; [intros p; apply rel_ret; exact _|]. cbn. unfold inline_mirror.
  assert (forall j, rel same_db (Workload.is_mirrored j)) by (intros; unfold Workload.is_mirrored; rel_auto).
  assert (forall j, rel same_db (Workload.build_workload_payload j)) by (intros; unfold Workload.build_workload_payload; rel_auto).
  assert (forall f, rel same_db (modify (fun w => set_puts (f w) w))) by done.
  rel_auto.
Qed.

(** A request the gateway serves, each with whatever the world answers it: the catalogue of
    functions, the cipher, the storages, the Runtime API, Code Engine. [request_other] is a
    request that changes no job, the passing of time, and a write of the catalogue. *)
Inductive request : World -> World -> Prop :=
  | request_run c sys lib settings services uuid4 user a data args w :
      fresh uuid4 (db w) ->
      request w (process (snd (execute c sys lib settings services uuid4 user a data (mk_web w args))))
  | request_stop lib qiskit runtime_jobs put get_runner is_active job_id service_str user w :
      (forall job r, get_runner job = Ok r -> RunnerLaws r) ->
      (forall r, rel same_db (is_active r)) ->
      request w (snd (stop_job lib qiskit runtime_jobs (gateway_service put) get_runner is_active job_id service_str user w))
  | request_sub_status job_id user new w : request w (snd (SetJobSubStatus job_id user new w))
  | request_event job_id user data w : request w (snd (CreateJobEvent job_id user data w))
  | request_other w w' : same_db w w' -> request w w'.

Lemma request_refines w w' : request w w' -> refines w w'.
Proof.
  destruct 1 as [c sys lib settings services uuid4 user a data args w Hfresh| | | |].
  - apply (execute_refines c sys lib settings services uuid4 user a data (mk_web w args) Hfresh).
  - apply rel_stop_job; [exact _|done|done].
  - apply rel_set_sub_status.
  - apply rel_create_job_event.
  - by apply refines_same_db.
Qed.

(** C23: any sequence of requests to the gateway, runs, stops, sub-statuses and events,
    whatever each raises and whatever the services behind it do, is an execution of the
    abstract lifecycle: every job goes through valid transitions from QUEUED, its log says
    which, no message is enqueued twice, and a job that has ended stays as it is. *)
Theorem gateway_refines w w' :
  rtc request w w' -> Abs.log_ok (db w) -> Abs.outbox_ok (db w) ->
  (exists T, Abs.exec T (db w) (db w') /\ NoDup T)
  /\ Abs.log_ok (db w') /\ Abs.outbox_ok (db w')
  /\ forall j, Abs.terminal (db w) j -> Abs.same_job (db w) (db w') j.
Proof.
  intros Hsteps Hlog Hout.
  assert (refines w w') as [T HT].
  { clear Hlog Hout. induction Hsteps as [|x y z Hxy _ IH]; [reflexivity|].
    etransitivity; [by eapply request_refines|exact IH]. }
  split; [|split; [by eapply Abs.exec_log_ok|split; [by eapply Abs.exec_outbox_ok|]]].
  - exists T. split; [done|]. by eapply Abs.exec_NoDup.
  - intros j Hj. by eapply Abs.exec_terminal.
Qed.

(** ** What a stop answers *)

(** The job [j] is stopping or has ended: it stays so. *)
Definition closing (j : JobId) (d : DB) : Prop :=
  exists s, Abs.job_status d j = Some s /\ (s = STOPPING \/ s ∈ TERMINAL_STATUSES).

Lemma refines_terminal w w' j : refines w w' -> Abs.terminal (db w) j -> Abs.same_job (db w) (db w') j.
Proof. intros [T HT] Hj. by eapply Abs.exec_terminal. Qed.

Lemma refines_closing w w' j : refines w w' -> closing j (db w) -> closing j (db w').
Proof.
  intros [T HT]. generalize dependent (db w). generalize (db w'). clear w w'. intros d' d HT.
  induction HT as [|T T' d d1 d' Hstep HT IH]; [done|]. intros (s & Hs & Hc). apply IH. clear IH HT.
  destruct Hstep as [d d1 Hsame _|d d1 j' Hn _ _ _ Hsame _|d d1 j' s1 s2 chans Hj' Hv Hs2 _ Hsame _ _ _].
  - exists s. by rewrite (proj1 (Hsame j)).
  - exists s. by rewrite (proj1 (Hsame j ltac:(congruence))).
  - destruct (decide (j = j')) as [->|Hne]; [|exists s; by rewrite (proj1 (Hsame j Hne))].
    exists s2. split; [done|]. rewrite Hs in Hj'. injection Hj' as ->.
    destruct Hc as [->|Ht]; [right; exact Hv|]. by destruct (Abs.terminal_no_exit _ s2 Ht).
Qed.

Lemma refused_closing (row s : JobStatus) :
  s ∈ [STOPPING; STOPPED] -> s ∉ VALID_TRANSITIONS row -> row = STOPPING \/ row ∈ TERMINAL_STATUSES.
Proof. intros [->| ->%list_elem_of_singleton]%elem_of_cons; destruct row; cbn; set_solver. Qed.

(** What a runner is asked to cancel knows nothing of the transitions, and works on the job
    in hand. *)
Class StopLaws (r : AbstractRunner) : Prop := {
  stop_laws_runner :: RunnerLaws r;
  stop_same_id : rel (fun w w' => id (self w') = id (self w)) (runner_stop r);
  stop_raises : raising (fun e => isinstance e InvalidJobTransitionException = false) (runner_stop r)
}.
#[export] Instance lazy_runner_stop_laws (r : AbstractRunner) : StopLaws r -> StopLaws (lazy_runner (Ok r)).
Proof. intros [Hr Hi He]. split; [by apply lazy_runner_laws; intros ? [= <-]|exact Hi|exact He]. Qed.


(** The two ways out of a change of status: the instance has the status the row has, or, when
    the transition was refused, the row is stopping or has ended. *)
Definition stopped_as (j : JobId) (w : World) : Prop :=
  id (self w) = j /\ Abs.job_status (db w) j = Some (status (self w)) /\ status (self w) ∈ [STOPPING; STOPPED].
Definition refused (j : JobId) (d : DB) (e : exn) (w : World) : Prop :=
  id (self w) = j /\ (isinstance e InvalidJobTransitionException = true -> closing j d).
Definition refused_now (j : JobId) (e : exn) (w : World) : Prop := refused j (db w) e w.

Lemma change_status_wp new o c w j (Q : JobEvent -> World -> Prop) :
  id (self w) = j -> new ∈ [STOPPING; STOPPED] ->
  (forall e w', stopped_as j w' -> status (self w') = new -> Q e w') ->
  wp (change_status new o c []) Q (refused j (db w)) w.
Proof.
  intros Hid Hnew HQ. unfold wp. destruct (jobs (db w) !! id (self w)) as [row|] eqn:Hrow.
  - destruct (decide (new ∈ VALID_TRANSITIONS (status row))) as [Hv|Hv].
    + rewrite (change_status_ok _ _ _ _ _ _ Hrow Hv). destruct (transitioned_view new o c [] w row eq_refl) as (Hs & _).
      assert (status (self (transitioned new o c [] w row)) = new) as Hself by done.
      apply HQ; [|done]. split; [by rewrite transitioned_id|]. by rewrite Hself, <- Hid.
    + rewrite (change_status_invalid _ _ _ _ _ _ Hrow Hv). split; [done|]. intros _. exists (status row).
      split; [unfold Abs.job_status; by rewrite <- Hid, Hrow|by eapply refused_closing].
  - by rewrite change_status_missing.
Qed.

Lemma wp_atomic {A} (m : Py A) (Q : A -> World -> Prop) j w :
  wp m Q (refused j (db w)) w -> wp (atomic m) Q (refused_now j) w.
Proof. unfold wp, atomic. by destruct (m w) as [[a|e] w']. Qed.

Lemma adds_wp {A} chans (m : Py A) j d w :
  adds chans m -> raising (fun e => isinstance e InvalidJobTransitionException = false) m -> stopped_as j w ->
  wp m (fun _ w' => self w' = self w /\ stopped_as j w') (refused j d) w.
Proof.
  intros Ha Hr (Hid & Hs & Hin). specialize (Ha w) as (rows & Hj & _ & Hself & _). specialize (Hr w).
  unfold wp in *. destruct (m w) as [[a|e] w']; cbn [snd] in *.
  - split; [done|]. split; [by rewrite Hself|]. unfold Abs.job_status in *. by rewrite Hj, Hself.
  - split; [by rewrite Hself|]. by rewrite Hr.
Qed.

Lemma raising_now (P : exn -> Prop) : raising P now.
Proof. by intros w. Qed.
Lemma raising_billing_name v :
  raising (S := World) (fun e => isinstance e InvalidJobTransitionException = false) (of_outcome (BusinessModel.billing_name_for v)).
Proof. intros w. apply wp_of_outcome; [done|]. unfold BusinessModel.billing_name_for. intros e. repeat case_match; by intros [= <-]. Qed.
#[local] Hint Resolve raising_now raising_billing_name : pyraise.

Lemma raising_billing (fee : option Z -> Job -> bool) (e : JobEvent) :
  raising (fun e => isinstance e InvalidJobTransitionException = false)
    (job <- get_self ;;
     (if is_usage_billable job then
        job_started_at <- gets (fun w => first_running_at (id job) (db w)) ;;
        enqueue_job_usage job_started_at (event_created e) ;;;
        if fee job_started_at job then enqueue_license_fee job_started_at else ret tt
      else ret tt) ;;;
     enqueue_workload ;;;
     ret e).
Proof.
  unfold enqueue_job_usage, enqueue_license_fee, enqueue_workload.
  unfold BillingEvents.build_job_completed_event, BillingEvents.build_license_fee, BillingEvents.envelope,
    Workload.build_workload_payload, create_outbox, Workload.is_mirrored, attr. raising_auto.
Qed.

Lemma to_stopped_wp o c w j :
  id (self w) = j ->
  wp (to_stopped o c []) (fun _ w' => stopped_as j w' /\ status (self w') = STOPPED) (refused_now j) w.
Proof.
  intros Hid. apply wp_atomic, wp_bind, change_status_wp; [done|set_solver|]. intros e w1 Hw1 Hs1.
  pose (fee := fun (t : option Z) job => bool_decide (is_Some t) && is_fee_billable job).
  eapply wp_mono; [apply (adds_wp _ _ j (db w) w1 (adds_billing fee e) (raising_billing fee e) Hw1)| |done].
  intros _ w' [Hself Hw']. split; [done|]. by rewrite Hself.
Qed.

Section stop_wp.
Context (put : Payload -> outcome unit).
Let svc := gateway_service put.

Lemma same_self_mirror : rel same_self (workload_mirror svc).
Proof.
  cbn. unfold inline_mirror.
  assert (forall j, rel same_self (Workload.is_mirrored j)) by (intros; unfold Workload.is_mirrored; rel_auto).
  assert (forall f, rel same_self (modify (fun w => set_puts (f w) w))) by done.
  pose proof same_self_workload. rel_auto.
Qed.

Lemma stopped_as_same j w w' : same_db w w' -> same_self w w' -> stopped_as j w -> stopped_as j w'.
Proof. unfold same_db, same_self, stopped_as. by intros -> ->. Qed.

Lemma same_id_refl : PreOrder (fun w w' : World => id (self w') = id (self w)).
Proof. split; [by intros ?|]. intros x y z Hxy Hyz. congruence. Qed.

Lemma stop_wp r w j :
  StopLaws r -> id (self w) = j ->
  wp (stop svc r API STOP_JOB) (fun s w' => stopped_as j w' /\ status (self w') = s) (refused_now j) w.
Proof.
  intros Hr Hid. unfold stop. apply wp_bind. change (wp get_self ?Q ?E w) with (Q (self w) w). cbv beta.
  destruct (negb _); [by split|]. apply wp_bind.
  set (cancel := if truthy _ then _ else _).
  assert (rel (fun w w' => id (self w') = id (self w)) cancel
          /\ raising (fun e => isinstance e InvalidJobTransitionException = false) cancel) as [Hi He].
  { unfold cancel. destruct (truthy _); [split; [apply stop_same_id|apply stop_raises]|split; [by intros ?|done]]. }
  eapply wp_mono; [apply (wp_and _ _ _ _ _ _ (wp_rel _ _ w Hi) (He w))| |].
  2:{ intros e w' [Hw' Hn]. split; [congruence|]. by rewrite Hn. }
  intros answer w1 [Hw1 _]. rewrite Hid in Hw1.
  assert (forall s w2, stopped_as j w2 -> status (self w2) = s ->
            wp (workload_mirror svc ;;; ret s) (fun s w' => stopped_as j w' /\ status (self w') = s) (refused_now j) w2) as Hmirror.
  { intros s w2 H2 Hs2. apply wp_bind.
    eapply wp_mono; [apply (wp_and _ _ _ _ _ _ (wp_rel _ _ w2 mirror_same_db) (wp_rel _ _ w2 same_self_mirror))| |].
    - intros _ w' [Hd Hs]. split; [by eapply stopped_as_same|]. by rewrite Hs.
    - intros e w' [Hd Hs]. split; [rewrite Hs; by destruct H2|]. intros _. destruct H2 as (_ & H2 & Hin). rewrite Hd.
      exists (status (self w2)). split; [done|]. apply elem_of_cons in Hin. set_solver. }
  destruct answer; apply wp_bind, wp_atomic.
  - apply change_status_wp; [done|set_solver|]. intros _ w2 H2 Hs2. by apply Hmirror.
  - apply wp_bind. change (wp get ?Q ?E w1) with (Q w1 w1). cbv beta.
    destruct (jobs (db w1) !! id (self w1)) as [row|]; [|by split].
    destruct (bool_decide _); [|by split].
    apply wp_bind, change_status_wp; [done|set_solver|]. intros _ w2 H2 Hs2.
    eapply wp_mono; [eapply (adds_wp _ _ j (db w1) w2 adds_enqueue_workload); [|exact H2]| |done].
    + unfold enqueue_workload, Workload.build_workload_payload, create_outbox, Workload.is_mirrored. raising_auto.
    + intros _ w' [Hself H']. split; [done|]. by rewrite Hself.
Qed.

(** ** The whole request *)

Context (lib : Libraries) (qiskit : QiskitRuntime) (runtime_jobs : list RuntimeJob).
Context (get_runner : Job -> outcome AbstractRunner) (is_active : AbstractRunner -> Py bool).
Hypothesis runner_laws : forall job r, get_runner job = Ok r -> StopLaws r.
Hypothesis runner_refused : forall job e, get_runner job = Raise e -> isinstance e InvalidJobTransitionException = false.

Lemma stop_attempt_wp made w j :
  (forall r, made = Some r -> StopLaws r) -> id (self w) = j ->
  wp (stop_attempt svc get_runner made) (fun s w' => stopped_as j w' /\ status (self w') = s) (refused_now j) w.
Proof.
  intros Hm Hid. unfold stop_attempt. apply wp_bind. change (wp get_self ?Q ?E w) with (Q (self w) w). cbv beta.
  apply stop_wp; [|done]. destruct made as [r|]; [by apply Hm|].
  destruct (get_runner (self w)) as [r|e] eqn:Hr; [apply lazy_runner_stop_laws; by eapply runner_laws|].
  split; [by split; apply rel_raise; exact _|by intros ?|]. by apply raising_raise, (runner_refused (self w)).
Qed.

Lemma try_stop_wp w j :
  id (self w) = j ->
  wp (try_stop_with_retries svc get_runner) (fun _ => stopped_as j) (refused_now j) w.
Proof.
  intros Hid. unfold try_stop_with_retries. apply wp_bind. change (wp get_self ?Q ?E w) with (Q (self w) w). cbv beta.
  apply wp_bind. set (made := if truthy _ then _ else _).
  assert (wp made (fun o w' => w' = w /\ forall r, o = Some r -> StopLaws r) (refused_now j) w) as Hmade.
  { unfold made. destruct (truthy _); [|by split]. apply wp_bind, wp_of_outcome.
    - intros r Hr. split; [done|]. intros r' [= <-]. by eapply runner_laws.
    - intros e He. split; [done|]. by rewrite (runner_refused _ _ He). }
  eapply wp_mono; [exact Hmade| |done]. intros o w1 [-> Ho]. apply wp_bind.
  eapply wp_mono; [apply (retry_wp _ _ _ (fun w => id (self w) = j) (fun s w' => stopped_as j w' /\ status (self w') = s) (refused_now j))| |done]; [|by intros e w2 [? _]|done|done|].
  - intros w2 Hw2. apply stop_attempt_wp; [exact Ho|exact Hw2].
  - intros x w2 (s & _ & H2 & _). exact H2.
Qed.

Lemma wp_on_world {A} (m : Py A) (Q : A -> StopState -> Prop) E s :
  let back w := mk_stop w (status_messages s) (stopped_sessions s) in
  wp m (fun a w => Q a (back w)) (fun e w => E e (back w)) (stopped_world s) -> wp (on_world m) Q E s.
Proof. intros back. unfold wp, on_world. by destruct (m (stopped_world s)) as [[a|e] w]. Qed.

Definition ENDED : string := "Job already in terminal state.".

Lemma stop_transition_wp s j :
  id (self (stopped_world s)) = j ->
  wp (stop_transition svc get_runner)
    (fun go_on s' =>
       if go_on : bool then status_messages s' = status_messages s /\ stopped_as j (stopped_world s')
       else status_messages s' = status_messages s ++ [ENDED] /\ Abs.terminal (db (stopped_world s')) j)
    (fun _ _ => True) s.
Proof.
  intros Hid. unfold stop_transition. apply wp_bind, wp_on_world. change (wp get_self ?Q ?E ?w) with (Q (self w) w). cbv beta zeta.
  apply wp_try_except, wp_bind, wp_on_world. cbv zeta. cbn [stopped_world status_messages stopped_sessions].
  assert (wp (match runner (self (stopped_world s)) with
              | RAY => to_stopped API STOP_JOB [] ;;; ret tt
              | FLEETS => try_stop_with_retries svc get_runner end)
            (fun _ => stopped_as j) (refused_now j) (stopped_world s)) as H.
  { destruct (runner _); [|by apply try_stop_wp]. apply wp_bind. eapply wp_mono; [by apply to_stopped_wp|by intros a w' [? _]|done]. }
  eapply wp_mono; [exact H|done|]. clear H. intros e w' [Hid' Hclosing].
  destruct (isinstance e RunnerRetryableError); [done|]. destruct (isinstance e RunnerError); [done|].
  destruct (isinstance e InvalidJobTransitionException); [|done]. specialize (Hclosing eq_refl).
  apply wp_bind, wp_on_world. cbv zeta. cbn [stopped_world status_messages stopped_sessions].
  destruct Hclosing as (st & Hst & Hend). unfold Abs.job_status in Hst. destruct (jobs (db w') !! j) as [row|] eqn:Hrow; [|done].
  injection Hst as Hst. unfold wp at 1, refresh_status. unfold bind at 1, get. rewrite Hid', Hrow. unfold modify_self, modify.
  set (w2 := set_self _ w'). apply wp_bind, wp_on_world.
  change (wp get_self ?Q ?E ?w) with (Q (self w) w). cbv beta zeta. cbn [stopped_world status_messages stopped_sessions].
  change (status (self w2)) with (status row). case_bool_decide as Hin.
  all: assert (Abs.job_status (db w2) j = Some (status row)) as Hrow2
    by (unfold Abs.job_status; change (db w2) with (db w'); by rewrite Hrow).
  - by split.
  - apply wp_bind. split; [done|]. exists (status row). split; [exact Hrow2|].
    rewrite Hst in *. destruct Hend as [->|Hend]; [set_solver|done].
Qed.

(** [k] goes on and answers with the messages so far. *)
Definition answers (k : Stop string) : Prop :=
  forall s, wp k (fun a s' => a = join " " (status_messages s') /\ stop_later s s') (fun _ _ => True) s.

Lemma answers_answer : answers answer.
Proof. intros s. by split. Qed.
Lemma answers_bind {A} (m : Stop A) k : rel stop_later m -> answers k -> answers (m ;;; k).
Proof.
  intros Hm Hk s. apply wp_bind. eapply wp_mono; [exact (wp_rel _ _ s Hm)| |done].
  intros x s1 H1. eapply wp_mono; [apply Hk| |done]. intros a s2 [Ha H2]. split; [done|]. etransitivity; [exact H1|exact H2].
Qed.

(** What an answer says, by its first message. *)
Definition told (j : JobId) (before : JobStatus) (d : DB) (first : string) : Prop :=
  (first = "Job is already stopping." /\ before = STOPPING /\ closing j d)
  \/ (first = ENDED /\ Abs.terminal d j)
  \/ (first = "Job is stopping." /\ closing j d)
  \/ (first = "Job has been stopped." /\ Abs.job_status d j = Some STOPPED).

Lemma told_later j before first s s' :
  stop_later s s' -> status_messages s = [first] -> told j before (db (stopped_world s)) first ->
  told j before (db (stopped_world s')) first /\ exists rest, status_messages s' = first :: rest.
Proof.
  intros [Href [rest Hrest]] Hm Ht. rewrite Hm in Hrest. split; [|by exists rest].
  destruct Ht as [(? & ? & Hc)|[[? Hc]|[[? Hc]|[? Hc]]]]; [left|right; left|right; right; left|right; right; right].
  - split; [done|]. split; [done|]. by eapply refines_closing.
  - split; [done|]. eapply Abs.terminal_same; [|exact Hc]. by eapply refines_terminal.
  - split; [done|]. by eapply refines_closing.
  - split; [done|]. rewrite <- Hc. apply (refines_terminal _ _ _ Href). exists STOPPED. split; [done|set_solver].
Qed.

Hypothesis is_active_reads : forall r, rel same_db (is_active r).

Lemma stop_execute_wp job_id service_str user w job :
  jobs (db w) !! job_id = Some job -> id job = job_id -> can_stop user job = true ->
  wp (stop_execute lib qiskit runtime_jobs svc get_runner is_active job_id service_str user)
    (fun a s' => exists first rest, a = join " " (first :: rest)
       /\ told job_id (status job) (db (stopped_world s')) first)
    (fun _ _ => True) (mk_stop w [] []).
Proof.
  intros Hrow Hid Hcan. unfold stop_execute. apply wp_bind, wp_on_world. cbv zeta. cbn [stopped_world].
  unfold wp at 1, find_job. unfold bind at 1, get_db, gets. rewrite Hrow. unfold bind at 1, put_self, modify. rewrite Hcan.
  unfold ret at 1. cbn [status_messages stopped_sessions]. apply wp_bind.
  unfold wp at 1. cbn [stopped_world].
  set (s1 := mk_stop (set_self job w) [] []). rewrite Hid.
  assert (forall first s, status_messages s = [first] -> told job_id (status job) (db (stopped_world s)) first ->
    forall k, answers k ->
    wp k (fun a s' => exists first rest, a = join " " (first :: rest)
       /\ told job_id (status job) (db (stopped_world s')) first) (fun _ _ => True) s) as Hend.
  { intros first s Hm Ht k Hk. eapply wp_mono; [apply Hk| |done].
    intros a s' [-> Hlater]. edestruct told_later as [Ht' [rest ->]]; [done..|]. by exists first, rest. }
  assert (Abs.job_status (db (stopped_world s1)) job_id = Some (status job)) as Hst1
    by (unfold Abs.job_status; cbn; by rewrite Hrow).
  assert (answers answer) as Hanswer by apply answers_answer.
  assert (answers (cancel_runtime_jobs lib qiskit runtime_jobs job_id service_str ;;; answer)) as Hcancel
    by (apply answers_bind; [apply rel_cancel_runtime_jobs|done]).
  case_bool_decide as Hstopping; [|destruct (in_terminal_state job) eqn:Hterm].
  - apply wp_bind. eapply Hend; [done| |done]. left. split; [done|]. split; [done|]. exists STOPPING. rewrite <- Hstopping.
    split; [done|by left].
  - apply wp_bind. eapply Hend; [done| |done]. right. left. split; [done|]. apply bool_decide_eq_true in Hterm. by eexists.
  - apply wp_bind. eapply wp_mono; [by apply (stop_transition_wp s1 job_id)| |done].
    intros [] s2 [Hm2 H2]; cbn [negb].
    + apply wp_bind, wp_on_world. change (wp get_self ?Q ?E ?w) with (Q (self w) w). cbv beta zeta. cbn [stopped_world status_messages].
      destruct H2 as (Hid2 & Hst2 & Hin). apply wp_bind.
      set (first := if bool_decide _ then "Job is stopping." else _).
      eapply (Hend first); [cbn; by rewrite Hm2| |].
      * right. right. unfold first. case_bool_decide as Hs2; [left|right].
        -- split; [done|]. exists STOPPING. rewrite <- Hs2. split; [done|by left].
        -- split; [done|]. cbn. rewrite Hst2. f_equal. set_solver.
      * clearbody first. rewrite Hid2. apply answers_bind; [apply rel_cancel_runtime_jobs|]. apply answers_bind; [|done].
        destruct (bool_decide _); [|rel_auto]. apply rel_stop_ray; [|done]. intros job' r Hr.
        pose proof (runner_laws job' r Hr). exact _.
    + apply (Hend ENDED s2 Hm2); [right; left; done|done].
Qed.

(** a stop answers the truth: there is no such job for who may not stop it, and nothing
    happens; otherwise the first message of the answer says whether the job was stopping
    already, had ended, is stopping or has been stopped, and the row bears it out, whoever
    wrote it in between. *)
Theorem stop_answers job_id service_str user w :
  (forall k row, jobs (db w) !! k = Some row -> id row = k) ->
  match stop_job lib qiskit runtime_jobs svc get_runner is_active job_id service_str user w with
  | (Ok answer, w') => exists job first rest,
      jobs (db w) !! job_id = Some job /\ can_stop user job = true
      /\ answer = join " " (first :: rest) /\ told job_id (status job) (db w') first
  | (Raise e, w') =>
      (forall job, jobs (db w) !! job_id = Some job -> can_stop user job = false) ->
      e = job_not_found job_id /\ db w' = db w
  end.
Proof.
  intros Hkeyed. unfold stop_job. destruct (jobs (db w) !! job_id) as [job|] eqn:Hrow.
  - destruct (can_stop user job) eqn:Hcan.
    + pose proof (stop_execute_wp job_id service_str user w job Hrow (Hkeyed _ _ Hrow) Hcan) as H. unfold wp in H.
      destruct (stop_execute _ _ _ _ _ _ _ _ _ _) as [[a|e] s']; [|by intros Hno; rewrite (Hno job eq_refl) in Hcan].
      destruct H as (first & rest & ? & ?). by exists job, first, rest.
    + unfold stop_execute, on_world, find_job, get_db, gets, put_self, modify, bind. cbn [stopped_world]. by rewrite Hrow, Hcan.
  - unfold stop_execute, on_world, find_job, get_db, gets, bind. cbn [stopped_world]. by rewrite Hrow.
Qed.
End stop_wp.

(** ** Witnesses *)

#[export] Instance constant_runner_stop_laws b : StopLaws (constant_runner b).
Proof. split; [exact _|by intros w|by intros w]. Qed.

Definition sample_qiskit : QiskitRuntime :=
  mk_qiskit (fun _ => Raise (mk_exn ValueError "Unable to find account.")) (fun _ => Ok true) (fun _ => Ok tt) (fun _ => Ok tt).
Definition sample_put (p : Payload) : outcome unit := Ok tt.
Definition sample_get_runner (j : Job) : outcome AbstractRunner := Ok (constant_runner true).
Definition no_cluster (r : AbstractRunner) : Py bool := ret false.

Lemma sample_runner_laws job r : sample_get_runner job = Ok r -> StopLaws r.
Proof. intros [= <-]. exact _. Qed.

Definition sample_stop (w : World) : outcome string * World :=
  stop_job SampleRun.lib sample_qiskit [] (gateway_service sample_put) sample_get_runner no_cluster "new" None SampleCatalog.bob w.

(** The world once the sample function ran. *)
Definition ran_world : World := process (snd (SampleRun.run SampleRun.web)).

Lemma request_run_web c sys lib settings services uuid4 user a data s :
  fresh uuid4 (database s) -> request (process s) (process (snd (execute c sys lib settings services uuid4 user a data s))).
Proof. destruct s as [w args]. apply request_run. Qed.

Lemma sample_stop_request w : request w (snd (sample_stop w)).
Proof.
  refine (request_stop SampleRun.lib sample_qiskit [] sample_put sample_get_runner no_cluster "new" None
    SampleCatalog.bob w _ _); [|done]. intros job r Hr. exact (@stop_laws_runner r (sample_runner_laws job r Hr)).
Qed.

Definition stopped_twice : World := snd (sample_stop (snd (sample_stop ran_world))).

Lemma sample_requests : rtc request (process SampleRun.web) stopped_twice.
Proof.
  eapply rtc_l; [exact (request_run_web SampleCatalog.catalog SampleRun.sys SampleRun.lib SampleRun.settings SampleRun.services "new"
    SampleCatalog.bob SampleCatalog.access SampleRun.input SampleRun.web SampleRun.fresh_web)|].
  eapply rtc_l; [apply sample_stop_request|]. apply rtc_once, sample_stop_request.
Qed.

Lemma empty_log_ok : Abs.log_ok (db (process SampleRun.web)).
Proof. intros j. done. Qed.
Lemma empty_outbox_ok : Abs.outbox_ok (db (process SampleRun.web)).
Proof. split; [constructor|set_solver]. Qed.

(** A run, a stop, and a stop again: the job is stopped once. *)
Lemma gateway_refines_witness :
  let w' := stopped_twice in
  Abs.job_status (db w') "new" = Some STOPPED /\ Abs.history (db w') "new" = [QUEUED; STOPPED] /\ Abs.log_ok (db w').
Proof.
  intros w'. split; [by vm_compute|]. split; [by vm_compute|].
  exact (proj1 (proj2 (gateway_refines _ _ sample_requests empty_log_ok empty_outbox_ok))).
Defined.

(** The stop of a running Fleets job. *)
Lemma stop_answers_witness :
  match stop_job SampleRun.lib sample_qiskit [] (gateway_service sample_put) sample_get_runner no_cluster "job-1" None
          sample_author running_world with
  | (Ok answer, w') => told "job-1" RUNNING (db w') "Job is stopping."
  | (Raise _, _) => False
  end.
Proof.
  pose proof (stop_answers sample_put SampleRun.lib sample_qiskit [] sample_get_runner no_cluster sample_runner_laws
    ltac:(done) ltac:(done) "job-1" None sample_author running_world) as H.
  assert (forall k row, jobs (db running_world) !! k = Some row -> id row = k) as Hkeyed
    by (intros k row Hk; change (({[ "job-1" := running_job ]} : gmap string Job) !! k = Some row) in Hk;
        by apply lookup_singleton_Some in Hk as [<- <-]).
  specialize (H Hkeyed). destruct (stop_job _ _ _ _ _ _ _ _ _ _) as [[a|e] w'] eqn:E; [|by vm_compute in E].
  destruct H as (job & first & rest & Hrow & _ & Ha & Ht).
  assert (job = running_job) as -> by (vm_compute in Hrow; by injection Hrow).
  assert (first = "Job is stopping.") as ->; [|exact Ht].
  destruct Ht as [(_ & H & _)|[[-> H]|[[-> _]|[-> H]]]]; [done| |done|].
  all: exfalso; apply (f_equal (fun r => Abs.job_status (db (snd r)) "job-1")) in E; cbn [snd] in E.
  - destruct H as (s & Hs & Hin). rewrite Hs in E. vm_compute in E. injection E as <-. set_solver.
  - rewrite H in E. by vm_compute in E.
Defined.

(** An error of the Qiskit Runtime service surfaces after the row was written: the job reads
    STOPPED, its Ray cluster was never asked, and stopping again only answers that the job
    has ended. *)
Definition sample_service : Libraries :=
  mk_libraries (fun _ => Ok "{}") (fun _ => Ok (JObj [("__value__", JObj [])])) (fun _ => "") (fun _ => "Error")
    (fun _ _ _ => Matches) (fun _ => Ok tt).
Definition stop_with_service (w : World) : outcome string * World :=
  stop_job sample_service sample_qiskit [mk_runtime_job "new" "runtime-1" None] (gateway_service sample_put)
    sample_get_runner (fun _ => ret true) "new" (Some "{..}") SampleCatalog.bob w.

Example failed_cancel_hides_ray_job :
  let '(o, w) := stop_with_service ran_world in
  o = Raise (mk_exn ValueError "Unable to find account.")
  /\ Abs.job_status (db w) "new" = Some STOPPED
  /\ fst (stop_with_service w) = Ok ENDED.
Proof. by vm_compute. Qed.
