(* ===== verification/JobOutputs.v ===== *)
(** * What a user reads of a job ([api/use_cases/jobs/]: logs, provider logs, result, retrieve)

    The logs for the author and for who provides the function, the result, saved and read,
    and the job itself. *)

From S2P Require Import Prelude PyStr Domain Models World JobEvents BillingEvents JobTransitions Json ValidateArguments Access RunFunction Retry JobUseCases Paths Stores FileStorage RayLogs TextFiles FleetPaths JobStorages.

Local Open Scope string_scope.
Local Open Scope list_scope.

(** The database and the files. *)
Record Gateway := mk_gateway { gw_world : World; gw_store : Store }.
Abbreviation Gw := (M Gateway).
Definition in_db {A} (m : Py A) : Gw A := fun g => let '(o, w) := m (gw_world g) in (o, mk_gateway w (gw_store g)).
Definition in_store {A} (m : M Store A) : Gw A := fun g => let '(o, st) := m (gw_store g) in (o, mk_gateway (gw_world g) st).

(** ** The storage of a job, by its runner ([core/services/storage/__init__.py]) *)

Inductive AnyLogs := RayLogsOf (t : RayLogsStorage) | FleetsLogsOf (t : FleetsLogsStorage).
Inductive AnyResult := RayResultOf (t : RayResultStorage) | FleetsResultOf (t : FleetsResultStorage).
Inductive AnyArguments := RayArgumentsOf (t : RayArgumentsStorage) | FleetsArgumentsOf (t : FleetsArgumentsStorage).

(** ** Answers *)

Record GetLogsResponse := mk_logs_response { raw_log : option Text; redirect_url : option string }.
Record GetResultResponse := mk_result_response { raw_result : option Text; result_redirect_url : option string }.

(** What a runner answers of its job's logs. *)
Record LogRunner := mk_log_runner {
  lr_is_active : Py bool;
  lr_logs : Py FilteredLogs;
  lr_provider_logs : Py FilteredLogs
}.

(** ["\n".join(lines) + "\n"]. *)
Fixpoint join_lines (lines : list Line) : Text :=
  match lines with
  | [] => []
  | [l] => l
  | l :: lines => l ++ LF :: join_lines lines
  end.
Definition as_log (lines : list Line) : Text := match lines with [] => [] | _ => join_lines lines ++ [LF] end.

Section use_cases.
Context (MEDIA_ROOT : string) (c : Catalog).
Context (cos_fault : CosOp -> string -> string -> option (exn * bool)).
Context (presigned : string -> string -> outcome string).
Context (get_runner : Job -> outcome LogRunner).
Context (logs_column : Job -> Text) (result_column : Job -> option Text).     (* of jobs of older versions *)

Definition get_arguments_storage (job : Job) : M Store AnyArguments :=
  match runner job with
  | RAY => t <- ray_arguments_storage MEDIA_ROOT job ;; ret (RayArgumentsOf t)
  | FLEETS => t <- of_outcome (fleets_arguments_storage job) ;; ret (FleetsArgumentsOf t)
  end.
Definition get_logs_storage (job : Job) : M Store AnyLogs :=
  match runner job with
  | RAY => t <- ray_logs_storage MEDIA_ROOT job ;; ret (RayLogsOf t)
  | FLEETS => t <- of_outcome (fleets_logs_storage job) ;; ret (FleetsLogsOf t)
  end.
Definition get_result_storage (job : Job) : M Store AnyResult :=
  match runner job with
  | RAY => t <- ray_result_storage MEDIA_ROOT job ;; ret (RayResultOf t)
  | FLEETS => t <- of_outcome (fleets_result_storage job) ;; ret (FleetsResultOf t)
  end.

(** The dispatch of the methods. *)
#[export] Instance any_arguments : ArgumentsStorage AnyArguments :=
  let fleets := fleets_arguments cos_fault in
  {| get_arguments t := match t with RayArgumentsOf t => get_arguments t | FleetsArgumentsOf t => @get_arguments _ fleets t end;
     save_arguments t := match t with RayArgumentsOf t => save_arguments t | FleetsArgumentsOf t => @save_arguments _ fleets t end;
     delete_arguments t := match t with RayArgumentsOf t => delete_arguments t | FleetsArgumentsOf t => @delete_arguments _ fleets t end |}.
#[export] Instance any_logs : LogsStorage AnyLogs :=
  let fleets := fleets_logs cos_fault presigned in
  {| get_public_logs t := match t with RayLogsOf t => get_public_logs t | FleetsLogsOf t => @get_public_logs _ fleets t end;
     get_private_logs t := match t with RayLogsOf t => get_private_logs t | FleetsLogsOf t => @get_private_logs _ fleets t end;
     save_public_logs t := match t with RayLogsOf t => save_public_logs t | FleetsLogsOf t => @save_public_logs _ fleets t end;
     save_private_logs t := match t with RayLogsOf t => save_private_logs t | FleetsLogsOf t => @save_private_logs _ fleets t end;
     get_public_logs_url t := match t with RayLogsOf t => get_public_logs_url t | FleetsLogsOf t => @get_public_logs_url _ fleets t end;
     get_private_logs_url t := match t with RayLogsOf t => get_private_logs_url t | FleetsLogsOf t => @get_private_logs_url _ fleets t end |}.
#[export] Instance any_result : ResultStorage AnyResult :=
  let fleets := fleets_result cos_fault in
  {| get_result t := match t with RayResultOf t => get_result t | FleetsResultOf t => @get_result _ fleets t end;
     save_result t := match t with RayResultOf t => save_result t | FleetsResultOf t => @save_result _ fleets t end |}.
(** [cast(FleetsResultStorage, storage).get_url()]. *)
Definition result_url (t : AnyResult) : M Store (option string) :=
  match t with
  | FleetsResultOf t => get_url cos_fault presigned t
  | RayResultOf _ => raise (mk_exn AttributeError "'RayResultStorage' object has no attribute 'get_url'")
  end.

(** [Job.objects.with_program().filter(id=job_id).first()]. *)
Definition the_job (job_id : JobId) : Py Job :=
  d <- get_db ;;
  match jobs d !! job_id with
  | Some job => put_self job ;;; ret job
  | None => raise (job_not_found job_id)
  end.

(** ** The author's logs *)

Definition not_yet : GetLogsResponse := mk_logs_response None None.
Definition raw (log : Text) : GetLogsResponse := mk_logs_response (Some log) None.
Definition redirect (url : option string) : GetLogsResponse := if truthy url then mk_logs_response None url else not_yet.

Definition GetJobLogs (job_id : JobId) (user : User) : Gw GetLogsResponse :=
  job <- in_db (the_job job_id) ;;
  (if can_read_user_logs user job then ret tt
   else raise (invalid_access ("You don't have access to read user logs of the job [" +:+ job_id +:+ "]"))) ;;;
  logs_storage <- in_store (get_logs_storage job) ;;
  if bool_decide (runner job = FLEETS) then
    url <- in_store (get_public_logs_url logs_storage) ;; ret (redirect url)
  else
    logs <- in_store (get_public_logs logs_storage) ;;
    match logs with
    | Some (ch :: cs) => ret (raw (ch :: cs))
    | _ =>
        r <- of_outcome (get_runner job) ;;
        active <- in_db (lr_is_active r) ;;
        if active : bool then
          try_except (lines <- in_db (lr_logs r) ;; ret (raw (as_log (public_logs lines))))
            (fun ex => if isinstance ex RunnerError then Some (ret (raw (text "Logs not available for this job during execution."))) else None)
        else
          p <- of_outcome (the_program job) ;;
          ret (raw (if bool_decide (is_Some (program_provider p)) then text "No logs available." else logs_column job))
    end.

(** ** The provider's logs *)

Definition GetProviderJobLogs (job_id : JobId) (user : User) (accessible : option FunctionAccessResult) : Gw GetLogsResponse :=
  job <- in_db (the_job job_id) ;;
  may <- of_outcome (can_read_provider_logs c user job accessible) ;;
  (if may : bool then ret tt else raise (invalid_access ("You don't have access to job [" +:+ job_id +:+ "]"))) ;;;
  logs_storage <- in_store (get_logs_storage job) ;;
  if bool_decide (runner job = FLEETS) then
    url <- in_store (get_private_logs_url logs_storage) ;; ret (redirect url)
  else
    logs <- in_store (get_private_logs logs_storage) ;;
    match logs with
    | Some (ch :: cs) => ret (raw (ch :: cs))
    | _ =>
        r <- of_outcome (get_runner job) ;;
        active <- in_db (lr_is_active r) ;;
        if active : bool then
          try_except (lines <- in_db (lr_provider_logs r) ;; ret (raw (as_log (default [] (private_logs lines)))))
            (fun ex => if isinstance ex RunnerError
                       then Some (ret (raw (text ("Logs not available for job [" +:+ job_id +:+ "] during execution.")))) else None)
        else ret (raw (logs_column job))
    end.

(** ** The result *)

Definition GetJobResult (job_id : JobId) (user : User) : Gw GetResultResponse :=
  job <- in_db (find_job can_read_result user job_id) ;;
  storage <- in_store (get_result_storage job) ;;
  if bool_decide (runner job = FLEETS) then
    url <- try_except (in_store (result_url storage)) (fun e =>
             if isinstance e ValueError || isinstance e NotImplementedError then Some (ret None) else None) ;;
    ret (if truthy url then mk_result_response None url else mk_result_response None None)
  else
    result <- in_store (get_result storage) ;;
    ret (mk_result_response result None).

(** The job and the result it is given. *)
Definition JobSaveResult (job_id : JobId) (user : User) (result : Text) : Gw (Job * Text) :=
  job <- in_db (find_job can_save_result user job_id) ;;
  if bool_decide (runner job = FLEETS) then raise (invalid_access "Fleets results are written by the SDK via RESULTS_PATH")
  else
    storage <- in_store (get_result_storage job) ;;
    in_store (save_result storage result) ;;;
    ret (job, result).

(** ** The job *)

Definition result_of (user : User) (job : Job) : Gw (option Text) :=
  if negb (can_read_result user job) then ret None
  else
    try_except
      (store <- in_store (get_result_storage job) ;;
       result <- in_store (get_result store) ;;
       ret (match result with Some r => Some r | None => result_column job end))
      (fun e => if isinstance e ValueError || isinstance e NotImplementedError then Some (ret (result_column job)) else None).

Definition JobRetrieve (job_id : JobId) (user : User) (with_result : bool) (accessible : option FunctionAccessResult)
    : Gw (Job * option Text) :=
  job <- in_db (the_job job_id) ;;
  may <- of_outcome (can_access c (Some user) (Some job) accessible) ;;
  (if may : bool then ret tt else raise (job_not_found job_id)) ;;;
  result <- (if with_result then result_of user job else ret None) ;;
  ret (job, result).
End use_cases.
