(* ===== verification/JobOutputsProps.v ===== *)
(** * Correctness of what is read of a job

    The outputs of a job are its author's; a result saved through the gateway is the result
    read back; a fleet's outputs are answered by the address of the object, when it is there. *)

From S2P Require Import Prelude PyStr Models Paths Stores FileStorage RayLogs TextFiles FleetPaths JobStorages Samples Domain World JobEvents BillingEvents JobTransitions Json ValidateArguments Access RunFunction Retry JobUseCases FileStorageProps FilesUseCases FilesProps JobOutputs FleetHandler FleetsRunner FleetsRunnerProps FleetsAnswersProps JobEnvironment.

Local Open Scope string_scope.
Local Open Scope list_scope.

(** * Where a job's files are

    What the container of a fleet reads and writes at the paths it is given are the objects
    the gateway reads and writes; a text saved in a file is read back. *)

(** ** The volumes of a fleet *)

(** What a path of the container is: a store and a key of it, by the first volume it is in. *)
Fixpoint seen_at (mounts : list Mount) (path : string) : option (string * string) :=
  match mounts with
  | [] => None
  | m :: mounts =>
      if startswith (mount_path m +:+ "/") path
      then Some (mount_reference m, default "" (mount_sub_path m) +:+ "/" +:+ removeprefix (mount_path m +:+ "/") path)
      else seen_at mounts path
  end.

(** The mounts as they are, when they are made. *)
Lemma built_mounts l mounts : build_run_volume_mounts l = Ok mounts ->
  mounts = map (fun '(path, ref, sub) => mk_mount path ref (if truthy sub then sub else None)) l.
Proof.
  unfold build_run_volume_mounts. destruct l as [|m l]; [done|]. generalize (m :: l). clear m l. intros l. revert mounts.
  induction l as [|[[path ref] sub] l IH]; intros mounts; cbn [build_mounts]; [by intros [= <-]|].
  unfold build_mount. destruct (required_text "mount_path" path); [|done]. destruct (required_text "reference" ref); [|done].
  destruct (build_mounts l) as [ms|]; [|done]. intros [= <-]. cbn [map]. by rewrite (IH ms).
Qed.

Lemma container_sees job p project mounts :
  build_run_volume_mounts_for_job (build_job_paths job p) project = Ok mounts ->
  let paths := build_job_paths job p in
  let users key := Some (pds_name_users project, key) in
  let function key := Some (if bool_decide (is_Some (program_provider p)) then pds_name_providers project else pds_name_users project, key) in
  seen_at mounts (container_arguments_path paths) = users (cos_user_job_prefix paths +:+ "/" +:+ "arguments.json")
  /\ seen_at mounts (container_result_path paths) = users (cos_results_key paths)
  /\ seen_at mounts (container_public_log_path paths) = users (cos_user_log_key paths)
  /\ (forall path key, container_private_log_path paths = Some path -> cos_provider_log_key paths = Some key ->
        seen_at mounts path = Some (pds_name_providers project, key))
  /\ seen_at mounts (container_docker_entrypoint paths) = function (cos_docker_entrypoint paths)
  /\ seen_at mounts (container_function_entrypoint paths) = function (cos_function_entrypoint paths).
Proof.
  intros Hm%built_mounts. cbv zeta. subst mounts. destruct (program_provider p) as [provider|] eqn:Hp; unfold build_job_paths; rewrite Hp.
  - rewrite bool_decide_true by by eexists. split_and!; [reflexivity..|intros path key [= <-] [= <-]; reflexivity|reflexivity|reflexivity].
  - rewrite bool_decide_false by by intros []. split_and!; [reflexivity..|by intros|reflexivity|reflexivity].
Qed.

(** The storages that are made are these. *)
Lemma loaded_user name p user : load_user_bucket name p = Ok user ->
  exists project, program_code_engine_project p = Some project /\ cos_bucket_user_data_name project = Some user.
Proof.
  unfold load_user_bucket. destruct (program_code_engine_project p) as [project|]; [|done]. destruct (truthy _) eqn:Ht; [|done].
  intros [= <-]. exists project. split; [done|]. by apply truthy_spec in Ht as (u & -> & _).
Qed.
Lemma loaded_provider name p provider bucket : load_provider_bucket name p = Ok bucket -> program_provider p = Some provider ->
  exists project, program_code_engine_project p = Some project /\ cos_bucket_provider_data_name project = bucket /\ truthy bucket = true.
Proof.
  unfold load_provider_bucket. destruct (program_code_engine_project p) as [project|]; [|done]. destruct (program_provider p); [|done].
  destruct (truthy (cos_bucket_provider_data_name project)) eqn:Ht; [|done]. intros [= <-] _. by exists project.
Qed.
Lemma arguments_made job p t : program job = Some p -> fleets_arguments_storage job = Ok t ->
  load_user_bucket (title p) p = Ok (fa_bucket t) /\ _arguments_key t = cos_user_job_prefix (build_job_paths job p) +:+ "/" +:+ "arguments.json".
Proof. intros Hp. unfold fleets_arguments_storage, the_program. rewrite Hp. destruct (load_user_bucket _ _); [|done]. by intros [= <-]. Qed.
Lemma result_made job p t : program job = Some p -> fleets_result_storage job = Ok t ->
  load_user_bucket (title p) p = Ok (fr_user_bucket t) /\ _results_key t = cos_results_key (build_job_paths job p).
Proof.
  intros Hp. unfold fleets_result_storage, the_program. rewrite Hp. destruct (program_code_engine_project p); [|done].
  destruct (load_user_bucket _ _); [|done]. by intros [= <-].
Qed.
Lemma logs_made job p t : program job = Some p -> fleets_logs_storage job = Ok t ->
  load_user_bucket (title p) p = Ok (fl_user_bucket t) /\ load_provider_bucket (title p) p = Ok (fl_provider_bucket t)
  /\ fl_public_key t = cos_user_log_key (build_job_paths job p) /\ fl_private_key t = cos_provider_log_key (build_job_paths job p).
Proof.
  intros Hp. unfold fleets_logs_storage, the_program. rewrite Hp. destruct (load_user_bucket _ _); [|done]. destruct (load_provider_bucket _ _); [|done].
  by intros [= <-].
Qed.

Lemma got_project job p project : program job = Some p -> get_project job = Ok project -> program_code_engine_project p = Some project.
Proof.
  intros Hp. unfold get_project. rewrite Hp. destruct (program_code_engine_project p) as [q|]; [|done]. destruct (project_active q); [|done].
  by intros [= ->].
Qed.

(** ** What the submit left there *)

Section program.
Context {Cloud : Type} (ce : CodeEngine Cloud) (attributes : Attributes) (fuel : nat).
Context (settings : FleetsSettings) (lib : Libraries) (templates : Templates) (decrypt_string : string -> outcome string).
Context (open_artifact : string -> outcome (list Member)) (cos_fault : CosOp -> string -> string -> option (exn * bool)).
Context (config_workers : Job -> option Z).

(** The code of a function: the file of its archive that is its entrypoint, or the template of its image. *)
Definition code_of (p : Program) (code : string) : Prop :=
  if truthy (artifact p) then exists members, open_artifact (default "" (artifact p)) = Ok members /\ member_of members (entrypoint p) code
  else code = main_template templates (CUSTOM_IMAGE_PACKAGE_PATH settings) (CUSTOM_IMAGE_PACKAGE_NAME settings).

(** The wrapper of the container, which a file of the function may be named like. *)
Definition wrapper_of (job : Job) (p : Program) : string :=
  (if truthy (artifact p) then custom_wrapper templates else provider_wrapper templates)
    (container_function_entrypoint (build_job_paths job p)) (QISKIT_USER_CONFIG settings).
Definition wrapper_kept (p : Program) : Prop :=
  if truthy (artifact p) then
    forall members content, open_artifact (default "" (artifact p)) = Ok members -> ~ member_of members CUSTOM_JOB_WRAPPER_NAME content
  else entrypoint p <> PROVIDER_JOB_WRAPPER_NAME.

(** C29: once a job was submitted, its container reads its arguments where the gateway saved them, and writes its
    logs and its result where the gateway looks for them; and, unless it is a provider's function with an archive, it runs what the
    submit uploaded: at the path of the entrypoint it finds the object that holds the code of the function, at
    the path of the command the one with the wrapper (if no file of the function is named like it). What is the user's is in the user's bucket and
    what is the provider's in the provider's. *)
Theorem container_and_gateway_agree job p project mounts arguments logs result s s' :
  program job = Some p -> get_project job = Ok project ->
  build_run_volume_mounts_for_job (build_job_paths job p) project = Ok mounts ->
  fleets_arguments_storage job = Ok arguments -> fleets_logs_storage job = Ok logs -> fleets_result_storage job = Ok result ->
  serves job s ->
  fleets_submit ce attributes fuel settings lib templates decrypt_string open_artifact cos_fault config_workers s = (Ok tt, s') ->
  let paths := build_job_paths job p in
  (seen_at mounts (container_arguments_path paths) = Some (pds_name_users project, _arguments_key arguments)
   /\ Some (fa_bucket arguments) = cos_bucket_user_data_name project)
  /\ (seen_at mounts (container_result_path paths) = Some (pds_name_users project, _results_key result)
      /\ Some (fr_user_bucket result) = cos_bucket_user_data_name project)
  /\ (seen_at mounts (container_public_log_path paths) = Some (pds_name_users project, fl_public_key logs)
      /\ Some (fl_user_bucket logs) = cos_bucket_user_data_name project)
  /\ (forall path, container_private_log_path paths = Some path ->
        exists key, fl_private_key logs = Some key /\ seen_at mounts path = Some (pds_name_providers project, key)
          /\ fl_provider_bucket logs = cos_bucket_provider_data_name project)
  /\ (program_provider p = None \/ truthy (artifact p) = false -> truthy (artifact p) || truthy (image p) = true ->
       exists store bucket code_key script_key,
         (if bool_decide (is_Some (program_provider p))
          then store = pds_name_providers project /\ cos_bucket_provider_data_name project = Some bucket
          else store = pds_name_users project /\ cos_bucket_user_data_name project = Some bucket)
         /\ seen_at mounts (container_function_entrypoint paths) = Some (store, code_key)
         /\ (exists code, code_of p code /\ buckets (fl_store s') !! (bucket, code_key) = Some code)
         /\ seen_at mounts (container_docker_entrypoint paths) = Some (store, script_key)
         /\ (wrapper_kept p -> buckets (fl_store s') !! (bucket, script_key) = Some (wrapper_of job p))).
Proof.
  intros Hp Hget Hm Ha Hl Hr Hserves Hsubmit. destruct (container_sees _ _ _ _ Hm) as (H1 & H2 & H3 & H4 & H5 & H6). cbv zeta in *.
  assert (program_code_engine_project p = Some project) as Hproject by by apply got_project with job.
  assert (forall user, load_user_bucket (title p) p = Ok user -> Some user = cos_bucket_user_data_name project) as Huser.
  { intros user Hu. destruct (loaded_user _ _ _ Hu) as (project' & Hpr & Hb). rewrite Hproject in Hpr. by injection Hpr as ->. }
  destruct (arguments_made _ _ _ Hp Ha) as [Hau ->], (result_made _ _ _ Hp Hr) as [Hru ->], (logs_made _ _ _ Hp Hl) as (Hlu & Hlp & -> & ->).
  split_and!; try by auto.
  - intros path Hpath.
    assert (exists key, cos_provider_log_key (build_job_paths job p) = Some key /\ is_Some (program_provider p)) as (key & Hkey & provider & Hprov).
    { unfold build_job_paths in *. destruct (program_provider p); [|done]. eexists. split; [done|by eexists]. }
    exists key. split; [done|]. split; [by apply H4|]. destruct (loaded_provider _ _ _ _ Hlp Hprov) as (project' & Hpr & Hb & _).
    rewrite Hproject in Hpr. injection Hpr as ->. done.
  - intros Hkind Hcode. eapply submit_stores in Hsubmit as (Hstored & Hconf & Hprov); [|done..].
    destruct (configured _ _ Hconf) as [[user Hu] Hdata]. unfold program_stored, code_of, wrapper_of, wrapper_kept in *. cbv zeta in Hstored.
    destruct (truthy (artifact p)) eqn:Hart.
    + destruct Hkind as [Hnone|]; [|done]. rewrite Hnone in *. rewrite bool_decide_false in * by by intros [].
      destruct Hstored as (members & Ho & (code & Hmem & Hc) & Hw). rewrite Hu in Hc, Hw. cbn [default Datatypes.id] in Hc, Hw.
      exists (pds_name_users project), user, (cos_function_entrypoint (build_job_paths job p)), (cos_docker_entrypoint (build_job_paths job p)).
      split_and!; [done..| |done|].
      * exists code. split; [by exists members|]. unfold build_job_paths in *. by rewrite Hnone in *.
      * intros Hkept. apply Hw; [|done]. intros content. by apply Hkept.
    + destruct (Hprov eq_refl) as [provider Hpr]. rewrite Hpr in *. rewrite bool_decide_true in * by by eexists.
      destruct (Hdata ltac:(by eexists)) as [data Hd]. rewrite Hd in Hstored. cbn [default Datatypes.id] in Hstored. destruct Hstored as [Hc Hw].
      exists (pds_name_providers project), data, (cos_function_entrypoint (build_job_paths job p)), (cos_docker_entrypoint (build_job_paths job p)).
      split_and!; [done..| |done|exact Hw]. by eexists.
Qed.
End program.

(** ** Text files *)

Lemma text_written p cs st st' :
  fs_ok (disk st) -> Forall code_point cs -> write_text p cs st = (Ok tt, st') ->
  fs_ok (disk st') /\ read_text p st' = (Ok (newlines false cs), st') /\ exists_on_disk p st' = (Ok true, st')
  /\ exists c, put_at (OnDisk (resolve p)) (Some c) st st'.
Proof.
  intros Hok Hcs H. unfold write_text in H. apply bind_ok_inv in H as ([] & st1 & H1 & H). apply bind_ok_inv in H as (b & st2 & Hb & H2).
  destruct (encode_utf8 cs) as [b'|] eqn:He; [|done]. injection Hb as <- <-.
  apply write_file_ok in H1 as [Hok1 Hput1]; [|done]. pose proof H2 as Hw. apply write_file_ok in H2 as [Hok2 Hput2]; [|done].
  assert (file_at st' (OnDisk (resolve p)) = Some (of_bytes b')) as Hfile by (rewrite Hput2, decide_True by done; done).
  split; [done|]. split_and!.
  - unfold read_text. pose proof (read_file_ok p st' Hok2) as Hr. rewrite Hfile in Hr. unfold bind. rewrite Hr.
    rewrite text_of_bytes by by eapply encode_bytes. unfold of_outcome. by rewrite (decode_encode _ _ Hcs He).
  - unfold exists_on_disk, gets. rewrite path_exists_file; [done|done|]. cbn [file_at] in Hfile. rewrite Hfile. by eexists.
  - exists (of_bytes b'). intros q. rewrite Hput2, Hput1. by destruct (decide _).
Qed.

Lemma read_if_exists_written p cs st st' :
  fs_ok (disk st) -> Forall code_point cs -> write_text p cs st = (Ok tt, st') ->
  read_if_exists p st' = (Ok (Some (newlines false cs)), st').
Proof.
  intros Hok Hcs H. destruct (text_written _ _ _ _ Hok Hcs H) as (_ & Hr & He & _). unfold read_if_exists, bind at 1. rewrite He.
  unfold or_none, try_except, bind. by rewrite Hr.
Qed.

(** ** Witness *)

(** A custom function, submitted to a small Code Engine. *)
Abbreviation submitted := (fleets_submit SampleCloud.engine SampleCloud.attributes 5 SampleRunner.settings Flat.lib
  SampleRunner.templates (fun s => Ok s) SampleRunner.open_artifact SampleRunner.no_fault (fun _ => None) (runner_of custom_job bobs SampleRunner.one_fleet)).
Lemma submit_succeeds : fst submitted = Ok tt.
Proof. by vm_compute. Qed.
Lemma no_wrapper_in_archive : wrapper_kept SampleRunner.open_artifact SampleRunner.custom.
Proof.
  unfold wrapper_kept. change (truthy (artifact SampleRunner.custom)) with true. cbn iota. intros members content [= <-] (m & Hm & _ & _ & Hn & _).
  assert (forallb (fun m => negb (bool_decide (normpath (member_name m) = CUSTOM_JOB_WRAPPER_NAME))) SampleRunner.archive = true) as Hall by by vm_compute.
  rewrite forallb_forall in Hall. apply list_elem_of_In in Hm. specialize (Hall m Hm). by rewrite bool_decide_true in Hall.
Qed.

Lemma container_and_gateway_agree_witness :
  exists mounts key script, build_run_volume_mounts_for_job (build_job_paths custom_job SampleRunner.custom) sample_project = Ok mounts
    /\ seen_at mounts "/job_user_data/results.json" = Some ("users-pds", "users/alice/custom_functions/estimator/jobs/0b0e0f52-1a0c-4d8e-9f0e-3f6d1c2b4a59/results.json")
    /\ seen_at mounts "/function_user_data/fleet_custom_job_wrapper.py" = Some ("users-pds", key)
    /\ buckets (fl_store (snd submitted)) !! ("bucket", key) = Some script.
Proof.
  destruct (build_run_volume_mounts_for_job (build_job_paths custom_job SampleRunner.custom) sample_project) as [mounts|e] eqn:Hm; [|vm_compute in Hm; discriminate].
  destruct (fleets_arguments_storage custom_job) as [a|] eqn:Ha; [|vm_compute in Ha; discriminate].
  destruct (fleets_logs_storage custom_job) as [l|] eqn:Hl; [|vm_compute in Hl; discriminate].
  destruct (fleets_result_storage custom_job) as [r|] eqn:Hr; [|vm_compute in Hr; discriminate].
  pose proof submit_succeeds as Hok. destruct submitted as [o s'] eqn:Hs. cbn [fst] in Hok. subst o.
  destruct (container_and_gateway_agree _ _ _ _ _ _ _ _ _ _ custom_job SampleRunner.custom sample_project mounts a l r _ s'
    eq_refl eq_refl Hm Ha Hl Hr (runner_serves _ _ _) Hs) as (_ & [H _] & _ & _ & Hrun).
  destruct (Hrun ltac:(by left) eq_refl) as (store & bucket & code_key & key & [-> Hb] & _ & _ & Hseen & Hw).
  injection Hb as <-. exists mounts, key, (wrapper_of SampleRunner.settings SampleRunner.templates custom_job SampleRunner.custom).
  split; [reflexivity|]. split; [|split; [exact Hseen|exact (Hw no_wrapper_in_archive)]].
  assert (_results_key r = "users/alice/custom_functions/estimator/jobs/0b0e0f52-1a0c-4d8e-9f0e-3f6d1c2b4a59/results.json") as E by (vm_compute in Hr; injection Hr as <-; reflexivity).
  rewrite E in H. exact H.
Defined.

Section outputs.
Context (MEDIA_ROOT : string) (c : Catalog).
Context (cos_fault : CosOp -> string -> string -> option (exn * bool)) (presigned : string -> string -> outcome string).
Context (get_runner : Job -> outcome LogRunner) (logs_column : Job -> Text) (result_column : Job -> option Text).

Abbreviation get_logs := (GetJobLogs MEDIA_ROOT cos_fault presigned get_runner logs_column).
Abbreviation get_provider_logs := (GetProviderJobLogs MEDIA_ROOT c cos_fault presigned get_runner logs_column).
Abbreviation get_result_ := (GetJobResult MEDIA_ROOT cos_fault presigned).
Abbreviation save_result_ := (JobSaveResult MEDIA_ROOT cos_fault).
Abbreviation retrieve := (JobRetrieve MEDIA_ROOT c cos_fault result_column).

(** ** Who may read *)

Lemma the_job_run job_id job w : jobs (db w) !! job_id = Some job -> the_job job_id w = (Ok job, set_self job w).
Proof. intros H. unfold the_job, bind, get_db, gets. by rewrite H. Qed.
Lemma find_job_run may user job_id job w : jobs (db w) !! job_id = Some job ->
  find_job may user job_id w = (if may user job then Ok job else Raise (job_not_found job_id), set_self job w).
Proof. intros H. unfold find_job, bind, get_db, gets. rewrite H. unfold put_self, modify. by destruct (may user job). Qed.

(** C28: of a job, only its author reads the logs or the result, or saves a result: for anyone
    else the use cases raise, or show the job without its result, whatever is stored, and
    nothing stored changes; the logs of the provider are for who may read those of the
    function. *)
Theorem outputs_private w st job_id user job :
  jobs (db w) !! job_id = Some job -> is_author user job = false ->
  let g := mk_gateway w st in
  let g' := mk_gateway (set_self job w) st in
  get_logs job_id user g = (Raise (invalid_access ("You don't have access to read user logs of the job [" +:+ job_id +:+ "]")), g')
  /\ get_result_ job_id user g = (Raise (job_not_found job_id), g')
  /\ (forall result, save_result_ job_id user result g = (Raise (job_not_found job_id), g'))
  /\ (forall with_result accessible, snd (retrieve job_id user with_result accessible g) = g'
        /\ forall j r, fst (retrieve job_id user with_result accessible g) = Ok (j, r) -> r = None)
  /\ (forall accessible, can_read_provider_logs c user job accessible <> Ok true ->
        snd (get_provider_logs job_id user accessible g) = g' /\ forall r, fst (get_provider_logs job_id user accessible g) <> Ok r).
Proof.
  intros Hj Ha g g'. unfold get_logs, get_result_, save_result_, retrieve, get_provider_logs.
  unfold GetJobLogs, GetJobResult, JobSaveResult, JobRetrieve, GetProviderJobLogs, in_db, bind, g, g'. cbn [gw_world gw_store].
  rewrite (the_job_run _ _ _ Hj), !(find_job_run _ _ _ _ _ Hj). unfold can_read_user_logs, can_read_result, can_save_result. rewrite Ha.
  split; [done|]. split; [done|]. split; [done|]. split.
  - intros with_result accessible. unfold of_outcome. destruct (can_access c (Some user) (Some job) accessible) as [[]|e]; [|by split..].
    unfold result_of, can_read_result. rewrite Ha. by destruct with_result; split; try (intros j r [= _ <-]).
  - intros accessible Hmay. unfold of_outcome. destruct (can_read_provider_logs c user job accessible) as [[]|e]; [done|by split..].
Qed.

(** ** A result saved is the result read *)

Lemma result_storage_again job st t st1 :
  fs_ok (disk st) -> ray_result_storage MEDIA_ROOT job st = (Ok t, st1) ->
  rr_job_id t = id job /\ fs_ok (disk st1) /\ same_files st st1
  /\ forall st2, kept st1 st2 -> fs_ok (disk st2) -> ray_result_storage MEDIA_ROOT job st2 = (Ok t, st2).
Proof.
  intros Hok H. unfold ray_result_storage, job_directory in *. apply bind_ok_inv in H as (p & st0 & Hp & H).
  apply bind_ok_inv in H as (dir & st2 & Hd & H). injection H as <- <-. destruct (the_program job) as [p'|] eqn:Ep; [|done]. injection Hp as <- <-.
  pose proof (quiet_absolute_path MEDIA_ROOT USER_STORAGE (username (author job)) (title p') (provider_name <$> program_provider p') (Some "results") st Hok) as Hq.
  rewrite Hd in Hq. cbn [snd] in Hq. destruct Hq as [Hok1 Hsame]. apply absolute_path_again in Hd as [_ Hagain]; [|done].
  split_and!; [done..|]. intros st3 Hk Hok3. unfold bind, of_outcome, ret. by rewrite (Hagain st3 Hk Hok3).
Qed.

Lemma write_text_kept p cs : rel kept (write_text p cs).
Proof.
  unfold write_text. apply rel_bind; [exact _|apply write_file_kept|]. intros []. apply rel_bind_outcome; [exact _|]. intros b _. apply write_file_kept.
Qed.

(** The path of a file of a job ends with its name. *)
Lemma contains_app ch a b : contains_char ch (a +:+ b) = contains_char ch a || contains_char ch b.
Proof. induction a as [|d a IH]; [done|]. change (String d a +:+ b) with (String d (a +:+ b)). cbn. by rewrite IH, orb_assoc. Qed.
Lemma resolve_json dir j : contains_char slash j = false -> resolve (path_join dir (j +:+ ".json")) = resolve dir ++ [j +:+ ".json"].
Proof.
  intros Hj. assert (contains_char slash (j +:+ ".json") = false) as Hs by by rewrite contains_app, Hj.
  rewrite resolve_join by by apply no_slash_start. f_equal. apply resolve_name; [done|..]; destruct j as [|d [|]]; cbn; by intros [=].
Qed.

(** a result saved through the gateway is the result read from then on, with its line ends
    as [\n]; it is as it was saved when it has no carriage return. Saving it changes that one
    file, named after the job, and no job. *)
Theorem saved_result_is_read w st user job_id result job r g accessible :
  fs_ok (disk st) -> Forall code_point result -> jobs (db w) !! job_id = Some job -> contains_char slash (id job) = false ->
  save_result_ job_id user result (mk_gateway w st) = (Ok (job, r), g) ->
  fst (get_result_ job_id user g) = Ok (mk_result_response (Some (newlines false result)) None)
  /\ fst (retrieve job_id user true accessible g) = Ok (job, Some (newlines false result))
  /\ (CR ∉ result -> newlines false result = result)
  /\ db (gw_world g) = db w
  /\ exists folder content, put_at (OnDisk (folder ++ [id job +:+ ".json"])) (Some content) st (gw_store g).
Proof.
  intros Hok Hr Hj Hid H. unfold JobSaveResult, in_db in H. unfold bind at 1 in H. cbn [gw_world gw_store] in H.
  rewrite (find_job_run _ _ _ _ _ Hj) in H. destruct (can_save_result user job) eqn:Ha; [|done].
  destruct (bool_decide (runner job = FLEETS)) eqn:Hrun; [done|]. apply bool_decide_eq_false in Hrun.
  assert (runner job = RAY) as Hray by by destruct (runner job).
  apply bind_ok_inv in H as (storage & g1 & Hst & H). apply bind_ok_inv in H as ([] & g2 & Hsave & H). injection H as <- <-.
  unfold in_store, get_result_storage in Hst. rewrite Hray in Hst. cbn [gw_store gw_world] in Hst. unfold bind in Hst.
  destruct (ray_result_storage MEDIA_ROOT job st) as [[t|e] st1] eqn:Ht; [|done]. injection Hst as <- <-.
  destruct (result_storage_again _ _ _ _ Hok Ht) as (Htid & Hok1 & Hsame & Hagain).
  unfold in_store in Hsave. cbn [gw_store gw_world save_result any_result ray_result] in Hsave.
  destruct (write_text (result_file_path t) result st1) as [[[]|e] st2] eqn:Hw; [|done]. injection Hsave as <-.
  destruct (text_written _ _ _ _ Hok1 Hr Hw) as (Hok2 & _ & _ & content & Hput). pose proof (read_if_exists_written _ _ _ _ Hok1 Hr Hw) as Hread.
  pose proof (write_text_kept (result_file_path t) result st1) as Hk. rewrite Hw in Hk. cbn [snd] in Hk. specialize (Hagain _ Hk Hok2).
  assert (jobs (db (set_self job w)) !! job_id = Some job) as Hj' by done.
  assert (get_result_storage MEDIA_ROOT job st2 = (Ok (RayResultOf t), st2)) as Hstore by (unfold get_result_storage; rewrite Hray; unfold bind; by rewrite Hagain).
  split_and!.
  - unfold GetJobResult, in_db. unfold bind at 1. cbn [gw_world gw_store]. rewrite (find_job_run _ _ _ _ _ Hj').
    change (can_read_result user job) with (can_save_result user job). rewrite Ha. unfold bind at 1, in_store at 1. cbn [gw_store gw_world]. rewrite Hstore.
    rewrite Hray, bool_decide_false by done. unfold bind, in_store. cbn [gw_store gw_world]. cbn [get_result any_result ray_result]. by rewrite Hread.
  - unfold JobRetrieve, in_db. unfold bind at 1. cbn [gw_world gw_store]. rewrite (the_job_run _ _ _ Hj'). unfold can_access, can_read_result. 
    change (is_author user job) with (can_save_result user job). rewrite Ha. unfold bind, of_outcome, ret. unfold result_of.
    change (can_read_result user job) with (can_save_result user job). rewrite Ha. unfold try_except, bind, in_store. cbn [negb gw_store gw_world]. rewrite Hstore.
    cbn [gw_store gw_world get_result any_result ray_result]. by rewrite Hread.
  - apply newlines_id.
  - done.
  - exists (resolve (results_directory t)), content. rewrite <- resolve_json by done. unfold result_file_path in Hput. rewrite Htid in Hput.
    intros q. rewrite Hput. by destruct (decide _).
Qed.

(** ** The outputs of a fleet are answered by address *)

Context (heads : forall bucket key, cos_fault HeadObject bucket key = None).
Context (signs : forall bucket key, exists url, presigned bucket key = Ok url).

(** The address of an object that is there, or none. *)
Definition addressed (st : Store) (bucket key : string) (url : option string) : Prop :=
  match url with
  | Some u => is_Some (buckets st !! (bucket, key)) /\ presigned bucket key = Ok u
  | None => buckets st !! (bucket, key) = None
  end.

Lemma url_if_exists_wp bucket key st : bucket <> "" -> key <> "" ->
  exists url, url_if_exists cos_fault presigned bucket key st = (Ok url, st) /\ addressed st bucket key url.
Proof.
  intros Hb Hk. unfold url_if_exists, _object_exists, head_object, bucket_and_key, required, cos_call, try_except, bind.
  rewrite !(bool_decide_false _ Hb), !(bool_decide_false _ Hk). unfold ret. rewrite heads. destruct st as [d b]. unfold set_buckets. cbn [buckets disk].
  unfold addressed. cbn [buckets]. destruct (bool_decide (is_Some (b !! (bucket, key)))) eqn:Hs.
  - apply bool_decide_eq_true in Hs. cbn. destruct (signs bucket key) as [u Hu]. exists (Some u). by rewrite Hu.
  - apply bool_decide_eq_false in Hs. exists None. split; [done|]. by apply eq_None_not_Some.
Qed.

(** What a response tells of a fleet: no text, and the address there is. *)
Definition by_address (st : Store) (bucket : option string) (key : string) (text_ : option Text) (url : option string) : Prop :=
  text_ = None /\ exists b url', bucket = Some b /\ addressed st b key url' /\ url = (if truthy url' then url' else None).

Lemma by_redirect bucket key w st : bucket <> "" -> key <> "" ->
  exists r, (url <- in_store (url_if_exists cos_fault presigned bucket key) ;; ret (redirect url)) (mk_gateway w st) = (Ok r, mk_gateway w st)
    /\ by_address st (Some bucket) key (raw_log r) (redirect_url r).
Proof.
  intros Hb Hk. destruct (url_if_exists_wp bucket key st Hb Hk) as (url & He & Ha). exists (redirect url). unfold bind, in_store. cbn [gw_store gw_world]. rewrite He.
  split; [done|]. split; [unfold redirect; by destruct (truthy url)|]. exists bucket, url. split_and!; [done..|]. unfold redirect. by destruct (truthy url).
Qed.

(** The bucket a storage has is one of the project. *)
Lemma bucket_of name p project user : program_code_engine_project p = Some project -> load_user_bucket name p = Ok user ->
  cos_bucket_user_data_name project = Some user /\ user <> "".
Proof.
  intros Hp. unfold load_user_bucket. rewrite Hp. destruct (truthy _) eqn:Ht; [|done]. intros [= <-]. by apply truthy_spec in Ht as (u & -> & Hu).
Qed.

Section of_a_fleet.
Context (w : World) (st : Store) (user : User) (job_id : JobId) (job : Job) (p : Program) (project : CodeEngineProject).
Context (accessible : option FunctionAccessResult).
Context (Hj : jobs (db w) !! job_id = Some job) (Hrun : runner job = FLEETS) (Hp : program job = Some p)
  (Hproject : program_code_engine_project p = Some project).
Let g := mk_gateway w st.
Let paths := build_job_paths job p.

Lemma fleet_keys : cos_user_log_key paths <> "" /\ cos_results_key paths <> "" /\ forall k, cos_provider_log_key paths = Some k -> k <> "".
Proof. unfold paths, build_job_paths. destruct (program_provider p); cbn; split_and!; try by intros. by intros k [= <-]. Qed.

Lemma fleet_logs_by_address r g' : get_logs job_id user g = (Ok r, g') ->
  gw_store g' = st /\ by_address st (cos_bucket_user_data_name project) (cos_user_log_key paths) (raw_log r) (redirect_url r).
Proof.
  intros H. destruct fleet_keys as (Hk1 & Hk2 & Hk3). unfold GetJobLogs, in_db in H. unfold bind at 1 in H. unfold g in H. cbn [gw_world gw_store] in H. rewrite (the_job_run _ _ _ Hj) in H.
  apply bind_ok_inv in H as (u0 & g1 & H1 & H). destruct (can_read_user_logs user job); [|done]. injection H1 as <- <-.
  apply bind_ok_inv in H as (t & g1 & Ht & H). unfold in_store at 1, get_logs_storage in Ht. rewrite Hrun in Ht, H. cbn [gw_store gw_world] in Ht.
  unfold bind, of_outcome in Ht. destruct (fleets_logs_storage job) as [l|] eqn:El; [|done]. injection Ht as <- <-.
  destruct (logs_made _ _ _ Hp El) as (Hu & _ & Hkey & _). destruct (bucket_of _ _ _ _ Hproject Hu) as [Hb Hne]. rewrite bool_decide_true in H by done.
  cbn [get_public_logs_url any_logs fleets_logs] in H. rewrite Hkey in H. 
  destruct (by_redirect (fl_user_bucket l) (cos_user_log_key paths) (set_self job w) st Hne Hk1) as (r' & Hrun' & Haddr). rewrite Hb.
  change ((url <- in_store (url_if_exists cos_fault presigned (fl_user_bucket l) (cos_user_log_key paths)) ;; ret (redirect url)) (mk_gateway (set_self job w) st) = (Ok r, g')) in H.
  rewrite Hrun' in H. by injection H as <- <-.
Qed.

Lemma fleet_result_by_address r g' : get_result_ job_id user g = (Ok r, g') ->
  gw_store g' = st /\ by_address st (cos_bucket_user_data_name project) (cos_results_key paths) (raw_result r) (result_redirect_url r).
Proof.
  intros H. destruct fleet_keys as (Hk1 & Hk2 & Hk3). unfold GetJobResult, in_db in H. unfold bind at 1 in H. unfold g in H. cbn [gw_world gw_store] in H. rewrite (find_job_run _ _ _ _ _ Hj) in H.
  destruct (can_read_result user job); [|done].
  apply bind_ok_inv in H as (t & g1 & Ht & H). unfold in_store at 1, get_result_storage in Ht. rewrite Hrun in Ht, H. cbn [gw_store gw_world] in Ht.
  unfold bind, of_outcome in Ht. destruct (fleets_result_storage job) as [l|] eqn:El; [|done]. injection Ht as <- <-.
  destruct (result_made _ _ _ Hp El) as (Hu & Hkey). destruct (bucket_of _ _ _ _ Hproject Hu) as [Hb Hne]. rewrite bool_decide_true in H by done.
  cbn [result_url] in H. unfold get_url in H. rewrite Hkey in H. rewrite Hb.
  destruct (url_if_exists_wp (fr_user_bucket l) (cos_results_key paths) st Hne Hk2) as (url & He & Ha).
  apply bind_ok_inv in H as (url' & g2 & H1 & H). unfold try_except, in_store in H1. cbn [gw_store gw_world] in H1. fold paths in H1. rewrite He in H1. injection H1 as <- <-.
  injection H as <- <-. split; [done|]. split; [by destruct (truthy url)|]. exists (fr_user_bucket l), url. split_and!; [done..|]. by destruct (truthy url).
Qed.

Lemma fleet_provider_logs_by_address r g' : get_provider_logs job_id user accessible g = (Ok r, g') ->
  gw_store g' = st /\ exists key, cos_provider_log_key paths = Some key
    /\ by_address st (cos_bucket_provider_data_name project) key (raw_log r) (redirect_url r).
Proof.
  intros H. destruct fleet_keys as (Hk1 & Hk2 & Hk3). unfold GetProviderJobLogs, in_db in H. unfold bind at 1 in H. unfold g in H. cbn [gw_world gw_store] in H. rewrite (the_job_run _ _ _ Hj) in H.
  apply bind_ok_inv in H as (may & g1 & H1 & H). destruct (can_read_provider_logs c user job accessible) as [may'|]; [|done]. injection H1 as <- <-.
  apply bind_ok_inv in H as (u0 & g1 & H1 & H). destruct may'; [|done]. injection H1 as <- <-.
  apply bind_ok_inv in H as (t & g1 & Ht & H). unfold in_store at 1, get_logs_storage in Ht. rewrite Hrun in Ht, H. cbn [gw_store gw_world] in Ht.
  unfold bind, of_outcome in Ht. destruct (fleets_logs_storage job) as [l|] eqn:El; [|done]. injection Ht as <- <-. rewrite bool_decide_true in H by done.
  destruct (logs_made _ _ _ Hp El) as (_ & Hlp & _ & Hkey). cbn [get_private_logs_url any_logs fleets_logs] in H. unfold in_provider_bucket in H.
  destruct (fl_provider_bucket l) as [data|] eqn:Hd; [|done].
  assert (exists provider key, program_provider p = Some provider /\ cos_provider_log_key paths = Some key) as (provider & key & Hprov & Hpk).
  { unfold load_provider_bucket in Hlp. rewrite Hproject in Hlp. unfold paths, build_job_paths. destruct (program_provider p) as [provider|]; [|done].
    by eexists _, _. }
  destruct (loaded_provider _ _ _ _ Hlp Hprov) as (project' & Hpr & Hb & Ht). rewrite Hproject in Hpr. injection Hpr as <-.
  apply truthy_spec in Ht as (data' & [= <-] & Hne). fold paths in Hkey. rewrite Hkey, Hpk in H. cbn [default Datatypes.id] in H.
  destruct (by_redirect data key (set_self job w) st Hne (Hk3 _ Hpk)) as (r' & Hrun' & Haddr). rewrite Hb.
  change ((url <- in_store (url_if_exists cos_fault presigned data key) ;; ret (redirect url)) (mk_gateway (set_self job w) st) = (Ok r, g')) in H.
  rewrite Hrun' in H. injection H as <- <-. split; [done|]. by exists key.
Qed.

End of_a_fleet.

(** for a job of the Fleets the gateway answers no text of its logs nor of its result, but
    the address of the object its container writes when that is there, and nothing when it is
    not; the logs of the author are in the user's bucket, those of the provider in the
    provider's. *)
Theorem fleet_outputs_by_address w st user job_id job p project accessible :
  jobs (db w) !! job_id = Some job -> runner job = FLEETS -> program job = Some p -> program_code_engine_project p = Some project ->
  let g := mk_gateway w st in
  let paths := build_job_paths job p in
  (forall r g', get_logs job_id user g = (Ok r, g') ->
     gw_store g' = st /\ by_address st (cos_bucket_user_data_name project) (cos_user_log_key paths) (raw_log r) (redirect_url r))
  /\ (forall r g', get_result_ job_id user g = (Ok r, g') ->
       gw_store g' = st /\ by_address st (cos_bucket_user_data_name project) (cos_results_key paths) (raw_result r) (result_redirect_url r))
  /\ (forall r g', get_provider_logs job_id user accessible g = (Ok r, g') ->
       gw_store g' = st /\ exists key, cos_provider_log_key paths = Some key
         /\ by_address st (cos_bucket_provider_data_name project) key (raw_log r) (redirect_url r)).
Proof.
  intros Hj Hrun Hp Hproject g paths. split_and!; intros r g' H.
  - by eapply fleet_logs_by_address.
  - by eapply fleet_result_by_address.
  - by eapply fleet_provider_logs_by_address.
Qed.
End outputs.

(** ** Witnesses *)

Module SampleOutputs.
Definition ray_function : Program :=
  mk_program 1 "hello" None sample_author RAY false None false None None "{}" None "GENERIC" None None "main.py" None None "[]".
Definition ray_job : Job := with_function RAY (Some ray_function) running_job.
Definition world_for (j : Job) : World := world_of (mk_db {[ id j := j ]} [] [] 0 ∅ [] ∅) j.
Definition stranger : User := mk_user 2 "bob".
Definition empty : Store := mk_store ∅ ∅.
Definition catalog : Catalog := mk_catalog [] [] [] (fun _ => []) (fun _ => []) (fun _ => []) [] [] [].
Definition never (op : CosOp) (bucket key : string) : option (exn * bool) := None.
Definition sign (bucket key : string) : outcome string := Ok ("https://cos/" +:+ bucket +:+ "/" +:+ key).
Definition no_log_runner (_ : Job) : outcome LogRunner := Raise (mk_exn RunnerError "").
(** A result with a carriage return. *)
Definition result : Text := [123; 13; 10; 233; 125]%Z.

Lemma fs_nothing : fs_ok (disk empty).
Proof. intros p w [n H]. change ((∅ : FS) !! (p ++ [w]) = Some n) in H. by rewrite lookup_empty in H. Qed.
Lemma found j : jobs (db (world_for j)) !! id j = Some j.
Proof. apply lookup_singleton_eq. Qed.

(** The log of a fleet that is there. *)
Definition log_key : string := "users/alice/provider_functions/acme/sampler/jobs/job-1/logs.log".
Definition with_log : Store := mk_store ∅ {[ ("bucket", log_key) := "hello" ]}.
End SampleOutputs.
Import SampleOutputs.

Lemma outputs_private_witness :
  fst (GetJobResult "/data" never sign (id ray_job) stranger (mk_gateway (world_for ray_job) empty)) = Raise (job_not_found "job-1").
Proof.
  destruct (outputs_private "/data" catalog never sign no_log_runner (fun _ => []) (fun _ => None) (world_for ray_job) empty (id ray_job) stranger ray_job
    (found ray_job) ltac:(reflexivity)) as (_ & H & _). exact (f_equal fst H).
Defined.

Lemma saved_and_read :
  match JobSaveResult "/data" never (id ray_job) sample_author result (mk_gateway (world_for ray_job) empty) with
  | (Ok (j, _), g) => j = ray_job
  | _ => False
  end.
Proof. vm_compute. reflexivity. Qed.

Lemma saved_result_is_read_witness :
  exists g, fst (GetJobResult "/data" never sign (id ray_job) sample_author g) = Ok (mk_result_response (Some [123; 10; 233; 125]%Z) None).
Proof.
  pose proof saved_and_read as Hs. destruct (JobSaveResult _ _ _ _ _ _) as [[[j r]|e] g] eqn:E; [|destruct Hs]. subst j. exists g.
  destruct (saved_result_is_read "/data" catalog never sign (fun _ => None) (world_for ray_job) empty sample_author (id ray_job) result ray_job r g None
    fs_nothing ltac:(repeat constructor; lia) (found ray_job) eq_refl E) as [H _]. exact H.
Defined.

Lemma log_answered :
  match GetJobLogs "/data" never sign no_log_runner (fun _ => []) (id running_job) sample_author (mk_gateway (world_for running_job) with_log) with
  | (Ok r, _) => redirect_url r = Some ("https://cos/bucket/" +:+ log_key)
  | _ => False
  end.
Proof. vm_compute. reflexivity. Qed.

Lemma fleet_outputs_by_address_witness :
  exists r, by_address sign with_log (Some "bucket") log_key (raw_log r) (Some ("https://cos/bucket/" +:+ log_key)).
Proof.
  pose proof log_answered as Hl. destruct (GetJobLogs _ _ _ _ _ _ _ _) as [[r|e] g] eqn:E; [|destruct Hl]. exists r.
  destruct (fleet_outputs_by_address "/data" catalog never sign no_log_runner (fun _ => []) (fun _ _ => eq_refl) (fun b k => ex_intro _ _ eq_refl)
    (world_for running_job) with_log sample_author (id running_job) running_job sample_program sample_project None (found running_job) eq_refl eq_refl eq_refl)
    as (H & _). destruct (H r g E) as [_ Ha]. rewrite Hl in Ha. exact Ha.
Defined.
