(* ===== verification/RayLogsProps.v ===== *)
(** * Correctness of the log streaming

    However the body is cut into chunks, the streams hold what a reading of the whole body
    gives; the public one of a provider's job holds only lines marked public; both are the
    longest ends that fit. *)

From S2P Require Import Prelude PyStr Domain Models RayLogs.

Local Open Scope list_scope.
Local Open Scope Z_scope.

(** ** Searching *)

Lemma is_prefix_spec p b : is_prefix p b = true <-> p `prefix_of` b.
Proof.
  revert b. induction p as [|x p IH]; intros b; cbn; [split; [by intros _; exists b|done]|].
  destruct b as [|y b]; [split; [done|by intros [k Hk]]|]. rewrite andb_true_iff, Z.eqb_eq, IH. split.
  - intros [-> [k ->]]. by exists k.
  - intros [k [= -> ->]]. split; [done|by exists k].
Qed.

Lemma is_prefix_app p a c : (length p <= length a)%nat -> is_prefix p (a ++ c) = is_prefix p a.
Proof.
  revert a. induction p as [|x p IH]; intros [|y a] Hl; cbn in *; try done; [lia|]. by rewrite IH by lia.
Qed.

(** What follows the first occurrence of [p]. *)
Definition after (p b : list Z) : option (list Z) := (fun i => drop (i + length p) b) <$> find p b.

Lemma find_cons p x b : is_prefix p (x :: b) = false -> find p (x :: b) = S <$> find p b.
Proof. intros H. cbn [find]. by rewrite H. Qed.

Lemma after_cons p x b : is_prefix p (x :: b) = false -> after p (x :: b) = after p b.
Proof. intros H. unfold after. rewrite find_cons by done. by destruct (find p b). Qed.

Lemma find_Some p b i : find p b = Some i -> exists k r, b = k ++ p ++ r /\ length k = i.
Proof.
  revert i. induction b as [|x b IH]; intros i; cbn [find].
  - destruct (is_prefix p []) eqn:Hp; [|done]. cbn. intros [= <-]. apply is_prefix_spec in Hp as [r Hr]. exists [], r. by split.
  - destruct (is_prefix p (x :: b)) eqn:Hp.
    + intros [= <-]. apply is_prefix_spec in Hp as [r Hr]. exists [], r. by split.
    + destruct (find p b) as [j|]; [|done]. cbn. intros [= <-]. destruct (IH j eq_refl) as (k & r & -> & <-). by exists (x :: k), r.
Qed.

Lemma find_app p a c i : p <> [] -> find p a = Some i -> find p (a ++ c) = Some i.
Proof.
  intros Hne. revert i. induction a as [|x a IH]; intros i; cbn [find app].
  - destruct p; [done|]. by cbn.
  - destruct (is_prefix p (x :: a)) eqn:Hp.
    + apply is_prefix_spec in Hp as [r Hr]. intros [= <-].
      assert (is_prefix p (x :: a ++ c) = true) as ->; [|done]. apply is_prefix_spec. exists (r ++ c).
      by rewrite app_comm_cons, Hr, app_assoc.
    + destruct (find p a) as [j|] eqn:Hj; [|done]. cbn. intros [= <-].
      assert (is_prefix p (x :: a ++ c) = false) as ->; [|by rewrite (IH j)].
      destruct (find_Some _ _ _ Hj) as (k & r & -> & _).
      rewrite <- Hp, app_comm_cons. apply is_prefix_app. cbn. rewrite !length_app. lia.
Qed.

Lemma after_app p a c r : p <> [] -> after p a = Some r -> after p (a ++ c) = Some (r ++ c).
Proof.
  intros Hne. unfold after. destruct (find p a) as [i|] eqn:Hf; [|done]. cbn. intros [= <-].
  rewrite (find_app _ _ _ _ Hne Hf). cbn. f_equal.
  destruct (find_Some _ _ _ Hf) as (k & r & -> & <-). rewrite <- length_app, app_assoc, <- app_assoc, !drop_app_length. done.
Qed.

(** Only the last [length p - 1] elements can begin an occurrence that ends in what follows. *)
Definition tail_of (p b : list Z) : list Z := drop (length b - (length p - 1)) b.

Lemma after_tail p a c : p <> [] -> find p a = None -> after p (tail_of p a ++ c) = after p (a ++ c).
Proof.
  intros Hne. unfold tail_of. induction a as [|x a IH]; [done|]. cbn [find].
  destruct (is_prefix p (x :: a)) eqn:Hp; [done|]. intros Hf.
  destruct (decide (length p <= length (x :: a))%nat) as [Hl|Hl].
  - replace (length (x :: a) - (length p - 1))%nat with (S (length a - (length p - 1)))%nat
      by (cbn in *; destruct p; [done|cbn in *; lia]).
    cbn [drop]. rewrite IH by (by destruct (find p a)). symmetry. cbn [app]. apply after_cons.
    by rewrite app_comm_cons, is_prefix_app.
  - by replace (length (x :: a) - (length p - 1))%nat with 0%nat by lia.
Qed.

Lemma find_tail p a : find p a = None -> find p (tail_of p a) = None.
Proof.
  unfold tail_of. generalize (length a - (length p - 1))%nat as n. induction a as [|x a IH]; intros [|n]; [done..|].
  cbn [find drop]. destruct (is_prefix _ _); [done|]. intros H. apply IH. by destruct (find p a).
Qed.

Lemma tail_of_tail p a c : tail_of p (tail_of p a ++ c) = tail_of p (a ++ c).
Proof.
  unfold tail_of. rewrite !length_app, length_drop. set (k := (length p - 1)%nat).
  destruct (decide (k <= length c)%nat) as [Hc|Hc].
  - rewrite !drop_app_ge by (rewrite ?length_drop; lia). rewrite length_drop. f_equal. lia.
  - rewrite !drop_app_le by (rewrite ?length_drop; lia). rewrite drop_drop. f_equal. f_equal. lia.
Qed.

(** ** Lines *)

(** The lines that end with an escaped newline, and the rest. *)
Fixpoint cut (b : Bytes) : list Bytes * Bytes :=
  match b with
  | [] => ([], [])
  | x :: rest =>
      match rest with
      | y :: rest' =>
          if (x =? 92) && (y =? 110) then ([] :: (cut rest').1, (cut rest').2)
          else match cut rest with
               | (l :: ls, r) => ((x :: l) :: ls, r)
               | ([], r) => ([], x :: r)
               end
      | [] => ([], [x])
      end
  end.

Lemma cut_cons x y rest :
  cut (x :: y :: rest) =
    if is_prefix _JSON_ENCODED_NL (x :: y :: rest) then ([] :: (cut rest).1, (cut rest).2)
    else match cut (y :: rest) with
         | (l :: ls, r) => ((x :: l) :: ls, r)
         | ([], r) => ([], x :: r)
         end.
Proof.
  change (is_prefix _JSON_ENCODED_NL (x :: y :: rest)) with ((92 =? x) && ((110 =? y) && true)).
  by rewrite (Z.eqb_sym 92 x), (Z.eqb_sym 110 y), andb_true_r.
Qed.

Lemma cut_find b :
  cut b = match find _JSON_ENCODED_NL b with
          | None => ([], b)
          | Some nl => (take nl b :: (cut (drop (nl + 2) b)).1, (cut (drop (nl + 2) b)).2)
          end.
Proof.
  induction b as [|x b IH]; [done|]. destruct b as [|y b']; [cbn; by rewrite andb_false_r|].
  rewrite cut_cons. destruct (is_prefix _JSON_ENCODED_NL (x :: y :: b')) eqn:Hp.
  - change (find _JSON_ENCODED_NL (x :: y :: b')) with
      (if is_prefix _JSON_ENCODED_NL (x :: y :: b') then Some 0%nat else S <$> find _JSON_ENCODED_NL (y :: b')).
    by rewrite Hp.
  - rewrite (find_cons _ _ _ Hp), IH. by destruct (find _JSON_ENCODED_NL (y :: b')).
Qed.

Lemma nl_nonempty : _JSON_ENCODED_NL <> [].
Proof. discriminate. Qed.

Lemma cut_none b : find _JSON_ENCODED_NL b = None -> cut b = ([], b).
Proof. intros H. by rewrite cut_find, H. Qed.

Lemma cut_ind (P : Bytes -> Prop) :
  (forall b, find _JSON_ENCODED_NL b = None -> P b) ->
  (forall b nl, find _JSON_ENCODED_NL b = Some nl -> P (drop (nl + 2) b) -> P b) ->
  forall b, P b.
Proof.
  intros Hn Hs b. remember (length b) as n eqn:Hl. revert b Hl. induction n as [n IH] using lt_wf_ind. intros b ->.
  destruct (find _JSON_ENCODED_NL b) as [nl|] eqn:Hf; [|by apply Hn]. eapply Hs; [done|].
  eapply IH; [|done]. destruct (find_Some _ _ _ Hf) as (k & r & -> & <-). rewrite length_drop, !length_app. cbn. lia.
Qed.

Lemma cut_rest b : find _JSON_ENCODED_NL (cut b).2 = None.
Proof.
  induction b as [b Hf|b nl Hf IH] using cut_ind; rewrite cut_find, Hf; [done|exact IH].
Qed.

Lemma cut_app a c :
  cut (a ++ c) = ((cut a).1 ++ (cut ((cut a).2 ++ c)).1, (cut ((cut a).2 ++ c)).2).
Proof.
  induction a as [a Hf|a nl Hf IH] using cut_ind; rewrite (cut_find a), Hf.
  - cbn. by destruct (cut (a ++ c)).
  - rewrite (cut_find (a ++ c)), (find_app _ a c nl nl_nonempty Hf). cbn [fst snd].
    destruct (find_Some _ _ _ Hf) as (k & r & Ha & Hk).
    assert (nl + 2 <= length a)%nat as Hl by (rewrite Ha, <- Hk, !length_app; cbn; lia).
    rewrite drop_app_le, IH, take_app_le by lia. done.
Qed.

Fixpoint decode_all (ls : list Bytes) : outcome (list Line) :=
  match ls with
  | [] => Ok []
  | l :: ls =>
      match _decode_json_string l with
      | Raise e => Raise e
      | Ok line => match decode_all ls with Raise e => Raise e | Ok lines => Ok (line :: lines) end
      end
  end.

Lemma decode_all_app a b :
  decode_all (a ++ b) = match decode_all a with
                        | Raise e => Raise e
                        | Ok la => match decode_all b with Raise e => Raise e | Ok lb => Ok (la ++ lb) end
                        end.
Proof.
  induction a as [|x a IH]; cbn; [by destruct (decode_all b)|]. destruct (_decode_json_string x); [|done]. rewrite IH.
  destruct (decode_all a); [|done]. by destruct (decode_all b).
Qed.

Section consume.
Context {S : Type} (on_line : Line -> S -> S).

Definition feed (lines : list Line) (s : S) : S := fold_left (fun s line => on_line line s) lines s.

Lemma feed_app a b s : feed (a ++ b) s = feed b (feed a s).
Proof. apply fold_left_app. Qed.

Lemma consume_spec fuel b s :
  (length b <= fuel)%nat ->
  consume on_line fuel b s = match decode_all (cut b).1 with
                             | Raise e => Raise e
                             | Ok lines => Ok ((cut b).2, feed lines s)
                             end.
Proof.
  revert b s. induction fuel as [|fuel IH]; intros b s Hl.
  - destruct b; [done|cbn in Hl; lia].
  - cbn [consume]. rewrite cut_find. destruct (find _JSON_ENCODED_NL b) as [nl|] eqn:Hf; [|done]. cbn [fst snd decode_all].
    destruct (_decode_json_string (take nl b)) as [line|e]; [|done]. rewrite IH.
    + by destruct (decode_all _).
    + destruct (find_Some _ _ _ Hf) as (k & r & -> & <-). rewrite length_drop, !length_app in *. cbn in *. lia.
Qed.

Lemma consume_logs_spec b s :
  _consume_logs on_line b s = match decode_all (cut b).1 with
                              | Raise e => Raise e
                              | Ok lines => Ok ((cut b).2, feed lines s)
                              end.
Proof. by apply consume_spec. Qed.
End consume.

(** ** The whole body *)

Definition marker_tail : Bytes -> Bytes := tail_of _LOG_VALUE_MARKER.

Lemma marker_nonempty : _LOG_VALUE_MARKER <> [].
Proof. discriminate. Qed.

Lemma seek_spec b :
  _seek_log_marker b = match after _LOG_VALUE_MARKER b with
                       | Some v => (true, v)
                       | None => (false, marker_tail b)
                       end.
Proof.
  unfold _seek_log_marker, after, marker_tail, tail_of. destruct (find _ b) as [i|]; [done|]. cbn [fmap option_fmap option_map].
  case_match eqn:Hl; [done|]. apply Nat.ltb_ge in Hl. by replace (length b - _)%nat with 0%nat by lia.
Qed.

(** What is read of a body: the lines that end, and the rest of the buffer. *)
Definition pieces (body : Bytes) : list Bytes * Bytes :=
  match after _LOG_VALUE_MARKER body with
  | Some value => cut value
  | None => ([], marker_tail body)
  end.

(** The lines of a body, in order. *)
Definition raw_lines (body : Bytes) : outcome (list Line) :=
  match decode_all (pieces body).1 with
  | Raise e => Raise e
  | Ok lines =>
      match trim_tail (pieces body).2 with
      | [] => Ok lines
      | tail =>
          match _decode_json_string tail with
          | Raise e => Raise e
          | Ok [] => Ok lines
          | Ok line => Ok (lines ++ [line])
          end
      end
  end.

Section stream.
Context (is_provider : bool) (max_chars : Z).
Let dispatch := dispatch is_provider max_chars.
Let stream_chunks := stream_chunks is_provider max_chars.

Lemma stream_chunks_value chunks buffer st :
  find _JSON_ENCODED_NL buffer = None ->
  stream_chunks chunks buffer true st =
    match decode_all (cut (buffer ++ concat chunks)).1 with
    | Raise e => Raise e
    | Ok lines => Ok ((cut (buffer ++ concat chunks)).2, true, feed dispatch lines st)
    end.
Proof.
  revert buffer st. induction chunks as [|chunk chunks IH]; intros buffer st Hb.
  - cbn [concat]. rewrite app_nil_r, cut_none by done. done.
  - destruct chunk as [|x chunk]; [by apply IH|]. set (c := x :: chunk).
    change (stream_chunks (c :: chunks) buffer true st) with
      (match _consume_logs dispatch (buffer ++ c) st with
       | Raise e => Raise e
       | Ok (buffer, st) => stream_chunks chunks buffer true st
       end).
    rewrite consume_logs_spec. cbn [concat]. rewrite app_assoc, (cut_app (buffer ++ c)). cbn [fst snd].
    rewrite decode_all_app. destruct (decode_all (cut (buffer ++ c)).1) as [lines|e]; [|done].
    rewrite IH by apply cut_rest. destruct (decode_all _) as [lines'|e]; [|done]. by rewrite feed_app.
Qed.

Lemma stream_chunks_start chunks seen st :
  find _LOG_VALUE_MARKER seen = None ->
  stream_chunks chunks (marker_tail seen) false st =
    match after _LOG_VALUE_MARKER (seen ++ concat chunks) with
    | None => Ok (marker_tail (seen ++ concat chunks), false, st)
    | Some value =>
        match decode_all (cut value).1 with
        | Raise e => Raise e
        | Ok lines => Ok ((cut value).2, true, feed dispatch lines st)
        end
    end.
Proof.
  revert seen st. induction chunks as [|chunk chunks IH]; intros seen st Hs.
  - cbn [concat]. rewrite app_nil_r. unfold after at 1. by rewrite Hs.
  - destruct chunk as [|x chunk]; [by apply IH|]. set (c := x :: chunk).
    change (stream_chunks (c :: chunks) (marker_tail seen) false st) with
      (let '(in_value, buffer) := _seek_log_marker (marker_tail seen ++ c) in
       if in_value then
         match _consume_logs dispatch buffer st with
         | Raise e => Raise e
         | Ok (buffer, st) => stream_chunks chunks buffer true st
         end
       else stream_chunks chunks buffer false st).
    rewrite seek_spec. unfold marker_tail at 1. rewrite (after_tail _ _ _ marker_nonempty Hs). cbn [concat].
    rewrite !app_assoc. destruct (after _LOG_VALUE_MARKER (seen ++ c)) as [value|] eqn:Ha.
    + rewrite (after_app _ _ _ _ marker_nonempty Ha), consume_logs_spec, cut_app. cbn [fst snd]. rewrite decode_all_app.
      destruct (decode_all (cut value).1) as [lines|e]; [|done].
      rewrite stream_chunks_value by apply cut_rest. destruct (decode_all _) as [lines'|e]; [|done]. by rewrite feed_app.
    + unfold marker_tail at 1 2. rewrite tail_of_tail. apply IH. unfold after in Ha. by destruct (find _ (seen ++ c)).
Qed.

(** What the loop and the tail feed to the streams. *)
Lemma stream_logs_raw chunks :
  stream_logs is_provider max_chars chunks =
    match raw_lines (concat chunks) with
    | Raise e => Raise e
    | Ok lines =>
        let st := feed dispatch lines (empty_stream, empty_stream) in
        Ok (mk_logs (with_notice max_chars st.1) (if is_provider then Some (with_notice max_chars st.2) else None))
    end.
Proof.
  unfold stream_logs, raw_lines, pieces, last_line. change [] with (marker_tail []) at 1.
  change (RayLogs.stream_chunks is_provider max_chars) with stream_chunks.
  rewrite stream_chunks_start by done. cbn [app].
  destruct (after _LOG_VALUE_MARKER (concat chunks)) as [value|].
  - destruct (decode_all (cut value).1) as [lines|e]; [|done]. destruct (trim_tail _) as [|x tail]; [by destruct (feed _ _ _)|].
    destruct (_decode_json_string _) as [[|y line]|e]; [by destruct (feed _ _ _)| |done].
    cbv zeta. rewrite feed_app. change (feed dispatch [y :: line] ?s) with (dispatch (y :: line) s). subst dispatch. by destruct (RayLogs.dispatch _ _ (y :: line) _).
  - cbn [decode_all fst snd]. destruct (trim_tail _) as [|x tail]; [done|].
    destruct (_decode_json_string _) as [[|y line]|e]; [done| |done]. cbv zeta. cbn [app].
    change (feed dispatch [y :: line] ?s) with (dispatch (y :: line) s). subst dispatch. by destruct (RayLogs.dispatch _ _ (y :: line) _).
Qed.
End stream.

(** ** The longest end that fits *)

Definition total (lines : list Line) : Z := Z.of_nat (sum_list_with length lines).

(** The longest end of [lines] of at most [max_chars] characters. *)
Fixpoint keep (max_chars : Z) (lines : list Line) : list Line :=
  match lines with
  | [] => []
  | _ :: rest => if total lines <=? max_chars then lines else keep max_chars rest
  end.

Lemma total_cons l ls : total (l :: ls) = Z.of_nat (length l) + total ls.
Proof. unfold total. cbn. lia. Qed.
Lemma total_app a b : total (a ++ b) = total a + total b.
Proof. unfold total. rewrite sum_list_with_app. lia. Qed.
Lemma total_nonneg ls : 0 <= total ls.
Proof. unfold total. lia. Qed.

Lemma keep_fits max ls : 0 <= max -> total (keep max ls) <= max.
Proof.
  intros Hm. induction ls as [|l ls IH]; [done|]. cbn [keep]. destruct (Z.leb_spec (total (l :: ls)) max); [done|exact IH].
Qed.
Lemma keep_all max ls : total ls <= max -> keep max ls = ls.
Proof. destruct ls as [|l ls]; [done|]. intros H. cbn [keep]. by rewrite (proj2 (Z.leb_le _ _) H). Qed.
Lemma keep_suffix max ls : keep max ls `suffix_of` ls.
Proof. induction ls as [|l ls IH]; [done|]. cbn [keep]. destruct (_ <=? _); [done|]. by apply suffix_cons_r. Qed.

(** It is the longest: every end that fits is an end of it. *)
Lemma keep_longest max ls k : k `suffix_of` ls -> total k <= max -> k `suffix_of` keep max ls.
Proof.
  induction ls as [|l ls IH]; intros Hk Ht; [done|]. cbn [keep]. destruct (Z.leb_spec (total (l :: ls)) max); [done|].
  destruct Hk as [[|x p] Hp]; cbn in Hp; [subst k; lia|]. injection Hp as -> ->. apply IH; [by exists p|done].
Qed.

Lemma shrink_spec max ls :
  0 <= max -> shrink max ls (total ls) = (keep max ls, total (keep max ls), negb (total ls <=? max)).
Proof.
  intros Hm. induction ls as [|l ls IH]; [change (total []) with 0; by rewrite (proj2 (Z.leb_le 0 max) Hm)|]. cbn [shrink keep]. rewrite Z.ltb_antisym.
  destruct (Z.leb_spec (total (l :: ls)) max); cbn [negb]; [done|].
  replace (total (l :: ls) - Z.of_nat (length l)) with (total ls) by (rewrite total_cons; lia). by rewrite IH.
Qed.

Lemma keep_snoc max ls l : 0 <= max -> keep max (keep max ls ++ [l]) = keep max (ls ++ [l]).
Proof.
  intros Hm. induction ls as [|x ls IH]; [done|]. cbn [keep].
  destruct (Z.leb_spec (total (x :: ls)) max) as [Hx|Hx]; [done|]. rewrite IH. cbn [app keep].
  destruct (Z.leb_spec (total (x :: ls ++ [l])) max) as [Hy|Hy]; [|done].
  rewrite app_comm_cons, total_app in Hy. pose proof (total_nonneg [l]). lia.
Qed.

(** A stream that was fed [lines]. *)
Definition stream_of (max : Z) (lines : list Line) : LogStream :=
  mk_stream (keep max lines) (total (keep max lines)) (negb (total lines <=? max)).

Lemma append_stream_of max ls l : 0 <= max -> append max l (stream_of max ls) = stream_of max (ls ++ [l]).
Proof.
  intros Hm. unfold append, _append_bounded, stream_of. cbn [s_lines s_chars s_truncated].
  replace (total (keep max ls) + Z.of_nat (length l)) with (total (keep max ls ++ [l])) by (rewrite total_app, total_cons; change (total []) with 0; lia).
  rewrite shrink_spec, keep_snoc by done. f_equal. rewrite !total_app, !total_cons. change (total []) with 0.
  destruct (Z.leb_spec (total ls) max) as [H|H]; cbn [negb orb].
  - by rewrite keep_all.
  - symmetry. apply negb_true_iff, Z.leb_gt. lia.
Qed.

Section streams.
Context (is_provider : bool) (max : Z).

(** The line a raw line is in the public stream, and in the private one. *)
Definition public_line (raw : Line) : option Line :=
  if is_pub raw then Some (drop 9 raw)
  else if is_provider then None
  else Some (if is_priv raw then drop 10 raw else raw).
Definition private_line (raw : Line) : option Line :=
  if is_provider && negb (is_pub raw) then Some (if is_priv raw then drop 10 raw else raw) else None.

Lemma feed_dispatch lines pub priv :
  0 <= max ->
  feed (dispatch is_provider max) lines (stream_of max pub, stream_of max priv) =
    (stream_of max (pub ++ omap public_line lines), stream_of max (priv ++ omap private_line lines)).
Proof.
  intros Hm. revert pub priv. induction lines as [|raw lines IH]; intros pub priv; [by rewrite !app_nil_r|].
  change (feed (dispatch is_provider max) (raw :: lines) ?s) with (feed (dispatch is_provider max) lines (dispatch is_provider max raw s)).
  assert (dispatch is_provider max raw (stream_of max pub, stream_of max priv)
          = (stream_of max (pub ++ option_list (public_line raw)), stream_of max (priv ++ option_list (private_line raw)))) as ->.
  { unfold dispatch, public_line, private_line. destruct is_provider, (is_pub raw); cbn [andb negb option_list];
      by rewrite ?app_nil_r, append_stream_of. }
  rewrite IH, <- !app_assoc. do 2 f_equal; f_equal; cbn; [by destruct (public_line raw)|by destruct (private_line raw)].
Qed.
End streams.

(** ** The logs *)

(** The lines of a stream as they are returned. *)
Definition returned (max : Z) (lines : list Line) : list Line :=
  if total lines <=? max then lines else truncation_msg max :: keep max lines.

Lemma with_notice_stream_of max lines : with_notice max (stream_of max lines) = returned max lines.
Proof.
  unfold with_notice, stream_of, returned. cbn [s_truncated s_lines]. destruct (Z.leb_spec (total lines) max); cbn [negb]; [|done].
  by apply keep_all.
Qed.

Definition logs_of (is_provider : bool) (max : Z) (lines : list Line) : FilteredLogs :=
  mk_logs (returned max (omap (public_line is_provider) lines))
    (if is_provider then Some (returned max (omap (private_line is_provider) lines)) else None).

Lemma stream_logs_of is_provider max chunks :
  0 <= max ->
  stream_logs is_provider max chunks =
    match raw_lines (concat chunks) with
    | Raise e => Raise e
    | Ok lines => Ok (logs_of is_provider max lines)
    end.
Proof.
  intros Hm. rewrite stream_logs_raw. destruct (raw_lines _) as [lines|e]; [|done]. cbv zeta.
  assert (empty_stream = stream_of max []) as -> by (unfold stream_of; change (total []) with 0; by rewrite (proj2 (Z.leb_le 0 max) Hm)).
  rewrite feed_dispatch by done. cbn [app fst snd]. by rewrite !with_notice_stream_of.
Qed.

(** C24: streaming the logs in chunks gives what reading the whole body gives, however the
    chunks cut it, in the middle of the marker, of an escaped newline or of a character: each
    stream is its lines in order, or their longest end of at most [max_chars] characters
    after a notice. *)
Theorem ray_logs_spec is_provider max chunks chunks' :
  0 <= max -> concat chunks' = concat chunks ->
  stream_logs is_provider max chunks = stream_logs is_provider max chunks'
  /\ stream_logs is_provider max chunks =
       match raw_lines (concat chunks) with
       | Raise e => Raise e
       | Ok lines => Ok (logs_of is_provider max lines)
       end
  /\ forall lines, total (keep max lines) <= max /\ keep max lines `suffix_of` lines
       /\ forall k, k `suffix_of` lines -> total k <= max -> k `suffix_of` keep max lines.
Proof.
  intros Hm Hc. rewrite !stream_logs_of by done. rewrite Hc. split; [done|]. split; [done|]. intros lines.
  split; [by apply keep_fits|]. split; [apply keep_suffix|]. intros. by apply keep_longest.
Qed.

(** whoever may read the public logs of a provider's job reads only what the function
    marked public: each line is what follows the mark of a raw line, or the notice that older
    lines were dropped. A custom function's lines are all public, and none private. *)
Theorem ray_logs_confined is_provider max chunks logs line :
  0 <= max -> stream_logs is_provider max chunks = Ok logs ->
  (private_logs logs = None <-> is_provider = false)
  /\ (line ∈ public_logs logs -> line = truncation_msg max \/ exists raw lines,
        raw_lines (concat chunks) = Ok lines /\ raw ∈ lines
        /\ if is_provider then is_pub raw = true /\ line = drop 9 raw else public_line false raw = Some line).
Proof.
  intros Hm. rewrite stream_logs_of by done. destruct (raw_lines _) as [lines|e]; [|done]. intros [= <-]. cbn [private_logs public_logs].
  split; [by destruct is_provider|]. intros Hin.
  assert (line = truncation_msg max \/ line ∈ omap (public_line is_provider) lines) as [->|Hl]; [|by left|right].
  { unfold logs_of, returned in Hin. cbn [public_logs] in Hin. destruct (_ <=? _); [by right|]. apply elem_of_cons in Hin as [->|Hin]; [by left|right].
    destruct (keep_suffix max (omap (public_line is_provider) lines)) as [p ->]. set_solver. }
  apply list_elem_of_omap in Hl as (raw & Hraw & Hl). exists raw, lines. split; [done|]. split; [done|].
  unfold public_line in *. destruct is_provider; [|done]. destruct (is_pub raw); [|done]. by injection Hl as <-.
Qed.

(** ** Witnesses *)

(** The body of two lines of a provider's job. *)
Definition sample_body : Bytes :=
  text "{" ++ QUOTE :: text "logs" ++ [QUOTE; 58; 32; QUOTE] ++ text "[PUBLIC] hello" ++ _JSON_ENCODED_NL ++ text "secret"
  ++ [QUOTE] ++ text "}".

Lemma ray_logs_spec_witness :
  stream_logs true 100 (map (fun b => [b]) sample_body) = Ok (mk_logs [text "hello"] (Some [text "secret"])).
Proof.
  assert (concat [sample_body] = concat (map (fun b => [b]) sample_body)) as Hc by by vm_compute.
  destruct (ray_logs_spec true 100 (map (fun b => [b]) sample_body) [sample_body] ltac:(lia) Hc) as (-> & _). by vm_compute.
Defined.

Lemma ray_logs_confined_witness :
  text "secret" ∉ match stream_logs true 100 [sample_body] with Ok logs => public_logs logs | Raise _ => [] end.
Proof.
  destruct (stream_logs true 100 [sample_body]) as [logs|e] eqn:E; [|by vm_compute in E].
  intros Hin. destruct (ray_logs_confined true 100 [sample_body] logs (text "secret") ltac:(lia) E) as [_ H].
  destruct (H Hin) as [Hn|(raw & lines & Hl & Hraw & Hp & Hd)]; [by vm_compute in Hn|].
  vm_compute in Hl. injection Hl as <-. apply elem_of_cons in Hraw as [->|Hraw]; [by vm_compute in Hd|].
  apply list_elem_of_singleton in Hraw as ->. by vm_compute in Hp.
Defined.

(** A line with a backslash before an n, [C:\new], is cut in two: the escape of the backslash
    ends with the bytes of an escaped newline. *)
Example backslash_n_cuts_the_line :
  let body := QUOTE :: text "logs" ++ [QUOTE; 58; 32; QUOTE] ++ text "C:" ++ [BACKSLASH; BACKSLASH] ++ text "new"
              ++ [QUOTE] ++ text "}" in
  stream_logs false 100 [body] = Ok (mk_logs [text "C:" ++ [BACKSLASH]; text "ew"] None).
Proof. by vm_compute. Qed.

(** A mark that is not followed by a space takes the first character of the line with it. *)
Example mark_without_space :
  public_line true (text "[PUBLIC]hello") = Some (text "ello").
Proof. by vm_compute. Qed.
