(* ===== verification/RayRunner.v ===== *)
(** * The Ray runner ([core/services/runners/ray_runner.py])

    Submitting a job to a cluster created for it, asking for its status and its logs,
    stopping it and deleting the cluster. Ray, Kubernetes and the files of the function are
    parameters: computations that answer or raise. *)

From S2P Require Import Prelude PyStr Domain Models World BillingEvents JobTransitions Json ValidateArguments RunFunction UploadFunction JobEnvironment Retry RayLogs.

Local Open Scope string_scope.
Local Open Scope list_scope.

(** Ray's [JobStatus]. *)
Inductive RayJobStatus := RAY_PENDING | RAY_RUNNING | RAY_STOPPED | RAY_SUCCEEDED | RAY_FAILED | RAY_OTHER.

Definition _map_status (s : RayJobStatus) : JobStatus :=
  match s with
  | RAY_PENDING => PENDING
  | RAY_RUNNING => RUNNING
  | RAY_STOPPED => STOPPED
  | RAY_SUCCEEDED => SUCCEEDED
  | RAY_FAILED | RAY_OTHER => FAILED
  end.

(** The answer of the dashboard to a request for the logs, and how its body breaks off. *)
Record Response := mk_response { response_ok : bool; response_chunks : list Bytes; response_broken : option exn }.

(** A deletion's [status] and [text]. *)
Record DeleteResponse := mk_delete_response { delete_status : string; delete_text : option string }.

Record RayServices := mk_ray_services {
  JobSubmissionClient : string -> Py unit;
  get_job_status : option string -> Py (option RayJobStatus);
  stop_ray_job : option string -> Py bool;
  submit_ray_job : string -> string -> list (string * Json) -> Py string;
  get_ray_logs : option string -> Py Response;
  cluster_responds : string -> nat -> outcome bool;        (* at each reading of the clock *)
  cluster_data : string -> Job -> outcome unit;             (* the rendered manifest *)
  load_incluster_config : Py unit;
  k8s_api_client : Py unit;                                 (* [ApiClient()] *)
  dynamic_client : Py unit;                                 (* [DynamicClient(k8s_client)], which asks the server *)
  raycluster_resource : Py unit;                            (* [resources.get(kind="RayCluster")] *)
  create_cluster : string -> Py string;
  delete_cluster : string -> Py DeleteResponse;
  certificates : Py unit;
  delete_certificate : string -> Py unit;
  core_v1 : Py unit;
  delete_secret : string -> Py unit;
  unpack_function : Program -> Py string;                   (* the working directory *)
  write_settings : string -> Py unit;
  remove_directory : string -> Py unit;
  decrypt_string : string -> outcome string
}.

Record RaySettings := mk_ray_settings {
  ray_mode_local : bool;
  ray_local_host : string;
  RAY_SETUP_MAX_RETRIES : nat;
  RAY_CLUSTER_MAX_READINESS_TIME : Z;
  FUNCTIONS_LOGS_SIZE_LIMIT : Z
}.

(** The runner's own state next to the process: whether it is connected, and the clusters it
    asked Kubernetes to create and to delete. *)
Record Ray := mk_ray {
  ray_world : World;
  connected : bool;
  created_clusters : list string;
  deleted_clusters : list string
}.
Abbreviation RayM := (M Ray).

Definition on_ray {A} (m : Py A) : RayM A :=
  fun s => let '(o, w) := m (ray_world s) in (o, mk_ray w (connected s) (created_clusters s) (deleted_clusters s)).
Definition set_connected : RayM unit :=
  modify (fun s => mk_ray (ray_world s) true (created_clusters s) (deleted_clusters s)).
Definition cluster_created (name : string) : RayM unit :=
  modify (fun s => mk_ray (ray_world s) (connected s) (created_clusters s ++ [name]) (deleted_clusters s)).
Definition cluster_deletion_asked (name : string) : RayM unit :=
  modify (fun s => mk_ray (ray_world s) (connected s) (created_clusters s) (deleted_clusters s ++ [name])).

(** [try: m except Exception: log]. *)
Definition quietly (m : RayM unit) : RayM unit := try_except m (fun _ => Some (ret tt)).

Definition runner_error (message : string) : exn := mk_exn RunnerError message.

(** [_generate_resource_name]. *)
Definition resource_char (c : ascii) : ascii := if is_lower c || is_digit c || bool_decide (c = "-"%char) then c else "-"%char.
Definition _generate_resource_name (username uuid : string) : string :=
  "c-" +:+ map_str resource_char (take_str 20 (lower username)) +:+ "-" +:+ take_str 8 uuid.

Section runner.
Context (api : RayServices) (settings : RaySettings) (lib : Libraries).
Context (uuid resource_uuid : string)                 (* the [uuid4()] of this submit *)
  (traceparent : option string)                       (* of the current span *)
  (fuel : nat).                                       (* of the wait for the cluster *)

(** ** The connection *)

Definition every (e : exn) : bool := true.

Definition _create_client : Py unit :=
  job <- get_self ;;
  match compute_resource job with
  | None => raise (runner_error "Unable to connect to Ray cluster at. No compute resource")
  | Some resource =>
      try_except
        (retry_function every None (JobSubmissionClient api (cr_host resource)) (RAY_SETUP_MAX_RETRIES settings) ;;; ret tt)
        (fun ex => Some (raise (runner_error ("Unable to connect to Ray cluster at [" +:+ cr_host resource +:+ "]: " +:+ exn_str ex))))
  end.

Definition connect : RayM unit :=
  done <- gets connected ;;
  if done : bool then ret tt else on_ray _create_client ;;; set_connected.
Definition _ensure_connected : RayM unit := done <- gets connected ;; if done : bool then ret tt else connect.

Definition is_active : Py bool :=
  job <- get_self ;;
  match compute_resource job with
  | None => ret false
  | Some resource =>
      if cr_active resource then try_except (_create_client ;;; ret true) (fun _ => Some (ret false)) else ret false
  end.

(** The id Ray knows the job under, as the messages show it. *)
Definition ray_id_text (job : Job) : string := default "None" (ray_job_id job).

(** ** [status], [stop], [logs] *)

Definition or_runner_error {A} (caught : exn -> bool) (message : string) (m : Py A) : Py A :=
  try_except m (fun ex => if caught ex then Some (raise (runner_error (message +:+ ": " +:+ exn_str ex))) else None).

Definition is_runtime_error (e : exn) : bool := isinstance e RuntimeError.
Definition RETRIES : nat := 10.

Definition ray_status : RayM (option JobStatus) :=
  _ensure_connected ;;;
  job <- on_ray get_self ;;
  answer <- on_ray (or_runner_error is_runtime_error ("Unable to get status for job [" +:+ ray_id_text job +:+ "]")
              (retry_function every None (get_job_status api (ray_job_id job)) RETRIES)) ;;
  ret (_map_status <$> mjoin answer).

Definition ray_stop : RayM bool :=
  _ensure_connected ;;;
  job <- on_ray get_self ;;
  answer <- on_ray (or_runner_error is_runtime_error ("Unable to stop job [" +:+ ray_id_text job +:+ "]")
              (retry_function every None (stop_ray_job api (ray_job_id job)) RETRIES)) ;;
  ret (default false answer).

Definition _stream_logs_from_ray : Py FilteredLogs :=
  job <- get_self ;;
  p <- attr (program job) ;;
  let is_provider := bool_decide (is_Some (program_provider p)) in
  let max_chars := FUNCTIONS_LOGS_SIZE_LIMIT settings in
  response <- get_ray_logs api (ray_job_id job) ;;
  if negb (response_ok response) then raise (mk_exn RuntimeError "Ray dashboard returned an HTTP error for the job logs")
  else match response_broken response with
       | None => of_outcome (stream_logs is_provider max_chars (response_chunks response))
       | Some e =>
           match stream_chunks is_provider max_chars (response_chunks response) [] false (empty_stream, empty_stream) with
           | Raise e' => raise e'
           | Ok _ => raise e
           end
       end.

Definition is_request_error (e : exn) : bool := isinstance e RuntimeError || isinstance e RequestException.
Definition LOG_RETRIES : nat := 3.
Definition no_logs : FilteredLogs := mk_logs [] None.

Definition ray_logs : RayM FilteredLogs :=
  _ensure_connected ;;;
  job <- on_ray get_self ;;
  answer <- on_ray (or_runner_error is_request_error ("Unable to get logs for job [" +:+ ray_id_text job +:+ "]")
              (retry_function is_request_error None _stream_logs_from_ray LOG_RETRIES)) ;;
  ret (default no_logs answer).

(** ** Deleting a cluster *)

(** The client of the clusters: four calls, none of them in a [try]. *)
Definition raycluster_client : Py unit :=
  load_incluster_config api ;;; k8s_api_client api ;;; dynamic_client api ;;; raycluster_resource api.

Definition delete_leftovers (cluster_name : string) : RayM unit :=
  quietly (on_ray (certificates api) ;;;
           quietly (on_ray (delete_certificate api cluster_name)) ;;;
           quietly (on_ray (delete_certificate api (cluster_name +:+ "-worker")))) ;;;
  quietly (on_ray (core_v1 api) ;;;
           quietly (on_ray (delete_secret api cluster_name)) ;;;
           quietly (on_ray (delete_secret api (cluster_name +:+ "-worker")))).

Definition _kill_ray_cluster (cluster_name : string) : RayM bool :=
  if ray_mode_local settings then ret true
  else
    on_ray raycluster_client ;;;
    cluster_deletion_asked cluster_name ;;;
    answer <- try_except (r <- on_ray (delete_cluster api cluster_name) ;; ret (inr r))
                (fun ex => Some (ret (inl (isinstance ex KubernetesNotFoundError)))) ;;
    match answer with
    | inl gone => ret gone
    | inr response =>
        let success := bool_decide (delete_status response = "Success") in
        (if success then ret tt else on_ray (attr (delete_text response)) ;;; ret tt) ;;;
        delete_leftovers cluster_name ;;;
        ret success
    end.

Definition ray_free_resources : RayM bool :=
  job <- on_ray get_self ;;
  match compute_resource job with
  | None => ret false
  | Some resource => _kill_ray_cluster (cr_title resource)
  end.

(** ** Submitting *)

(** The loop of [_wait_for_cluster_ready]. *)
Fixpoint wait_ready (fuel : nat) (url : string) (start_time : Z) : Py bool :=
  match fuel with
  | O => ret false
  | S fuel =>
      t <- monotonic ;;
      if (t - start_time <? RAY_CLUSTER_MAX_READINESS_TIME settings)%Z then
        w <- get ;;
        ok <- try_except (of_outcome (cluster_responds api url (ticks w))) (fun _ => Some (ret false)) ;;
        if ok : bool then ret true else wait_ready fuel url start_time
      else ret false
  end.
Definition _wait_for_cluster_ready (cluster_name : string) : Py (string * bool) :=
  let url := "http://" +:+ cluster_name +:+ "-head-svc:8265/" in
  start_time <- monotonic ;;
  ready <- wait_ready fuel url start_time ;;
  ret (url, ready).

Definition _create_k8s_cluster : RayM (string * string) :=
  job <- on_ray get_self ;;
  let cluster_name := _generate_resource_name (username (author job)) uuid in
  of_outcome (cluster_data api cluster_name job) ;;;
  on_ray raycluster_client ;;;
  created <- on_ray (create_cluster api cluster_name) ;;
  cluster_created created ;;;
  try_except
    (if negb (bool_decide (created = cluster_name)) then raise (mk_exn RuntimeError "Wrong name after cluster creation")
     else
       waited <- on_ray (_wait_for_cluster_ready cluster_name) ;;
       let '(host, cluster_is_ready) := waited in
       if cluster_is_ready : bool then ret (host, cluster_name)
       else raise (mk_exn RuntimeError "Something went wrong during cluster creation: Timeout"))
    (fun ex => Some (_kill_ray_cluster created ;;; raise ex)).

(** The environment of the Ray job. *)
Definition ray_environment (job : Job) : outcome (list (string * Json)) :=
  match json_loads lib (env_vars job) with
  | Raise e => Raise e
  | Ok (JObj env_w_span) =>
      let env := match traceparent with
                 | Some t => dict_set env_w_span "QS_OT_TRACEPARENT_ID_KEY" (JStr t)
                 | None => env_w_span
                 end in
      let env := decrypt_env_vars (decrypt_string api) env in
      match snd <$> list_find (fun kv => kv.1 = "ENV_JOB_GATEWAY_TOKEN") env with
      | None => Raise (mk_exn KeyError "ENV_JOB_GATEWAY_TOKEN")
      | Some (_, JStr token) =>
          let env := dict_set env "QISKIT_IBM_RUNTIME_CUSTOM_CLIENT_APP_HEADER"
                       (JStr ("middleware_job_id/" +:+ id job +:+ "," +:+ token +:+ "/")) in
          Ok (dict_set env "QISKIT_SETTINGS" (JStr "./qiskit_settings.conf"))
      | Some (_, _) => Raise (mk_exn TypeError "can only concatenate str")
      end
  | Ok _ => Raise (mk_exn (if traceparent then TypeError else AttributeError) "not a dict")
  end.

Definition _submit_to_ray (resource : ComputeResource) : Py (option string) :=
  job <- get_self ;;
  p <- attr (program job) ;;
  (if bool_decide (image p = None) && negb (truthy (artifact p)) then
     raise (mk_exn ResourceNotFoundError ("Program [" +:+ title p +:+ "] has no image or artifact associated."))
   else ret tt) ;;;
  directory <- unpack_function api p ;;
  env <- of_outcome (ray_environment job) ;;
  write_settings api directory ;;;
  retry_function every None (JobSubmissionClient api (cr_host resource)) (RAY_SETUP_MAX_RETRIES settings) ;;;
  ray_id <- retry_function every None (submit_ray_job api ("python " +:+ entrypoint p) directory env) (RAY_SETUP_MAX_RETRIES settings) ;;
  remove_directory api directory ;;;
  ret ray_id.

Definition submit_failed (job : Job) (ex : exn) : exn :=
  runner_error ("Failed to submit job [" +:+ id job +:+ "]: " +:+ exn_str ex).

(** Where the job will run: the host, the title, and the cluster that was created. *)
Definition place : RayM (string * string * option string) :=
  if ray_mode_local settings then ret (ray_local_host settings, "Local compute resource", None)
  else created <- _create_k8s_cluster ;; ret (created.1, created.2, Some created.2).

Definition ray_submit : RayM unit :=
  job <- on_ray get_self ;;
  placed <- try_except place (fun ex => Some (raise (submit_failed job ex))) ;;
  let '(host, title, cluster_name) := placed in
  let resource := mk_resource resource_uuid title host (gpu job) true in
  try_except
    (ray_id <- on_ray (_submit_to_ray resource) ;;
     on_ray (modify_self (set_fields [F_compute_resource (Some resource); F_ray_job_id ray_id])))
    (fun ex => Some
       (match cluster_name with
        | Some name => _kill_ray_cluster name ;;; raise (submit_failed job ex)
        | None => raise (submit_failed job ex)
        end)).

(** ** As a runner *)

(** A new instance is made for each request. *)
Definition with_new_runner {A} (m : RayM A) : Py A :=
  fun w => let '(o, s) := m (mk_ray w false [] []) in (o, ray_world s).

Definition ray_runner : AbstractRunner := {|
  runner_submit := with_new_runner ray_submit ;;; ret None;
  runner_status := with_new_runner ray_status;
  runner_stop := with_new_runner ray_stop;
  runner_free_resources := with_new_runner ray_free_resources
|}.
End runner.
