(* ===== verification/RayTasks.v ===== *)
(** * The scheduler's Ray tasks ([scheduler/tasks/{schedule_ray_jobs,update_ray_jobs_statuses,free_ray_resources}.py])

    Giving queued jobs a cluster, following the jobs that run, deleting the clusters of the
    jobs that ended; with [execute_ray_job] and [fail_job_insufficient_resources] of
    [scheduler/schedule.py]. These write rows with [save_direct], past the transitions. *)

From stdpp Require Import pretty.
From S2P Require Import Prelude PyStr Domain Models World JobEvents BillingEvents JobTransitions CircuitBreaker FleetsBreakers Blocked Schedule UpdateFleets ScheduleFleets Paths Stores FileStorage RayLogs TextFiles FleetPaths JobStorages JobOutputs.

Local Open Scope string_scope.
Local Open Scope list_scope.

(** ** Rows *)

(** A row loaded with [select_related("compute_resource")]. *)
Definition resource_of (d : DB) (job : Job) : option ComputeResource :=
  r ← compute_resource job; compute_resources d !! cr_id r.
Definition loaded (d : DB) (job : Job) : Job := setattr (F_compute_resource (resource_of d job)) job.

(** [ComputeResource.save] and [delete], whose jobs keep no reference to it. *)
Definition save_resource (r : ComputeResource) : Py unit :=
  modify_db (fun d => set_compute_resources (<[cr_id r := r]> (compute_resources d)) d).
Definition uses (resource_id : string) (job : Job) : bool :=
  match compute_resource job with Some r => bool_decide (cr_id r = resource_id) | None => false end.
Definition delete_resource (r : ComputeResource) : Py unit :=
  modify_db (fun d =>
    set_jobs ((fun j => if uses (cr_id r) j then setattr (F_compute_resource None) j else j) <$> jobs d)
      (set_compute_resources (delete (cr_id r) (compute_resources d)) d)).

(** [job.save_direct(fields)]: the instance's values of the fields, over the row. *)
Definition save_direct (fields : Job -> list JobField) : Py unit := job <- get_self ;; update_fields (fields job).

Record RayLimits := mk_ray_limits {
  LIMITS_MAX_CLUSTERS : Z;
  LIMITS_GPU_CLUSTERS : Z;
  LIMITS_JOBS_PER_USER : Z;
  LIMITS_CPU_PER_TASK : Z;
  LIMITS_MEMORY_PER_TASK : Z;
  PROGRAM_TIMEOUT : Z;
  RAY_CLUSTER_NO_DELETE_ON_COMPLETE : bool
}.

Section tasks.
Context (limits : RayLimits) (MEDIA_ROOT : string).
Context (cos_fault : CosOp -> string -> string -> option (exn * bool)) (presigned : string -> string -> outcome string).
Context (get_runner : Job -> outcome AbstractRunner) (runner_logs : Job -> Py FilteredLogs).
Context (json_loads : string -> outcome unit).

(** ** Scheduling *)

(** The status and the wiped environment are left on the instance, for the caller to save. *)
Definition execute_ray_job : Py unit :=
  job <- get_self ;;
  r <- of_outcome (get_runner job) ;;
  try_except
    (runner_submit r ;;;
     modify_self (setattr (F_status PENDING)) ;;;
     job <- get_self ;;
     match compute_resource job with Some resource => save_resource resource | None => ret tt end)
    (fun ex => if isinstance ex RunnerError then Some (modify_self (setattr (F_status FAILED))) else None) ;;;
  modify_self (setattr (F_env_vars "{}")).

Definition ray_queue_wait_metric : Py unit :=
  job <- get_self ;;
  t <- now ;;
  count_metric (QueueWaitTime (t - created job) (if gpu job then "gpu" else "cpu")).

(** One job of the loop. *)
Definition schedule_ray_job : Py unit :=
  job <- get_self ;;
  of_outcome (json_loads (env_vars job)) ;;;
  execute_ray_job ;;;
  save_direct (fun job => [F_status (status job); F_ray_job_id (ray_job_id job); F_compute_resource (compute_resource job); F_env_vars (env_vars job)]) ;;;
  job <- get_self ;;
  add_status_event (id job) SCHEDULER SCHEDULE_JOBS (status job) ;;;
  if bool_decide (status job = PENDING) then ray_queue_wait_metric else ret tt.

Fixpoint schedule_ray_loop (js : list Job) : Py unit :=
  match js with
  | [] => ret tt
  | job :: js =>
      kill <- kill_received ;;
      if kill : bool then ret tt else on_job job schedule_ray_job ;;; schedule_ray_loop js
  end.

(** [ComputeResource.objects.filter(active=True, gpu=gpu).count()]. *)
Definition active_clusters (want_gpu : bool) (d : DB) : nat :=
  size (filter (fun kv => cr_active kv.2 = true /\ cr_gpu kv.2 = want_gpu) (compute_resources d)).

Definition schedule_ray_slots (max_slots_possible : Z) (gpu_job : bool) : Py unit :=
  d <- get_db ;;
  let free_slots := (max_slots_possible - Z.of_nat (active_clusters gpu_job d))%Z in
  if (free_slots <? 1)%Z then ret tt
  else
    js <- get_jobs_to_schedule_fair_share (Z.to_nat free_slots) gpu_job RAY (LIMITS_JOBS_PER_USER limits) ;;
    schedule_ray_loop (loaded d <$> js).

Definition schedule_ray_run : Py unit :=
  maintenance <- Config_get_bool MAINTENANCE ;;
  if maintenance : bool then ret tt
  else schedule_ray_slots (LIMITS_MAX_CLUSTERS limits) false ;;; schedule_ray_slots (LIMITS_GPU_CLUSTERS limits) true.

(** ** Freeing *)

Definition free_ray_job (job : Job) : Py unit :=
  r <- of_outcome (get_runner job) ;;
  success <- on_job job (runner_free_resources r) ;;
  if success : bool then
    match compute_resource job with
    | Some c => save_resource (mk_resource (cr_id c) (cr_title c) (cr_host c) (cr_gpu c) false)
    | None => ret tt
    end
  else ret tt.

Fixpoint free_ray_loop (js : list Job) : Py unit :=
  match js with
  | [] => ret tt
  | job :: js => kill <- kill_received ;; if kill : bool then ret tt else free_ray_job job ;;; free_ray_loop js
  end.

Definition holds_cluster (job : Job) : bool := match compute_resource job with Some c => cr_active c | None => false end.
(** The rows with [status__in=TERMINAL_STATUSES, compute_resource__active=True]. *)
Definition ray_jobs_to_free (d : DB) : list Job :=
  filter (fun j => bool_decide (status j ∈ TERMINAL_STATUSES) && holds_cluster j = true) (loaded d <$> rows d).
Definition free_ray_run : Py unit := d <- get_db ;; free_ray_loop (ray_jobs_to_free d).

(** ** Following *)

(** The status the caller writes. *)
Definition fail_job_insufficient_resources : Py JobStatus :=
  job <- get_self ;;
  (if RAY_CLUSTER_NO_DELETE_ON_COMPLETE limits then attr (compute_resource job) ;;; ret tt
   else
     r <- of_outcome (get_runner job) ;;
     try_except (runner_free_resources r ;;; ret tt)
       (fun ex => if isinstance ex RunnerError then Some (ret tt) else None) ;;;
     resource <- attr (compute_resource job) ;;
     delete_resource resource ;;;
     modify_self (setattr (F_compute_resource None))) ;;;
  ret FAILED.

Definition save_logs_to_storage (logs : FilteredLogs) : Gw unit :=
  job <- in_db get_self ;;
  logs_storage <- in_store (get_logs_storage MEDIA_ROOT job) ;;
  p <- of_outcome (the_program job) ;;
  let save_public := @save_public_logs _ (any_logs cos_fault presigned) logs_storage (as_log (public_logs logs)) in
  if bool_decide (is_Some (program_provider p)) then
    in_store save_public ;;;
    in_store (@save_private_logs _ (any_logs cos_fault presigned) logs_storage (as_log (default [] (private_logs logs))))
  else in_store save_public.

Definition fetch_logs : Gw FilteredLogs :=
  job <- in_db get_self ;;
  try_except (in_db (runner_logs job))
    (fun ex => if isinstance ex RunnerError then Some (ret (mk_logs [text "Error getting logs"] None)) else None).

Definition no_resources_log : Line := text "No available node types can fulfill resource request".
Definition insufficient (lines : FilteredLogs) : bool :=
  existsb (fun line => bool_decide (find no_resources_log line <> None)) (public_logs lines ++ default [] (private_logs lines)).
Definition insufficient_message : FilteredLogs :=
  mk_logs [text "Insufficient resources available to the run job in this configuration." ++ [LF]
           ++ text ("Max resources allowed are " +:+ pretty (LIMITS_CPU_PER_TASK limits) +:+ " CPUs and "
                    +:+ pretty (LIMITS_MEMORY_PER_TASK limits) +:+ " GB of RAM per job.")] None.

(** A filler is not a job that finished. *)
Definition increment_ray_counter : Py unit :=
  job <- get_self ;;
  if filler job then ret tt else count_metric (JobsTerminal (provider_label job) (status job)).

Definition status_fields (job : Job) : list JobField := [F_status (status job); F_sub_status (sub_status job); F_env_vars (env_vars job)].
Definition record_ray_status : Py unit :=
  save_direct status_fields ;;;
  job <- get_self ;;
  add_status_event (id job) SCHEDULER UPDATE_JOB_STATUS (status job) ;;;
  ret tt.

(** The runner cannot tell the status. *)
Definition ray_status_lost : Py unit :=
  modify_self (set_fields [F_status FAILED; F_sub_status None; F_env_vars "{}"]) ;;;
  record_ray_status ;;;
  increment_ray_counter.

Definition terminal (s : option JobStatus) : bool := match s with Some s => bool_decide (s ∈ TERMINAL_STATUSES) | None => false end.
Definition null_status : exn := mk_exn OtherException "NOT NULL constraint failed: api_job.status".

(** The status the runner tells, taken over on the instance; the logs that were fetched. *)
Definition take_status (new : option JobStatus) : Gw (option FilteredLogs) :=
  (match new with Some s => in_db (modify_self (setattr (F_status s))) | None => ret tt end) ;;;
  if terminal new then
    in_db (modify_self (set_fields [F_sub_status None; F_env_vars "{}"])) ;;;
    lines <- fetch_logs ;;
    save_logs_to_storage lines ;;;
    (if bool_decide (new = Some SUCCEEDED) then in_db record_execution_duration else ret tt) ;;;
    ret (Some lines)
  else ret None.

(** The job has no place to run; [true] when it was failed for it. *)
Definition check_resources (lines : option FilteredLogs) : Gw bool :=
  match lines with
  | Some lines =>
      if insufficient lines then
        new <- in_db fail_job_insufficient_resources ;;
        in_db (modify_self (set_fields [F_status new; F_env_vars "{}"])) ;;;
        save_logs_to_storage insufficient_message ;;;
        ret true
      else ret false
  | None => ret false
  end.

Definition update_ray_job : Gw bool :=
  job <- in_db get_self ;;
  if bool_decide (compute_resource job = None) then ret false
  else
    r <- of_outcome (get_runner job) ;;
    answer <- try_except (s <- in_db (runner_status r) ;; ret (Some s))
                (fun ex => if isinstance ex RunnerError then Some (ret None) else None) ;;
    match answer with
    | None => in_db ray_status_lost ;;; ret true
    | Some told =>
        d <- in_db get_db ;;
        timed_out <- in_db (check_job_timeout (PROGRAM_TIMEOUT limits) job (first_running_at (id job) d)) ;;
        (if timed_out : bool then in_db (program_timeout_hours (PROGRAM_TIMEOUT limits)) ;;; ret tt else ret tt) ;;;
        let new := if timed_out : bool then Some STOPPED else told in
        let changed := negb (bool_decide (new = Some (status job))) in
        lines <- (if changed then take_status new else ret None) ;;
        lines <- (if terminal new then ret lines else lines <- fetch_logs ;; ret (Some lines)) ;;
        failed <- check_resources lines ;;
        if failed || changed then
          (if negb failed && bool_decide (new = None) then raise null_status else ret tt) ;;;
          in_db record_ray_status ;;;
          job <- in_db get_self ;;
          (if in_terminal_state job then in_db increment_ray_counter else ret tt) ;;;
          ret true
        else ret false
    end.

(** *** The pass *)

Definition on_gateway_job {A} (j : Job) (m : Gw A) : Gw A :=
  fun g => let '(o, g') := m (mk_gateway (set_self j (gw_world g)) (gw_store g)) in
           (o, mk_gateway (set_self (self (gw_world g)) (gw_world g')) (gw_store g')).

Definition running_ray_jobs (d : DB) : list Job :=
  loaded d <$> filter (fun j => status j ∈ RUNNING_STATUSES /\ runner j <> FLEETS) (rows d).

Fixpoint ray_status_loop (js : list Job) : Gw unit :=
  match js with
  | [] => ret tt
  | job :: js =>
      kill <- in_db kill_received ;;
      if kill : bool then ret tt
      else if negb (if gpu job then 0 <? LIMITS_GPU_CLUSTERS limits else 0 <? LIMITS_MAX_CLUSTERS limits)%Z then ray_status_loop js
      else
        try_except (on_gateway_job job update_ray_job ;;; ret tt)
          (fun ex => if is_db_exception ex then None else Some (ret tt)) ;;;
        ray_status_loop js
  end.

Definition update_ray_run : Gw unit := d <- in_db get_db ;; ray_status_loop (running_ray_jobs d).
End tasks.
