(* ===== verification/RayTasksProps.v ===== *)
(** * Correctness of the scheduler's Ray tasks

    The active clusters stay within the limits; only clusters of ended jobs are freed, and all
    of them once nothing fails. *)

From S2P Require Import Prelude PyStr Domain Models World JobEvents BillingEvents JobTransitions TransitionSpec CircuitBreaker FleetsBreakers Blocked Schedule ScheduleProps UpdateFleets ScheduleFleets Json ValidateArguments RunFunction Retry Paths Stores FileStorage RayLogs TextFiles FleetPaths JobStorages JobOutputs RayTasks RayRunner Samples.

Local Open Scope string_scope.
Local Open Scope list_scope.

(** ** What the runner promises the tasks *)

(** A submit leaves the database alone, and the cluster it gives the job is of the job's kind. *)
Class RaySubmit (r : AbstractRunner) : Prop :=
  ray_submit_law w :
    wp (runner_submit r) (fun _ w' => db w' = db w /\ forall c, compute_resource (self w') = Some c -> cr_gpu c = gpu (self w))
      (fun _ w' => db w' = db w) w.
(** Asking and deleting leave the database and the instance alone. *)
Class RayAsk (r : AbstractRunner) : Prop := {
  ray_status_leaves : rel leaves (runner_status r);
  ray_free_leaves : rel leaves (runner_free_resources r)
}.
#[export] Hint Resolve ray_status_leaves ray_free_leaves : pyrel.

(** *** The Ray runner keeps the promise *)

Class RayApi (api : RayServices) : Prop := {
  api_client host : rel leaves (JobSubmissionClient api host);
  api_status i : rel leaves (get_job_status api i);
  api_logs i : rel leaves (get_ray_logs api i);
  api_submit command directory env : rel leaves (submit_ray_job api command directory env);
  api_incluster : rel leaves (raycluster_client api);
  api_create name : rel leaves (create_cluster api name);
  api_delete name : rel leaves (delete_cluster api name);
  api_certificates : rel leaves (certificates api);
  api_certificate name : rel leaves (delete_certificate api name);
  api_core : rel leaves (core_v1 api);
  api_secret name : rel leaves (delete_secret api name);
  api_unpack p : rel leaves (unpack_function api p);
  api_settings directory : rel leaves (write_settings api directory);
  api_remove directory : rel leaves (remove_directory api directory)
}.
#[export] Hint Resolve api_client api_status api_logs api_submit api_incluster api_create api_delete api_certificates api_certificate
  api_core api_secret api_unpack api_settings api_remove : pyrel.

Section runner.
Context (api : RayServices) `{!RayApi api} (settings : RaySettings) (lib : Libraries).
Context (uuid resource_uuid : string) (traceparent : option string) (fuel : nat).

Definition ray_leaves (s s' : Ray) : Prop := leaves (ray_world s) (ray_world s').
#[local] Instance ray_leaves_preorder : PreOrder ray_leaves.
Proof. split; [by intros s|]. intros x y z. unfold ray_leaves. apply transitivity. Qed.

Lemma leaves_on_ray {A} (m : Py A) : rel leaves m -> rel ray_leaves (on_ray m).
Proof. intros H s. specialize (H (ray_world s)). unfold on_ray, ray_leaves. by destruct (m (ray_world s)). Qed.
Lemma leaves_retry {A} retried budget (m : Py A) n : rel leaves m -> rel leaves (retry_function retried budget m n).
Proof. intros H. apply rel_retry; [exact _|rel_auto|exact H]. Qed.
Lemma leaves_created name : rel ray_leaves (cluster_created name). Proof. by intros s. Qed.
Lemma leaves_asked name : rel ray_leaves (cluster_deletion_asked name). Proof. by intros s. Qed.
Lemma leaves_attr {A} (o : option A) : rel leaves (attr o). Proof. unfold attr. rel_auto. Qed.
Lemma leaves_connected : rel ray_leaves set_connected. Proof. by intros s. Qed.
Lemma leaves_new_runner {A} (m : RayM A) : rel ray_leaves m -> rel leaves (with_new_runner m).
Proof. intros H w. specialize (H (mk_ray w false [] [])). unfold with_new_runner. by destruct (m _). Qed.
#[local] Hint Resolve leaves_on_ray leaves_retry leaves_created leaves_asked leaves_attr leaves_connected : pyrel.

Lemma leaves_wait n url start : rel leaves (wait_ready api settings n url start).
Proof. induction n as [|n IH]; cbn [wait_ready]; rel_auto. Qed.
#[local] Hint Resolve leaves_wait : pyrel.
Lemma leaves_kill_cluster name : rel ray_leaves (_kill_ray_cluster api settings name).
Proof. unfold _kill_ray_cluster, delete_leftovers, quietly. rel_auto. Qed.
#[local] Hint Resolve leaves_kill_cluster : pyrel.
Lemma leaves_waiting name : rel leaves (_wait_for_cluster_ready api settings fuel name).
Proof. unfold _wait_for_cluster_ready. cbv zeta. rel_auto. Qed.
#[local] Hint Resolve leaves_waiting : pyrel.
Lemma leaves_place : rel ray_leaves (place api settings uuid fuel).
Proof. unfold place, _create_k8s_cluster. cbv zeta. rel_auto. Qed.
Lemma leaves_to_ray resource : rel leaves (_submit_to_ray api settings lib traceparent resource).
Proof. unfold _submit_to_ray. rel_auto. Qed.
Lemma leaves_or_error {A} caught message (m : Py A) : rel leaves m -> rel leaves (or_runner_error caught message m).
Proof. intros H. unfold or_runner_error. rel_auto. Qed.
Lemma leaves_client : rel leaves (_create_client api settings).
Proof. unfold _create_client. rel_auto. Qed.
#[local] Hint Resolve leaves_or_error leaves_client : pyrel.
Lemma leaves_connect : rel ray_leaves (_ensure_connected api settings).
Proof. unfold _ensure_connected, connect. rel_auto. Qed.
Lemma leaves_stream : rel leaves (_stream_logs_from_ray api settings).
Proof. unfold _stream_logs_from_ray. cbv zeta. rel_auto. Qed.
#[local] Hint Resolve leaves_connect leaves_stream : pyrel.

(** The logs a job is asked for. *)
Lemma ray_logs_leave : rel leaves (with_new_runner (ray_logs api settings)).
Proof. apply leaves_new_runner. unfold ray_logs. rel_auto. Qed.

#[export] Instance ray_runner_asks : RayAsk (ray_runner api settings lib uuid resource_uuid traceparent fuel).
Proof.
  split; cbn [runner_status runner_free_resources ray_runner]; apply leaves_new_runner.
  - unfold ray_status. rel_auto.
  - unfold ray_free_resources. rel_auto.
Qed.

#[export] Instance ray_runner_submits : RaySubmit (ray_runner api settings lib uuid resource_uuid traceparent fuel).
Proof.
  intros w. cbn [runner_submit ray_runner]. apply wp_bind. unfold wp at 1, with_new_runner. set (s0 := mk_ray w false [] []).
  assert (wp (ray_submit api settings lib uuid resource_uuid traceparent fuel)
    (fun _ s => db (ray_world s) = db w /\ forall c, compute_resource (self (ray_world s)) = Some c -> cr_gpu c = gpu (self w))
    (fun _ s => db (ray_world s) = db w) s0) as H;
    [|unfold wp in H; destruct (ray_submit _ _ _ _ _ _ _ s0) as [[u|e] s]; exact H].
  unfold ray_submit. apply wp_bind. unfold wp at 1, on_ray at 1, get_self, gets. cbn [ray_world s0]. set (s1 := mk_ray _ _ _ _).
  assert (ray_leaves s0 s1) as H1 by done. clearbody s1. apply wp_bind, wp_try_except.
  eapply wp_mono; [apply (wp_rel _ _ s1 leaves_place)| |intros e s2 H2; unfold wp, raise; exact (proj1 (transitivity H1 H2))].
  intros [[host title] cluster] s2 H2. pose proof (transitivity H1 H2 : ray_leaves s0 s2) as H02. clear H1 H2. cbv zeta.
  apply wp_try_except, wp_bind. eapply wp_mono; [apply (wp_rel _ _ s2 (leaves_on_ray _ (leaves_to_ray _)))| |].
  - intros ray_id s3 H3. unfold wp, on_ray, modify_self, modify. split; [exact (proj1 (transitivity H02 H3))|]. cbn. by intros c [= <-].
  - intros e s3 H3. pose proof (transitivity H02 H3 : ray_leaves s0 s3) as H03. destruct cluster as [name|]; [|exact (proj1 H03)].
    apply wp_bind. eapply wp_mono; [apply (wp_rel _ _ s3 (leaves_kill_cluster name))| |];
      intros b s4 H4; unfold wp, raise; exact (proj1 (transitivity H03 H4)).
Qed.
End runner.

(** ** The clusters *)

Definition one_of (g g' : bool) : nat := if bool_decide (g = g') then 1 else 0.

Lemma active_save r g w :
  (active_clusters g (db (snd (save_resource r w))) <= active_clusters g (db w) + one_of (cr_gpu r) g)%nat.
Proof.
  unfold save_resource, modify_db, modify, active_clusters, one_of. cbn. rewrite map_filter_insert. cbn. case_decide as Hd.
  - destruct Hd as [_ Hg]. rewrite bool_decide_true by done. rewrite map_size_insert. destruct (_ !! cr_id r); cbn; lia.
  - rewrite map_filter_delete, map_size_delete. destruct (_ !! cr_id r); cbn; lia.
Qed.

(** The clusters are left alone. *)
Definition same_resources (w w' : World) : Prop := compute_resources (db w') = compute_resources (db w).
#[export] Instance same_resources_preorder : PreOrder same_resources.
Proof. split; unfold same_resources; [done|congruence]. Qed.
Lemma active_same w w' g : same_resources w w' -> active_clusters g (db w') = active_clusters g (db w).
Proof. unfold active_clusters. by intros ->. Qed.
Lemma same_resources_db {A} (m : Py A) : rel same_db m -> rel same_resources m.
Proof. apply rel_mono. unfold same_resources. by intros w w' ->. Qed.
Lemma same_resources_update fs : rel same_resources (update_fields fs).
Proof. unfold update_fields, refresh_version. intros w. cbn. by destruct (_ !! _). Qed.
Lemma same_resources_save fields : rel same_resources (save_direct fields).
Proof. unfold save_direct. pose proof same_resources_update. rel_auto; apply same_resources_db; rel_auto. Qed.
Lemma same_resources_event j o c s : rel same_resources (add_status_event j o c s).
Proof. done. Qed.
#[export] Hint Resolve same_resources_update same_resources_save same_resources_event : pyrel.

(** ** Scheduling keeps the limits *)

Section scheduling.
Context (limits : RayLimits) (get_runner : Job -> outcome AbstractRunner) (json_loads : string -> outcome unit).
Context (submits : forall j r, get_runner j = Ok r -> RaySubmit r).

(** One job takes at most one cluster, of its own kind. *)
Definition at_most (n : nat) (g : bool) (w : World) {A} (m : Py A) : Prop :=
  (active_clusters g (db (snd (m w))) <= active_clusters g (db w) + n)%nat.

Lemma execute_at_most g w : at_most (one_of (gpu (self w)) g) g w (execute_ray_job get_runner).
Proof.
  unfold at_most. set (n := one_of _ _).
  assert (wp (execute_ray_job get_runner) (fun _ w' => (active_clusters g (db w') <= active_clusters g (db w) + n)%nat)
    (fun _ w' => (active_clusters g (db w') <= active_clusters g (db w) + n)%nat) w) as H;
    [|unfold wp in H; by destruct (execute_ray_job _ _) as [[]]].
  unfold execute_ray_job. apply wp_bind. unfold wp at 1, get_self, gets. apply wp_bind, wp_of_outcome; [|intros; lia].
  intros r Hr. specialize (submits _ _ Hr w). apply wp_bind, wp_try_except, wp_bind.
  eapply wp_mono; [exact submits| |].
  - intros a w1 [Hdb Hc]. unfold wp, bind, modify_self, modify, get_self, gets. cbn [self set_self setattr compute_resource].
    destruct (compute_resource (self w1)) as [c|] eqn:E; cbn [ret]; [|cbn; rewrite Hdb; lia].
    pose proof (active_save c g (set_self (setattr (F_status PENDING) (self w1)) w1)) as Hs.
    rewrite (Hc c eq_refl) in Hs. cbn [db set_self] in Hs. rewrite Hdb in Hs. exact Hs.
  - intros e w1 Hdb. destruct (isinstance e RunnerError); cbn; rewrite Hdb; lia.
Qed.

Lemma at_most_bind {A B} n g w (m : Py A) (k : A -> Py B) :
  at_most n g w m -> (forall a, rel same_resources (k a)) -> at_most n g w (bind m k).
Proof.
  unfold at_most, bind. intros Hm Hk. destruct (m w) as [[a|e] w']; [|done]. cbn in Hm.
  by rewrite (active_same _ _ g (Hk a w')).
Qed.
Lemma at_most_same {A} n g w (m : Py A) : rel same_resources m -> at_most n g w m.
Proof. intros H. unfold at_most. rewrite (active_same _ _ g (H w)). lia. Qed.

Lemma schedule_job_at_most g w : at_most (one_of (gpu (self w)) g) g w (schedule_ray_job get_runner json_loads).
Proof.
  unfold schedule_ray_job, at_most. unfold bind at 1, get_self at 1, gets. unfold bind at 1. destruct (json_loads _); cbn [of_outcome]; [|cbn; lia].
  apply at_most_bind; [apply execute_at_most|]. intros _. unfold ray_queue_wait_metric.
  rel_auto; apply same_resources_db; rel_auto.
Qed.

(** A pass over jobs of one kind. *)
Lemma loop_at_most gpu_job g js w :
  Forall (fun j => gpu j = gpu_job) js ->
  at_most (length js * one_of gpu_job g) g w (schedule_ray_loop get_runner json_loads js).
Proof.
  intros Hjs. revert w. induction Hjs as [|j js Hj Hjs IH]; intros w; [apply at_most_same; by intros ?|].
  cbn [schedule_ray_loop length]. unfold at_most, bind at 1, kill_received. destruct (killed w _); [cbn; lia|].
  set (w1 := set_ticks _ w). unfold bind, on_job. pose proof (schedule_job_at_most g (set_self j w1)) as Hone.
  unfold at_most in Hone. cbn [self set_self] in Hone. rewrite Hj in Hone. destruct (schedule_ray_job _ _ _) as [[u|e] w2]; cbn [snd db set_self] in Hone.
  - specialize (IH (set_self (self w1) w2)). unfold at_most in IH. cbn [db set_self] in *. subst w1. cbn in Hone. lia.
  - cbn. subst w1. cbn in Hone. lia.
Qed.

(** What the fair share picks for Ray. *)
Lemma ray_picks slots gpu_job w :
  exists js, get_jobs_to_schedule_fair_share slots gpu_job RAY (LIMITS_JOBS_PER_USER limits) w = (Ok js, w)
    /\ (length js <= slots)%nat /\ Forall (fun j => gpu j = gpu_job) js.
Proof.
  unfold get_jobs_to_schedule_fair_share. cbn. eexists. split; [reflexivity|]. split.
  - unfold fair_share. rewrite length_take. lia.
  - set (q := filter _ _). apply Forall_forall. intros j Hj. assert (j ∈ q) as Hq by (eapply elem_of_submseteq; [exact Hj|apply fair_share_submseteq]).
    apply list_elem_of_filter in Hq as [Hq _]. apply Is_true_true in Hq. rewrite !andb_true_iff in Hq.
    destruct Hq as [[[[_ Hg] _] _] _]. by apply bool_decide_eq_true in Hg.
Qed.

Definition ray_limit (g : bool) : Z := if g then LIMITS_GPU_CLUSTERS limits else LIMITS_MAX_CLUSTERS limits.
Definition keeps_limit (g : bool) (w w' : World) : Prop :=
  (Z.of_nat (active_clusters g (db w')) <= Z.max (Z.of_nat (active_clusters g (db w))) (ray_limit g))%Z.
#[local] Instance keeps_limit_preorder g : PreOrder (keeps_limit g).
Proof. split; unfold keeps_limit; [intros w|intros x y z]; lia. Qed.
Lemma keeps_limit_same g {A} (m : Py A) : rel same_resources m -> rel (keeps_limit g) m.
Proof. intros H w. unfold keeps_limit. rewrite (active_same _ _ g (H w)). lia. Qed.

Lemma slots_keep_limit g gpu_job : rel (keeps_limit g) (schedule_ray_slots limits get_runner json_loads (ray_limit gpu_job) gpu_job).
Proof.
  intros w. unfold schedule_ray_slots, bind at 1, get_db, gets. cbv zeta. destruct (Z.ltb_spec (ray_limit gpu_job - Z.of_nat (active_clusters gpu_job (db w))) 1)%Z; [cbn; reflexivity|].
  destruct (ray_picks (Z.to_nat (ray_limit gpu_job - Z.of_nat (active_clusters gpu_job (db w)))) gpu_job w) as (js & E & Hlen & Hg).
  unfold bind. rewrite E.
  assert (Forall (fun j => gpu j = gpu_job) (loaded (db w) <$> js)) as Hg' by (apply Forall_fmap; eapply Forall_impl; [exact Hg|done]).
  pose proof (loop_at_most _ g _ w Hg') as H'. unfold at_most in H'. rewrite length_fmap in H'. unfold keeps_limit, one_of in *.
  destruct (bool_decide (gpu_job = g)) eqn:Eg; [apply bool_decide_eq_true in Eg as ->|]; nia.
Qed.

(** a scheduling pass never takes the active clusters of a kind past the limit of the
    kind, and adds none where they are past it already, whatever raises on the way. *)
Theorem ray_clusters_limited g w :
  (Z.of_nat (active_clusters g (db (snd (schedule_ray_run limits get_runner json_loads w))))
   <= Z.max (Z.of_nat (active_clusters g (db w))) (if g then LIMITS_GPU_CLUSTERS limits else LIMITS_MAX_CLUSTERS limits))%Z.
Proof.
  change (keeps_limit g w (snd (schedule_ray_run limits get_runner json_loads w))). revert w.
  change (rel (keeps_limit g) (schedule_ray_run limits get_runner json_loads)). unfold schedule_ray_run.
  apply rel_bind; [exact _|apply keeps_limit_same, same_resources_db; rel_auto|]. intros []; [apply rel_ret; exact _|].
  apply rel_bind; [exact _|apply (slots_keep_limit g false)|]. intros _. apply (slots_keep_limit g true).
Qed.
End scheduling.

(** ** Freeing *)

Section freeing.
Context (get_runner : Job -> outcome AbstractRunner).
Context (asks : forall j r, get_runner j = Ok r -> RayAsk r).

Definition switched_off (c : ComputeResource) : ComputeResource := mk_resource (cr_id c) (cr_title c) (cr_host c) (cr_gpu c) false.
(** The table of the clusters is keyed by their ids. *)
Definition keyed (d : DB) : Prop := forall i c, compute_resources d !! i = Some c -> cr_id c = i.
Definition ended_on (d : DB) (i : string) : Prop := exists j, j ∈ rows d /\ uses i j = true /\ status j ∈ TERMINAL_STATUSES.

(** What a pass leaves: the tables of [d], some of the clusters of ended jobs switched off. *)
Record freed (d d' : DB) : Prop := {
  freed_frame : d' = set_compute_resources (compute_resources d') d;
  freed_clusters i :
    compute_resources d' !! i = compute_resources d !! i
    \/ exists c, compute_resources d !! i = Some c /\ cr_active c = true
         /\ compute_resources d' !! i = Some (switched_off c) /\ ended_on d i
}.
Lemma freed_refl d : freed d d.
Proof. split; [by destruct d|]. by left. Qed.

(** A job of the pass: its row, and the cluster as it is in the table. *)
Lemma elem_to_free d j :
  keyed d -> j ∈ ray_jobs_to_free d ->
  exists row c, row ∈ rows d /\ compute_resource j = Some c /\ compute_resources d !! cr_id c = Some c
    /\ cr_active c = true /\ uses (cr_id c) row = true /\ status row ∈ TERMINAL_STATUSES.
Proof.
  intros Hk [Hp (row & -> & Hrow)%list_elem_of_fmap]%list_elem_of_filter. apply andb_true_iff in Hp as [Ht Hc].
  apply bool_decide_eq_true in Ht. unfold holds_cluster, loaded in *. cbn in Ht, Hc |- *. unfold resource_of in *.
  destruct (compute_resource row) as [c0|] eqn:Ec; [|done]. cbn in Hc |- *. destruct (_ !! cr_id c0) as [c|] eqn:E; [|done].
  pose proof (Hk _ _ E) as Hid. exists row, c. rewrite Hid. split_and!; try done. unfold uses. rewrite Ec. by apply bool_decide_eq_true.
Qed.

Lemma free_job_wp d w j :
  keyed d -> j ∈ ray_jobs_to_free d -> freed d (db w) ->
  wp (free_ray_job get_runner j) (fun _ w' => freed d (db w')) (fun _ w' => freed d (db w')) w.
Proof.
  intros Hk Hj Hw. destruct (elem_to_free _ _ Hk Hj) as (row & c & Hrow & Ec & E & Ha & Hu & Ht).
  unfold free_ray_job. apply wp_bind, wp_of_outcome; [|done]. intros r Hr. apply wp_bind. unfold wp at 1, on_job.
  pose proof (ray_free_leaves (RayAsk := asks _ _ Hr) (set_self j w)) as [Hdb _].
  destruct (runner_free_resources r (set_self j w)) as [[[]|e] w1]; cbn in Hdb |- *; [|by rewrite Hdb..].
  rewrite Ec. unfold save_resource, modify_db, modify, wp. cbn. rewrite Hdb. destruct Hw as [Hf Hc]. split; cbn.
  - rewrite Hf. reflexivity.
  - intros i. destruct (decide (i = cr_id c)) as [->|Hne]; [|rewrite lookup_insert_ne by done; apply Hc].
    right. exists c. rewrite lookup_insert_eq. split_and!; try done. by exists row.
Qed.

Lemma free_loop_wp d js w :
  keyed d -> (forall j, j ∈ js -> j ∈ ray_jobs_to_free d) -> freed d (db w) ->
  wp (free_ray_loop get_runner js) (fun _ w' => freed d (db w')) (fun _ w' => freed d (db w')) w.
Proof.
  intros Hk. revert w. induction js as [|j js IH]; intros w Hjs Hw; [done|]. cbn [free_ray_loop].
  apply wp_bind. unfold wp at 1, kill_received. destruct (killed w _); [done|]. apply wp_bind.
  eapply wp_mono; [apply (free_job_wp d); [done|apply Hjs; set_solver|done]| |done].
  intros u w' Hw'. apply IH; [set_solver|done].
Qed.

(** A pass switches off clusters of ended jobs and changes nothing else in the database,
    whatever the runner answers or raises. *)
Theorem free_ray_ended w :
  keyed (db w) -> freed (db w) (db (snd (free_ray_run get_runner w))).
Proof.
  intros Hk. pose proof (free_loop_wp (db w) (ray_jobs_to_free (db w)) w Hk (fun _ H => H) (freed_refl _)) as H.
  unfold free_ray_run, bind, get_db, gets, wp in *. by destruct (free_ray_loop _ _ w) as [[u|e] w'].
Qed.

(** *** When nothing fails, every one of them is freed *)

Context (answers : forall j, exists r, get_runner j = Ok r
  /\ forall w, exists w', runner_free_resources r w = (Ok true, w') /\ killed w' = killed w).

Lemma free_job_frees d w j :
  keyed d -> j ∈ ray_jobs_to_free d ->
  exists w', free_ray_job get_runner j w = (Ok tt, w') /\ killed w' = killed w
    /\ forall c, compute_resource j = Some c -> compute_resources (db w') = <[cr_id c := switched_off c]> (compute_resources (db w)).
Proof.
  intros Hk Hj. destruct (elem_to_free _ _ Hk Hj) as (row & c & Hrow & Ec & E & Ha & Hu & Ht).
  destruct (answers j) as (r & Hr & Hans). destruct (Hans (set_self j w)) as (w1 & Hrun & Hkill).
  pose proof (ray_free_leaves (RayAsk := asks _ _ Hr) (set_self j w)) as [Hdb _]. rewrite Hrun in Hdb. cbn in Hdb, Hkill.
  eexists. split.
  - unfold free_ray_job. erewrite bind_ok; [|by rewrite Hr]. erewrite bind_ok; [|unfold on_job; rewrite Hrun; reflexivity].
    rewrite Ec. reflexivity.
  - split; [exact Hkill|]. intros c' Hc'. rewrite Ec in Hc'. injection Hc' as <-. cbn. by rewrite Hdb.
Qed.

Lemma free_loop_frees d js w :
  keyed d -> (forall j, j ∈ js -> j ∈ ray_jobs_to_free d) -> freed d (db w) -> (forall n, killed w n = false) ->
  exists w', free_ray_loop get_runner js w = (Ok tt, w') /\ forall i,
    compute_resources (db w') !! i = compute_resources (db w) !! i /\ (forall j c, j ∈ js -> compute_resource j = Some c -> cr_id c <> i)
    \/ exists c, compute_resources (db w') !! i = Some c /\ cr_active c = false.
Proof.
  intros Hk. revert w. induction js as [|j js IH]; intros w Hjs Hw Hkill; [eexists; split; [done|]; set_solver|].
  cbn [free_ray_loop]. set (w1 := set_ticks (S (ticks w)) w).
  assert (j ∈ ray_jobs_to_free d) as Hj by (apply Hjs; set_solver).
  destruct (free_job_frees d w1 j Hk Hj) as (w2 & Hrun & Hkill' & Hset).
  pose proof (free_job_wp d w1 j Hk Hj Hw) as Hw2. unfold wp in Hw2. rewrite Hrun in Hw2.
  destruct (IH w2) as (w3 & Hloop & Hend); [set_solver|done|intros n; rewrite Hkill'; apply Hkill|].
  exists w3. split; [erewrite bind_ok; [|reflexivity]; rewrite Hkill; erewrite bind_ok; [exact Hloop|exact Hrun]|].
  destruct (elem_to_free _ _ Hk Hj) as (row & c & _ & Ec & _). intros i. destruct (Hend i) as [[Hi Hnot]|Hoff]; [|by right].
  rewrite Hi, (Hset c Ec). destruct (decide (i = cr_id c)) as [->|Hne].
  - right. exists (switched_off c). by rewrite lookup_insert_eq.
  - left. rewrite lookup_insert_ne by done. split; [done|]. intros j' c' [->|H']%elem_of_cons Hc'; [|by eapply Hnot].
    rewrite Ec in Hc'. injection Hc' as <-. congruence.
Qed.

(** when every deletion succeeds and no shutdown is asked, one pass frees the cluster of
    every job that ended. *)
Theorem free_ray_all w :
  keyed (db w) -> (forall n, killed w n = false) ->
  exists w', free_ray_run get_runner w = (Ok tt, w') /\ ray_jobs_to_free (db w') = [].
Proof.
  intros Hk Hkill.
  destruct (free_loop_frees (db w) (ray_jobs_to_free (db w)) w Hk (fun _ H => H) (freed_refl _) Hkill) as (w' & Hrun & Hend).
  exists w'. split; [exact Hrun|].
  pose proof (free_loop_wp (db w) (ray_jobs_to_free (db w)) w Hk (fun _ H => H) (freed_refl _)) as Hf.
  unfold wp in Hf. rewrite Hrun in Hf. destruct Hf as [Hframe _].
  destruct (ray_jobs_to_free (db w')) as [|j l] eqn:E; [done|exfalso].
  assert (j ∈ ray_jobs_to_free (db w')) as [Hp (row & -> & Hrow)%list_elem_of_fmap]%list_elem_of_filter by (rewrite E; set_solver).
  assert (rows (db w') = rows (db w)) as Hrows by (by rewrite Hframe). rewrite Hrows in Hrow.
  apply andb_true_iff in Hp as [Ht Hc]. unfold holds_cluster, loaded in Hc. cbn in Ht, Hc. unfold resource_of in Hc.
  destruct (compute_resource row) as [c0|] eqn:Ec; [|done]. cbn in Hc.
  destruct (Hend (cr_id c0)) as [[Hi Hnot]|(c & Hi & Hoff)]; rewrite Hi in Hc; [|by rewrite Hoff in Hc].
  destruct (compute_resources (db w) !! cr_id c0) as [c|] eqn:E0; [|done].
  eapply (Hnot (loaded (db w) row) c); [|unfold loaded, resource_of; cbn; by rewrite Ec; cbn|by apply Hk].
  apply list_elem_of_filter. split; [|by apply list_elem_of_fmap_2].
  apply andb_true_iff. split; [exact Ht|]. unfold holds_cluster, loaded, resource_of. cbn. rewrite Ec. cbn. by rewrite E0.
Qed.
End freeing.

(** ** A cluster, a job, a pass *)

Module sample.
Definition limits : RayLimits := mk_ray_limits 1 1 1 2 8 14 false.
Definition cluster (active : bool) : ComputeResource := mk_resource "cluster-1" "c-alice" "http://c-alice" false active.
Definition ray_job (j : JobId) (s : JobStatus) (c : option ComputeResource) : Job :=
  setattr (F_compute_resource c) (with_function RAY (Some sample_program) (sample_job j s None)).
Definition database (js : list Job) (cs : list ComputeResource) : DB :=
  set_compute_resources (list_to_map ((fun c => (cr_id c, c)) <$> cs))
    (mk_db (list_to_map ((fun j => (id j, j)) <$> js)) (concat ((fun j => [status_event (id j) 0 (status j)]) <$> js)) [] 0 ∅ [] ∅).
Definition world (js : list Job) (cs : list ComputeResource) (j : Job) : World :=
  set_config {[ MAINTENANCE := "false" ]} (world_of (database js cs) j).

(** A runner that gives every job the cluster, and tells [told]. *)
Definition told_runner (told : outcome (option JobStatus)) : AbstractRunner := {|
  runner_submit := modify_self (fun j => setattr (F_compute_resource (Some (mk_resource "cluster-1" "c-alice" "http://c-alice" (gpu j) true))) j) ;;; ret None;
  runner_status := of_outcome told;
  runner_stop := ret true;
  runner_free_resources := ret true
|}.
#[export] Instance told_runner_submits told : RaySubmit (told_runner told).
Proof. intros w. split; [done|]. cbn. by intros c [= <-]. Qed.
#[export] Instance told_runner_asks told : RayAsk (told_runner told).
Proof. split; cbn; rel_auto. Qed.
Lemma told_submits told (j : Job) r : Ok (told_runner told) = Ok r -> RaySubmit r.
Proof. intros [= <-]. exact _. Qed.
Lemma told_asks told (j : Job) r : Ok (told_runner told) = Ok r -> RayAsk r.
Proof. intros [= <-]. exact _. Qed.
Lemma told_answers told (j : Job) :
  exists r, Ok (told_runner told) = Ok r /\ forall w, exists w', runner_free_resources r w = (Ok true, w') /\ killed w' = killed w.
Proof. exists (told_runner told). split; [done|]. intros w. by exists w. Qed.

(** Two queued jobs, one place. *)
Definition queue : World := world [ray_job "job-1" QUEUED None; ray_job "job-2" QUEUED None] [] (ray_job "job-1" QUEUED None).
(** A job that ended on the cluster. *)
Definition ended : World := world [ray_job "job-1" SUCCEEDED (Some (cluster true))] [cluster true] (ray_job "job-1" SUCCEEDED None).
Lemma ended_keyed : keyed (db ended).
Proof. intros i c. cbn. rewrite insert_empty. intros [<- <-]%lookup_singleton_Some. done. Qed.
End sample.

Lemma ray_clusters_limited_witness :
  let run := schedule_ray_run sample.limits (fun _ => Ok (sample.told_runner (Ok (Some PENDING)))) (fun _ => Ok tt) in
  active_clusters false (db sample.queue) = 0%nat /\ active_clusters false (db (snd (run sample.queue))) = 1%nat
  /\ (Z.of_nat (active_clusters false (db (snd (run sample.queue)))) <= Z.max (Z.of_nat (active_clusters false (db sample.queue))) 1)%Z.
Proof.
  intros run. split; [by vm_compute|]. split; [by vm_compute|].
  exact (ray_clusters_limited sample.limits _ _ (sample.told_submits (Ok (Some PENDING))) false sample.queue).
Defined.

Lemma free_ray_ended_witness :
  let run := free_ray_run (fun _ => Ok (sample.told_runner (Ok None))) in
  freed (db sample.ended) (db (snd (run sample.ended)))
  /\ compute_resources (db (snd (run sample.ended))) !! "cluster-1" = Some (sample.cluster false).
Proof.
  intros run. split; [|by vm_compute]. apply (free_ray_ended _ (sample.told_asks (Ok None))), sample.ended_keyed.
Defined.

Lemma free_ray_all_witness :
  let run := free_ray_run (fun _ => Ok (sample.told_runner (Ok None))) in
  length (ray_jobs_to_free (db sample.ended)) = 1%nat
  /\ exists w', run sample.ended = (Ok tt, w') /\ ray_jobs_to_free (db w') = [].
Proof.
  intros run. split; [by vm_compute|].
  apply (free_ray_all _ (sample.told_asks (Ok None)) (sample.told_answers (Ok None)) sample.ended); [apply sample.ended_keyed|done].
Defined.

(** * Correctness of the Ray status pass

    A status is written when, and only when, it changed, together with its event; whatever
    fails, the history of a job ends with the status of its row. *)

(** ** Following *)

Section following.
Context (limits : RayLimits) (MEDIA_ROOT : string).
Context (cos_fault : CosOp -> string -> string -> option (exn * bool)) (presigned : string -> string -> outcome string).
Context (get_runner : Job -> outcome AbstractRunner) (runner_logs : Job -> Py FilteredLogs).
Context (asks : forall j r, get_runner j = Ok r -> RayAsk r) (logs_leave : forall j, rel leaves (runner_logs j)).
#[local] Hint Resolve logs_leave : pyrel.

Definition all_same (d d' : DB) : Prop := forall j, Abs.same_job d d' j.
Lemma all_same_trans d d1 d2 : all_same d d1 -> all_same d1 d2 -> all_same d d2.
Proof. intros H H' j. destruct (H j), (H' j). split; congruence. Qed.

(** No status is written, and the instance in hand keeps its status and its environment. *)
Definition stays (w w' : World) : Prop :=
  all_same (db w) (db w') /\ id (self w') = id (self w) /\ status (self w') = status (self w) /\ env_vars (self w') = env_vars (self w).
#[local] Instance stays_preorder : PreOrder stays.
Proof.
  split; [by intros w|]. intros x y z (?&?&?&?) (?&?&?&?). split; [by eapply all_same_trans|]. split_and!; congruence.
Qed.
Lemma stays_leaves {A} (m : Py A) : rel leaves m -> rel stays m.
Proof. apply rel_mono. intros w w' [Hd Hs]. unfold stays, all_same. by rewrite Hd, Hs. Qed.

Definition on_world (R : World -> World -> Prop) (g g' : Gateway) : Prop := R (gw_world g) (gw_world g').
#[local] Instance on_world_preorder R `{!PreOrder R} : PreOrder (on_world R).
Proof. split; unfold on_world; [by intros g|]. intros x y z. apply transitivity. Qed.
Lemma rel_in_db {A} R (m : Py A) : rel R m -> rel (on_world R) (in_db m).
Proof. intros H g. specialize (H (gw_world g)). unfold in_db, on_world. by destruct (m _). Qed.
Lemma rel_in_store {A} R `{!PreOrder R} (m : M Store A) : rel (on_world R) (in_store m).
Proof. intros g. unfold in_store, on_world. by destruct (m _). Qed.
Lemma stays_in_db {A} (m : Py A) : rel leaves m -> rel (on_world stays) (in_db m).
Proof. intros H. by apply rel_in_db, stays_leaves. Qed.
Lemma stays_in_store {A} (m : M Store A) : rel (on_world stays) (in_store m).
Proof. apply rel_in_store, _. Qed.
#[local] Hint Resolve stays_in_db stays_in_store : pyrel.

Lemma stays_fetch : rel (on_world stays) (fetch_logs runner_logs).
Proof. unfold fetch_logs. rel_auto. Qed.
Lemma stays_save_logs lines : rel (on_world stays) (save_logs_to_storage MEDIA_ROOT cos_fault presigned lines).
Proof. unfold save_logs_to_storage. cbv zeta. rel_auto. Qed.
#[local] Hint Resolve stays_fetch stays_save_logs : pyrel.

(** Dropping a cluster drops no status. *)
Lemma same_delete_resource c : rel (fun w w' => all_same (db w) (db w') /\ self w' = self w) (delete_resource c).
Proof.
  intros w. split; [|done]. intros j. unfold delete_resource, modify_db, modify, Abs.same_job, Abs.job_status, Abs.history. cbn.
  rewrite lookup_fmap. split; [|done]. destruct (_ !! j) as [job|]; cbn; [|done]. by destruct (uses _ _).
Qed.
Lemma stays_insufficient : rel stays (fail_job_insufficient_resources limits get_runner).
Proof.
  unfold fail_job_insufficient_resources. apply rel_bind; [exact _|apply stays_leaves; rel_auto|]. intros job.
  apply rel_bind; [exact _| |intros _; rel_auto]. destruct (RAY_CLUSTER_NO_DELETE_ON_COMPLETE _); [apply stays_leaves; unfold attr; rel_auto|].
  apply rel_bind_outcome; [exact _|]. intros r Hr. specialize (asks _ _ Hr).
  apply rel_bind; [exact _|apply stays_leaves; rel_auto|]. intros _.
  apply rel_bind; [exact _|apply stays_leaves; unfold attr; rel_auto|]. intros c.
  apply rel_bind; [exact _| |by intros _ w].
  eapply rel_mono; [|apply same_delete_resource]. intros w w' [H Hs]. unfold stays. by rewrite Hs.
Qed.

(** *** The steps of a job *)

Definition taken (new : option JobStatus) (job : Job) : Job :=
  match new with
  | Some s => if bool_decide (s ∈ TERMINAL_STATUSES) then set_fields [F_sub_status None; F_env_vars "{}"] (setattr (F_status s) job)
              else setattr (F_status s) job
  | None => job
  end.

Lemma take_status_wp new g :
  wp (take_status MEDIA_ROOT cos_fault presigned runner_logs new)
    (fun _ g' => stays (set_self (taken new (self (gw_world g))) (gw_world g)) (gw_world g'))
    (fun _ g' => all_same (db (gw_world g)) (db (gw_world g'))) g.
Proof.
  unfold take_status. apply wp_bind. destruct new as [s|]; [|done].
  unfold wp at 1, in_db at 1, modify_self, modify. cbn [terminal taken]. destruct (bool_decide _) eqn:Es; [|done].
  apply wp_bind. unfold wp at 1, in_db at 1. set (g1 := mk_gateway _ _).
  assert (rel (on_world stays) (lines <- fetch_logs runner_logs ;; save_logs_to_storage MEDIA_ROOT cos_fault presigned lines ;;;
    (if bool_decide (Some s = Some SUCCEEDED) then in_db record_execution_duration else ret tt) ;;; ret (Some lines))) as H.
  { assert (rel leaves record_execution_duration) by (unfold record_execution_duration; rel_auto). rel_auto. }
  eapply wp_mono; [apply (wp_rel _ _ g1 H)|done|]. intros e g' (Hd & _). exact Hd.
Qed.

Lemma check_resources_wp lines g :
  wp (check_resources limits MEDIA_ROOT cos_fault presigned get_runner lines)
    (fun (failed : bool) g' => if failed then stays (set_self (set_fields [F_status FAILED; F_env_vars "{}"] (self (gw_world g))) (gw_world g)) (gw_world g')
                      else stays (gw_world g) (gw_world g'))
    (fun _ g' => all_same (db (gw_world g)) (db (gw_world g'))) g.
Proof.
  unfold check_resources. destruct lines as [lines|]; [|unfold wp; cbn; reflexivity]. destruct (insufficient lines); [|unfold wp; cbn; reflexivity].
  assert (wp (in_db (fail_job_insufficient_resources limits get_runner)) (fun new g1 => new = FAILED /\ on_world stays g g1) (fun _ => on_world stays g) g) as H1.
  { pose proof (rel_in_db _ _ stays_insufficient g) as H. unfold wp, in_db in *.
    destruct (fail_job_insufficient_resources limits get_runner (gw_world g)) as [[s|e] w1] eqn:E; [|exact H]. split; [|exact H].
    unfold fail_job_insufficient_resources in E. inv_run E. done. }
  apply wp_bind. eapply wp_mono; [exact H1| |by intros e g' []]. intros new g1 [-> Hg1]. apply wp_bind.
  unfold wp at 1, in_db, modify_self, modify. apply wp_bind.
  eapply wp_mono; [apply (wp_rel _ _ _ (stays_save_logs _))| |].
  - intros u g2 (Hd & Hid & Hs & He). destruct Hg1 as (Hd1 & Hid1 & _). unfold wp, ret, stays. cbn in *.
    split_and!; [by eapply all_same_trans|congruence..].
  - intros e g2 (Hd & _). destruct Hg1 as (Hd1 & _). by eapply all_same_trans.
Qed.

(** The job in hand, its row and its history, after a status was recorded. *)
Definition followed (s0 : JobStatus) (j : JobId) (d d' : DB) : Prop :=
  exists row, jobs d' !! j = Some row /\ status row <> s0 /\ Abs.history d' j = Abs.history d j ++ [status row]
    /\ (status row ∈ TERMINAL_STATUSES -> env_vars row = "{}") /\ forall j', j' <> j -> Abs.same_job d d' j'.

Lemma record_ray_status_run w row :
  jobs (db w) !! id (self w) = Some row ->
  exists w', record_ray_status w = (Ok tt, w') /\ status (self w') = status (self w)
    /\ (forall s0, status (self w) <> s0 -> (status (self w) ∈ TERMINAL_STATUSES -> env_vars (self w) = "{}") ->
         followed s0 (id (self w)) (db w) (db w')).
Proof.
  intros Hrow. eexists. split.
  - unfold record_ray_status, save_direct. erewrite bind_ok; [reflexivity|]. erewrite bind_ok; [|reflexivity].
    apply (update_fields_run _ _ _ Hrow).
  - split; [done|]. intros s0 Hs0 He. exists (bump_version (set_fields (F_updated (Some (wall w (ticks w))) :: status_fields (self w)) row)).
    split; [apply lookup_insert_eq|]. split; [done|]. unfold Abs.same_job, Abs.job_status, Abs.history.
    cbn [db set_db set_ticks set_self jobs events set_events set_jobs]. rewrite status_history_app, status_history_one.
    unfold of_job. cbn [event_job]. rewrite bool_decide_eq_true_2 by done. split_and!; [done..|]. intros j' Hne.
    rewrite lookup_insert_ne, status_history_app, status_history_one by done. unfold of_job. cbn [event_job].
    by rewrite bool_decide_eq_false_2, app_nil_r.
Qed.

Lemma followed_after s0 j d d1 d2 : all_same d d1 -> followed s0 j d1 d2 -> followed s0 j d d2.
Proof.
  intros Hd (row & Hrow & Hs & Hh & He & Ho). exists row. destruct (Hd j) as [_ Hhj]. split_and!; try done; [congruence|].
  intros j' Hne. destruct (Ho j' Hne), (Hd j'). split; congruence.
Qed.
Lemma followed_later s0 j d w w' : leaves w w' -> followed s0 j d (db w) -> followed s0 j d (db w').
Proof. by intros [-> _]. Qed.

(** Everything is ready for the row to be written. *)
Record ready (s0 : JobStatus) (j : JobId) (d : DB) (w : World) : Prop := {
  ready_same : all_same d (db w);
  ready_id : id (self w) = j;
  ready_row : is_Some (jobs d !! j);
  ready_status : status (self w) <> s0;
  ready_env : status (self w) ∈ TERMINAL_STATUSES -> env_vars (self w) = "{}"
}.
Lemma ready_later s0 j d w w' : stays w w' -> ready s0 j d w -> ready s0 j d w'.
Proof.
  intros (Hd & Hi & Hs & He) []. split; [by eapply all_same_trans|congruence|done|congruence|]. rewrite Hs, He. done.
Qed.

Lemma increment_runs w : exists w', increment_ray_counter w = (Ok tt, w') /\ leaves w w'.
Proof. unfold increment_ray_counter, bind, get_self, gets. destruct (filler _); by eexists. Qed.

Lemma record_wp s0 j d w :
  ready s0 j d w -> wp record_ray_status (fun _ w' => followed s0 j d (db w')) (fun _ _ => False) w.
Proof.
  intros [Hd Hi [row0 Hrow0] Hs He].
  assert (exists row, jobs (db w) !! id (self w) = Some row) as [row Hrow].
  { destruct (Hd j) as [H _]. unfold Abs.job_status in H. rewrite Hrow0, <- Hi in H. destruct (jobs (db w) !! _) as [row|]; [by exists row|done]. }
  destruct (record_ray_status_run _ _ Hrow) as (w' & Hrun & _ & Hf). unfold wp. rewrite Hrun.
  rewrite <- Hi. eapply followed_after; [exact Hd|]. by apply Hf.
Qed.

Lemma write_wp s0 j d g (tail : Gw bool) :
  ready s0 j d (gw_world g) -> (forall g', exists w', tail g' = (Ok true, mk_gateway w' (gw_store g')) /\ leaves (gw_world g') w') ->
  wp (in_db record_ray_status ;;; tail) (fun (b : bool) g' => b = true /\ followed s0 j d (db (gw_world g'))) (fun _ _ => False) g.
Proof.
  intros Hr Ht. apply wp_bind. pose proof (record_wp _ _ _ _ Hr) as H. unfold wp, in_db in *.
  destruct (record_ray_status (gw_world g)) as [[u|e] w1]; [|done]. destruct (Ht (mk_gateway w1 (gw_store g))) as (w2 & -> & Hl).
  split; [done|]. by eapply followed_later.
Qed.

Lemma leaves_timeout job t : rel leaves (check_job_timeout (PROGRAM_TIMEOUT limits) job t).
Proof. unfold check_job_timeout, program_timeout_hours. rel_auto. Qed.
#[local] Hint Resolve leaves_timeout : pyrel.

(** The end of a job that was asked about. *)
Definition settle (told : option JobStatus) (job : Job) (timed_out : bool) : Gw bool :=
  let new := if timed_out then Some STOPPED else told in
  let changed := negb (bool_decide (new = Some (status job))) in
  lines <- (if changed then take_status MEDIA_ROOT cos_fault presigned runner_logs new else ret None) ;;
  lines <- (if terminal new then ret lines else lines <- fetch_logs runner_logs ;; ret (Some lines)) ;;
  failed <- check_resources limits MEDIA_ROOT cos_fault presigned get_runner lines ;;
  if failed || changed then
    (if negb failed && bool_decide (new = None) then raise null_status else ret tt) ;;;
    in_db record_ray_status ;;;
    job <- in_db get_self ;;
    (if in_terminal_state job then in_db increment_ray_counter else ret tt) ;;;
    ret true
  else ret false.

Definition result_of (s0 : JobStatus) (j : JobId) (d : DB) (b : bool) (g' : Gateway) : Prop :=
  if b then followed s0 j d (db (gw_world g')) else all_same d (db (gw_world g')).

Lemma settle_wp told timed_out d job g :
  all_same d (db (gw_world g)) -> id (self (gw_world g)) = id job -> status (self (gw_world g)) = status job ->
  is_Some (jobs d !! id job) -> status job ∉ TERMINAL_STATUSES ->
  wp (settle told job timed_out) (result_of (status job) (id job) d) (fun _ g' => all_same d (db (gw_world g'))) g.
Proof.
  intros Hd Hi Hs Hrow Hnt. unfold settle. set (new := if timed_out then Some STOPPED else told). cbv zeta.
  set (changed := negb (bool_decide (new = Some (status job)))). set (w := gw_world g) in *.
  apply wp_bind.
  assert (wp (if changed then take_status MEDIA_ROOT cos_fault presigned runner_logs new else ret None)
    (fun _ g' => stays (set_self (if changed then taken new (self w) else self w) w) (gw_world g')) (fun _ g' => all_same (db w) (db (gw_world g'))) g) as H1.
  { destruct changed; [apply take_status_wp|]. unfold wp, ret. split; [by intros ?|done]. }
  eapply wp_mono; [exact H1| |intros e g' H; by eapply all_same_trans]. clear H1. intros lines g1 H1. apply wp_bind.
  assert (rel (on_world stays) (if terminal new then ret lines else lines <- fetch_logs runner_logs ;; ret (Some lines))) as H2 by rel_auto.
  eapply wp_mono; [apply (wp_rel _ _ g1 H2)| |].
  2:{ intros e g' H. pose proof (transitivity H1 H) as (Hd' & _). by eapply all_same_trans. }
  clear H2. intros lines' g2 H2. pose proof (transitivity H1 H2 : stays _ _) as H12. clear H1 H2. apply wp_bind.
  assert (forall w', all_same (db (gw_world g2)) (db w') -> all_same d (db w')) as Hlater.
  { intros w' H. destruct H12 as (Hd12 & _). eapply all_same_trans; [exact Hd|]. by eapply all_same_trans. }
  eapply wp_mono; [apply check_resources_wp| |intros e g' H; by apply Hlater].
  intros failed g3 H3. destruct H12 as (Hd2 & Hi2 & Hs2 & He2). cbn [self set_self] in *.
  assert (id (if changed then taken new (self w) else self w) = id job) as Hid.
  { destruct changed; [|done]. destruct new as [s|]; [|done]. cbn. by destruct (bool_decide _). }
  assert (forall x, failed || changed = true -> (negb failed && bool_decide (new = None) = false) -> gw_world g3 = x -> ready (status job) (id job) d x) as Hready.
  { intros x Hfc Hnew <-. destruct failed.
    - destruct H3 as (Hd3 & Hi3 & Hs3 & He3). cbn in *. split; [by apply Hlater|congruence|done| |].
      + rewrite Hs3. intros Heq. apply Hnt. rewrite <- Heq. set_solver.
      + intros _. exact He3.
    - destruct H3 as (Hd3 & Hi3 & Hs3 & He3). cbn [orb negb andb] in Hfc, Hnew. rewrite Hfc in *.
      apply negb_true_iff, bool_decide_eq_false in Hfc. apply bool_decide_eq_false in Hnew. destruct new as [s|]; [|done]. cbn in *.
      split; [by apply Hlater|congruence|done| |].
      + rewrite Hs3, Hs2. destruct (bool_decide (s ∈ _)); cbn; congruence.
      + rewrite Hs3, Hs2, He3, He2. destruct (bool_decide (s ∈ _)) eqn:Et; [done|]. cbn. by apply bool_decide_eq_false in Et. }
  assert (all_same d (db (gw_world g3))) as Hd3 by (apply Hlater; destruct failed; exact (proj1 H3)).
  destruct (failed || changed) eqn:Hfc; [|exact Hd3]. apply wp_bind.
  destruct (negb failed && bool_decide (new = None)) eqn:Hnull; [exact Hd3|]. unfold wp at 1, ret.
  eapply wp_mono; [apply write_wp; [by apply Hready|]|intros b g' [-> H]; exact H|done].
  intros [w4 st4]. destruct (increment_runs w4) as (w5 & E & Hl). unfold bind, in_db at 1, get_self, gets. cbn [gw_world gw_store].
  destruct (in_terminal_state _); [|by eexists]. unfold in_db. cbn [gw_world gw_store]. rewrite E. by exists w5.
Qed.

Lemma lost_wp s0 j d w :
  all_same d (db w) -> id (self w) = j -> is_Some (jobs d !! j) -> s0 ∉ TERMINAL_STATUSES ->
  wp ray_status_lost (fun _ w' => followed s0 j d (db w')) (fun _ _ => False) w.
Proof.
  intros Hd Hi Hrow Hnt. unfold ray_status_lost. apply wp_bind. unfold wp at 1, modify_self, modify. apply wp_bind.
  eapply wp_mono; [apply record_wp; split| |done]; cbn; try done; [intros Heq; apply Hnt; rewrite <- Heq; set_solver|].
  intros u w' Hw'. destruct (increment_runs w') as (w2 & E & Hl). unfold wp. rewrite E. by eapply followed_later.
Qed.

Lemma update_ray_job_wp g :
  let job := self (gw_world g) in let d := db (gw_world g) in
  is_Some (jobs d !! id job) -> status job ∉ TERMINAL_STATUSES ->
  wp (update_ray_job limits MEDIA_ROOT cos_fault presigned get_runner runner_logs)
    (result_of (status job) (id job) d) (fun _ g' => all_same d (db (gw_world g'))) g.
Proof.
  intros job d Hrow Hnt. unfold update_ray_job. apply wp_bind. unfold wp at 1, in_db at 1, get_self at 1, gets. fold job.
  set (g0 := mk_gateway _ _). destruct (bool_decide _); [by intros j|].
  apply wp_bind, wp_of_outcome; [|by intros e _ j]. intros r Hr. pose proof (asks _ _ Hr).
  apply wp_bind. assert (rel (on_world stays) (try_except (s <- in_db (runner_status r) ;; ret (Some s)) (fun ex => if isinstance ex RunnerError then Some (ret None) else None))) as H1 by rel_auto.
  eapply wp_mono; [apply (wp_rel _ _ g0 H1)| |by intros e g' [Hd _]]. clear H1. intros answer g1 (Hd1 & Hi1 & Hs1 & He1).
  destruct answer as [told|].
  - apply wp_bind. unfold wp at 1, in_db at 1, get_db at 1, gets. apply wp_bind.
    assert (forall {A} (m : Py A) (g : Gateway), rel leaves m -> wp (in_db m) (fun _ g' => leaves (gw_world g) (gw_world g')) (fun _ g' => leaves (gw_world g) (gw_world g')) g) as Hleaf.
    { intros A m g' Hm. apply (wp_rel _ _ _ (rel_in_db leaves m Hm)). }
    eapply wp_mono; [apply Hleaf; rel_auto| |by intros e g' [-> _]]. intros timed_out g2 Hl2. apply wp_bind.
    assert (rel (on_world leaves) (if timed_out then in_db (program_timeout_hours (PROGRAM_TIMEOUT limits)) ;;; ret tt else ret tt)) as H3.
    { destruct timed_out; [|apply rel_ret; exact _]. apply rel_bind; [exact _|apply rel_in_db; unfold program_timeout_hours; rel_auto|]. intros. apply rel_ret; exact _. }
    eapply wp_mono; [apply (wp_rel _ _ g2 H3)| |].
    2:{ intros e g' Hl3. destruct (transitivity (Hl2 : on_world leaves _ _) Hl3) as [-> _]. exact Hd1. }
    intros u g3 Hl3. destruct (transitivity (Hl2 : on_world leaves _ _) Hl3) as [Hdb Hself]. cbn in Hdb, Hself.
    apply settle_wp; rewrite ?Hdb, ?Hself; done.
  - apply wp_bind. pose proof (lost_wp (status job) (id job) d (gw_world g1) Hd1 Hi1 Hrow Hnt) as Hlost.
    unfold wp, in_db in *. destruct (ray_status_lost _) as [[u|e] w']; [exact Hlost|done].
Qed.

(** *** The theorems *)

(** following a job of Ray reports a change exactly when it wrote one: then the row has
    a status other than the one the job was loaded with, the status is appended to the history of the
    job, a job that ended has no environment left, and no other job is touched; otherwise, an exception
    included, no status and no event changes. *)
Theorem ray_follow_job g :
  is_Some (jobs (db (gw_world g)) !! id (self (gw_world g))) -> status (self (gw_world g)) ∉ TERMINAL_STATUSES ->
  let '(o, g') := update_ray_job limits MEDIA_ROOT cos_fault presigned get_runner runner_logs g in
  match o with
  | Ok true => followed (status (self (gw_world g))) (id (self (gw_world g))) (db (gw_world g)) (db (gw_world g'))
  | _ => all_same (db (gw_world g)) (db (gw_world g'))
  end.
Proof.
  intros Hrow Hnt. pose proof (update_ray_job_wp g Hrow Hnt) as H. unfold wp, result_of in H.
  by destruct (update_ray_job _ _ _ _ _ _ g) as [[[]|e] g'].
Qed.

(** The history of a job ends with the status its row has. *)
Definition history_current (d : DB) : Prop :=
  forall j s, Abs.job_status d j = Some s -> List.last (Abs.history d j) QUEUED = s.

Definition pass_keeps (w w' : World) : Prop :=
  (forall j, is_Some (jobs (db w) !! j) -> is_Some (jobs (db w') !! j)) /\ (history_current (db w) -> history_current (db w')).
#[local] Instance pass_keeps_preorder : PreOrder pass_keeps.
Proof. split; [by intros w|]. intros x y z [] []. split; auto. Qed.

Lemma job_status_is_Some d j : is_Some (Abs.job_status d j) <-> is_Some (jobs d !! j).
Proof. unfold Abs.job_status. apply fmap_is_Some. Qed.
Lemma all_same_keeps w w' : all_same (db w) (db w') -> pass_keeps w w'.
Proof.
  intros H. split.
  - intros j. rewrite <- !job_status_is_Some. destruct (H j) as [Hs _]. by rewrite Hs.
  - intros Hc j s. destruct (H j) as [-> ->]. apply Hc.
Qed.
Lemma followed_keeps s0 j w w' : followed s0 j (db w) (db w') -> pass_keeps w w'.
Proof.
  intros (row & Hrow & _ & Hh & _ & Ho). split.
  - intros j'. destruct (decide (j' = j)) as [->|Hne]; [by rewrite Hrow|].
    rewrite <- !job_status_is_Some. destruct (Ho j' Hne) as [Hs _]. by rewrite Hs.
  - intros Hc j' s. destruct (decide (j' = j)) as [->|Hne]; [|destruct (Ho j' Hne) as [-> ->]; apply Hc].
    unfold Abs.job_status. rewrite Hrow. cbn. intros [= <-]. by rewrite Hh, last_last.
Qed.

Lemma ray_follow_keeps j g :
  is_Some (jobs (db (gw_world g)) !! id j) -> status j ∉ TERMINAL_STATUSES ->
  pass_keeps (gw_world g) (gw_world (snd (on_gateway_job j (update_ray_job limits MEDIA_ROOT cos_fault presigned get_runner runner_logs) g))).
Proof.
  intros Hrow Hnt. set (g1 := mk_gateway (set_self j (gw_world g)) (gw_store g)). pose proof (update_ray_job_wp g1 Hrow Hnt) as H.
  unfold on_gateway_job. fold g1. unfold wp, result_of in H. change (db (gw_world g1)) with (db (gw_world g)) in H.
  destruct (update_ray_job _ _ _ _ _ _ g1) as [[[]|e] g'];
    [exact (followed_keeps _ _ (gw_world g) (set_self (self (gw_world g)) (gw_world g')) H)
    |exact (all_same_keeps (gw_world g) (set_self (self (gw_world g)) (gw_world g')) H)..].
Qed.

Lemma running_not_terminal s : s ∈ RUNNING_STATUSES -> s ∉ TERMINAL_STATUSES.
Proof. intros H Ht. apply terminal_cases in Ht as [->|[->| ->]]; by apply (bool_decide_eq_true_2 (_ ∈ RUNNING_STATUSES)) in H. Qed.
Lemma follow_loop_keeps js g :
  (forall j, j ∈ js -> is_Some (jobs (db (gw_world g)) !! id j) /\ status j ∉ TERMINAL_STATUSES) ->
  pass_keeps (gw_world g) (gw_world (snd (ray_status_loop limits MEDIA_ROOT cos_fault presigned get_runner runner_logs js g))).
Proof.
  revert g. induction js as [|j js IH]; intros g Hjs; [reflexivity|]. cbn [ray_status_loop].
  unfold bind at 1, in_db at 1, kill_received. set (g1 := mk_gateway _ _).
  assert (pass_keeps (gw_world g) (gw_world g1)) as H1 by done. destruct (killed _ _); [exact H1|].
  etransitivity; [exact H1|]. assert (forall j, j ∈ js -> is_Some (jobs (db (gw_world g1)) !! id j) /\ status j ∉ TERMINAL_STATUSES) as Hjs1 by (intros; apply Hjs; by apply list_elem_of_further).
  destruct (negb _); [by apply IH|].
  destruct (Hjs j (list_elem_of_here _ _)) as [Hrow Hnt].
  pose proof (ray_follow_keeps j g1 Hrow Hnt) as Hone. unfold bind at 1. unfold try_except. unfold bind at 1.
  destruct (on_gateway_job _ _ g1) as [[b|e] g2]; cbn [snd] in Hone.
  - cbn. etransitivity; [exact Hone|]. apply IH. intros j' Hj'. destruct (Hjs1 j' Hj') as [Hr ?]. split; [by apply Hone|done].
  - cbn. destruct (is_db_exception e); [exact Hone|]. etransitivity; [exact Hone|]. apply IH.
    intros j' Hj'. destruct (Hjs1 j' Hj') as [Hr ?]. split; [by apply Hone|done].
Qed.

End following.

(** ** A running job that succeeds *)

Module followed_sample.
Definition running : World :=
  sample.world [sample.ray_job "job-1" RUNNING (Some (sample.cluster true))] [sample.cluster true]
    (sample.ray_job "job-1" RUNNING (Some (sample.cluster true))).
(** The same once a user stopped it, with the instance the pass loaded before. *)
Definition stopped_meanwhile : World :=
  sample.world [sample.ray_job "job-1" STOPPED (Some (sample.cluster true))] [sample.cluster true]
    (sample.ray_job "job-1" PENDING (Some (sample.cluster true))).
Definition gateway (w : World) : Gateway := mk_gateway (set_config {[ PROGRAM_TIMEOUT_HOURS := "14" ]} w) (mk_store ∅ ∅).
Definition update (told : outcome (option JobStatus)) : Gw bool :=
  update_ray_job sample.limits "/data" (fun _ _ _ => None) (fun _ _ => Ok "") (fun _ => Ok (sample.told_runner told))
    (fun _ => ret (mk_logs [text "done"] None)).
Definition pass (told : outcome (option JobStatus)) : Gw unit :=
  update_ray_run sample.limits "/data" (fun _ _ _ => None) (fun _ _ => Ok "") (fun _ => Ok (sample.told_runner told))
    (fun _ => ret (mk_logs [text "done"] None)).
End followed_sample.
Import followed_sample.

Lemma logs_leave_sample (j : Job) : rel leaves ((fun _ : Job => ret (mk_logs [text "done"] None) : Py FilteredLogs) j).
Proof. rel_auto. Qed.

Lemma ray_follow_job_witness :
  fst (update (Ok (Some SUCCEEDED)) (gateway running)) = Ok true
  /\ let '(o, g') := update (Ok (Some SUCCEEDED)) (gateway running) in
     match o with
     | Ok true => followed RUNNING "job-1" (db running) (db (gw_world g'))
     | _ => all_same (db running) (db (gw_world g'))
     end.
Proof.
  split; [by vm_compute|].
  apply (ray_follow_job sample.limits "/data" (fun _ _ _ => None) (fun _ _ => Ok "") _ _
           (fun j r => sample.told_asks (Ok (Some SUCCEEDED)) j r) logs_leave_sample (gateway running)).
  - by eexists.
  - apply running_not_terminal. cbn. set_solver.
Defined.


(** The status is written over the one a user wrote meanwhile: the row leaves STOPPED. *)
Example stale_instance_revives_a_stopped_job :
  Abs.job_status (db (gw_world (snd (update (Ok (Some RUNNING)) (gateway stopped_meanwhile))))) "job-1" = Some RUNNING.
Proof. by vm_compute. Qed.
(** Without a status from Ray the pass of the job raises. *)
Example no_status_told :
  fst (update (Ok None) (gateway running)) = Raise null_status.
Proof. by vm_compute. Qed.
