(* ===== verification/RayRunnerProps.v ===== *)
(** * Correctness of the Ray runner

    A submit leaves no cluster behind that nobody deletes; the wait for a cluster ends; the
    environment a job is saved with is the one it runs with. *)

From S2P Require Import Prelude PyStr Domain Models World BillingEvents JobTransitions Json ValidateArguments RunFunction Retry RayLogs RayRunner Samples UploadFunction JobEnvironment.

Local Open Scope string_scope.
Local Open Scope list_scope.

(** ** The clusters *)

Definition same_clusters (s s' : Ray) : Prop :=
  created_clusters s' = created_clusters s /\ deleted_clusters s' = deleted_clusters s.
#[export] Instance same_clusters_preorder : PreOrder same_clusters.
Proof. split; [by intros s|]. intros x y z [] []. split; congruence. Qed.

Lemma same_3 s s1 s2 s3 : same_clusters s s1 -> same_clusters s1 s2 -> same_clusters s2 s3 -> same_clusters s s3.
Proof. intros. by do 2 (etransitivity; [eassumption|]). Qed.

Lemma rel_on_ray {A} (m : Py A) : rel same_clusters (on_ray m).
Proof. intros s. unfold on_ray. by destruct (m (ray_world s)). Qed.
Lemma rel_quietly m : rel same_clusters m -> rel same_clusters (quietly m).
Proof. intros Hm. unfold quietly. apply rel_try_except; [exact _|done|]. intros e k [= <-]. rel_auto. Qed.
#[export] Hint Resolve rel_on_ray rel_quietly : pyrel.

Section clusters.
Context (api : RayServices) (settings : RaySettings) (lib : Libraries).
Context (uuid resource_uuid : string) (traceparent : option string) (fuel : nat).

Definition asked (s : Ray) (c : string) (s' : Ray) : Prop :=
  created_clusters s' = created_clusters s /\ deleted_clusters s' = deleted_clusters s ++ [c].

Lemma rel_leftovers c : rel same_clusters (delete_leftovers api c).
Proof. unfold delete_leftovers. rel_step; apply rel_quietly; rel_auto. Qed.

Lemma asked_later s c s1 s2 : asked s c s1 -> same_clusters s1 s2 -> asked s c s2.
Proof. intros [] []. split; congruence. Qed.

(** A clause that answers every exception. *)
Lemma caught_never_raises {A} (m : RayM A) (h : exn -> option (RayM A)) :
  (forall e, exists a, h e = Some (ret a)) -> raising (fun _ => False) (try_except m h).
Proof.
  intros Hh s. unfold wp, try_except. destruct (m s) as [[a|e] s']; [done|]. by destruct (Hh e) as [a ->].
Qed.

Lemma quietly_never_raises m : raising (fun _ => False) (quietly m).
Proof. apply caught_never_raises. by eexists. Qed.

Hypothesis remote : ray_mode_local settings = false.

(** [e] is what making the client of the clusters raised. *)
Definition client_failed (e : exn) : Prop := exists w w', raycluster_client api w = (Raise e, w').
Lemma client_wp s : wp (on_ray (raycluster_client api)) (fun _ => same_clusters s) (fun e s' => client_failed e /\ same_clusters s s') s.
Proof.
  pose proof (rel_on_ray (raycluster_client api) s) as H. unfold wp, client_failed in *. unfold on_ray in *.
  destruct (raycluster_client api (ray_world s)) as [[u|e] w] eqn:E; [exact H|]. split; [by eauto|exact H].
Qed.

Lemma on_ray_raising {A} P (m : Py A) : raising P m -> raising P (on_ray m).
Proof. intros Hm s. specialize (Hm (ray_world s)). unfold wp, on_ray in *. by destruct (m (ray_world s)) as [[a|e] w]. Qed.

(** Killing a cluster asks for its deletion, whatever it answers, unless there is no client to ask with. *)
Lemma kill_wp c s :
  wp (_kill_ray_cluster api settings c) (fun _ => asked s c)
    (fun e s' => exn_class e = AttributeError /\ asked s c s' \/ client_failed e /\ same_clusters s s') s.
Proof.
  unfold _kill_ray_cluster. rewrite remote. apply wp_bind.
  eapply wp_mono; [apply client_wp| |by intros e s' H; right].
  intros [] s1 H1. apply wp_bind. unfold wp at 1, cluster_deletion_asked, modify. set (s2 := mk_ray _ _ _ _).
  assert (asked s c s2) as H2 by (destruct H1 as [Hc Hd]; split; cbn; congruence). clearbody s2.
  apply wp_bind. set (answer := try_except _ _).
  assert (rel same_clusters answer) as Ha by (unfold answer; rel_auto).
  assert (raising (fun _ => False) answer) as Hnone by (apply caught_never_raises; by eexists).
  eapply wp_mono; [apply (wp_and _ _ _ _ _ _ (wp_rel _ _ s2 Ha) (Hnone s2))| |].
  - intros [gone|response] s3 [H3 _]; [by eapply asked_later|]. cbv zeta. apply wp_bind.
    set (text := if bool_decide _ then _ else _).
    assert (rel same_clusters text) as Ht by (unfold text; rel_auto).
    assert (raising (fun e => exn_class e = AttributeError) text) as Hr.
    { unfold text. destruct (bool_decide _); [done|]. apply raising_bind; [|done]. apply on_ray_raising.
      unfold attr. raising_auto. }
    eapply wp_mono; [apply (wp_and _ _ _ _ _ _ (wp_rel _ _ s3 Ht) (Hr s3))| |].
    + intros _ s4 [H4 _]. apply wp_bind.
      assert (raising (fun _ => False) (delete_leftovers api c)) as Hq
        by (unfold delete_leftovers; apply raising_bind; [|intros _]; apply quietly_never_raises).
      eapply wp_mono; [apply (wp_and _ _ _ _ _ _ (wp_rel _ _ s4 (rel_leftovers c)) (Hq s4))| |by intros e s' [_ []]].
      intros _ s5 [H5 _]. eapply asked_later; [exact H2|]. exact (same_3 _ _ _ _ H3 H4 H5).
    + intros e s4 [H4 He]. left. split; [exact He|]. eapply asked_later; [exact H2|]. by etransitivity.
  - by intros e s3 [_ []].
Qed.

(** Every cluster made since [s] was asked to be deleted since. *)
Definition cleaned (s s' : Ray) : Prop :=
  exists made, created_clusters s' = created_clusters s ++ made /\ deleted_clusters s' = deleted_clusters s ++ made.

Lemma cleaned_same s s' : same_clusters s s' -> cleaned s s'.
Proof. intros [Hc Hd]. exists []. by rewrite !app_nil_r. Qed.

Definition made_one (s : Ray) (made : string * string) (s' : Ray) : Prop :=
  created_clusters s' = created_clusters s ++ [made.2] /\ deleted_clusters s' = deleted_clusters s.

(** A cluster was made that no one was asked to delete, for want of a client. *)
Definition left_behind (s : Ray) (e : exn) (s' : Ray) : Prop :=
  client_failed e /\ exists c, created_clusters s' = created_clusters s ++ [c] /\ deleted_clusters s' = deleted_clusters s.

Lemma create_wp s :
  wp (_create_k8s_cluster api settings uuid fuel)
    (made_one s) (fun e s' => cleaned s s' \/ left_behind s e s') s.
Proof.
  unfold _create_k8s_cluster. apply wp_bind. eapply wp_mono; [exact (wp_rel _ _ s (rel_on_ray get_self))| |intros; left; by apply cleaned_same].
  intros job s1 H1. cbv zeta. apply wp_bind, wp_of_outcome; [|intros; left; by apply cleaned_same]. intros [] _.
  apply wp_bind. eapply wp_mono; [exact (wp_rel _ _ s1 (rel_on_ray _))| |intros e s2 H2; left; apply cleaned_same; exact (transitivity H1 H2)].
  intros [] s2 H2. apply wp_bind. eapply wp_mono; [exact (wp_rel _ _ s2 (rel_on_ray _))| |].
  2:{ intros e s3 H3. left. apply cleaned_same. exact (same_3 _ _ _ _ H1 H2 H3). }
  intros created s3 H3. assert (same_clusters s s3) as Hs by exact (same_3 _ _ _ _ H1 H2 H3). clear H1 H2 H3 s1 s2.
  apply wp_bind. unfold wp at 1, cluster_created, modify. set (s4 := mk_ray _ _ _ _).
  assert (created_clusters s4 = created_clusters s ++ [created] /\ deleted_clusters s4 = deleted_clusters s) as H4
    by (destruct Hs as [Hc Hd]; cbn; by rewrite Hc, Hd). clearbody s4.
  assert (forall s5 ex, same_clusters s4 s5 -> wp (_kill_ray_cluster api settings created ;;; raise ex)
            (made_one s) (fun e s' => cleaned s s' \/ left_behind s e s') s5) as Hkill.
  { intros s5 ex [Hc5 Hd5]. apply wp_bind.
    assert (forall s6, asked s5 created s6 -> cleaned s s6) as Hclean.
    { intros s6 [Hc6 Hd6]. exists [created]. destruct H4 as [Hc4 Hd4]. by rewrite Hc6, Hd6, Hc5, Hd5, Hc4, Hd4. }
    eapply wp_mono; [apply kill_wp|intros b s6 H6; left; by apply Hclean|]. intros e s6 [[_ H6]|[He [Hc6 Hd6]]]; [left; by apply Hclean|right].
    split; [exact He|]. exists created. destruct H4 as [Hc4 Hd4]. split; congruence. }
  apply wp_try_except. destruct (bool_decide _) eqn:Hname; cbn [negb]; [|by apply Hkill].
  apply bool_decide_eq_true in Hname. apply wp_bind.
  eapply wp_mono; [exact (wp_rel _ _ s4 (rel_on_ray _))| |intros e s5 H5; by apply Hkill].
  intros [host []] s5 H5; [|by apply Hkill]. destruct H5 as [Hc5 Hd5]. destruct H4 as [Hc4 Hd4].
  unfold wp, ret, made_one. cbn. rewrite <- Hname. split; congruence.
Qed.
End clusters.

(** ** A submit and its cluster *)

Section submit.
Context (api : RayServices) (settings : RaySettings) (lib : Libraries).
Context (uuid resource_uuid : string) (traceparent : option string) (fuel : nat).
Hypothesis remote : ray_mode_local settings = false.

Lemma cleaned_after s name s1 s2 :
  created_clusters s1 = created_clusters s ++ [name] /\ deleted_clusters s1 = deleted_clusters s ->
  asked s1 name s2 -> cleaned s s2.
Proof. intros [Hc Hd] [Hc' Hd']. exists [name]. split; congruence. Qed.

Lemma place_wp s :
  wp (place api settings uuid fuel)
    (fun '(_, title, name) s' => name = Some title /\ made_one s (title, title) s') (fun e s' => cleaned s s' \/ left_behind api s e s') s.
Proof.
  unfold place. rewrite remote. apply wp_bind.
  eapply wp_mono; [by apply create_wp|intros [host name] s1 H1; cbn; by split|done].
Qed.

(** The job has the cluster it was placed on, or every cluster made was asked to be deleted, or the one made is left. *)
Definition submitted (s : Ray) (_ : unit) (s' : Ray) : Prop :=
  exists resource, compute_resource (self (ray_world s')) = Some resource /\ cr_active resource = true
    /\ made_one s (cr_title resource, cr_title resource) s'.
Definition undone (s : Ray) (e : exn) (s' : Ray) : Prop :=
  (exn_class e = RunnerError \/ exn_class e = AttributeError) /\ cleaned s s'
  \/ exists cause, (e = cause \/ e = submit_failed (self (ray_world s)) cause) /\ left_behind api s cause s'.

Lemma ray_submit_wp s :
  wp (ray_submit api settings lib uuid resource_uuid traceparent fuel) (submitted s) (undone s) s.
Proof.
  unfold ray_submit. apply wp_bind. unfold wp at 1, on_ray, get_self, gets. destruct s as [w conn cs ds]. cbn [ray_world].
  set (s := mk_ray w conn cs ds). cbv beta iota zeta. apply wp_bind, wp_try_except.
  eapply wp_mono; [apply place_wp| |intros e s1 [H1|H1]; [left; split; [by left|done]|right; exists e; split; [by right|done]]].
  intros [[host title] name] s1 [-> H1]. cbv zeta. apply wp_try_except, wp_bind. set (resource := mk_resource _ _ _ _ _).
  eapply wp_mono; [exact (wp_rel _ _ s1 (rel_on_ray _))| |].
  - intros ray_id s2 [Hc Hd]. unfold wp, on_ray, modify_self, modify. cbn. exists resource. split; [done|]. split; [done|].
    destruct H1 as [H1c H1d]. split; cbn in *; congruence.
  - intros e s2 [Hc Hd]. assert (created_clusters s2 = created_clusters s ++ [title] /\ deleted_clusters s2 = deleted_clusters s) as H2
      by (destruct H1; split; cbn in *; congruence).
    apply wp_bind. eapply wp_mono; [by apply kill_wp| |].
    + intros [] s3 H3; left; (split; [by left|]; by eapply cleaned_after).
    + intros e' s3 [[He H3]|[He [Hc3 Hd3]]]; [left; (split; [by right|]; by eapply cleaned_after)|right].
      exists e'. split; [by left|]. split; [exact He|]. exists title. destruct H2. split; congruence.
Qed.

(** C25: a submit leaves exactly one cluster and the job on it, or, whatever fails, has asked
    Kubernetes to delete every cluster it was told of having created; what it raises is then a [RunnerError], or the
    [AttributeError] of a refused deletion whose answer has no text. One case is apart: the client for the deletion could
    not be made, a call that no [try] surrounds; the cluster is left, and that failure is what the submit raises or gives as
    the cause. *)
Theorem ray_submit_no_orphan s :
  match ray_submit api settings lib uuid resource_uuid traceparent fuel s with
  | (Ok _, s') =>
      exists resource, compute_resource (self (ray_world s')) = Some resource /\ cr_active resource = true
        /\ created_clusters s' = created_clusters s ++ [cr_title resource] /\ deleted_clusters s' = deleted_clusters s
  | (Raise e, s') =>
      (exn_class e = RunnerError \/ exn_class e = AttributeError)
      /\ (exists made, created_clusters s' = created_clusters s ++ made /\ deleted_clusters s' = deleted_clusters s ++ made)
      \/ exists cause name w w', (e = cause \/ e = submit_failed (self (ray_world s)) cause)
          /\ raycluster_client api w = (Raise cause, w')
          /\ created_clusters s' = created_clusters s ++ [name] /\ deleted_clusters s' = deleted_clusters s
  end.
Proof.
  generalize (ray_submit_wp s). unfold wp. destruct (ray_submit _ _ _ _ _ _ _ s) as [[[]|e] s']; [done|].
  intros [H|(cause & He & (w & w' & Hw) & name & Hc & Hd)]; [by left|right]. by exists cause, name, w, w'.
Qed.
End submit.

(** ** The wait *)

Section wait.
Context (api : RayServices) (settings : RaySettings) (url : string) (start_time : Z).

(** The [k]-th look at the cluster, when the clock still allows it. *)
Definition in_time (w : World) (k : nat) : Prop :=
  (mono w (ticks w + k) - start_time < RAY_CLUSTER_MAX_READINESS_TIME settings)%Z.
Definition answers (w : World) (k : nat) : Prop := cluster_responds api url (S (ticks w + k)) = Ok true.

Lemma wait_ready_value fuel : forall w,
  (exists n, (n < fuel)%nat /\ ~ in_time w n) ->
  exists ready, fst (wait_ready api settings fuel url start_time w) = Ok ready
    /\ (ready = true <-> exists k, answers w k /\ forall i, (i <= k)%nat -> in_time w i).
Proof.
  induction fuel as [|fuel IH]; intros w (n & Hn & Hlate); [lia|]. cbn [wait_ready]. unfold bind at 1, monotonic at 1.
  unfold in_time in *. destruct (Z.ltb_spec (mono w (ticks w) - start_time) (RAY_CLUSTER_MAX_READINESS_TIME settings)) as [Ht|Ht].
  2:{ exists false. split; [done|]. split; [done|]. intros (k & _ & Hk). specialize (Hk 0%nat ltac:(lia)). rewrite Nat.add_0_r in Hk. lia. }
  set (w1 := set_ticks (S (ticks w)) w). unfold bind at 1, get. unfold bind at 1.
  assert (forall k, answers w1 k <-> answers w (S k)) as Ha by (intros k; unfold answers, w1; cbn; by rewrite Nat.add_succ_r).
  assert (n <> 0%nat) as Hn0 by (intros ->; rewrite Nat.add_0_r in Hlate; lia). destruct n as [|n]; [done|].
  assert (exists n, (n < fuel)%nat /\ ~ (mono w1 (ticks w1 + n) - start_time < RAY_CLUSTER_MAX_READINESS_TIME settings)%Z) as Hw1.
  { exists n. split; [lia|]. unfold w1. cbn. by rewrite Nat.add_succ_r in Hlate. }
  destruct (IH w1 Hw1) as (ready & Hr & Hiff).
  assert (cluster_responds api url (ticks w1) <> Ok true ->
    (ready = true <-> exists k, answers w k /\ forall i, (i <= k)%nat -> (mono w (ticks w + i) - start_time < RAY_CLUSTER_MAX_READINESS_TIME settings)%Z)) as Hno.
  { intros Hno. rewrite Hiff. split.
    - intros (k & Hk & Hi). exists (S k). split; [by apply Ha|]. intros [|i] Hle; [rewrite Nat.add_0_r; lia|].
      specialize (Hi i ltac:(lia)). unfold w1 in Hi. cbn in Hi. by rewrite Nat.add_succ_r.
    - intros ([|k] & Hk & Hi); [unfold answers in Hk; rewrite Nat.add_0_r in Hk; by destruct Hno|]. exists k. split; [by apply Ha|].
      intros i Hle. specialize (Hi (S i) ltac:(lia)). unfold w1. cbn. by rewrite Nat.add_succ_r in Hi. }
  destruct (cluster_responds api url (ticks w1)) as [[]|e] eqn:Hc; unfold try_except; cbn [of_outcome raise ret]; unfold ret, raise.
  - exists true. split; [done|]. split; [|done]. intros _. exists 0%nat. split; [unfold answers; by rewrite Nat.add_0_r|].
    intros i Hle. assert (i = 0%nat) as -> by lia. by rewrite Nat.add_0_r.
  - exists ready. split; [done|]. by apply Hno.
  - exists ready. split; [done|]. by apply Hno.
Qed.

(** once the clock passes the limit the wait for a cluster is over, whatever fuel beyond
    that is given: it never raises, and it answers that the cluster is ready exactly when some
    look at it, the clock within the limit up to then, found it ready. *)
Theorem cluster_wait_ends w n fuel :
  (RAY_CLUSTER_MAX_READINESS_TIME settings <= mono w (ticks w + n) - start_time)%Z -> (n < fuel)%nat ->
  exists ready, fst (wait_ready api settings fuel url start_time w) = Ok ready
    /\ (ready = true <->
        exists k, cluster_responds api url (S (ticks w + k)) = Ok true
          /\ forall i, (i <= k)%nat -> (mono w (ticks w + i) - start_time < RAY_CLUSTER_MAX_READINESS_TIME settings)%Z).
Proof. intros Hlate Hn. apply wait_ready_value. exists n. split; [done|]. unfold in_time. lia. Qed.
End wait.

(** ** Witnesses *)

Definition quick : RaySettings := mk_ray_settings false "http://localhost:8265" 3 30000000 1000.
Definition plain_lib : Libraries :=
  mk_libraries (fun _ => Ok "{}") (fun _ => Ok (JObj [("ENV_JOB_GATEWAY_TOKEN", JStr "secret")])) (fun _ => "") (fun _ => "Error")
    (fun _ _ _ => Matches) (fun _ => Ok tt).

(** A Kubernetes whose cluster answers at the third look, and a Ray that takes every job, or
    refuses them. *)
Definition sample_api (accepted : bool) : RayServices :=
  mk_ray_services (fun _ => if accepted then ret tt else raise (mk_exn OSError "refused")) (fun _ => ret None) (fun _ => ret true)
    (fun _ _ _ => ret "raysubmit_1") (fun _ => ret (mk_response true [] None)) (fun _ n => Ok (2 <? n)%nat)
    (fun _ _ => Ok tt) (ret tt) (ret tt) (ret tt) (ret tt) ret (fun _ => ret (mk_delete_response "Success" None)) (ret tt) (fun _ => ret tt)
    (ret tt) (fun _ => ret tt) (fun _ => ret "/tmp/job") (fun _ => ret tt) (fun _ => ret tt) Ok.
Definition before_submit : Ray := mk_ray running_world false [] [].
Abbreviation sample_submit accepted :=
  (ray_submit (sample_api accepted) quick plain_lib "0123456789" "resource" None 100 before_submit).

Lemma sample_submit_ends :
  (exists s, sample_submit true = (Ok tt, s)) /\ exists e s, sample_submit false = (Raise e, s).
Proof. split; [|eexists]; eexists; vm_compute; reflexivity. Qed.

(** The server refuses the job, and is gone when the client for the deletion is made: the cluster is left. *)
Definition gone_later : RayServices :=
  let api := sample_api false in
  mk_ray_services (JobSubmissionClient api) (get_job_status api) (stop_ray_job api) (submit_ray_job api) (get_ray_logs api)
    (cluster_responds api) (cluster_data api) (load_incluster_config api) (k8s_api_client api)
    (fun w => if (ticks w <=? 1)%nat then (Ok tt, w) else (Raise (mk_exn OtherException "gone"), w))
    (raycluster_resource api) (create_cluster api) (delete_cluster api) (certificates api) (delete_certificate api) (core_v1 api)
    (delete_secret api) (unpack_function api) (write_settings api) (remove_directory api) (decrypt_string api).
Example cluster_left :
  let '(o, s) := ray_submit gone_later quick plain_lib "0123456789" "resource" None 100 before_submit in
  match o with Raise e => e = submit_failed (self (ray_world before_submit)) (mk_exn OtherException "gone") \/ e = mk_exn OtherException "gone" | Ok _ => False end
  /\ length (created_clusters s) = 1%nat /\ deleted_clusters s = [].
Proof. vm_compute. split; [by right|done]. Qed.

(** What is known of a submit from a state without clusters. *)
Definition one_or_none (o : outcome unit * Ray) : Prop :=
  match o with
  | (Ok _, s) => length (created_clusters s) = 1%nat /\ deleted_clusters s = []
  | (Raise _, s) => deleted_clusters s = created_clusters s
  end.
Lemma one_or_none_value o s : o = (Ok tt, s) -> one_or_none o -> length (created_clusters s) = 1%nat /\ deleted_clusters s = [].
Proof. by intros ->. Qed.
Lemma one_or_none_error o e s : o = (Raise e, s) -> one_or_none o -> deleted_clusters s = created_clusters s.
Proof. by intros ->. Qed.
Lemma ray_submit_no_orphan_witness :
  (exists s, sample_submit true = (Ok tt, s) /\ length (created_clusters s) = 1%nat /\ deleted_clusters s = [])
  /\ (exists e s, sample_submit false = (Raise e, s) /\ deleted_clusters s = created_clusters s).
Proof.
  assert (forall accepted, one_or_none (sample_submit accepted)) as H.
  { intros accepted. unfold one_or_none.
    generalize (ray_submit_no_orphan (sample_api accepted) quick plain_lib "0123456789" "resource" None 100 eq_refl before_submit).
    destruct (sample_submit accepted) as [[u|e] s].
    - intros (r & _ & _ & Hc & Hd). rewrite Hc. split; [exact eq_refl|exact Hd].
    - intros [[_ (made & Hc & Hd)]|(cause & name & w & w' & _ & H & _)]; [rewrite Hc, Hd; exact eq_refl|destruct accepted; discriminate H]. }
  destruct sample_submit_ends as [(s & Hs) (e & s' & Hs')]. split.
  - exists s. split; [exact Hs|]. exact (one_or_none_value _ _ Hs (H true)).
  - exists e, s'. split; [exact Hs'|]. exact (one_or_none_error _ _ _ Hs' (H false)).
Defined.

Lemma cluster_wait_ends_witness :
  fst (wait_ready (sample_api true) quick 100 "http://c-alice-01234567-head-svc:8265/" 0 running_world) = Ok true.
Proof.
  destruct (cluster_wait_ends (sample_api true) quick "http://c-alice-01234567-head-svc:8265/" 0 running_world 30 100)
    as (ready & Hr & Hiff); [by vm_compute|lia|].
  rewrite Hr. f_equal. apply Hiff. exists 2%nat. split; [done|]. intros i Hi. do 3 (destruct i as [|i]; [by vm_compute|]). lia.
Defined.

(** * The environment of a Ray job

    The job runs with the variables its function was uploaded with and those of its request,
    in clear. *)

(** The carrier of the span and the variables that the runner adds. *)
Definition of_the_span : list string :=
  ["traceparent"; "QS_OT_TRACEPARENT_ID_KEY"].
Definition added_keys : list string :=
  of_the_span ++ ["QISKIT_IBM_RUNTIME_CUSTOM_CLIENT_APP_HEADER"; "QISKIT_SETTINGS"].

Lemma not_of_the_span k : k ∉ of_the_span -> k <> "traceparent" /\ k <> "QS_OT_TRACEPARENT_ID_KEY".
Proof. unfold of_the_span. rewrite !not_elem_of_cons. tauto. Qed.
Lemma not_added k : k ∉ added_keys ->
  k ∉ of_the_span /\ "QISKIT_IBM_RUNTIME_CUSTOM_CLIENT_APP_HEADER" <> k /\ "QISKIT_SETTINGS" <> k.
Proof. unfold added_keys. rewrite not_elem_of_app, !not_elem_of_cons. intuition congruence. Qed.

Section environment.
Context (api : RayServices) (services : Services) (settings : Settings) (lib : Libraries) `{!JsonLaws lib}.
Hypothesis decrypts : forall s hidden, encrypt_string services s = Ok hidden -> decrypt_string api hidden = Ok s.

(** what a job's code finds in its environment on the cluster is, in clear, what its
    function was uploaded with, then what the request that created it gave: the encryption at
    upload and at creation, the rendering and parsing of the stored dictionary and the
    runner's decryption cancel out. The runner always has an environment to give. *)
Theorem ray_environment_in_clear f data job trial_mode text vars stored env_text submitted traceparent :
  json_loads lib text = Ok (JObj vars) -> encrypted_env lib services text = Ok stored ->
  program_env_vars f = stored -> stored <> "" ->
  job_environment lib settings services f data job trial_mode = Ok env_text -> env_vars submitted = env_text ->
  let variable := in_clear vars (build_env_variables settings data job trial_mode) in
  exists env token, ray_environment api lib traceparent submitted = Ok env
    /\ (forall k, k ∉ added_keys -> lookup_key env k = variable k)
    /\ variable "ENV_JOB_GATEWAY_TOKEN" = Some (JStr token)
    /\ lookup_key env "QISKIT_IBM_RUNTIME_CUSTOM_CLIENT_APP_HEADER"
        = Some (JStr ("middleware_job_id/" +:+ id submitted +:+ "," +:+ token +:+ "/")).
Proof.
  intros Hl He Hf Hs Hj Hsub variable.
  destruct (saved_in_clear (decrypt_string api) services settings lib decrypts _ _ _ _ _ _ _ _ Hl He Hf Hs Hj)
    as (saved & Hload & Hclear & token & Htoken). subst env_text. fold variable in Hclear, Htoken.
  set (span := match traceparent with
               | Some t => dict_set saved "QS_OT_TRACEPARENT_ID_KEY" (JStr t)
               | None => saved
               end).
  assert (forall k, k ∉ of_the_span -> lookup_key (decrypt_env_vars (decrypt_string api) span) k = variable k) as Hspan.
  { intros k [Hk Hk']%not_of_the_span. rewrite lookup_decrypted, <- (Hclear k Hk). f_equal.
    unfold span. destruct traceparent; [|done]. by rewrite lookup_dict_set, bool_decide_false. }
  pose proof (Hspan "ENV_JOB_GATEWAY_TOKEN" ltac:(by apply (bool_decide_unpack _))) as Hfound. rewrite Htoken in Hfound.
  unfold ray_environment. rewrite Hload. fold span. cbv zeta. unfold lookup_key in Hfound.
  destruct (snd <$> list_find _ _) as [[k0 v0]|]; [|done]. cbn in Hfound. injection Hfound as ->.
  eexists _, token. split; [done|]. split; [|split; [done|]].
  - intros k (Hk & H1 & H2)%not_added. rewrite !lookup_dict_set, !bool_decide_false by done. by apply Hspan.
  - by rewrite !lookup_dict_set, bool_decide_false, bool_decide_true.
Qed.
End environment.

(** ** Witness *)

Definition no_ray : RayServices :=
  mk_ray_services (fun _ => ret tt) (fun _ => ret None) (fun _ => ret true) (fun _ _ _ => ret "raysubmit_1")
    (fun _ => ret (mk_response true [] None)) (fun _ n => Ok (2 <=? n)%nat) (fun _ _ => Ok tt) (ret tt) (ret tt) (ret tt) (ret tt) ret
    (fun _ => ret (mk_delete_response "Success" None)) (ret tt) (fun _ => ret tt) (ret tt) (fun _ => ret tt)
    (fun _ => ret "/tmp/job") (fun _ => ret tt) (fun _ => ret tt) Flat.decipher.

Module SampleEnvironment.
Definition settings : Settings := mk_settings "https://ibm" "http://gateway" (fun _ => "/data") false 128 2 2.
Definition input : RunFunctionInput :=
  mk_run_input "sampler" (Some "acme") "{}" false None IBM_CLOUD "secret" None None None None [].
Definition vars : list (string * string) := [("MY_TOKEN", "mine"); ("MODE", "fast")].
Definition text : string := String "{" (Flat.written vars).
Definition stored : string := match encrypted_env Flat.lib Flat.services text with Ok s => s | Raise _ => "" end.
Definition function : Program := mk_program 5 "sampler" (Some sample_provider) sample_author RAY false None false
    None None stored (Some "{}") "GENERIC" None None "main.py" None (Some "image") "[]".
Definition saved : string :=
  match job_environment Flat.lib settings Flat.services function input running_job false with Ok s => s | Raise _ => "" end.
Definition job : Job := set_fields [F_env_vars saved] running_job.
End SampleEnvironment.

Lemma ray_environment_in_clear_witness :
  exists env, ray_environment no_ray Flat.lib None SampleEnvironment.job = Ok env
    /\ lookup_key env "MY_TOKEN" = Some (JStr "mine") /\ lookup_key env "ENV_JOB_GATEWAY_TOKEN" = Some (JStr "secret").
Proof.
  destruct (ray_environment_in_clear no_ray Flat.services SampleEnvironment.settings Flat.lib ltac:(by intros s c [= <-])
    SampleEnvironment.function SampleEnvironment.input running_job false SampleEnvironment.text
    (Flat.json_of SampleEnvironment.vars) SampleEnvironment.stored SampleEnvironment.saved SampleEnvironment.job None)
    as (env & token & He & Hk & _); [by vm_compute..|].
  exists env. split; [exact He|]. split; rewrite Hk by (by apply (bool_decide_unpack _)); by vm_compute.
Defined.
