(* ===== verification/Timeline.v ===== *)
(** * The timeline of jobs ([api/domain/job_timeline.py])

    What the admin page draws: the segments of a job's life and the time spent in each status,
    which jobs ran at the same time, and how many at each instant. A time is an instant in
    microseconds, a duration a difference of two; the drawing itself is not modelled. *)

From stdpp Require Import pretty.
From S2P Require Import Prelude PyStr Models World JobEvents BillingEvents.

Local Open Scope string_scope.
Local Open Scope list_scope.
Local Open Scope Z_scope.

(** ** The jobs of the page *)

Record TimelineJob := mk_timeline_job {
  tj_id : string;
  tj_status : JobStatus;
  tj_runner : Runner;
  tj_filler : bool;
  tj_profile : string;
  tj_created : Z;
  tj_updated : option Z;
  status_events : list (Z * JobStatus);
  tj_author : string;
  tj_business_model : string;
  tj_account_id : string;
  tj_instance_crn : string;
  tj_fleet_id : string;
  tj_ce_project_name : string;
  tj_ce_region : string
}.

(** [value or "-"]. *)
Definition or_dash (v : option string) : string := default "-" (or_str v (Some "-")).

Definition status_event (e : JobEvent) : list (Z * JobStatus) :=
  match event_type e, event_data e with
  | STATUS_CHANGE, StatusData s => [(event_created e, s)]
  | _, _ => []
  end.

Definition timeline_job (d : DB) (job : Job) : TimelineJob := {|
  tj_id := id job;
  tj_status := status job;
  tj_runner := runner job;
  tj_filler := filler job;
  tj_profile := or_dash (job_compute_profile_id job);
  tj_created := created job;
  tj_updated := updated job;
  status_events := filter (fun e => event_job e = id job) (events d) ≫= status_event;
  tj_author := username (author job);
  tj_business_model := or_dash (Some (business_model job));
  tj_account_id := or_dash (account_id job);
  tj_instance_crn := or_dash (instance_crn job);
  tj_fleet_id := or_dash (fleet_id job);
  tj_ce_project_name := or_dash (ce_project_name job);
  tj_ce_region := or_dash (ce_region job)
|}.
Definition _jobs_from_queryset (d : DB) (jobs_qs : list Job) : list TimelineJob := map (timeline_job d) jobs_qs.

(** ** One job *)

Record Timeline := mk_timeline {
  tl_job : TimelineJob;
  points : list (Z * JobStatus);
  segments : list (Z * Z * JobStatus);
  durations : list (JobStatus * Z);           (* a dict, in microseconds *)
  t_queue : Z;
  t_run : option Z;
  t_end : option Z
}.

(** Each status where it was first reached. *)
Fixpoint first_points (seen : list JobStatus) (events : list (Z * JobStatus)) : list (Z * JobStatus) :=
  match events with
  | [] => []
  | (ts, st) :: events =>
      if bool_decide (st ∈ seen) then first_points seen events
      else (ts, st) :: first_points (st :: seen) events
  end.

Definition reached_points (job : TimelineJob) : list (Z * JobStatus) :=
  let events := order_by fst (status_events job) in
  if bool_decide (QUEUED ∈ events.*2) then first_points [] events
  else (tj_created job, QUEUED) :: first_points [QUEUED] events.

(** A job that has not finished is in its last known status until now. *)
Definition all_points (t : Z) (job : TimelineJob) : list (Z * JobStatus) :=
  let reached := reached_points job in
  match last reached with
  | Some (ts, _) =>
      if bool_decide (tj_status job ∉ TERMINAL_STATUSES) && (ts <? t) then reached ++ [(t, tj_status job)] else reached
  | None => reached
  end.

Fixpoint segments_of (points : list (Z * JobStatus)) : list (Z * Z * JobStatus) :=
  match points with
  | (start, st) :: (((stop, _) :: _) as rest) => (start, stop, st) :: segments_of rest
  | _ => []
  end.

Definition durations_of (segments : list (Z * Z * JobStatus)) : list (JobStatus * Z) :=
  foldl (fun d '(start, stop, st) => d_set st (default 0 (d_get st d) + (stop - start)) d) [] segments.

(** [setdefault]: the first point of a status. *)
Definition by_status (points : list (Z * JobStatus)) (st : JobStatus) : option Z :=
  fst <$> head (filter (fun p => p.2 = st) points).

Definition timeline_at (t : Z) (job : TimelineJob) : Timeline :=
  let points := all_points t job in
  let segments := segments_of points in {|
    tl_job := job;
    points := points;
    segments := segments;
    durations := durations_of segments;
    t_queue := default (tj_created job) (by_status points QUEUED);
    t_run := by_status points RUNNING;
    t_end := match last points with Some p => Some p.1 | None => tj_updated job end
  |}.
Definition compute_timeline (job : TimelineJob) : Py Timeline := t <- now ;; ret (timeline_at t job).

Definition sort_jobs (jobs : list Timeline) : list Timeline := order_by (fun j => tj_created (tl_job j)) jobs.

(** ** Jobs at the same time *)

(** The running window, when it is a forward interval. *)
Definition running_window (j : Timeline) : option (Z * Z) :=
  match t_run j, t_end j with
  | Some s, Some e => if s <? e then Some (s, e) else None
  | _, _ => None
  end.
Definition has_window (j : Timeline) : bool := bool_decide (is_Some (running_window j)).

Definition tl_id (j : Timeline) : string := tj_id (tl_job j).
Definition overlap (a b : Timeline) : bool :=
  match running_window a, running_window b with
  | Some (s, e), Some (s', e') =>
      bool_decide (tj_runner (tl_job a) = tj_runner (tl_job b)) && (s <? e') && (s' <? e)
  | _, _ => false
  end.

Definition add_overlap (a b : string) (overlaps : list (string * gset string)) : list (string * gset string) :=
  d_set a (default ∅ (d_get a overlaps) ∪ {[b]}) overlaps.
Fixpoint overlap_pairs (running : list Timeline) (overlaps : list (string * gset string)) : list (string * gset string) :=
  match running with
  | [] => overlaps
  | a :: rest =>
      overlap_pairs rest
        (foldl (fun d b => if overlap a b then add_overlap (tl_id b) (tl_id a) (add_overlap (tl_id a) (tl_id b) d) else d) overlaps rest)
  end.
Definition find_overlaps (jobs : list Timeline) : list (string * gset string) :=
  let running := filter (fun j => has_window j) jobs in
  overlap_pairs running (map (fun j => (tl_id j, ∅)) running).

(** ** How many at each instant *)

Definition window_points (j : Timeline) : list (Z * Z) :=
  match running_window j with Some (s, e) => [(s, 1); (e, -1)] | None => [] end.

Fixpoint running_sums (running : Z) (points : list (Z * Z)) : list (Z * Z) :=
  match points with
  | [] => []
  | (ts, delta) :: points => (ts, running + delta) :: running_sums (running + delta) points
  end.
Definition concurrency_series (jobs : list Timeline) : list (Z * Z) :=
  running_sums 0 (order_by fst (jobs ≫= window_points)).

(** [max(current)]. *)
Definition list_max (l : list Z) : Z := match l with [] => 0 | x :: l => foldl Z.max x l end.
Fixpoint merge_steps (current : list Z) (events : list (Z * (nat * Z))) : list (Z * Z) :=
  match events with
  | [] => []
  | (ts, (idx, count)) :: events =>
      let current := <[idx := count]> current in (ts, list_max current) :: merge_steps current events
  end.
Definition series_events (series_list : list (list (Z * Z))) : list (Z * (nat * Z)) :=
  concat (imap (fun idx series => map (fun p => (p.1, (idx, p.2))) series) series_list).
Definition _merge_series_max (series_list : list (list (Z * Z))) : list (Z * Z) :=
  merge_steps (replicate (length series_list) 0) (order_by fst (series_events series_list)).

(** The runners of the selection: [sorted] puts "fleets" before "ray". *)
Definition runners_present (jobs : list Timeline) : list Runner :=
  filter (fun r => r ∈ (fun j => tj_runner (tl_job j)) <$> jobs) [FLEETS; RAY].
Definition runner_scoped_series (runners : list Runner) (job_subset : list Timeline) : list (Z * Z) :=
  _merge_series_max (map (fun r => concurrency_series (filter (fun j => tj_runner (tl_job j) = r) job_subset)) runners).

(** The heading of the chart: [real_max_conc]. *)
Definition peak_overlap (jobs : list Timeline) : Z :=
  list_max (runner_scoped_series (runners_present (sort_jobs jobs)) (sort_jobs jobs)).*2.

(** ** Durations on the page *)

(** [int(seconds)] of a duration in microseconds. *)
Definition whole_seconds (micros : Z) : Z := Z.quot micros MICROS.
Definition fmt_dur (duration : option Z) : string :=
  match duration with
  | None => "-"
  | Some micros =>
      let m := whole_seconds micros / 60 in
      let s := whole_seconds micros mod 60 in
      let h := m / 60 in
      let m := m mod 60 in
      if negb (h =? 0) then pretty h +:+ "h " +:+ pretty m +:+ "m"
      else if negb (m =? 0) then pretty m +:+ "m " +:+ pretty s +:+ "s"
      else pretty s +:+ "s"
  end.

(** * Correctness of the timeline

    At every instant the chart shows how many jobs of the busiest runner were running; two
    jobs overlap when their running windows do; the segments of a job cover its life. *)

(** ** Sums *)

Section sums.
Context {A : Type}.
Implicit Types (f g : A -> Z) (l : list A).

Fixpoint zsum f l : Z := match l with [] => 0 | x :: l => f x + zsum f l end.

Lemma zsum_app f l l' : zsum f (l ++ l') = zsum f l + zsum f l'.
Proof. induction l as [|x l IH]; cbn; [done|]. rewrite IH. lia. Qed.
Lemma zsum_Permutation f l l' : l ≡ₚ l' -> zsum f l = zsum f l'.
Proof. induction 1; cbn; lia. Qed.
Lemma zsum_mono f g l : (forall x, x ∈ l -> f x <= g x) -> zsum f l <= zsum g l.
Proof.
  induction l as [|x l IH]; intros H; cbn; [done|].
  pose proof (H x ltac:(left)). specialize (IH (fun y Hy => H y ltac:(by right))). lia.
Qed.
Lemma zsum_ext f g l : (forall x, x ∈ l -> f x = g x) -> zsum f l = zsum g l.
Proof. intros H. apply Z.le_antisymm; apply zsum_mono; intros x Hx; rewrite (H x Hx); done. Qed.
Lemma zsum_nonpos f l : (forall x, x ∈ l -> f x <= 0) -> zsum f l <= 0.
Proof. intros H. etransitivity; [exact (zsum_mono f (fun _ => 0) l H)|]. clear H. by induction l. Qed.
Lemma zsum_nonneg f l : (forall x, x ∈ l -> 0 <= f x) -> 0 <= zsum f l.
Proof. intros H. etransitivity; [|exact (zsum_mono (fun _ => 0) f l H)]. clear H. by induction l. Qed.
Lemma zsum_count (P : A -> Prop) `{forall x, Decision (P x)} l :
  zsum (fun x => if decide (P x) then 1 else 0) l = Z.of_nat (length (filter P l)).
Proof.
  induction l as [|x l IH]; [done|]. cbn [zsum]. rewrite IH, filter_cons.
  destruct (decide (P x)); cbn; lia.
Qed.
End sums.

Lemma zsum_flat {A B} (f : B -> Z) (h : A -> list B) (l : list A) : zsum f (l ≫= h) = zsum (fun x => zsum f (h x)) l.
Proof. induction l as [|x l IH]; [done|]. cbn. rewrite zsum_app. by f_equal. Qed.

(** ** The stable sort keeps the order of a part *)

Section stable.
Context {A : Type} (key : A -> Z).

Lemma insert_by_front x l : Forall (key_le key x) l -> insert_by key x l = x :: l.
Proof. destruct 1 as [|y l Hy _]; cbn; [done|]. unfold key_le in Hy. by destruct (Z.leb_spec (key x) (key y)); [|lia]. Qed.

Lemma filter_insert_by (P : A -> Prop) `{forall x, Decision (P x)} x l :
  StronglySorted (key_le key) l ->
  filter P (insert_by key x l) = if decide (P x) then insert_by key x (filter P l) else filter P l.
Proof.
  induction 1 as [|y l Hl IH Hy]; [cbn [insert_by]; rewrite filter_cons; by destruct (decide (P x))|].
  cbn [insert_by]. destruct (Z.leb_spec (key x) (key y)) as [Hxy|Hxy].
  - rewrite filter_cons. destruct (decide (P x)); [|done]. symmetry. apply insert_by_front.
    apply Forall_forall. intros z [_ Hz]%list_elem_of_filter. unfold key_le in *. apply elem_of_cons in Hz as [->|Hz]; [lia|].
    rewrite Forall_forall in Hy. specialize (Hy z Hz). lia.
  - rewrite !filter_cons, IH. destruct (decide (P y)); destruct (decide (P x)); try done. cbn [insert_by].
    by destruct (Z.leb_spec (key x) (key y)); [lia|].
Qed.

Lemma filter_order_by (P : A -> Prop) `{forall x, Decision (P x)} l : filter P (order_by key l) = order_by key (filter P l).
Proof.
  induction l as [|x l IH]; [done|]. cbn [order_by foldr]. fold (order_by key l). rewrite filter_insert_by by apply order_by_sorted.
  rewrite filter_cons, IH. by destruct (decide (P x)).
Qed.

Lemma order_by_id l : StronglySorted (key_le key) l -> order_by key l = l.
Proof.
  induction 1 as [|x l Hl IH Hx]; [done|]. cbn [order_by foldr]. fold (order_by key l). rewrite IH. by apply insert_by_front.
Qed.
End stable.

Lemma filter_swap {A} (P Q : A -> Prop) `{forall x, Decision (P x)} `{forall x, Decision (Q x)} (l : list A) :
  filter P (filter Q l) = filter Q (filter P l).
Proof. rewrite !list_filter_filter. apply filter_ext_in. tauto. Qed.

(** ** Step series *)

(** The value at an instant: the last one at or before it. *)
Definition at_time (t : Z) (series : list (Z * Z)) : Z := default 0 (snd <$> last (filter (fun p => p.1 <= t) series)).

Definition in_order (series : list (Z * Z)) : Prop := StronglySorted (key_le fst) series.

(** Of an ordered list, what is at or before an instant comes first. *)
Lemma later_filtered {A} (key : A -> Z) t x l :
  Forall (key_le key x) l -> t < key x -> filter (fun p => key p <= t) l = [].
Proof.
  intros Hl Ht. induction Hl as [|y l Hy _ IH]; [done|]. unfold key_le in Hy. rewrite filter_cons, decide_False by lia. done.
Qed.

Lemma last_option_cons {A} (x d : A) l : default d (last (x :: l)) = default x (last l).
Proof. rewrite last_cons. by destruct (last l). Qed.

Lemma running_sums_at t pts : forall r, StronglySorted (key_le fst) pts ->
  default r (snd <$> last (filter (fun p => p.1 <= t) (running_sums r pts)))
  = r + zsum snd (filter (fun p => p.1 <= t) pts).
Proof.
  induction pts as [|[ts d] pts IH]; intros r Hs; cbn [running_sums]; [cbn; lia|].
  apply StronglySorted_inv in Hs as [Hs Hx]. rewrite !filter_cons. cbn [fst].
  destruct (decide (ts <= t)) as [Hle|Hgt].
  - cbn [zsum snd]. specialize (IH (r + d) Hs).
    rewrite last_cons. destruct (last (filter _ (running_sums (r + d) pts))) as [p|]; cbn in *; lia.
  - rewrite (later_filtered fst t (ts, d) pts) by (done || cbn; lia).
    assert (filter (fun p : Z * Z => p.1 <= t) (running_sums (r + d) pts) = []) as ->; [|cbn; lia].
    clear IH Hs. revert r d Hx. induction pts as [|[ts' d'] pts IH]; intros r d Hx; [done|].
    inversion Hx as [|?? H1 H2]; subst. unfold key_le in H1. cbn [fst] in H1. cbn [running_sums]. rewrite filter_cons, decide_False by (cbn; lia).
    apply (IH (r + d) d'). eapply Forall_impl; [exact H2|]. done.
Qed.

Lemma running_sums_in_order pts : forall r, StronglySorted (key_le fst) pts -> in_order (running_sums r pts).
Proof.
  induction pts as [|[ts d] pts IH]; intros r Hs; [constructor|]. apply StronglySorted_inv in Hs as [Hs Hx].
  cbn [running_sums]. constructor; [by apply IH|]. clear IH Hs. unfold key_le in *. cbn [fst] in *. revert r d Hx.
  induction pts as [|[ts' d'] pts IH]; intros r d Hx; [constructor|]. inversion Hx; subst. constructor; [done|by apply (IH (r + d) d')].
Qed.

Lemma series_in_order jobs : in_order (concurrency_series jobs).
Proof. apply running_sums_in_order, order_by_sorted. Qed.

(** ** How many jobs run *)

Definition running_at (t : Z) (j : Timeline) : bool :=
  match running_window j with Some (s, e) => (s <=? t) && (t <? e) | None => false end.
(** The jobs running at [t], counted one by one. *)
Definition count_running (t : Z) (jobs : list Timeline) : Z := Z.of_nat (length (filter (fun j => running_at t j) jobs)).

Lemma window_forward j s e : running_window j = Some (s, e) -> s < e.
Proof. unfold running_window. destruct (t_run j), (t_end j); try done. destruct (Z.ltb_spec z z0); [|done]. by intros [= <- <-]. Qed.

Lemma filter_zsum {A} (P : A -> Prop) `{forall x, Decision (P x)} (f : A -> Z) l :
  zsum f (filter P l) = zsum (fun x => if decide (P x) then f x else 0) l.
Proof.
  induction l as [|x l IH]; [done|]. rewrite filter_cons. cbn [zsum]. rewrite <- IH. by destruct (decide (P x)).
Qed.

Lemma concurrency_at t jobs : at_time t (concurrency_series jobs) = count_running t jobs.
Proof.
  unfold at_time, concurrency_series. rewrite running_sums_at by apply order_by_sorted. cbn [Z.add].
  rewrite (zsum_Permutation _ _ (filter (fun p => p.1 <= t) (jobs ≫= window_points))).
  2:{ by rewrite order_by_Permutation. }
  rewrite filter_zsum, zsum_flat. unfold count_running. rewrite <- zsum_count. apply zsum_ext.
  intros j _. unfold window_points, running_at. destruct (running_window j) as [[s e]|] eqn:Hw; [|done].
  pose proof (window_forward _ _ _ Hw). cbn. repeat case_decide; destruct (Z.leb_spec s t), (Z.ltb_spec t e); cbn in *; try lia; done.
Qed.

(** ** The series of several runners *)

Lemma list_max_spec l : (forall x, x ∈ l -> x <= list_max l) /\ (l <> [] -> list_max l ∈ l).
Proof.
  destruct l as [|x l]; [split; [by intros ? ?%not_elem_of_nil|done]|]. cbn [list_max].
  assert (forall l x, (forall y, y ∈ x :: l -> y <= foldl Z.max x l) /\ foldl Z.max x l ∈ x :: l) as H.
  { clear. induction l as [|z l IH]; intros x; cbn [foldl]; [split; [by intros y ->%list_elem_of_singleton|left]|].
    destruct (IH (Z.max x z)) as [H1 H2]. split.
    - pose proof (H1 (Z.max x z) ltac:(left)). intros y [->|[->|Hy]%elem_of_cons]%elem_of_cons; [lia|lia|]. apply H1. by right.
    - apply elem_of_cons in H2 as [->|H2]; [|right; by right]. destruct (Z.max_spec x z) as [[_ ->]|[_ ->]]; [right; left|left]. }
  destruct (H l x) as [H1 H2]. done.
Qed.
Lemma list_max_zeros n : list_max (replicate n 0) = 0.
Proof. destruct n as [|n]; [done|]. cbn. by induction n. Qed.

(** The values the runners have once the events at or before an instant were taken. *)
Definition apply_event (current : list Z) (e : Z * (nat * Z)) : list Z := <[e.2.1 := e.2.2]> current.

Lemma merge_steps_at t evs : forall current, StronglySorted (key_le fst) evs ->
  default (list_max current) (snd <$> last (filter (fun p => p.1 <= t) (merge_steps current evs)))
  = list_max (foldl apply_event current (filter (fun p => p.1 <= t) evs)).
Proof.
  induction evs as [|[ts [idx c]] evs IH]; intros current Hs; cbn [merge_steps]; [done|].
  apply StronglySorted_inv in Hs as [Hs Hx]. rewrite !filter_cons. cbn [fst].
  destruct (decide (ts <= t)) as [Hle|Hgt].
  - cbn [foldl]. rewrite <- (IH _ Hs). rewrite last_cons. unfold apply_event. cbn.
    by destruct (last (filter _ (merge_steps (<[idx:=c]> current) evs))).
  - rewrite (later_filtered fst t (ts, (idx, c)) evs) by (done || cbn; lia).
    assert (filter (fun p : Z * Z => p.1 <= t) (merge_steps (<[idx:=c]> current) evs) = []) as ->; [|done].
    generalize (<[idx:=c]> current). clear IH Hs. induction evs as [|[ts' [idx' c']] evs IH]; intros cur; [done|].
    inversion Hx as [|?? H1 H2]; subst. unfold key_le in H1. cbn [fst] in H1. cbn [merge_steps]. rewrite filter_cons, decide_False by (cbn; lia). by apply IH.
Qed.

Lemma apply_events_at evs : forall current i x, current !! i = Some x ->
  foldl apply_event current evs !! i = Some (default x (snd ∘ snd <$> last (filter (fun e => e.2.1 = i) evs))).
Proof.
  induction evs as [|[ts [idx c]] evs IH]; intros current i x Hi; cbn [foldl]; [done|]. rewrite filter_cons. cbn [fst snd].
  destruct (decide (idx = i)) as [->|Hne].
  - rewrite last_cons. unfold apply_event at 2. cbn. rewrite (IH _ i c).
    + by destruct (last (filter _ evs)).
    + apply list_lookup_insert_eq. by eapply lookup_lt_Some.
  - apply IH. unfold apply_event. cbn. by rewrite list_lookup_insert_ne.
Qed.
Lemma apply_events_length evs : forall current, length (foldl apply_event current evs) = length current.
Proof. induction evs as [|e evs IH]; intros current; cbn [foldl]; [done|]. rewrite IH. apply length_insert. Qed.

(** The events of the series numbered from [n] on. *)
Fixpoint events_from (n : nat) (sl : list (list (Z * Z))) : list (Z * (nat * Z)) :=
  match sl with
  | [] => []
  | s :: sl => map (fun p => (p.1, (n, p.2))) s ++ events_from (S n) sl
  end.
Lemma events_from_imap sl : forall n,
  concat (imap (fun idx series => map (fun p => (p.1, ((n + idx)%nat, p.2))) series) sl) = events_from n sl.
Proof.
  induction sl as [|s sl IH]; intros n; [done|]. cbn [imap concat events_from]. f_equal; [by rewrite Nat.add_0_r|]. rewrite <- IH. f_equal.
  apply imap_ext. intros j x _. cbn. by rewrite Nat.add_succ_r.
Qed.
Lemma filter_index (s : list (Z * Z)) m i :
  filter (fun e : Z * (nat * Z) => e.2.1 = i) (map (fun p => (p.1, (m, p.2))) s) = if decide (m = i) then map (fun p => (p.1, (m, p.2))) s else [].
Proof. induction s as [|p s IH]; [by case_decide|]. cbn [map]. rewrite filter_cons, IH. cbn [fst snd]. by case_decide. Qed.
Lemma events_from_of sl i : forall n,
  filter (fun e => e.2.1 = i) (events_from n sl)
  = if decide (n <= i)%nat then map (fun p => (p.1, (i, p.2))) (default [] (sl !! (i - n)%nat)) else [].
Proof.
  induction sl as [|s sl IH]; intros n; [by case_decide|]. cbn [events_from]. rewrite filter_app, filter_index, IH.
  destruct (decide (n = i)) as [->|Hne].
  - rewrite decide_False, decide_True, Nat.sub_diag by lia. apply app_nil_r.
  - cbn [app]. repeat case_decide; try lia; [|done]. replace (i - n)%nat with (S (i - S n)) by lia. done.
Qed.
Lemma series_events_of sl i : filter (fun e => e.2.1 = i) (series_events sl) = map (fun p => (p.1, (i, p.2))) (default [] (sl !! i)).
Proof. change (series_events sl) with (concat (imap (fun idx series => map (fun p => (p.1, ((0 + idx)%nat, p.2))) series) sl)). rewrite events_from_imap, events_from_of, Nat.sub_0_r. by rewrite decide_True by lia. Qed.

Lemma merge_at t sl : Forall in_order sl -> at_time t (_merge_series_max sl) = list_max (map (at_time t) sl).
Proof.
  intros Hsl. unfold at_time at 1, _merge_series_max. rewrite <- (list_max_zeros (length sl)) at 1.
  rewrite merge_steps_at by apply order_by_sorted. f_equal. apply list_eq_same_length with (length sl).
  - by rewrite length_map.
  - by rewrite apply_events_length, length_replicate.
  - intros i x y Hi Hx Hy. rewrite (apply_events_at _ _ _ 0) in Hx by (by apply lookup_replicate_2).
    apply lookup_lt_is_Some in Hi as [s Hs]. change (map (at_time t) sl) with (at_time t <$> sl) in Hy. rewrite list_lookup_fmap, Hs in Hy.
    cbn in Hy. injection Hy as <-. injection Hx as <-. rewrite filter_swap, filter_order_by, series_events_of, Hs. cbn [default].
    change (map (fun p : Z * Z => (p.1, (i, p.2))) s) with ((fun p : Z * Z => (p.1, (i, p.2))) <$> s).
    rewrite order_by_id.
    + rewrite filter_of_fmap, fmap_last. unfold at_time. cbn. by destruct (last _).
    + rewrite Forall_lookup in Hsl. specialize (Hsl i s Hs). clear -Hsl.
      induction Hsl as [|p s Hs IH Hp]; cbn; [constructor|]. constructor; [done|]. apply Forall_fmap. eapply Forall_impl; [exact Hp|done].
Qed.

(** C33: at every instant the merged series of the runners holds the number of jobs of the
    busiest runner that are running, counted one by one. *)
Theorem chart_counts t runners jobs :
  at_time t (runner_scoped_series runners jobs)
  = list_max (map (fun r => count_running t (filter (fun j => tj_runner (tl_job j) = r) jobs)) runners).
Proof.
  unfold runner_scoped_series. rewrite merge_at, map_map.
  - f_equal. apply map_ext. intros r. apply concurrency_at.
  - apply Forall_fmap, Forall_forall. intros r _. apply series_in_order.
Qed.

(** ** Within an instant

    The sort leaves the starts and the ends of one instant in the order of the jobs, so the
    values drawn at an instant lie between the jobs running around it and those that touch it. *)

Definition runs_around (t : Z) (j : Timeline) : bool :=
  match running_window j with Some (s, e) => (s <? t) && (t <? e) | None => false end.
Definition touches (t : Z) (j : Timeline) : bool :=
  match running_window j with Some (s, e) => (s <=? t) && (t <=? e) | None => false end.

Lemma running_sums_split pts t c : forall r, (t, c) ∈ running_sums r pts ->
  exists before d after, pts = before ++ (t, d) :: after /\ c = r + zsum snd before + d.
Proof.
  induction pts as [|[ts d] pts IH]; intros r Hin; cbn [running_sums] in Hin; [by apply not_elem_of_nil in Hin|].
  apply elem_of_cons in Hin as [[= -> ->]|(before & d' & after & -> & ->)%IH]; [exists [], d, pts; cbn; split; [done|lia]|].
  exists ((ts, d) :: before), d', after. cbn. split; [done|lia].
Qed.

(** What a change counts for at least, and at most, in a value drawn at [t]. *)
Definition at_least (t : Z) (p : Z * Z) : Z := if p.1 <? t then p.2 else if p.1 =? t then Z.min p.2 0 else 0.
Definition at_most (t : Z) (p : Z * Z) : Z := if p.1 <? t then p.2 else if p.1 =? t then Z.max p.2 0 else 0.

Lemma sums_bounded t c pts : StronglySorted (key_le fst) pts -> (t, c) ∈ running_sums 0 pts ->
  zsum (at_least t) pts <= c <= zsum (at_most t) pts.
Proof.
  intros Hs (before & d & after & -> & ->)%running_sums_split.
  apply StronglySorted_app in Hs as (Hba & _ & [_ Ha]%StronglySorted_inv). rewrite Forall_forall in Ha.
  assert (forall p, p ∈ before -> p.1 <= t) as Hb by (intros p Hp; apply (Hba p (t, d)); [done|left]).
  rewrite !zsum_app. cbn [zsum].
  assert (zsum (at_least t) before <= zsum snd before <= zsum (at_most t) before) as [H1 H2].
  { split; apply zsum_mono; intros p Hp; specialize (Hb p Hp); unfold at_least, at_most in *; destruct p as [ts n]; cbn [fst snd] in *; destruct (Z.ltb_spec ts t), (Z.eqb_spec ts t); lia. }
  assert (zsum (at_least t) after <= 0 <= zsum (at_most t) after) as [H3 H4].
  { split; [apply zsum_nonpos|apply zsum_nonneg]; intros p Hp; specialize (Ha p Hp); unfold key_le, at_least, at_most in *; destruct p as [ts n]; cbn [fst snd] in *; destruct (Z.ltb_spec ts t), (Z.eqb_spec ts t); lia. }
  assert (at_least t (t, d) <= d <= at_most t (t, d)) by (unfold at_least, at_most; cbn; rewrite Z.ltb_irrefl, Z.eqb_refl; lia).
  lia.
Qed.

Theorem series_bounds jobs t c : (t, c) ∈ concurrency_series jobs ->
  Z.of_nat (length (filter (fun j => runs_around t j) jobs)) <= c <= Z.of_nat (length (filter (fun j => touches t j) jobs)).
Proof.
  intros Hin. apply sums_bounded in Hin; [|apply order_by_sorted].
  rewrite !(zsum_Permutation _ (order_by fst _) _ (order_by_Permutation fst _)), !zsum_flat in Hin.
  rewrite <- !zsum_count. destruct Hin as [H1 H2].
  split; [etransitivity; [|exact H1]|etransitivity; [exact H2|]]; apply zsum_mono; intros j _;
    unfold window_points, runs_around, touches, at_least, at_most; destruct (running_window j) as [[s e]|] eqn:Hw; cbn [zsum fst snd];
    try done; pose proof (window_forward _ _ _ Hw);
    repeat match goal with |- context [?x <? ?y] => destruct (Z.ltb_spec x y) | |- context [?x <=? ?y] => destruct (Z.leb_spec x y)
                      | |- context [?x =? ?y] => destruct (Z.eqb_spec x y) end; cbn [andb]; try lia; case_decide; try done; lia.
Qed.

(** ** Overlaps *)

Lemma overlap_sym a b : overlap a b = overlap b a.
Proof.
  unfold overlap. destruct (running_window a) as [[s e]|], (running_window b) as [[s' e']|]; try done.
  rewrite <- !andb_assoc, (andb_comm (s <? e')). f_equal. by apply bool_decide_ext.
Qed.

(** [y] is listed as overlapping [x]. *)
Definition listed (x y : string) (overlaps : list (string * gset string)) : Prop := exists ys, d_get x overlaps = Some ys /\ y ∈ ys.

Lemma listed_add x y a b d : listed x y (add_overlap a b d) <-> listed x y d \/ x = a /\ y = b.
Proof.
  unfold listed, add_overlap. setoid_rewrite d_get_set. case_bool_decide as E; [subst x|].
  - split.
    + intros (ys & [= <-] & [Hy|Hy%elem_of_singleton]%elem_of_union); [|by right]. left. destruct (d_get a d) as [ys|]; [by exists ys|]. by apply not_elem_of_empty in Hy.
    + intros [(ys & -> & Hy)|[_ ->]]; (eexists; split; [reflexivity|]); set_solver.
  - split; [by left|]. intros [?|[? _]]; done.
Qed.

(** [a] and [b] are told of each other. *)
Definition told (x y : string) (a b : Timeline) : Prop :=
  overlap a b = true /\ ((x = tl_id a /\ y = tl_id b) \/ (x = tl_id b /\ y = tl_id a)).
Lemma listed_row x y a rest : forall d,
  listed x y (foldl (fun d b => if overlap a b then add_overlap (tl_id b) (tl_id a) (add_overlap (tl_id a) (tl_id b) d) else d) d rest)
  <-> listed x y d \/ exists b, b ∈ rest /\ told x y a b.
Proof.
  induction rest as [|b rest IH]; intros d; cbn [foldl].
  { split; [by left|]. intros [?|(? & ?%not_elem_of_nil & _)]; done. }
  rewrite IH. setoid_rewrite elem_of_cons. unfold told. destruct (overlap a b) eqn:E; [rewrite !listed_add|]; naive_solver congruence.
Qed.
Lemma listed_pairs x y running : forall d,
  listed x y (overlap_pairs running d) <->
  listed x y d \/ exists before a rest b, running = before ++ a :: rest /\ b ∈ rest /\ told x y a b.
Proof.
  induction running as [|a running IH]; intros d; cbn [overlap_pairs].
  { split; [by left|]. intros [?|([] & ? & ? & ? & ? & _)]; done. }
  rewrite IH, listed_row. split.
  - intros [[?|(b & ? & ?)]|(before & a' & rest & b & -> & ? & ?)]; [by left|right; by exists [], a, running, b|right; by exists (a :: before), a', rest, b].
  - intros [?|([|a0 before] & a' & rest & b & [= -> ->] & ? & ?)]; [by left; left|left; right; by exists b|right; by exists before, a', rest, b].
Qed.

Lemma not_listed_yet x y (running : list Timeline) : ~ listed x y (map (fun j => (tl_id j, ∅)) running).
Proof. induction running as [|j running IH]; intros (ys & Hg & Hy); cbn in Hg; [done|]. case_bool_decide; [simplify_eq; set_solver|]. apply IH. by exists ys. Qed.

Lemma same_id jobs c d : NoDup (tl_id <$> jobs) -> c ∈ jobs -> d ∈ jobs -> tl_id c = tl_id d -> c = d.
Proof.
  intros Hnd [i Hc]%list_elem_of_lookup [k Hd]%list_elem_of_lookup Hid.
  assert (i = k) as ->; [|congruence]. eapply (NoDup_lookup (tl_id <$> jobs)); [done| |]; rewrite list_lookup_fmap, ?Hc, ?Hd; cbn; by f_equal.
Qed.

(** the overlaps listed for a job are exactly the other jobs of its runner whose running
    windows meet its own. *)
Theorem overlaps_exact jobs a b :
  NoDup (tl_id <$> jobs) -> a ∈ jobs -> b ∈ jobs ->
  listed (tl_id a) (tl_id b) (find_overlaps jobs) <-> a <> b /\ overlap a b = true.
Proof.
  intros Hnd Ha Hb. unfold find_overlaps. set (running := filter _ jobs). rewrite listed_pairs.
  assert (forall c, c ∈ running <-> has_window c = true /\ c ∈ jobs) as Hrun by (intros c; unfold running; rewrite list_elem_of_filter, Is_true_true; done).
  assert (NoDup (tl_id <$> running)) as Hnr by (eapply sublist_NoDup; [exact Hnd|apply fmap_sublist, sublist_filter]).
  split.
  - intros [?%not_listed_yet|(before & a' & rest & b' & Hsplit & Hb' & Hov & Hids)]; [done|].
    assert (a' ∈ jobs /\ b' ∈ jobs) as [Ha'j Hb'j] by (split; apply Hrun; rewrite Hsplit; set_solver).
    assert (a' <> b') as Hne.
    { intros <-. rewrite Hsplit, fmap_app, fmap_cons in Hnr. apply NoDup_app in Hnr as (_ & _ & [Hn _]%NoDup_cons). apply Hn. by apply list_elem_of_fmap_2. }
    destruct Hids as [[H1 H2]|[H1 H2]]; apply (same_id jobs) in H1, H2; subst; try done. by rewrite overlap_sym.
  - intros [Hne Hov]. right. assert (a ∈ running /\ b ∈ running) as [Har Hbr].
    { rewrite !Hrun. unfold has_window. unfold overlap in Hov. destruct (running_window a) as [[]|], (running_window b) as [[]|]; done. }
    apply list_elem_of_split in Har as (before & rest & Hsplit). rewrite Hsplit in Hbr. apply elem_of_app in Hbr as [Hbr|[->|Hbr]%elem_of_cons]; [|done|].
    + apply list_elem_of_split in Hbr as (l1 & l2 & ->). exists l1, b, (l2 ++ a :: rest), a. rewrite Hsplit, <- app_assoc. split; [done|].
      split; [set_solver|]. split; [by rewrite overlap_sym|by right].
    + exists before, a, rest, b. split; [done|]. split; [done|]. split; [done|by left].
Qed.

(** ** The life of a job *)

Lemma first_points_sublist events : forall seen, first_points seen events `sublist_of` events.
Proof. induction events as [|[ts st] events IH]; intros seen; cbn [first_points]; [constructor|]. case_bool_decide; by constructor. Qed.

Lemma StronglySorted_sublist {A} (R : A -> A -> Prop) l l' : l `sublist_of` l' -> StronglySorted R l' -> StronglySorted R l.
Proof.
  induction 1 as [|x l l' Hs IH|x l l' Hs IH]; intros Hl; [constructor| |]; apply StronglySorted_inv in Hl as [Hl Hx]; [|by apply IH].
  constructor; [by apply IH|]. apply Forall_forall. intros y Hy. rewrite Forall_forall in Hx. apply Hx. by eapply elem_of_sublist.
Qed.

(** The events are no earlier than the creation of the job. *)
Definition created_first (job : TimelineJob) : Prop := Forall (fun e => tj_created job <= e.1) (status_events job).

Lemma reached_in_order job : created_first job -> StronglySorted (key_le fst) (reached_points job).
Proof.
  intros Hc. unfold reached_points. assert (forall seen, StronglySorted (key_le fst) (first_points seen (order_by fst (status_events job)))) as Hs
    by (intros seen; eapply StronglySorted_sublist; [apply first_points_sublist|apply order_by_sorted]).
  case_bool_decide; [apply Hs|]. constructor; [apply Hs|]. apply Forall_forall. intros e He. unfold key_le. cbn.
  pose proof (elem_of_sublist _ _ _ He (first_points_sublist _ _)) as He'. apply elem_of_order_by in He'. unfold created_first in Hc. rewrite Forall_forall in Hc. by apply Hc.
Qed.

Lemma all_points_in_order t job : created_first job -> StronglySorted (key_le fst) (all_points t job).
Proof.
  intros Hc. unfold all_points. pose proof (reached_in_order job Hc) as Hs.
  destruct (last (reached_points job)) as [[ts st]|] eqn:Hl; [|done]. destruct (bool_decide _); cbn [andb]; [|done].
  destruct (Z.ltb_spec ts t); [|done]. apply last_Some in Hl as [l Hl]. rewrite Hl in *. apply StronglySorted_app in Hs as (Hlt & Hl' & _).
  apply StronglySorted_app_2; [| |repeat constructor].
  - intros p q Hp ->%list_elem_of_singleton. unfold key_le. cbn. apply elem_of_app in Hp as [Hp| ->%list_elem_of_singleton]; [|cbn; lia].
    specialize (Hlt p (ts, st) Hp ltac:(left)). unfold key_le in Hlt. cbn in Hlt. lia.
  - apply StronglySorted_app_2; [|done|repeat constructor]. intros p q Hp Hq. by apply Hlt.
Qed.

Definition span (s : Z * Z * JobStatus) : Z := s.1.2 - s.1.1.
(** The time spent, whatever the status. *)
Definition total (d : list (JobStatus * Z)) : Z := zsum snd d.

Lemma segments_forward pts : StronglySorted (key_le fst) pts -> Forall (fun s => 0 <= span s) (segments_of pts).
Proof.
  induction 1 as [|[ts st] pts _ IH Hx]; [constructor|]. destruct pts as [|[ts' st'] pts]; [constructor|]. cbn [segments_of].
  constructor; [|exact IH]. inversion Hx; subst. unfold key_le, span in *. cbn in *. lia.
Qed.
Lemma segments_telescope ts st pts : zsum span (segments_of ((ts, st) :: pts)) = default ts (fst <$> last pts) - ts.
Proof.
  revert ts st. induction pts as [|[ts' st'] pts IH]; intros ts st; [cbn; lia|].
  change (segments_of ((ts, st) :: (ts', st') :: pts)) with ((ts, ts', st) :: segments_of ((ts', st') :: pts)). cbn [zsum].
  rewrite IH, last_cons. unfold span. cbn. destruct (last pts); cbn; lia.
Qed.

Lemma total_set st x d : total (d_set st (default 0 (d_get st d) + x) d) = total d + x.
Proof.
  unfold total. induction d as [|[st' v] d IH]; cbn [d_set d_get]; [cbn; lia|]. case_bool_decide; cbn [zsum snd]; [cbn; lia|]. rewrite IH. lia.
Qed.
Lemma durations_total segs : total (durations_of segs) = zsum span segs.
Proof.
  unfold durations_of. assert (forall d, total (foldl (fun d '(start, stop, st) => d_set st (default 0 (d_get st d) + (stop - start)) d) d segs) = total d + zsum span segs) as H; [|apply (H [])].
  induction segs as [|[[a b] st] segs IH]; intros d; cbn [foldl zsum]; [lia|]. rewrite IH, total_set. unfold span. cbn. lia.
Qed.

Lemma all_points_nonempty t job : all_points t job <> [].
Proof.
  assert (reached_points job <> []) as Hr.
  { unfold reached_points. case_bool_decide as Hq; [|done]. destruct (order_by _ _) as [|[ts st] l]; [by apply not_elem_of_nil in Hq|]. done. }
  unfold all_points. destruct (last _) as [[ts st]|]; [|done]. destruct (_ && _); [|done]. by destruct (reached_points job).
Qed.

(** the segments of a job cover its timeline: their lengths add up to the time from its
    first point to its end, and none is negative when no event precedes its creation. *)
Theorem timeline_accounts t job : let tl := timeline_at t job in
  exists t0, fst <$> head (points tl) = Some t0
    /\ t_end tl = fst <$> last (points tl)
    /\ total (durations tl) = default t0 (t_end tl) - t0
    /\ (created_first job -> Forall (fun s => 0 <= span s) (segments tl) /\ 0 <= total (durations tl)).
Proof.
  cbn. pose proof (all_points_nonempty t job) as Hne. pose proof (all_points_in_order t job) as Hs.
  destruct (all_points t job) as [|[ts st] pts] eqn:E; [done|]. exists ts. split; [done|].
  assert (match last ((ts, st) :: pts) with Some p => Some p.1 | None => tj_updated job end = fst <$> last ((ts, st) :: pts)) as Hl
    by (rewrite last_cons; by destruct (last pts)).
  split; [exact Hl|]. rewrite durations_total, segments_telescope, Hl, last_cons. split; [by destruct (last pts)|].
  intros Hc. pose proof (segments_forward _ (Hs Hc)) as Hf. split; [exact Hf|].
  rewrite <- (segments_telescope ts st pts). apply zsum_nonneg. by apply Forall_forall.
Qed.

(** ** Two jobs, one after the other *)

Module back_to_back.
Definition job_at (name : string) (created start stop : Z) : Timeline :=
  timeline_at 100 (mk_timeline_job name SUCCEEDED FLEETS false "-" created None
    [(start, RUNNING); (stop, SUCCEEDED)] "author" "-" "-" "-" "-" "-" "-").
(** The job created first ran second. *)
Definition selection : list Timeline := [job_at "first" 0 20 30; job_at "second" 1 10 20].
End back_to_back.

(** Nothing overlaps and never do two jobs run at once, yet the heading says two. *)
Example peak_counts_a_touch :
  find_overlaps back_to_back.selection = [("first", ∅); ("second", ∅)]
  /\ (forall t, count_running t back_to_back.selection <= 1)
  /\ peak_overlap back_to_back.selection = 2.
Proof.
  split; [reflexivity|]. split; [|reflexivity]. intros t. unfold count_running.
  change (filter (fun j => running_at t j) back_to_back.selection)
    with (filter (fun j => running_at t j) [back_to_back.job_at "first" 0 20 30; back_to_back.job_at "second" 1 10 20]).
  rewrite !filter_cons, filter_nil. change (running_at t (back_to_back.job_at "first" 0 20 30)) with ((20 <=? t) && (t <? 30)).
  change (running_at t (back_to_back.job_at "second" 1 10 20)) with ((10 <=? t) && (t <? 20)).
  destruct (Z.leb_spec 20 t), (Z.ltb_spec t 20); try lia; cbn [andb]; rewrite ?andb_false_r; repeat case_decide; cbn in *; try lia; done.
Qed.

Example overlaps_of_two :
  listed "a" "b" (find_overlaps [back_to_back.job_at "a" 0 10 20; back_to_back.job_at "b" 1 15 30]).
Proof. exists {["b"]}. split; [reflexivity|]. by apply elem_of_singleton. Qed.
