(* ===== verification/Authentication.v ===== *)
(** * Authentication

    The two backends ([api/authentication.py]), the use case ([api/use_cases/authentication.py]),
    IBM Quantum Platform and the local service ([api/services/authentication/]) and the client of
    the entitlements ([api/clients/function_access_client.py]). IBM Cloud is a parameter: its
    calls fail in one of three ways or answer the fields the code reads; [hashlib.sha256] and
    [random.random()] are parameters too. *)

From stdpp Require Import pretty.
From S2P Require Import Prelude PyStr Domain Models World Access RunFunction.

Local Open Scope string_scope.
Local Open Scope list_scope.
Local Open Scope Z_scope.

(** ** Settings and requests *)

Definition Channel_of (value : string) : option Channel :=
  head (filter (fun c => channel_value c = value) [IBM_CLOUD; IBM_QUANTUM_PLATFORM; LOCAL]).

Record AuthSettings := mk_auth_settings {
  IAM_IBM_CLOUD_BASE_URL : option string;
  IAM_IBM_CLOUD_CACHE_TTL : Z;
  RESOURCE_PLANS_ID_ALLOWED : list string;
  RUNTIME_API_BASE_URL : string;
  RUNTIME_API_DEFAULT_REGION : string;
  RUNTIME_API_CACHE_TTL : Z;
  SETTINGS_AUTH_MOCK_TOKEN : option string;
  SETTINGS_AUTH_MOCKPROVIDER_REGISTRY : option string
}.

Record HttpRequest := mk_request {
  req_path : string;
  HTTP_SERVICE_CRN : option string;
  HTTP_SERVICE_CHANNEL : option string;
  HTTP_AUTHORIZATION : option string
}.

(** [needle in haystack]. *)
Fixpoint contains (needle haystack : string) : bool :=
  startswith needle haystack || match haystack with EmptyString => false | String _ s => contains needle s end.
Definition PUBLIC_ENDPOINTS : list string := ["swagger"].
Definition is_public_endpoint (path : string) : bool := existsb (fun p => contains p path) PUBLIC_ENDPOINTS.

(** ** What IBM Cloud answers *)

Record Claims := mk_claims { iam_id : option string; account_bss : option (option string) }.
Record InstanceAttributes := mk_instance { resource_plan_id : option string; extensions : option (option string) }.
Record AccessGroup := mk_access_group { ag_name : string; ag_id : string }.
Record EntitledFunction := mk_entitled {
  ef_provider : option string;
  ef_name : option string;
  ef_permissions : list string;
  ef_business_model : option string
}.
(** An element of [instance_entitlements]; [en_error] is the code of an error that is not empty. *)
Record Entitlements := mk_entitlements {
  en_instance_crn : option string;
  en_error : option string;
  en_functions : list EntitledFunction;
  en_custom_permissions : list string
}.

(** A connection that failed or timed out; an [ApiException] with its status; anything else. *)
Inductive CloudError := Unreachable | ApiError (status : option Z) | OtherFailure (e : exn).

Record IBMCloud (B : Type) := mk_cloud {
  IAMAuthenticator : string -> outcome unit;
  get_token : string -> B -> (CloudError + string) * B;
  get_signing_key_from_jwt : string -> B -> (CloudError + string) * B;
  jwt_decode : string -> string -> B -> (CloudError + Claims) * B;
  get_resource_instance : option string -> string -> B -> (CloudError + InstanceAttributes) * B;
  list_access_groups : string -> string -> B -> (CloudError + list AccessGroup) * B;
  (** a status, and the body read as JSON *)
  get_entitlements : string -> string -> string -> B -> (CloudError + Z * outcome (list Entitlements)) * B
}.
Arguments IAMAuthenticator {B}. Arguments get_token {B}. Arguments get_signing_key_from_jwt {B}. Arguments jwt_decode {B}.
Arguments get_resource_instance {B}. Arguments list_access_groups {B}. Arguments get_entitlements {B}.

Definition transient_status (status : Z) : bool := (status =? 429) || (500 <=? status).
Definition _is_transient_api_exception (status : option Z) : bool :=
  match status with Some s => transient_status s | None => false end.

(** ** Users and groups *)

Record Account := mk_account { acc_id : nat; acc_username : string; is_active : bool }.
Record AuthGroup := mk_auth_group {
  g_id : nat;
  g_name : string;
  g_permissions : list string;
  g_users : list nat;
  g_metadata : option (option string)          (* the row of GroupMetadata: its account *)
}.
Record MockProvider := mk_mock_provider { mp_name : string; mp_registry : option string; mp_admin_groups : list nat }.
Record Accounts := mk_accounts {
  users : list Account;
  auth_groups : list AuthGroup;
  mock_providers : list MockProvider
}.
Record AuthenticationGroup := mk_authentication_group { group_name : string; account : option string }.

Definition new_pk (pks : list nat) : nat := S (foldr Nat.max 0%nat pks).

(** ** The state of a request *)

Inductive Cached :=
  | CachedClaims (c : Claims)
  | CachedAttributes (plan_id subscription_id : option string)
  | CachedGroups (ids : list string)
  | CachedAccess (a : FunctionAccessResult).

(** The cache keeps with a value when it expires. *)
Record Auth (B : Type) := mk_auth {
  au_world : World;
  au_cloud : B;
  au_cache : gmap string (Z * Cached);
  au_accounts : Accounts
}.
Arguments mk_auth {B}. Arguments au_world {B}. Arguments au_cloud {B}. Arguments au_cache {B}. Arguments au_accounts {B}.

Record AuthenticationResult := mk_authentication_result {
  r_user : Account;
  r_account_id : option string;
  r_plan_id : option string;
  r_subscription_id : option string
}.
Record CustomAuthentication := mk_custom_authentication {
  ca_channel : Channel;
  ca_token : string;
  ca_accessible_functions : FunctionAccessResult;
  ca_instance : option string;
  ca_account_id : option string;
  ca_plan_id : option string;
  ca_subscription_id : option string
}.

(** [IBMQuantumPlatform]: the fields its methods read and set. *)
Record Platform := mk_platform {
  p_api_key : string;
  p_api_key_hash : string;
  p_crn : option string;
  p_cache_ttl : Z;
  p_account_id : option string;
  p_plan_id : option string;
  p_subscription_id : option string
}.
Inductive Service := OnPlatform (p : Platform) | Locally (authorization_token : string).

Definition auth_failed (message : string) : exn := mk_exn AuthenticationFailed message.
Definition service_unavailable : exn :=
  mk_exn ServiceUnavailable "We couldn't verify your access to Qiskit Functions at this time. Please try again later, or contact IBM support if the problem persists.".
Definition str_or_none (v : option string) : string := default "None" v.

(** [cache_key]s. *)
Definition jwt_key (hash : string) : string := "auth:jwt:" +:+ hash.
Definition access_key (crn : option string) (hash : string) : string := "auth:access:" +:+ str_or_none crn +:+ ":" +:+ hash.
Definition groups_key (account_id hash : string) : string := "auth:groups:" +:+ account_id +:+ ":" +:+ hash.
Definition functions_key (crn hash : string) : string := "accesible_functions:" +:+ crn +:+ ":" +:+ hash.

(** [jittered_cache_ttl], given [random.random()] in millionths. *)
Definition jittered_cache_ttl (random ttl : Z) : Z :=
  if ttl <=? 0 then ttl else Z.max 1 (ttl * (5000000 - random) / 5000000).

(** [regional_base_url]; the base URL of the settings is [scheme://host] and maybe a path. *)
Fixpoint insert_host_prefix (prefix url : string) : string :=
  match url with
  | EmptyString => EmptyString
  | String c s => if startswith "://" url then "://" +:+ prefix +:+ drop_str 3 url else String c (insert_host_prefix prefix s)
  end.
Definition regional_base_url (base_url : string) (instance_crn : option string) (default_region : string) : string :=
  match Crn.parse instance_crn with
  | None => base_url
  | Some crn => if bool_decide (Crn.region crn = default_region) then base_url else insert_host_prefix (Crn.region crn +:+ ".") base_url
  end.

Section auth.
Context {B : Type} (cloud : IBMCloud B) (settings : AuthSettings).
Context (sha256 : string -> string) (random : nat -> Z).
Abbreviation Au := (M (Auth B)).

Definition auth_process {A} (m : Py A) : Au A :=
  fun a => let '(o, w) := m (au_world a) in (o, mk_auth w (au_cloud a) (au_cache a) (au_accounts a)).
Definition ask {A} (call : B -> (CloudError + A) * B) : Au (CloudError + A) :=
  fun a => let '(r, b) := call (au_cloud a) in (Ok r, mk_auth (au_world a) b (au_cache a) (au_accounts a)).
Definition get_accounts : Au Accounts := gets au_accounts.
Definition set_accounts (acc : Accounts) : Au unit := modify (fun a => mk_auth (au_world a) (au_cloud a) (au_cache a) acc).

Definition cache_get (key : string) : Au (option Cached) :=
  t <- auth_process now ;;
  gets (fun a => '(expiry, v) ← au_cache a !! key; if t <? expiry then Some v else None).
Definition cache_set (key : string) (v : Cached) (ttl : Z) : Au unit :=
  t <- auth_process now ;;
  modify (fun a => mk_auth (au_world a) (au_cloud a) (<[key := (t + ttl * 1000000, v)]> (au_cache a)) (au_accounts a)).
Definition draw_ttl (ttl : Z) : Au Z := gets (fun a => jittered_cache_ttl (random (ticks (au_world a))) ttl).
(** A cached value of another shape: the code would fail on its first use of it. *)
Definition wrong_shape {A} : Au A := raise (mk_exn AttributeError "").

(** ** IBM Quantum Platform *)

Definition new_platform (api_key : string) (crn : option string) : Au Platform :=
  ttl <- draw_ttl (IAM_IBM_CLOUD_CACHE_TTL settings) ;;
  of_outcome (IAMAuthenticator cloud api_key) ;;;
  ret (mk_platform api_key (sha256 api_key) crn ttl None None None).

(** The except clauses of [_request_or_cache_jwt_data]: every failure is one of the two. *)
Definition jwt_failure (e : CloudError) : exn :=
  match e with
  | Unreachable => service_unavailable
  | ApiError status =>
      if _is_transient_api_exception status then service_unavailable
      else auth_failed "You couldn't be authenticated, please review your API Key."
  | OtherFailure _ => auth_failed "You couldn't be authenticated, please review your API Key."
  end.

Definition _request_or_cache_jwt_data (p : Platform) : Au Claims :=
  cached <- cache_get (jwt_key (p_api_key_hash p)) ;;
  match cached with
  | Some (CachedClaims decoded) => ret decoded
  | Some _ => wrong_shape
  | None =>
      token <- ask (get_token cloud (p_api_key p)) ;;
      match token with
      | inl e => raise (jwt_failure e)
      | inr token =>
          key <- ask (get_signing_key_from_jwt cloud token) ;;
          match key with
          | inl e => raise (jwt_failure e)
          | inr key =>
              decoded <- ask (jwt_decode cloud token key) ;;
              match decoded with
              | inl e => raise (jwt_failure e)
              | inr decoded =>
                  cache_set (jwt_key (p_api_key_hash p)) (CachedClaims decoded) (p_cache_ttl p) ;;;
                  ret decoded
              end
          end
      end
  end.

Definition platform_authenticate (p : Platform) : Au (Platform * string) :=
  match IAM_IBM_CLOUD_BASE_URL settings with
  | None => raise (auth_failed "You couldn't be authenticated.")
  | Some _ =>
      decoded <- _request_or_cache_jwt_data p ;;
      match iam_id decoded with
      | None => raise (auth_failed "IBM Cloud returned a token with no IAM ID for this API key. Please contact IBM support.")
      | Some user =>
          match account_bss decoded with
          | None => raise (auth_failed "IBM Cloud returned a token with no account for this API key. Please contact IBM support.")
          | Some None => raise (auth_failed "IBM Cloud returned a token with no account ID for this API key. Please contact IBM support.")
          | Some (Some bss) =>
              ret (mk_platform (p_api_key p) (p_api_key_hash p) (p_crn p) (p_cache_ttl p) (Some bss) (p_plan_id p) (p_subscription_id p), user)
          end
      end
  end.

Definition _request_or_cache_instance_attributes (p : Platform) : Au (option string * option string) :=
  let key := access_key (p_crn p) (p_api_key_hash p) in
  cached <- cache_get key ;;
  match cached with
  | Some (CachedAttributes plan subscription) => ret (plan, subscription)
  | Some _ => wrong_shape
  | None =>
      answer <- ask (get_resource_instance cloud (p_crn p) (p_api_key p)) ;;
      match answer with
      | inl Unreachable => raise service_unavailable
      | inl (ApiError status) =>
          raise (if _is_transient_api_exception status then service_unavailable
                 else auth_failed "There was a problem in the authentication process with IBM Quantum Platform, please review your CRN.")
      | inl (OtherFailure e) => raise e
      | inr instance =>
          let plan := resource_plan_id instance in
          let subscription := default None (extensions instance) in
          cache_set key (CachedAttributes plan subscription) (p_cache_ttl p) ;;;
          ret (plan, subscription)
      end
  end.

Definition platform_verify_access (p : Platform) : Au (Platform * bool) :=
  attributes <- _request_or_cache_instance_attributes p ;;
  let p := mk_platform (p_api_key p) (p_api_key_hash p) (p_crn p) (p_cache_ttl p) (p_account_id p) attributes.1 attributes.2 in
  match attributes.1 with
  | None => raise (auth_failed "IBM Cloud returned no resource plan for this instance. Please contact IBM support.")
  | Some plan => ret (p, bool_decide (plan ∈ RESOURCE_PLANS_ID_ALLOWED settings))
  end.

Definition _request_or_cache_group_ids (p : Platform) (account_id : string) : Au (list string) :=
  let key := groups_key account_id (p_api_key_hash p) in
  cached <- cache_get key ;;
  match cached with
  | Some (CachedGroups ids) => ret ids
  | Some _ => wrong_shape
  | None =>
      answer <- ask (list_access_groups cloud account_id (p_api_key p)) ;;
      match answer with
      | inl Unreachable => raise service_unavailable
      | inl (ApiError status) => if _is_transient_api_exception status then raise service_unavailable else ret []
      | inl (OtherFailure e) => raise e
      | inr groups =>
          let ids := map ag_id (filter (fun g => ag_name g <> "Public Access") groups) in
          cache_set key (CachedGroups ids) (p_cache_ttl p) ;;;
          ret ids
      end
  end.

Definition platform_get_groups (p : Platform) : Au (list AuthenticationGroup) :=
  match p_account_id p with
  | None => raise (auth_failed "You couldn't be authenticated.")
  | Some account_id =>
      ids <- _request_or_cache_group_ids p account_id ;;
      ret (map (fun i => mk_authentication_group i (Some account_id)) ids)
  end.

(** ** The service of a channel *)

Definition local_authenticate (authorization_token : string) : Au string :=
  match SETTINGS_AUTH_MOCK_TOKEN settings with
  | None => raise (auth_failed "Mock token environment variable is not configured.")
  | Some mock =>
      if bool_decide (authorization_token = mock) then ret "mockuser"
      else raise (auth_failed "Authorization token is not valid.")
  end.

Definition _get_authentication_service_instance (channel : Channel) (authorization_token : string) (crn : option string) : Au Service :=
  match channel with
  | IBM_CLOUD | IBM_QUANTUM_PLATFORM => p <- new_platform authorization_token crn ;; ret (OnPlatform p)
  | LOCAL => ret (Locally authorization_token)
  end.
Definition service_authenticate (s : Service) : Au (Service * string) :=
  match s with
  | OnPlatform p => r <- platform_authenticate p ;; ret (OnPlatform r.1, r.2)
  | Locally token => username <- local_authenticate token ;; ret (s, username)
  end.
Definition service_verify_access (s : Service) : Au (Service * bool) :=
  match s with
  | OnPlatform p => r <- platform_verify_access p ;; ret (OnPlatform r.1, r.2)
  | Locally _ => ret (s, true)
  end.
Definition service_get_groups (s : Service) : Au (list AuthenticationGroup) :=
  match s with
  | OnPlatform p => platform_get_groups p
  | Locally _ => ret [mk_authentication_group "mockgroup" None]
  end.
Definition get_account_id (s : Service) : option string := match s with OnPlatform p => p_account_id p | Locally _ => None end.
Definition get_plan_id (s : Service) : option string := match s with OnPlatform p => p_plan_id p | Locally _ => None end.
Definition get_subscription_id (s : Service) : option string := match s with OnPlatform p => p_subscription_id p | Locally _ => None end.

(** ** The use case *)

(** [User.objects.get_or_create(username=username)]. *)
Definition get_or_create_user (username : string) (acc : Accounts) : Account * Accounts :=
  match head (filter (fun u => acc_username u = username) (users acc)) with
  | Some u => (u, acc)
  | None =>
      let u := mk_account (new_pk (map acc_id (users acc))) username true in
      (u, mk_accounts (users acc ++ [u]) (auth_groups acc) (mock_providers acc))
  end.

Definition update_group (pk : nat) (f : AuthGroup -> AuthGroup) (gs : list AuthGroup) : list AuthGroup :=
  map (fun g => if bool_decide (g_id g = pk) then f g else g) gs.
Definition remove_user (user : nat) (g : AuthGroup) : AuthGroup :=
  mk_auth_group (g_id g) (g_name g) (g_permissions g) (filter (fun u => u <> user) (g_users g)) (g_metadata g).
Definition add_user (user : nat) (g : AuthGroup) : AuthGroup :=
  if bool_decide (user ∈ g_users g) then g
  else mk_auth_group (g_id g) (g_name g) (g_permissions g) (g_users g ++ [user]) (g_metadata g).
Definition set_account (account : option string) (g : AuthGroup) : AuthGroup :=
  mk_auth_group (g_id g) (g_name g) (g_permissions g) (g_users g) (Some account).

Definition user_groups (user : nat) (gs : list AuthGroup) : list AuthGroup := filter (fun g => user ∈ g_users g) gs.
Definition _has_account (g : AuthGroup) (account : option string) : bool :=
  match account with
  | None => true
  | Some _ => bool_decide (g_metadata g = Some account)
  end.

(** [sorted(accounts.items())]: the names differ. *)
Fixpoint insert_item (x : string * option string) (l : list (string * option string)) : list (string * option string) :=
  match l with
  | [] => [x]
  | y :: l' => if String.leb x.1 y.1 then x :: l else y :: insert_item x l'
  end.
Definition sorted_items (l : list (string * option string)) : list (string * option string) := foldr insert_item [] l.
Definition accounts_of (groups : list AuthenticationGroup) : list (string * option string) :=
  foldl (fun d g => d_set (group_name g) (account g) d) [] groups.

(** One turn of the loop: the group, its member and its account. *)
Definition sync_group (user : nat) (permission_names : list string) (current : list AuthGroup)
    (gs : list AuthGroup) (item : string * option string) : list AuthGroup :=
  let '(name, account) := item in
  let '(group, gs) :=
    match head (filter (fun g => g_name g = name) current) with
    | Some group => (group, gs)
    | None =>
        match head (filter (fun g => g_name g = name) gs) with
        | Some group => (group, update_group (g_id group) (add_user user) gs)
        | None =>
            let group := mk_auth_group (new_pk (map g_id gs)) name permission_names [] None in
            (group, update_group (g_id group) (add_user user) (gs ++ [group]))
        end
    end in
  if _has_account group account then gs else update_group (g_id group) (set_account account) gs.

Definition sync_user_groups (user : nat) (groups : list AuthenticationGroup) (permission_names : list string)
    (gs : list AuthGroup) : list AuthGroup :=
  let accounts := accounts_of groups in
  let current := user_groups user gs in
  if forallb (fun g => bool_decide (g_name g ∈ accounts.*1)) current
     && forallb (fun item => match head (filter (fun g => g_name g = item.1) current) with
                             | Some g => _has_account g item.2
                             | None => false
                             end) accounts
  then gs
  else
    let gone := map g_id (filter (fun g => g_name g ∉ accounts.*1) current) in
    let gs := map (fun g => if bool_decide (g_id g ∈ gone) then remove_user user g else g) gs in
    foldl (sync_group user permission_names current) gs (sorted_items accounts).
Definition _sync_user_groups (user : Account) (groups : list AuthenticationGroup) (permission_names : list string) : Au unit :=
  acc <- get_accounts ;;
  set_accounts (mk_accounts (users acc) (sync_user_groups (acc_id user) groups permission_names (auth_groups acc)) (mock_providers acc)).

(** [Provider.objects.get_or_create], and the groups of the user who made it. *)
Definition make_mock_provider (user : Account) (acc : Accounts) : Accounts :=
  let registry := SETTINGS_AUTH_MOCKPROVIDER_REGISTRY settings in
  if existsb (fun p => bool_decide (mp_name p = "mockprovider" /\ mp_registry p = registry)) (mock_providers acc) then acc
  else mk_accounts (users acc) (auth_groups acc)
         (mock_providers acc ++ [mk_mock_provider "mockprovider" registry (map g_id (user_groups (acc_id user) (auth_groups acc)))]).

Definition authentication_execute (channel : Channel) (authorization_token : string) (crn : option string) (public_access : bool)
    : Au AuthenticationResult :=
  service <- _get_authentication_service_instance channel authorization_token crn ;;
  authenticated <- service_authenticate service ;;
  let '(service, username) := authenticated in
  let account_id := get_account_id service in
  service <- (if public_access then ret service
              else
                verified <- service_verify_access service ;;
                if verified.2 : bool then ret verified.1
                else raise (auth_failed "Your instance's resource plan is not entitled to use Qiskit Functions. Please use an instance provisioned on a supported plan, or contact IBM support if you believe this is an error.")) ;;
  access_groups <- service_get_groups service ;;
  acc <- get_accounts ;;
  let '(user, acc) := get_or_create_user username acc in
  set_accounts acc ;;;
  (if is_active user then ret tt else raise (auth_failed "Your user was deactivated. Please contact IBM support for reactivation.")) ;;;
  match channel with
  | LOCAL =>
      _sync_user_groups user access_groups [VIEW_PROGRAM_PERMISSION; RUN_PROGRAM_PERMISSION] ;;;
      acc <- get_accounts ;; set_accounts (make_mock_provider user acc)
  | _ => _sync_user_groups user access_groups [VIEW_PROGRAM_PERMISSION]
  end ;;;
  ret (mk_authentication_result user account_id (get_plan_id service) (get_subscription_id service)).

(** ** What the instance is entitled to *)

Definition _instance_entitlements (elements : list Entitlements) (instance_crn : string) : outcome Entitlements :=
  match head (filter (fun e => en_instance_crn e = Some instance_crn) elements) with
  | None => Raise (mk_exn RuntimeFunctionsException ("No entitlements for CRN " +:+ instance_crn))
  | Some element =>
      match en_error element with
      | Some code => Raise (mk_exn RuntimeFunctionsException ("Runtime API error " +:+ code +:+ " for CRN " +:+ instance_crn))
      | None => Ok element
      end
  end.

(** An entry with a field missing or an unknown business model is left out. *)
Definition access_entry (entry : EntitledFunction) : list FunctionAccessEntry :=
  match ef_provider entry, ef_name entry, ef_business_model entry with
  | Some provider, Some name, Some business_model =>
      match make_entry provider name business_model (ef_permissions entry) with Ok e => [e] | Raise _ => [] end
  | _, _, _ => []
  end.
Definition access_result (element : Entitlements) : FunctionAccessResult :=
  mk_access false "" (en_functions element ≫= access_entry) (en_custom_permissions element).

(** What an answer of the Runtime API means. *)
Definition read_entitlements (instance_crn : string) (status : Z) (body : outcome (list Entitlements)) : outcome FunctionAccessResult :=
  if status =? 204 then Ok (mk_access true "Account not configured, migration pending" [] [])
  else if transient_status status then Raise (mk_exn RuntimeFunctionsUnavailable ("Runtime API returned " +:+ pretty status +:+ " for CRN " +:+ instance_crn))
  else if negb (status =? 200) then Raise (mk_exn RuntimeFunctionsException ("Unexpected status " +:+ pretty status +:+ " for CRN " +:+ instance_crn))
  else
    match body with
    | Raise e => Raise e
    | Ok elements =>
        match _instance_entitlements elements instance_crn with
        | Raise e => Raise e
        | Ok element => Ok (access_result element)
        end
    end.

Definition get_accessible_functions (crn : option string) (api_key : string) : Au FunctionAccessResult :=
  enabled <- auth_process (Config_get_bool "gateway.runtime_instances_api.enabled") ;;
  let base_url := regional_base_url (RUNTIME_API_BASE_URL settings) crn (RUNTIME_API_DEFAULT_REGION settings) in
  if negb enabled then ret (mk_access true "RUNTIME_INSTANCES_API_ENABLED is False" [] [])
  else if negb (truthy crn) then raise (mk_exn RuntimeFunctionsException "Missing instance_crn")
  else
    let instance_crn := default "" crn in
    let key := functions_key instance_crn (sha256 api_key) in
    cached <- cache_get key ;;
    match cached with
    | Some (CachedAccess result) => ret result
    | Some _ => wrong_shape
    | None =>
        response <- ask (get_entitlements cloud base_url instance_crn api_key) ;;
        match response with
        | inl (OtherFailure e) => raise e
        | inl _ => raise (mk_exn RuntimeFunctionsUnavailable "Error connecting to Runtime API")
        | inr (status, body) =>
            result <- of_outcome (read_entitlements instance_crn status body) ;;
            ttl <- draw_ttl (RUNTIME_API_CACHE_TTL settings) ;;
            cache_set key (CachedAccess result) ttl ;;;
            ret result
        end
    end.

(** ** The backends *)

Definition authorization_token (auth_header : string) : string := default "" (last (split_on " "%char auth_header)).

Definition custom_authenticate (request : HttpRequest) : Au (option (Account * CustomAuthentication)) :=
  let crn := or_str (Some (strip (default "" (HTTP_SERVICE_CRN request)))) None in
  match Channel_of (default (channel_value IBM_QUANTUM_PLATFORM) (HTTP_SERVICE_CHANNEL request)) with
  | None | Some LOCAL =>
      raise (auth_failed "The value of the channel is not correct. Verify that you are using one of these: ibm_cloud, ibm_quantum_platform")
  | Some channel =>
      let public_access := is_public_endpoint (req_path request) in
      match HTTP_AUTHORIZATION request with
      | None => if public_access then ret None else raise (auth_failed "Authorization token was not provided.")
      | Some auth_header =>
          let token := authorization_token auth_header in
          if bool_decide (crn = None) && negb public_access then
            raise (auth_failed "The Service-CRN header is required: send the CRN of your instance.")
          else
            result <- authentication_execute channel token crn public_access ;;
            accessible_functions <- try_except (get_accessible_functions crn token)
              (fun e =>
                 if isinstance e RuntimeFunctionsUnavailable then Some (raise service_unavailable)
                 else if isinstance e RuntimeFunctionsException then
                   Some (raise (auth_failed "We couldn't verify your access to Qiskit Functions. Check that your instance can use Qiskit Functions and that your API key has access to it, then try again. If the problem persists, contact IBM support."))
                 else None) ;;
            ret (Some (r_user result,
              mk_custom_authentication channel token accessible_functions crn (r_account_id result) (r_plan_id result) (r_subscription_id result)))
      end
  end.

Definition mock_authenticate (request : HttpRequest) : Au (option (Account * CustomAuthentication)) :=
  let public_access := is_public_endpoint (req_path request) in
  match HTTP_AUTHORIZATION request with
  | None => if public_access then ret None else raise (auth_failed "Authorization token was not provided.")
  | Some auth_header =>
      let token := authorization_token auth_header in
      result <- authentication_execute LOCAL token None public_access ;;
      ret (Some (r_user result, mk_custom_authentication LOCAL token (mk_access true "Mock" [] []) None None None None))
  end.
End auth.
