(* ===== verification/AuthenticationProps.v ===== *)
(** * Correctness of authentication

    Who gets in: a request that is let through was vouched for by IBM Cloud, for the very API key
    and instance it names, though the answers may come from the cache; a denial is an answer too, and an outage
    is never a denial. The groups of a user are made those IBM Cloud lists. *)

From S2P Require Import Prelude PyStr Domain Models World Access RunFunction Authentication Samples.

Local Open Scope string_scope.
Local Open Scope list_scope.
Local Open Scope Z_scope.

(** ** What IBM Cloud has told *)

Inductive Fact :=
  | Token (api_key token : string)
  | SigningKey (token key : string)
  | Decoded (token key : string) (claims : Claims)
  | Instance_ (crn : option string) (api_key : string) (attributes : InstanceAttributes)
  | AccessGroups (account_id api_key : string) (groups : list AccessGroup)
  | Response (crn api_key : string) (status : Z) (body : outcome (list Entitlements))
  | Refused (about : string) (e : CloudError).     (* about an API key, or a token *)

(** Failures of the service, which say nothing about the caller. *)
Definition outage (e : CloudError) : bool :=
  match e with Unreachable => true | ApiError status => _is_transient_api_exception status | OtherFailure _ => false end.

Section laws.
Context {B : Type} (cloud : IBMCloud B) (answered : B -> Fact -> Prop).

Definition tells {A} (about : string) (call : B -> (CloudError + A) * B) (fact : A -> Fact) : Prop := forall b,
  let '(r, b') := call b in
  (forall f, answered b f -> answered b' f)
  /\ match r with inr x => answered b' (fact x) | inl e => outage e = false -> answered b' (Refused about e) end.

(** [answered] is the record of the answers given so far. *)
Class CloudLaws : Prop := {
  token_law api_key : tells api_key (get_token cloud api_key) (Token api_key);
  key_law token : tells token (get_signing_key_from_jwt cloud token) (SigningKey token);
  decode_law token key : tells token (jwt_decode cloud token key) (Decoded token key);
  instance_law crn api_key : tells api_key (get_resource_instance cloud crn api_key) (Instance_ crn api_key);
  groups_law account_id api_key : tells api_key (list_access_groups cloud account_id api_key) (AccessGroups account_id api_key);
  entitlements_law url crn api_key : tells api_key (get_entitlements cloud url crn api_key) (fun r => Response crn api_key r.1 r.2)
}.
End laws.

(** The digests have one length, and those of the API keys in use differ. *)
Class HashLaws (sha256 : string -> string) (in_use : string -> Prop) : Prop := {
  sha256_inj x y : in_use x -> in_use y -> sha256 x = sha256 y -> x = y;
  sha256_length x : String.length (sha256 x) = 64%nat
}.

(** ** The keys of the cache *)

Lemma append_inj_tail x y h h' : x +:+ h = y +:+ h' -> String.length h = String.length h' -> x = y /\ h = h'.
Proof.
  intros He Hl. revert y He. induction x as [|c x IH]; intros [|c' y] He; [done| | |].
  - apply (f_equal String.length) in He. rewrite !length_str_app in He. cbn in He. lia.
  - apply (f_equal String.length) in He. rewrite !length_str_app in He. cbn in He. lia.
  - injection He as -> He. by destruct (IH _ He) as [-> ->].
Qed.

Section keys.
Context (sha256 : string -> string) (in_use : string -> Prop) `{!HashLaws sha256 in_use}.

Lemma hashed_inj prefix x y k k' : in_use k -> in_use k' -> prefix +:+ x +:+ ":" +:+ sha256 k = prefix +:+ y +:+ ":" +:+ sha256 k' -> x = y /\ k = k'.
Proof.
  intros Hk Hk' H. destruct (append_inj_tail prefix prefix _ _ H) as [_ H1].
  { apply (f_equal String.length) in H. repeat rewrite length_str_app in H. repeat rewrite length_str_app. lia. }
  destruct (append_inj_tail x y _ _ H1) as [-> H2]; [by rewrite !length_str_app, !(sha256_length (sha256 := sha256))|].
  injection H2 as H2. by apply (sha256_inj k k') in H2.
Qed.
Lemma jwt_key_inj k k' : in_use k -> in_use k' -> jwt_key (sha256 k) = jwt_key (sha256 k') -> k = k'.
Proof. intros Hk Hk' H. unfold jwt_key in H. cbn in H. repeat injection H as H. by apply (sha256_inj k k'). Qed.
Lemma access_key_inj x y k k' : in_use k -> in_use k' -> access_key (Some x) (sha256 k) = access_key (Some y) (sha256 k') -> x = y /\ k = k'.
Proof. apply hashed_inj. Qed.
Lemma groups_key_inj x y k k' : in_use k -> in_use k' -> groups_key x (sha256 k) = groups_key y (sha256 k') -> x = y /\ k = k'.
Proof. apply hashed_inj. Qed.
Lemma functions_key_inj x y k k' : in_use k -> in_use k' -> functions_key x (sha256 k) = functions_key y (sha256 k') -> x = y /\ k = k'.
Proof. apply hashed_inj. Qed.
End keys.

(** ** The cache holds answers *)

Section sound.
Context {B : Type} (cloud : IBMCloud B) (answered : B -> Fact -> Prop) `{!CloudLaws cloud answered}.
Context (settings : AuthSettings) (sha256 : string -> string) (random : nat -> Z) (in_use : string -> Prop) `{!HashLaws sha256 in_use}.
Implicit Type a : Auth B.

Definition claims_told (b : B) (api_key : string) (c : Claims) : Prop :=
  exists token key, answered b (Token api_key token) /\ answered b (SigningKey token key) /\ answered b (Decoded token key c).
Definition attributes_told (b : B) (crn api_key : string) (plan subscription : option string) : Prop :=
  exists attributes, answered b (Instance_ (Some crn) api_key attributes)
    /\ plan = resource_plan_id attributes /\ subscription = default None (extensions attributes).
Definition groups_told (b : B) (account_id api_key : string) (ids : list string) : Prop :=
  exists groups, answered b (AccessGroups account_id api_key groups)
    /\ ids = map ag_id (filter (fun g => ag_name g <> "Public Access") groups).
Definition access_told (b : B) (crn api_key : string) (r : FunctionAccessResult) : Prop :=
  exists status body, answered b (Response crn api_key status body) /\ read_entitlements crn status body = Ok r.

(** What is cached under a key was told for the API key, and the instance or account, in it. *)
Definition backed (b : B) (key : string) (v : Cached) : Prop :=
  match v with
  | CachedClaims c => exists api_key, in_use api_key /\ key = jwt_key (sha256 api_key) /\ claims_told b api_key c
  | CachedAttributes plan subscription =>
      exists crn api_key, in_use api_key /\ key = access_key (Some crn) (sha256 api_key) /\ attributes_told b crn api_key plan subscription
  | CachedGroups ids => exists account_id api_key, in_use api_key /\ key = groups_key account_id (sha256 api_key) /\ groups_told b account_id api_key ids
  | CachedAccess r => exists crn api_key, in_use api_key /\ key = functions_key crn (sha256 api_key) /\ access_told b crn api_key r
  end.
Definition sound a : Prop := forall key expiry v, au_cache a !! key = Some (expiry, v) -> backed (au_cloud a) key v.

(** A step of a request: answers are added, and the cache stays sound. *)
Record step a a' : Prop := {
  step_answers f : answered (au_cloud a) f -> answered (au_cloud a') f;
  step_config : config (au_world a') = config (au_world a);
  step_sound : sound a -> sound a'
}.
#[local] Instance step_preorder : PreOrder step.
Proof. split; [by split|]. intros x y z [] []. split; [auto|congruence|auto]. Qed.

Lemma backed_mono b b' key v : (forall f, answered b f -> answered b' f) -> backed b key v -> backed b' key v.
Proof.
  intros H. destruct v; cbn.
  - intros (k & ? & ? & t & s & ? & ? & ?). exists k. split; [done|]. split; [done|]. exists t, s. auto.
  - intros (crn & k & ? & ? & at_ & ? & ? & ?). exists crn, k. split; [done|]. split; [done|]. exists at_. auto.
  - intros (i & k & ? & ? & g & ? & ?). exists i, k. split; [done|]. split; [done|]. exists g. auto.
  - intros (crn & k & ? & ? & st & bd & ? & ?). exists crn, k. split; [done|]. split; [done|]. exists st, bd. auto.
Qed.

Lemma claims_told_step a a' k c : step a a' -> claims_told (au_cloud a) k c -> claims_told (au_cloud a') k c.
Proof. intros H (t & s & ? & ? & ?). exists t, s. split_and!; by apply (step_answers _ _ H). Qed.
Lemma attributes_told_step a a' crn k p s : step a a' -> attributes_told (au_cloud a) crn k p s -> attributes_told (au_cloud a') crn k p s.
Proof. intros H (t & ? & ? & ?). exists t. split_and!; [by apply (step_answers _ _ H)|done..]. Qed.
Lemma groups_told_step a a' i k g : step a a' -> groups_told (au_cloud a) i k g -> groups_told (au_cloud a') i k g.
Proof. intros H (t & ? & ?). exists t. split; [by apply (step_answers _ _ H)|done]. Qed.
Lemma access_told_step a a' crn k r : step a a' -> access_told (au_cloud a) crn k r -> access_told (au_cloud a') crn k r.
Proof. intros H (st & bd & ? & ?). exists st, bd. split; [by apply (step_answers _ _ H)|done]. Qed.

(** *** The primitives *)

Lemma process_now_step : rel step (auth_process now).
Proof. intros a. by split. Qed.

Lemma ask_wp {A} about (call : B -> (CloudError + A) * B) fact a : tells answered about call fact ->
  wp (ask call) (fun r a' => step a a' /\ au_accounts a' = au_accounts a
        /\ match r with inr x => answered (au_cloud a') (fact x) | inl e => outage e = false -> answered (au_cloud a') (Refused about e) end)
     (fun _ _ => False) a.
Proof.
  intros Ht. specialize (Ht (au_cloud a)). unfold wp, ask. destruct (call (au_cloud a)) as [r b']. destruct Ht as [Hm Hr].
  split; [|done]. split; [exact Hm|done|]. intros Hs key expiry v Hv. eapply backed_mono, Hs, Hv. exact Hm.
Qed.

Lemma cache_get_wp key a : sound a ->
  wp (cache_get key) (fun v a' => step a a' /\ au_accounts a' = au_accounts a /\ forall x, v = Some x -> backed (au_cloud a') key x) (fun _ _ => False) a.
Proof.
  intros Hs. unfold wp, cache_get. cbn. split; [by split|]. split; [done|]. intros x.
  destruct (au_cache a !! key) as [[expiry v]|] eqn:E; cbn; [|done]. destruct (_ <? _); [|done]. intros [= <-]. by eapply Hs.
Qed.

Lemma cache_set_wp key v ttl a : backed (au_cloud a) key v ->
  wp (cache_set key v ttl) (fun _ a' => step a a' /\ au_cloud a' = au_cloud a /\ au_accounts a' = au_accounts a) (fun _ _ => False) a.
Proof.
  intros Hb. unfold wp, cache_set. cbn. split; [|done]. split; [done|done|]. intros Hs key' expiry v'. cbn.
  destruct (decide (key = key')) as [<-|Hne]; [rewrite lookup_insert_eq; by intros [= _ <-]|]. rewrite lookup_insert_ne by done. apply Hs.
Qed.
Lemma draw_ttl_wp ttl a : wp (draw_ttl random ttl) (fun _ a' => a' = a) (fun _ _ => False) a.
Proof. done. Qed.

(** *** What a failure says *)

(** The API key, and the token it was exchanged for. *)
Definition concerns (b : B) (api_key about : string) : Prop := about = api_key \/ answered b (Token api_key about).

(** The reasons to deny [api_key] and [crn]: each is an answer of IBM Cloud. *)
Inductive denied (b : B) (crn : option string) (api_key : string) : Prop :=
  | denied_refused about e : concerns b api_key about -> outage e = false -> answered b (Refused about e) -> denied b crn api_key
  | denied_claims c : claims_told b api_key c -> iam_id c = None \/ account_bss c = None \/ account_bss c = Some None -> denied b crn api_key
  | denied_plan crn' plan subscription : crn = Some crn' -> attributes_told b crn' api_key plan subscription ->
      (forall x, plan = Some x -> x ∉ RESOURCE_PLANS_ID_ALLOWED settings) -> denied b crn api_key
  | denied_entitlements crn' status body e : crn = Some crn' -> answered b (Response crn' api_key status body) ->
      read_entitlements crn' status body = Raise e -> exn_class e = RuntimeFunctionsException -> denied b crn api_key.

(** An exception of a library, or a configuration key that is missing: nothing catches it. *)
Definition passed (b : B) (api_key : string) (e : exn) : Prop :=
  answered b (Refused api_key (OtherFailure e)) \/ IAMAuthenticator cloud api_key = Raise e
  \/ (exists crn status, answered b (Response crn api_key status (Raise e))) \/ exn_class e = KeyError.

Definition failure (crn : option string) (api_key : string) (e : exn) a : Prop :=
  exn_class e = ServiceUnavailable
  \/ exn_class e = AuthenticationFailed /\ denied (au_cloud a) crn api_key
  \/ passed (au_cloud a) api_key e.

(** How a call of a request may end, apart from what it is for. *)
Definition ends (crn : option string) (api_key : string) a (e : exn) a' : Prop := step a a' /\ failure crn api_key e a'.

Lemma ends_after crn k a a1 e a' : step a a1 -> ends crn k a1 e a' -> ends crn k a e a'.
Proof. intros H [H' ?]. split; [by etransitivity|done]. Qed.

Definition hashed (p : Platform) : Prop := p_api_key_hash p = sha256 (p_api_key p) /\ in_use (p_api_key p).

Lemma jwt_failure_ends about crn k e a0 a :
  step a0 a -> concerns (au_cloud a) k about -> (outage e = false -> answered (au_cloud a) (Refused about e)) -> ends crn k a0 (jwt_failure e) a.
Proof.
  intros Hs Hab Hr. split; [done|]. destruct e as [|status|x]; cbn in *; [by left| |].
  - destruct (_is_transient_api_exception status) eqn:E; [by left|]. right; left. split; [done|]. eapply denied_refused; [exact Hab| |by apply Hr]. done.
  - right; left. split; [done|]. eapply denied_refused; [exact Hab| |by apply Hr]. done.
Qed.

(** A call, and what follows each of its answers. *)
Lemma ask_bind_wp {A C} about (call : B -> (CloudError + A) * B) fact (k : CloudError + A -> M (Auth B) C) Q E a :
  tells answered about call fact ->
  (forall r a', step a a' -> au_accounts a' = au_accounts a ->
     match r with inr x => answered (au_cloud a') (fact x) | inl e => outage e = false -> answered (au_cloud a') (Refused about e) end ->
     wp (k r) Q E a') ->
  wp (bind (ask call) k) Q E a.
Proof. intros Ht Hk. apply wp_bind. eapply wp_mono; [by apply ask_wp| |done]. intros r a' (? & ? & ?). by apply Hk. Qed.

Lemma jwt_wp crn p a : hashed p -> sound a ->
  wp (_request_or_cache_jwt_data cloud p)
     (fun c a' => step a a' /\ au_accounts a' = au_accounts a /\ claims_told (au_cloud a') (p_api_key p) c)
     (ends crn (p_api_key p) a) a.
Proof.
  intros [Hp Huse] Hs. unfold _request_or_cache_jwt_data. rewrite Hp. apply wp_bind. eapply wp_mono; [by apply cache_get_wp| |done].
  intros cached a1 (H1 & A1 & Hc). destruct cached as [v|].
  { specialize (Hc v eq_refl). destruct v; cbn in Hc.
    - destruct Hc as (k & Hu & Hk & Hc). by apply (jwt_key_inj sha256 in_use) in Hk as <-.
    - by destruct Hc as (? & ? & ? & ? & _).
    - by destruct Hc as (? & ? & ? & ? & _).
    - by destruct Hc as (? & ? & ? & ? & _). }
  eapply ask_bind_wp; [eapply token_law; exact _|]. intros [e|token] a2 H2 A2 F2; [eapply jwt_failure_ends; [by etransitivity|by left|done]|].
  eapply ask_bind_wp; [eapply key_law; exact _|]. intros [e|key] a3 H3 A3 F3; [eapply jwt_failure_ends; [by repeat (etransitivity; [eassumption|])|right; apply (step_answers _ _ H3), F2|done]|].
  eapply ask_bind_wp; [eapply decode_law; exact _|]. intros [e|c] a4 H4 A4 F4; [eapply jwt_failure_ends; [by repeat (etransitivity; [eassumption|])|right; apply (step_answers _ _ H4), (step_answers _ _ H3), F2|done]|].
  assert (claims_told (au_cloud a4) (p_api_key p) c) as Hc4.
  { exists token, key. split_and!; [apply (step_answers _ _ H4), (step_answers _ _ H3), F2|apply (step_answers _ _ H4), F3|exact F4]. }
  apply wp_bind. eapply wp_mono; [apply cache_set_wp; cbn; eauto| |done]. intros _ a5 (H5 & C5 & A5). unfold wp, ret.
  split; [by repeat (etransitivity; [eassumption|])|]. split; [congruence|]. by rewrite C5.
Qed.

Lemma attributes_wp crn p a : hashed p -> p_crn p = Some crn -> sound a ->
  wp (_request_or_cache_instance_attributes cloud p)
     (fun r a' => step a a' /\ au_accounts a' = au_accounts a /\ attributes_told (au_cloud a') crn (p_api_key p) r.1 r.2)
     (ends (Some crn) (p_api_key p) a) a.
Proof.
  intros [Hp Huse] Hcrn Hs. unfold _request_or_cache_instance_attributes. rewrite Hp, Hcrn. apply wp_bind. eapply wp_mono; [by apply cache_get_wp| |done].
  intros cached a1 (H1 & A1 & Hc). destruct cached as [v|].
  { specialize (Hc v eq_refl). destruct v; cbn in Hc.
    - by destruct Hc as (? & ? & ? & _).
    - destruct Hc as (x & k & Hu & Hk & Hc). by apply (access_key_inj sha256 in_use) in Hk as [<- <-].
    - by destruct Hc as (? & ? & ? & ? & _).
    - by destruct Hc as (? & ? & ? & ? & _). }
  eapply ask_bind_wp; [eapply instance_law; exact _|]. intros [e|attributes] a2 H2 A2 F2.
  { assert (step a a2) as H by by etransitivity. destruct e as [|status|e]; split; try done; [by left| |].
    - destruct (_is_transient_api_exception status) eqn:E; [by left|]. right; left. split; [done|]. eapply denied_refused, F2; [by left|done..].
    - right; right; left. by apply F2. }
  apply wp_bind. eapply wp_mono; [apply cache_set_wp; cbn; exists crn, (p_api_key p); split; [done|]; split; [done|]; by exists attributes| |done].
  intros _ a3 (H3 & C3 & A3). unfold wp, ret. split; [by repeat (etransitivity; [eassumption|])|]. split; [congruence|].
  rewrite C3. by exists attributes.
Qed.

(** A refused listing counts as no groups. *)
Definition groups_seen (b : B) (account_id api_key : string) (ids : list string) : Prop :=
  groups_told b account_id api_key ids \/ ids = [] /\ exists e, outage e = false /\ answered b (Refused api_key e).

Lemma groups_wp crn account_id p a : hashed p -> sound a ->
  wp (_request_or_cache_group_ids cloud p account_id)
     (fun ids a' => step a a' /\ au_accounts a' = au_accounts a /\ groups_seen (au_cloud a') account_id (p_api_key p) ids)
     (ends crn (p_api_key p) a) a.
Proof.
  intros [Hp Huse] Hs. unfold _request_or_cache_group_ids. rewrite Hp. apply wp_bind. eapply wp_mono; [by apply cache_get_wp| |done].
  intros cached a1 (H1 & A1 & Hc). destruct cached as [v|].
  { specialize (Hc v eq_refl). destruct v; cbn in Hc.
    - by destruct Hc as (? & ? & ? & _).
    - by destruct Hc as (? & ? & ? & ? & _).
    - destruct Hc as (x & k & Hu & Hk & Hc). apply (groups_key_inj sha256 in_use) in Hk as [<- <-]; [|done..]. split; [done|]. split; [done|by left].
    - by destruct Hc as (? & ? & ? & ? & _). }
  eapply ask_bind_wp; [eapply groups_law; exact _|]. intros [e|groups] a2 H2 A2 F2.
  { assert (step a a2) as H by by etransitivity. destruct e as [|status|e]; [split; [done|by left]| |split; [done|right; right; left; by apply F2]].
    destruct (_is_transient_api_exception status) eqn:E; [split; [done|by left]|]. unfold wp, ret. split; [done|]. split; [congruence|].
    right. split; [done|]. exists (ApiError status). split; [done|by apply F2]. }
  apply wp_bind. eapply wp_mono; [apply cache_set_wp; cbn; exists account_id, (p_api_key p); split; [done|]; split; [done|]; by exists groups| |done].
  intros _ a3 (H3 & C3 & A3). unfold wp, ret. split; [by repeat (etransitivity; [eassumption|])|]. split; [congruence|].
  rewrite C3. left. by exists groups.
Qed.

Definition runtime_api_disabled a : Prop :=
  exists v, config (au_world a) !! "gateway.runtime_instances_api.enabled" = Some v /\ lower v <> "true".
(** What the functions of a request were read from. *)
Definition functions_seen (crn api_key : string) a (r : FunctionAccessResult) : Prop :=
  access_told (au_cloud a) crn api_key r \/ runtime_api_disabled a /\ use_legacy_authorization r = true.

(** How the client of the entitlements fails. *)
Definition access_failure (crn api_key : string) a (e : exn) a' : Prop :=
  step a a' /\ (exn_class e = RuntimeFunctionsUnavailable
                \/ (exn_class e = RuntimeFunctionsException -> denied (au_cloud a') (Some crn) api_key)
                   /\ (exn_class e = RuntimeFunctionsException \/ passed (au_cloud a') api_key e)).

Lemma read_entitlements_failure crn status body e : read_entitlements crn status body = Raise e ->
  exn_class e = RuntimeFunctionsUnavailable \/ exn_class e = RuntimeFunctionsException \/ body = Raise e.
Proof.
  unfold read_entitlements, _instance_entitlements. destruct (status =? 204); [done|]. destruct (transient_status status); [intros [= <-]; by left|].
  destruct (negb (status =? 200)); [intros [= <-]; by right; left|]. destruct body as [els|e']; [|intros [= <-]; by right; right].
  destruct (head _) as [el|]; [|intros [= <-]; by right; left]. destruct (en_error el); [intros [= <-]; by right; left|done].
Qed.

Lemma access_wp crn api_key a : in_use api_key -> truthy (Some crn) = true -> sound a ->
  wp (get_accessible_functions cloud settings sha256 random (Some crn) api_key)
     (fun r a' => step a a' /\ au_accounts a' = au_accounts a /\ functions_seen crn api_key a' r)
     (access_failure crn api_key a) a.
Proof.
  intros Huse Ht Hs. unfold get_accessible_functions. apply wp_bind. unfold wp at 1, auth_process, Config_get_bool, Config_get, bind, gets, ret.
  destruct (config (au_world a) !! "gateway.runtime_instances_api.enabled") as [v|] eqn:Hv; cbn [fst snd];
    [|split; [by split|right; split; [done|right; right; right; by right]]].
  set (a0 := mk_auth _ _ _ _). assert (step a a0 /\ au_accounts a0 = au_accounts a) as [H0 A0] by (split; [by split|done]).
  cbv beta iota. destruct (bool_decide_reflect (lower v = "true")) as [Hen|Hdis]; cbn [negb].
  2:{ unfold wp, ret. split; [done|]. split; [done|]. right. split; [by exists v|done]. }
  rewrite Ht. cbn [negb default]. apply wp_bind. eapply wp_mono; [apply cache_get_wp; by apply (step_sound _ _ H0)| |done].
  intros cached a1 (H1 & A1 & Hc). destruct cached as [x|].
  { specialize (Hc x eq_refl). destruct x; cbn in Hc.
    - by destruct Hc as (? & ? & ? & _).
    - by destruct Hc as (? & ? & ? & ? & _).
    - by destruct Hc as (? & ? & ? & ? & _).
    - destruct Hc as (x & k & Hu & Hk & Hc). apply (functions_key_inj sha256 in_use) in Hk as [<- <-]; [|done|done]. split; [by etransitivity|]. split; [congruence|by left]. }
  eapply ask_bind_wp; [eapply entitlements_law; exact _|]. intros [e|[status body]] a2 H2 A2 F2.
  all: assert (step a a2) as H by by repeat (etransitivity; [eassumption|]).
  { destruct e as [|status|e]; (split; [done|]); [by left|by left|]. right. split; [intros _; eapply denied_refused, F2; [by left|done..]|]. right; left. by apply F2. }
  apply wp_bind, wp_of_outcome.
  - intros r Hr. apply wp_bind. eapply wp_mono; [apply draw_ttl_wp| |done]. intros ttl ? ->.
    assert (access_told (au_cloud a2) crn api_key r) as Ha by (exists status, body; done).
    apply wp_bind. eapply wp_mono; [apply cache_set_wp; cbn; by exists crn, api_key| |done].
    intros _ a3 (H3 & C3 & A3). unfold wp, ret. split; [by etransitivity|]. split; [congruence|]. left. by rewrite C3.
  - intros e He. split; [done|]. destruct (read_entitlements_failure _ _ _ _ He) as [Hx|Hx]; [by left|]. right.
    split; [intros Hcl; by eapply denied_entitlements|]. destruct Hx as [Hx| ->]; [by left|]. right; right; right; left. by exists crn, status.
Qed.

(** ** The use case *)

Lemma new_platform_wp crn api_key a :
  wp (new_platform cloud settings sha256 random api_key crn)
     (fun p a' => a' = a /\ p = mk_platform api_key (sha256 api_key) crn (p_cache_ttl p) None None None)
     (ends crn api_key a) a.
Proof.
  unfold new_platform. apply wp_bind. eapply wp_mono; [apply draw_ttl_wp| |done]. intros ttl ? ->.
  apply wp_bind, wp_of_outcome; [done|]. intros e He. split; [reflexivity|]. right; right; right; by left.
Qed.

Definition signed_in (b : B) (api_key user account_id : string) : Prop :=
  exists c, claims_told b api_key c /\ iam_id c = Some user /\ account_bss c = Some (Some account_id).

Lemma platform_authenticate_wp crn p a : IAM_IBM_CLOUD_BASE_URL settings <> None -> hashed p -> sound a ->
  wp (platform_authenticate cloud settings p)
     (fun r a' => step a a' /\ au_accounts a' = au_accounts a
        /\ exists account_id, r.1 = mk_platform (p_api_key p) (p_api_key_hash p) (p_crn p) (p_cache_ttl p) (Some account_id) (p_plan_id p) (p_subscription_id p)
           /\ signed_in (au_cloud a') (p_api_key p) r.2 account_id)
     (ends crn (p_api_key p) a) a.
Proof.
  intros Hurl Hp Hs. unfold platform_authenticate. destruct (IAM_IBM_CLOUD_BASE_URL settings); [|done].
  apply wp_bind. eapply wp_mono; [by apply (jwt_wp crn)| |done]. intros c a1 (H1 & A1 & Hc).
  assert (iam_id c = None \/ account_bss c = None \/ account_bss c = Some None -> forall message, ends crn (p_api_key p) a (auth_failed message) a1) as Hdeny.
  { intros Hwhy message. split; [done|]. right; left. split; [done|]. by eapply denied_claims. }
  destruct (iam_id c) as [user|] eqn:Hu; [|apply Hdeny; by left].
  destruct (account_bss c) as [[bss|]|] eqn:Hb; [|apply Hdeny; by right; right|apply Hdeny; by right; left].
  unfold wp, ret. split; [done|]. split; [done|]. exists bss. split; [done|]. by exists c.
Qed.

Definition plan_allowed (plan : option string) : Prop := exists x, plan = Some x /\ x ∈ RESOURCE_PLANS_ID_ALLOWED settings.

Lemma platform_verify_wp crn p a : hashed p -> p_crn p = Some crn -> sound a ->
  wp (platform_verify_access cloud settings p)
     (fun r a' => step a a' /\ au_accounts a' = au_accounts a /\ exists plan subscription,
        r.1 = mk_platform (p_api_key p) (p_api_key_hash p) (p_crn p) (p_cache_ttl p) (p_account_id p) plan subscription
        /\ attributes_told (au_cloud a') crn (p_api_key p) plan subscription
        /\ (if r.2 then plan_allowed plan else forall x, plan = Some x -> x ∉ RESOURCE_PLANS_ID_ALLOWED settings))
     (ends (Some crn) (p_api_key p) a) a.
Proof.
  intros Hp Hcrn Hs. unfold platform_verify_access. apply wp_bind. eapply wp_mono; [by apply attributes_wp| |done].
  intros [plan subscription] a1 (H1 & A1 & Ha). cbn [fst snd] in *. destruct plan as [plan|].
  - unfold wp, ret. split; [done|]. split; [done|]. exists (Some plan), subscription. cbn [fst snd]. split; [done|]. split; [done|].
    case_bool_decide; [by exists plan|]. by intros x [= <-].
  - split; [done|]. right; left. split; [done|]. by eapply denied_plan.
Qed.

(** A user of that name that was deactivated. *)
Definition deactivated (b : B) (api_key : string) (acc : Accounts) : Prop :=
  exists u account_id, u ∈ users acc /\ is_active u = false /\ signed_in b api_key (acc_username u) account_id.

Lemma get_or_create_spec username acc u acc' : get_or_create_user username acc = (u, acc') ->
  acc_username u = username /\ u ∈ users acc' /\ auth_groups acc' = auth_groups acc.
Proof.
  unfold get_or_create_user. destruct (head _) as [u'|] eqn:E; intros [= <- <-].
  - assert (u' ∈ filter (fun u => acc_username u = username) (users acc)) as [? ?]%list_elem_of_filter; [|done].
    destruct (filter _ _); cbn in E; [done|]. injection E as ->. left.
  - split; [done|]. split; [|done]. cbn. set_solver.
Qed.

(** What is known of a request that was let through. *)
Record vouched (crn api_key : string) (groups : list AuthGroup) (r : AuthenticationResult) a : Prop := {
  vouched_signed_in : exists account_id, r_account_id r = Some account_id /\ signed_in (au_cloud a) api_key (acc_username (r_user r)) account_id;
  vouched_instance : attributes_told (au_cloud a) crn api_key (r_plan_id r) (r_subscription_id r);
  vouched_plan : plan_allowed (r_plan_id r);
  vouched_user : r_user r ∈ users (au_accounts a) /\ is_active (r_user r) = true;
  vouched_groups : exists account_id ids, r_account_id r = Some account_id /\ groups_seen (au_cloud a) account_id api_key ids
    /\ auth_groups (au_accounts a) = sync_user_groups (acc_id (r_user r))
         (map (fun i => mk_authentication_group i (Some account_id)) ids) [VIEW_PROGRAM_PERMISSION] groups
}.

Definition on_platform (channel : Channel) : bool := match channel with LOCAL => false | _ => true end.

Lemma get_accounts_wp Q E a : Q (au_accounts a) a -> wp (get_accounts (B := B)) Q E a. Proof. done. Qed.

Lemma execute_wp channel api_key crn a :
  on_platform channel = true -> IAM_IBM_CLOUD_BASE_URL settings <> None -> in_use api_key -> sound a ->
  wp (authentication_execute cloud settings sha256 random channel api_key (Some crn) false)
     (fun r a' => step a a' /\ vouched crn api_key (auth_groups (au_accounts a)) r a')
     (fun e a' => step a a' /\ (failure (Some crn) api_key e a' \/ exn_class e = AuthenticationFailed /\ deactivated (au_cloud a') api_key (au_accounts a'))) a.
Proof.
  intros Hch Hurl Huse Hs. unfold authentication_execute.
  assert (_get_authentication_service_instance cloud settings sha256 random channel api_key (Some crn)
    = (p <- new_platform cloud settings sha256 random api_key (Some crn) ;; ret (OnPlatform p))) as -> by by destruct channel.
  assert (forall a1, step a a1 -> forall e a', ends (Some crn) api_key a1 e a' ->
    step a a' /\ (failure (Some crn) api_key e a' \/ exn_class e = AuthenticationFailed /\ deactivated (au_cloud a') api_key (au_accounts a'))) as Hend
    by (intros a1 H1 e a' [H2 Hf]; split; [by etransitivity|by left]).
  apply wp_bind, wp_bind. eapply wp_mono; [apply new_platform_wp| |by apply Hend]. intros p a0 [-> Hp]. unfold wp at 1, ret.
  assert (hashed p /\ p_api_key p = api_key /\ p_crn p = Some crn) as (Hh & Hk & Hc) by by rewrite Hp.
  apply wp_bind. unfold service_authenticate. apply wp_bind. eapply wp_mono; [by apply (platform_authenticate_wp (Some crn) p)| |rewrite Hk; by apply Hend].
  intros [p1 username] a1 (H1 & A1 & account_id & Hp1 & Hin). cbn [fst snd] in Hp1, Hin. unfold wp at 1, ret. cbn [fst snd].
  assert (hashed p1 /\ p_api_key p1 = api_key /\ p_crn p1 = Some crn /\ p_account_id p1 = Some account_id) as (Hh1 & Hk1 & Hc1 & Hacc1) by by rewrite Hp1.
  cbn [get_account_id]. apply wp_bind. unfold service_verify_access. apply wp_bind, wp_bind.
  eapply wp_mono; [apply (platform_verify_wp crn p1); [done|done|by apply (step_sound _ _ H1)]| |rewrite Hk1; by apply Hend].
  intros [p2 verified] a2 (H2 & A2 & plan & subscription & Hp2 & Hat & Hpl). cbn [fst snd] in *. unfold wp at 1, ret. cbn [fst snd].
  assert (step a a2) as H02 by by etransitivity. rewrite Hk, Hk1 in *.
  destruct verified; [|split; [done|]; left; right; left; split; [done|]; by eapply denied_plan].
  unfold wp at 1, ret. apply wp_bind. unfold service_get_groups, platform_get_groups. rewrite Hp2 at 1. cbn [p_account_id]. rewrite Hacc1.
  assert (hashed p2 /\ p_api_key p2 = api_key) as [Hh2 Hk2] by (unfold hashed in *; rewrite Hp2; cbn; split; congruence).
  apply wp_bind. eapply wp_mono; [apply (groups_wp (Some crn) account_id p2); [done|by apply (step_sound _ _ H02)]| |rewrite Hk2; by apply Hend].
  intros ids a3 (H3 & A3 & Hg). unfold wp at 1, ret. rewrite Hk2 in Hg. assert (step a a3) as H03 by by etransitivity.
  apply wp_bind, get_accounts_wp. destruct (get_or_create_user username (au_accounts a3)) as [user acc] eqn:Hu.
  destruct (get_or_create_spec _ _ _ _ Hu) as (Hname & Hmem & Hgs).
  assert (signed_in (au_cloud a3) api_key username account_id) as Hin3.
  { destruct Hin as (c & ? & ? & ?). exists c. split; [|done]. apply (claims_told_step a2); [done|]. by apply (claims_told_step a1). }
  apply wp_bind. unfold wp at 1, set_accounts, modify. set (a4 := mk_auth _ _ _ acc). assert (step a a4) as H04 by (destruct H03; by split).
  apply wp_bind. destruct (is_active user) eqn:Hact.
  2:{ split; [done|]. right. split; [done|]. exists user, account_id. rewrite Hname. done. }
  unfold wp at 1, ret. apply wp_bind.
  assert (vouched crn api_key (auth_groups (au_accounts a)) (mk_authentication_result user (Some account_id) plan subscription)
    (mk_auth (au_world a4) (au_cloud a4) (au_cache a4)
       (mk_accounts (users acc) (sync_user_groups (acc_id user) (map (fun i => mk_authentication_group i (Some account_id)) ids) [VIEW_PROGRAM_PERMISSION] (auth_groups acc)) (mock_providers acc)))) as Hv.
  { split; cbn [r_account_id r_user r_plan_id r_subscription_id au_cloud au_accounts users auth_groups a4].
    - exists account_id. rewrite Hname. done.
    - by apply (attributes_told_step a2).
    - done.
    - done.
    - exists account_id, ids. split; [done|]. split; [done|]. rewrite Hgs, A3, A2, A1. done. }
  assert (step a (mk_auth (au_world a4) (au_cloud a4) (au_cache a4)
       (mk_accounts (users acc) (sync_user_groups (acc_id user) (map (fun i => mk_authentication_group i (Some account_id)) ids) [VIEW_PROGRAM_PERMISSION] (auth_groups acc)) (mock_providers acc)))) as H5
    by (destruct H04; by split).
  rewrite Hp2. by destruct channel.
Qed.

(** ** A request *)

(** The instance a request names, and the API key it presents. *)
Definition service_crn (request : HttpRequest) : option string := or_str (Some (strip (default "" (HTTP_SERVICE_CRN request)))) None.
Definition presents (request : HttpRequest) (crn api_key : string) : Prop :=
  service_crn request = Some crn /\ exists header, HTTP_AUTHORIZATION request = Some header /\ api_key = authorization_token header.
Definition channel_named (request : HttpRequest) : option Channel :=
  Channel_of (default (channel_value IBM_QUANTUM_PLATFORM) (HTTP_SERVICE_CHANNEL request)).
(** Its headers are not those of a login on one of the two channels. *)
Definition malformed (request : HttpRequest) : Prop :=
  channel_named request = None \/ channel_named request = Some LOCAL
  \/ HTTP_AUTHORIZATION request = None \/ service_crn request = None.

Lemma service_crn_truthy request crn : service_crn request = Some crn -> truthy (Some crn) = true.
Proof. unfold service_crn, or_str. destruct (truthy (Some (strip _))) eqn:E; [by intros [= <-]|done]. Qed.

(** How a request ends when it is not let through. *)
Definition turned_away (request : HttpRequest) (e : exn) a : Prop :=
  exn_class e = AuthenticationFailed /\ malformed request
  \/ exists crn api_key, presents request crn api_key
      /\ (failure (Some crn) api_key e a \/ exn_class e = AuthenticationFailed /\ deactivated (au_cloud a) api_key (au_accounts a)).

Definition let_through (request : HttpRequest) (groups : list AuthGroup) (user : Account) (auth : CustomAuthentication) a : Prop :=
  exists crn api_key, presents request crn api_key
    /\ ca_instance auth = Some crn /\ ca_token auth = api_key /\ on_platform (ca_channel auth) = true
    /\ vouched crn api_key groups (mk_authentication_result user (ca_account_id auth) (ca_plan_id auth) (ca_subscription_id auth)) a
    /\ functions_seen crn api_key a (ca_accessible_functions auth).

Lemma passed_step a a' api_key e : step a a' -> passed (au_cloud a) api_key e -> passed (au_cloud a') api_key e.
Proof.
  intros H [?|[?|[(crn & st & ?)|?]]]; [left|by right; left|right; right; left; exists crn, st|by right; right; right]; by apply (step_answers _ _ H).
Qed.
Lemma vouched_step crn k gs r a a' : step a a' -> au_accounts a' = au_accounts a -> vouched crn k gs r a -> vouched crn k gs r a'.
Proof.
  intros H HA [(i & ? & c & ? & ?) ? ? ? (i' & ids & ? & Hg & ?)]. split; rewrite ?HA; try done.
  - exists i. split; [done|]. exists c. split; [by apply (claims_told_step a)|done].
  - by apply (attributes_told_step a).
  - exists i', ids. split; [done|]. split; [|done]. destruct Hg as [Hg|(? & e & ? & ?)]; [left; by apply (groups_told_step a)|right].
    split; [done|]. exists e. split; [done|]. by apply (step_answers _ _ H).
Qed.

Lemma authenticate_wp request a :
  IAM_IBM_CLOUD_BASE_URL settings <> None -> is_public_endpoint (req_path request) = false ->
  (forall header, HTTP_AUTHORIZATION request = Some header -> in_use (authorization_token header)) -> sound a ->
  wp (custom_authenticate cloud settings sha256 random request)
     (fun r a' => step a a' /\ exists user auth, r = Some (user, auth) /\ let_through request (auth_groups (au_accounts a)) user auth a')
     (fun e a' => step a a' /\ turned_away request e a') a.
Proof.
  intros Hurl Hpub Huse Hs. unfold custom_authenticate. rewrite Hpub. fold (service_crn request) (channel_named request).
  assert (forall e, exn_class e = AuthenticationFailed -> malformed request -> step a a /\ turned_away request e a) as Hbad by (intros e He Hm; split; [done|by left]).
  destruct (channel_named request) as [channel|] eqn:Hch; [|apply Hbad; [done|by left]].
  assert (on_platform channel = true -> wp
    match HTTP_AUTHORIZATION request with
    | None => raise (auth_failed "Authorization token was not provided.")
    | Some auth_header =>
        let token := authorization_token auth_header in
        if bool_decide (service_crn request = None) && negb false then
          raise (auth_failed "The Service-CRN header is required: send the CRN of your instance.")
        else
          result <- authentication_execute cloud settings sha256 random channel token (service_crn request) false ;;
          accessible_functions <- try_except (get_accessible_functions cloud settings sha256 random (service_crn request) token)
            (fun e =>
               if isinstance e RuntimeFunctionsUnavailable then Some (raise service_unavailable)
               else if isinstance e RuntimeFunctionsException then
                 Some (raise (auth_failed "We couldn't verify your access to Qiskit Functions. Check that your instance can use Qiskit Functions and that your API key has access to it, then try again. If the problem persists, contact IBM support."))
               else None) ;;
          ret (Some (r_user result,
            mk_custom_authentication channel token accessible_functions (service_crn request) (r_account_id result) (r_plan_id result) (r_subscription_id result)))
    end
     (fun r a' => step a a' /\ exists user auth, r = Some (user, auth) /\ let_through request (auth_groups (au_accounts a)) user auth a')
     (fun e a' => step a a' /\ turned_away request e a') a) as Hmain.
  2:{ destruct channel; [by apply Hmain|by apply Hmain|]. apply Hbad; [done|by right; left]. }
  intros Hon. destruct (HTTP_AUTHORIZATION request) as [header|] eqn:Hh; [|apply Hbad; [done|by right; right; left]].
  set (token := authorization_token header). destruct (service_crn request) as [crn|] eqn:Hcrn; [|apply Hbad; [done|by right; right; right]].
  assert (presents request crn token) as Hpres by (split; [done|by exists header]).
  assert (in_use token) as Hk by by apply Huse.
  rewrite bool_decide_eq_false_2 by done. cbn [andb]. apply wp_bind. eapply wp_mono; [by apply execute_wp| |].
  2:{ intros e a' [H1 Hf]. split; [done|]. right. by exists crn, token. }
  intros r a1 (H1 & Hv). apply wp_bind, wp_try_except.
  eapply wp_mono; [apply access_wp; [done|by eapply service_crn_truthy|by apply (step_sound _ _ H1)]| |].
  - intros fs a2 (H2 & A2 & Hfs). unfold wp, ret. split; [by etransitivity|]. eexists _, _. split; [reflexivity|].
    exists crn, token. cbn. destruct r. split_and!; try done. by eapply vouched_step.
  - intros e a2 (H2 & Hf). assert (step a a2) as H by by etransitivity.
    destruct (isinstance e RuntimeFunctionsUnavailable) eqn:E1; [split; [done|]; right; exists crn, token; split; [done|]; left; by left|].
    apply bool_decide_eq_false in E1. destruct Hf as [Hf|[Hden Hf]]; [done|].
    destruct (isinstance e RuntimeFunctionsException) eqn:E2.
    + split; [done|]. right. exists crn, token. split; [done|]. left. right. left. split; [done|]. apply Hden.
      cbn in E2. destruct (exn_class e); done.
    + destruct Hf as [Hf|Hf]; [cbn in E2; by rewrite Hf in E2|]. split; [done|]. right. exists crn, token. split; [done|]. left. by right; right.
Qed.

(** a request to a private path that is let through was vouched for by IBM Cloud: it told, for the very API
    key presented, who the user is and of which account, that the instance named is on an allowed
    plan, and what it may use (unless the Runtime API is disabled); the user is active, and its
    groups are made those IBM Cloud lists. A request that is not let through was malformed, or denied by
    an answer, or is asked to try again, or met an exception of a library that nothing catches:
    an outage is never a denial. The cache stays sound. *)
Theorem authenticated_or_told_why request a :
  IAM_IBM_CLOUD_BASE_URL settings <> None -> is_public_endpoint (req_path request) = false ->
  (forall header, HTTP_AUTHORIZATION request = Some header -> in_use (authorization_token header)) -> sound a ->
  match custom_authenticate cloud settings sha256 random request a with
  | (Ok r, a') => sound a' /\ exists user auth, r = Some (user, auth) /\ let_through request (auth_groups (au_accounts a)) user auth a'
  | (Raise e, a') => sound a' /\ turned_away request e a'
  end.
Proof.
  intros Hurl Hpub Huse Hs. pose proof (authenticate_wp request a Hurl Hpub Huse Hs) as Hw. unfold wp in Hw.
  destruct (custom_authenticate _ _ _ _ request a) as [[r|e] a']; destruct Hw as [Hst Hr]; (split; [by apply (step_sound _ _ Hst)|exact Hr]).
Qed.
End sound.

(** ** A small cloud *)

Module small.

(** It records what it is asked, and knows one API key. *)
Definition say {A} (fact : A -> Fact) (x : A) : list Fact -> (CloudError + A) * list Fact := fun b => (inr x, fact x :: b).
Definition refuse {A} (about : string) (e : CloudError) : list Fact -> (CloudError + A) * list Fact := fun b => (inl e, Refused about e :: b).

Definition entitled (crn : string) : Entitlements :=
  mk_entitlements (Some crn) None [mk_entitled (Some "acme") (Some "sampler") ["function.run"] (Some "licensed")] [].
Definition cloud : IBMCloud (list Fact) := {|
  IAMAuthenticator := fun _ => Ok tt;
  get_token := fun k => if bool_decide (k = "key") then say (Token k) "token" else refuse k (ApiError (Some 400));
  get_signing_key_from_jwt := fun t => say (SigningKey t) "signing";
  jwt_decode := fun t k => say (Decoded t k) (mk_claims (Some "IBMid-1") (Some (Some "account")));
  get_resource_instance := fun crn k => say (Instance_ crn k) (mk_instance (Some "plan") (Some (Some "subscription")));
  list_access_groups := fun account_id k => say (AccessGroups account_id k) [mk_access_group "Public Access" "public"; mk_access_group "team" "AccessGroupId-1"];
  get_entitlements := fun _ crn k => say (fun r => Response crn k r.1 r.2) (200, Ok [entitled crn])
|}.
Definition answered (b : list Fact) (f : Fact) : Prop := f ∈ b.

Lemma say_tells {A} about (fact : A -> Fact) x : tells answered about (say fact x) fact.
Proof. intros b. split; [intros f; by right|by left]. Qed.
Lemma refuse_tells {A} about e (fact : A -> Fact) : tells answered about (refuse about e) fact.
Proof. intros b. split; [intros f; by right|intros _; by left]. Qed.
#[global] Instance cloud_laws : CloudLaws cloud answered.
Proof. split; intros; [cbn; case_bool_decide; [apply say_tells|apply refuse_tells]|apply say_tells..]. Qed.

(** Keys in use are short: pad them. *)
Fixpoint zeros (n : nat) : string := match n with O => "" | S n => String "0" (zeros n) end.
Definition sha256 (x : string) : string := if bool_decide (x = "key") then zeros 63 +:+ "1" else zeros 64.
Definition in_use (x : string) : Prop := x = "key" \/ x = "other".
#[global] Instance hash_laws : HashLaws sha256 in_use.
Proof. split; [by intros x y [-> | ->] [-> | ->]|]. intros x. unfold sha256. by case_bool_decide. Qed.

Definition settings : AuthSettings :=
  mk_auth_settings (Some "https://iam.cloud.ibm.com") 600 ["plan"] "https://quantum.cloud.ibm.com/api/v1" "us-east" 300 None None.
Definition request (path api_key : string) : HttpRequest := mk_request path (Some sample_crn) None (Some ("Bearer " +:+ api_key)).
Definition world : World :=
  mk_world empty_db running_job sample_clock sample_clock (fun _ => false) 0 {[ "gateway.runtime_instances_api.enabled" := "true" ]} [] [] init_sched.
Definition start : Auth (list Fact) :=
  mk_auth world [] ∅ (mk_accounts [mk_account 1 "IBMid-2" true] [mk_auth_group 1 "old" [] [2%nat] None] []).
Definition random (n : nat) : Z := 500000.
Definition authenticate (r : HttpRequest) (a : Auth (list Fact)) := custom_authenticate cloud settings sha256 random r a.
End small.

(** The first request asks everything and the second nothing; a wrong key is refused. *)
Example authenticated_small :
  let '(o, a) := small.authenticate (small.request "/api/v1/jobs/" "key") small.start in
  (match o with Ok (Some (u, c)) => Some (acc_username u, map e_function_title (access_functions (ca_accessible_functions c))) | _ => None end,
   length (au_cloud a), map g_name (auth_groups (au_accounts a)),
   length (au_cloud (small.authenticate (small.request "/api/v1/jobs/" "key") a).2),
   (small.authenticate (small.request "/api/v1/jobs/" "other") a).1)
  = (Some ("IBMid-1", ["sampler"]), 6%nat, ["old"; "AccessGroupId-1"], 6%nat,
     Raise (auth_failed "You couldn't be authenticated, please review your API Key.")).
Proof. vm_compute. reflexivity. Qed.

Lemma authenticated_or_told_why_witness :
  match small.authenticate (small.request "/api/v1/jobs/" "key") small.start with
  | (Ok r, a') => sound small.answered small.sha256 small.in_use a' /\ exists user auth, r = Some (user, auth)
      /\ let_through small.answered small.settings (small.request "/api/v1/jobs/" "key") [mk_auth_group 1 "old" [] [2%nat] None] user auth a'
  | (Raise e, a') => False
  end.
Proof.
  assert (sound small.answered small.sha256 small.in_use small.start) as Hs by (intros k e v H; cbn in H; by rewrite lookup_empty in H).
  assert (IAM_IBM_CLOUD_BASE_URL small.settings <> None) as Hurl by by intros [=].
  assert (forall header, HTTP_AUTHORIZATION (small.request "/api/v1/jobs/" "key") = Some header -> small.in_use (authorization_token header)) as Hk
    by (intros header [= <-]; by left).
  pose proof (authenticated_or_told_why small.cloud small.answered small.settings small.sha256 small.random small.in_use
    (small.request "/api/v1/jobs/" "key") small.start Hurl eq_refl Hk Hs) as H.
  unfold small.authenticate. destruct (custom_authenticate _ _ _ _ _ _) as [[r|e] a'] eqn:E; [exact H|].
  apply (f_equal fst) in E. vm_compute in E. discriminate.
Defined.

(** A path that only contains the word [swagger] is served without the instance's plan being looked at. *)
Example swagger_in_a_path_skips_the_plan :
  let settings := mk_auth_settings (Some "https://iam.cloud.ibm.com") 600 ["another plan"] "https://quantum.cloud.ibm.com/api/v1" "us-east" 300 None None in
  let ask path := match (custom_authenticate small.cloud settings small.sha256 small.random (small.request path "key") small.start).1 with
                  | Ok _ => true | Raise _ => false end in
  ask "/api/v1/programs/run/" = false /\ ask "/api/v1/programs/get_by_title/my-swagger/" = true.
Proof. vm_compute. done. Qed.

(** * The groups of a user

    Synchronising makes the groups of the user exactly those listed, and changes nobody else's. *)

Close Scope Z_scope.


(** A user is in the group of a name. *)
Definition member (gs : list AuthGroup) (u : nat) (name : string) : Prop := exists g, g ∈ gs /\ g_name g = name /\ u ∈ g_users g.
(** Names and primary keys are unique. *)
Definition well_formed (gs : list AuthGroup) : Prop := NoDup (g_name <$> gs) /\ NoDup (g_id <$> gs).

Lemma by_id gs g g' : well_formed gs -> g ∈ gs -> g' ∈ gs -> g_id g = g_id g' -> g = g'.
Proof.
  intros [_ Hid] [i Hi]%list_elem_of_lookup [j Hj]%list_elem_of_lookup He.
  assert (i = j) as ->; [|congruence]. eapply (NoDup_lookup (g_id <$> gs)); [done| |]; rewrite list_lookup_fmap, ?Hi, ?Hj; cbn; by f_equal.
Qed.
Lemma by_name gs g g' : well_formed gs -> g ∈ gs -> g' ∈ gs -> g_name g = g_name g' -> g = g'.
Proof.
  intros [Hn _] [i Hi]%list_elem_of_lookup [j Hj]%list_elem_of_lookup He.
  assert (i = j) as ->; [|congruence]. eapply (NoDup_lookup (g_name <$> gs)); [done| |]; rewrite list_lookup_fmap, ?Hi, ?Hj; cbn; by f_equal.
Qed.

(** ** Updates *)

(** [f] keeps the name and the key of a group. *)
Definition keeps_name (f : AuthGroup -> AuthGroup) : Prop := forall g, g_name (f g) = g_name g /\ g_id (f g) = g_id g.

Lemma add_user_keeps u : keeps_name (add_user u).
Proof. intros g. unfold add_user. by case_bool_decide. Qed.
Lemma set_account_keeps acc : keeps_name (set_account acc). Proof. done. Qed.
Lemma remove_user_keeps u : keeps_name (remove_user u). Proof. done. Qed.

Lemma map_well_formed (f : AuthGroup -> AuthGroup) gs : (forall g, g_name (f g) = g_name g /\ g_id (f g) = g_id g) -> well_formed gs -> well_formed (map f gs).
Proof.
  intros Hf [Hn Hi]. assert (g_name <$> map f gs = g_name <$> gs) as En by (induction gs as [|g gs IH]; [done|]; cbn in *; rewrite IH; [by destruct (Hf g) as [-> _]|by inversion Hn|by inversion Hi]).
  assert (g_id <$> map f gs = g_id <$> gs) as Ei by (clear En; induction gs as [|g gs IH]; [done|]; cbn in *; rewrite IH; [by destruct (Hf g) as [_ ->]|by inversion Hn|by inversion Hi]).
  split; [by rewrite En|by rewrite Ei].
Qed.
Lemma update_well_formed pk f gs : keeps_name f -> well_formed gs -> well_formed (update_group pk f gs).
Proof. intros Hf. apply map_well_formed. intros g. case_bool_decide; [apply Hf|done]. Qed.

Lemma elem_update pk f gs g : g ∈ update_group pk f gs <-> exists g0, g0 ∈ gs /\ g = (if bool_decide (g_id g0 = pk) then f g0 else g0).
Proof. unfold update_group. rewrite list_elem_of_fmap. naive_solver. Qed.

Lemma member_update pk f gs u name :
  keeps_name f ->
  member (update_group pk f gs) u name <-> exists g, g ∈ gs /\ g_name g = name /\ u ∈ g_users (if bool_decide (g_id g = pk) then f g else g).
Proof.
  intros Hf. split.
  - intros (g & (g0 & Hg0 & ->)%elem_update & Hn & Hu). exists g0. split; [done|]. split; [|done]. case_bool_decide; [by rewrite <- (proj1 (Hf g0))|done].
  - intros (g & Hg & Hn & Hu). eexists. split; [apply elem_update; by exists g|]. split; [|done]. case_bool_decide; [by rewrite (proj1 (Hf g))|done].
Qed.

Lemma member_set_account pk acc gs u name : member (update_group pk (set_account acc) gs) u name <-> member gs u name.
Proof. rewrite member_update by apply set_account_keeps. unfold member. split; intros (g & ? & ? & H); exists g; (split_and!; [done..|]); by case_bool_decide. Qed.

Lemma elem_add_user u v g : u ∈ g_users (add_user v g) <-> u ∈ g_users g \/ u = v.
Proof. unfold add_user. case_bool_decide; cbn; [naive_solver|]. rewrite elem_of_app, list_elem_of_singleton. done. Qed.
Lemma member_add_user gs g v u name : well_formed gs -> g ∈ gs ->
  member (update_group (g_id g) (add_user v) gs) u name <-> member gs u name \/ u = v /\ name = g_name g.
Proof.
  intros Hwf Hg. rewrite member_update by apply add_user_keeps. split.
  - intros (g0 & Hg0 & Hn & Hu). case_bool_decide as E; [|left; by exists g0]. apply (by_id gs) in E as ->; try done.
    apply elem_add_user in Hu as [Hu| ->]; [left; by exists g|by right].
  - intros [(g0 & Hg0 & Hn & Hu)|[-> ->]].
    + exists g0. split_and!; [done..|]. case_bool_decide; [apply elem_add_user; by left|done].
    + exists g. split_and!; [done..|]. rewrite bool_decide_eq_true_2 by done. apply elem_add_user. by right.
Qed.

Lemma new_pk_fresh pks : new_pk pks ∉ pks.
Proof.
  assert (forall x, x ∈ pks -> x <= foldr Nat.max 0 pks)%nat as H; [|intros Hin%H; unfold new_pk in Hin; lia].
  induction pks as [|y pks IH]; [by intros x ?%not_elem_of_nil|]. cbn. intros x [->|Hx]%elem_of_cons; [lia|]. specialize (IH x Hx). lia.
Qed.

(** ** One turn *)

(** What the turns need of the groups read at first: those listed are still there, with the user. *)
Definition still (user : nat) (names : list string) (current gs : list AuthGroup) : Prop :=
  forall g, g ∈ current -> g_name g ∈ names -> exists g', g' ∈ gs /\ g_name g' = g_name g /\ user ∈ g_users g'.

Lemma head_filter_name name (gs : list AuthGroup) :
  match head (filter (fun g => g_name g = name) gs) with
  | Some g => g ∈ gs /\ g_name g = name
  | None => forall g, g ∈ gs -> g_name g <> name
  end.
Proof.
  destruct (head _) as [g|] eqn:E.
  - assert (g ∈ filter (fun g => g_name g = name) gs) as H by (destruct (filter _ gs); cbn in E; [done|]; injection E as ->; left). by apply list_elem_of_filter in H as [? ?].
  - intros g Hg Hn. assert (g ∈ filter (fun g => g_name g = name) gs) as H by (by apply list_elem_of_filter). destruct (filter _ gs); [by apply not_elem_of_nil in H|done].
Qed.

Lemma turn_spec user names perms current gs name acc :
  well_formed gs -> still user names current gs -> name ∈ names ->
  let gs' := sync_group user perms current gs (name, acc) in
  well_formed gs' /\ still user names current gs' /\ forall u nm, member gs' u nm <-> member gs u nm \/ u = user /\ nm = name.
Proof.
  intros Hwf Hst Hname. cbn zeta. unfold sync_group.
  assert (forall gs1 (group : AuthGroup), well_formed gs1 -> (forall u nm, member gs1 u nm <-> member gs u nm \/ u = user /\ nm = name) ->
    let gs' := if _has_account group acc then gs1 else update_group (g_id group) (set_account acc) gs1 in
    well_formed gs' /\ still user names current gs' /\ forall u nm, member gs' u nm <-> member gs u nm \/ u = user /\ nm = name) as Hlast.
  { intros gs1 group Hwf1 Hm1. cbn zeta.
    assert (forall gs', well_formed gs' -> (forall u nm, member gs' u nm <-> member gs1 u nm) ->
      well_formed gs' /\ still user names current gs' /\ forall u nm, member gs' u nm <-> member gs u nm \/ u = user /\ nm = name) as Hend.
    { intros gs' Hwf' Hm'. split; [done|]. split; [|intros u nm; by rewrite Hm', Hm1]. intros g Hg Hn.
      destruct (Hst g Hg Hn) as (g' & H1 & H2 & H3). destruct (proj2 (Hm' user (g_name g))) as (g2 & ? & ? & ?); [apply Hm1; left; by exists g'|]. by exists g2. }
    destruct (_has_account group acc); [by apply Hend|]. apply Hend; [apply update_well_formed; [apply set_account_keeps|done]|]. intros u nm. apply member_set_account. }
  pose proof (head_filter_name name current) as Hcur. destruct (head (filter _ current)) as [group|].
  - apply Hlast; [done|]. destruct Hcur as [Hg <-]. intros u nm. split; [by left|]. intros [?|[-> ->]]; [done|].
    destruct (Hst group Hg Hname) as (g' & ? & ? & ?). by exists g'.
  - pose proof (head_filter_name name gs) as Hold. destruct (head (filter _ gs)) as [group|].
    + destruct Hold as [Hg <-]. apply Hlast; [apply update_well_formed; [apply add_user_keeps|done]|]. intros u nm. by apply member_add_user.
    + set (group := mk_auth_group _ name perms [] None). assert (well_formed (gs ++ [group])) as Hwf1.
      { destruct Hwf as [Hn Hi]. split; rewrite fmap_app; apply NoDup_app; (split_and!; [done| |apply NoDup_singleton]).
        - intros x (g & -> & Hg)%list_elem_of_fmap Hx%list_elem_of_singleton. by apply (Hold g).
        - intros x Hx ->%list_elem_of_singleton. by apply (new_pk_fresh (g_id <$> gs)). }
      assert (group ∈ gs ++ [group]) as Hin by set_solver.
      apply Hlast; [by apply update_well_formed; [apply add_user_keeps|]|]. intros u nm. rewrite member_add_user by done. cbn [g_name group].
      assert (member (gs ++ [group]) u nm <-> member gs u nm) as ->; [|done]. split.
      * intros (g & [Hg| ->%list_elem_of_singleton]%elem_of_app & ? & Hu); [by exists g|]. by apply not_elem_of_nil in Hu.
      * intros (g & ? & ? & ?). exists g. set_solver.
Qed.

Lemma turns_spec user names perms current items : forall gs,
  well_formed gs -> still user names current gs -> (forall i, i ∈ items -> i.1 ∈ names) ->
  let gs' := foldl (sync_group user perms current) gs items in
  well_formed gs' /\ forall u nm, member gs' u nm <-> member gs u nm \/ u = user /\ nm ∈ items.*1.
Proof.
  induction items as [|[name acc] items IH]; intros gs Hwf Hst Hin; cbn [foldl].
  { split; [done|]. intros u nm. split; [by left|]. intros [?|[_ ?%not_elem_of_nil]]; done. }
  destruct (turn_spec user names perms current gs name acc Hwf Hst (Hin (name, acc) ltac:(left))) as (Hwf1 & Hst1 & Hm1).
  destruct (IH _ Hwf1 Hst1 (fun i Hi => Hin i ltac:(by right))) as [Hwf2 Hm2]. split; [done|]. intros u nm. rewrite Hm2, Hm1, fmap_cons, elem_of_cons. cbn. tauto.
Qed.

(** ** The names *)

Lemma d_set_keys {V} (k : string) (v : V) d x : x ∈ (d_set k v d).*1 <-> x ∈ d.*1 \/ x = k.
Proof.
  induction d as [|[k' v'] d IH]; cbn [d_set]; [cbn; rewrite list_elem_of_singleton, elem_of_nil; tauto|].
  case_bool_decide as E; rewrite !fmap_cons, !elem_of_cons; [subst; cbn; tauto|]. rewrite IH. cbn. tauto.
Qed.
Lemma accounts_of_names groups x : x ∈ (accounts_of groups).*1 <-> x ∈ group_name <$> groups.
Proof.
  unfold accounts_of. assert (forall d, x ∈ (foldl (fun d g => d_set (group_name g) (account g) d) d groups).*1 <-> x ∈ d.*1 \/ x ∈ group_name <$> groups) as H.
  { induction groups as [|g groups IH]; intros d; cbn [foldl]; [rewrite elem_of_nil; tauto|]. rewrite IH, d_set_keys, fmap_cons, elem_of_cons. tauto. }
  rewrite H, elem_of_nil. tauto.
Qed.
Lemma sorted_items_Permutation l : sorted_items l ≡ₚ l.
Proof.
  assert (forall x l, insert_item x l ≡ₚ x :: l) as H.
  { intros x l'. induction l' as [|y l' IH]; cbn; [done|]. destruct (String.leb x.1 y.1); [done|]. rewrite IH. constructor. }
  induction l as [|x l IH]; cbn; [done|]. by rewrite H, IH.
Qed.

(** C37: after a login the groups of the user are exactly those listed, no one else's changed, and
    names and keys are still unique. *)
Theorem groups_synchronised user groups perms gs :
  well_formed gs ->
  let gs' := sync_user_groups user groups perms gs in
  well_formed gs'
  /\ (forall name, member gs' user name <-> name ∈ group_name <$> groups)
  /\ (forall other name, other <> user -> member gs' other name <-> member gs other name).
Proof.
  intros Hwf. cbn zeta. unfold sync_user_groups. set (accounts := accounts_of groups). set (current := user_groups user gs).
  assert (forall g, g ∈ current <-> user ∈ g_users g /\ g ∈ gs) as Hcur by (intros g; unfold current, user_groups; by rewrite list_elem_of_filter).
  setoid_rewrite <- accounts_of_names. fold accounts. destruct (_ && _) eqn:E.
  { apply andb_true_iff in E as [E1 E2]. rewrite forallb_forall in E1, E2. split; [done|]. split; [|done]. intros name. split.
    - intros (g & Hg & <- & Hu). assert (g ∈ current) as H by by apply Hcur. apply list_elem_of_In, E1, bool_decide_eq_true in H. done.
    - intros (item & -> & Hin)%list_elem_of_fmap. specialize (E2 item (proj1 (list_elem_of_In _ _) Hin)).
      pose proof (head_filter_name item.1 current) as H. destruct (head _) as [g|]; [|done]. destruct H as [[? ?]%Hcur <-]. by exists g. }
  clear E. set (gone := map g_id _). set (gs1 := map _ gs).
  assert (forall g, g_id g ∈ gone -> g ∈ gs -> user ∈ g_users g /\ g_name g ∉ accounts.*1) as Hgone.
  { intros g (g0 & Hid & [Hn [Hu Hg0]%Hcur]%list_elem_of_filter)%list_elem_of_fmap Hg. apply (by_id gs) in Hid as ->; done. }
  assert (well_formed gs1) as Hwf1 by (apply map_well_formed; [|done]; intros g; by case_bool_decide).
  assert (forall u nm, member gs1 u nm <-> member gs u nm /\ ~ (u = user /\ nm ∉ accounts.*1)) as Hm1.
  { intros u nm. split.
    - intros (g & (g0 & -> & Hg0)%list_elem_of_fmap & Hn & Hu). revert Hn Hu. case_bool_decide as Hin; cbn.
      + intros Hn [Hne Hu]%list_elem_of_filter. split; [by exists g0|]. by intros [? _].
      + intros Hn Hu. split; [by exists g0|]. intros [-> Hnot]. apply Hin. apply list_elem_of_fmap. exists g0. split; [done|].
        apply list_elem_of_filter. split; [by rewrite Hn|by apply Hcur].
    - intros [(g & Hg & Hn & Hu) Hnot]. eexists. split; [apply list_elem_of_fmap; exists g; split; [reflexivity|done]|]. case_bool_decide as Hin; [|done].
      cbn. split; [done|]. apply list_elem_of_filter. split; [|done]. intros ->. apply Hnot. split; [done|]. rewrite <- Hn. by apply Hgone. }
  assert (still user accounts.*1 current gs1) as Hst.
  { intros g [Hu Hg]%Hcur Hn. destruct (proj2 (Hm1 user (g_name g))) as (g' & ? & ? & ?); [|by exists g']. split; [by exists g|]. by intros [_ ?]. }
  destruct (turns_spec user accounts.*1 perms current (sorted_items accounts) gs1 Hwf1 Hst) as [Hwf2 Hm2].
  { intros i Hi. rewrite sorted_items_Permutation in Hi. by apply list_elem_of_fmap_2. }
  split; [exact Hwf2|]. split.
  - intros name. rewrite Hm2, Hm1, sorted_items_Permutation. split; [|by right]. intros [[_ Hnot]|[_ ?]]; [|done].
    destruct (decide (name ∈ accounts.*1)); [done|]. by destruct Hnot.
  - intros other name Hne. rewrite Hm2, Hm1. split; [intros [[? _]|[? _]]; done|]. intros ?. left. split; [done|]. by intros [? _].
Qed.

(** ** A login *)

(** User 1 is in a group that is not listed, and not yet in two that are; one of those is there with user 2. *)
Definition small_groups : list AuthGroup :=
  [mk_auth_group 1 "left" ["view"] [1%nat; 2%nat] (Some (Some "account")); mk_auth_group 4 "shared" ["view"] [2%nat] None].
Definition listed : list AuthenticationGroup := [mk_authentication_group "shared" (Some "account"); mk_authentication_group "new" (Some "account")].

Example small_login :
  map (fun g => (g_id g, g_name g, g_users g, g_metadata g)) (sync_user_groups 1 listed ["view_program"] small_groups)
  = [(1, "left", [2], Some (Some "account")); (4, "shared", [2; 1], Some (Some "account")); (5, "new", [1], Some (Some "account"))]%nat.
Proof. reflexivity. Qed.

Lemma groups_synchronised_witness :
  let gs' := sync_user_groups 1 listed ["view_program"] small_groups in
  well_formed gs' /\ (forall name, member gs' 1 name <-> name ∈ ["shared"; "new"])
  /\ (forall other name, other <> 1%nat -> member gs' other name <-> member small_groups other name).
Proof. apply (groups_synchronised 1 listed ["view_program"] small_groups). split; by apply (bool_decide_eq_true_1 _). Defined.
