(* ===== verification/Endpoints.v ===== *)
(** * The endpoints ([api/v1/])

    What a view answers when its use case raises ([api/v1/exception_handler.py]), the registry of
    the routes ([api/v1/route_registry.py]), the views of a job ([api/v1/views/jobs/]), the token that
    reads a job's status ([api/services/authentication/job_status_token.py]) and a request from its
    authentication to its answer. What the serializers of Django REST Framework make of an input is an argument, and
    the body of an answer holds the object a serializer is given. *)

From S2P Require Import Prelude PyStr Domain Models World JobTransitions Json ValidateArguments Access RunFunction JobUseCases Stores FileStorage RayLogs TextFiles JobOutputs Authentication.

Local Open Scope string_scope.
Local Open Scope list_scope.
Local Open Scope Z_scope.

(** ** Answers *)

Inductive Body :=
  | NoBody
  | Message (message : string)
  | ArgumentsMessage (message path : string)
  | LogsBody (logs : Text)
  | ResultBody (result : Text)
  | JobBody (job : Job)
  | JobWithResult (job : Job) (result : option Text)
  | EventsBody (events : list JobEvent)
  | RuntimeJobsBody (rows : list RuntimeJob)
  | StatusBody (status : JobStatus) (sub_status : option SubStatus) (fleet_id : option string).

Record Response := mk_response { resp_status : Z; resp_body : Body; resp_headers : list (string * string) }.

Definition ok (body : Body) : Response := mk_response 200 body [].
Definition no_content : Response := mk_response 204 NoBody [].
Definition HttpResponseRedirect (url : string) : Response := mk_response 302 NoBody [("Location", url)].

(** ** [endpoint_handle_exceptions] *)

(** The detail of a [ValidationError] of Django REST Framework. *)
Inductive Detail := DetailStr (s : string) | DetailList (l : list Detail) | DetailDict (d : list (string * Detail)).

Fixpoint _first_error_message (detail : Detail) : string :=
  match detail with
  | DetailStr s => s
  | DetailList (x :: _) => _first_error_message x
  | DetailDict ((_, x) :: _) => _first_error_message x
  | _ => ""
  end.

Section handler.
(** The attributes of an exception besides its text, and the limit of the settings in MB as [:g] writes it. *)
Context (detail : exn -> Detail) (path : exn -> string) (limit_mb : string).

Definition error_response (e : exn) : Response :=
  let answer status body := mk_response status body [] in
  if isinstance e FunctionDisabledException then answer 423 (Message (exn_str e))
  else if isinstance e NotFoundError then answer 404 (Message (exn_str e))
  else if isinstance e RuntimeFunctionsException then answer 401 (Message (exn_str e))
  else if isinstance e EngineUnavailableException then answer 503 (Message (exn_str e))
  else if isinstance e RetryableError then answer 503 (Message "Service temporarily unavailable, please retry.")
  else if isinstance e CustomFunctionNotEntitledException then answer 403 (Message (exn_str e))
  else if isinstance e InvalidAccessException then answer 403 (Message (exn_str e))
  else if isinstance e DRFValidationError then answer 400 (Message (_first_error_message (detail e)))
  else if isinstance e InvalidArgumentsException then answer 400 (ArgumentsMessage (exn_str e) (path e))
  else if isinstance e FunctionConfigurationException then answer 400 (Message (exn_str e))
  else if isinstance e ActiveJobLimitExceeded then answer 429 (Message (exn_str e))
  else if isinstance e RequestDataTooBig then
    answer 413 (Message ("the request body is larger than the maximum of " +:+ limit_mb +:+ " MB"))
  else answer 500 (Message "Internal server error").

Definition endpoint_handle_exceptions {S} (view : M S Response) : M S Response :=
  try_except view (fun e => Some (ret (error_response e))).
End handler.

(** ** [RouteRegistry] *)

Section routes.
Context {View : Type}.

(** Per path, per method, in the order of their registration. *)
Abbreviation Routes := (list (string * list (string * (View * string)))).

Definition endswith (p s : string) : bool := startswith (rev_str p) (rev_str s).
Fixpoint lstrip_char (c : ascii) (s : string) : string :=
  match s with
  | EmptyString => EmptyString
  | String a s' => if bool_decide (a = c) then lstrip_char c s' else s
  end.
Definition clean_path (url_path : string) : string :=
  lstrip_char "/" (if endswith "/" url_path then url_path else url_path +:+ "/").

Definition register (url_path : string) (view : View) (name method : string) (routes : Routes) : outcome unit * Routes :=
  let path := clean_path url_path in
  let routes := match d_get path routes with Some _ => routes | None => d_set path [] routes end in
  let handlers := default [] (d_get path routes) in
  match d_get (upper method) handlers with
  | Some _ => (Raise (mk_exn ValueError ("Method " +:+ upper method +:+ " is already registered for path '" +:+ path +:+ "'")), routes)
  | None => (Ok tt, d_set path (d_set (upper method) (view, name) handlers) routes)
  end.

(** [dispatch]: [None] is a 405. *)
Definition dispatch_route (method_map : list (string * (View * string))) (method : string) : option View :=
  fst <$> d_get (upper method) method_map.
End routes.

(** ** The views of a job *)

(** The database, the files and the rows of Qiskit Runtime jobs. *)
Record Site := mk_site { site_world : World; site_store : Store; site_runtime_jobs : list RuntimeJob }.
Definition in_gateway {A} (m : M Gateway A) : M Site A :=
  fun s => let '(o, g) := m (mk_gateway (site_world s) (site_store s)) in (o, mk_site (gw_world g) (gw_store g) (site_runtime_jobs s)).
Definition in_world {A} (m : Py A) : M Site A :=
  fun s => let '(o, w) := m (site_world s) in (o, mk_site w (site_store s) (site_runtime_jobs s)).

Definition JOB_STATUS_TOKEN_HEADER : string := "X-Job-Status-Token".

Section views.
Context (detail : exn -> Detail) (path : exn -> string) (limit_mb : string).
Context (MEDIA_ROOT : string) (c : Catalog).
Context (cos_fault : CosOp -> string -> string -> option (exn * bool)) (presigned : string -> string -> outcome string).
Context (get_log_runner : Job -> outcome LogRunner) (logs_column : Job -> Text) (result_column : Job -> option Text).
Context (lib : Libraries) (qiskit : QiskitRuntime) (svc : JobTransitionService).
Context (get_runner : Job -> outcome AbstractRunner) (runner_active : AbstractRunner -> Py bool).
Context (insert_error : RuntimeJob -> list RuntimeJob -> option string).
(** [signing.dumps] and [signing.loads] with the salt of the module: the user, the job and the time in microseconds. *)
Context (dumps : nat -> JobId -> Z -> string) (loads : string -> Z -> Z -> outcome (nat * JobId)).

Abbreviation handled := (endpoint_handle_exceptions detail path limit_mb).

Definition logs_response (result : GetLogsResponse) : Response :=
  if truthy (redirect_url result) then HttpResponseRedirect (default "" (redirect_url result))
  else match raw_log result with None => no_content | Some log => ok (LogsBody log) end.

Definition get_logs_view (user : User) (job_id : JobId) : M Site Response :=
  handled (result <- in_gateway (GetJobLogs MEDIA_ROOT cos_fault presigned get_log_runner logs_column job_id user) ;;
           ret (logs_response result)).
Definition provider_logs_view (user : User) (accessible : option FunctionAccessResult) (job_id : JobId) : M Site Response :=
  handled (result <- in_gateway (GetProviderJobLogs MEDIA_ROOT c cos_fault presigned get_log_runner logs_column job_id user accessible) ;;
           ret (logs_response result)).

Definition get_result_view (user : User) (job_id : JobId) : M Site Response :=
  handled (outcome <- in_gateway (GetJobResult MEDIA_ROOT cos_fault presigned job_id user) ;;
           ret (if truthy (result_redirect_url outcome) then HttpResponseRedirect (default "" (result_redirect_url outcome))
                else match raw_result outcome with None => no_content | Some r => ok (ResultBody r) end)).
Definition save_result_view (validated : outcome Text) (user : User) (job_id : JobId) : M Site Response :=
  handled (result <- of_outcome validated ;;
           job <- in_gateway (JobSaveResult MEDIA_ROOT cos_fault job_id user result) ;;
           ret (ok (JobWithResult job.1 (Some job.2)))).

Definition stop_view (validated : outcome (option string)) (user : User) (job_id : JobId) : M Site Response :=
  handled (service <- of_outcome validated ;;
           rows <- gets site_runtime_jobs ;;
           message <- in_world (stop_job lib qiskit rows svc get_runner runner_active job_id service user) ;;
           ret (ok (Message message))).

Definition set_sub_status_view (validated : outcome SubStatus) (user : User) (job_id : JobId) : M Site Response :=
  handled (sub_status <- of_outcome validated ;;
           job <- in_world (SetJobSubStatus job_id user sub_status) ;;
           ret (ok (JobBody job))).

Definition create_event_view (validated : outcome EventData) (user : User) (job_id : JobId) : M Site Response :=
  handled (data <- of_outcome validated ;;
           in_world (CreateJobEvent job_id user data) ;;;
           ret (ok NoBody)).
Definition get_events_view (validated : outcome (option JobEventType)) (user : User) (job_id : JobId) : M Site Response :=
  handled (event_type <- of_outcome validated ;;
           events <- in_world (ListJobEvents job_id user event_type) ;;
           ret (ok (EventsBody events))).

Definition associate_runtime_jobs_view (validated : outcome (string * option string)) (user : User) (job_id : JobId) : M Site Response :=
  handled (data <- of_outcome validated ;;
           rows <- gets site_runtime_jobs ;;
           r <- in_world (AssociateRuntimeJobs insert_error job_id data.1 data.2 user rows) ;;
           modify (fun s => mk_site (site_world s) (site_store s) r.2) ;;;
           ret (ok (Message r.1))).
Definition get_runtime_jobs_view (user : User) (job_id : JobId) : M Site Response :=
  handled (rows <- gets site_runtime_jobs ;;
           rows <- in_world (GetRuntimeJobs job_id user rows) ;;
           ret (ok (RuntimeJobsBody rows))).

(** ** The token of a job's status *)

Definition _MAX_AGE_SECONDS : Z := 300.

Definition issue_job_status_token (user_id : nat) (job_id : JobId) : M Site string :=
  t <- in_world now ;; ret (dumps user_id job_id t).

Definition retrieve_view (validated : outcome bool) (user : User) (accessible : option FunctionAccessResult) (job_id : JobId) : M Site Response :=
  handled (with_result <- of_outcome validated ;;
           r <- in_gateway (JobRetrieve MEDIA_ROOT c cos_fault result_column job_id user with_result accessible) ;;
           if can_get_status_token user r.1 then
             token <- issue_job_status_token (user_id user) (id r.1) ;;
             ret (mk_response 200 (JobWithResult r.1 r.2) [(JOB_STATUS_TOKEN_HEADER, token); ("Cache-Control", "no-store")])
           else ret (ok (JobWithResult r.1 r.2))).

(** [JobStatusTokenBackend.authenticate]: nobody without a token; a token that is not good is an error. *)
Definition status_token_authenticate (accounts : list Account) (token : option string) : M Site (option (Account * JobId)) :=
  if negb (truthy token) then ret None
  else
    payload <- try_except
      (t <- in_world now ;; p <- of_outcome (loads (default "" token) _MAX_AGE_SECONDS t) ;; ret (Some p))
      (fun e => if isinstance e BadSignature then Some (ret None) else None) ;;
    match '(u, j) ← payload; user ← head (filter (fun a => acc_id a = u /\ is_active a = true) accounts); Some (user, j) with
    | Some r => ret (Some r)
    | None => raise (auth_failed "The job status token is not valid or has expired.")
    end.

Definition job_status_view (user : Account) (auth job_id : JobId) : M Site Response :=
  handled (if bool_decide (auth <> job_id) then raise (job_not_found job_id)
           else
             d <- in_world get_db ;;
             match jobs d !! job_id with
             | Some job =>
                 if bool_decide (user_id (author job) = acc_id user) then
                   ret (mk_response 200 (StatusBody (status job) (sub_status job) (fleet_id job)) [("Cache-Control", "no-store")])
                 else raise (job_not_found job_id)
             | None => raise (job_not_found job_id)
             end).

(** ** A request *)

(** What Django REST Framework answers before a view runs: the status of its own exceptions, and
    a failure of the server for any other. *)
Definition api_exception (e : exn) : Response :=
  if isinstance e AuthenticationFailed then mk_response 401 (Message (exn_str e)) []
  else if isinstance e ServiceUnavailable then mk_response 503 (Message (exn_str e)) []
  else mk_response 500 NoBody [].
(** [IsAuthenticated], where no backend answered, and where one answered with nobody. *)
Definition not_authenticated : Response := mk_response 401 (Message "Authentication credentials were not provided.") [].
Definition permission_denied : Response := mk_response 403 (Message "You do not have permission to perform this action.") [].

Definition job_status_endpoint (accounts : list Account) (token : option string) (job_id : JobId) : M Site Response :=
  try_except
    (who <- status_token_authenticate accounts token ;;
     match who with
     | None => ret not_authenticated
     | Some (user, auth) => job_status_view user auth job_id
     end)
    (fun e => Some (ret (api_exception e))).
End views.

Section request.
Context {B : Type} (cloud : IBMCloud B) (settings : AuthSettings) (sha256 : string -> string) (random : nat -> Z).

(** A request to a view that asks for [IsAuthenticated]: who and what [custom_authenticate] finds, then the view, on
    the same database. *)
Definition api_view (request : HttpRequest) (view : Account -> CustomAuthentication -> Py Response) : M (Auth B) Response :=
  try_except
    (who <- custom_authenticate cloud settings sha256 random request ;;
     match who with
     | None => ret permission_denied
     | Some (user, auth) => auth_process (view user auth)
     end)
    (fun e => Some (ret (api_exception e))).
End request.
