(* ===== verification/EndpointsProps.v ===== *)
(** * Correctness of the endpoints

    A user who is not the author of a job cannot tell it from one that does not exist, a
    token shows the status of the author's own job and of no other, and a view runs for those IBM Cloud vouched for only. *)

From S2P Require Import Prelude PyStr Domain Models World JobTransitions Json ValidateArguments Access RunFunction JobUseCases Stores FileStorage RayLogs TextFiles JobOutputs Authentication AuthenticationProps Endpoints JobUseCasesProps RunFunctionProps Samples.

Local Open Scope string_scope.
Local Open Scope list_scope.
Local Open Scope Z_scope.

(** ** What a view answers when its use case raises *)

Section handler.
Context (detail : exn -> Detail) (path : exn -> string) (limit_mb : string).

Lemma handled_ok {S} (view : M S Response) s r s' : view s = (Ok r, s') -> endpoint_handle_exceptions detail path limit_mb view s = (Ok r, s').
Proof. intros H. unfold endpoint_handle_exceptions, try_except. by rewrite H. Qed.
Lemma handled_raise {S} (view : M S Response) s e s' : view s = (Raise e, s') ->
  endpoint_handle_exceptions detail path limit_mb view s = (Ok (error_response detail path limit_mb e), s').
Proof. intros H. unfold endpoint_handle_exceptions, try_except. by rewrite H. Qed.
(** A view never raises. *)
Lemma handled_answers {S} (view : M S Response) s : exists r s', endpoint_handle_exceptions detail path limit_mb view s = (Ok r, s').
Proof. destruct (view s) as [[r|e] s'] eqn:E; eexists _, _; [by apply handled_ok|by apply handled_raise]. Qed.
End handler.

(** ** Routes *)

(** A route that is registered is served, by the view it was registered with, and the others as before; a
    method is registered once. *)
Lemma register_dispatch {View} url (view : View) name method routes :
  let serves rs p m := d_get p rs ≫= fun methods => dispatch_route methods m in
  match register url view name method routes with
  | (Ok _, routes') => forall p m, serves routes' p m
      = if bool_decide (p = clean_path url /\ upper m = upper method) then Some view else serves routes p m
  | (Raise e, routes') => is_Some (serves routes (clean_path url) method) /\ forall p m, serves routes' p m = serves routes p m
  end.
Proof.
  cbn zeta. unfold register. set (p0 := clean_path url).
  set (routes0 := match d_get p0 routes with Some _ => routes | None => d_set p0 [] routes end).
  assert (forall p m, (d_get p routes0 ≫= fun methods => dispatch_route methods m) = (d_get p routes ≫= fun methods => dispatch_route methods m)) as H0.
  { intros p m. unfold routes0. destruct (d_get p0 routes) eqn:E; [done|]. rewrite d_get_set. case_bool_decide; [|done]. subst p. by rewrite E. }
  assert (forall m, dispatch_route (default [] (d_get p0 routes0)) m = (d_get p0 routes ≫= fun methods => dispatch_route methods m)) as H1.
  { intros m. rewrite <- H0. by destruct (d_get p0 routes0). }
  destruct (d_get (upper method) _) as [[v n]|] eqn:E.
  - split; [|exact H0]. rewrite <- H1. unfold dispatch_route. rewrite E. by eexists.
  - intros p m. rewrite d_get_set. case_bool_decide as Hp.
    + subst p. cbn. unfold dispatch_route. rewrite d_get_set. case_bool_decide as Hm; [rewrite bool_decide_eq_true_2 by done; done|].
      rewrite bool_decide_eq_false_2 by naive_solver. apply (H1 m).
    + rewrite bool_decide_eq_false_2 by naive_solver. apply H0.
Qed.

(** ** The author's endpoints *)

Definition same_site (s s' : Site) : Prop :=
  db (site_world s') = db (site_world s) /\ site_store s' = site_store s /\ site_runtime_jobs s' = site_runtime_jobs s.

(** The job is someone else's, or there is none. *)
Definition stranger (user : User) (job_id : JobId) (s : Site) : Prop :=
  forall job, jobs (db (site_world s)) !! job_id = Some job -> user_id user <> user_id (author job).

Definition not_found (job_id : JobId) : Response := mk_response 404 (Message ("Job [" +:+ job_id +:+ "] not found")) [].

Lemma find_job_refuses user job_id w :
  (forall job, jobs (db w) !! job_id = Some job -> user_id user <> user_id (author job)) ->
  exists w', find_job is_author user job_id w = (Raise (job_not_found job_id), w') /\ db w' = db w.
Proof.
  intros H. unfold find_job, bind, get_db, gets. destruct (jobs (db w) !! job_id) as [job|] eqn:E; [|by eexists].
  unfold put_self, modify. unfold is_author. rewrite bool_decide_eq_false_2 by by apply H. by eexists.
Qed.

Section views.
Context (detail : exn -> Detail) (path : exn -> string) (limit_mb : string).
Context (MEDIA_ROOT : string) (c : Catalog).
Context (cos_fault : CosOp -> string -> string -> option (exn * bool)) (presigned : string -> string -> outcome string).
Context (get_log_runner : Job -> outcome LogRunner) (logs_column : Job -> Text) (result_column : Job -> option Text).
Context (lib : Libraries) (qiskit : QiskitRuntime) (svc : JobTransitionService).
Context (get_runner : Job -> outcome AbstractRunner) (runner_active : AbstractRunner -> Py bool).
Context (insert_error : RuntimeJob -> list RuntimeJob -> option string).

(** The endpoints of a job's author, and an input each takes. *)
Inductive AuthorEndpoint :=
  | Stop (service : option string)
  | SetSubStatus (sub_status : SubStatus)
  | CreateEvent (data : EventData)
  | GetEvents (event_type : option JobEventType)
  | Associate (runtime_job : string) (runtime_session : option string)
  | ListRuntimeJobs
  | GetResult
  | SaveResult (result : Text).

Definition author_view (e : AuthorEndpoint) : User -> JobId -> M Site Response :=
  match e with
  | Stop service => stop_view detail path limit_mb lib qiskit svc get_runner runner_active (Ok service)
  | SetSubStatus sub_status => set_sub_status_view detail path limit_mb (Ok sub_status)
  | CreateEvent data => create_event_view detail path limit_mb (Ok data)
  | GetEvents event_type => get_events_view detail path limit_mb (Ok event_type)
  | Associate runtime_job runtime_session => associate_runtime_jobs_view detail path limit_mb insert_error (Ok (runtime_job, runtime_session))
  | ListRuntimeJobs => get_runtime_jobs_view detail path limit_mb
  | GetResult => get_result_view detail path limit_mb MEDIA_ROOT cos_fault presigned
  | SaveResult result => save_result_view detail path limit_mb MEDIA_ROOT cos_fault (Ok result)
  end.

(** C36: whoever is not the author of a job gets the same answer from each of the author's endpoints as if
    there were no such job, a 404, and nothing changes: neither the database, nor the files, nor the rows of
    Qiskit Runtime jobs. *)
Theorem author_only endpoint user job_id s :
  stranger user job_id s ->
  exists s', author_view endpoint user job_id s = (Ok (not_found job_id), s') /\ same_site s s'.
Proof.
  intros Hs. destruct (find_job_refuses user job_id (site_world s) Hs) as (w' & Hf & Hdb).
  assert (forall view, (exists s', view s = (Raise (job_not_found job_id), s') /\ same_site s s') ->
    exists s', endpoint_handle_exceptions detail path limit_mb view s = (Ok (not_found job_id), s') /\ same_site s s') as Hview.
  { intros view (s' & Hr & Hsame). exists s'. split; [|done]. by rewrite (handled_raise _ _ _ _ _ _ _ Hr). }
  destruct endpoint; apply Hview.
  all: unfold in_world, in_gateway, stop_job, stop_execute, on_world, SetJobSubStatus, CreateJobEvent, ListJobEvents, AssociateRuntimeJobs,
    GetRuntimeJobs, GetJobResult, JobSaveResult, in_db, of_outcome, ret, gets, bind.
  all: cbn [stopped_world gw_world gw_store].
  all: change can_stop with is_author; change can_update_sub_status with is_author; change can_create_events with is_author;
    change can_read_events with is_author; change can_manage_runtime_jobs with is_author; change can_read_result with is_author;
    change can_save_result with is_author.
  all: rewrite Hf; eexists; done.
Qed.
End views.

(** ** The token of a job's status *)

(** [django.core.signing] in whole seconds: what was signed is read back while it is young enough, and
    nothing else is. *)
Class SigningLaws (dumps : nat -> JobId -> Z -> string) (loads : string -> Z -> Z -> outcome (nat * JobId)) : Prop := {
  loads_dumps u j t0 max_age t : t - t0 / 1000000 * 1000000 <= max_age * 1000000 -> loads (dumps u j t0) max_age t = Ok (u, j);
  loads_signed token max_age t u j : loads token max_age t = Ok (u, j) ->
    exists t0, token = dumps u j t0 /\ t - t0 / 1000000 * 1000000 <= max_age * 1000000;
  loads_refuses token max_age t e : loads token max_age t = Raise e -> exn_class e = BadSignature;
  dumps_truthy u j t0 : truthy (Some (dumps u j t0)) = true
}.

Section token.
Context (detail : exn -> Detail) (path : exn -> string) (limit_mb : string).
Context (dumps : nat -> JobId -> Z -> string) (loads : string -> Z -> Z -> outcome (nat * JobId)) `{!SigningLaws dumps loads}.

(** The time the endpoint reads. *)
Definition at_time (s : Site) : Z := wall (site_world s) (ticks (site_world s)).

(** The token was issued at most five minutes ago to [u] for this very job, [u] is an active user, and the author of the job. *)
Definition reads_status (accounts : list Account) (token : option string) (job_id : JobId) (s : Site) (job : Job) : Prop :=
  exists u t0, token = Some (dumps u job_id t0) /\ at_time s - t0 / 1000000 * 1000000 <= _MAX_AGE_SECONDS * 1000000
    /\ (exists a, a ∈ accounts /\ acc_id a = u /\ is_active a = true)
    /\ jobs (db (site_world s)) !! job_id = Some job /\ user_id (author job) = u.

Definition status_response (job : Job) : Response :=
  mk_response 200 (StatusBody (status job) (sub_status job) (fleet_id job)) [("Cache-Control", "no-store")].

Definition active_account (u : nat) (accounts : list Account) : option Account :=
  head (filter (fun a => acc_id a = u /\ is_active a = true) accounts).
Lemma active_account_spec u accounts :
  match active_account u accounts with
  | Some a => a ∈ accounts /\ acc_id a = u /\ is_active a = true
  | None => forall a, a ∈ accounts -> acc_id a = u -> is_active a = true -> False
  end.
Proof.
  unfold active_account. destruct (filter _ accounts) as [|a l] eqn:E; cbn.
  - intros a Ha Hu Hact. assert (a ∈ filter (fun a => acc_id a = u /\ is_active a = true) accounts) as H by by apply list_elem_of_filter.
    rewrite E in H. by apply not_elem_of_nil in H.
  - assert (a ∈ filter (fun a => acc_id a = u /\ is_active a = true) accounts) as H by (rewrite E; left).
    apply list_elem_of_filter in H as [[? ?] ?]. done.
Qed.

Lemma job_status_view_spec a auth job_id s :
  job_status_view detail path limit_mb a auth job_id s
  = (Ok match jobs (db (site_world s)) !! job_id with
        | Some job => if bool_decide (auth = job_id /\ user_id (author job) = acc_id a) then status_response job else not_found job_id
        | None => not_found job_id
        end, s).
Proof.
  assert (forall o, (match o with Ok r => (Ok r, s) | Raise e => (Ok (error_response detail path limit_mb e), s) end : outcome Response * Site) = (Ok match o with Ok r => r | Raise e => error_response detail path limit_mb e end, s)) as Hcase by by intros [].
  unfold job_status_view, endpoint_handle_exceptions, try_except. case_bool_decide as Hj.
  { unfold raise. destruct (jobs _ !! job_id); [|done]. rewrite bool_decide_eq_false_2 by naive_solver. done. }
  subst auth. unfold in_world, get_db, gets, bind. cbn [site_world site_store site_runtime_jobs]. destruct s as [w st rows]. cbn.
  destruct (jobs (db w) !! job_id) as [job|]; [|done]. case_bool_decide as Ha.
  - rewrite bool_decide_eq_true_2 by done. done.
  - rewrite bool_decide_eq_false_2 by naive_solver. done.
Qed.

Definition token_refused : exn := auth_failed "The job status token is not valid or has expired.".
(** The clock was read once. *)
Definition after_now (s : Site) : Site :=
  mk_site (set_ticks (S (ticks (site_world s))) (site_world s)) (site_store s) (site_runtime_jobs s).

Lemma status_token_spec accounts token s : truthy (Some token) = true ->
  status_token_authenticate loads accounts (Some token) s
  = (match loads token _MAX_AGE_SECONDS (at_time s) with
     | Ok (u, j) => match active_account u accounts with Some a => Ok (Some (a, j)) | None => Raise token_refused end
     | Raise _ => Raise token_refused
     end, after_now s).
Proof.
  intros Ht. unfold status_token_authenticate. rewrite Ht. change (default "" (Some token)) with token. cbn [negb]. unfold try_except, bind.
  change (in_world now s) with (Ok (at_time s), after_now s). cbn iota beta.
  destruct (loads token _ _) as [[u j]|e] eqn:Hl; cbn [of_outcome].
  - unfold ret. cbn [option_bind mbind]. change (head (filter _ accounts)) with (active_account u accounts). by destruct (active_account u accounts).
  - unfold raise, ret. assert (isinstance e BadSignature = true) as -> by (apply bool_decide_eq_true_2; by eapply loads_refuses). done.
Qed.

(** C35: the status of a job is shown to whoever presents a token issued at most five minutes ago
    to its author, an active user, for that very job, and to no one else: without a good token the answer is 401,
    with a token for another job, or of a user who is not the author, 404 as if there were no such job.
    Nothing changes. *)
Theorem job_status_exact accounts token job_id s :
  exists r s', job_status_endpoint detail path limit_mb loads accounts token job_id s = (Ok r, s') /\ same_site s s'
    /\ (forall job, reads_status accounts token job_id s job -> r = status_response job)
    /\ (resp_status r = 200 -> exists job, reads_status accounts token job_id s job)
    /\ resp_status r ∈ [200; 401; 404].
Proof.
  unfold job_status_endpoint. destruct (truthy token) eqn:Ht.
  2:{ exists not_authenticated, s. split; [unfold status_token_authenticate, try_except, bind; by rewrite Ht|]. split; [done|]. split; [|split; [done|set_solver]].
      intros job (u & t0 & -> & _). by rewrite dumps_truthy in Ht. }
  destruct token as [token|]; [|done]. unfold try_except, bind. rewrite (status_token_spec _ _ _ Ht).
  assert (forall r, resp_status r = 401 -> (forall job, ~ reads_status accounts (Some token) job_id s job) ->
    same_site s (after_now s) /\ (forall job, reads_status accounts (Some token) job_id s job -> r = status_response job)
    /\ (resp_status r = 200 -> exists job, reads_status accounts (Some token) job_id s job) /\ resp_status r ∈ [200; 401; 404]) as Hrefused.
  { intros r Hr Hno. rewrite Hr. split; [done|]. split; [by intros job ?%Hno|]. split; [done|set_solver]. }
  destruct (loads token _MAX_AGE_SECONDS (at_time s)) as [[u j]|e] eqn:Hl.
  2:{ eexists _, _. split; [reflexivity|]. apply Hrefused; [done|]. intros job (u & t0 & [= ->] & Hage & _). by rewrite (loads_dumps _ _ _ _ _ Hage) in Hl. }
  assert (forall job, reads_status accounts (Some token) job_id s job ->
    j = job_id /\ user_id (author job) = u /\ jobs (db (site_world s)) !! job_id = Some job /\ exists a, a ∈ accounts /\ acc_id a = u /\ is_active a = true) as Hreads.
  { intros job (u' & t' & [= ->] & Hage' & Ha & Hj & Hu'). rewrite (loads_dumps _ _ _ _ _ Hage') in Hl. by injection Hl as -> ->. }
  pose proof (active_account_spec u accounts) as Hact. destruct (active_account u accounts) as [a|].
  2:{ eexists _, _. split; [reflexivity|]. apply Hrefused; [done|]. intros job (_ & _ & _ & a & ? & ? & ?)%Hreads. by eapply Hact. }
  rewrite job_status_view_spec. eexists _, _. split; [reflexivity|]. split; [done|]. change (db (site_world (after_now s))) with (db (site_world s)).
  destruct Hact as (Hin & Hu & Hac). split; [|split].
  - intros job (-> & Hau & Hj & _)%Hreads. rewrite Hj, bool_decide_eq_true_2; [done|]. by rewrite Hau.
  - destruct (jobs _ !! job_id) as [job|] eqn:Hj; [|done]. case_bool_decide as Hc; [|done]. intros _. destruct Hc as [-> Hau].
    destruct (loads_signed _ _ _ _ _ Hl) as (t0 & -> & Hage). exists job, u, t0. split_and!; [done|done|by exists a|done|congruence].
  - destruct (jobs _ !! job_id); [|set_solver]. case_bool_decide; set_solver.
Qed.
End token.

(** ** A request *)

Section request.
Context {B : Type} (cloud : IBMCloud B) (answered : B -> Fact -> Prop) `{!CloudLaws cloud answered}.
Context (settings : AuthSettings) (sha256 : string -> string) (random : nat -> Z) (in_use : string -> Prop) `{!HashLaws sha256 in_use}.

(** What the caller is told of a view that ran. *)
Definition view_answer (o : outcome Response) : Response := match o with Ok r => r | Raise e => api_exception e end.

Lemma auth_process_run {A} (m : Py A) (a : Auth B) :
  auth_process m a = ((m (au_world a)).1, mk_auth (m (au_world a)).2 (au_cloud a) (au_cache a) (au_accounts a)).
Proof. unfold auth_process. by destruct (m (au_world a)). Qed.

(** C34: behind a private path a view runs only for a request that was vouched for, as an active user of the
    account, instance and plan IBM Cloud told of, with the groups it listed (none where Access Groups refused), and with
    the functions the Runtime API told of or, where that API is disabled, by the legacy authorization of groups; its answer is the
    answer. Any other request is answered 401 only where it was malformed, denied by an answer or of a
    deactivated user, 503 when IBM Cloud could not be asked, and 500 for what nothing catches; the view does not
    run. The cache of what was told stays sound. *)
Theorem view_runs_for_the_vouched request view a :
  IAM_IBM_CLOUD_BASE_URL settings <> None -> is_public_endpoint (req_path request) = false ->
  (forall header, HTTP_AUTHORIZATION request = Some header -> in_use (authorization_token header)) ->
  sound answered sha256 in_use a ->
  exists r a', api_view cloud settings sha256 random request view a = (Ok r, a') /\ sound answered sha256 in_use a'
    /\ ((exists user auth before, let_through answered settings request (auth_groups (au_accounts a)) user auth before
           /\ r = view_answer (view user auth (au_world before)).1 /\ au_world a' = (view user auth (au_world before)).2
           /\ au_accounts a' = au_accounts before)
        \/ (exists e, turned_away cloud answered settings request e a' /\ r = api_exception e)).
Proof.
  intros Hurl Hpub Huse Hs. pose proof (authenticate_wp cloud answered settings sha256 random in_use request a Hurl Hpub Huse Hs) as Hw.
  unfold wp in Hw. unfold api_view, try_except, bind.
  destruct (custom_authenticate cloud settings sha256 random request a) as [[who|e] a1].
  2:{ destruct Hw as [Hst Ht]. eexists _, _. split; [reflexivity|]. split; [by apply (step_sound _ _ _ _ _ Hst)|]. right. by exists e. }
  destruct Hw as [Hst (user & auth & -> & Hl)]. rewrite auth_process_run.
  set (o := (view user auth (au_world a1)).1). set (w := (view user auth (au_world a1)).2).
  exists (view_answer o), (mk_auth w (au_cloud a1) (au_cache a1) (au_accounts a1)). split; [by destruct o|]. split.
  { intros k t v Hv. by apply (step_sound _ _ _ _ _ Hst Hs k t v). }
  left. by exists user, auth, a1.
Qed.
End request.

(** ** Small inputs *)

Module site.

Fixpoint digits (p : positive) : string := match p with xH => "." | xO p => String "0" (digits p) | xI p => String "1" (digits p) end.
Fixpoint number (s : string) : option positive :=
  match s with
  | String "." "" => Some xH
  | String "0" s => xO <$> number s
  | String "1" s => xI <$> number s
  | _ => None
  end.
Lemma number_digits p : number (digits p) = Some p.
Proof. induction p as [p IH|p IH|]; cbn; [by rewrite IH|by rewrite IH|done]. Qed.

(** A token is its payload in binary: the small service trusts every token it could have written. *)
Definition dumps (u : nat) (j : JobId) (t : Z) : string := digits (countable.encode (u, j, t / 1000000)).
Definition loads (token : string) (max_age t : Z) : outcome (nat * JobId) :=
  match number token ≫= countable.decode (A := nat * JobId * Z) with
  | Some (u, j, seconds) =>
      if bool_decide (token = digits (countable.encode (u, j, seconds)) /\ t - seconds * 1000000 <= max_age * 1000000) then Ok (u, j)
      else Raise (mk_exn BadSignature "Signature age is too old.")
  | None => Raise (mk_exn BadSignature "Signature does not match.")
  end.

#[global] Instance signing_laws : SigningLaws dumps loads.
Proof.
  split.
  - intros u j t0 max_age t Hage. unfold loads, dumps. rewrite number_digits. cbn [option_bind mbind]. rewrite countable.decode_encode.
    by rewrite bool_decide_eq_true_2.
  - intros token max_age t u j. unfold loads. destruct (_ ≫= _) as [[[u' j'] seconds]|]; [|done]. case_bool_decide as H; [|done].
    intros [= <- <-]. exists (seconds * 1000000). unfold dumps. rewrite Z.div_mul by done. done.
  - intros token max_age t e. unfold loads. destruct (_ ≫= _) as [[[u' j'] seconds]|]; [|by intros [= <-]]. case_bool_decide; [done|by intros [= <-]].
  - intros u j t0. unfold dumps. by destruct (countable.encode _).
Qed.

Definition detail (e : exn) : Detail := DetailList [DetailStr (exn_str e)].
Definition path (e : exn) : string := "".
Definition start : Site := mk_site running_world (mk_store ∅ ∅) [].
Definition accounts : list Account := [mk_account 1 "alice" true; mk_account 2 "bob" false].
Definition read (token : string) : outcome Response :=
  (job_status_endpoint detail path "50" loads accounts (Some token) "job-1" start).1.
End site.

(** The author's token is good for five minutes, for the job it names, and while the user is active; nobody's word is
    taken without one. *)
Example tokens_read :
  map site.read [site.dumps 1 "job-1" 0; site.dumps 1 "job-1" (-300000000); site.dumps 1 "job-1" (-301000000); site.dumps 1 "job-2" 0; site.dumps 2 "job-1" 0; ""]
  = [Ok (status_response running_job); Ok (status_response running_job);
     Ok (api_exception token_refused); Ok (not_found "job-1"); Ok (api_exception token_refused); Ok not_authenticated].
Proof. vm_compute. reflexivity. Qed.

Lemma job_status_exact_witness :
  reads_status site.dumps site.accounts (Some (site.dumps 1 "job-1" 0)) "job-1" site.start running_job
  /\ exists s', job_status_endpoint site.detail site.path "50" site.loads site.accounts (Some (site.dumps 1 "job-1" 0)) "job-1" site.start
       = (Ok (status_response running_job), s') /\ same_site site.start s'.
Proof.
  assert (reads_status site.dumps site.accounts (Some (site.dumps 1 "job-1" 0)) "job-1" site.start running_job) as H.
  { exists 1%nat, 0. split_and!; [done|by vm_compute| |done|done]. exists (mk_account 1 "alice" true). split_and!; [left|done|done]. }
  split; [exact H|].
  destruct (job_status_exact site.detail site.path "50" site.dumps site.loads site.accounts (Some (site.dumps 1 "job-1" 0)) "job-1" site.start)
    as (r & s' & Hrun & Hsame & Hr & _).
  exists s'. by rewrite <- (Hr _ H).
Defined.

Lemma author_only_witness :
  stranger (mk_user 2 "bob") "job-1" site.start
  /\ exists s', author_view site.detail site.path "50" "/data" (fun _ _ _ => None) (fun _ _ => Ok "") SampleRun.lib sample_qiskit
       noop_service (fun _ => Ok (constant_runner true)) no_cluster (fun _ _ => None) (SaveResult []) (mk_user 2 "bob") "job-1" site.start
     = (Ok (not_found "job-1"), s') /\ same_site site.start s'.
Proof.
  assert (stranger (mk_user 2 "bob") "job-1" site.start) as H by by intros job [= <-].
  split; [exact H|]. by apply author_only.
Defined.

(** The view answers with the name of the user and the functions the request may use. *)
Definition who_view (user : Account) (auth : CustomAuthentication) : Py Response :=
  ret (ok (Message (join " " (acc_username user :: map e_function_title (access_functions (ca_accessible_functions auth)))))).
Definition asked (path api_key : string) : outcome Response :=
  (api_view small.cloud small.settings small.sha256 small.random (small.request path api_key) who_view small.start).1.

Example who_is_served :
  asked "/api/v1/jobs/" "key" = Ok (ok (Message "IBMid-1 sampler"))
  /\ resp_status <$> match asked "/api/v1/jobs/" "other" with Ok r => Some r | _ => None end = Some 401.
Proof. vm_compute. done. Qed.

Lemma view_runs_for_the_vouched_witness :
  exists r a', api_view small.cloud small.settings small.sha256 small.random (small.request "/api/v1/jobs/" "key") who_view small.start = (Ok r, a')
    /\ sound small.answered small.sha256 small.in_use a'.
Proof.
  assert (IAM_IBM_CLOUD_BASE_URL small.settings <> None) as Hurl by by intros [=].
  assert (forall header, HTTP_AUTHORIZATION (small.request "/api/v1/jobs/" "key") = Some header -> small.in_use (authorization_token header)) as Hk
    by (intros header [= <-]; by left).
  assert (sound small.answered small.sha256 small.in_use small.start) as Hs by (intros k e v H; cbn in H; by rewrite lookup_empty in H).
  destruct (view_runs_for_the_vouched small.cloud small.answered small.settings small.sha256 small.random small.in_use
    (small.request "/api/v1/jobs/" "key") who_view small.start Hurl eq_refl Hk Hs) as (r & a' & Hr & Hsound & _).
  exists r, a'. split; [exact Hr|exact Hsound].
Defined.
