(* ===== verification/FleetWrapper.v ===== *)
(** * The wrapper of a fleet's process ([templates/fleet_{provider,custom}_job_wrapper.py])

    The program that runs inside the container of a Fleets job: it starts the user's function,
    cuts its output into a public and a private log, and ships both to the object storage from a
    thread. The thread and the reader of the output share the local files without a lock, so the
    wrapper is a step relation over their interleavings, from the start of the function's process on (if that cannot be started the
    wrapper dies and ships nothing).

    A line is its code points and a file its bytes, as in [RayLogs]; how the runtime encodes the text of a line is a
    parameter. *)

From stdpp Require Import pretty.
From S2P Require Import Prelude PyStr Domain Models RayLogs.

Local Open Scope list_scope.
Local Open Scope Z_scope.

Section wrapper.
(** The two templates: a provider's function, or a user's own, whose log is all public. *)
Context (provider : bool).
Context (LIMIT : nat) (encode : Line -> Bytes).

(** ** Lines *)

Definition PUBLIC_TAG : Line := text "[PUBLIC]".
Definition PRIVATE_TAG : Line := text "[PRIVATE]".

(** [c.upper() == tag], for a character of a tag: of all others only the dotless i has a capital in one. *)
Definition upper_is (tag c : Z) : bool :=
  (c =? tag) || ((65 <=? tag) && (tag <=? 90) && (c =? tag + 32)) || ((tag =? 73) && (c =? 305)).
(** [line[:len(tag)].upper() == tag]. *)
Fixpoint tagged (tag line : Line) : bool :=
  match tag, line with
  | [], _ => true
  | t :: tag', c :: line' => upper_is t c && tagged tag' line'
  | _ :: _, [] => false
  end.

Inductive LogName := Public | Private.
#[export] Instance LogName_eq_dec : EqDecision LogName.
Proof. solve_decision. Defined.

Definition clean_line (line : Line) : LogName * Line :=
  let rest := if provider then Private else Public in
  if tagged PUBLIC_TAG line then (Public, drop (S (length PUBLIC_TAG)) line)
  else if tagged PRIVATE_TAG line then (rest, drop (S (length PRIVATE_TAG)) line)
  else (rest, line).

(** ** [upload_log], one access to a file at a time *)

Definition TRUNCATION_HEADER : Bytes :=
  text "[Logs exceeded maximum allowed size (" ++ text (pretty LIMIT)
  ++ text " bytes). Logs have been truncated, discarding the oldest entries first.]" ++ [10].

(** The file in [/tmp], which the reader appends to, and the one on the mounted bucket. *)
Record LogFile := mk_file { local_log : Bytes; cos_log : option Bytes }.

Inductive Upload :=
  | Sizing
  | Copying
  | Storing (content : Bytes)
  | Tailing
  | Seeked (position : nat)
  | Writing (log_tail : Bytes)
  | Truncating (log_tail : Bytes)
  | Restoring (log_tail : Bytes) (done : nat)
  | Uploaded (shipped : bool).

Definition set_cos (c : Bytes) (f : LogFile) : LogFile := mk_file (local_log f) (Some c).
Definition set_local (c : Bytes) (f : LogFile) : LogFile := mk_file c (cos_log f).

(** What is written to a file gets there piece by piece. An [OSError] ends the upload anywhere and leaves the
    pieces; a file that is not there has no size. *)
Inductive upload_step : Upload -> LogFile -> Upload -> LogFile -> Prop :=
  | up_small f : (length (local_log f) < LIMIT)%nat -> upload_step Sizing f Copying f
  | up_large f : (LIMIT <= length (local_log f))%nat -> upload_step Sizing f Tailing f
  | up_read f : upload_step Copying f (Storing (local_log f)) f
  | up_storing c f n : upload_step (Storing c) f (Storing c) (set_cos (take n c) f)
  | up_store c f : upload_step (Storing c) f (Uploaded true) (set_cos c f)
  | up_seek f : (LIMIT <= length (local_log f))%nat -> upload_step Tailing f (Seeked (length (local_log f) - LIMIT)) f
  | up_tail pos f : upload_step (Seeked pos) f (Writing (drop pos (local_log f))) f
  | up_writing t f n : upload_step (Writing t) f (Writing t) (set_cos (take n (TRUNCATION_HEADER ++ t)) f)
  | up_write t f : upload_step (Writing t) f (Truncating t) (set_cos (TRUNCATION_HEADER ++ t) f)
  | up_truncate t f : upload_step (Truncating t) f (Restoring t 0) (set_local [] f)
  | up_restore t n m f : (n <= m <= length t)%nat ->
      upload_step (Restoring t n) f (Restoring t m) (set_local (take m t ++ drop m (local_log f)) f)
  | up_restored t f : upload_step (Restoring t (length t)) f (Uploaded true) f
  | up_fails u f : upload_step u f (Uploaded false) f.

(** ** The process *)

Inductive Uploader := Waiting | Checking (l : LogName) | Uploading (l : LogName) (u : Upload) | Stopped.
(** The exit code of the function's process, or none when an exception ended the reading of its output. *)
Inductive Main :=
  | Reading
  | Joining (code : option Z)
  | Flushing (l : LogName) (u : Upload) (public_shipped : bool) (code : option Z)
  | Exited (code : option Z) (public_shipped private_shipped : bool).

Record Wrapper := mk_wrapper {
  output : list Line;                  (* what the function has written so far *)
  unwritten : option (LogName * Bytes);  (* what [out.write] has still to write of the last line *)
  public_file : LogFile;
  private_file : LogFile;
  last_public_size : option nat;
  last_private_size : option nat;
  uploader : Uploader;
  main : Main;
  stop : bool;
  exit_code : option Z
}.

Definition file (l : LogName) (s : Wrapper) : LogFile := match l with Public => public_file s | Private => private_file s end.
Definition last_size (l : LogName) (s : Wrapper) : option nat := match l with Public => last_public_size s | Private => last_private_size s end.
Definition set_file (l : LogName) (f : LogFile) (s : Wrapper) : Wrapper :=
  mk_wrapper (output s) (unwritten s) (match l with Public => f | _ => public_file s end) (match l with Private => f | _ => private_file s end)
    (last_public_size s) (last_private_size s) (uploader s) (main s) (stop s) (exit_code s).
Definition set_last_size (l : LogName) (n : nat) (s : Wrapper) : Wrapper :=
  mk_wrapper (output s) (unwritten s) (public_file s) (private_file s)
    (match l with Public => Some n | _ => last_public_size s end) (match l with Private => Some n | _ => last_private_size s end)
    (uploader s) (main s) (stop s) (exit_code s).
Definition set_uploader (u : Uploader) (s : Wrapper) : Wrapper :=
  mk_wrapper (output s) (unwritten s) (public_file s) (private_file s) (last_public_size s) (last_private_size s) u (main s) (stop s) (exit_code s).
Definition set_main (m : Main) (s : Wrapper) : Wrapper :=
  mk_wrapper (output s) (unwritten s) (public_file s) (private_file s) (last_public_size s) (last_private_size s) (uploader s) m (stop s) (exit_code s).

(** After a log, the thread looks at the next one or waits. *)
Definition next (l : LogName) : Uploader := match l with Public => if provider then Checking Private else Waiting | Private => Waiting end.

(** [out.write(cleaned)] and [out.flush()], in append mode: a line comes, and its bytes get to the file
    piece by piece. *)
Definition read_line (line : Line) (s : Wrapper) : Wrapper :=
  let '(l, cleaned) := clean_line line in
  mk_wrapper (output s ++ [line]) (Some (l, encode cleaned)) (public_file s) (private_file s) (last_public_size s) (last_private_size s)
    (uploader s) (main s) (stop s) (exit_code s).
Definition set_unwritten (r : option (LogName * Bytes)) (s : Wrapper) : Wrapper :=
  mk_wrapper (output s) r (public_file s) (private_file s) (last_public_size s) (last_private_size s) (uploader s) (main s) (stop s) (exit_code s).
Definition put (l : LogName) (rest : Bytes) (n : nat) (s : Wrapper) : Wrapper :=
  set_unwritten (Some (l, drop n rest)) (set_file l (set_local (local_log (file l s) ++ take n rest) (file l s)) s).

(** The loop over the output is left, and [flush] sets the event. *)
Definition leave (code : option Z) (s : Wrapper) : Wrapper :=
  mk_wrapper (output s) (unwritten s) (public_file s) (private_file s) (last_public_size s) (last_private_size s) (uploader s) (Joining code) true (exit_code s).

(** [sys.exit], which an exception of the loop does not come to. *)
Definition exit_with (code : option Z) (s : Wrapper) : option Z := (fun code => default code (exit_code s)) <$> code.

(** [on_signal]. *)
Definition on_signal (sig : Z) (s : Wrapper) : Wrapper :=
  mk_wrapper (output s) (unwritten s) (public_file s) (private_file s) (last_public_size s) (last_private_size s) (uploader s) (main s) (stop s) (Some (128 + sig)).

(** Any exception of the reader ends the loop ([breaks]): the files are closed, which may still write some of
    the line, and the logs are flushed. *)
Inductive step (s : Wrapper) : Wrapper -> Prop :=
  | reads line : main s = Reading -> unwritten s = None -> step s (read_line line s)
  | puts l rest n : main s = Reading -> unwritten s = Some (l, rest) -> step s (put l rest n s)
  | puts_all l : main s = Reading -> unwritten s = Some (l, []) -> step s (set_unwritten None s)
  | breaks : main s = Reading -> step s (leave None s)
  | signalled sig : (forall c p q, main s <> Exited c p q) -> step s (on_signal sig s)
  | ends code : main s = Reading -> unwritten s = None -> step s (leave (Some code) s)
  | joins code : main s = Joining code -> uploader s = Stopped -> step s (set_main (Flushing Public Sizing false code) s)
  | flushes l u p code u' f' : main s = Flushing l u p code -> (forall b, u <> Uploaded b) -> upload_step u (file l s) u' f' ->
      step s (set_main (Flushing l u' p code) (set_file l f' s))
  | flushes_next b p code : main s = Flushing Public (Uploaded b) p code -> provider = true ->
      step s (set_main (Flushing Private Sizing b code) s)
  | exits_custom b p code : main s = Flushing Public (Uploaded b) p code -> provider = false ->
      step s (set_main (Exited (exit_with code s) b false) s)
  | exits b p code : main s = Flushing Private (Uploaded b) p code ->
      step s (set_main (Exited (exit_with code s) p b) s)
  | wakes : uploader s = Waiting -> stop s = false -> step s (set_uploader (Checking Public) s)
  | stops : uploader s = Waiting -> stop s = true -> step s (set_uploader Stopped s)
  | unchanged l : uploader s = Checking l -> last_size l s = Some (length (local_log (file l s))) -> step s (set_uploader (next l) s)
  | changed l : uploader s = Checking l -> last_size l s <> Some (length (local_log (file l s))) -> step s (set_uploader (Uploading l Sizing) s)
  | uploads l u u' f' : uploader s = Uploading l u -> (forall b, u <> Uploaded b) -> upload_step u (file l s) u' f' ->
      step s (set_uploader (Uploading l u') (set_file l f' s))
  | uploaded l b : uploader s = Uploading l (Uploaded b) -> step s (set_uploader (next l) (set_last_size l (length (local_log (file l s))) s)).

Definition start : Wrapper := mk_wrapper [] None (mk_file [] None) (mk_file [] None) None None Waiting Reading false None.
End wrapper.

(** ** What the logs should hold *)

Section correctness.
Context (provider : bool) (LIMIT : nat) (encode : Line -> Bytes).

(** What the lines leave in a log. *)
Definition log_bytes (l : LogName) (lines : list Line) : Bytes :=
  lines ≫= fun line => let '(l', cleaned) := clean_line provider line in if decide (l' = l) then encode cleaned else [].

Lemma log_bytes_app l lines lines' : log_bytes l (lines ++ lines') = log_bytes l lines ++ log_bytes l lines'.
Proof. apply bind_app. Qed.

(** A file of the bucket: a beginning of what may stand there, some of the bytes of the log in their order,
    perhaps after the header. *)
Definition cos_ok (full : Bytes) (f : LogFile) : Prop :=
  forall c, cos_log f = Some c -> exists body, body `sublist_of` full /\ (c `prefix_of` body \/ c `prefix_of` TRUNCATION_HEADER LIMIT ++ body).

Definition truncating (u : Upload) : bool :=
  match u with Tailing | Seeked _ | Writing _ | Truncating _ | Restoring _ _ => true | _ => false end.

(** The tail an upload holds is of the log, and what was appended since comes after it. *)
Definition phase_ok (full : Bytes) (u : Upload) (f : LogFile) : Prop :=
  match u with
  | Storing t | Writing t | Truncating t => t `sublist_of` full
  | Restoring t n => exists since, local_log f = take n t ++ since /\ t ++ since `sublist_of` full
  | _ => True
  end.

Record upload_ok (full : Bytes) (u : Upload) (f : LogFile) : Prop := {
  ok_local : local_log f `sublist_of` full;
  ok_cos : cos_ok full f;
  ok_phase : phase_ok full u f;
  ok_small : (length full < LIMIT)%nat -> local_log f = full /\ truncating u = false
}.

Lemma drop_sublist {A} n (l : list A) : drop n l `sublist_of` l.
Proof. rewrite <- (take_drop n l) at 2. by apply sublist_inserts_l. Qed.

Lemma cos_ok_set full local b : (exists body, body `sublist_of` full /\ (b `prefix_of` body \/ b `prefix_of` TRUNCATION_HEADER LIMIT ++ body)) ->
  cos_ok full (mk_file local (Some b)).
Proof. intros H c [= <-]. exact H. Qed.

Lemma upload_step_ok full u f u' f' : upload_step LIMIT u f u' f' -> upload_ok full u f -> upload_ok full u' f'.
Proof.
  intros Hs [Hl Hc Hp Hsm]. assert (forall n (l : Bytes), take n l `prefix_of` l) as Htake by (intros n l; exists (drop n l); by rewrite take_drop).
  assert (forall u' f', local_log f' = local_log f -> cos_ok full f' -> phase_ok full u' f' ->
    (truncating u = false -> truncating u' = false) -> upload_ok full u' f') as Hsame.
  { intros u1 f1 He Hc' Hp' Ht. split; rewrite ?He; try done. intros H. destruct (Hsm H) as [? Hu]. split; [done|by apply Ht]. }
  assert (forall u' local, truncating u = true -> local `sublist_of` full -> phase_ok full u' (set_local local f) ->
    upload_ok full u' (set_local local f)) as Hnew.
  { intros u1 local Ht Hl' Hp'. split; try done. intros H. destruct (Hsm H) as [_ Hu]. congruence. }
  destruct Hs; cbn in *; try (apply Hsame; [done| |done|done]; done).
  - split; try done. intros Hlen. destruct (Hsm Hlen) as [He _]. rewrite He in *. lia.
  - apply Hsame; try done. apply cos_ok_set. exists c. split; [done|by left].
  - apply Hsame; try done. apply cos_ok_set. exists c. split; [done|by left].
  - apply Hsame; try done. cbn. etransitivity; [apply drop_sublist|exact Hl].
  - apply Hsame; try done. apply cos_ok_set. exists t. split; [done|by right].
  - apply Hsame; try done. apply cos_ok_set. exists t. split; [done|by right].
  - apply Hnew; [done|apply sublist_nil_l|]. exists []. split; [done|by rewrite app_nil_r].
  - destruct Hp as (since & Hlocal & Hsub).
    assert (t ++ drop (m - length (take n t)) since `sublist_of` full) as Hsub' by (etransitivity; [|exact Hsub]; apply sublist_app; [done|apply drop_sublist]).
    assert (drop m (local_log f) = drop (m - length (take n t)) since) as ->
      by (rewrite Hlocal, drop_app, drop_ge; [done|rewrite length_take; lia]).
    apply Hnew; [done| |by eexists]. etransitivity; [|exact Hsub']. apply sublist_app; [|done].
    rewrite <- (take_drop m t) at 2. by apply sublist_inserts_r.
Qed.

Lemma write_ok full u f x : upload_ok full u f -> upload_ok (full ++ x) u (set_local (local_log f ++ x) f).
Proof.
  intros [Hl Hc Hp Hsm]. split; cbn.
  - by apply sublist_app.
  - intros c Hcc. destruct (Hc c Hcc) as (body & Hb & Hcase). exists body. split; [|done]. etransitivity; [exact Hb|by apply sublist_inserts_r].
  - destruct u; cbn in *; try done; try (etransitivity; [exact Hp|by apply sublist_inserts_r]).
    destruct Hp as (since & -> & Hsub). exists (since ++ x). split; [by rewrite app_assoc|]. rewrite app_assoc. by apply sublist_app.
  - rewrite length_app. intros H. destruct Hsm as [-> ?]; [lia|done].
Qed.

(** Another phase that holds no bytes of the log. *)
Definition idle (u : Upload) : bool := match u with Sizing | Copying | Uploaded _ => true | _ => false end.
Lemma any_ok full u u' f : upload_ok full u f -> idle u' = true -> upload_ok full u' f.
Proof. intros [? ? ? Hsm] Hu. split; try done; [by destruct u'|]. intros Hlen. destruct (Hsm Hlen). split; [done|by destruct u']. Qed.

(** ** The last upload *)

(** What a shipped log holds: all of it when it is short, else the header and as much of it as is kept. *)
Definition shipped (full : Bytes) (f : LogFile) : Prop :=
  (exists body, body `sublist_of` full /\ (length body <= LIMIT)%nat /\ (cos_log f = Some body \/ cos_log f = Some (TRUNCATION_HEADER LIMIT ++ body)))
  /\ ((length full < LIMIT)%nat -> cos_log f = Some full).

(** What the last upload has in hand: nobody else is at work on the log. *)
Definition flush_ok (full : Bytes) (u : Upload) (f : LogFile) : Prop :=
  match u with
  | Copying => (length (local_log f) < LIMIT)%nat
  | Storing c => (length c < LIMIT)%nat /\ c = local_log f
  | Seeked pos => (length (local_log f) = pos + LIMIT)%nat
  | Writing t => (length t <= LIMIT)%nat
  | Truncating t | Restoring t _ => (length t <= LIMIT)%nat /\ t `sublist_of` full /\ cos_log f = Some (TRUNCATION_HEADER LIMIT ++ t)
  | Uploaded b => b = true -> shipped full f
  | _ => True
  end.

Lemma flush_step_ok full u f u' f' : upload_step LIMIT u f u' f' -> (forall b, u <> Uploaded b) ->
  upload_ok full u f -> flush_ok full u f -> flush_ok full u' f'.
Proof.
  intros Hs Hnot [Hl Hc Hp Hsm]. destruct Hs; cbn in *; try done.
  - intros [Hlen ->] _. split; cbn; [|intros H; f_equal; by destruct (Hsm H)]. exists (local_log f). split; [done|]. split; [lia|by left].
  - intros _. lia.
  - intros Hlen. rewrite length_drop. lia.
  - intros (Hlen & Hsub & Hcos) _. split; cbn; [|intros H; by destruct (Hsm H)]. exists t. split; [done|]. split; [done|by right].
Qed.

(** ** The invariant of the interleavings *)

(** Who is at work on a log, if anyone. *)
Definition phase (l : LogName) (s : Wrapper) : Upload :=
  match uploader s, main s with
  | Uploading l' u, _ => if decide (l' = l) then u else Uploaded false
  | _, Flushing l' u _ _ => if decide (l' = l) then u else Uploaded false
  | _, _ => Uploaded false
  end.

(** What is still to be written to a log of the last line. *)
Definition remains (l : LogName) (s : Wrapper) : Bytes :=
  match unwritten s with Some (l', rest) => if decide (l' = l) then rest else [] | None => [] end.

(** The state of the reader: what it has in hand is the end of the last line. *)
Definition reader_ok (s : Wrapper) : Prop :=
  (forall l rest, unwritten s = Some (l, rest) ->
     exists line cleaned, last (output s) = Some line /\ clean_line provider line = (l, cleaned) /\ rest `suffix_of` encode cleaned)
  /\ match main s with
     | Reading | Joining None | Flushing _ _ _ None | Exited None _ _ => True
     | _ => unwritten s = None
     end.

Definition flushed_ok (full : LogName -> Bytes) (s : Wrapper) : Prop :=
  match main s with
  | Flushing l u p _ => flush_ok (full l) u (file l s) /\ (l = Private -> p = true -> shipped (full Public) (file Public s))
  | Exited _ p q => (p = true -> shipped (full Public) (file Public s)) /\ (q = true -> shipped (full Private) (file Private s))
  | _ => True
  end.

(** [full l] is what has been written to a log so far. *)
Record inv (full : LogName -> Bytes) (s : Wrapper) : Prop := {
  inv_full l : full l ++ remains l s = log_bytes l (output s);
  inv_upload l : upload_ok (full l) (phase l s) (file l s);
  inv_alone : match main s with Reading | Joining _ => True | _ => uploader s = Stopped end;
  inv_flush : flushed_ok full s;
  inv_reader : reader_ok s
}.

Lemma start_inv : inv (fun _ => []) start.
Proof.
  split; [done| |done|done|done]. intros l. assert (file l start = mk_file [] None) as -> by by destruct l. split; cbn; [apply sublist_nil_l|done|done|]. done.
Qed.

Lemma file_set_file l l' f s : file l (set_file l' f s) = if decide (l' = l) then f else file l s.
Proof. by destruct l, l'. Qed.

(** A step that changes neither file, and leaves nobody holding a tail. *)
Lemma quiet_inv full s s' :
  inv full s -> output s' = output s -> unwritten s' = unwritten s -> (forall l, file l s' = file l s) ->
  (forall l, phase l s' = phase l s \/ idle (phase l s') = true) ->
  match main s' with Reading | Joining _ => True | _ => uploader s' = Stopped end ->
  flushed_ok full s' -> reader_ok s' -> inv full s'.
Proof.
  intros [Hw Hu _ _ _] Ho Hr Hf Hp Ha Hfl Hrd. split; [| |done..].
  - intros l. unfold remains. rewrite Ho, Hr. apply Hw.
  - intros l. rewrite Hf. destruct (Hp l) as [->|Ht]; [apply Hu|by eapply any_ok].
Qed.

(** The reader takes a line, and puts bytes of it into its log. *)
Lemma read_line_inv full line s : inv full s -> main s = Reading -> unwritten s = None -> inv full (read_line provider encode line s).
Proof.
  intros [Hw Hu _ _ _] Hm Hun. unfold read_line. destruct (clean_line provider line) as [l cleaned] eqn:Hc.
  split; unfold flushed_ok, reader_ok; cbn [main unwritten output uploader]; rewrite ?Hm; try done.
  - intros l'. rewrite log_bytes_app, <- Hw. unfold remains. rewrite Hun, app_nil_r. f_equal. unfold log_bytes. cbn. rewrite Hc. by rewrite app_nil_r.
  - intros l'. pose proof (Hu l') as H. unfold phase in H |- *. rewrite Hm in H. destruct l'; exact H.
  - split; [|done]. intros ? ? [= <- <-]. exists line, cleaned. split; [apply last_snoc|]. done.
Qed.

Lemma put_inv full l rest n s : inv full s -> main s = Reading -> unwritten s = Some (l, rest) ->
  inv (fun l' => if decide (l = l') then full l ++ take n rest else full l') (put l rest n s).
Proof.
  intros [Hw Hu _ _ [Hrd _]] Hm Hun. split; unfold flushed_ok, reader_ok, put; cbn [main unwritten output set_unwritten set_file]; rewrite ?Hm; try done.
  - intros l'. unfold remains. cbn. destruct (decide (l = l')) as [<-|Hl].
    + rewrite <- app_assoc, take_drop. specialize (Hw l). unfold remains in Hw. rewrite Hun in Hw. by rewrite decide_True in Hw.
    + specialize (Hw l'). unfold remains in Hw. rewrite Hun in Hw. by rewrite decide_False in Hw.
  - intros l'. change (phase l' _) with (phase l' s). change (file l' (set_unwritten ?r ?x)) with (file l' x). rewrite file_set_file.
    destruct (decide (l = l')) as [<-|Hl]; [|apply Hu]. apply write_ok, Hu.
  - split; [|done]. intros l' rest' [= <- <-]. destruct (Hrd _ _ Hun) as (line & cleaned & ? & ? & Hsuf). exists line, cleaned.
    split; [done|]. split; [done|]. etransitivity; [|exact Hsuf]. exists (take n rest). by rewrite take_drop.
Qed.

Lemma puts_all_inv full l s : inv full s -> main s = Reading -> unwritten s = Some (l, []) -> inv full (set_unwritten None s).
Proof.
  intros [Hw Hu Ha _ _] Hm Hun. split; unfold flushed_ok, reader_ok; cbn [main unwritten output uploader set_unwritten]; rewrite ?Hm; try done.
  intros l'. rewrite <- Hw. unfold remains. rewrite Hun. cbn. by destruct (decide _).
Qed.

Lemma leave_inv full code s : inv full s -> main s = Reading -> code = None \/ unwritten s = None -> inv full (leave code s).
Proof.
  intros [Hw Hu Ha _ [Hlast _]] Hm Hc. split; unfold flushed_ok; cbn [main uploader leave]; try done.
  - intros l. pose proof (Hu l) as H. unfold phase in H |- *. rewrite Hm in H. destruct l; exact H.
  - split; [exact Hlast|]. cbn. destruct Hc as [ -> | -> ]; [done|by destruct code].
Qed.

(** One step of the last upload, and one of the thread's. *)
Lemma flush_inv full l u p code u' f' s : inv full s -> main s = Flushing l u p code -> (forall b, u <> Uploaded b) ->
  upload_step LIMIT u (file l s) u' f' -> inv full (set_main (Flushing l u' p code) (set_file l f' s)).
Proof.
  intros [Hw Hu Ha Hfl Hrd] Hm Hnot Hstep. unfold flushed_ok in Hfl. rewrite Hm in Ha, Hfl. destruct Hfl as [Hfl Hpub].
  assert (phase l s = u) as Hph by (unfold phase; rewrite Ha, Hm; by rewrite decide_True).
  split; [exact Hw| |done| |].
  - intros l'. change (file l' _) with (file l' (set_file l f' s)). rewrite file_set_file.
    assert (phase l' (set_main (Flushing l u' p code) (set_file l f' s)) = if decide (l = l') then u' else Uploaded false) as ->
      by (unfold phase; cbn [uploader main set_main set_file]; by rewrite Ha).
    destruct (decide (l = l')) as [<-|Hl]; [|by apply (any_ok _ (phase l' s))].
    eapply upload_step_ok; [exact Hstep|]. rewrite <- Hph. apply Hu.
  - unfold flushed_ok. cbn [main set_main]. change (file ?x (set_main ?m ?y)) with (file x y). rewrite !file_set_file. rewrite decide_True by done. split.
    + eapply flush_step_ok; [exact Hstep|done| |exact Hfl]. rewrite <- Hph. apply Hu.
    + intros -> Hp. destruct (decide _); [done|]. by apply Hpub.
  - destruct Hrd as [Hlast Hrd]. split; [exact Hlast|]. cbn. by rewrite Hm in Hrd.
Qed.

Lemma thread_inv full l u u' f' s : inv full s -> uploader s = Uploading l u ->
  upload_step LIMIT u (file l s) u' f' -> inv full (set_uploader (Uploading l u') (set_file l f' s)).
Proof.
  intros [Hw Hu Ha Hfl Hrd] Hup Hstep.
  assert (phase l s = u) as Hph by (unfold phase; rewrite Hup; by rewrite decide_True).
  destruct (main s) eqn:Hm; [| |rewrite Hup in Ha; done..].
  all: split; [exact Hw| |cbn; by rewrite Hm|unfold flushed_ok; cbn; by rewrite Hm|exact Hrd].
  all: intros l'; change (file l' _) with (file l' (set_file l f' s)); rewrite file_set_file.
  all: unfold phase; cbn [uploader set_uploader]; destruct (decide (l = l')) as [<-|Hl]; [|by apply (any_ok _ (phase l' s))].
  all: eapply upload_step_ok; [exact Hstep|]; rewrite <- Hph; apply Hu.
Qed.

(** What the thread does between two uploads. *)
Lemma between_inv full v s s' : inv full s -> uploader s <> Stopped -> idle (match v with Uploading _ u => u | _ => Copying end) = true ->
  s' = set_uploader v s \/ (exists l n, s' = set_uploader v (set_last_size l n s)) -> inv full s'.
Proof.
  intros Hi Hup Hv Hs'. pose proof Hi as [Hw Hu Ha Hfl Hrd]. unfold flushed_ok in Hfl.
  assert (main s' = main s /\ output s' = output s /\ unwritten s' = unwritten s /\ uploader s' = v /\ forall l, file l s' = file l s)
    as (Hm' & Ho & Hun & Hv' & Hf) by (destruct Hs' as [->|(l & n & ->)]; repeat split; intros []; done).
  apply (quiet_inv full s); unfold flushed_ok, reader_ok; rewrite ?Hm', ?Ho, ?Hun; try done.
  - intros l. right. unfold phase. rewrite Hm', Hv'. destruct v; try (by destruct (decide _)).
    all: destruct (main s); try done; by destruct (decide _).
  - by destruct (main s).
  - by destruct (main s).
Qed.

Lemma step_inv full s s' : step provider LIMIT encode s s' -> inv full s -> exists full', inv full' s'.
Proof.
  intros Hs Hi. pose proof Hi as [Hw Hu Ha Hfl Hrd]. unfold flushed_ok in Hfl. pose proof Hrd as [Hlast Hun'].
  destruct Hs as [line Hm Hun|l rest n Hm Hun|l Hm Hun|Hm|sig Hm|code Hm Hun|code Hm Hup|l u p code u' f' Hm Hnot Hstep|b p code Hm Hprov|b p code Hm Hprov
    |b p code Hm|Hup Hstop|Hup Hstop|l Hup Hsize|l Hup Hsize|l u u' f' Hup Hnot Hstep|l b Hup].
  2: eexists; by apply put_inv.
  all: exists full.
  - by apply read_line_inv.
  - by apply (puts_all_inv full l).
  - by apply leave_inv; [..|left].
  - apply (quiet_inv full s); try done. intros l. by left.
  - by apply leave_inv; [..|right].
  - rewrite Hm in Hun'. apply (quiet_inv full s); unfold flushed_ok, reader_ok; try done.
    intros l. right. unfold phase. cbn. rewrite Hup. by destruct (decide _).
  - by eapply flush_inv.
  - rewrite Hm in Ha, Hfl, Hun'. destruct Hfl as [Hfl _]. apply (quiet_inv full s); unfold flushed_ok, reader_ok; try done.
    intros l. right. unfold phase. cbn. rewrite Ha. by destruct (decide _).
  - rewrite Hm in Ha, Hfl, Hun'. destruct Hfl as [Hfl _]. apply (quiet_inv full s); unfold flushed_ok, reader_ok; try done; [|by destruct code].
    intros l. right. unfold phase. cbn. by rewrite Ha.
  - rewrite Hm in Ha, Hfl, Hun'. destruct Hfl as [Hfl Hpub]. apply (quiet_inv full s); unfold flushed_ok, reader_ok; try done; [| |by destruct code].
    + intros l. right. unfold phase. cbn. by rewrite Ha.
    + cbn. split; [by apply Hpub|done].
  - eapply between_inv; [done|by rewrite Hup| |by left]; done.
  - eapply between_inv; [done|by rewrite Hup| |by left]; done.
  - eapply between_inv; [done|by rewrite Hup| |by left]. destruct l, provider; done.
  - eapply between_inv; [done|by rewrite Hup| |by left]; done.
  - by eapply thread_inv.
  - eapply between_inv; [done|by rewrite Hup| |right; by do 2 eexists]. destruct l, provider; done.
Qed.

Lemma wrapper_reachable_inv s : rtc (step provider LIMIT encode) start s -> exists full, inv full s.
Proof.
  intros H. remember start as s0 eqn:E. assert (exists full, inv full s0) as Hi by (subst; eexists; apply start_inv). clear E.
  induction H as [|x y z Hxy _ IH]; [done|]. destruct Hi as [full Hi]. apply IH. by eapply step_inv.
Qed.


(** ** The same lines as a Ray job's *)

Lemma tagged_spec pattern line : (304 ∉ line) -> Forall (fun p => p <> 304) pattern -> tagged pattern line = matches_prefix pattern line.
Proof.
  revert line. induction pattern as [|p pattern IH]; intros [|c line]; try done. intros [Hc Hl]%not_elem_of_cons [Hp Hps]%Forall_cons.
  cbn. rewrite IH by done. f_equal. unfold upper_is, matches_letter. by rewrite (proj2 (Z.eqb_neq c 304)) by done.
Qed.

(** a line goes where the gateway sends it when it streams the logs of a Ray job, stripped of the same tag;
    only the capital dotted I is read differently. *)
Theorem wrapper_routes_like_ray max_chars line public private :
  304 ∉ line ->
  dispatch provider max_chars line (public, private)
  = let '(l, cleaned) := clean_line provider line in
    match l with Public => (append max_chars cleaned public, private) | Private => (public, append max_chars cleaned private) end.
Proof.
  intros Hl. unfold dispatch, clean_line, is_pub, is_priv. fold PUBLIC_TAG PRIVATE_TAG.
  rewrite <- !tagged_spec by (try done; repeat constructor; done). change (S (length PUBLIC_TAG)) with 9%nat. change (S (length PRIVATE_TAG)) with 10%nat.
  destruct (tagged PUBLIC_TAG line), (tagged PRIVATE_TAG line), provider; done.
Qed.
End correctness.

(** ** A line that is lost *)

Module race.
Definition encode (line : Line) : Bytes := line.
Definition HEADER : Bytes := TRUNCATION_HEADER 4.
Definition final : Wrapper :=
  mk_wrapper [text "aaaaa"; text "b"] None (mk_file (text "aaaa") (Some (HEADER ++ text "aaaa"))) (mk_file [] None) (Some 4%nat) None Stopped (Exited (Some 0) true false) true None.

Ltac go c := eapply rtc_l; [eapply c; try reflexivity; try discriminate|].
Ltac line x := eapply rtc_l; [apply (reads _ _ _ _ (text x)); reflexivity|];
  eapply rtc_l; [apply (puts _ _ _ _ Public (text x) 9); reflexivity|]; go puts_all.
Ltac norm := match goal with |- rtc _ ?s _ => let s' := eval vm_compute in s in change s with s' end.
Ltac upload c := eapply rtc_l; [eapply uploads; [reflexivity|discriminate|eapply c; try (apply Nat.leb_le; reflexivity)]|norm].
Ltac flush c := eapply rtc_l; [eapply flushes; [reflexivity|discriminate|eapply c; try (apply Nat.leb_le; reflexivity)]|norm].
(** All of the tail goes back at once. *)
Lemma restore_all t f : upload_step 4 (Restoring t 0) f (Restoring t (length t)) (set_local (t ++ drop (length t) (local_log f)) f).
Proof. rewrite <- (firstn_all t) at 4. apply up_restore. lia. Qed.

(** The thread has emptied the file when another line is appended; then it puts the tail back. *)
Lemma run : rtc (step false 4 encode) start final.
Proof.
  line "aaaaa". go wakes. go (changed false 4 encode). upload up_large. upload up_seek. upload up_tail. upload up_write. upload up_truncate.
  line "b". upload restore_all. upload up_restored. go uploaded.
  eapply rtc_l; [apply (ends _ _ _ _ 0); reflexivity|]. go stops. go joins.
  flush up_large. flush up_seek. flush up_tail. flush up_write. flush up_truncate. flush restore_all. flush up_restored.
  go exits_custom. apply rtc_refl.
Qed.
End race.

(** The newest line is gone: the notice says the oldest entries are discarded first, and the specification of
    the wrappers that what is appended meanwhile stands before the tail. *)
Example race_loses_the_newest_line :
  log_bytes false race.encode Public (output race.final) = text "aaaaab"
  /\ cos_log (public_file race.final) = Some (race.HEADER ++ text "aaaa") /\ drop 2 (text "aaaaab") = text "aaab".
Proof. done. Qed.


Lemma wrapper_routes_like_ray_witness :
  dispatch true 100 (text "[Public] hello") (mk_stream [] 0 false, mk_stream [] 0 false)
  = (append 100 (text "hello") (mk_stream [] 0 false), mk_stream [] 0 false).
Proof. refine (wrapper_routes_like_ray true 100 (text "[Public] hello") _ _ _). by apply (bool_decide_eq_true_1 _). Defined.
