(* ===== verification/IamToken.v ===== *)
(** * The IAM token of the service and the client that uses it

    [core/clients/iam_token_provider.py]: a token is asked for through the token manager of the SDK, which
    is a parameter, and a thread renews it in the background; and [core/clients/functions_operator_client.py], which sends
    a workload with it. What other threads do while the refresher sleeps is a parameter too. Times are
    microseconds; the fraction of a lifetime is rounded down. *)

From stdpp Require Import pretty.
From S2P Require Import Prelude PyStr Domain Models World Access RunFunction Authentication.

Local Open Scope string_scope.
Local Open Scope list_scope.
Local Open Scope Z_scope.

Definition _KEY_REJECTED : list Z := [400; 401; 403].
Definition REFRESH_MIN_SECONDS : Z := 600000000.
Definition refresh_fraction (ttl : Z) : Z := ttl * 2 / 5.
Definition RETRY_SECONDS : Z := 30000000.

(** The fields of the token manager the provider reads or writes. *)
Record TokenManager := mk_token_manager {
  access_token : option string;
  expire_time : Z;
  refresh_time : Z;
  request_time : Z
}.

Inductive IamError := IamApiException (status : option Z) | IamOther.

Record IamTokenProvider (B : Type) := mk_provider_ {
  token_manager : TokenManager;
  iam : B;                                (* the SDK's own state, and IAM *)
  readings : nat;                         (* of the clock *)
  wake : bool;
  stopped : bool;
  seen_token : option string;
  ttl : Z;
  pid : nat;                              (* [os.getpid()]; a fork changes it *)
  refresher : option (nat * bool)         (* the process that started the thread, and whether it is alive *)
}.
Arguments mk_provider_ {B}. Arguments token_manager {B}. Arguments iam {B}. Arguments readings {B}. Arguments wake {B}. Arguments stopped {B}.
Arguments seen_token {B}. Arguments ttl {B}. Arguments pid {B}. Arguments refresher {B}.

Definition set_expire_time (t : Z) (m : TokenManager) : TokenManager := mk_token_manager (access_token m) t (refresh_time m) (request_time m).
Definition set_refresh_time (t : Z) (m : TokenManager) : TokenManager := mk_token_manager (access_token m) (expire_time m) t (request_time m).
Definition set_request_time (t : Z) (m : TokenManager) : TokenManager := mk_token_manager (access_token m) (expire_time m) (refresh_time m) t.

Section provider.
Context {B : Type}.
Context (sdk_get_token : TokenManager -> B -> (IamError + string) * TokenManager * B).
Context (clock : nat -> Z).
Context (thread_start : option exn).             (* what [Thread.start()] raises, if it does *)
(** What the other threads do while the refresher waits for the n-th time; whether [_wait] is the method. *)
Context (others : nat -> IamTokenProvider B -> IamTokenProvider B).

Abbreviation Iam := (M (IamTokenProvider B)).

(** [__init__], given what the SDK makes of a key. *)
Definition new_provider (authenticator : string -> outcome (TokenManager * B)) (api_key : string) (process : nat) : outcome (IamTokenProvider B) :=
  if bool_decide (api_key = "") then Raise (mk_exn RuntimeApiError "The API key is not set")
  else
    match authenticator api_key with
    | Ok (m, b) => Ok (mk_provider_ m b 0 false false None 0 process None)
    | Raise e => Raise (if isinstance e ValueError then mk_exn RuntimeApiError "The API key is malformed" else e)
    end.

Definition with_tm (f : TokenManager -> TokenManager) : Iam unit :=
  modify (fun s => mk_provider_ (f (token_manager s)) (iam s) (readings s) (wake s) (stopped s) (seen_token s) (ttl s) (pid s) (refresher s)).
Definition set_wake (b : bool) : Iam unit :=
  modify (fun s => mk_provider_ (token_manager s) (iam s) (readings s) b (stopped s) (seen_token s) (ttl s) (pid s) (refresher s)).
Definition set_stopped : Iam unit :=
  modify (fun s => mk_provider_ (token_manager s) (iam s) (readings s) (wake s) true (seen_token s) (ttl s) (pid s) (refresher s)).
Definition set_seen (token : string) (ttl : Z) : Iam unit :=
  modify (fun s => mk_provider_ (token_manager s) (iam s) (readings s) (wake s) (stopped s) (Some token) ttl (pid s) (refresher s)).
Definition set_refresher (r : option (nat * bool)) : Iam unit :=
  modify (fun s => mk_provider_ (token_manager s) (iam s) (readings s) (wake s) (stopped s) (seen_token s) (ttl s) (pid s) r).
Definition _clock : Iam Z :=
  fun s => (Ok (clock (readings s)),
            mk_provider_ (token_manager s) (iam s) (S (readings s)) (wake s) (stopped s) (seen_token s) (ttl s) (pid s) (refresher s)).

Definition _forget_failed_request : Iam unit := with_tm (set_request_time 0).

Definition _fetch : Iam (IamError + string) :=
  fun s => let '(r, m, b) := sdk_get_token (token_manager s) (iam s) in
           (Ok r, mk_provider_ m b (readings s) (wake s) (stopped s) (seen_token s) (ttl s) (pid s) (refresher s)).

Definition _record_token (token : string) : Iam bool :=
  m <- gets token_manager ;;
  if expire_time m <=? 0 then ret false
  else
    seen <- gets seen_token ;;
    if bool_decide (seen = Some token) then ret true
    else t <- _clock ;; set_seen token (Z.max (expire_time m - t) 0) ;;; ret true.

Definition _refresher_alive (s : IamTokenProvider B) : bool :=
  match refresher s with Some (p, alive) => bool_decide (p = pid s) && alive | None => false end.

Definition _ensure_refresher : Iam unit :=
  alive <- gets _refresher_alive ;;
  if alive : bool then ret tt
  else
    ended <- gets stopped ;;
    if ended : bool then ret tt
    else
      p <- gets pid ;; r <- gets refresher ;;
      (match r with Some (p', _) => if bool_decide (p' = p) then ret tt else set_wake false | None => ret tt end) ;;;
      set_refresher (Some (p, false)) ;;;
      match thread_start with
      | Some e => raise e
      | None => set_refresher (Some (p, true))
      end.

Definition get_token : Iam string :=
  r <- _fetch ;;
  match r with
  | inl (IamApiException status) =>
      _forget_failed_request ;;;
      match status with
      | Some st => if bool_decide (st ∈ _KEY_REJECTED) then raise (mk_exn RuntimeApiError ("IAM rejected the API key (status " +:+ pretty st +:+ ")"))
                   else raise (mk_exn RetryableError "Could not get an IAM token")
      | None => raise (mk_exn RetryableError "Could not get an IAM token")
      end
  | inl IamOther => _forget_failed_request ;;; raise (mk_exn RetryableError "Could not get an IAM token")
  | inr token =>
      try_except (recorded <- _record_token token ;; if recorded : bool then _ensure_refresher else ret tt) (fun _ => Some (ret tt)) ;;;
      ret token
  end.

Definition invalidate (token : string) : Iam unit :=
  m <- gets token_manager ;;
  if bool_decide (access_token m <> Some token) then ret tt
  else with_tm (set_expire_time 0) ;;; set_wake true.

Definition close : Iam unit := set_stopped ;;; set_wake true.

(** ** The refresher *)

Definition _refresh_deadline : Iam Z :=
  m <- gets token_manager ;;
  if expire_time m <=? 0 then _clock
  else l <- gets ttl ;; ret (expire_time m - Z.min (Z.max (refresh_fraction l) REFRESH_MIN_SECONDS) (l / 2)).

(** Where the thread is: about to wait, with its [min_wait]; about to ask for a token; done. *)
Inductive Stage := Idle (min_wait : Z) | Renewing | Ended.
(** With how often it waited, the seconds it asked for and how often it asked IAM. *)
Record Refresher := mk_refresher { stage : Stage; naps : nat; waited : Z; renewals : nat }.

(** [_wait_for_wake_or_stop]: true means stop. *)
Definition _wait (nap : nat) : Iam bool :=
  modify (others nap) ;;; set_wake false ;;; gets stopped.

Definition turn (r : Refresher) : Iam Refresher :=
  match stage r with
  | Idle min_wait =>
      deadline <- _refresh_deadline ;; t <- _clock ;;
      let seconds := Z.max (deadline - t) min_wait in
      stop <- _wait (naps r) ;;
      let after s := mk_refresher s (S (naps r)) (waited r + Z.max seconds 0) (renewals r) in
      if stop : bool then ret (after Ended)
      else
        t <- _clock ;; deadline <- _refresh_deadline ;;
        ret (after (if t <? deadline then Idle min_wait else Renewing))
  | Renewing =>
      with_tm (set_refresh_time 0) ;;;
      token <- _fetch ;;
      match token with
      | inr token => _record_token token ;;; ret (mk_refresher (Idle RETRY_SECONDS) (naps r) (waited r) (S (renewals r)))
      | inl _ =>
          _forget_failed_request ;;;
          stop <- _wait (naps r) ;;
          ret (mk_refresher (if stop : bool then Ended else Renewing) (S (naps r)) (waited r + RETRY_SECONDS) (S (renewals r)))
      end
  | Ended => ret r
  end.

Fixpoint turns (n : nat) (r : Refresher) : Iam Refresher :=
  match n with O => ret r | S n => r <- turn r ;; turns n r end.
Definition refresh_loop_start : Refresher := mk_refresher (Idle 0) 0 0 0.
End provider.

(** ** [FunctionsOperatorClient] *)

Definition _TRANSIENT_CLIENT_ERRORS : list Z := [401; 403; 408; 429].

Section client.
Context {B : Type} (sdk_get_token : TokenManager -> B -> (IamError + string) * TokenManager * B).
Context (clock : nat -> Z) (thread_start : option exn) (settings : AuthSettings).
(** [requests.put]: the URL, the token and the body; [None] is an exception of [requests]. *)
Context {Body : Type} (crn_of : Body -> option string) (put : string -> string -> Body -> B -> option Z * B).

Definition put_function (function_id : string) (body : Body) : M (IamTokenProvider B) unit :=
  if negb (truthy (crn_of body)) then
    raise (mk_exn RuntimeApiError ("function_id=" +:+ function_id +:+ " has no crn, the region cannot be chosen"))
  else
    let base_url := regional_base_url (RUNTIME_API_BASE_URL settings) (crn_of body) (RUNTIME_API_DEFAULT_REGION settings) in
    token <- get_token sdk_get_token clock thread_start ;;
    response <- (fun s => let '(r, b) := put (base_url +:+ "/api/v1/functions/" +:+ function_id) token body (iam s) in
                          (Ok r, mk_provider_ (token_manager s) b (readings s) (wake s) (stopped s) (seen_token s) (ttl s) (pid s) (refresher s))) ;;
    match response with
    | None => raise (mk_exn RetryableError "Error connecting to the Runtime API")
    | Some status =>
        if bool_decide (status ∈ [200; 202]) then ret tt
        else
          let transient := (500 <=? status) || bool_decide (status ∈ _TRANSIENT_CLIENT_ERRORS) in
          (if status =? 401 then invalidate token else ret tt) ;;;
          let message := "Unexpected status " +:+ pretty status +:+ " for function " +:+ function_id in
          raise (mk_exn (if transient then RetryableError else RuntimeApiError) message)
    end.
End client.

(** ** Correctness *)

Section props.
Context {B : Type} (sdk_get_token : TokenManager -> B -> (IamError + string) * TokenManager * B).
Context (clock : nat -> Z) (thread_start : option exn) (others : nat -> IamTokenProvider B -> IamTokenProvider B).
Implicit Type s : IamTokenProvider B.

(** A token is renewed in the second half of its life, at the latest when it expires, and with ten minutes left if it lives
    twice as long. *)
Lemma refresh_deadline_bounds s : 0 < expire_time (token_manager s) -> 0 <= ttl s ->
  exists deadline, _refresh_deadline clock s = (Ok deadline, s)
    /\ expire_time (token_manager s) - ttl s / 2 <= deadline <= expire_time (token_manager s)
    /\ (2 * REFRESH_MIN_SECONDS <= ttl s -> deadline <= expire_time (token_manager s) - REFRESH_MIN_SECONDS).
Proof.
  intros He Ht. unfold _refresh_deadline, bind, gets, ret. rewrite (proj2 (Z.leb_gt _ _)) by done.
  eexists. split; [reflexivity|]. unfold refresh_fraction, REFRESH_MIN_SECONDS. split; [|intros H].
  - assert (0 <= ttl s / 2) by (apply Z.div_pos; lia). lia.
  - assert (600000000 <= ttl s / 2) by (apply Z.div_le_lower_bound; lia). lia.
Qed.

(** ** How often the refresher asks *)

(** Each request but the first was paid for with thirty seconds of waiting. *)
Definition paced (r : Refresher) : Prop :=
  match stage r with
  | Idle min_wait => 0 <= min_wait <= RETRY_SECONDS /\ Z.of_nat (renewals r) * RETRY_SECONDS <= waited r + min_wait
  | Renewing => Z.of_nat (renewals r) * RETRY_SECONDS <= waited r
  | Ended => Z.of_nat (renewals r) * RETRY_SECONDS <= waited r
  end.

Lemma turn_paced r s : paced r -> wp (turn sdk_get_token clock others r) (fun r' _ => paced r') (fun _ _ => False) s.
Proof.
  unfold paced, turn. destruct (stage r) as [min_wait| |] eqn:Hst.
  - intros [H0 Hp]. apply wp_bind.
    assert (forall A (m : M (IamTokenProvider B) A) Q s0, (forall s1, exists x s2, m s1 = (Ok x, s2)) -> (forall x s1, Q x s1) -> wp m Q (fun _ _ => False) s0) as Hany.
    { intros A m Q s0 Hm HQ. unfold wp. destruct (Hm s0) as (x & s2 & ->). apply HQ. }
    assert (forall s1, exists x s2, _refresh_deadline clock s1 = (Ok x, s2)) as Hd.
    { intros s1. unfold _refresh_deadline, bind, gets, ret, _clock. destruct (_ <=? 0); eauto. }
    assert (forall n s1, exists x s2, _wait others n s1 = (Ok x, s2)) as Hw by (intros n s1; unfold _wait, set_wake, bind, gets, modify; eauto).
    apply Hany; [done|]. intros deadline s1. apply wp_bind. apply Hany; [unfold _clock; eauto|]. intros t s2. apply wp_bind.
    apply Hany; [done|]. intros stop s3. destruct stop; [unfold wp, ret; cbn; lia|].
    apply wp_bind, Hany; [unfold _clock; eauto|]. intros t' s4. apply wp_bind, Hany; [done|]. intros deadline' s5.
    unfold wp, ret. cbn. destruct (t' <? deadline'); lia.
  - intros Hp. unfold wp, bind, with_tm, modify, _fetch. destruct (sdk_get_token _ _) as [[[e|token] m] b].
    + unfold _forget_failed_request, _wait, set_wake, with_tm, modify, gets, ret. cbn. destruct (stopped _); cbn [stage renewals waited];
        rewrite Nat2Z.inj_succ; unfold RETRY_SECONDS in *; lia.
    + destruct (_record_token clock token _) as [[x|e] s1] eqn:Hr.
      * unfold ret. cbn [stage renewals waited]. rewrite Nat2Z.inj_succ. unfold RETRY_SECONDS in *. lia.
      * exfalso. revert Hr. unfold _record_token, bind, gets, ret, _clock, set_seen, modify. cbn. destruct (expire_time m <=? 0); [done|]. by destruct (bool_decide _).
  - intros Hp. unfold wp, ret. by rewrite Hst.
Qed.

Lemma turns_paced n r s : paced r -> wp (turns sdk_get_token clock others n r) (fun r' _ => paced r') (fun _ _ => False) s.
Proof.
  revert r s. induction n as [|n IH]; intros r s Hp; [exact Hp|]. cbn [turns]. apply wp_bind.
  eapply wp_mono; [by apply turn_paced| |done]. intros r' s' H. by apply IH.
Qed.

(** the refresher never ends on an exception, and of the requests it makes all but the first were
    preceded by a wait of thirty seconds it asked for, whatever IAM answers, whatever the lifetimes it gives, even of
    tokens that arrive expired, and whatever other threads do meanwhile: it never loops tightly on IAM. *)
Theorem refresher_paced n s :
  exists r s', turns sdk_get_token clock others n refresh_loop_start s = (Ok r, s')
    /\ Z.of_nat (renewals r) * RETRY_SECONDS <= waited r + RETRY_SECONDS.
Proof.
  pose proof (turns_paced n refresh_loop_start s) as H. unfold wp in H.
  destruct (turns _ _ _ n refresh_loop_start s) as [[r|e] s'].
  2:{ exfalso. by apply H. }
  exists r, s'. split; [done|]. assert (paced r) as Hp by by apply H.
  unfold paced in Hp. destruct (stage r); unfold RETRY_SECONDS in *; lia.
Qed.

(** ** A token that was dropped *)

(** Nothing but the refresher would get a token: callers ask for none, and nobody stops it. *)
Definition nobody_asks : Prop := forall n s,
  expire_time (token_manager s) <= 0 -> stopped s = false ->
  expire_time (token_manager (others n s)) <= 0 /\ stopped (others n s) = false.

Lemma turn_dropped min_wait n0 w0 k0 s :
  (forall n, clock n < clock (S n)) -> nobody_asks -> 0 <= min_wait ->
  expire_time (token_manager s) <= 0 -> stopped s = false ->
  wp (turn sdk_get_token clock others (mk_refresher (Idle min_wait) n0 w0 k0))
    (fun r s' => r = mk_refresher (Idle min_wait) (S n0) (w0 + min_wait) k0
       /\ expire_time (token_manager s') <= 0 /\ stopped s' = false) (fun _ _ => False) s.
Proof.
  intros Hclock Hnone Hmin He Hs. unfold turn. cbn [stage naps waited renewals].
  assert (forall s1, expire_time (token_manager s1) <= 0 -> _refresh_deadline clock s1 = _clock clock s1) as Hd.
  { intros s1 H1. unfold _refresh_deadline, bind, gets. by rewrite (proj2 (Z.leb_le _ _)). }
  unfold wp, bind. rewrite (Hd s He). unfold _clock at 1 2. cbn [readings token_manager].
  set (s1 := mk_provider_ _ _ _ _ _ _ _ _ _). pose proof (Hnone n0 s1 He Hs) as [He1 Hs1].
  unfold _wait, set_wake, bind, gets, modify. cbn [stopped]. rewrite Hs1. unfold _clock at 1. rewrite Hd by exact He1.
  unfold _clock, ret. cbn [readings]. rewrite (proj2 (Z.ltb_lt _ _)) by apply Hclock.
  split; [|done]. f_equal. pose proof (Hclock (readings s)). lia.
Qed.

(** once a token was invalidated, the refresher does not renew it, however long it runs, unless the clock stands still between
    two readings: it compares the time with a deadline that is a later reading of the same clock. Before its
    first renewal it does not even wait between the readings. *)
Theorem invalidated_is_not_renewed n min_wait n0 w0 k0 s :
  (forall n, clock n < clock (S n)) -> nobody_asks -> 0 <= min_wait ->
  expire_time (token_manager s) <= 0 -> stopped s = false ->
  exists s', turns sdk_get_token clock others n (mk_refresher (Idle min_wait) n0 w0 k0) s
    = (Ok (mk_refresher (Idle min_wait) (n0 + n) (w0 + Z.of_nat n * min_wait) k0), s').
Proof.
  intros Hclock Hnone Hmin. revert n0 w0 s. induction n as [|n IH]; intros n0 w0 s He Hs; cbn [turns].
  { exists s. unfold ret. by rewrite Nat.add_0_r, Z.add_0_r. }
  pose proof (turn_dropped min_wait n0 w0 k0 s Hclock Hnone Hmin He Hs) as H. unfold wp in H. unfold bind.
  destruct (turn _ _ _ _ s) as [[r|e] s1]; [|done]. destruct H as (-> & He1 & Hs1).
  destruct (IH (S n0) (w0 + min_wait) s1 He1 Hs1) as [s' ->]. exists s'. do 3 f_equal; lia.
Qed.

End props.

(** ** Sending a workload *)

Section client_props.
Context {B : Type} (sdk_get_token : TokenManager -> B -> (IamError + string) * TokenManager * B).
Context (clock : nat -> Z) (thread_start : option exn) (settings : AuthSettings).
Context {Body : Type} (crn_of : Body -> option string) (put : string -> string -> Body -> B -> option Z * B).
Implicit Type s : IamTokenProvider B.

Definition permanent_status (status : Z) : Prop := status < 500 /\ status ∉ _TRANSIENT_CLIENT_ERRORS /\ status ∉ [200; 202].

Lemma invalidate_spec token s :
  let s' := (invalidate token s).2 in
  (invalidate token s).1 = Ok tt
  /\ (access_token (token_manager s) = Some token -> expire_time (token_manager s') = 0 /\ wake s' = true)
  /\ (access_token (token_manager s) <> Some token -> s' = s).
Proof.
  cbn zeta. unfold invalidate, bind, gets, ret, with_tm, set_wake, modify. case_bool_decide as H; cbn; naive_solver.
Qed.

(** Recording a token and starting the thread leave the SDK alone. *)
Lemma record_same token s : exists x s', _record_token clock token s = (Ok x, s') /\ iam s' = iam s /\ token_manager s' = token_manager s.
Proof.
  unfold _record_token, bind, gets, ret, _clock, set_seen, modify. destruct (expire_time (token_manager s) <=? 0); [by eexists _, _|].
  case_bool_decide; by eexists _, _.
Qed.
Lemma ensure_same s : exists o s', _ensure_refresher thread_start s = (o, s') /\ iam s' = iam s /\ token_manager s' = token_manager s.
Proof.
  unfold _ensure_refresher, bind, gets, ret, raise, set_wake, set_refresher, modify. destruct (_refresher_alive s); [by eexists _, _|].
  destruct (stopped s); [by eexists _, _|]. destruct (refresher s) as [[p alive]|]; [destruct (bool_decide (p = pid s))|]; destruct thread_start; by eexists _, _.
Qed.

(** Nothing but the answers of the SDK and of the API decides how a call ends. *)
Inductive Verdict := Sent | Permanent | Transient.
Definition verdict_error (v : Verdict) : option exn_type :=
  match v with Sent => None | Permanent => Some RuntimeApiError | Transient => Some RetryableError end.
Definition iam_verdict (error : IamError) : Verdict :=
  match error with IamApiException (Some status) => if bool_decide (status ∈ _KEY_REJECTED) then Permanent else Transient | _ => Transient end.
Definition api_verdict (response : option Z) : Verdict :=
  match response with
  | None => Transient
  | Some status =>
      if bool_decide (status ∈ [200; 202]) then Sent
      else if (500 <=? status) || bool_decide (status ∈ _TRANSIENT_CLIENT_ERRORS) then Transient else Permanent
  end.
Definition function_url (function_id : string) (body : Body) : string :=
  regional_base_url (RUNTIME_API_BASE_URL settings) (crn_of body) (RUNTIME_API_DEFAULT_REGION settings) +:+ "/api/v1/functions/" +:+ function_id.

(** a workload counts as sent only when the API answered 200 or 202. Otherwise the error says whether to try again:
    it is permanent for a body without an instance, a key that IAM rejected, or a refusal that is not on the list of
    transient ones, and transient for everything else, the failures of the background thread never among them; a
    request of IAM that failed does not hold up the next, and after a 401 the refused token is dropped. *)
Theorem put_function_answers function_id body s :
  let '(o, s') := put_function sdk_get_token clock thread_start settings crn_of put function_id body s in
  let error := match o with Ok _ => None | Raise e => Some (exn_class e) end in
  if truthy (crn_of body) then
    let '(token, _, b) := sdk_get_token (token_manager s) (iam s) in
    match token with
    | inl e => error = verdict_error (iam_verdict e) /\ request_time (token_manager s') = 0
    | inr token =>
        let response := (put (function_url function_id body) token body b).1 in
        error = verdict_error (api_verdict response)
        /\ (response = Some 401 -> access_token (token_manager s') = Some token -> expire_time (token_manager s') = 0)
    end
  else error = verdict_error Permanent /\ s' = s.
Proof.
  unfold put_function. destruct (truthy (crn_of body)) eqn:Hc; cbn [negb]; [|done].
  fold (function_url function_id body). unfold bind at 1. unfold get_token, bind at 1, _fetch.
  destruct (sdk_get_token (token_manager s) (iam s)) as [[[e|token] m] b].
  - unfold _forget_failed_request, with_tm, modify, raise, bind. destruct e as [[status|]|]; [|done..].
    unfold iam_verdict. by case_bool_decide.
  - set (recorded := try_except _ _). unfold bind at 1.
    assert (forall s1, exists s2, recorded s1 = (Ok tt, s2) /\ iam s2 = iam s1 /\ token_manager s2 = token_manager s1) as Hrec.
    { intros s1. unfold recorded, try_except, bind at 1. destruct (record_same token s1) as (x & s2 & -> & Hi2 & Hm2).
      destruct x; [|by eexists]. destruct (ensure_same s2) as (o & s3 & -> & Hi3 & Hm3).
      destruct o as [[]|e]; eexists; (split; [reflexivity|]); split; congruence. }
    destruct (Hrec (mk_provider_ m b (readings s) (wake s) (stopped s) (seen_token s) (ttl s) (pid s) (refresher s))) as (s2 & -> & Hb & Hm).
    cbn [iam token_manager] in Hb, Hm. unfold ret at 1. unfold bind at 1. rewrite Hb.
    destruct (put (function_url function_id body) token body b) as [[status|] b']; cbn [fst]; [|done].
    unfold api_verdict. destruct (bool_decide (status ∈ [200; 202])) eqn:Hok.
    { split; [done|]. intros [= ->]. by vm_compute in Hok. }
    set (s3 := mk_provider_ _ _ _ _ _ _ _ _ _). unfold bind at 1. destruct (status =? 401) eqn:H401.
    + destruct (invalidate_spec token s3) as (Hi & Hcur & Hother). destruct (invalidate token s3) as [o s4]; cbn [fst snd] in *. subst o. unfold raise. split; [by destruct (_ || _)|].
      intros _ Hacc. destruct (decide (access_token (token_manager s3) = Some token)) as [E|E]; [by apply Hcur|]. rewrite (Hother E) in Hacc. done.
    + unfold ret, raise. split; [by destruct (_ || _)|]. intros [= ->]. done.
Qed.
End client_props.

(** ** Small runs *)

Module iam_small.
(** Answers in advance: a token and when it expires. *)
Definition sdk (m : TokenManager) (b : list (string * Z)) : (IamError + string) * TokenManager * list (string * Z) :=
  match b with
  | [] => (inl IamOther, set_request_time 1 m, [])
  | (token, expires) :: b => (inr token, mk_token_manager (Some token) expires 0 0, b)
  end.
Definition ticking (n : nat) : Z := Z.of_nat n.
Definition standing (n : nat) : Z := 5.
Definition alone (n : nat) (s : IamTokenProvider (list (string * Z))) : IamTokenProvider (list (string * Z)) := s.
(** A token of an hour that the API has refused. *)
Definition start : IamTokenProvider (list (string * Z)) :=
  mk_provider_ (mk_token_manager (Some "old") 3600000000 0 0) [("new", 7200000000)] 0 false false (Some "old") 3600000000 1 (Some (1%nat, true)).
Definition refused : IamTokenProvider (list (string * Z)) := (invalidate "old" start).2.
Definition renewed (clock : nat -> Z) (n : nat) : option (nat * Z) :=
  match (turns sdk clock alone n refresh_loop_start refused).1 with Ok r => Some (renewals r, waited r) | Raise _ => None end.
End iam_small.

(** A clock that ticks: a hundred turns without a wait, and no renewal. A clock that stands still, as in a test: renewed at once. *)
Example refused_token : iam_small.renewed iam_small.ticking 100 = Some (0%nat, 0) /\ iam_small.renewed iam_small.standing 2 = Some (1%nat, 0).
Proof. by vm_compute. Qed.

Lemma invalidated_is_not_renewed_witness :
  exists s', turns iam_small.sdk iam_small.ticking iam_small.alone 100 (mk_refresher (Idle RETRY_SECONDS) 0 0 1) iam_small.refused
    = (Ok (mk_refresher (Idle RETRY_SECONDS) (0 + 100) (0 + Z.of_nat 100 * RETRY_SECONDS) 1), s').
Proof.
  apply (invalidated_is_not_renewed iam_small.sdk iam_small.ticking iam_small.alone 100 RETRY_SECONDS 0 0 1 iam_small.refused).
  - intros n. unfold iam_small.ticking. lia.
  - by intros n s.
  - done.
  - done.
  - done.
Defined.

(** A token that arrives expired is not asked for in a loop: one request in each thirty seconds waited. *)
Example expired_on_arrival :
  let sdk (m : TokenManager) (b : unit) := (inr "t", mk_token_manager (Some "t") 1 0 0, tt) in
  let s := mk_provider_ (mk_token_manager (Some "t") 1 0 0) tt 0 false false (Some "t") 0 1 None in
  match (turns sdk (fun _ => 5) (fun _ s => s) 20 refresh_loop_start s).1 with Ok r => (renewals r, waited r) | Raise _ => (0%nat, 0) end = (10%nat, 270000000).
Proof. by vm_compute. Qed.
