(* ===== verification/ClientJob.v ===== *)
(** * The Python client: following a job

    [client/qiskit_serverless/core/job.py]: the status of a job and the wait for its end;
    [core/clients/serverless_client.py]: [get_job_data], which reads it with the token of
    [Endpoints]; [utils/json.py] and [utils/errors.py]: what a request that failed is and whether to try
    it again. Times are microseconds; what the server answers, how long a request takes and the jitter of a wait are
    parameters. *)

From S2P Require Import Prelude PyStr Domain Models Json JobUseCases.

Local Open Scope string_scope.
Local Open Scope list_scope.
Local Open Scope Z_scope.

(** ** Requests and errors *)

Inductive Code := Http (status : Z) | Named (code : string).
#[export] Instance Code_eq_dec : EqDecision Code.
Proof. solve_decision. Defined.

Definition TRANSIENT_ERROR_CODES : list Code := [Named "CONN1001"; Named "EMPTY1001"; Http 429; Http 502; Http 503; Http 504].
Definition _TOKEN_REFUSED_CODES : list Code := [Http 401; Http 403; Http 404].

(** [QiskitServerlessException] with its code, and any other exception. *)
Inductive Failure := ServerlessError (code : Code) | OtherError (e : exn).
Definition is_transient_error (f : Failure) : bool :=
  match f with ServerlessError code => bool_decide (code ∈ TRANSIENT_ERROR_CODES) | OtherError _ => false end.

(** How a request ends: [a_json] is the body read as JSON, [a_token] the header [X-Job-Status-Token]. *)
Record HttpAnswer := mk_answer { a_ok : bool; a_status : Z; a_text : string; a_json : option Json; a_token : option string }.
Inductive Requested := Unconnected | Unrequested | Answered (a : HttpAnswer).

Definition safe_json_request (r : Requested) : Failure + Json :=
  match r with
  | Unconnected => inl (ServerlessError (Named "CONN1001"))
  | Unrequested => inl (ServerlessError (Named "AUTH1001"))
  | Answered a =>
      match a_json a with
      | None =>
          if negb (a_ok a) then inl (ServerlessError (Http (a_status a)))
          else if bool_decide (strip (a_text a) = "") then inl (ServerlessError (Named "EMPTY1001"))
          else inl (ServerlessError (Named "JSON1001"))
      | Some data =>
          if negb (a_ok a) then
            match data with
            | JObj _ => inl (ServerlessError (Http (a_status a)))
            | _ => inl (OtherError (mk_exn AttributeError "object has no attribute 'values'"))
            end
          else inr data
      end
  end.
Definition safe_json_request_as_dict (r : Requested) : Failure + list (string * Json) :=
  match safe_json_request r with
  | inl f => inl f
  | inr (JObj m) => inr m
  | inr _ => inl (OtherError (mk_exn TypeError "JSON is not a Dict"))
  end.

Definition safe_json_request_as_list (r : Requested) : Failure + list Json :=
  match safe_json_request r with
  | inl f => inl f
  | inr (JArr l) => inr l
  | inr _ => inl (OtherError (mk_exn TypeError "JSON is not a List"))
  end.

(** ** Statuses *)

Definition STATUS_MAP : list (string * string) :=
  [("PENDING", "INITIALIZING"); ("RUNNING", "RUNNING"); ("STOPPING", "CANCELING"); ("STOPPED", "CANCELED"); ("SUCCEEDED", "DONE");
   ("FAILED", "ERROR"); ("QUEUED", "QUEUED"); ("MAPPING", "RUNNING: MAPPING"); ("OPTIMIZING_HARDWARE", "RUNNING: OPTIMIZING_FOR_HARDWARE");
   ("WAITING_QPU", "RUNNING: WAITING_FOR_QPU"); ("EXECUTING_QPU", "RUNNING: EXECUTING_QPU"); ("POST_PROCESSING", "RUNNING: POST_PROCESSING")].
Definition INVERSE_STATUS_MAP : list (string * string) := map (fun kv => (kv.2, kv.1)) STATUS_MAP.
Definition _FINAL_STATUSES : list string := ["CANCELED"; "DONE"; "ERROR"].

(** A status that is [null] or missing is [None], which the maps leave as it is. *)
Definition _map_status_from_serveless (status : option string) : option string :=
  match status with Some s => Some (default s (d_get s STATUS_MAP)) | None => None end.
Definition _map_status_to_serverless (status : option string) : option string * option string :=
  match status with
  | None => (None, None)
  | Some s =>
      match d_get s INVERSE_STATUS_MAP with
      | None => (status, None)
      | Some translation => if startswith "RUNNING:" s then (Some "RUNNING", Some translation) else (Some translation, None)
      end
  end.

Definition _resets_backoff (previous status : option string) : bool :=
  bool_decide (status = Some "RUNNING: POST_PROCESSING")
  || negb (bool_decide ((_map_status_to_serverless previous).1 = (_map_status_to_serverless status).1)).
Definition is_final (status : option string) : bool :=
  match status with Some s => bool_decide (s ∈ _FINAL_STATUSES) | None => false end.

(** ** The wait before the next check *)

Definition _BACKOFF_SECONDS : list Z := [1000000; 2000000; 4000000; 8000000; 16000000; 32000000; 60000000].
Definition _RETRY_SECONDS : Z := 300000000.
Definition _MIN_POLL_INTERVAL_SECONDS : Z := 1000000.

(** [random.uniform(0.9, 1.1)] in thousandths. *)
Definition _next_wait (jitter : Z) (step : nat) (deadline poll_interval : option Z) (now : Z) : Z :=
  let wait :=
    match poll_interval with
    | Some p => Z.max p _MIN_POLL_INTERVAL_SECONDS
    | None => nth (Nat.min step (length _BACKOFF_SECONDS - 1)) _BACKOFF_SECONDS 0 * jitter / 1000
    end in
  match deadline with Some d => Z.min wait (Z.max (d - now) 0) | None => wait end.

(** ** The client *)

Definition _STATUS_TOKEN_REUSE_SECONDS : Z := 270000000.

(** [data.get(key)], a text or [None]: the gateway sends nothing else under these keys. *)
Definition text_of (j : Json) : option string := match j with JStr s => Some s | _ => None end.
Definition get_text (key : string) (data : list (string * Json)) : option string := d_get key data ≫= text_of.

Record Client := mk_client {
  clock : Z;                              (* [time.monotonic()] *)
  sent : nat;                             (* requests so far *)
  token : option (string * Z);            (* the status token of the job, and when it came *)
  final_status : option string
}.

Section client.
(** The n-th request: for the status, with a token, and for the job, with the API key; how long it takes. *)
Context (get_status : nat -> string -> Requested) (get_job : nat -> Requested).
Context (took : nat -> Z) (jitter : nat -> Z).

(** Time passes while a request is under way. *)
Definition request {A} (answer : nat -> A) (c : Client) : A * Client :=
  (answer (sent c), mk_client (clock c + took (sent c)) (S (sent c)) (token c) (final_status c)).
Definition set_token (t : option (string * Z)) (c : Client) : Client := mk_client (clock c) (sent c) t (final_status c).
Definition header (r : Requested) : option string := match r with Answered a => a_token a | _ => None end.

(** [None] for an empty object. *)
Definition with_api_key (c : Client) : (Failure + option (list (string * Json))) * Client :=
  let '(response, c) := request get_job c in
  match safe_json_request_as_dict response with
  | inl f => (inl f, c)
  | inr data =>
      (inr (match data with [] => None | _ => Some data end),
       set_token (if truthy (header response) then (fun t => (t, clock c)) <$> header response else None) c)
  end.

Definition get_job_data (c : Client) : (Failure + option (list (string * Json))) * Client :=
  match token c with
  | Some (t, at_) =>
      if clock c - at_ <? _STATUS_TOKEN_REUSE_SECONDS then
        let '(response, c) := request (fun n => get_status n t) c in
        match safe_json_request_as_dict response with
        | inr data => (inr (Some data), c)
        | inl (ServerlessError code) =>
            if bool_decide (code ∈ _TOKEN_REFUSED_CODES) then with_api_key (set_token None c) else (inl (ServerlessError code), c)
        | inl f => (inl f, c)
        end
      else with_api_key c
  | None => with_api_key c
  end.

(** [ServerlessClient.status]. *)
Definition service_status (c : Client) : (Failure + option string) * Client :=
  let '(response, c) := request get_job c in
  match safe_json_request_as_dict response with
  | inl f => (inl f, c)
  | inr data =>
      let status := match d_get "status" data with Some j => text_of j | None => Some "Unknown" end in
      let sub_status := get_text "sub_status" data in
      (inr (if bool_decide (status = Some "RUNNING") && bool_decide (is_Some sub_status) then sub_status else status), c)
  end.

Definition _fetch_status (c : Client) : (Failure + option string) * Client :=
  let '(fresh_data, c) := get_job_data c in
  match fresh_data with
  | inl f => (inl f, c)
  | inr (Some data) =>
      let raw_status := get_text "status" data in
      let sub_status := get_text "sub_status" data in
      (inr (_map_status_from_serveless
              (if bool_decide (raw_status = Some "RUNNING") && bool_decide (is_Some sub_status) then sub_status else raw_status)), c)
  | inr None =>
      let '(r, c) := service_status c in
      (match r with inl f => inl f | inr s => inr (_map_status_from_serveless s) end, c)
  end.

Definition status (c : Client) : (Failure + option string) * Client :=
  match final_status c with
  | Some s => (inr (Some s), c)
  | None =>
      let '(r, c) := _fetch_status c in
      match r with
      | inl f => (inl f, c)
      | inr s => (inr s, if is_final s then mk_client (clock c) (sent c) (token c) s else c)
      end
  end.

(** ** [wait_for_final_state] *)

(** The n-th request for the error events of the job, and for its result. *)
Context (get_events get_result : nat -> Requested).

(** [error_message], whose exceptions are all caught: what it asks. Whether the events it gets can be formatted
    or not, it asks nothing more. *)
Definition _print_error_message (c : Client) : Client :=
  let '(r, c) := status c in
  match r with
  | inr (Some "ERROR") =>
      let '(response, c) := request get_events c in
      match safe_json_request_as_list response with
      | inr [] =>
          let '(r, c) := status c in
          match r with inr (Some "ERROR") => (request get_result c).2 | _ => c end
      | _ => c
      end
  | _ => c
  end.

Record Waiting := mk_waiting { client : Client; last_status : option string; failing_since : option Z; step : nat; sleeps : nat }.
Inductive WaitError := TimeoutError (status : option string) | StatusFailed (f : Failure).
Inductive Turn := Goes (w : Waiting) | Ends (r : WaitError + option string) (c : Client).

Definition sleep (t : Z) (c : Client) : Client := mk_client (clock c + t) (sent c) (token c) (final_status c).

Section wait.
Context (deadline poll_interval : option Z) (verbose : bool).

Definition wait_turn (w : Waiting) : Turn :=
  let '(r, c) := status (client w) in
  match r with
  | inl f =>
      match f with
      | OtherError _ => Ends (inl (StatusFailed f)) c
      | ServerlessError _ =>
          let since := default (clock c) (failing_since w) in
          let gives_up := default (since + _RETRY_SECONDS) deadline in
          if negb (is_transient_error f) || (gives_up <=? clock c) then Ends (inl (StatusFailed f)) c
          else Goes (mk_waiting (sleep (_next_wait (jitter (sleeps w)) (step w) (Some gives_up) poll_interval (clock c)) c)
                       (last_status w) (Some since) (S (step w)) (S (sleeps w)))
      end
  | inr s =>
      let step := if negb (bool_decide (s = last_status w)) && bool_decide (is_Some (last_status w)) && _resets_backoff (last_status w) s
                  then O else step w in
      if is_final s then Ends (inr s) (if verbose && bool_decide (s = Some "ERROR") then _print_error_message c else c)
      else
        match deadline with
        | Some d => if d <=? clock c then Ends (inl (TimeoutError s)) c
                    else Goes (mk_waiting (sleep (_next_wait (jitter (sleeps w)) step deadline poll_interval (clock c)) c) s None (S step) (S (sleeps w)))
        | None => Goes (mk_waiting (sleep (_next_wait (jitter (sleeps w)) step deadline poll_interval (clock c)) c) s None (S step) (S (sleeps w)))
        end
  end.

(** The [while True], for so many turns. *)
Fixpoint wait_loop (fuel : nat) (w : Waiting) : option ((WaitError + option string) * Client) :=
  match fuel with
  | O => None
  | S fuel => match wait_turn w with Ends r c => Some (r, c) | Goes w => wait_loop fuel w end
  end.
End wait.

Definition wait_for_final_state (fuel : nat) (timeout poll_interval : option Z) (verbose : bool) (c : Client) : option ((WaitError + option string) * Client) :=
  wait_loop ((fun t => clock c + t) <$> timeout) poll_interval verbose fuel (mk_waiting c None None 0 0).
End client.

(** ** Correctness *)

(** What the client shows of a row of the gateway, read from the body of its answer, and reads back. *)
Definition sub_status_str (s : SubStatus) : string :=
  match s with
  | MAPPING => "MAPPING" | OPTIMIZING_HARDWARE => "OPTIMIZING_HARDWARE" | WAITING_QPU => "WAITING_QPU"
  | EXECUTING_QPU => "EXECUTING_QPU" | POST_PROCESSING => "POST_PROCESSING"
  end.
Definition row_data (st : JobStatus) (sub : option SubStatus) : list (string * Json) :=
  [("status", JStr (status_str st)); ("sub_status", match sub with Some s => JStr (sub_status_str s) | None => JNull end)].
Definition row_answer (st : JobStatus) (sub : option SubStatus) : Requested := Answered (mk_answer true 200 "" (Some (JObj (row_data st sub))) None).

Section correctness.
Context (get_status : nat -> string -> Requested) (get_job : nat -> Requested) (took jitter : nat -> Z).
Context (get_events get_result : nat -> Requested).
(** A request takes at most [limit]; the jitter is ten percent. *)
Context (limit : Z) (took_bounds : forall n, 0 <= took n <= limit) (jitter_bounds : forall n, 900 <= jitter n <= 1100).

Abbreviation a_check := (status get_status get_job took).
Abbreviation a_turn := (wait_turn get_status get_job took jitter get_events get_result).
Abbreviation a_loop := (wait_loop get_status get_job took jitter get_events get_result).
Abbreviation a_wait := (wait_for_final_state get_status get_job took jitter get_events get_result).

Lemma request_time {A} (answer : nat -> A) c : clock c <= clock (request took answer c).2 <= clock c + limit.
Proof. cbn. pose proof (took_bounds (sent c)). lia. Qed.

Lemma api_key_time c : clock c <= clock (with_api_key get_job took c).2 <= clock c + limit.
Proof. pose proof (request_time get_job c) as H. unfold with_api_key. cbn in *. by destruct (safe_json_request_as_dict _). Qed.

Lemma service_time c : clock c <= clock (service_status get_job took c).2 <= clock c + limit.
Proof. pose proof (request_time get_job c) as H. unfold service_status. cbn in *. by destruct (safe_json_request_as_dict _). Qed.

Lemma job_data_time c : clock c <= clock (get_job_data get_status get_job took c).2 <= clock c + 2 * limit.
Proof.
  pose proof (took_bounds 0) as H0. pose proof (api_key_time c) as Hk. unfold get_job_data. destruct (token c) as [[t at_]|]; [|lia].
  destruct (_ <? _); [|lia]. pose proof (request_time (fun n => get_status n t) c) as H.
  destruct (request took (fun n => get_status n t) c) as [response c1]; cbn [snd] in H.
  pose proof (api_key_time (set_token None c1)) as Hk1. cbn [clock set_token] in Hk1.
  destruct (safe_json_request_as_dict _) as [[code|e]|data]; cbn [snd]; [|lia|lia].
  case_bool_decide; cbn [snd]; lia.
Qed.

(** A check makes three requests at most: with the token, with the API key, and of the service. *)
Lemma check_time c : clock c <= clock (a_check c).2 <= clock c + 3 * limit.
Proof.
  pose proof (took_bounds 0) as H0. unfold status. destruct (final_status c) as [s|]; cbn [snd]; [lia|]. unfold _fetch_status.
  pose proof (job_data_time c) as H. destruct (get_job_data _ _ _ c) as [[f|[data|]] c1]; cbn [snd] in *; [lia| |].
  - destruct (is_final _); cbn [snd clock]; lia.
  - pose proof (service_time c1) as Hs. destruct (service_status _ _ c1) as [[f|s] c2]; cbn [snd] in *; [lia|].
    destruct (is_final _); cbn [snd clock]; lia.
Qed.

(** The service takes every status token, and tells the job: the status is never an object without fields. *)
Definition plain : Prop :=
  (forall n t code, safe_json_request_as_dict (get_status n t) = inl (ServerlessError code) -> code ∉ _TOKEN_REFUSED_CODES)
  /\ (forall n, safe_json_request_as_dict (get_job n) <> inr []).

Lemma job_data_plain c : plain -> clock (get_job_data get_status get_job took c).2 <= clock c + limit
  /\ forall c', get_job_data get_status get_job took c <> (inr None, c').
Proof.
  intros [Ht Hj]. assert (forall c, clock (with_api_key get_job took c).2 <= clock c + limit /\ forall c', with_api_key get_job took c <> (inr None, c')) as Hk.
  { intros c1. split; [apply api_key_time|]. intros c'. unfold with_api_key. cbn. pose proof (Hj (sent c1)). by destruct (safe_json_request_as_dict _) as [|[]]. }
  unfold get_job_data. destruct (token c) as [[t at_]|]; [|apply Hk]. destruct (_ <? _); [|apply Hk].
  pose proof (request_time (fun n => get_status n t) c) as [_ H]. cbn [request fst snd] in *.
  destruct (safe_json_request_as_dict (get_status (sent c) t)) as [[code|e]|data] eqn:E; [|by split..].
  rewrite bool_decide_eq_false_2 by (by eapply Ht). by split.
Qed.

Lemma check_plain c : plain -> clock (a_check c).2 <= clock c + limit.
Proof.
  intros Hp. pose proof (took_bounds 0) as H0. unfold status. destruct (final_status c) as [s|]; cbn [snd]; [lia|]. unfold _fetch_status.
  destruct (job_data_plain c Hp) as [H Hn]. destruct (get_job_data _ _ _ c) as [[f|[data|]] c1]; cbn [snd] in *; [done| |by destruct (Hn c1)].
  by destruct (is_final _).
Qed.

(** A final status is remembered: no request is made for it again. *)
Lemma check_final c s c' : a_check c = (inr s, c') -> is_final s = true -> final_status c' = s.
Proof.
  unfold status. destruct (final_status c) as [s0|] eqn:E; [by intros [= <- <-]|]. destruct (_fetch_status _ _ _ c) as [[f|s1] c1]; [done|].
  intros [= <- <-] Hs. by rewrite Hs.
Qed.

(** ** The errors *)

(** Any other exception than [QiskitServerlessException] means JSON that is not an object. *)
Definition not_an_object (r : Requested) (e : exn) : Prop :=
  (exists a data, r = Answered a /\ a_json a = Some data /\ forall m, data <> JObj m) /\ exn_class e ∈ [AttributeError; TypeError].
Definition told_no_object (e : exn) : Prop :=
  (exists n t, not_an_object (get_status n t) e) \/ (exists n, not_an_object (get_job n) e).

Lemma other_error r e : safe_json_request_as_dict r = inl (OtherError e) -> not_an_object r e.
Proof.
  unfold safe_json_request_as_dict, safe_json_request. destruct r as [| |a]; [done..|]. destruct (a_json a) as [data|] eqn:Ej; [|by destruct (negb (a_ok a)); [|destruct (bool_decide _)]].
  destruct (a_ok a), data; cbn; intros [= <-]; (split; [by do 2 eexists|set_solver]).
Qed.

Lemma check_other c e c' : a_check c = (inl (OtherError e), c') -> told_no_object e.
Proof.
  assert (forall c e c', with_api_key get_job took c = (inl (OtherError e), c') -> told_no_object e) as Hk.
  { intros c1 e1 c1'. unfold with_api_key. cbn. destruct (safe_json_request_as_dict _) eqn:E; [|done]. intros [= -> <-]. right. eexists. by apply other_error. }
  assert (forall c e c', get_job_data get_status get_job took c = (inl (OtherError e), c') -> told_no_object e) as Hd.
  { intros c1 e1 c1'. unfold get_job_data. destruct (token c1) as [[t at_]|]; [|apply Hk]. destruct (_ <? _); [|apply Hk]. cbn -[with_api_key].
    destruct (safe_json_request_as_dict _) as [[code|e2]|] eqn:E; [|intros [= <- <-]; left; do 2 eexists; by apply other_error|done].
    case_bool_decide; [apply Hk|done]. }
  unfold status. destruct (final_status c); [done|]. unfold _fetch_status.
  destruct (get_job_data _ _ _ c) as [[f|[data|]] c1] eqn:E; [intros [= -> <-]; by eapply Hd|by repeat case_match|].
  unfold service_status. cbn. destruct (safe_json_request_as_dict _) eqn:E'; [|by repeat case_match]. intros [= -> <-]. right. eexists. by apply other_error.
Qed.

(** What [verbose] asks for at the end. *)
Lemma print_time c : final_status c = Some "ERROR" ->
  clock c <= clock (_print_error_message get_status get_job took get_events get_result c) <= clock c + 2 * limit
  /\ final_status (_print_error_message get_status get_job took get_events get_result c) = Some "ERROR".
Proof.
  intros Hf. unfold _print_error_message, status. rewrite Hf. cbn [request fst snd].
  pose proof (request_time get_events c) as H1. pose proof (took_bounds (S (sent c))) as H2. cbn in H1.
  destruct (safe_json_request_as_list _) as [|[|]]; cbn; rewrite ?Hf; cbn; (split; [lia|done]).
Qed.

(** ** The wait *)

Lemma wait_length jit st poll now d : 900 <= jit -> now < d ->
  let w := _next_wait jit st (Some d) poll now in Z.min 900000 (d - now) <= w <= d - now.
Proof.
  intros Hj Hd. cbn zeta. unfold _next_wait. set (wait := match poll with Some p => _ | None => _ end).
  assert (900000 <= wait) as Hw; [|lia]. unfold wait. destruct poll as [p|]; [unfold _MIN_POLL_INTERVAL_SECONDS; lia|].
  set (k := Nat.min st _). assert (k <= 6)%nat as Hk by (unfold k; cbn; lia). clearbody k.
  assert (1000000 <= nth k _BACKOFF_SECONDS 0) as Hn by (do 7 (destruct k as [|k]; [cbn; lia|]); lia).
  apply Z.div_le_lower_bound; nia.
Qed.

(** How a wait with a deadline may end: the last check begins before it, and makes three requests at most,
    of a plain service one; [verbose] makes two more about an error. *)
Definition is_error (r : WaitError + option string) : bool := match r with inr s => bool_decide (s = Some "ERROR") | inl _ => false end.
Definition in_time (d : Z) (verbose : bool) (r : WaitError + option string) (c : Client) : Prop :=
  let more := if verbose && is_error r then 2 else 0 in
  clock c <= d + (3 + more) * limit /\ (plain -> clock c <= d + (1 + more) * limit).
Definition ends_well (d : Z) (verbose : bool) (r : WaitError + option string) (c : Client) : Prop :=
  in_time d verbose r c
  /\ match r with
     | inr s => is_final s = true /\ final_status c = s
     | inl (TimeoutError s) => is_final s = false /\ d <= clock c
     | inl (StatusFailed f) =>
         (is_transient_error f = true -> d <= clock c)
         /\ match f with ServerlessError _ => True | OtherError e => told_no_object e end
     end.

(** After a check that began in time, whether or not the error is printed. *)
Lemma check_in_time d verbose r c : clock c <= d -> in_time d verbose r (a_check c).2.
Proof.
  intros Hd. pose proof (took_bounds 0). pose proof (check_time c). pose proof (check_plain c) as Hpl.
  unfold in_time. destruct (_ && _); (split; [|intros Hp%Hpl]); lia.
Qed.
Lemma final_in_time d verbose s c c' : clock c <= d -> a_check c = (inr s, c') -> is_final s = true ->
  let c1 := if verbose && bool_decide (s = Some "ERROR") then _print_error_message get_status get_job took get_events get_result c' else c' in
  in_time d verbose (inr s) c1 /\ final_status c1 = s.
Proof.
  intros Hd E Hs c1. pose proof (check_time c) as Ht. pose proof (check_plain c) as Hpl. pose proof (check_final c s c' E Hs) as Hfin.
  rewrite E in *. cbn [snd] in *. unfold in_time, c1, is_error.
  destruct (verbose && _) eqn:Ev; [|split; [split; [lia|intros Hp%Hpl; lia]|done]].
  apply andb_true_iff in Ev as [_ ->%bool_decide_eq_true_1]. destruct (print_time c' Hfin) as [Hp1 ->].
  split; [split; [lia|intros Hp%Hpl; lia]|done].
Qed.

Lemma wait_turn_spec d poll verbose w : clock (client w) <= d ->
  match a_turn (Some d) poll verbose w with
  | Goes w' => Z.min (clock (client w) + 900000) d <= clock (client w') <= d /\ clock (client w) < d
  | Ends r c => ends_well d verbose r c
  end.
Proof.
  intros Hd. pose proof (check_time (client w)) as Ht. pose proof (fun r => check_in_time d verbose r _ Hd) as Htime.
  pose proof (fun s c => final_in_time d verbose s _ c Hd) as Hfin. pose proof (check_other (client w)) as Hoth. unfold wait_turn.
  destruct (a_check (client w)) as [[f|s] c]; cbn [snd] in Ht, Htime.
  - destruct f as [code|e]; cbn beta iota zeta; [|split; [apply Htime|by split; [|eapply Hoth]]].
    unfold from_option, Datatypes.id. destruct (is_transient_error _) eqn:Htr; cbn [negb orb].
    2:{ split; [apply Htime|]. by rewrite Htr. }
    destruct (d <=? clock c) eqn:E; [apply Z.leb_le in E; split; [apply Htime|by split]|]. apply Z.leb_gt in E. cbn [client sleep clock].
    pose proof (wait_length (jitter (sleeps w)) (step w) poll (clock c) d (proj1 (jitter_bounds _)) E) as Hw. cbn zeta in Hw. lia.
  - set (st := if _ && _ && _ then _ else _). clearbody st. cbn beta iota zeta.
    destruct (is_final s) eqn:Hs; [destruct (Hfin s c eq_refl Hs) as [H1 H2]; split; [exact H1|split; [done|exact H2]]|].
    destruct (d <=? clock c) eqn:E; [apply Z.leb_le in E; split; [apply Htime|done]|]. apply Z.leb_gt in E. cbn [client sleep clock].
    pose proof (wait_length (jitter (sleeps w)) st poll (clock c) d (proj1 (jitter_bounds _)) E) as Hw. cbn zeta in Hw. lia.
Qed.

Lemma loop_ends d poll verbose n : forall w, clock (client w) <= d -> d - clock (client w) <= 900000 * Z.of_nat n ->
  exists r c, a_loop (Some d) poll verbose (S n) w = Some (r, c) /\ ends_well d verbose r c.
Proof.
  induction n as [|n IH]; intros w Hd Hn; cbn [wait_loop]; pose proof (wait_turn_spec d poll verbose w Hd) as Ht; destruct (a_turn (Some d) poll verbose w) as [w'|r c]; try (by exists r, c).
  - lia.
  - destruct Ht as [[Hlo Hhi] Hlt]. apply IH; lia.
Qed.

(** Without a timeout: while no check succeeds, the wait is the one with a deadline five minutes after the first failure. *)
Lemma failing_turn deadline poll verbose w f c : a_check (client w) = (inl f, c) ->
  a_turn deadline poll verbose w = a_turn (Some (default (default (clock c) (failing_since w) + _RETRY_SECONDS) deadline)) poll verbose w.
Proof. intros E. unfold wait_turn. rewrite E. by destruct f. Qed.

Lemma failing_loop poll verbose n : (forall c, exists f, (a_check c).1 = inl f) -> forall w since, failing_since w = Some since ->
  a_loop None poll verbose n w = a_loop (Some (since + _RETRY_SECONDS)) poll verbose n w.
Proof.
  intros Hf. induction n as [|n IH]; intros w since Hs; [done|]. cbn [wait_loop].
  destruct (a_check (client w)) as [r c] eqn:E. destruct (Hf (client w)) as [f Hr]. rewrite E in Hr. cbn [fst] in Hr. subst r.
  rewrite (failing_turn None poll verbose w f c E), Hs. cbn [from_option default]. unfold Datatypes.id.
  destruct (a_turn (Some (since + _RETRY_SECONDS)) poll verbose w) as [w'|r c'] eqn:Et; [|done]. apply IH.
  unfold wait_turn in Et. rewrite E, Hs in Et. destruct f; [|done]. cbn [from_option] in Et. by destruct (_ || _); simplify_eq.
Qed.

Lemma loop_turn deadline poll verbose n w : a_loop deadline poll verbose (S n) w = match a_turn deadline poll verbose w with Ends r c => Some (r, c) | Goes w => a_loop deadline poll verbose n w end.
Proof. done. Qed.

Lemma failing_turn_result deadline poll verbose w : (forall c, exists f, (a_check c).1 = inl f) ->
  match a_turn deadline poll verbose w with Goes w' => is_Some (failing_since w') | Ends r c => exists f, r = inl (StatusFailed f) end.
Proof.
  intros Hf. unfold wait_turn. destruct (Hf (client w)) as [f Hr]. destruct (a_check (client w)) as [r c]. cbn [fst] in Hr. subst r.
  destruct f as [code|e]; [|by eexists]. destruct (_ || _); [by eexists|done].
Qed.

Lemma failing_result poll verbose n : (forall c, exists f, (a_check c).1 = inl f) -> forall deadline w r c,
  a_loop deadline poll verbose n w = Some (r, c) -> exists f, r = inl (StatusFailed f).
Proof.
  intros Hf. induction n as [|n IH]; intros deadline w r c; [done|]. cbn [wait_loop]. pose proof (failing_turn_result deadline poll verbose w Hf) as Ht.
  destruct (a_turn deadline poll verbose w) as [w'|r1 c1]; [apply IH|]. by intros [= <- <-].
Qed.

(** The service is down: a wait without a timeout gives up after five minutes. *)
Lemma down_wait_gives_up poll verbose c : (forall c, exists f, (a_check c).1 = inl f) ->
  exists f c', a_wait 336 None poll verbose c = Some (inl (StatusFailed f), c')
    /\ clock c' <= clock c + _RETRY_SECONDS + 6 * limit.
Proof.
  intros Hf. unfold wait_for_final_state. set (w := mk_waiting c None None 0 0). destruct (Hf c) as [f Hr].
  pose proof (check_time c) as Ht. destruct (a_check c) as [r c1] eqn:E. cbn [fst snd] in *. subst r.
  set (d := clock c1 + _RETRY_SECONDS).
  assert (exists r c', a_loop None poll verbose 336 w = Some (r, c') /\ ends_well d verbose r c') as (r & c' & Hl & Hw).
  { rewrite (loop_turn None poll verbose 335 w). assert (a_turn None poll verbose w = a_turn (Some d) poll verbose w) as Et by exact (failing_turn None poll verbose w f c1 E).
    rewrite Et. pose proof (wait_turn_spec d poll verbose w) as Hspec. unfold w in Hspec. cbn [client] in Hspec. fold w in Hspec.
    destruct (a_turn (Some d) poll verbose w) as [w'|r c'] eqn:Eg; [|exists r, c'; split; [done|apply Hspec; unfold d, _RETRY_SECONDS; lia]].
    assert (failing_since w' = Some (clock c1) /\ clock c1 <= clock (client w') <= d) as [Hs Hw'].
    { unfold wait_turn in Eg. cbn [client w] in Eg. rewrite E in Eg. destruct f; [|done]. destruct (_ || _); [done|]. injection Eg as <-. split; [done|].
      assert (clock c1 < d) as Hd by (unfold d, _RETRY_SECONDS; lia).
      pose proof (wait_length (jitter 0) 0 poll (clock c1) d (proj1 (jitter_bounds _)) Hd) as Hw. cbn zeta in Hw.
      change (clock c1 <= clock c1 + _next_wait (jitter 0) 0 (Some d) poll (clock c1) <= d). lia. }
    rewrite (failing_loop poll verbose 335 Hf w' (clock c1) Hs). apply loop_ends; unfold d, _RETRY_SECONDS in *; lia. }
  destruct (failing_result poll verbose 336 Hf None w r c' Hl) as [f' ->]. exists f', c'. split; [exact Hl|].
  destruct Hw as [[Hw _] _]. cbn [is_error] in Hw. rewrite andb_false_r in Hw. unfold d in Hw. lia.
Qed.

End correctness.

(** The status of a row, as the client shows it: final exactly when the row has ended, and its main status is read back. *)
Definition shown (st : JobStatus) (sub : option SubStatus) : option string :=
  _map_status_from_serveless (Some (match st, sub with RUNNING, Some s => sub_status_str s | _, _ => status_str st end)).
Lemma shown_final st sub : is_final (shown st sub) = bool_decide (st ∈ TERMINAL_STATUSES).
Proof. by destruct st, sub as [[]|]; vm_compute. Qed.
Lemma shown_main st sub : (_map_status_to_serverless (shown st sub)).1 = Some (status_str st).
Proof. by destruct st, sub as [[]|]; vm_compute. Qed.

Section row.
Context (get_status : nat -> string -> Requested) (get_job : nat -> Requested) (took : nat -> Z) (st : JobStatus) (sub : option SubStatus).
Context (by_token : forall n t, get_status n t = row_answer st sub) (by_key : forall n, get_job n = row_answer st sub).

Lemma row_by_key c : final_status c = None ->
  exists c1, with_api_key get_job took c = (inr (Some (row_data st sub)), c1) /\ final_status c1 = None.
Proof. intros H. eexists. split; [unfold with_api_key, request; by rewrite by_key|done]. Qed.
Lemma row_read c : final_status c = None ->
  exists c1, get_job_data get_status get_job took c = (inr (Some (row_data st sub)), c1) /\ final_status c1 = None.
Proof.
  intros H. unfold get_job_data. destruct (token c) as [[t at_]|]; [|by apply row_by_key]. destruct (_ <? _); [|by apply row_by_key].
  eexists. split; [unfold request; by rewrite by_token|done].
Qed.

(** Whichever token or key a check uses, it shows the row the gateway answers with, and remembers it exactly when it has ended. *)
Theorem check_shows_the_row c : final_status c = None ->
  let '(r, c') := ClientJob.status get_status get_job took c in
  r = inr (shown st sub) /\ final_status c' = (if bool_decide (st ∈ TERMINAL_STATUSES) then shown st sub else None).
Proof.
  intros Hf. destruct (row_read c Hf) as (c1 & Hd & H1). unfold ClientJob.status. rewrite Hf. unfold _fetch_status. rewrite Hd.
  rewrite <- (shown_final st sub). by destruct st, sub as [[]|].
Qed.
End row.

(** ** A small gateway *)

Module client_small.
Definition took (n : nat) : Z := 100000.
Definition jitter (n : nat) : Z := 1000.
Definition new : Client := mk_client 0 0 None None.
(** Runs for three checks, with a token from the first. *)
Definition runs (n : nat) : Requested :=
  Answered (mk_answer true 200 "" (Some (JObj (if (n <? 3)%nat then row_data Models.RUNNING (Some MAPPING) else row_data SUCCEEDED None))) (Some "t")).
Definition runs_for_token (n : nat) (t : string) : Requested :=
  if bool_decide (t = "t") then runs n else Answered (mk_answer false 403 "" (Some (JObj [])) None).
Definition down (n : nat) : Requested := Unconnected.
(** A job that failed without an event. *)
Definition failed (n : nat) : Requested := row_answer FAILED None.
Definition no_events (n : nat) : Requested := Answered (mk_answer true 200 "" (Some (JArr [])) None).
Definition wait (get_status : nat -> string -> Requested) (get_job : nat -> Requested) (fuel : nat) (timeout : option Z) (verbose : bool) :=
  (fun rc => (rc.1, clock rc.2, sent rc.2)) <$> wait_for_final_state get_status get_job took jitter no_events down fuel timeout None verbose new.
End client_small.
Import client_small.

(** Checked at 0, 1.1, 3.2 and 7.3 s. *)
Example wait_done : wait runs_for_token runs 10 (Some 60000000) false = Some (inr (Some "DONE"), 7400000, 4%nat).
Proof. by vm_compute. Qed.
Example wait_too_short : wait runs_for_token runs 10 (Some 2000000) true = Some (inl (TimeoutError (Some "RUNNING: MAPPING")), 2100000, 3%nat).
Proof. by vm_compute. Qed.
(** Five minutes of checks that no one answers. *)
Example wait_down : wait (fun n _ => down n) down 336 None false = Some (inl (StatusFailed (ServerlessError (Named "CONN1001"))), 300200000, 11%nat).
Proof. by vm_compute. Qed.
(** The error message is asked for twice, and that nobody answers is not the end of the wait. *)
Example wait_verbose : wait (fun n _ => failed n) failed 10 (Some 0) true = Some (inr (Some "ERROR"), 300000, 3%nat).
Proof. by vm_compute. Qed.
(** An error whose body is a list is not the exception the client documents. *)
Example list_of_errors :
  wait (fun n _ => down n) (fun _ => Answered (mk_answer false 400 "" (Some (JArr [JStr "no such job"])) None)) 10 (Some 60000000) false
  = Some (inl (StatusFailed (OtherError (mk_exn AttributeError "object has no attribute 'values'"))), 100000, 1%nat).
Proof. by vm_compute. Qed.
(** A check of three requests, after the only deadline: the token is refused, and the job is told without fields. *)
Example three_requests : let refused := Answered (mk_answer false 401 "" (Some (JObj [])) None) in
  let empty := Answered (mk_answer true 200 "" (Some (JObj [])) None) in
  let '(r, c) := ClientJob.status (fun _ _ => refused) (fun n => if (n =? 1)%nat then empty else failed n) took (mk_client 0 0 (Some ("t", 0)) None) in
  (r, clock c, sent c) = (inr (Some "ERROR"), 300000, 3%nat).
Proof. by vm_compute. Qed.

(** The small gateway takes every token: the wait ends one request after its deadline at most. *)
Lemma runs_plain : plain (fun n _ => runs n) runs.
Proof. split; [intros n t code|intros n]; unfold runs; by destruct (n <? 3)%nat. Qed.
